(* ===== verification/_CoqProject ===== *)
-Q . S2P
Prelude.v
GoStrings.v
GoNet.v
Ports.v
NetUtils.v
IPAlloc.v
Env.v
Engine.v
State.v
Monitor.v
Iptables.v
PortMapper.v
Events.v
Parsers.v
StdCopy.v
Tags.v
GoPath.v
Opts.v
RunConfig.v
Resolv.v
GoSort.v
Bridge.v
BridgeSetup.v
Links.v
GraphDB.v
Names.v
Layers.v
Utf8.v
Flags.v
Images.v
ImageDelete.v
GoJSON.v
Builder.v
Builds.v
Rebuild.v
Cached.v
Create.v
Stores.v
BuildStore.v
JSONValues.v
Devmapper.v
DeviceSet.v
Devices.v
DeviceDemo.v
GoState.v
Symlink.v
Volumes.v
JSONText.v
Broadcast.v
Logs.v
Lease.v
Startup.v
Started.v
StartDemo.v
