(* ===== verification/Prelude.v ===== *)
(** * Verification library of the Docker 1.2.0 engine

    This library translates the core logic of the Docker 1.2.0 daemon, the Go
    sources under src/docker1.2.0-master/, into executable definitions and
    proves what makes each part correct.  All file names below are relative
    to that directory.

    ** How the program is put together

    The daemon is an _engine_: a table of named jobs with textual arguments, an
    environment of key=value pairs, and streams for their output (engine/).
    Clients, the HTTP server, links between containers and the network driver
    all call jobs.  Starting a container runs a _monitor_ (daemon/monitor.go)
    that executes the process, changes the container's _state_
    (daemon/state.go) and restarts it by policy; each change is logged and
    sent to subscribers (events/).  Before the process starts, the _bridge
    driver_ (daemon/networkdriver/bridge) gives it an address from a pool
    (ipallocator), publishes ports (portmapper over portallocator, iptables
    and a proxy process), and links it to others (links/).  Names lead to
    containers through a graph database (pkg/graphdb) and to images through
    the tag store (graph/tags.go) and an index by unique prefix
    (pkg/truncindex).  The command line is parsed and merged with an image's
    configuration in opts/ and runconfig/.

    ** Files and what they model

    - Prelude: results, outcomes (return, panic, out of fuel), machine
      integers, loops on fuel, shared tactics.
    - GoStrings, GoNet, GoPath, GoSort: what the code uses of Go's strings,
      strconv, net, path and sort packages.
    - Ports: daemon/networkdriver/portallocator.  IPAlloc:
      daemon/networkdriver/ipallocator.  NetUtils: daemon/networkdriver/utils.go.
    - Iptables: pkg/iptables.  PortMapper: daemon/networkdriver/portmapper,
      over Ports and Iptables.  Bridge and BridgeSetup: the jobs and the setup
      of daemon/networkdriver/bridge, over NetUtils, IPAlloc and PortMapper.
      Links: links/, over Bridge.  Resolv: pkg/networkfs/resolvconf.
    - Env: engine/env.go.  Engine: engine/engine.go, job.go, streams.go.
    - State: daemon/state.go.  Monitor: daemon/monitor.go, over State.
    - Events: events/events.go.  StdCopy: utils/stdcopy.go.
    - Parsers: pkg/parsers, pkg/version, pkg/units, nat.  Opts: opts/.
      RunConfig: runconfig/, over Parsers and Opts.
    - Tags: pkg/truncindex and graph/tags.go.  GraphDB: pkg/graphdb.
    - Names: the containers of daemon/daemon.go and daemon/delete.go: their
      registration, names, links and removal, over State, Tags and GraphDB.
    - Layers: the differences between file trees (archive/changes.go), the
      layers they are exported as and their application (archive/diff.go);
      making or removing an entry changes the time of its directory.
    - Utf8: the runes of a Go string.  Flags: command-line flags (pkg/mflag).
    - Images: the graph of images and their layers (graph/graph.go, load.go,
      image/image.go, the driver vfs), with Tags' index.  ImageDelete: the
      deletion of images (daemon/image_delete.go), over Images, Tags and the
      containers of Names.
    - Create: the daemon's stores together - graph, tags, containers - and
      the making of containers and images (daemon/create.go, commit.go and
      the parts of daemon.go they call).  Stores: what the stores keep.
      Cached: the search for cached images.
    - Builder: Dockerfiles (daemon/build.go), against the interface
      [BuildDaemon]; GoJSON: Go's encoding/json for lists of strings.
      Builds and Rebuild: its theorems, the latter against the laws
      [BuildLaws].  BuildStore: the stores of Create as the builder's daemon,
      and the proof of the laws.
    - Devmapper: daemon/graphdriver/devmapper/devmapper.go, mount.go and
      attach_loopback.go, over the interface [Host].  DeviceSet: deviceset.go
      and driver.go, over Devmapper and JSONValues (objects of encoding/json).
      Devices: its theorems against the laws [PoolLaws] of a pool that
      records whose snapshot a device is; DeviceDemo: a pool that satisfies
      them, the witnesses and the crashes.
    - GoState: computations with a state and an error, shared by the
      components written as such.  Symlink: pkg/symlink.  Volumes:
      daemon/volumes.go, over Symlink.
    - JSONText: strings and streams of values of encoding/json.  Broadcast:
      pkg/broadcastwriter and pkg/jsonlog, over writers ([Sinks]) and times
      ([GoTime]).  Logs: pkg/tailfile and daemon/logs.go, over Broadcast.
    - Startup: daemon/container.go from Start to waitForStart, daemon/start.go,
      pkg/networkfs/etchosts and parts of daemon/utils.go and utils/utils.go,
      over Volumes, Bridge, Links, Resolv and State; surroundings are the
      classes [StartHost] and [Setup].  Lease: what a container holds of the
      bridge driver, the laws the start relies on.  Started: the theorems,
      against the laws [MountLaws]; StartDemo: their instances and witnesses.

    Operations have the names of the Go functions; an underscore is added where
    the name is a keyword or taken ([Set_]).  A method that changes its
    receiver takes the state and returns the new one; Go's value-and-error
    pair is [result]; a run-time panic is [Panic]; a loop that need not end
    takes fuel and returns [OutOfFuel] without it.  A mutex makes an operation
    one step; where the code releases it in the middle (State's two waiting
    methods) the halves are separate steps that interleave.

    ** Interfaces

    Code that is not under the source tree, and components whose contract is all
    that matters, are classes: [Tags.Trie] (the patricia trie) with an
    association list as instance, [Tags.ImageGraph] (the image store) with the
    graph of Images as instance, [Images.GraphDriver] (storage drivers) with
    the driver vfs as instance, [Iptables.IptablesLaws] (the rule list the
    iptables binary keeps) and [BridgeSetup.IptablesTable] (its [-C] command),
    each with a multiset of rules as instance, [GoSort.GoSort] (sort.Sort)
    with insertion sort, [GraphDB.QueryOrder] (the order of the rows of a
    query) with the stored order, [Builder.BuildDaemon] and its laws
    [Rebuild.BuildLaws] (what the builder does with the daemon) with the
    daemon's stores (BuildStore), [Devmapper.Host] (libdevmapper and the
    system calls) and [Devices.PoolLaws] (what a thin pool does with its
    messages) with the pool of DeviceDemo.  Clients' theorems use the laws only, and
    witnesses run on the instances.

    ** What the theorems show

    - Pools: [Ports.RequestPort_spec], [RequestPort_ReleasePort],
      [IPAlloc.RequestIP_next_spec], [RequestIP_ReleaseIP]: nothing is handed
      out twice, the next free port or address is found when there is one, and
      what is released is free again; [Ports.RequestPort_hangs_iff] says
      exactly when the search for a port never ends, and that it ends within
      one round otherwise.  Addresses are those of pools in which every
      address asked for lay in its network ([RequestIP_escapes_network]).
    - Networks: [NetUtils.NetworkRange_interval], [NetworkOverlaps_correct],
      [CheckOverlaps_correct]: the byte arithmetic against intervals.
    - Published ports, bridge and links: [PortMapper.Map_failures],
      [Bridge.Release_restores], [AllocatePort_once],
      [BridgeSetup.setupIPTables_rules], [createBridge_address],
      [Links.ToEnv_spec], [Enable_Disable]: the life cycle leaves pools, rules
      and mappings as they were; failures roll back.
    - Engine: [Engine.Tail_spec], [Run_reports], [ParseJob_words], and
      [Env]'s lemmas on typed values.
    - Containers: [State.State_invariant], [WaitStop_wakes],
      [Monitor.Start_policy] (the loop refines the policy),
      [Start_backoff], [Events.Events_run] (and [served_run], for the
      goroutines that log).
    - Names: [Tags.Set_tag], [ByID_DeleteAll], [TruncIndex_spec],
      [GraphDB.Set_Get], [graph_invariant], [children_correct], [Purge_spec].
    - Texts: [StdCopy.StdCopy_demux], [Parsers.ParseHost_normal],
      [ParsePortSpecs_spec], [Opts.ParseEnvFile_spec], [RunConfig.Merge_spec],
      [parseRun_safe], [Resolv.Build_roundtrip].
    - Containers and names together: [Names.create_Destroy] (the life of a
      name), [reserveName_spec], [circular_links_hang],
      [ContainerDestroy_volumes].
    - Layers: [Layers.Changes_ApplyLayer] (exported changes applied to the old
      tree give the new one, with the times of the directories the layer
      holds; of the others see [replaced_file_touches]), [ApplyLayer_escapes].
    - Flags: [Flags.Parse_render] (the words of any settings set exactly
      those), [Parse_errors] (a word that is wrong in any of the ways there
      are, and what is set before it), [Parse_ends], [FlagSet_types].
    - Images: [Images.graph_images] (what the graph keeps through registrations,
      deletions and restarts, where the driver may fail and only the rename
      of a deletion may not, for which see [Delete_rename_fails] and
      [rename_orphans]), [History_ends], [Register_spec],
      [Register_escapes]; [ImageDelete.DeleteImage_prunes] and
      [DeleteImage_keeps] (what a deletion removes and what it never does,
      under the same proviso),
      [DeleteImage_missing].
    - The builder: [Builds.Build_ends], [BuildStep_command] (the command of
      the configuration after each instruction, FROM and its triggers
      included), [buildCmdFromJson_forms], and [Rebuild.Build_again]:
      building a repeatable Dockerfile again finds every image, for every
      daemon that satisfies [BuildLaws], as [BuildStore.store_laws] shows of
      the stores.  The order in which the ports of an EXPOSE are printed is
      another at each build; the clock of the stores is any function.
      [Stores.Create_spec] and [Commit_found], [Cached.ImageGetCached_spec].
    - The device mapper: [Devices.AddDevice_atomic] (whatever fails, and
      wherever the daemon stops, a new device is there wholly or not at all),
      [serve_all_good] (on a host that is [steady]), [setupBaseImage_good],
      [restart_loads] (the numbers in the text of a file, read by
      [device_of]), [mounts_nest];
      [DeviceDemo.lost_device_returns] and [half_deleted_shares_id] are runs
      on which a stop of the daemon does harm later.
    - Volumes: [Volumes.prepareVolumes_spec] and [prepareVolumes_again];
      [Symlink.FollowSymlinkInScope_chroot] against a process's own
      resolution, [FollowSymlinkInScope_escapes].
    - Logs: [Broadcast.writers_receive], [Logs.TailFile_correct] and
      [ContainerLogs_shows]: what a container writes is what the job logs
      shows, up to lines that are not complete and bytes that are no UTF-8.
    - Starting: [Started.Start_failed] (a failing start leaves nothing
      behind, where proxies start and the interface the driver lists for the
      container is nobody's), [Start_running] (what the settings say is so:
      [Lease.published_at] says what a published port is),
      [Start_takes_others] (what it takes from others).
    Behaviour that is not what the code means is stated as it is:
    [Ports.RequestPort_hangs_iff], [Bridge.Release_twice_shares_address],
    [GraphDB.Set_cycle_hangs] and others say how it comes about.

    ** Bounds and fuel

    [Ports.findPort_fuel] is 16384, the 16383 ports of the range and one.
    [GraphDB.children] needs one unit per level; [children_correct] gives the
    number for a bounded depth and the condition for an unbounded one.
    StdCopy's loop takes a frame of at least eight bytes per turn, so the
    number of bytes and one is enough.  [Opts.scan] keeps bufio.Scanner's limit
    of 65536 bytes per line.  [Monitor.Start_backoff] is stated for the
    attempts after which the doubled delay still fits 64 bits.
    [Builder.BuildStep] has fuel two, enough by [Builds.Build_ends];
    [Stores.walk_fuel], one more than there are images, is enough for the
    depth of an image ([Stores.CheckDepth_returns]).  The search for a device
    identifier gets more than the 2^24 identifiers there are, and the waits
    for a device keep the code's 1000 tries.  int32 and int64
    values wrap where the code computes with them (IPAlloc, Monitor, GraphDB's
    depth); elsewhere Go's int is Z.

    ** Not modelled

    The client and the HTTP server (printing and request routing), process
    execution (execdriver), the drivers aufs and btrfs, archives on disk, and the registry's HTTP sessions are
    I/O around system calls or third-party packages.  Vendored code, tests and
    packaging are left out. *)

From stdpp Require Import base gmap sets list strings.
From Stdlib Require Import ZArith Lia.

(** ** Results: Go's [(value, error)] pairs

    A Go function that returns [(T, error)] returns either a value or an
    error.  [result E A] is that sum; it is a stdpp monad, so definitions
    that thread errors use [x ← m; k]. *)

Inductive result (E A : Type) : Type :=
| Ok (a : A)
| Err (e : E).
Arguments Ok {E A} a.
Arguments Err {E A} e.

#[export] Instance result_ret {E} : MRet (result E) := fun A a => Ok a.
#[export] Instance result_bind {E} : MBind (result E) :=
  fun A B f m => match m with Ok a => f a | Err e => Err e end.
#[export] Instance result_fmap {E} : FMap (result E) :=
  fun A B f m => match m with Ok a => Ok (f a) | Err e => Err e end.

#[export] Instance result_eq_dec {E A} `{EqDecision E} `{EqDecision A} :
  EqDecision (result E A).
Proof. solve_decision. Defined.

Definition is_ok {E A} (r : result E A) : bool :=
  match r with Ok _ => true | Err _ => false end.

(** [mapM] for results: Go's loop "for each element, return on error". *)
Fixpoint result_mapM {E A B} (f : A -> result E B) (l : list A) : result E (list B) :=
  match l with
  | [] => Ok []
  | x :: l' => y ← f x; ys ← result_mapM f l'; Ok (y :: ys)
  end.

(** Left fold that stops at the first error. *)
Fixpoint result_foldl {E A S} (f : S -> A -> result E S) (s : S) (l : list A) : result E S :=
  match l with
  | [] => Ok s
  | x :: l' => s' ← f s x; result_foldl f s' l'
  end.

(** ** Outcomes of Go code that can panic or run out of fuel

    [Panic] is a Go run-time panic (index out of range, nil dereference,
    explicit [panic]); [OutOfFuel] is a loop whose fuel is spent, and only the
    latter is an artefact of the model. *)

Inductive outcome (A : Type) : Type :=
| Return (a : A)
| Panic
| OutOfFuel.
Arguments Return {A} a.
Arguments Panic {A}.
Arguments OutOfFuel {A}.

#[export] Instance outcome_ret : MRet outcome := fun A a => Return a.
#[export] Instance outcome_bind : MBind outcome :=
  fun A B f m =>
    match m with Return a => f a | Panic => Panic | OutOfFuel => OutOfFuel end.
#[export] Instance outcome_fmap : FMap outcome :=
  fun A B f m =>
    match m with Return a => Return (f a) | Panic => Panic | OutOfFuel => OutOfFuel end.

(** Indexing and dereferencing panic when there is nothing there. *)
Definition or_panic {A} (o : option A) : outcome A :=
  match o with Some a => Return a | None => Panic end.

Definition or_out_of_fuel {A} (o : option A) : outcome A :=
  match o with Some a => Return a | None => OutOfFuel end.

(** ** Machine integers

    Go integers of width [w] are kept as [Z] in their range; conversions and
    arithmetic that can leave the range wrap explicitly. *)

Definition wrapU (w z : Z) : Z := (z mod 2 ^ w)%Z.
Definition wrapS (w z : Z) : Z := ((z + 2 ^ (w - 1)) mod 2 ^ w - 2 ^ (w - 1))%Z.

Abbreviation uint8 := (wrapU 8).
Abbreviation uint16 := (wrapU 16).
Abbreviation uint32 := (wrapU 32).
Abbreviation uint64 := (wrapU 64).
Abbreviation int32 := (wrapS 32).
Abbreviation int64 := (wrapS 64).

Definition max_int64 : Z := 9223372036854775807.
Definition min_int64 : Z := -9223372036854775808.

(** ** Loops

    A Go [for] loop is a step function on its variables: [inl s'] runs the
    next iteration, [inr r] leaves the loop.  [loop] runs it on fuel. *)

Fixpoint loop {S R : Type} (step : S -> S + R) (fuel : nat) (s : S) : option R :=
  match fuel with
  | O => None
  | Datatypes.S n => match step s with inl s' => loop step n s' | inr r => Some r end
  end.

Create HintDb docker discriminated.
Create Rewrite HintDb docker_rw.

(** Destruct the scrutinee of an innermost [match] of the goal or a hypothesis. *)
Ltac case_in H :=
  match type of H with
  | context [match ?x with _ => _ end] =>
      lazymatch x with
      | context [match _ with _ => _ end] => fail
      | _ => let E := fresh "E" in destruct x eqn:E
      end
  end.

Ltac case_goal :=
  match goal with
  | |- context [match ?x with _ => _ end] =>
      lazymatch x with
      | context [match _ with _ => _ end] => fail
      | _ => let E := fresh "E" in destruct x eqn:E
      end
  end.

(** Turn the boolean tests of the code into propositions. *)
Ltac reflect_bools :=
  repeat match goal with
  | H : andb _ _ = true |- _ => apply andb_true_iff in H as [? ?]
  | H : orb _ _ = false |- _ => apply orb_false_iff in H as [? ?]
  | H : negb _ = true |- _ => apply negb_true_iff in H
  | H : negb _ = false |- _ => apply negb_false_iff in H
  | H : bool_decide _ = true |- _ => apply bool_decide_eq_true in H
  | H : bool_decide _ = false |- _ => apply bool_decide_eq_false in H
  | H : Z.eqb _ _ = true |- _ => apply Z.eqb_eq in H
  | H : Z.eqb _ _ = false |- _ => apply Z.eqb_neq in H
  | H : Z.leb _ _ = true |- _ => apply Z.leb_le in H
  | H : Z.leb _ _ = false |- _ => apply Z.leb_gt in H
  | H : Z.ltb _ _ = true |- _ => apply Z.ltb_lt in H
  | H : Z.ltb _ _ = false |- _ => apply Z.ltb_ge in H
  | H : String.eqb _ _ = true |- _ => apply String.eqb_eq in H
  | H : String.eqb _ _ = false |- _ => apply String.eqb_neq in H
  end.

(** ** Lemmas on results *)

Lemma bind_ok {E A B} (m : result E A) (f : A -> result E B) b :
  (m ≫= f) = Ok b <-> exists a, m = Ok a /\ f a = Ok b.
Proof.
  destruct m as [a|e]; simpl; split; [eauto | intros (?&[=->]&?); done | done |].
  intros (?&?&?); done.
Qed.

(** Case analysis of a closed term, without a search for it in the goal. *)
Lemma some_such {A} (o : option A) (P : A -> Prop) : match o with Some a => P a | None => False end -> exists a, o = Some a /\ P a.
Proof. destruct o as [a|]; [by exists a|done]. Qed.

Lemma returned {A} (o : outcome A) : match o with Return _ => True | _ => False end -> exists a, o = Return a.
Proof. destruct o as [a| |]; [by exists a|done..]. Qed.

Lemma result_mapM_length {E A B} (f : A -> result E B) l l' :
  result_mapM f l = Ok l' -> length l' = length l.
Proof.
  revert l'. induction l as [|x l IH]; simpl; intros l' H; [by injection H as <-|].
  apply bind_ok in H as (y & _ & H). apply bind_ok in H as (ys & Hys & [= <-]).
  simpl. by rewrite (IH _ Hys).
Qed.

Lemma result_mapM_Forall2 {E A B} (f : A -> result E B) l l' :
  result_mapM f l = Ok l' <-> Forall2 (fun x y => f x = Ok y) l l'.
Proof.
  revert l'. induction l as [|x l IH]; simpl; intros l'; split.
  - intros [= <-]. constructor.
  - intros H. by inversion H.
  - intros H. apply bind_ok in H as (y & Hy & H). apply bind_ok in H as (ys & Hys & [= <-]).
    constructor; [done|]. by apply IH.
  - intros H. inversion H as [|? y ? ys Hy Hys]; subst. rewrite Hy. simpl.
    apply IH in Hys. by rewrite Hys.
Qed.

Lemma result_foldl_app {E A S} (f : S -> A -> result E S) s l k :
  result_foldl f s (l ++ k) = (s' ← result_foldl f s l; result_foldl f s' k).
Proof.
  revert s. induction l as [|x l IH]; intros s; [done|]. simpl.
  destruct (f s x); simpl; [apply IH | done].
Qed.

(** An invariant of the step of a stopping fold holds of its result. *)
Lemma result_foldl_inv {E A S} (P : S -> Prop) (f : S -> A -> result E S) s l s' :
  (forall s x s', x ∈ l -> P s -> f s x = Ok s' -> P s') ->
  P s -> result_foldl f s l = Ok s' -> P s'.
Proof.
  intros Hstep. revert s. induction l as [|x l IH]; simpl; intros s HP H.
  - by injection H as <-.
  - apply bind_ok in H as (s1 & H1 & H). eapply IH in H; eauto.
    + intros; eapply Hstep; eauto. by right.
    + eapply Hstep; eauto. by left.
Qed.

Lemma outcome_bind_return {A B} (m : outcome A) (f : A -> outcome B) b :
  (m ≫= f) = Return b <-> exists a, m = Return a /\ f a = Return b.
Proof.
  destruct m as [a| |]; simpl; split; [eauto | by intros (?&[=->]&?) | done | | done |];
    by intros (?&?&?).
Qed.

(** ** Lemmas on machine integers *)

Lemma wrapU_range w z : (0 <= w -> 0 <= wrapU w z < 2 ^ w)%Z.
Proof. intros. apply Z.mod_pos_bound. lia. Qed.

Lemma wrapU_small w z : (0 <= z < 2 ^ w -> wrapU w z = z)%Z.
Proof. intros. by apply Z.mod_small. Qed.

Lemma wrapS_range w z : (0 < w -> - 2 ^ (w - 1) <= wrapS w z < 2 ^ (w - 1))%Z.
Proof.
  intros Hw. unfold wrapS.
  pose proof (Z.mod_pos_bound (z + 2 ^ (w - 1)) (2 ^ w) ltac:(lia)).
  assert (2 ^ w = 2 * 2 ^ (w - 1))%Z by (rewrite <- Z.pow_succ_r by lia; f_equal; lia).
  lia.
Qed.

Lemma wrapS_small w z : (0 < w -> - 2 ^ (w - 1) <= z < 2 ^ (w - 1) -> wrapS w z = z)%Z.
Proof.
  intros Hw H. unfold wrapS.
  assert (2 ^ w = 2 * 2 ^ (w - 1))%Z by (rewrite <- Z.pow_succ_r by lia; f_equal; lia).
  rewrite Z.mod_small by lia. lia.
Qed.

(** Bounded search: the least index below [n] that fails [P], or none does. *)
Lemma least_or_all (P : nat -> Prop) `{forall i, Decision (P i)} (n : nat) :
  (exists k, k < n /\ ~ P k /\ forall i, i < k -> P i) \/ (forall i, i < n -> P i).
Proof.
  induction n as [|n [(k&?&?&?)|IH]]; [right; lia | left; exists k; split_and!; auto; lia |].
  destruct (decide (P n)).
  - right. intros i Hi. destruct (decide (i = n)) as [->|]; [done|]. apply IH. lia.
  - left. exists n. split_and!; auto.
Qed.

(** ** Lemmas on loops *)

Section Loop.
Context {S R : Type} (step : S -> S + R).

Lemma loop_mono n m s r : n <= m -> loop step n s = Some r -> loop step m s = Some r.
Proof.
  revert m s. induction n as [|n IH]; intros m s Hle H; [done|].
  destruct m as [|m]; [lia|]. simpl in *.
  destruct (step s); [apply IH; [lia | done] | done].
Qed.

(** Total correctness: an invariant, a measure that every further iteration
    decreases, and a postcondition at the exit. *)
Lemma loop_total (I : S -> Prop) (m : S -> nat) (Q : R -> Prop) s n :
  (forall s s', I s -> step s = inl s' -> I s' /\ m s' < m s) ->
  (forall s r, I s -> step s = inr r -> Q r) ->
  I s -> m s < n -> exists r, loop step n s = Some r /\ Q r.
Proof.
  intros Hs Hq. revert s. induction n as [|n IH]; intros s HI Hm; [lia|].
  simpl. destruct (step s) as [s'|r] eqn:E.
  - destruct (Hs _ _ HI E) as [HI' Hlt]. apply IH; [done | lia].
  - eauto.
Qed.

(** Partial correctness: the invariant holds when the loop is left. *)
Lemma loop_inv (I : S -> Prop) s n r :
  (forall s s', I s -> step s = inl s' -> I s') ->
  I s -> loop step n s = Some r -> exists s', I s' /\ step s' = inr r.
Proof.
  intros Hs. revert s. induction n as [|n IH]; intros s HI H; [done|].
  simpl in H. destruct (step s) as [s'|r'] eqn:E.
  - eapply IH; [|done]. eauto.
  - injection H as <-. eauto.
Qed.

(** Unrolling [k] iterations whose states are [f 0], ..., [f k]. *)
Lemma loop_run (f : nat -> S) k n :
  (forall i, i < k -> step (f i) = inl (f (Datatypes.S i))) ->
  loop step (k + n) (f 0) = loop step n (f k).
Proof.
  revert f. induction k as [|k IH]; intros f Hf; [done|].
  simpl. rewrite (Hf 0) by lia.
  rewrite (IH (fun i => f (Datatypes.S i))); [done|]. intros i Hi. apply Hf. lia.
Qed.

(** Divergence: an invariant under which every iteration continues. *)
Lemma loop_diverges (I : S -> Prop) s n :
  (forall s, I s -> exists s', step s = inl s' /\ I s') -> I s -> loop step n s = None.
Proof.
  intros Hs. revert s. induction n as [|n IH]; intros s HI; [done|].
  simpl. destruct (Hs _ HI) as (s' & -> & HI'). by apply IH.
Qed.
End Loop.

#[export] Hint Resolve wrapU_range wrapS_range loop_mono : docker.
