(* ===== verification/GoStrings.v ===== *)
(** * Go's [strings] and [strconv] functions used by the engine

    A Go string is a byte string; it is Rocq's [string], one [ascii] per byte.
    The functions here are the single-byte-separator instances of
    [strings.Split], [strings.SplitN], [strings.Index], [strings.LastIndex],
    [strings.Join], [strings.Trim]..., and [strconv.ParseUint], [ParseInt]
    and [Atoi] in base 10 with their range checks.  Case mapping and white
    space are the ASCII part of the Unicode tables. *)

From stdpp Require Import base list strings pretty.
From Stdlib Require Import ZArith Lia Ascii.
From S2P Require Import Prelude.

Local Open Scope Z_scope.

(** ** Searching and slicing *)

Fixpoint contains_char (c : ascii) (s : string) : bool :=
  match s with
  | EmptyString => false
  | String d s' => Ascii.eqb d c || contains_char c s'
  end.

(** [strings.HasPrefix s p] *)
Definition has_prefix (p s : string) : bool := String.prefix p s.

(** [strings.Contains s sub] *)
Fixpoint contains (sub s : string) : bool :=
  has_prefix sub s ||
  match s with EmptyString => false | String _ s' => contains sub s' end.

(** [s\[n:\]] and [s\[:n\]] *)
Fixpoint drop_str (n : nat) (s : string) : string :=
  match n, s with
  | S n', String _ s' => drop_str n' s'
  | _, _ => s
  end.

Fixpoint take_str (n : nat) (s : string) : string :=
  match n, s with
  | S n', String c s' => String c (take_str n' s')
  | _, _ => ""
  end.

(** [strings.TrimPrefix s p] *)
Definition trim_prefix (p s : string) : string :=
  if has_prefix p s then drop_str (String.length p) s else s.

(** [strings.Index s c] and [strings.LastIndex s c]; [None] is [-1]. *)
Fixpoint index_char (c : ascii) (s : string) : option nat :=
  match s with
  | EmptyString => None
  | String d s' => if Ascii.eqb d c then Some O else S <$> index_char c s'
  end.

Fixpoint last_index_char (c : ascii) (s : string) : option nat :=
  match s with
  | EmptyString => None
  | String d s' =>
      match last_index_char c s' with
      | Some n => Some (S n)
      | None => if Ascii.eqb d c then Some O else None
      end
  end.

(** ** Splitting and joining *)

(** [strings.Split s (string c)]: never the empty slice. *)
Fixpoint split (c : ascii) (s : string) : list string :=
  match s with
  | EmptyString => [""]
  | String d s' =>
      if Ascii.eqb d c then "" :: split c s'
      else match split c s' with
           | [] => [String d ""]
           | w :: ws => String d w :: ws
           end
  end.

(** [strings.SplitN s (string c) 2] *)
Definition split2 (c : ascii) (s : string) : list string :=
  match index_char c s with
  | None => [s]
  | Some n => [take_str n s; drop_str (S n) s]
  end.

(** [strings.Join l sep] *)
Fixpoint join (sep : string) (l : list string) : string :=
  match l with
  | [] => ""
  | [x] => x
  | x :: l' => x +:+ sep +:+ join sep l'
  end.

(** ** Trimming and case *)

Fixpoint rev_str_app (s acc : string) : string :=
  match s with EmptyString => acc | String c s' => rev_str_app s' (String c acc) end.
Definition rev_str (s : string) : string := rev_str_app s "".

(** [strings.TrimLeftFunc], [TrimRightFunc] and [TrimFunc] *)
Fixpoint trim_left (p : ascii -> bool) (s : string) : string :=
  match s with
  | EmptyString => ""
  | String c s' => if p c then trim_left p s' else s
  end.
Definition trim_right (p : ascii -> bool) (s : string) : string :=
  rev_str (trim_left p (rev_str s)).
Definition trim (p : ascii -> bool) (s : string) : string := trim_right p (trim_left p s).

Definition is_blank (c : ascii) : bool := Ascii.eqb c " " || Ascii.eqb c "009".
(** [strings.HasSuffix s p] *)
Definition has_suffix (p s : string) : bool := has_prefix (rev_str p) (rev_str s).

(** [strings.TrimSpace] *)
Definition trim_space : string -> string := trim Ascii.is_space.

Fixpoint map_str (f : ascii -> ascii) (s : string) : string :=
  match s with EmptyString => "" | String c s' => String (f c) (map_str f s') end.

Definition lower_char (c : ascii) : ascii :=
  let n := nat_of_ascii c in
  if (65 <=? n)%nat && (n <=? 90)%nat then ascii_of_nat (n + 32) else c.
Definition upper_char (c : ascii) : ascii :=
  let n := nat_of_ascii c in
  if (97 <=? n)%nat && (n <=? 122)%nat then ascii_of_nat (n - 32) else c.
Definition to_lower : string -> string := map_str lower_char.
Definition to_upper : string -> string := map_str upper_char.

(** [strings.Replace s (string a) (string b) (-1)] *)
Definition replace_char (a b : ascii) : string -> string :=
  map_str (fun c => if Ascii.eqb c a then b else c).

(** ** Numbers *)

Inductive num_error := ErrSyntax | ErrRange.
#[export] Instance num_error_eq_dec : EqDecision num_error.
Proof. solve_decision. Defined.

Definition digit_val (c : ascii) : option Z :=
  let n := Z.of_nat (nat_of_ascii c) in
  if (48 <=? n) && (n <=? 57) then Some (n - 48) else None.

(** The digit loop of [strconv.ParseUint]: [n] is the value so far. *)
Fixpoint parse_digits (max n : Z) (s : string) : result num_error Z :=
  match s with
  | EmptyString => Ok n
  | String c s' =>
      match digit_val c with
      | None => Err ErrSyntax
      | Some v => if max <? n * 10 + v then Err ErrRange else parse_digits max (n * 10 + v) s'
      end
  end.

(** [strconv.ParseUint s 10 bits] *)
Definition parse_uint (bits : Z) (s : string) : result num_error Z :=
  match s with
  | EmptyString => Err ErrSyntax
  | _ => parse_digits (2 ^ bits - 1) 0 s
  end.

(** [strconv.ParseInt s 10 bits]: sign, then [ParseUint], then the cutoff. *)
Definition parse_int (bits : Z) (s : string) : result num_error Z :=
  match s with
  | EmptyString => Err ErrSyntax
  | String c s' =>
      let neg := Ascii.eqb c "-" in
      let body := if Ascii.eqb c "+" || neg then s' else s in
      un ← parse_uint bits body;
      if negb neg && (2 ^ (bits - 1) <=? un) then Err ErrRange
      else if neg && (2 ^ (bits - 1) <? un) then Err ErrRange
      else Ok (if neg then - un else un)
  end.

(** [strconv.Atoi] on a 64-bit platform. *)
Definition atoi : string -> result num_error Z := parse_int 64.

(** [n, _ := strconv.Atoi(s)]: the value the function returns along with an
    error is 0 for bad syntax and the closest bound for a range error. *)
Definition atoi_value (s : string) : Z :=
  match atoi s with
  | Ok n => n
  | Err ErrSyntax => 0
  | Err ErrRange => if has_prefix "-" s then min_int64 else max_int64
  end.

(** [fmt.Sprintf("%d", z)] *)
Definition itoa (z : Z) : string := pretty z.

(** ** Lemmas *)

Lemma string_app_nil_r s : s +:+ "" = s.
Proof. induction s as [|c s IH]; [done|]. unfold String.app. simpl. by f_equal. Qed.

Lemma string_app_assoc a b c : (a +:+ b) +:+ c = a +:+ (b +:+ c).
Proof. induction a as [|x a IH]; [done|]. unfold String.app in *. simpl. by f_equal. Qed.

Lemma string_app_cons c a b : String c a +:+ b = String c (a +:+ b).
Proof. done. Qed.

Lemma contains_char_app c a b :
  contains_char c (a +:+ b) = contains_char c a || contains_char c b.
Proof.
  induction a as [|x a IH]; [done|].
  rewrite string_app_cons. simpl. by rewrite IH, orb_assoc.
Qed.

Lemma index_char_None c s : index_char c s = None <-> contains_char c s = false.
Proof.
  induction s as [|d s IH]; simpl; [done|].
  destruct (Ascii.eqb d c); simpl; [done|].
  rewrite <- IH. by destruct (index_char c s).
Qed.

Lemma split_ne c s : split c s <> [].
Proof. destruct s as [|d s]; simpl; [done|]. destruct (Ascii.eqb d c); [done|]. by destruct (split c s). Qed.

Lemma split_no_sep c s : contains_char c s = false -> split c s = [s].
Proof.
  induction s as [|d s IH]; simpl; [done|]. intros [-> H]%orb_false_iff. by rewrite IH.
Qed.

(** No piece of a split holds the separator. *)
Lemma split_pieces c s : Forall (fun w => contains_char c w = false) (split c s).
Proof.
  induction s as [|d s IH]; simpl; [by constructor|].
  destruct (Ascii.eqb d c) eqn:E; [by constructor|].
  destruct (split c s) as [|w ws]; [constructor; simpl; [by rewrite E|done]|].
  inversion IH; subst. constructor; [|done]. simpl. by rewrite E.
Qed.

Lemma split_app c a b :
  contains_char c a = false -> split c (a +:+ String c b) = a :: split c b.
Proof.
  induction a as [|d a IH].
  - intros _. unfold String.app. simpl. by rewrite Ascii.eqb_refl.
  - cbn [contains_char]. intros [E H]%orb_false_iff. rewrite string_app_cons.
    cbn [split]. by rewrite E, IH.
Qed.

(** A separator in the middle splits the pieces. *)
Lemma split_app_gen c a b : split c (a +:+ String c b) = split c a ++ split c b.
Proof.
  induction a as [|d a IH].
  - unfold String.app. simpl. by rewrite Ascii.eqb_refl.
  - rewrite string_app_cons. cbn [split]. destruct (Ascii.eqb d c); [by rewrite IH|]. rewrite IH.
    destruct (split c a) as [|w ws] eqn:E; [by destruct (split_ne c a)|]. done.
Qed.

Lemma join_cons sep x l : l <> [] -> join sep (x :: l) = x +:+ sep +:+ join sep l.
Proof. by destruct l. Qed.

(** Splitting inverts joining, and joining inverts splitting. *)
Lemma split_join c l :
  l <> [] -> Forall (fun w => contains_char c w = false) l ->
  split c (join (String c "") l) = l.
Proof.
  induction l as [|x l IH]; [done|]. intros _ H. inversion H; subst.
  destruct l as [|y l]; [by apply split_no_sep|].
  rewrite join_cons by done.
  change (String c "" +:+ join (String c "") (y :: l))
    with (String c (join (String c "") (y :: l))).
  rewrite split_app by done. by rewrite IH.
Qed.

Lemma join_split c s : join (String c "") (split c s) = s.
Proof.
  induction s as [|d s IH]; simpl; [done|].
  destruct (Ascii.eqb d c) eqn:E.
  - apply Ascii.eqb_eq in E as ->. rewrite join_cons by apply split_ne. by rewrite IH.
  - destruct (split c s) as [|w ws] eqn:Es; [by apply split_ne in Es|].
    destruct ws as [|w' ws]; simpl in *; [by rewrite IH|].
    rewrite string_app_cons. by rewrite IH.
Qed.

Lemma split2_app c a b :
  contains_char c a = false -> split2 c (a +:+ String c b) = [a; b].
Proof.
  intros H. unfold split2.
  assert (index_char c (a +:+ String c b) = Some (String.length a)) as ->.
  { induction a as [|d a IH]; [unfold String.app; simpl; by rewrite Ascii.eqb_refl|].
    simpl in H. apply orb_false_iff in H as [E H].
    rewrite string_app_cons. simpl. by rewrite E, IH. }
  clear H. f_equal; [|f_equal].
  - induction a as [|d a IH]; [done|]. rewrite string_app_cons.
    change (String d (take_str (String.length a) (a +:+ String c b)) = String d a). by rewrite IH.
  - induction a as [|d a IH]; [done|]. exact IH.
Qed.

(** What [SplitN s c 2] returns, by cases. *)
Lemma split2_spec c s :
  (contains_char c s = false /\ split2 c s = [s]) \/
  exists a b, s = a +:+ String c b /\ contains_char c a = false /\ split2 c s = [a; b].
Proof.
  destruct (contains_char c s) eqn:E.
  - right. assert (exists a b, s = a +:+ String c b /\ contains_char c a = false) as (a&b&->&H).
    { induction s as [|d s IH]; [done|]. simpl in E.
      destruct (Ascii.eqb d c) eqn:Ed.
      - apply Ascii.eqb_eq in Ed as ->. by exists "", s.
      - destruct (IH E) as (a&b&->&Ha). exists (String d a), b. split; [done|].
        simpl. by rewrite Ed, Ha. }
    exists a, b. by rewrite split2_app.
  - left. split; [done|]. unfold split2. apply index_char_None in E. by rewrite E.
Qed.

Lemma digit_val_pretty x : (x < 10)%N -> digit_val (pretty_N_char x) = Some (Z.of_N x).
Proof.
  intros H. assert (x ∈ [0;1;2;3;4;5;6;7;8;9]%N) as Hx.
  { repeat rewrite elem_of_cons. lia. }
  repeat (apply elem_of_cons in Hx as [->|Hx]; [done|]). by apply elem_of_nil in Hx.
Qed.

Lemma parse_digits_pretty_go max x s :
  Z.of_N x <= max -> parse_digits max 0 (pretty_N_go x s) = parse_digits max (Z.of_N x) s.
Proof.
  revert s. induction (N.lt_wf_0 x) as [x _ IH]; intros s Hmax.
  destruct (decide (x = 0)%N) as [->|Hx]; [by rewrite pretty_N_go_0|].
  rewrite pretty_N_go_step by lia.
  pose proof (N.div_mod x 10 ltac:(done)) as Hdm.
  pose proof (N.mod_lt x 10 ltac:(done)) as Hml.
  set (q := (x `div` 10)%N) in *. set (r := (x `mod` 10)%N) in *.
  rewrite IH; [|lia|lia].
  simpl. rewrite digit_val_pretty by done.
  replace (Z.of_N q * 10 + Z.of_N r) with (Z.of_N x) by lia.
  by destruct (Z.ltb_spec max (Z.of_N x)); [lia|].
Qed.

Lemma pretty_N_cons (x : N) :
  exists c s, pretty x = String c s /\ is_Some (digit_val c).
Proof.
  assert (forall x s, (0 < x)%N -> exists c t, pretty_N_go x s = String c t /\ is_Some (digit_val c)) as H.
  { clear x. intros x. induction (N.lt_wf_0 x) as [x _ IH]; intros s Hx.
    rewrite pretty_N_go_step by done.
    destruct (decide (x `div` 10 = 0)%N) as [->|Hd].
    - rewrite pretty_N_go_0. eexists _, _. split; [done|].
      rewrite digit_val_pretty; [eauto|]. by apply N.mod_lt.
    - apply IH; [by apply N.div_lt |]. by apply N.neq_0_lt_0. }
  unfold pretty, pretty_N. case_decide; [by eexists _, _|]. apply H. lia.
Qed.

(** Printing a number in decimal and parsing it back is the identity. *)
Lemma parse_uint_itoa bits z :
  0 <= z < 2 ^ bits -> parse_uint bits (itoa z) = Ok z.
Proof.
  intros Hz. destruct z as [|p|p]; [|  | lia].
  - change (parse_uint bits (itoa 0)) with (if 2 ^ bits - 1 <? 0 then Err ErrRange else Ok 0 : result num_error Z).
    destruct (Z.ltb_spec (2 ^ bits - 1) 0); [lia|done].
  - change (itoa (Z.pos p)) with (pretty (N.pos p)).
    destruct (pretty_N_cons (N.pos p)) as (c&s&Hs&_).
    unfold parse_uint. rewrite Hs, <- Hs. unfold pretty, pretty_N.
    rewrite decide_False by done. rewrite parse_digits_pretty_go by (simpl; lia). done.
Qed.

Lemma digit_not_sign c : is_Some (digit_val c) -> Ascii.eqb c "+" = false /\ Ascii.eqb c "-" = false.
Proof. destruct c as [[] [] [] [] [] [] [] []]; vm_compute; intros [? ?]; done. Qed.

Lemma parse_int_itoa bits z :
  0 < bits -> - 2 ^ (bits - 1) <= z < 2 ^ (bits - 1) -> parse_int bits (itoa z) = Ok z.
Proof.
  intros Hb Hz.
  assert (2 ^ bits = 2 * 2 ^ (bits - 1)) as Hp by (rewrite <- Z.pow_succ_r by lia; f_equal; lia).
  destruct (Z.ltb_spec z 0) as [Hneg|Hpos].
  - destruct z as [|p|p]; [lia|lia|].
    change (itoa (Z.neg p)) with (String "-" (itoa (Z.pos p))).
    unfold parse_int. simpl (Ascii.eqb _ _). cbv [orb negb andb].
    rewrite parse_uint_itoa by lia. simpl.
    by destruct (Z.ltb_spec (2 ^ (bits - 1)) (Z.pos p)); [lia|].
  - assert (exists c s, itoa z = String c s /\ is_Some (digit_val c)) as (c&s&Hs&Hc).
    { destruct z as [|p|p]; [by eexists _, _|apply pretty_N_cons|lia]. }
    apply digit_not_sign in Hc as [Hc1 Hc2].
    unfold parse_int. rewrite Hs, Hc1, Hc2, <- Hs. cbv [orb negb andb].
    rewrite parse_uint_itoa by lia. simpl.
    by destruct (Z.leb_spec (2 ^ (bits - 1)) z); [lia|].
Qed.

Lemma itoa_inj z1 z2 : itoa z1 = itoa z2 -> z1 = z2.
Proof. apply (inj pretty). Qed.

(** A printed non-negative number holds only digits. *)
Lemma itoa_no_char c z :
  0 <= z -> digit_val c = None -> contains_char c (itoa z) = false.
Proof.
  intros Hz Hc.
  assert (forall x, (x < 10)%N -> Ascii.eqb (pretty_N_char x) c = false) as Hd.
  { intros x Hx. apply Ascii.eqb_neq. intros <-. by rewrite digit_val_pretty in Hc. }
  assert (forall x s, contains_char c s = false -> contains_char c (pretty_N_go x s) = false) as H.
  { clear z Hz. intros x. induction (N.lt_wf_0 x) as [x _ IH]; intros s Hs.
    destruct (decide (x = 0)%N) as [->|Hx]; [by rewrite pretty_N_go_0|].
    rewrite pretty_N_go_step by lia. apply IH; [apply N.div_lt; lia|].
    simpl. rewrite Hd by (by apply N.mod_lt). done. }
  destruct z as [|p|p]; [|by apply H|lia].
  change (contains_char c (itoa 0)) with (Ascii.eqb (pretty_N_char 0) c || false).
  by rewrite (Hd 0%N).
Qed.

(** *** Trimming *)

Fixpoint forall_str (p : ascii -> bool) (s : string) : bool :=
  match s with EmptyString => true | String c s' => p c && forall_str p s' end.

Lemma forall_str_app p a b : forall_str p (a +:+ b) = forall_str p a && forall_str p b.
Proof.
  induction a as [|c a IH]; [done|]. rewrite string_app_cons. cbn [forall_str].
  by rewrite IH, andb_assoc.
Qed.

Lemma forall_str_rev_app p s acc : forall_str p (rev_str_app s acc) = forall_str p s && forall_str p acc.
Proof.
  revert acc. induction s as [|c s IH]; intros acc; [done|]. cbn [rev_str_app forall_str].
  rewrite IH. cbn [forall_str]. by destruct (p c), (forall_str p s).
Qed.

Lemma rev_str_app_rev s a b : rev_str_app (rev_str_app s a) b = rev_str_app a (s +:+ b).
Proof. revert a b. induction s as [|c s IH]; intros a b; [done|]. cbn [rev_str_app]. by rewrite IH. Qed.

Lemma rev_str_involutive s : rev_str (rev_str s) = s.
Proof. unfold rev_str. rewrite rev_str_app_rev. cbn [rev_str_app]. apply string_app_nil_r. Qed.

Lemma trim_left_id p s : forall_str (fun c => negb (p c)) s = true -> trim_left p s = s.
Proof. destruct s as [|c s]; [done|]. simpl. by destruct (p c). Qed.

Lemma trim_right_id p s : forall_str (fun c => negb (p c)) s = true -> trim_right p s = s.
Proof.
  intros H. unfold trim_right. rewrite trim_left_id; [apply rev_str_involutive|].
  unfold rev_str. by rewrite forall_str_rev_app, H.
Qed.

Lemma trim_id p s : forall_str (fun c => negb (p c)) s = true -> trim p s = s.
Proof.
  intros H. unfold trim. rewrite (trim_left_id p s H). by apply trim_right_id.
Qed.

(** The characters of a printed integer. *)
Definition is_num_char (c : ascii) : bool :=
  match digit_val c with Some _ => true | None => Ascii.eqb c "-" end.

Lemma itoa_chars z : forall_str is_num_char (itoa z) = true.
Proof.
  assert (forall x s, forall_str is_num_char s = true -> forall_str is_num_char (pretty_N_go x s) = true) as H.
  { intros x. induction (N.lt_wf_0 x) as [x _ IH]; intros s Hs.
    destruct (decide (x = 0)%N) as [->|Hx]; [by rewrite pretty_N_go_0|].
    rewrite pretty_N_go_step by lia. apply IH; [apply N.div_lt; lia|].
    cbn [forall_str]. unfold is_num_char at 1.
    rewrite digit_val_pretty by (by apply N.mod_lt). done. }
  destruct z as [|p|p]; [done|by apply H|].
  change (itoa (Z.neg p)) with (String "-" (itoa (Z.pos p))). by apply H.
Qed.

Lemma forall_str_impl (p q : ascii -> bool) s :
  (forall c, p c = true -> q c = true) -> forall_str p s = true -> forall_str q s = true.
Proof.
  intros Hpq. induction s as [|c s IH]; [done|]. cbn [forall_str].
  intros [? ?]%andb_true_iff. rewrite andb_true_iff. auto.
Qed.

Lemma trim_itoa p z : (forall c, is_num_char c = true -> p c = false) -> trim p (itoa z) = itoa z.
Proof.
  intros Hp. apply trim_id, (forall_str_impl is_num_char); [|apply itoa_chars].
  intros c Hc. by rewrite Hp.
Qed.

(** *** Strings from the right, lines *)

Lemma string_snoc s : s = "" \/ exists p c, s = p +:+ String c "".
Proof.
  induction s as [|d s [->|(p&c&->)]]; [by left| |]; right.
  - by exists "", d.
  - by exists (String d p), c.
Qed.

Lemma string_length_app a b : String.length (a +:+ b) = (String.length a + String.length b)%nat.
Proof. induction a as [|c a IH]; [done|]. rewrite string_app_cons. cbn. by rewrite IH. Qed.

Lemma string_snoc_ind (P : string -> Prop) :
  P "" -> (forall p c, P p -> P (p +:+ String c "")) -> forall s, P s.
Proof.
  intros H0 Hs s. remember (String.length s) as n eqn:Hn. revert s Hn.
  induction n as [|n IH]; intros s Hn; destruct (string_snoc s) as [->|(p&c&->)]; auto;
    rewrite string_length_app in Hn; cbn in Hn; [lia|]. apply Hs, IH. lia.
Qed.

Lemma get_app_mid p c q : String.get (String.length p) (p +:+ String c q) = Some c.
Proof. induction p as [|d p IH]; [done|]. rewrite string_app_cons. exact IH. Qed.

Lemma drop_app_str p q : drop_str (String.length p) (p +:+ q) = q.
Proof. induction p as [|d p IH]; [by destruct q|]. rewrite string_app_cons. exact IH. Qed.

Lemma rev_str_snoc p c : rev_str (p +:+ String c "") = String c (rev_str p).
Proof.
  unfold rev_str. assert (forall acc, rev_str_app (p +:+ String c "") acc = String c (rev_str_app p acc)) as H;
    [|apply H].
  induction p as [|d p IH]; intros acc; [done|]. rewrite string_app_cons. apply IH.
Qed.

Lemma split_snoc_sep c p : split c (p +:+ String c "") = split c p ++ [""].
Proof.
  induction p as [|d p IH]; [|].
  { change (split c (String c "") = [""; ""]). cbn [split]. by rewrite Ascii.eqb_refl. }
  rewrite string_app_cons. cbn [split]. rewrite IH.
  destruct (Ascii.eqb d c); [done|].
  pose proof (split_ne c p). by destruct (split c p).
Qed.

Lemma split_snoc_other c d p :
  Ascii.eqb d c = false ->
  exists l w, split c p = l ++ [w] /\ split c (p +:+ String d "") = l ++ [w +:+ String d ""].
Proof.
  intros Hd. induction p as [|e p (l&w&H1&H2)].
  - exists [], "". split; [done|]. change (split c (String d "") = [String d ""]).
    cbn [split]. by rewrite Hd.
  - rewrite string_app_cons. cbn [split]. rewrite H1, H2. destruct (Ascii.eqb e c).
    + by exists ("" :: l), w.
    + destruct l as [|x l]; simpl; [by exists [], (String e w)|by exists (String e x :: l), w].
Qed.

Lemma join_snoc sep l x : l <> [] -> join sep (l ++ [x]) = join sep l +:+ sep +:+ x.
Proof.
  induction l as [|y l IH]; [done|]. intros _. destruct l as [|z l]; [done|].
  change ((y :: z :: l) ++ [x]) with (y :: ((z :: l) ++ [x])).
  rewrite !join_cons by (done || by intros []%app_eq_nil). rewrite IH by done.
  by rewrite !string_app_assoc.
Qed.

Lemma join_snoc_app sep l x y : join sep (l ++ [x +:+ y]) = join sep (l ++ [x]) +:+ y.
Proof.
  destruct l as [|z l]; [done|]. rewrite !join_snoc by done. by rewrite !string_app_assoc.
Qed.

(** The last [n] elements of a list. *)
Definition lastn {A} (n : nat) (l : list A) : list A := drop (length l - n) l.

Lemma lastn_snoc {A} n (l : list A) x : (1 <= n)%nat -> lastn n (l ++ [x]) = lastn (n - 1) l ++ [x].
Proof.
  intros Hn. unfold lastn. rewrite length_app, drop_app_le by (simpl; lia).
  f_equal. f_equal. simpl. lia.
Qed.

Lemma lastn_ne {A} n (l : list A) : (1 <= n)%nat -> l <> [] -> lastn n l <> [].
Proof.
  intros Hn Hl H. apply (f_equal length) in H. unfold lastn in H. rewrite length_drop in H.
  destruct l; [done|]. simpl in *. lia.
Qed.

#[export] Hint Rewrite string_app_nil_r string_app_assoc string_app_cons contains_char_app : docker_rw.

(** ** Words *)

Definition word_ok (w : string) : Prop :=
  w <> "" /\ forall_str (fun c => negb (Ascii.is_space c)) w = true.

Lemma words_go_word w : forall cur rest,
  forall_str (fun c => negb (Ascii.is_space c)) w = true -> w <> "" ->
  String.words_go cur (w +:+ rest) = String.words_go (Some (rev_str_app w (default "" cur))) rest.
Proof.
  induction w as [|c w IH]; [done|]. intros cur rest [Hc Hw]%andb_true_iff _.
  apply negb_true_iff in Hc. change (String c w +:+ rest) with (String c (w +:+ rest)).
  cbn [String.words_go]. rewrite Hc. destruct (decide (w = "")) as [->|Hne].
  - by destruct cur.
  - rewrite IH by done. by destruct cur.
Qed.

Lemma words_join l : Forall word_ok l -> String.words (join " " l) = l.
Proof.
  induction 1 as [|w l [Hne Hw] Hl IH]; [done|]. unfold String.words in *.
  destruct (decide (l = [])) as [->|Hl'].
  - cbn [join]. rewrite <- (string_app_nil_r w), words_go_word by done. cbn.
    change (String.rev (rev_str_app w "")) with (rev_str (rev_str w)).
    by rewrite rev_str_involutive, string_app_nil_r.
  - rewrite join_cons, words_go_word by done. cbn [default String.words_go].
    change (" " +:+ join " " l) with (String " " (join " " l)). cbn.
    change (String.rev (rev_str_app w "")) with (rev_str (rev_str w)).
    by rewrite rev_str_involutive, IH.
Qed.

(** ** Prefixes *)

Lemma has_prefix_app p s : has_prefix p (p +:+ s) = true.
Proof.
  unfold has_prefix. induction p as [|c p IH]; [by destruct s|]. rewrite string_app_cons. simpl.
  rewrite IH. by destruct (ascii_dec c c).
Qed.

Lemma trim_prefix_app p s : trim_prefix p (p +:+ s) = s.
Proof. unfold trim_prefix. rewrite has_prefix_app. apply drop_app_str. Qed.

Lemma has_prefix_inv p s : has_prefix p s = true -> exists r, s = p +:+ r.
Proof.
  unfold has_prefix. revert s. induction p as [|c p IH]; intros s H; [by exists s|].
  destruct s as [|d s]; [done|]. simpl in H. destruct (ascii_dec c d) as [->|]; [|done].
  destruct (IH s H) as [r ->]. by exists r.
Qed.

Lemma last_index_char_app c a b :
  contains_char c b = false -> last_index_char c (a +:+ String c b) = Some (String.length a).
Proof.
  intros Hb. assert (last_index_char c b = None) as Hn.
  { clear a. induction b as [|d b IH]; [done|]. simpl in Hb. apply orb_false_iff in Hb as [E Hb].
    simpl. by rewrite (IH Hb), E. }
  induction a as [|d a IH].
  - change ("" +:+ String c b) with (String c b). simpl. by rewrite Hn, Ascii.eqb_refl.
  - rewrite string_app_cons. simpl. by rewrite IH.
Qed.

Lemma last_index_char_None c s : contains_char c s = false -> last_index_char c s = None.
Proof.
  induction s as [|d s IH]; [done|]. simpl. intros [E H]%orb_false_iff. by rewrite (IH H), E.
Qed.

Lemma take_app_str p q : take_str (String.length p) (p +:+ q) = p.
Proof. induction p as [|c p IH]; [by destruct q|]. rewrite string_app_cons. cbn [take_str String.length]. by rewrite IH. Qed.

Lemma forall_str_no_char p c s : forall_str p s = true -> p c = false -> contains_char c s = false.
Proof.
  induction s as [|d s IH]; simpl; [done|]. intros [Hd Hs]%andb_true_iff Hc. rewrite IH by done.
  destruct (Ascii.eqb_spec d c) as [->|]; [|done]. by rewrite Hc in Hd.
Qed.

Lemma index_char_app_sep c a b : contains_char c a = false -> index_char c (a +:+ String c b) = Some (String.length a).
Proof.
  induction a as [|d a IH]; simpl; [by rewrite Ascii.eqb_refl|].
  intros [-> Ha]%orb_false_iff. by rewrite IH.
Qed.

Lemma has_prefix_refl p : has_prefix p p = true.
Proof. pose proof (has_prefix_app p "") as H. by rewrite string_app_nil_r in H. Qed.

Lemma has_prefix_char c d s : has_prefix (String c "") (String d s) = Ascii.eqb c d.
Proof.
  unfold has_prefix, String.prefix. destruct (ascii_dec c d) as [->|Hne]; [by rewrite Ascii.eqb_refl; destruct s|].
  symmetry. by apply Ascii.eqb_neq.
Qed.

Lemma index_char_take c s i : index_char c s = Some i -> contains_char c (take_str i s) = false.
Proof.
  revert i. induction s as [|d s IH]; intros i; [done|]. simpl. destruct (Ascii.eqb_spec d c) as [|Hne]; [by intros [= <-]|].
  destruct (index_char c s) as [k|]; [|done]. intros [= <-]. simpl. apply orb_false_iff. split; [by apply Ascii.eqb_neq|by apply IH].
Qed.
