(* ===== verification/GoNet.v ===== *)
(** * Go's [net] package: IP addresses, masks and networks

    The part of [net.IP], [net.IPMask] and [net.IPNet] that the network
    drivers use.  A [net.IP] is its byte slice, 4 or 16 bytes long, and the
    nil slice is the empty list. *)

From stdpp Require Import base gmap list strings.
From Stdlib Require Import ZArith Lia Ascii.
From S2P Require Import Prelude GoStrings.

Local Open Scope Z_scope.

Abbreviation IP := (list Z).
Abbreviation IPMask := (list Z).

Record IPNet := { net_IP : IP; net_Mask : IPMask }.

#[export] Instance IPNet_eq_dec : EqDecision IPNet.
Proof. solve_decision. Defined.

Definition v4InV6Prefix : IP := [0;0;0;0;0;0;0;0;0;0;255;255].

(** [net.IPv4]: the 16-byte form. *)
Definition IPv4 (a b c d : Z) : IP := v4InV6Prefix ++ [a;b;c;d].

Definition To4 (ip : IP) : IP :=
  if Nat.eqb (length ip) 4 then ip
  else if Nat.eqb (length ip) 16 && bool_decide (take 12 ip = v4InV6Prefix)
  then drop 12 ip else [].

(** [IP.Mask]: shorten whichever of the two is in 16-byte form, then "and". *)
Definition Mask (ip : IP) (mask : IPMask) : IP :=
  let mask :=
    if Nat.eqb (length mask) 16 && Nat.eqb (length ip) 4 &&
       bool_decide (take 12 mask = replicate 12 255)
    then drop 12 mask else mask in
  let ip :=
    if Nat.eqb (length mask) 4 && Nat.eqb (length ip) 16 &&
       bool_decide (take 12 ip = v4InV6Prefix)
    then drop 12 ip else ip in
  if Nat.eqb (length ip) (length mask) then zip_with Z.land ip mask else [].

(** The unexported [networkNumberAndMask]: [None] is [(nil, nil)]. *)
Definition networkNumberAndMask (n : IPNet) : option (IP * IPMask) :=
  let ip := match To4 (net_IP n) with [] => net_IP n | ip4 => ip4 end in
  if Nat.eqb (length ip) 4 || Nat.eqb (length ip) 16 then
    if Nat.eqb (length (net_Mask n)) 4 then
      if Nat.eqb (length ip) 4 then Some (ip, net_Mask n) else None
    else if Nat.eqb (length (net_Mask n)) 16 then
      Some (ip, if Nat.eqb (length ip) 4 then drop 12 (net_Mask n) else net_Mask n)
    else None
  else None.

(** [IPNet.Contains] *)
Definition Contains (n : IPNet) (ip : IP) : bool :=
  match networkNumberAndMask n with
  | None => Nat.eqb (length (match To4 ip with [] => ip | x => x end)) 0
  | Some (nn, m) =>
      let ip := match To4 ip with [] => ip | x => x end in
      Nat.eqb (length ip) (length nn) &&
      bool_decide (zip_with Z.land nn m = zip_with Z.land ip m)
  end.

(** [net.CIDRMask(ones, 8 * len)] *)
Definition mask_byte (ones : nat) : Z := 256 - 2 ^ (8 - Z.of_nat (min ones 8)).
Fixpoint CIDRMask (ones len : nat) : IPMask :=
  match len with
  | O => []
  | S len' => mask_byte ones :: CIDRMask (ones - 8) len'
  end.

(** *** Printing *)

(** [itox]: hexadecimal, at least one digit. *)
Definition hex_digit (v : Z) : ascii :=
  ascii_of_nat (Z.to_nat (if v <? 10 then 48 + v else 87 + v)).
Fixpoint hex_digits (fuel : nat) (v : Z) (acc : string) : string :=
  match fuel with
  | O => acc
  | S n => if v <? 16 then String (hex_digit v) acc
           else hex_digits n (v / 16) (String (hex_digit (v mod 16)) acc)
  end.
Definition itox (v : Z) : string := hex_digits 8 v "".

Fixpoint groups (ip : IP) : list Z :=
  match ip with a :: b :: ip' => a * 256 + b :: groups ip' | _ => [] end.

Fixpoint zero_run (gs : list Z) : nat :=
  match gs with 0 :: gs' => S (zero_run gs') | _ => O end.

(** Start and length of the first longest run of zero groups. *)
Fixpoint longest_run (i : nat) (gs : list Z) (best : nat * nat) : nat * nat :=
  match gs with
  | [] => best
  | _ :: gs' =>
      let best := if (snd best <? zero_run gs)%nat then (i, zero_run gs) else best in
      longest_run (S i) gs' best
  end.

Definition IPv6_String (ip : IP) : string :=
  let gs := groups ip in
  let '(e0, n) := longest_run 0 gs (0, 0)%nat in
  if (n <=? 1)%nat then join ":" (itox <$> gs)
  else join ":" (itox <$> take e0 gs) +:+ "::" +:+ join ":" (itox <$> drop (e0 + n) gs).

(** [IP.String] *)
Definition IP_String (ip : IP) : string :=
  match ip with
  | [] => "<nil>"
  | _ =>
      match To4 ip with
      | [] => if Nat.eqb (length ip) 16 then IPv6_String ip else "?"
      | ip4 => join "." (itoa <$> ip4)
      end
  end.

Definition mask_String (m : IPMask) : string :=
  match m with
  | [] => "<nil>"
  | _ => foldr (fun b s => String (hex_digit (b / 16)) (String (hex_digit (b mod 16)) s)) "" m
  end.

(** The unexported [simpleMaskLength]: the [n] such that the mask is
    [CIDRMask n], if there is one. *)
Definition simpleMaskLength (m : IPMask) : option nat :=
  snd <$> list_find (fun n => CIDRMask n (length m) = m) (seq 0 (S (8 * length m))).

(** [IPNet.String] *)
Definition IPNet_String (n : IPNet) : string :=
  match networkNumberAndMask n with
  | None => "<nil>"
  | Some (nn, m) =>
      match simpleMaskLength m with
      | Some l => IP_String nn +:+ "/" +:+ itoa (Z.of_nat l)
      | None => IP_String nn +:+ "/" +:+ mask_String m
      end
  end.

(** [binary.BigEndian.Uint32] and [PutUint32] *)
Definition be_Uint32 (b : list Z) : outcome Z :=
  match b with
  | b0 :: b1 :: b2 :: b3 :: _ => Return (b0 * 2 ^ 24 + b1 * 2 ^ 16 + b2 * 2 ^ 8 + b3)
  | _ => Panic
  end.

Definition be_PutUint32 (v : Z) : list Z :=
  [v / 2 ^ 24 mod 256; v / 2 ^ 16 mod 256; v / 2 ^ 8 mod 256; v mod 256].

(** ** Well-formed IPv4 addresses and networks *)

Definition byte (b : Z) : Prop := 0 <= b < 256.
Definition wf_ip4 (ip : IP) : Prop := length ip = 4%nat /\ Forall byte ip.

(** An IPv4 network with a prefix mask, as [net.ParseCIDR] builds it. *)
Definition wf_net4 (n : IPNet) (ones : nat) : Prop :=
  wf_ip4 (net_IP n) /\ (ones <= 32)%nat /\ net_Mask n = CIDRMask ones 4.

Definition ip_val (ip : IP) : Z :=
  match ip with [a;b;c;d] => a * 2 ^ 24 + b * 2 ^ 16 + c * 2 ^ 8 + d | _ => 0 end.

(** ** Lemmas *)

Lemma wf_ip4_inv ip :
  wf_ip4 ip -> exists a b c d, ip = [a;b;c;d] /\ byte a /\ byte b /\ byte c /\ byte d.
Proof.
  intros [Hl Hf]. destruct ip as [|a [|b [|c [|d [|? ?]]]]]; try discriminate.
  repeat (apply Forall_cons in Hf as [? Hf]). eauto 10.
Qed.

Lemma To4_4 ip : length ip = 4%nat -> To4 ip = ip.
Proof. intros H. unfold To4. by rewrite H. Qed.

Lemma ip_val_range ip : wf_ip4 ip -> 0 <= ip_val ip < 2 ^ 32.
Proof. intros (a&b&c&d&->&?&?&?&?)%wf_ip4_inv. unfold ip_val, byte in *. lia. Qed.

Lemma be_Uint32_val ip : wf_ip4 ip -> be_Uint32 ip = Return (ip_val ip).
Proof. by intros (a&b&c&d&->&?&?&?&?)%wf_ip4_inv. Qed.

Lemma be_PutUint32_wf v : wf_ip4 (be_PutUint32 v).
Proof.
  split; [done|]. unfold be_PutUint32, byte.
  repeat (apply Forall_cons; split; [apply Z.mod_pos_bound; lia|]). done.
Qed.

Lemma ip_val_PutUint32 v : 0 <= v < 2 ^ 32 -> ip_val (be_PutUint32 v) = v.
Proof. intros Hv. unfold ip_val, be_PutUint32. Z.div_mod_to_equations. lia. Qed.

Lemma ip_val_inj ip1 ip2 : wf_ip4 ip1 -> wf_ip4 ip2 -> ip_val ip1 = ip_val ip2 -> ip1 = ip2.
Proof.
  intros (a&b&c&d&->&?&?&?&?)%wf_ip4_inv (a'&b'&c'&d'&->&?&?&?&?)%wf_ip4_inv Hv.
  unfold ip_val, byte in *. repeat f_equal; lia.
Qed.

Lemma PutUint32_ip_val ip : wf_ip4 ip -> be_PutUint32 (ip_val ip) = ip.
Proof.
  intros H. apply ip_val_inj; [apply be_PutUint32_wf | done |].
  apply ip_val_PutUint32, ip_val_range, H.
Qed.

Lemma CIDRMask_length ones len : length (CIDRMask ones len) = len.
Proof. revert ones. induction len as [|len IH]; intros ones; simpl; [done|]. by rewrite IH. Qed.

(** Two IPv4 addresses that print alike are the same address. *)
Lemma IP_String_inj ip1 ip2 : wf_ip4 ip1 -> wf_ip4 ip2 -> IP_String ip1 = IP_String ip2 -> ip1 = ip2.
Proof.
  assert (forall ip, wf_ip4 ip -> split "." (IP_String ip) = itoa <$> ip) as Hs.
  { intros ip (a&b&c&d&->&?&?&?&?)%wf_ip4_inv. unfold IP_String. simpl (To4 _).
    change "."%string with (String "." ""). apply split_join; [done|].
    unfold byte in *. repeat (constructor; [by apply itoa_no_char; [lia|]|]). done. }
  intros H1 H2 H. apply (f_equal (split ".")) in H. rewrite !Hs in H by done.
  revert H. apply list_fmap_eq_inj. exact itoa_inj.
Qed.

(** [Contains] on an IPv4 network compares the masked addresses. *)
Lemma Contains_wf n ones ip :
  wf_net4 n ones -> wf_ip4 ip ->
  Contains n ip = bool_decide (zip_with Z.land (net_IP n) (net_Mask n) =
                               zip_with Z.land ip (net_Mask n)).
Proof.
  intros (Hn&_&Hm) (a&b&c&d&->&_)%wf_ip4_inv.
  unfold Contains, networkNumberAndMask. rewrite Hm.
  by apply wf_ip4_inv in Hn as (a'&b'&c'&d'&->&_).
Qed.

Lemma Mask_wf n ones :
  wf_net4 n ones -> Mask (net_IP n) (net_Mask n) = zip_with Z.land (net_IP n) (net_Mask n).
Proof.
  intros (Hn&_&Hm). unfold Mask. rewrite Hm.
  by apply wf_ip4_inv in Hn as (a&b&c&d&->&_).
Qed.
