(* ===== verification/Ports.v ===== *)
(** * daemon/networkdriver/portallocator: the host port pool

    Each IP address and protocol has a set of allocated ports and the last
    port [findPort] handed out.  The state is the package variable
    [globalMap]; the mutex makes every operation one step. *)

From stdpp Require Import base gmap sets list strings.
From Stdlib Require Import ZArith Lia.
From S2P Require Import Prelude GoStrings GoNet.

Local Open Scope Z_scope.

(** ** State *)

Record portMap := { p : gset Z; last : Z }.

Definition newPortMap : portMap := {| p := ∅; last := 0 |}.

Abbreviation protoMap := (gmap string portMap).

Definition newProtoMap : protoMap := {["tcp" := newPortMap; "udp" := newPortMap]}.

Abbreviation ipMapping := (gmap string protoMap).

Definition BeginPortRange : Z := 49153.
Definition EndPortRange : Z := 65535.

Inductive alloc_error :=
| ErrAllPortsAllocated
| ErrUnknownProtocol
| ErrPortAlreadyAllocated (ip : string) (port : Z).

#[export] Instance alloc_error_eq_dec : EqDecision alloc_error.
Proof. solve_decision. Defined.

Definition alloc_error_Error (e : alloc_error) : string :=
  match e with
  | ErrAllPortsAllocated => "all ports are allocated"
  | ErrUnknownProtocol => "unknown protocol"
  | ErrPortAlreadyAllocated ip port =>
      "Bind for " +:+ ip +:+ ":" +:+ itoa port +:+ " failed: port is already allocated"
  end.

Definition defaultIP : IP := IPv4 0 0 0 0.

(** [if ip == nil { ip = defaultIP }; ip.String()] *)
Definition ipstr (ip : option IP) : string := IP_String (default defaultIP ip).

(** ** Operations *)

(** One iteration of the loop of [findPort]; the loop variable is [port]. *)
Definition findPort_step (pm : portMap) (port : Z) : Z + result alloc_error Z :=
  if port =? last pm then inr (Err ErrAllPortsAllocated)
  else
    let port := if EndPortRange <? port then BeginPortRange else port in
    if decide (port ∈ p pm) then inl (port + 1) else inr (Ok port).

Definition findPort (fuel : nat) (pm : portMap) : outcome (portMap * result alloc_error Z) :=
  if last pm =? 0 then
    Return ({| p := {[BeginPortRange]} ∪ p pm; last := BeginPortRange |}, Ok BeginPortRange)
  else
    r ← or_out_of_fuel (loop (findPort_step pm) fuel (last pm + 1));
    match r with
    | Ok port => Return ({| p := {[port]} ∪ p pm; last := port |}, Ok port)
    | Err e => Return (pm, Err e)
    end.

(** Fuel for [findPort]: every port of the range, and one. *)
Definition findPort_fuel : nat := Z.to_nat 16384.

Definition RequestPort (fuel : nat) (ip : option IP) (proto : string) (port : Z)
    (globalMap : ipMapping) : outcome (ipMapping * result alloc_error Z) :=
  if negb (String.eqb proto "tcp") && negb (String.eqb proto "udp") then
    Return (globalMap, Err ErrUnknownProtocol)
  else
    let ipstr := ipstr ip in
    let protomap := default newProtoMap (globalMap !! ipstr) in
    mapping ← or_panic (protomap !! proto);
    if 0 <? port then
      if decide (port ∈ p mapping) then
        Return (<[ipstr := protomap]> globalMap, Err (ErrPortAlreadyAllocated ipstr port))
      else
        let mapping := {| p := {[port]} ∪ p mapping; last := last mapping |} in
        Return (<[ipstr := <[proto := mapping]> protomap]> globalMap, Ok port)
    else
      '(mapping, r) ← findPort fuel mapping;
      Return (<[ipstr := <[proto := mapping]> protomap]> globalMap, r).

(** [protomap\[proto\]] is a nil pointer for an unknown protocol, and taking
    its field panics. *)
Definition ReleasePort (ip : option IP) (proto : string) (port : Z)
    (globalMap : ipMapping) : outcome (ipMapping * result alloc_error ()) :=
  let ipstr := ipstr ip in
  match globalMap !! ipstr with
  | None => Return (globalMap, Ok ())
  | Some protomap =>
      mapping ← or_panic (protomap !! proto);
      let mapping := {| p := p mapping ∖ {[port]}; last := last mapping |} in
      Return (<[ipstr := <[proto := mapping]> protomap]> globalMap, Ok ())
  end.

Definition ReleaseAll (globalMap : ipMapping) : ipMapping := ∅.

(** ** Specification vocabulary *)

(** The ports allocated for an address and a protocol. *)
Definition allocated (g : ipMapping) (ip : string) (proto : string) : gset Z :=
  match g !! ip ≫= (fun pm => pm !! proto) with Some pm => p pm | None => ∅ end.

Definition last_of (g : ipMapping) (ip : string) (proto : string) : Z :=
  match g !! ip ≫= (fun pm => pm !! proto) with Some pm => last pm | None => 0 end.

Definition in_range (q : Z) : Prop := BeginPortRange <= q <= EndPortRange.

(** The [k]-th port after [l] in the cyclic order of the range. *)
Definition candidate (l k : Z) : Z :=
  BeginPortRange + (l - BeginPortRange + k) mod (EndPortRange - BeginPortRange + 1).

Definition portMap_wf (pm : portMap) : Prop := last pm = 0 \/ in_range (last pm).

Definition protoMap_wf (m : protoMap) : Prop :=
  (forall proto, is_Some (m !! proto) <-> proto = "tcp" \/ proto = "udp") /\
  map_Forall (fun _ pm => portMap_wf pm) m.

Definition pool_wf (g : ipMapping) : Prop := map_Forall (fun _ m => protoMap_wf m) g.

(** Operations as a transition system. *)
Inductive pool_op :=
| OpRequest (ip : option IP) (proto : string) (port : Z)
| OpRelease (ip : option IP) (proto : string) (port : Z)
| OpReleaseAll.

Definition pool_step (op : pool_op) (g : ipMapping) : outcome ipMapping :=
  match op with
  | OpRequest ip proto port => fst <$> RequestPort findPort_fuel ip proto port g
  | OpRelease ip proto port => fst <$> ReleasePort ip proto port g
  | OpReleaseAll => Return (ReleaseAll g)
  end.

Inductive pool_reachable : ipMapping -> Prop :=
| pool_init : pool_reachable ∅
| pool_next g g' op : pool_reachable g -> pool_step op g = Return g' -> pool_reachable g'.

(** ** The cyclic order *)

Ltac unfold_range := unfold in_range, BeginPortRange, EndPortRange in *.

Lemma candidate_range l k : in_range (candidate l k).
Proof.
  unfold candidate. unfold_range.
  pose proof (Z.mod_pos_bound (l - 49153 + k) (65535 - 49153 + 1)). lia.
Qed.

Lemma candidate_surj l q : in_range l -> in_range q -> q <> l -> exists k, 1 <= k < 16383 /\ candidate l k = q.
Proof.
  intros Hl Hq Hne. unfold_range. unfold candidate, BeginPortRange, EndPortRange.
  destruct (decide (l < q)).
  - exists (q - l). split; [lia|]. rewrite Z.mod_small; lia.
  - exists (q - l + 16383). split; [lia|].
    replace (l - 49153 + (q - l + 16383)) with (q - 49153 + 1 * (65535 - 49153 + 1)) by lia.
    rewrite Z.mod_add, Z.mod_small; lia.
Qed.

(** The loop variable after [k] iterations, before the wrap-around test. *)
Definition loop_port (l k : Z) : Z :=
  if l + k <=? EndPortRange + 1 then l + k else l + k - 16383.

Lemma loop_port_norm l k :
  in_range l -> 1 <= k <= 16383 ->
  (if EndPortRange <? loop_port l k then BeginPortRange else loop_port l k) = candidate l k.
Proof.
  intros Hl Hk. unfold loop_port, candidate. unfold_range.
  destruct (Z.leb_spec (l + k) (65535 + 1)).
  - destruct (Z.ltb_spec 65535 (l + k)).
    + replace (l - 49153 + k) with (0 + 1 * (65535 - 49153 + 1)) by lia.
      rewrite Z.mod_add, Z.mod_small; lia.
    + rewrite Z.mod_small; lia.
  - destruct (Z.ltb_spec 65535 (l + k - 16383)); [lia|].
    replace (l - 49153 + k) with (l - 49153 + k - 16383 + 1 * (65535 - 49153 + 1)) by lia.
    rewrite Z.mod_add, Z.mod_small; lia.
Qed.

Lemma loop_port_next l k :
  in_range l -> 1 <= k <= 16383 ->
  candidate l k + 1 = loop_port l (k + 1).
Proof.
  intros Hl Hk. rewrite <- loop_port_norm by done. unfold loop_port. unfold_range.
  destruct (Z.leb_spec (l + k) (65535 + 1)), (Z.leb_spec (l + (k + 1)) (65535 + 1));
    destruct (Z.ltb_spec 65535 (l + k)), (Z.ltb_spec 65535 (l + k - 16383)); lia.
Qed.

(** The loop variable of [findPort] in iteration [i], counted from 0. *)
Definition loop_state (l : Z) (i : nat) : Z := loop_port l (1 + Z.of_nat i).
Definition loop_cand (l : Z) (i : nat) : Z := candidate l (1 + Z.of_nat i).

(** Iterations [findPort] makes before it would meet [last] again: when [last]
    is the first port of the range the test [port != pm.last] never sees it. *)
Definition loop_rounds (l : Z) : nat :=
  Z.to_nat (if l =? BeginPortRange then 16383 else 16382).

Lemma loop_state_0 l : in_range l -> loop_state l 0 = l + 1.
Proof. intros Hl. unfold loop_state, loop_port. unfold_range. destruct (Z.leb_spec (l + (1 + Z.of_nat 0)) (65535 + 1)); lia. Qed.

Lemma findPort_step_cand pm i :
  in_range (last pm) -> (i < loop_rounds (last pm))%nat ->
  findPort_step pm (loop_state (last pm) i) =
  if decide (loop_cand (last pm) i ∈ p pm) then inl (loop_state (last pm) (S i))
  else inr (Ok (loop_cand (last pm) i)).
Proof.
  intros Hl Hi. unfold findPort_step, loop_state, loop_cand.
  assert (1 <= 1 + Z.of_nat i <= 16383) as Hk.
  { unfold loop_rounds in Hi. destruct (last pm =? BeginPortRange); lia. }
  rewrite loop_port_norm by done.
  replace (loop_port (last pm) (1 + Z.of_nat i) =? last pm) with false.
  - rewrite loop_port_next by done. repeat case_decide; do 2 f_equal; lia.
  - symmetry. apply Z.eqb_neq. unfold loop_port, loop_rounds in *. unfold_range.
    destruct (Z.eqb_spec (last pm) 49153);
      destruct (Z.leb_spec (last pm + (1 + Z.of_nat i)) (65535 + 1)); lia.
Qed.

(** The loop finds the first free candidate, if there is one in its rounds. *)
Lemma findPort_loop_found pm i n :
  in_range (last pm) -> (i < loop_rounds (last pm))%nat -> (i < n)%nat ->
  loop_cand (last pm) i ∉ p pm ->
  (forall j, (j < i)%nat -> loop_cand (last pm) j ∈ p pm) ->
  loop (findPort_step pm) n (last pm + 1) = Some (Ok (loop_cand (last pm) i)).
Proof.
  intros Hl Hi Hn Hfree Hbusy. rewrite <- loop_state_0 by done.
  replace n with (i + S (n - i - 1))%nat by lia.
  rewrite (loop_run _ (loop_state (last pm))).
  - simpl. rewrite findPort_step_cand by done. by rewrite decide_False.
  - intros j Hj. rewrite findPort_step_cand by (done || lia).
    rewrite decide_True; [done | by apply Hbusy].
Qed.

(** With no free candidate, the loop ends at [last], unless that is the first
    port of the range. *)
Lemma findPort_loop_full pm n :
  in_range (last pm) -> last pm <> BeginPortRange -> (Z.to_nat 16382 < n)%nat ->
  (forall i, (i < Z.to_nat 16382)%nat -> loop_cand (last pm) i ∈ p pm) ->
  loop (findPort_step pm) n (last pm + 1) = Some (Err ErrAllPortsAllocated).
Proof.
  intros Hl Hne Hn Hbusy. rewrite <- loop_state_0 by done.
  assert (loop_rounds (last pm) = Z.to_nat 16382) as Hr.
  { unfold loop_rounds. by destruct (Z.eqb_spec (last pm) BeginPortRange). }
  replace n with (Z.to_nat 16382 + S (n - Z.to_nat 16383))%nat by lia.
  rewrite (loop_run _ (loop_state (last pm))).
  - cbn [loop]. unfold findPort_step at 1.
    replace (loop_state (last pm) (Z.to_nat 16382) =? last pm) with true; [done|].
    symmetry. apply Z.eqb_eq. unfold loop_state, loop_port. unfold_range.
    destruct (Z.leb_spec (last pm + (1 + Z.of_nat (Z.to_nat 16382))) (65535 + 1)); lia.
  - intros j Hj. rewrite findPort_step_cand; [|done|by rewrite Hr].
    rewrite decide_True; [done | by apply Hbusy].
Qed.

Lemma all_candidates_busy pm :
  in_range (last pm) -> (forall i, (i < Z.to_nat 16382)%nat -> loop_cand (last pm) i ∈ p pm) ->
  forall q, in_range q -> q <> last pm -> q ∈ p pm.
Proof.
  intros Hl Hb q Hq Hne. destruct (candidate_surj (last pm) q) as (k&Hk&<-); [done..|].
  specialize (Hb (Z.to_nat (k - 1))). unfold loop_cand in Hb.
  replace (1 + Z.of_nat (Z.to_nat (k - 1))) with k in Hb by lia. apply Hb. lia.
Qed.

(** ** [findPort] *)

(** What a call of [findPort] that returns has done to the pool of one
    address and protocol. *)
Definition findPort_post (pm pm' : portMap) (r : result alloc_error Z) : Prop :=
  match r with
  | Ok q =>
      in_range q /\ pm' = {| p := {[q]} ∪ p pm; last := q |} /\
      (last pm = 0 /\ q = BeginPortRange \/
       (q ∉ p pm) /\ exists k, 1 <= k <= 16383 /\ q = candidate (last pm) k /\
         forall j, 1 <= j < k -> candidate (last pm) j ∈ p pm)
  | Err e =>
      e = ErrAllPortsAllocated /\ pm' = pm /\
      forall q, in_range q -> q <> last pm -> q ∈ p pm
  end.

(** The state in which the loop of [findPort] has no exit. *)
Definition stuck (pm : portMap) : Prop :=
  last pm = BeginPortRange /\ forall q, in_range q -> q ∈ p pm.

Lemma findPort_returns pm :
  portMap_wf pm -> ~ stuck pm ->
  exists pm' r, findPort findPort_fuel pm = Return (pm', r) /\ findPort_post pm pm' r.
Proof.
  intros [H0|Hl] Hns; unfold findPort.
  - rewrite H0. simpl. eexists _, _. split; [done|]. unfold findPort_post. unfold_range.
    repeat split; auto; lia.
  - destruct (Z.eqb_spec (last pm) 0) as [E|_]; [unfold_range; lia|].
    destruct (least_or_all (fun i => loop_cand (last pm) i ∈ p pm) (loop_rounds (last pm)))
      as [(i&Hi&Hfree&Hb)|Hall].
    + assert ((i < findPort_fuel)%nat).
      { unfold loop_rounds, findPort_fuel in *. destruct (last pm =? BeginPortRange); lia. }
      rewrite (findPort_loop_found pm i) by done. simpl.
      eexists _, _. split; [done|]. split; [apply candidate_range|]. split; [done|].
      right. split; [done|]. exists (1 + Z.of_nat i). split; [|split; [done|]].
      { unfold loop_rounds in *. destruct (last pm =? BeginPortRange); lia. }
      intros j Hj. specialize (Hb (Z.to_nat (j - 1))). unfold loop_cand in Hb.
      replace (1 + Z.of_nat (Z.to_nat (j - 1))) with j in Hb by lia. apply Hb. lia.
    + destruct (decide (last pm = BeginPortRange)) as [HB|HB].
      * destruct Hns. split; [done|]. intros q Hq.
        destruct (decide (q = last pm)) as [->|Hne].
        { specialize (Hall (Z.to_nat 16382)). unfold loop_rounds, loop_cand, candidate in Hall.
          rewrite HB in Hall |- *. apply Hall. vm_compute. lia. }
        apply all_candidates_busy; [done| |done|done].
        intros i Hi. apply Hall. unfold loop_rounds. rewrite HB. simpl (_ =? _). lia.
      * rewrite (findPort_loop_full pm); [| done | done | unfold findPort_fuel; lia |].
        { simpl. eexists _, _. split; [done|]. split_and!; [done|done|].
          intros q Hq Hne. apply all_candidates_busy; [done| |done|done].
          intros i Hi. apply Hall. unfold loop_rounds.
          destruct (Z.eqb_spec (last pm) BeginPortRange); [done|lia]. }
        intros i Hi. apply Hall. unfold loop_rounds.
        destruct (Z.eqb_spec (last pm) BeginPortRange); [done|lia].
Qed.

Lemma findPort_stuck pm n : stuck pm -> findPort n pm = OutOfFuel.
Proof.
  intros [HB Hall]. unfold findPort. rewrite HB.
  change (BeginPortRange =? 0) with false. cbv iota.
  rewrite (loop_diverges _ (fun q => BeginPortRange < q <= EndPortRange + 1)); [done| |unfold_range; lia].
  intros q Hq. unfold findPort_step. rewrite HB.
  destruct (Z.eqb_spec q BeginPortRange); [lia|].
  destruct (Z.ltb_spec EndPortRange q).
  - rewrite decide_True by (apply Hall; unfold_range; lia).
    eexists. split; [done|]. unfold_range; lia.
  - rewrite decide_True by (apply Hall; unfold_range; lia).
    eexists. split; [done|]. unfold_range; lia.
Qed.

(** ** The pool *)

Lemma newProtoMap_lookup proto : proto = "tcp" \/ proto = "udp" -> newProtoMap !! proto = Some newPortMap.
Proof. by intros [->| ->]. Qed.

Lemma newProtoMap_wf : protoMap_wf newProtoMap.
Proof.
  split.
  - intros proto. unfold newProtoMap. rewrite lookup_insert, lookup_singleton.
    split; [intros [? H]; repeat case_decide; naive_solver|].
    intros [-> | ->]; simpl; eauto.
  - intros proto pm. unfold newProtoMap. rewrite lookup_insert, lookup_singleton.
    repeat case_decide; intros; simplify_eq; by left.
Qed.

Lemma protoMap_wf_insert m proto pm :
  protoMap_wf m -> proto = "tcp" \/ proto = "udp" -> portMap_wf pm -> protoMap_wf (<[proto := pm]> m).
Proof.
  intros [Hd Hf] Hp Hpm. split; [|by apply map_Forall_insert_2].
  intros proto'. rewrite lookup_insert. case_decide; [subst; naive_solver | apply Hd].
Qed.

Lemma default_proto_wf g s : pool_wf g -> protoMap_wf (default newProtoMap (g !! s)).
Proof. intros Hg. destruct (g !! s) eqn:E; simpl; [by eapply Hg | apply newProtoMap_wf]. Qed.

(** The pool of one address and protocol, as the code finds it. *)
Lemma pool_lookup g s proto :
  pool_wf g -> proto = "tcp" \/ proto = "udp" ->
  exists pm, default newProtoMap (g !! s) !! proto = Some pm /\ portMap_wf pm /\
    allocated g s proto = p pm /\ last_of g s proto = last pm.
Proof.
  intros Hg Hp. pose proof (default_proto_wf g s Hg) as [Hd Hf].
  destruct (proj2 (Hd proto) Hp) as [pm Hpm]. exists pm.
  split; [done|]. split; [by eapply Hf|]. unfold allocated, last_of.
  destruct (g !! s) as [m|] eqn:E; simpl in *; [by rewrite Hpm|].
  rewrite newProtoMap_lookup in Hpm by done. by simplify_eq.
Qed.

Lemma allocated_insert g s proto pm s' proto' :
  allocated (<[s := <[proto := pm]> (default newProtoMap (g !! s))]> g) s' proto' =
  if decide (s' = s /\ proto' = proto) then p pm else allocated g s' proto'.
Proof.
  unfold allocated. rewrite lookup_insert. destruct (decide (s = s')) as [->|Hs].
  - simpl. rewrite lookup_insert. destruct (decide (proto = proto')) as [->|Hp].
    + by rewrite decide_True.
    + rewrite decide_False by naive_solver. destruct (g !! s') as [m|] eqn:E; simpl; [done|].
      unfold newProtoMap. rewrite lookup_insert, lookup_singleton. by repeat case_decide.
  - by rewrite decide_False by naive_solver.
Qed.

Lemma allocated_touch g s s' proto' :
  allocated (<[s := default newProtoMap (g !! s)]> g) s' proto' = allocated g s' proto'.
Proof.
  unfold allocated. rewrite lookup_insert. destruct (decide (s = s')) as [->|Hs]; [|done].
  simpl. destruct (g !! s') as [m|]; simpl; [done|].
  unfold newProtoMap. rewrite lookup_insert, lookup_singleton. by repeat case_decide.
Qed.

(** [g'] differs from [g] at most in the ports of [s] and [proto]. *)
Definition only_changes (g g' : ipMapping) (s proto : string) : Prop :=
  forall s' proto', ~ (s' = s /\ proto' = proto) -> allocated g' s' proto' = allocated g s' proto'.

Lemma only_changes_insert g s proto pm :
  only_changes g (<[s := <[proto := pm]> (default newProtoMap (g !! s))]> g) s proto.
Proof. intros s' proto' H. rewrite allocated_insert. by rewrite decide_False. Qed.

Lemma allocated_insert_eq g s proto pm :
  allocated (<[s := <[proto := pm]> (default newProtoMap (g !! s))]> g) s proto = p pm.
Proof. rewrite allocated_insert. by rewrite decide_True. Qed.

Lemma proto_test proto :
  negb (String.eqb proto "tcp") && negb (String.eqb proto "udp") = false <->
  proto = "tcp" \/ proto = "udp".
Proof. rewrite andb_false_iff, !negb_false_iff, !String.eqb_eq. done. Qed.

Lemma RequestPort_unfold fuel ip proto port g pm :
  proto = "tcp" \/ proto = "udp" ->
  default newProtoMap (g !! ipstr ip) !! proto = Some pm ->
  RequestPort fuel ip proto port g =
  if 0 <? port then
    if decide (port ∈ p pm) then
      Return (<[ipstr ip := default newProtoMap (g !! ipstr ip)]> g,
              Err (ErrPortAlreadyAllocated (ipstr ip) port))
    else
      Return (<[ipstr ip := <[proto := {| p := {[port]} ∪ p pm; last := last pm |}]>
                (default newProtoMap (g !! ipstr ip))]> g, Ok port)
  else
    '(m, r) ← findPort fuel pm;
    Return (<[ipstr ip := <[proto := m]> (default newProtoMap (g !! ipstr ip))]> g, r).
Proof.
  intros Hp Hpm. unfold RequestPort. rewrite (proj2 (proto_test proto) Hp), Hpm. done.
Qed.

Lemma pool_wf_insert g s m : pool_wf g -> protoMap_wf m -> pool_wf (<[s := m]> g).
Proof. intros Hg Hm. by apply map_Forall_insert_2. Qed.

Lemma findPort_post_wf pm pm' r : portMap_wf pm -> findPort_post pm pm' r -> portMap_wf pm'.
Proof.
  intros Hpm. destruct r as [q|e]; intros H; simpl in H.
  - destruct H as (Hq&->&_). by right.
  - by destruct H as (_&->&_).
Qed.

(** [findPort] on a well-formed pool either returns as [findPort_returns]
    says or is stuck. *)
Lemma findPort_total pm fuel pm' r :
  portMap_wf pm -> findPort fuel pm = Return (pm', r) -> fuel = findPort_fuel ->
  findPort_post pm pm' r.
Proof.
  intros Hw H ->. destruct (decide (last pm = BeginPortRange)) as [HB|HB].
  - destruct (least_or_all (fun i => BeginPortRange + Z.of_nat i ∈ p pm) (Z.to_nat 16383))
      as [(i&Hi&Hfree&_)|Hall].
    + destruct (findPort_returns pm Hw) as (pm1&r1&H1&Hpost);
        [|rewrite H in H1; by injection H1 as -> ->].
      intros [_ Hs]. apply Hfree, Hs. unfold_range. lia.
    + rewrite findPort_stuck in H; [done|]. split; [done|]. intros q Hq. unfold_range.
      specialize (Hall (Z.to_nat (q - 49153))).
      replace (49153 + Z.of_nat (Z.to_nat (q - 49153))) with q in Hall by lia. apply Hall. lia.
  - destruct (findPort_returns pm Hw) as (pm1&r1&H1&Hpost);
        [|rewrite H in H1; by injection H1 as -> ->]. by intros [? _].
Qed.

(** Every reachable state is well formed: the last port is 0 or in the
    range, and every address has exactly the pools of tcp and udp. *)
Lemma pool_step_wf op g g' : pool_wf g -> pool_step op g = Return g' -> pool_wf g'.
Proof.
  intros Hg. destruct op as [ip proto port|ip proto port|]; simpl.
  - destruct (negb (String.eqb proto "tcp") && negb (String.eqb proto "udp")) eqn:Et.
    { unfold RequestPort. rewrite Et. simpl. intros [= <-]. done. }
    apply proto_test in Et. destruct (pool_lookup g (ipstr ip) proto Hg Et) as (pm&Hpm&Hw&_).
    rewrite (RequestPort_unfold _ _ _ _ _ pm) by done.
    pose proof (default_proto_wf g (ipstr ip) Hg).
    destruct (0 <? port); [case_decide|].
    + simpl. intros [= <-]. by apply pool_wf_insert.
    + simpl. intros [= <-]. apply pool_wf_insert; [done|]. by apply protoMap_wf_insert.
    + destruct (findPort findPort_fuel pm) as [[m r]| |] eqn:E; simpl; try discriminate.
      intros [= <-]. apply pool_wf_insert; [done|]. apply protoMap_wf_insert; [done..|].
      eapply findPort_post_wf; [done|]. by eapply findPort_total.
  - unfold ReleasePort. destruct (g !! ipstr ip) as [m|] eqn:E; simpl; [|by intros [= <-]].
    destruct (m !! proto) as [pm|] eqn:Epm; simpl; [|discriminate]. intros [= <-].
    assert (protoMap_wf m) as Hm by exact (Hg _ _ E). pose proof Hm as [Hd Hf].
    apply pool_wf_insert; [done|].
    apply protoMap_wf_insert; [done | apply Hd; eauto | exact (Hf _ _ Epm)].
  - intros [= <-]. apply map_Forall_empty.
Qed.

Lemma pool_reachable_wf g : pool_reachable g -> pool_wf g.
Proof. induction 1; [apply map_Forall_empty | by eapply pool_step_wf]. Qed.

Lemma last_of_insert g s proto pm :
  last_of (<[s := <[proto := pm]> (default newProtoMap (g !! s))]> g) s proto = last pm.
Proof. unfold last_of. rewrite lookup_insert_eq. simpl. by rewrite lookup_insert_eq. Qed.

Lemma last_of_touch g s proto :
  last_of (<[s := default newProtoMap (g !! s)]> g) s proto = last_of g s proto.
Proof.
  unfold last_of. rewrite lookup_insert_eq. simpl. destruct (g !! s); simpl; [done|].
  unfold newProtoMap. rewrite lookup_insert, lookup_singleton. by repeat case_decide.
Qed.

(** ** Properties *)

(** What the caller of [RequestPort] sees: [A] and [l] are the allocated ports
    and the last automatic port of the address and protocol before the call. *)
Definition RequestPort_post (A : gset Z) (l : Z) (s : string) (port : Z)
    (A' : gset Z) (r : result alloc_error Z) : Prop :=
  match r with
  | Ok q =>
      A' = {[q]} ∪ A /\
      if 0 <? port then q = port /\ (q ∉ A)
      else in_range q /\ ((q ∉ A) \/ l = 0 /\ q = BeginPortRange)
  | Err e =>
      A' = A /\
      if 0 <? port then e = ErrPortAlreadyAllocated s port /\ (port ∈ A)
      else e = ErrAllPortsAllocated /\ forall q, in_range q -> q <> l -> q ∈ A
  end.

(** C1. [RequestPort] in every reachable state: an unknown protocol is refused
    with no change; a request for a port takes it exactly when it is free; a
    request for any port takes a port of the dynamic range that was free (or,
    on the very first automatic request, the first port of the range, taken or
    not), and fails only when every port of the range other than the last one
    handed out is taken.  No other address or protocol is affected. *)
Theorem RequestPort_spec g ip proto port :
  pool_reachable g ->
  (~ (proto = "tcp" \/ proto = "udp") ->
   RequestPort findPort_fuel ip proto port g = Return (g, Err ErrUnknownProtocol)) /\
  (proto = "tcp" \/ proto = "udp" ->
   let A := allocated g (ipstr ip) proto in
   let l := last_of g (ipstr ip) proto in
   ~ (port <= 0 /\ l = BeginPortRange /\ forall q, in_range q -> q ∈ A) ->
   exists g' r,
     RequestPort findPort_fuel ip proto port g = Return (g', r) /\
     only_changes g g' (ipstr ip) proto /\
     RequestPort_post A l (ipstr ip) port (allocated g' (ipstr ip) proto) r).
Proof.
  intros Hr%pool_reachable_wf. split.
  { intros Hp. unfold RequestPort. destruct (_ && _) eqn:E; [done|]. by apply proto_test in E. }
  intros Hp A l Hns.
  destruct (pool_lookup g (ipstr ip) proto Hr Hp) as (pm&Hpm&Hw&HA&Hl).
  rewrite (RequestPort_unfold _ _ _ _ _ pm) by done.
  unfold A, l in *. rewrite HA, Hl in *. unfold RequestPort_post.
  destruct (Z.ltb_spec 0 port); [case_decide|].
  - eexists _, _. split; [done|]. rewrite allocated_touch, HA.
    split; [|done]. intros s' proto' _. apply allocated_touch.
  - eexists _, _. split; [done|]. split; [apply only_changes_insert|].
    by rewrite allocated_insert_eq.
  - destruct (findPort_returns pm Hw) as (pm'&r&Hf&Hpost).
    { intros [? ?]. by destruct Hns. }
    rewrite Hf. simpl. eexists _, _. split; [done|].
    split; [apply only_changes_insert|]. rewrite allocated_insert_eq.
    destruct r as [q|e]; simpl in Hpost.
    + destruct Hpost as (Hq&->&Hor). simpl. split; [done|]. split; [done|].
      destruct Hor as [?|[? _]]; auto.
    + destruct Hpost as (->&->&Hall). auto.
Qed.

Lemma RequestPort_spec_witness :
  exists g' r, RequestPort findPort_fuel None "tcp" 80 ∅ = Return (g', r) /\
    only_changes ∅ g' "0.0.0.0" "tcp" /\
    RequestPort_post ∅ 0 "0.0.0.0" 80 (allocated g' "0.0.0.0" "tcp") r.
Proof.
  apply (RequestPort_spec ∅ None "tcp" 80 pool_init); [by left|].
  intros [H _]. lia.
Defined.

(** C2. An automatic request never returns, whatever the time it is given, in
    exactly the reachable states where the last port handed out is the first
    of the range and the whole range is taken; in every other state it returns
    within one round: the loop looks at no more than every port of the range
    and one. *)
Theorem RequestPort_hangs_iff g ip proto port :
  pool_reachable g -> proto = "tcp" \/ proto = "udp" -> port <= 0 ->
  let stuck := last_of g (ipstr ip) proto = BeginPortRange /\
               forall q, in_range q -> q ∈ allocated g (ipstr ip) proto in
  ((forall fuel, RequestPort fuel ip proto port g = OutOfFuel) <-> stuck) /\
  (~ stuck -> exists g' r, RequestPort (Z.to_nat (EndPortRange - BeginPortRange + 2)) ip proto port g = Return (g', r)).
Proof.
  intros Hr%pool_reachable_wf Hp Hport stuck. unfold stuck. clear stuck.
  destruct (pool_lookup g (ipstr ip) proto Hr Hp) as (pm&Hpm&Hw&HA&Hl).
  rewrite HA, Hl.
  assert (forall fuel, RequestPort fuel ip proto port g = OutOfFuel <-> findPort fuel pm = OutOfFuel) as Hiff.
  { intros fuel. rewrite (RequestPort_unfold _ _ _ _ _ pm) by done.
    destruct (Z.ltb_spec 0 port); [lia|]. by destruct (findPort fuel pm) as [[? ?]| |]. }
  setoid_rewrite Hiff. split; [split|].
  - intros Hn. destruct (decide (last pm = BeginPortRange)) as [HB|HB].
    + split; [done|]. intros q Hq. destruct (decide (q ∈ p pm)); [done|].
      destruct (findPort_returns pm Hw) as (pm'&r&Hf&_); [by intros [_ Hs]; apply n, Hs|].
      by rewrite Hn in Hf.
    + destruct (findPort_returns pm Hw) as (pm'&r&Hf&_); [by intros [? _]|]. by rewrite Hn in Hf.
  - intros Hs fuel. by apply findPort_stuck.
  - intros Hns. destruct (findPort_returns pm Hw Hns) as (pm'&r&Hf&_).
    rewrite (RequestPort_unfold _ _ _ _ _ pm) by done. destruct (Z.ltb_spec 0 port); [lia|].
    change (Z.to_nat (EndPortRange - BeginPortRange + 2)) with findPort_fuel. rewrite Hf. by eexists _, _.
Qed.

Lemma RequestPort_hangs_iff_witness :
  exists g' r, RequestPort (Z.to_nat (EndPortRange - BeginPortRange + 2)) None "tcp" 0 ∅ = Return (g', r).
Proof.
  apply (RequestPort_hangs_iff ∅ None "tcp" 0 pool_init); [by left|lia|]. intros [H _]. vm_compute in H. discriminate H.
Defined.

(** The first automatic request of an address and protocol. *)
Lemma first_request ip proto :
  proto = "tcp" \/ proto = "udp" ->
  RequestPort findPort_fuel ip proto 0 ∅ =
  Return (<[ipstr ip := <[proto := {| p := {[BeginPortRange]} ∪ ∅; last := BeginPortRange |}]>
            (default newProtoMap ((∅ : ipMapping) !! ipstr ip))]> ∅, Ok BeginPortRange).
Proof.
  intros Hp. rewrite (RequestPort_unfold _ _ _ _ _ newPortMap); [done|done|].
  rewrite lookup_empty. by apply newProtoMap_lookup.
Qed.

(** Explicit requests fill the range while the last automatic port stays. *)
Lemma fill_range n :
  (Z.of_nat n <= 16382) ->
  exists g, pool_reachable g /\ last_of g (ipstr None) "tcp" = BeginPortRange /\
    forall q, BeginPortRange <= q <= BeginPortRange + Z.of_nat n -> q ∈ allocated g (ipstr None) "tcp".
Proof.
  induction n as [|n IH]; intros Hn.
  - pose proof (first_request None "tcp" (or_introl eq_refl)) as E.
    eexists. split; [apply (pool_next ∅ _ (OpRequest None "tcp" 0)); [constructor|];
      unfold pool_step; rewrite E; reflexivity|].
    cbn [fst]. rewrite last_of_insert. split; [done|]. intros q Hq.
    rewrite allocated_insert_eq. cbn [p]. replace q with BeginPortRange by lia. set_solver.
  - destruct IH as (g&Hr&Hl&Hall); [lia|]. set (q1 := BeginPortRange + Z.of_nat (S n)).
    pose proof (pool_reachable_wf g Hr) as Hw.
    destruct (pool_lookup g (ipstr None) "tcp" Hw (or_introl eq_refl)) as (pm&Hpm&_&HA&Hlp).
    pose proof (RequestPort_unfold findPort_fuel None "tcp" q1 g pm (or_introl eq_refl) Hpm) as Hu.
    destruct (Z.ltb_spec 0 q1); [|unfold q1, BeginPortRange in *; lia].
    case_decide as Hin; (eexists; split;
      [apply (pool_next g _ (OpRequest None "tcp" q1)); [done|]; unfold pool_step; rewrite Hu; reflexivity|]).
    + cbn [fst]. rewrite last_of_touch. split; [done|]. intros q Hq.
      rewrite allocated_touch.
      destruct (decide (q = q1)) as [->|]; [by rewrite HA|]. apply Hall. unfold q1 in *. lia.
    + cbn [fst]. rewrite last_of_insert. cbn [last]. split; [congruence|]. intros q Hq.
      rewrite allocated_insert_eq. cbn [p].
      destruct (decide (q = q1)) as [->|]; [set_solver|].
      apply elem_of_union_r. rewrite <- HA. apply Hall. unfold q1 in *. lia.
Qed.

(** The hanging state is reachable: once the first automatic request has
    returned and every other port of the range has been requested by number,
    the next automatic request loops for ever (with the mutex held). *)
Theorem RequestPort_hang_reachable :
  exists g, pool_reachable g /\ forall fuel, RequestPort fuel None "tcp" 0 g = OutOfFuel.
Proof.
  destruct (fill_range (Z.to_nat 16382) ltac:(lia)) as (g&Hr&Hl&Hall).
  exists g. split; [done|].
  destruct (pool_lookup g (ipstr None) "tcp" (pool_reachable_wf g Hr) (or_introl eq_refl))
    as (pm&Hpm&_&HA&Hlp).
  intros fuel. rewrite (RequestPort_unfold _ _ _ _ _ pm) by (done || by left).
  simpl. rewrite findPort_stuck; [done|].
  split; [congruence|]. intros q Hq. rewrite <- HA. apply Hall. unfold_range. lia.
Qed.

Lemma RequestPort_release g ip proto port g' q :
  pool_reachable g ->
  RequestPort findPort_fuel ip proto port g = Return (g', Ok q) ->
  (q ∉ allocated g (ipstr ip) proto) ->
  exists g'', ReleasePort ip proto q g' = Return (g'', Ok ()) /\
    forall s proto', allocated g'' s proto' = allocated g s proto'.
Proof.
  intros Hr%pool_reachable_wf H Hfree.
  assert (proto = "tcp" \/ proto = "udp") as Hp.
  { unfold RequestPort in H. destruct (_ && _) eqn:E; [done|]. by apply proto_test in E. }
  destruct (pool_lookup g (ipstr ip) proto Hr Hp) as (pm&Hpm&Hw&HA&_).
  rewrite (RequestPort_unfold _ _ _ _ _ pm) in H by done.
  assert (exists pm', p pm' = {[q]} ∪ p pm /\
    g' = <[ipstr ip := <[proto := pm']> (default newProtoMap (g !! ipstr ip))]> g) as (pm'&Hp'&->).
  { destruct (0 <? port); [case_decide; simplify_eq; eexists; (split; [|reflexivity]); done|].
    destruct (findPort findPort_fuel pm) as [[m r]| |] eqn:Ef; simpl in H; simplify_eq.
    apply findPort_total in Ef; [|done|done]. destruct Ef as (_&->&_). eexists; (split; [|reflexivity]); done. }
  unfold ReleasePort. rewrite lookup_insert_eq. rewrite lookup_insert_eq. simpl.
  eexists. split; [done|]. intros s proto'. rewrite insert_insert_eq, insert_insert_eq.
  clear H. rewrite allocated_insert. case_decide as Hd; [|done]. destruct Hd as [-> ->].
  simpl. rewrite HA in *. rewrite Hp'. set_solver.
Qed.

(** Releasing what was just requested restores the pool: after a request
    that took a free port, [ReleasePort] of that port leaves every address
    and protocol with the ports it had before. *)
Theorem RequestPort_ReleasePort g ip proto port g' q :
  pool_reachable g ->
  RequestPort findPort_fuel ip proto port g = Return (g', Ok q) ->
  (q ∉ allocated g (ipstr ip) proto) ->
  exists g'', ReleasePort ip proto q g' = Return (g'', Ok ()) /\
    forall s proto', allocated g'' s proto' = allocated g s proto'.
Proof. apply RequestPort_release. Qed.

Lemma RequestPort_ReleasePort_witness :
  exists g' q g'', RequestPort findPort_fuel None "udp" 0 ∅ = Return (g', Ok q) /\
    ReleasePort None "udp" q g' = Return (g'', Ok ()) /\
    forall s proto', allocated g'' s proto' = allocated ∅ s proto'.
Proof.
  pose proof (first_request None "udp" (or_intror eq_refl)) as E.
  destruct (RequestPort_ReleasePort ∅ None "udp" 0 _ _ pool_init E) as (g''&H1&H2);
    [apply not_elem_of_empty|].
  eexists _, _, g''. split; [exact E|]. split; [exact H1|exact H2].
Defined.

(** ** For the clients of the pool *)

Lemma valid_request ip proto port g g' q :
  RequestPort findPort_fuel ip proto port g = Return (g', Ok q) -> proto = "tcp" \/ proto = "udp".
Proof. unfold RequestPort. destruct (_ && _) eqn:E; [done|]. by apply proto_test in E. Qed.

Lemma request_effect g ip proto port g' r :
  pool_wf g -> RequestPort findPort_fuel ip proto port g = Return (g', r) ->
  pool_wf g' /\
  forall s pr, allocated g' s pr =
    match r with
    | Ok q => if decide (s = ipstr ip /\ pr = proto) then {[q]} ∪ allocated g s pr else allocated g s pr
    | Err _ => allocated g s pr
    end.
Proof.
  intros Hg H. split; [apply (pool_step_wf (OpRequest ip proto port) g g' Hg); simpl; by rewrite H|].
  unfold RequestPort in H. destruct (_ && _) eqn:E; [by simplify_eq|]. apply proto_test in E.
  destruct (pool_lookup g (ipstr ip) proto Hg E) as (pm&Hpm&Hw&HA&_). rewrite Hpm in H. cbn in H.
  destruct (0 <? port).
  - destruct (decide (port ∈ p pm)); simplify_eq; intros s pr; [by rewrite allocated_touch|].
    rewrite allocated_insert. destruct (decide (s = ipstr ip /\ pr = proto)) as [[-> ->]|]; [by rewrite HA|done].
  - destruct (findPort findPort_fuel pm) as [[m r']| |] eqn:Ef; simpl in H; simplify_eq.
    apply findPort_total in Ef; [|done|done]. intros s pr. rewrite allocated_insert.
    destruct (decide (s = ipstr ip /\ pr = proto)) as [[-> ->]|].
    + rewrite HA. destruct r; simpl in Ef; [by destruct Ef as (_&->&_)|by destruct Ef as (_&->&_)].
    + by destruct r.
Qed.

Lemma release_effect g ip proto q :
  pool_wf g -> proto = "tcp" \/ proto = "udp" ->
  exists g', ReleasePort ip proto q g = Return (g', Ok ()) /\ pool_wf g' /\
    forall s pr, allocated g' s pr =
      if decide (s = ipstr ip /\ pr = proto) then allocated g s pr ∖ {[q]} else allocated g s pr.
Proof.
  intros Hg Hp. destruct (pool_lookup g (ipstr ip) proto Hg Hp) as (pm&Hpm&Hw&HA&_).
  unfold ReleasePort. destruct (g !! ipstr ip) as [m|] eqn:E.
  - simpl in Hpm. rewrite Hpm. simpl. eexists. split; [done|]. split.
    + apply pool_wf_insert; [done|]. apply protoMap_wf_insert; [by eapply Hg|done|done].
    + intros s pr. replace m with (default newProtoMap (g !! ipstr ip)) by (by rewrite E).
      rewrite allocated_insert. destruct (decide (s = ipstr ip /\ pr = proto)) as [[-> ->]|]; [by rewrite HA|done].
  - eexists. split; [done|]. split; [done|]. intros s pr.
    destruct (decide _) as [[-> ->]|]; [|done]. unfold allocated. rewrite E. simpl. set_solver.
Qed.

Lemma request_explicit g ip proto q :
  pool_wf g -> proto = "tcp" \/ proto = "udp" -> 0 < q -> q ∉ allocated g (ipstr ip) proto ->
  exists g', RequestPort findPort_fuel ip proto q g = Return (g', Ok q).
Proof.
  intros Hg Hp Hq Hf. destruct (pool_lookup g (ipstr ip) proto Hg Hp) as (pm&Hpm&Hw&HA&_).
  rewrite (RequestPort_unfold _ _ _ _ _ pm) by done. rewrite HA in Hf.
  destruct (Z.ltb_spec 0 q); [|lia]. rewrite decide_False by done. eauto.
Qed.

Lemma request_first g ip proto port :
  pool_wf g -> proto = "tcp" \/ proto = "udp" -> port <= 0 -> last_of g (ipstr ip) proto = 0 ->
  exists g', RequestPort findPort_fuel ip proto port g = Return (g', Ok BeginPortRange).
Proof.
  intros Hg Hp Hq Hl. destruct (pool_lookup g (ipstr ip) proto Hg Hp) as (pm&Hpm&Hw&HA&Hl').
  rewrite (RequestPort_unfold _ _ _ _ _ pm) by done. rewrite Hl' in Hl.
  destruct (Z.ltb_spec 0 port); [lia|]. unfold findPort. rewrite Hl. simpl. eauto.
Qed.
