(* ===== verification/NetUtils.v ===== *)
(** * daemon/networkdriver/utils.go: ranges, sizes and overlaps of networks

    What the kernel and the resolver give ([netlink.NetworkGetRoutes], the
    name servers, the addresses of an interface) is an argument. *)

From stdpp Require Import base list strings.
From Stdlib Require Import ZArith Lia.
From S2P Require Import Prelude GoStrings GoNet.

Local Open Scope Z_scope.

Inductive net_error :=
| ErrNetworkOverlapsWithNameservers
| ErrNetworkOverlaps
| ErrNoDefaultRoute
| ErrNoIPAddresses (iface : string)
| ErrExternal (msg : string).

(** The first and the last address; indexing a mask or an address that is too
    short panics. *)
Definition NetworkRange (network : IPNet) : outcome (IP * IP) :=
  let netIP := To4 (net_IP network) in
  let firstIP := Mask netIP (net_Mask network) in
  let byte_at i :=
    a ← or_panic (netIP !! i);
    m ← or_panic (net_Mask network !! i);
    Return (Z.lor a (Z.lxor m 255)) in
  b0 ← byte_at 0%nat; b1 ← byte_at 1%nat; b2 ← byte_at 2%nat; b3 ← byte_at 3%nat;
  Return (firstIP, [b0; b1; b2; b3]).

Definition NetworkSize (mask : IPMask) : outcome Z :=
  let byte_at i := m ← or_panic (mask !! i); Return (Z.lxor m 255) in
  b0 ← byte_at 0%nat; b1 ← byte_at 1%nat; b2 ← byte_at 2%nat; b3 ← byte_at 3%nat;
  u ← be_Uint32 [b0; b1; b2; b3];
  Return (int32 (int32 u + 1)).

Definition NetworkOverlaps (netX netY : IPNet) : outcome bool :=
  '(firstX, _) ← NetworkRange netX;
  if Contains netY firstX then Return true
  else
    '(firstY, _) ← NetworkRange netY;
    Return (Contains netX firstY).

Fixpoint CheckNameserverOverlaps (ParseCIDR : string -> result net_error IPNet)
    (nameservers : list string) (toCheck : IPNet) : outcome (result net_error ()) :=
  match nameservers with
  | [] => Return (Ok ())
  | ns :: rest =>
      match ParseCIDR ns with
      | Err e => Return (Err e)
      | Ok nsNetwork =>
          b ← NetworkOverlaps toCheck nsNetwork;
          if b : bool then Return (Err ErrNetworkOverlapsWithNameservers)
          else CheckNameserverOverlaps ParseCIDR rest toCheck
      end
  end.

(** A route of the kernel's table; the default route has no network. *)
Record Route := { route_IPNet : option IPNet; route_Iface : string; route_Default : bool }.

Fixpoint check_routes (networks : list Route) (toCheck : IPNet) : outcome (result net_error ()) :=
  match networks with
  | [] => Return (Ok ())
  | network :: rest =>
      match route_IPNet network with
      | None => check_routes rest toCheck
      | Some n =>
          b ← NetworkOverlaps toCheck n;
          if b : bool then Return (Err ErrNetworkOverlaps) else check_routes rest toCheck
      end
  end.

Definition CheckRouteOverlaps (networkGetRoutes : result net_error (list Route))
    (toCheck : IPNet) : outcome (result net_error ()) :=
  match networkGetRoutes with
  | Err e => Return (Err e)
  | Ok networks => check_routes networks toCheck
  end.

Definition GetIfaceAddr (name : string) (addrs : result net_error (list IPNet)) : result net_error IPNet :=
  addrs ← addrs;
  match filter (fun a => length (To4 (net_IP a)) = 4%nat) addrs with
  | [] => Err (ErrNoIPAddresses name)
  | a :: _ => Ok a
  end.

Definition GetDefaultRouteIface (networkGetRoutes : result net_error (list Route)) : result net_error string :=
  match networkGetRoutes with
  | Err _ => Err (ErrExternal "unable to get routes")
  | Ok rs =>
      match filter (fun r => route_Default r = true) rs with
      | [] => Err ErrNoDefaultRoute
      | r :: _ => Ok (route_Iface r)
      end
  end.

(** ** Masks and arithmetic *)

(** Facts about bytes and prefix masks that hold by enumeration. *)
Lemma forallb_seq (P : nat -> bool) n : forallb P (seq 0 n) = true -> forall i, (i < n)%nat -> P i = true.
Proof. intros H i Hi. rewrite forallb_forall in H. apply H, in_seq. lia. Qed.

Definition byte_checks (b o : nat) : bool :=
  let m := mask_byte o in
  let s := 2 ^ (8 - Z.of_nat (min o 8)) in
  let b := Z.of_nat b in
  (Z.land b m =? b - b mod s) && (Z.lor b (Z.lxor m 255) =? b - b mod s + (s - 1)) &&
  (Z.lxor m 255 =? s - 1).

Lemma byte_checks_all : forallb (fun b => forallb (byte_checks b) (seq 0 33)) (seq 0 256) = true.
Proof. by vm_compute. Qed.

Lemma byte_masked b o :
  byte b -> (o <= 32)%nat ->
  let s := 2 ^ (8 - Z.of_nat (min o 8)) in
  Z.land b (mask_byte o) = b - b mod s /\
  Z.lor b (Z.lxor (mask_byte o) 255) = b - b mod s + (s - 1) /\
  Z.lxor (mask_byte o) 255 = s - 1.
Proof.
  intros Hb Ho s. unfold byte in Hb.
  pose proof (forallb_seq _ _ byte_checks_all (Z.to_nat b) ltac:(lia)) as H.
  pose proof (forallb_seq _ _ H o ltac:(lia)) as H'. unfold byte_checks in H'.
  rewrite Z2Nat.id in H' by lia. reflect_bools. auto.
Qed.

Lemma masked_val ip k :
  wf_ip4 ip -> (k <= 32)%nat ->
  ip_val (zip_with Z.land ip (CIDRMask k 4)) = ip_val ip - ip_val ip mod 2 ^ (32 - Z.of_nat k).
Proof.
  intros (a&b&c&d&->&Ha&Hb&Hc&Hd)%wf_ip4_inv Hk. cbn [CIDRMask zip_with ip_val].
  destruct (byte_masked a k Ha Hk) as [-> _].
  destruct (byte_masked b (k - 8) Hb ltac:(lia)) as [-> _].
  destruct (byte_masked c (k - 8 - 8) Hc ltac:(lia)) as [-> _].
  destruct (byte_masked d (k - 8 - 8 - 8) Hd ltac:(lia)) as [-> _].
  unfold byte in *.
  do 33 (destruct k as [|k]; [cbn -[Z.modulo Z.mul Z.add Z.sub]; Z.div_mod_to_equations; lia|]). lia.
Qed.

Lemma last_val ip k :
  wf_ip4 ip -> (k <= 32)%nat ->
  ip_val (zip_with Z.lor ip (zip_with Z.lxor (CIDRMask k 4) (replicate 4 255))) =
  ip_val ip - ip_val ip mod 2 ^ (32 - Z.of_nat k) + (2 ^ (32 - Z.of_nat k) - 1).
Proof.
  intros (a&b&c&d&->&Ha&Hb&Hc&Hd)%wf_ip4_inv Hk. cbn [CIDRMask zip_with replicate ip_val].
  destruct (byte_masked a k Ha Hk) as (_&->&_).
  destruct (byte_masked b (k - 8) Hb ltac:(lia)) as (_&->&_).
  destruct (byte_masked c (k - 8 - 8) Hc ltac:(lia)) as (_&->&_).
  destruct (byte_masked d (k - 8 - 8 - 8) Hd ltac:(lia)) as (_&->&_).
  unfold byte in *.
  do 33 (destruct k as [|k]; [cbn -[Z.modulo Z.mul Z.add Z.sub]; Z.div_mod_to_equations; lia|]). lia.
Qed.

Lemma byte_land b o : byte b -> (o <= 32)%nat -> byte (Z.land b (mask_byte o)).
Proof.
  intros Hb Ho. destruct (byte_masked b o Hb Ho) as [-> _]. unfold byte in *.
  assert (0 < 2 ^ (8 - Z.of_nat (min o 8))) by (apply Z.pow_pos_nonneg; lia).
  pose proof (Z.mod_pos_bound b _ H). pose proof (Z.mod_le b _ ltac:(lia) H). lia.
Qed.

Lemma masked_wf ip k : wf_ip4 ip -> (k <= 32)%nat -> wf_ip4 (zip_with Z.land ip (CIDRMask k 4)).
Proof.
  intros (a&b&c&d&->&?&?&?&?)%wf_ip4_inv Hk. split; [done|]. cbn [CIDRMask zip_with].
  repeat (constructor; [apply byte_land; [done | lia]|]). done.
Qed.

(** Masking twice with prefix masks is masking with the shorter one. *)
Lemma mask_mask j k :
  (j <= k)%nat -> (k <= 32)%nat -> zip_with Z.land (CIDRMask k 4) (CIDRMask j 4) = CIDRMask j 4.
Proof.
  assert (forallb (fun j => forallb (fun k => implb (j <=? k)%nat
      (bool_decide (zip_with Z.land (CIDRMask k 4) (CIDRMask j 4) = CIDRMask j 4)))
      (seq 0 33)) (seq 0 33) = true) as H by (by vm_compute).
  intros Hj Hk. pose proof (forallb_seq _ _ H j ltac:(lia)) as Hjk.
  pose proof (forallb_seq _ _ Hjk k ltac:(lia)) as E. cbv beta in E.
  rewrite (proj2 (Nat.leb_le j k) Hj) in E. by apply bool_decide_eq_true in E.
Qed.

Lemma land_twice ip j k :
  (j <= k)%nat -> (k <= 32)%nat ->
  zip_with Z.land (zip_with Z.land ip (CIDRMask k 4)) (CIDRMask j 4) = zip_with Z.land ip (CIDRMask j 4).
Proof.
  intros Hj Hk. rewrite <- (mask_mask j k) at 2 by done.
  generalize (CIDRMask k 4), (CIDRMask j 4). clear. induction ip as [|a ip IH]; intros [|b l] [|c m];
    simpl; try done. f_equal; [symmetry; apply Z.land_assoc | apply IH].
Qed.

(** The range and the size of an IPv4 network with a prefix mask. *)
Definition first_ip (n : IPNet) : IP := zip_with Z.land (net_IP n) (net_Mask n).
Definition net_size (k : nat) : Z := 2 ^ (32 - Z.of_nat k).

Lemma first_ip_wf n k : wf_net4 n k -> wf_ip4 (first_ip n).
Proof. intros (Hip&Hk&Hm). unfold first_ip. rewrite Hm. by apply masked_wf. Qed.

Lemma net_size_pos k : (k <= 32)%nat -> 1 <= net_size k.
Proof. intros. unfold net_size. pose proof (Z.pow_pos_nonneg 2 (32 - Z.of_nat k)). lia. Qed.

Lemma first_ip_val n k :
  wf_net4 n k -> ip_val (first_ip n) = ip_val (net_IP n) - ip_val (net_IP n) mod net_size k.
Proof. intros (Hip&Hk&Hm). unfold first_ip. rewrite Hm. by apply masked_val. Qed.

Lemma NetworkRange_wf n k :
  wf_net4 n k ->
  exists last, NetworkRange n = Return (first_ip n, last) /\ wf_ip4 last /\
    ip_val last = ip_val (first_ip n) + (net_size k - 1).
Proof.
  intros Hw. pose proof Hw as ((Hl&Hf)&Hk&Hm). unfold NetworkRange.
  rewrite To4_4 by done. rewrite (Mask_wf n k Hw). fold (first_ip n).
  eexists (zip_with Z.lor (net_IP n) (zip_with Z.lxor (CIDRMask k 4) (replicate 4 255))).
  assert (wf_ip4 (net_IP n)) as Hip by (split; done).
  rewrite last_val, first_ip_val with (k := k) by done. split; [|split; [|done]].
  - rewrite Hm. destruct (wf_ip4_inv _ Hip) as (a&b&c&d&->&_). done.
  - destruct (wf_ip4_inv _ Hip) as (a&b&c&d&E&Ha&Hb&Hc&Hd). rewrite E. split; [done|].
    cbn [CIDRMask zip_with replicate]. unfold byte in *.
    destruct (byte_masked a k Ha Hk) as (_&->&_).
    destruct (byte_masked b (k - 8) Hb ltac:(lia)) as (_&->&_).
    destruct (byte_masked c (k - 8 - 8) Hc ltac:(lia)) as (_&->&_).
    destruct (byte_masked d (k - 8 - 8 - 8) Hd ltac:(lia)) as (_&->&_).
    do 33 (destruct k as [|k]; [repeat constructor; cbn -[Z.modulo Z.mul Z.add Z.sub];
      Z.div_mod_to_equations; lia|]). lia.
Qed.

Lemma Contains_masked n k ip :
  wf_net4 n k -> wf_ip4 ip ->
  Contains n ip = true <-> first_ip n = zip_with Z.land ip (CIDRMask k 4).
Proof.
  intros Hw Hip. pose proof Hw as (_&_&Hm). rewrite (Contains_wf n k) by done.
  rewrite bool_decide_eq_true. unfold first_ip. by rewrite Hm.
Qed.

(** An IPv4 network is the interval from its first to its last address. *)
Lemma Contains_interval n k ip :
  wf_net4 n k -> wf_ip4 ip ->
  Contains n ip = true <->
  ip_val (first_ip n) <= ip_val ip < ip_val (first_ip n) + net_size k.
Proof.
  intros Hw Hip. pose proof Hw as (_&Hk&_). rewrite (Contains_masked n k) by done.
  pose proof (net_size_pos k Hk). pose proof (first_ip_val n k Hw) as Hf.
  assert (ip_val (zip_with Z.land ip (CIDRMask k 4)) = ip_val ip - ip_val ip mod net_size k) as Hm
    by (by apply masked_val).
  assert (first_ip n = zip_with Z.land ip (CIDRMask k 4) <->
          ip_val (first_ip n) = ip_val ip - ip_val ip mod net_size k) as ->.
  { split; [intros ->; done|]. intros E. apply ip_val_inj; [by eapply first_ip_wf | by apply masked_wf|].
    congruence. }
  rewrite Hf. set (x := ip_val (net_IP n)). set (y := ip_val ip). set (s := net_size k) in *.
  pose proof (Z.div_mod x s ltac:(lia)). pose proof (Z.div_mod y s ltac:(lia)).
  pose proof (Z.mod_pos_bound x s ltac:(lia)). pose proof (Z.mod_pos_bound y s ltac:(lia)).
  split; [lia|]. intros ?. assert (x / s = y / s) by nia. nia.
Qed.

Lemma NetworkOverlaps_eval X Y i j :
  wf_net4 X i -> wf_net4 Y j ->
  NetworkOverlaps X Y = Return (Contains Y (first_ip X) || Contains X (first_ip Y)).
Proof.
  intros HX HY. unfold NetworkOverlaps.
  destruct (NetworkRange_wf X i HX) as (lX&->&_). simpl.
  destruct (Contains Y (first_ip X)); [done|].
  by destruct (NetworkRange_wf Y j HY) as (lY&->&_).
Qed.

(** Two networks share an address. *)
Definition share_address (X Y : IPNet) : Prop :=
  exists ip, wf_ip4 ip /\ Contains X ip = true /\ Contains Y ip = true.

Lemma overlaps_iff X Y i j :
  wf_net4 X i -> wf_net4 Y j ->
  Contains Y (first_ip X) || Contains X (first_ip Y) = true <-> share_address X Y.
Proof.
  intros HX HY. unfold share_address.
  pose proof (first_ip_wf X i HX) as HfX. pose proof (first_ip_wf Y j HY) as HfY.
  pose proof HX as (_&Hi&_). pose proof HY as (_&Hj&_).
  pose proof (net_size_pos i Hi). pose proof (net_size_pos j Hj).
  rewrite orb_true_iff, (Contains_interval Y j), (Contains_interval X i) by done. split.
  - intros [H'|H']; [exists (first_ip X)|exists (first_ip Y)];
      (split; [done|]; rewrite (Contains_interval Y j), (Contains_interval X i) by done; lia).
  - intros (ip&Hip&H1&H2). rewrite (Contains_interval X i) in H1 by done.
    rewrite (Contains_interval Y j) in H2 by done. lia.
Qed.

(** ** Properties *)

(** C3. [NetworkRange] returns the first and the last address of an IPv4
    network with a prefix mask, [NetworkSize] the number of its addresses (as
    an int32, so modulo 2^32), and [Contains] holds of exactly the addresses
    between the two. *)
Theorem NetworkRange_interval n k :
  wf_net4 n k ->
  exists first last,
    NetworkRange n = Return (first, last) /\ wf_ip4 first /\ wf_ip4 last /\
    ip_val last - ip_val first + 1 = net_size k /\
    NetworkSize (net_Mask n) = Return (int32 (net_size k)) /\
    forall ip, wf_ip4 ip ->
      Contains n ip = true <-> ip_val first <= ip_val ip <= ip_val last.
Proof.
  intros Hw. pose proof Hw as (_&Hk&Hm). destruct (NetworkRange_wf n k Hw) as (last&Hr&Hl&Hv).
  exists (first_ip n), last. split; [done|]. split; [by eapply first_ip_wf|]. split; [done|].
  split; [lia|]. split.
  - rewrite Hm. clear -Hk. do 33 (destruct k as [|k]; [by vm_compute|]). lia.
  - intros ip Hip. rewrite (Contains_interval n k) by done. lia.
Qed.

Definition example_net : IPNet := {| net_IP := [192;168;1;1]; net_Mask := CIDRMask 24 4 |}.

Lemma example_net_wf : wf_net4 example_net 24.
Proof. split; [|split; [lia|done]]. split; [done|]. unfold byte. repeat constructor; lia. Qed.

Lemma NetworkRange_interval_witness :
  exists first last, NetworkRange example_net = Return (first, last) /\
    ip_val last - ip_val first + 1 = 256.
Proof.
  destruct (NetworkRange_interval example_net 24 example_net_wf) as (f&l&H&_&_&Hs&_).
  exists f, l. split; [exact H|exact Hs].
Defined.

(** [NetworkOverlaps], which only tests whether either network contains
    the first address of the other, decides whether the two networks have an
    address in common. *)
Theorem NetworkOverlaps_correct X Y i j :
  wf_net4 X i -> wf_net4 Y j ->
  exists b, NetworkOverlaps X Y = Return b /\ (b = true <-> share_address X Y).
Proof.
  intros HX HY. eexists. split; [by eapply NetworkOverlaps_eval|]. by eapply overlaps_iff.
Qed.

Lemma NetworkOverlaps_correct_witness :
  exists b, NetworkOverlaps example_net example_net = Return b /\
    (b = true <-> share_address example_net example_net).
Proof. exact (NetworkOverlaps_correct example_net example_net 24 24 example_net_wf example_net_wf). Defined.

Definition wf_net (n : IPNet) : Prop := exists k, wf_net4 n k.

Definition wf_route (r : Route) : Prop :=
  match route_IPNet r with Some m => wf_net m | None => True end.

Lemma check_routes_correct rs n :
  wf_net n -> Forall wf_route rs ->
  exists res, check_routes rs n = Return res /\
    (res = Ok () \/ res = Err ErrNetworkOverlaps) /\
    (res = Ok () <-> forall r m, r ∈ rs -> route_IPNet r = Some m -> ~ share_address n m).
Proof.
  intros [k Hn]. induction 1 as [|r rs Hr Hrs IH]; simpl.
  { eexists. split; [done|]. split; [by left|]. split; [|done].
    intros _ r m Hr. by apply elem_of_nil in Hr. }
  destruct IH as (res&Hres&Hor&Hiff). unfold wf_route in Hr.
  destruct (route_IPNet r) as [m|] eqn:Em.
  - destruct Hr as [j Hm]. rewrite (NetworkOverlaps_eval n m k j) by done. simpl.
    pose proof (overlaps_iff n m k j Hn Hm) as Ho. destruct (_ || _) eqn:Eb.
    + eexists. split; [done|]. split; [by right|]. split; [done|]. intros H.
      by destruct (H r m ltac:(by left) Em); apply Ho.
    + exists res. split; [done|]. split; [done|]. rewrite Hiff. split.
      * intros H r' m' [->|Hr']%elem_of_cons Hm'; [|by eapply H].
        assert (m' = m) as -> by congruence. intros Hs%Ho. done.
      * intros H r' m' Hr'. apply H. by right.
  - exists res. split; [done|]. split; [done|]. rewrite Hiff. split.
    + intros H r' m' [->|Hr']%elem_of_cons Hm'; [congruence | by eapply H].
    + intros H r' m' Hr'. apply H. by right.
Qed.

Lemma check_nameservers_correct ParseCIDR ns n :
  wf_net n -> (forall s m, ParseCIDR s = Ok m -> wf_net m) ->
  exists res, CheckNameserverOverlaps ParseCIDR ns n = Return res /\
    (res = Ok () <-> forall s, s ∈ ns -> exists m, ParseCIDR s = Ok m /\ ~ share_address n m).
Proof.
  intros [k Hn] Hp. induction ns as [|s ns IH]; simpl.
  { eexists. split; [done|]. split; [|done]. intros _ s Hs. by apply elem_of_nil in Hs. }
  destruct IH as (res&Hres&Hiff). destruct (ParseCIDR s) as [m|e] eqn:Es.
  - destruct (Hp s m Es) as [j Hm]. rewrite (NetworkOverlaps_eval n m k j) by done. simpl.
    pose proof (overlaps_iff n m k j Hn Hm) as Ho. destruct (_ || _) eqn:Eb.
    + eexists. split; [done|]. split; [done|]. intros H.
      destruct (H s ltac:(by left)) as (m'&Hm'&Hno). assert (m' = m) as -> by congruence.
      by destruct Hno; apply Ho.
    + exists res. split; [done|]. rewrite Hiff. split.
      * intros H s' [->|Hs']%elem_of_cons; [|by apply H]. exists m. split; [done|]. by intros Hs%Ho.
      * intros H s' Hs'. apply H. by right.
  - eexists. split; [done|]. split; [done|]. intros H.
    destruct (H s ltac:(by left)) as (m'&Hm'&_). congruence.
Qed.

(** The two checks a bridge network has to pass accept it exactly when it
    shares no address with the network of any route of the kernel, and when
    every name server parses and shares no address with it. *)
Theorem CheckOverlaps_correct ParseCIDR rs ns n :
  wf_net n -> Forall wf_route rs -> (forall s m, ParseCIDR s = Ok m -> wf_net m) ->
  exists r1 r2,
    CheckRouteOverlaps (Ok rs) n = Return r1 /\ CheckNameserverOverlaps ParseCIDR ns n = Return r2 /\
    (r1 = Ok () <-> forall r m, r ∈ rs -> route_IPNet r = Some m -> ~ share_address n m) /\
    (r2 = Ok () <-> forall s, s ∈ ns -> exists m, ParseCIDR s = Ok m /\ ~ share_address n m).
Proof.
  intros Hn Hrs Hp. destruct (check_routes_correct rs n Hn Hrs) as (r1&H1&_&Hi1).
  destruct (check_nameservers_correct ParseCIDR ns n Hn Hp) as (r2&H2&Hi2). eauto 10.
Qed.

Definition example_ParseCIDR (s : string) : result net_error IPNet :=
  if String.eqb s "192.168.1.1/24" then Ok example_net else Err (ErrExternal "invalid CIDR address").

Lemma CheckOverlaps_correct_witness :
  exists r1 r2,
    CheckRouteOverlaps (Ok [{| route_IPNet := Some example_net; route_Iface := "eth0"; route_Default := false |}])
      example_net = Return r1 /\
    CheckNameserverOverlaps example_ParseCIDR ["192.168.1.1/24"] example_net = Return r2.
Proof.
  destruct (CheckOverlaps_correct example_ParseCIDR
    [{| route_IPNet := Some example_net; route_Iface := "eth0"; route_Default := false |}]
    ["192.168.1.1/24"] example_net) as (r1&r2&H1&H2&_).
  - exists 24%nat. exact example_net_wf.
  - constructor; [exists 24%nat; exact example_net_wf | constructor].
  - intros s m. unfold example_ParseCIDR. destruct (String.eqb _ _); [|discriminate].
    intros [= <-]. exists 24%nat. exact example_net_wf.
  - exists r1, r2. split; [exact H1|exact H2].
Defined.
