(* ===== verification/IPAlloc.v ===== *)
(** * daemon/networkdriver/ipallocator: the pool of container addresses

    A network, keyed by its textual form, has the set of positions (offsets
    from its first address) that are allocated, and the last one.  The state
    is the package variable [allocatedIPs]; the lock makes every operation one
    step.  Positions and addresses are int32 values that wrap. *)

From stdpp Require Import base gmap sets list strings.
From Stdlib Require Import ZArith Lia.
From S2P Require Import Prelude GoStrings GoNet NetUtils.

Local Open Scope Z_scope.

Record allocatedMap := { p : gset Z; last : Z }.
Definition newAllocatedMap : allocatedMap := {| p := ∅; last := 0 |}.

Abbreviation networkSet := (gmap string allocatedMap).

Inductive ip_error := ErrNoAvailableIPs | ErrIPAlreadyAllocated.

#[export] Instance ip_error_eq_dec : EqDecision ip_error.
Proof. solve_decision. Defined.

Definition ipToInt (ip : IP) : outcome Z := u ← be_Uint32 (To4 ip); Return (int32 u).

Definition intToIP (n : Z) : IP := be_PutUint32 (uint32 n).

Definition getPosition (network : IPNet) (ip : IP) : outcome Z :=
  '(first, _) ← NetworkRange network;
  a ← ipToInt ip;
  b ← ipToInt first;
  Return (int32 (a - b)).

Definition checkIP (allocated : allocatedMap) (network : IPNet) (ip : IP) :
    outcome (allocatedMap * result ip_error IP) :=
  pos ← getPosition network ip;
  if decide (pos ∈ p allocated) then Return (allocated, Err ErrIPAlreadyAllocated)
  else Return ({| p := {[pos]} ∪ p allocated; last := pos |}, Ok ip).

(** The loop of [getNextIP], [n] iterations before [i] reaches [max]. *)
Fixpoint getNextIP_loop (allocated : gset Z) (ownIP firstAsInt base max : Z) (n : nat) (pos : Z) : option Z :=
  match n with
  | O => None
  | S n' =>
      let pos := int32 (Z.rem pos max + 1) in
      let next := int32 (base + pos) in
      if (next =? ownIP) || (next =? firstAsInt) then
        getNextIP_loop allocated ownIP firstAsInt base max n' pos
      else if decide (pos ∈ allocated) then
        getNextIP_loop allocated ownIP firstAsInt base max n' pos
      else Some pos
  end.

Definition getNextIP (allocated : allocatedMap) (network : IPNet) :
    outcome (allocatedMap * result ip_error IP) :=
  ownIP ← ipToInt (net_IP network);
  '(first, _) ← NetworkRange network;
  base ← ipToInt first;
  size ← NetworkSize (net_Mask network);
  let max := int32 (size - 2) in
  let firstNetIP := Mask (To4 (net_IP network)) (net_Mask network) in
  f ← ipToInt firstNetIP;
  let firstAsInt := int32 (f + 1) in
  match getNextIP_loop (p allocated) ownIP firstAsInt base max (Z.to_nat max) (last allocated) with
  | Some pos =>
      Return ({| p := {[pos]} ∪ p allocated; last := pos |}, Ok (intToIP (int32 (base + pos))))
  | None => Return (allocated, Err ErrNoAvailableIPs)
  end.

Definition RequestIP (network : IPNet) (ip : option IP) (allocatedIPs : networkSet) :
    outcome (networkSet * result ip_error IP) :=
  let key := IPNet_String network in
  let allocated := default newAllocatedMap (allocatedIPs !! key) in
  '(allocated, r) ← match ip with
                    | None => getNextIP allocated network
                    | Some ip => checkIP allocated network ip
                    end;
  Return (<[key := allocated]> allocatedIPs, r).

Definition ReleaseIP (network : IPNet) (ip : IP) (allocatedIPs : networkSet) :
    outcome (networkSet * result ip_error ()) :=
  let key := IPNet_String network in
  match allocatedIPs !! key with
  | None => Return (allocatedIPs, Ok ())
  | Some allocated =>
      pos ← getPosition network ip;
      Return (<[key := {| p := p allocated ∖ {[pos]}; last := last allocated |}]> allocatedIPs, Ok ())
  end.

(** ** Specification vocabulary *)

Definition pool_of (g : networkSet) (n : IPNet) : allocatedMap :=
  default newAllocatedMap (g !! IPNet_String n).

(** The address at a position of a network. *)
Definition address (n : IPNet) (pos : Z) : Z := ip_val (first_ip n) + pos.

(** Positions [getNextIP] may hand out: inside the network, not its own
    address, not its first host. *)
Definition candidate (n : IPNet) (k : nat) (pos : Z) : Prop :=
  2 <= pos <= net_size k - 2 /\ address n pos <> ip_val (net_IP n).

(** Operations on the pools of networks of at least two addresses, in which
    every address that is asked for lies in its network: nothing checks it. *)
Inductive ip_op :=
| OpNext (n : IPNet)
| OpAddress (n : IPNet) (ip : IP)
| OpRelease (n : IPNet) (ip : IP).

Definition ip_step (op : ip_op) (g : networkSet) : outcome networkSet :=
  match op with
  | OpNext n => fst <$> RequestIP n None g
  | OpAddress n ip => fst <$> RequestIP n (Some ip) g
  | OpRelease n ip => fst <$> ReleaseIP n ip g
  end.

Definition op_inside (op : ip_op) : Prop :=
  match op with
  | OpNext n => exists k, wf_net4 n k /\ (1 <= k)%nat
  | OpAddress n ip => exists k, wf_net4 n k /\ (1 <= k)%nat /\ wf_ip4 ip /\ Contains n ip = true
  | OpRelease _ _ => True
  end.

Inductive pools_reachable : networkSet -> Prop :=
| pools_init : pools_reachable ∅
| pools_next g op g' : pools_reachable g -> op_inside op -> ip_step op g = Return g' -> pools_reachable g'.

(** ** Lemmas *)

Lemma ipToInt_wf ip : wf_ip4 ip -> ipToInt ip = Return (int32 (ip_val ip)).
Proof. intros H. unfold ipToInt. rewrite To4_4 by apply H. by rewrite be_Uint32_val. Qed.

(** Conversions between int32 and uint32. *)
Lemma int32_eqb x y :
  0 <= x < 2 ^ 32 -> 0 <= y < 2 ^ 32 -> (int32 x =? int32 y) = (x =? y).
Proof.
  intros Hx Hy. apply eq_true_iff_eq. rewrite !Z.eqb_eq. unfold wrapS.
  split; [|by intros ->]. change (2 ^ (32 - 1)) with 2147483648. change (2 ^ 32) with 4294967296 in *.
  Z.div_mod_to_equations. lia.
Qed.

Lemma int32_int32_add x y : int32 (int32 x + y) = int32 (x + y).
Proof.
  unfold wrapS. f_equal. change (2 ^ (32 - 1)) with 2147483648. change (2 ^ 32) with 4294967296.
  replace ((x + 2147483648) mod 4294967296 - 2147483648 + y + 2147483648)
    with ((x + 2147483648) mod 4294967296 + y) by lia.
  rewrite Z.add_mod_idemp_l by lia. f_equal. lia.
Qed.

Lemma int32_int32_sub x y : int32 (int32 x - int32 y) = int32 (x - y).
Proof.
  replace (int32 x - int32 y) with (int32 x + - int32 y) by lia. rewrite int32_int32_add.
  unfold wrapS. f_equal. change (2 ^ (32 - 1)) with 2147483648. change (2 ^ 32) with 4294967296.
  Z.div_mod_to_equations. lia.
Qed.

Lemma uint32_int32 x : 0 <= x < 2 ^ 32 -> uint32 (int32 x) = x.
Proof.
  intros Hx. unfold wrapS, wrapU. change (2 ^ (32 - 1)) with 2147483648.
  change (2 ^ 32) with 4294967296 in *. Z.div_mod_to_equations. lia.
Qed.

Lemma net_size_le k : (1 <= k)%nat -> net_size k <= 2 ^ 31.
Proof. intros. unfold net_size. apply Z.pow_le_mono_r; lia. Qed.

Lemma address_bound n k pos :
  wf_net4 n k -> 0 <= pos < net_size k -> 0 <= address n pos < 2 ^ 32.
Proof.
  intros Hw Hp. destruct (NetworkRange_wf n k Hw) as (l&_&Hl&Hv).
  pose proof (ip_val_range _ Hl). pose proof (ip_val_range _ (first_ip_wf n k Hw)).
  unfold address. lia.
Qed.

(** The positions visited from [pos] on: [pos mod max + 1], and so on. *)
Lemma visit_next pos max i :
  0 < max -> 0 <= pos -> 0 <= i ->
  (pos mod max + 1 + i) mod max + 1 = (pos + (i + 1)) mod max + 1.
Proof.
  intros. f_equal. rewrite <- Z.add_assoc, Z.add_mod_idemp_l by lia. f_equal. lia.
Qed.

Lemma loop_spec n k A pos m :
  wf_net4 n k -> (1 <= k)%nat -> 0 <= pos ->
  let max := net_size k - 2 in
  0 < max ->
  match getNextIP_loop A (int32 (ip_val (net_IP n))) (int32 (ip_val (first_ip n) + 1))
          (int32 (ip_val (first_ip n))) max m pos with
  | Some q => 1 <= q <= max /\ candidate n k q /\ (q ∉ A)
  | None => forall i, 0 <= i < Z.of_nat m ->
              let q := (pos + i) mod max + 1 in candidate n k q -> q ∈ A
  end.
Proof.
  intros Hw Hk Hpos max Hmax. revert pos Hpos. pose proof (net_size_le k Hk).
  assert (max < 2 ^ 31) by (unfold max; lia).
  induction m as [|m IH]; intros pos Hpos; cbn [getNextIP_loop]; [lia|].
  rewrite Z.rem_mod_nonneg by lia. pose proof (Z.mod_pos_bound pos max Hmax) as Hb.
  rewrite (wrapS_small 32 (pos mod max + 1)) by (change (2 ^ (32 - 1)) with (2 ^ 31); lia).
  set (q := pos mod max + 1) in *.
  assert (forall i, 0 <= i < Z.of_nat (S m) -> i <> 0 ->
    exists j, 0 <= j < Z.of_nat m /\ (pos + i) mod max + 1 = (q + j) mod max + 1) as Hnext.
  { intros i Hi Hi0. exists (i - 1). split; [lia|]. unfold q. rewrite visit_next by lia.
    do 2 f_equal. lia. }
  rewrite int32_int32_add. fold (address n q).
  pose proof (address_bound n k q Hw ltac:(unfold q, max in *; lia)) as Ha.
  pose proof (ip_val_range _ (proj1 Hw)) as Ho.
  pose proof (address_bound n k 1 Hw ltac:(unfold max in *; lia)) as H1. unfold address in H1.
  rewrite !int32_eqb by done.
  specialize (IH q ltac:(unfold q; lia)). cbv zeta in IH.
  assert (q < 2 /\ address n q = ip_val (first_ip n) + 1 \/ 2 <= q /\ address n q <> ip_val (first_ip n) + 1) as Hq.
  { unfold address. unfold q in *. lia. }
  destruct ((address n q =? ip_val (net_IP n)) || (address n q =? ip_val (first_ip n) + 1)) eqn:E;
    [|case_decide as Hin].
  - destruct (getNextIP_loop _ _ _ _ _ m q); [done|]. intros i Hi Hc.
    destruct (decide (i = 0)) as [->|Hi0].
    + exfalso. rewrite Z.add_0_r in Hc. fold q in Hc. destruct Hc as [? ?].
      apply orb_true_iff in E as [E|E]; apply Z.eqb_eq in E; [done|lia].
    + destruct (Hnext i Hi Hi0) as (j&Hj&Ej). rewrite Ej in *. by apply IH.
  - destruct (getNextIP_loop _ _ _ _ _ m q); [done|]. intros i Hi Hc.
    destruct (decide (i = 0)) as [->|Hi0].
    + rewrite Z.add_0_r. exact Hin.
    + destruct (Hnext i Hi Hi0) as (j&Hj&Ej). rewrite Ej in *. by apply IH.
  - reflect_bools. split; [unfold q, max in *; lia|]. split; [|done]. unfold candidate.
    split; [|done]. destruct Hq as [[_ Hq]|[Hq _]]; [done|]. unfold q, max in *. lia.
Qed.

(** Every position up to [max] is visited within [max] iterations. *)
Lemma visit_all pos max q :
  0 < max -> 1 <= q <= max -> exists i, 0 <= i < max /\ (pos + i) mod max + 1 = q.
Proof.
  intros Hmax Hq. exists ((q - 1 - pos) mod max). split; [apply Z.mod_pos_bound; lia|].
  rewrite Z.add_mod_idemp_r by lia. replace (pos + (q - 1 - pos)) with (q - 1) by lia.
  rewrite Z.mod_small; lia.
Qed.

Lemma max_wf k : (1 <= k <= 32)%nat -> int32 (int32 (net_size k) - 2) = net_size k - 2.
Proof.
  intros Hk. replace (int32 (net_size k) - 2) with (int32 (net_size k) + -2) by lia.
  rewrite int32_int32_add. pose proof (net_size_le k ltac:(lia)). pose proof (net_size_pos k ltac:(lia)).
  rewrite wrapS_small; [lia|lia|]. change (2 ^ (32 - 1)) with (2 ^ 31). lia.
Qed.

Lemma getNextIP_spec alloc n k :
  wf_net4 n k -> (1 <= k)%nat -> 0 <= last alloc ->
  exists alloc' r, getNextIP alloc n = Return (alloc', r) /\
    match r with
    | Ok ip => wf_ip4 ip /\ exists pos, ip_val ip = address n pos /\ candidate n k pos /\
                 (pos ∉ p alloc) /\ alloc' = {| p := {[pos]} ∪ p alloc; last := pos |}
    | Err e => e = ErrNoAvailableIPs /\ alloc' = alloc /\ forall pos, candidate n k pos -> pos ∈ p alloc
    end.
Proof.
  intros Hw Hk Hl. pose proof Hw as (Hip&Hk32&Hm). unfold getNextIP.
  rewrite (ipToInt_wf (net_IP n)) by done. simpl.
  destruct (NetworkRange_wf n k Hw) as (l&->&_). simpl.
  rewrite (ipToInt_wf (first_ip n)) by (by eapply first_ip_wf). simpl.
  assert (NetworkSize (net_Mask n) = Return (int32 (net_size k))) as ->.
  { rewrite Hm. clear -Hk32. do 33 (destruct k as [|k]; [by vm_compute|]). lia. }
  simpl. rewrite To4_4 by apply Hip. rewrite (Mask_wf n k Hw). fold (first_ip n).
  rewrite ipToInt_wf by (by eapply first_ip_wf). simpl. rewrite int32_int32_add, max_wf by lia.
  destruct (Z.leb_spec (net_size k - 2) 0) as [Hsmall|Hbig].
  { replace (Z.to_nat (net_size k - 2)) with 0%nat by lia. simpl. eexists _, _. split; [done|].
    split; [done|]. split; [done|]. intros pos [? _]. lia. }
  pose proof (loop_spec n k (p alloc) (last alloc) (Z.to_nat (net_size k - 2)) Hw Hk Hl Hbig) as Hloop.
  destruct (getNextIP_loop _ _ _ _ _ _ _) as [pos|]; simpl; eexists _, _; (split; [done|]).
  - destruct Hloop as (Hpos&Hc&Hfree).
    pose proof (address_bound n k pos Hw ltac:(lia)) as Ha.
    split; [apply be_PutUint32_wf|]. exists pos. split; [|done].
    unfold intToIP. rewrite int32_int32_add. fold (address n pos).
    rewrite uint32_int32 by done. by apply ip_val_PutUint32.
  - split; [done|]. split; [done|]. intros pos Hc.
    destruct (visit_all (last alloc) (net_size k - 2) pos) as (i&Hi&Ei);
      [done | destruct Hc; lia |].
    specialize (Hloop i ltac:(lia)). cbv zeta in Hloop. rewrite Ei in Hloop. by apply Hloop.
Qed.

Lemma pool_of_insert g n a m :
  pool_of (<[IPNet_String n := a]> g) m = if decide (IPNet_String n = IPNet_String m) then a else pool_of g m.
Proof. unfold pool_of. rewrite lookup_insert. by case_decide. Qed.

Lemma getPosition_wf n k ip :
  wf_net4 n k -> (1 <= k)%nat -> wf_ip4 ip -> Contains n ip = true ->
  getPosition n ip = Return (ip_val ip - ip_val (first_ip n)).
Proof.
  intros Hw Hk Hip Hc. pose proof Hw as (_&Hk32&_). unfold getPosition.
  destruct (NetworkRange_wf n k Hw) as (l&->&_). simpl. rewrite (ipToInt_wf ip) by done. simpl.
  rewrite (ipToInt_wf (first_ip n)) by (by eapply first_ip_wf). simpl. rewrite int32_int32_sub.
  apply (Contains_interval n k) in Hc; [|done|done]. pose proof (net_size_le k Hk).
  rewrite wrapS_small; [done|lia|]. change (2 ^ (32 - 1)) with (2 ^ 31). lia.
Qed.

(** Positions of addresses in their networks are not negative. *)
Lemma pools_reachable_last g : pools_reachable g -> map_Forall (fun _ a => 0 <= last a) g.
Proof.
  induction 1 as [|g op g' _ IH Hin Hs]; [by intros key a H; rewrite lookup_empty in H|].
  assert (forall key, 0 <= last (default newAllocatedMap (g !! key))) as Hlast.
  { intros key. destruct (g !! key) as [a|] eqn:E; [by apply (IH key)|done]. }
  destruct op as [n|n ip|n ip]; simpl in Hs, Hin.
  - destruct Hin as (k & Hw & Hk). unfold RequestIP in Hs.
    destruct (getNextIP_spec _ n k Hw Hk (Hlast (IPNet_String n))) as (a & r & Hg & Hr). rewrite Hg in Hs. injection Hs as <-.
    apply map_Forall_insert_2; [|done]. destruct r as [i|e].
    + destruct Hr as (_ & pos & _ & [Hp _] & _ & ->). simpl. lia.
    + destruct Hr as (_ & -> & _). apply Hlast.
  - destruct Hin as (k & Hw & Hk & Hip & Hc). unfold RequestIP, checkIP in Hs. rewrite (getPosition_wf n k ip Hw Hk Hip Hc) in Hs. simpl in Hs.
    apply (Contains_interval n k) in Hc; [|done|done].
    case_decide; simpl in Hs; injection Hs as <-; (apply map_Forall_insert_2; [|done]); simpl; [apply Hlast|lia].
  - unfold ReleaseIP in Hs. destruct (g !! IPNet_String n) as [a|] eqn:E; [|by injection Hs as <-].
    destruct (getPosition n ip) as [pos| |]; [|done|done]. injection Hs as <-. apply map_Forall_insert_2; [|done]. by apply (IH _ a E).
Qed.

(** ** Properties *)

(** C4. [RequestIP] without an address, after any requests and releases in
    which every address asked for lay in its network: it returns an address
    of the network that was not allocated, and that is not the network's
    address, its first host, its broadcast address or the bridge's own
    address; it fails only when no such address is left; the pools of other
    networks do not change.  (After a request for an address outside its
    network the next one leaves the network: [RequestIP_escapes_network].) *)
Theorem RequestIP_next_spec g n k :
  wf_net4 n k -> (1 <= k)%nat -> pools_reachable g ->
  exists g' r, RequestIP n None g = Return (g', r) /\
    (forall m, IPNet_String n <> IPNet_String m -> pool_of g' m = pool_of g m) /\
    match r with
    | Ok ip => wf_ip4 ip /\ Contains n ip = true /\ exists pos, ip_val ip = address n pos /\
                 candidate n k pos /\ (pos ∉ p (pool_of g n)) /\
                 pool_of g' n = {| p := {[pos]} ∪ p (pool_of g n); last := pos |}
    | Err e => e = ErrNoAvailableIPs /\ pool_of g' n = pool_of g n /\
               forall pos, candidate n k pos -> pos ∈ p (pool_of g n)
    end.
Proof.
  intros Hw Hk Hreach%pools_reachable_last.
  assert (0 <= last (pool_of g n)) as Hl by (unfold pool_of; destruct (g !! IPNet_String n) as [a|] eqn:E; [by apply (Hreach _ a E)|done]).
  destruct (getNextIP_spec (pool_of g n) n k Hw Hk Hl) as (a&r&Hg&Hr).
  unfold RequestIP. fold (pool_of g n). rewrite Hg. simpl. eexists _, r. split; [done|].
  split; [intros m Hne; rewrite pool_of_insert; by rewrite decide_False|].
  rewrite pool_of_insert, decide_True by done. destruct r as [ip|e]; [|by destruct Hr as (->&->&?)].
  destruct Hr as (Hip&pos&Hv&Hc&Hf&->). split; [done|]. split; [|by exists pos].
  apply (Contains_interval n k); [done|done|]. destruct Hc as [? _]. unfold address in Hv. lia.
Qed.

(** 192.168.1.7 is requested, then the next address. *)
Lemma RequestIP_next_spec_witness :
  exists g1 g2 r, RequestIP example_net (Some [192;168;1;7]) ∅ = Return (g1, Ok [192;168;1;7]) /\
    RequestIP example_net None g1 = Return (g2, r) /\
    (forall m, IPNet_String example_net <> IPNet_String m -> pool_of g2 m = pool_of g1 m).
Proof.
  assert (wf_ip4 [192;168;1;7]) as Hip.
  { split; [reflexivity|]. unfold byte. repeat constructor; lia. }
  destruct (RequestIP_next_spec (<[IPNet_String example_net := {| p := {[7]}; last := 7 |}]> ∅) example_net 24 example_net_wf ltac:(lia))
    as (g2&r&H&Ho&_).
  { apply (pools_next ∅ (OpAddress example_net [192;168;1;7])); [constructor| |vm_compute; reflexivity].
    exists 24%nat. split; [apply example_net_wf|]. split; [lia|]. split; [exact Hip|reflexivity]. }
  eexists _, g2, r. split; [|split; [exact H|exact Ho]]. vm_compute. reflexivity.
Defined.

(** [RequestIP] of an address of the network takes it exactly when its
    position is free, a second request for it fails, and [ReleaseIP] gives the
    pool of the network back the positions it had without that address. *)
Theorem RequestIP_ReleaseIP g n k ip :
  wf_net4 n k -> (1 <= k)%nat -> wf_ip4 ip -> Contains n ip = true ->
  let pos := ip_val ip - ip_val (first_ip n) in
  exists g1 r1 g2 g3,
    RequestIP n (Some ip) g = Return (g1, r1) /\
    (r1 = Ok ip <-> pos ∉ p (pool_of g n)) /\
    p (pool_of g1 n) = {[pos]} ∪ p (pool_of g n) /\
    RequestIP n (Some ip) g1 = Return (g2, Err ErrIPAlreadyAllocated) /\ g2 = g1 /\
    ReleaseIP n ip g1 = Return (g3, Ok ()) /\
    p (pool_of g3 n) = p (pool_of g n) ∖ {[pos]}.
Proof.
  intros Hw Hk Hip Hc pos. pose proof (getPosition_wf n k ip Hw Hk Hip Hc) as Hp. fold pos in Hp.
  assert (forall g', checkIP (pool_of g' n) n ip =
    Return (if decide (pos ∈ p (pool_of g' n)) then (pool_of g' n, Err ErrIPAlreadyAllocated)
            else ({| p := {[pos]} ∪ p (pool_of g' n); last := pos |}, Ok ip))) as Hcheck.
  { intros g'. unfold checkIP. rewrite Hp. simpl. by case_decide. }
  assert (exists a r, RequestIP n (Some ip) g = Return (<[IPNet_String n := a]> g, r) /\
    (r = Ok ip <-> pos ∉ p (pool_of g n)) /\ p a = {[pos]} ∪ p (pool_of g n)) as (a&r&H1&Hr&Ha).
  { unfold RequestIP. fold (pool_of g n). rewrite Hcheck. case_decide as Hd; simpl; eexists _, _;
      (split; [done|]); (split; [|set_solver]); [|done]. split; [done|]. by intros []. }
  eexists _, r, _, _. split; [exact H1|]. split; [done|].
  rewrite pool_of_insert, decide_True by done. split; [done|]. split; [|split; [reflexivity|]].
  - unfold RequestIP. rewrite lookup_insert_eq. simpl (default _ _).
    pose proof (Hcheck (<[IPNet_String n := a]> g)) as H2. rewrite pool_of_insert, decide_True in H2 by done.
    rewrite H2, decide_True by set_solver. simpl. by rewrite insert_insert_eq.
  - unfold ReleaseIP. rewrite lookup_insert_eq, Hp. simpl. split; [done|].
    rewrite insert_insert_eq, pool_of_insert, decide_True by done. simpl. rewrite Ha. set_solver.
Qed.

Lemma RequestIP_ReleaseIP_witness :
  exists g1 g3, RequestIP example_net (Some [192;168;1;7]) ∅ = Return (g1, Ok [192;168;1;7]) /\
    ReleaseIP example_net [192;168;1;7] g1 = Return (g3, Ok ()).
Proof.
  assert (wf_ip4 [192;168;1;7]) as Hip.
  { split; [reflexivity|]. unfold byte. repeat constructor; lia. }
  destruct (RequestIP_ReleaseIP ∅ example_net 24 [192;168;1;7] example_net_wf ltac:(lia) Hip
    ltac:(reflexivity)) as (g1&r1&g2&g3&H1&Hr&_&_&_&H3&_).
  exists g1, g3. split; [|exact H3]. rewrite H1. do 2 f_equal. apply Hr. apply not_elem_of_empty.
Defined.

(** [RequestIP] does not check that a requested address is in the
    network: after 192.168.0.200 is requested in 192.168.1.1/24, the next
    automatic request hands out an address outside the network. *)
Theorem RequestIP_escapes_network :
  exists g1 g2 ip,
    RequestIP example_net (Some [192;168;0;200]) ∅ = Return (g1, Ok [192;168;0;200]) /\
    RequestIP example_net None g1 = Return (g2, Ok ip) /\
    Contains example_net ip = false.
Proof.
  eexists _, _, [192;168;0;201]. split; [reflexivity|]. split; [reflexivity|]. reflexivity.
Qed.
