(* ===== verification/Env.v ===== *)
(** * engine/env.go: job environments

    An [Env] is an ordered list of ["KEY=VALUE"] strings in which the same
    key may occur several times; the last one counts. *)

From stdpp Require Import base gmap list strings.
From Stdlib Require Import ZArith Lia Ascii.
From S2P Require Import Prelude GoStrings.

Local Open Scope Z_scope.

Abbreviation Env := (list string).

(** ** Operations *)

(** One entry of the loop of [Get]. *)
Definition Get_entry (key : string) (value : string) (kv : string) : string :=
  match index_char "=" kv with
  | None => value
  | Some _ =>
      match split2 "=" kv with
      | k :: rest =>
          if negb (String.eqb k key) then value
          else match rest with v :: _ => v | [] => "" end
      | [] => value
      end
  end.

Definition Get (env : Env) (key : string) : string := foldl (Get_entry key) "" env.

Definition Set_ (env : Env) (key value : string) : Env := env ++ [key +:+ "=" +:+ value].

(** [Map]: [parts\[1\]] panics on an entry without ["="]. *)
Definition Map_entry (m : gmap string string) (kv : string) : outcome (gmap string string) :=
  match split2 "=" kv with
  | [k; v] => Return (<[k := v]> m)
  | _ => Panic
  end.

Fixpoint Map_loop (m : gmap string string) (env : Env) : outcome (gmap string string) :=
  match env with
  | [] => Return m
  | kv :: env' => m' ← Map_entry m kv; Map_loop m' env'
  end.

Definition Map (env : Env) : outcome (gmap string string) := Map_loop ∅ env.

Definition Exists (env : Env) (key : string) : outcome bool :=
  m ← Map env; Return (bool_decide (is_Some (m !! key))).

Definition Len (env : Env) : outcome Z := m ← Map env; Return (Z.of_nat (size m)).

(** [Init] copies the entries of [src]. *)
Definition Init (src : Env) : Env := foldl (fun env val => env ++ [val]) [] src.

Definition GetBool (env : Env) (key : string) : bool :=
  let s := to_lower (trim is_blank (Get env key)) in
  negb (String.eqb s "" || String.eqb s "0" || String.eqb s "no" ||
        String.eqb s "false" || String.eqb s "none").

Definition SetBool (env : Env) (key : string) (value : bool) : Env :=
  if value then Set_ env key "1" else Set_ env key "0".

Definition GetInt64 (env : Env) (key : string) : Z :=
  match parse_int 64 (trim is_blank (Get env key)) with
  | Ok val => val
  | Err _ => 0
  end.

Definition GetInt (env : Env) (key : string) : Z := GetInt64 env key.

Definition SetInt64 (env : Env) (key : string) (value : Z) : Env := Set_ env key (itoa value).
Definition SetInt (env : Env) (key : string) (value : Z) : Env := Set_ env key (itoa value).

Definition MultiMap_entry (m : gmap string (list string)) (kv : string) : outcome (gmap string (list string)) :=
  match split2 "=" kv with
  | [k; v] => Return (<[k := default [] (m !! k) ++ [v]]> m)
  | _ => Panic
  end.

Fixpoint MultiMap_loop (m : gmap string (list string)) (env : Env) : outcome (gmap string (list string)) :=
  match env with
  | [] => Return m
  | kv :: env' => m' ← MultiMap_entry m kv; MultiMap_loop m' env'
  end.

Definition MultiMap (env : Env) : outcome (gmap string (list string)) := MultiMap_loop ∅ env.

(** [InitMultiMap] ranges over a Go map, whose order is unspecified: [m] is
    the list of its entries in the order of that run. *)
Definition InitMultiMap (m : list (string * list string)) : Env :=
  foldl (fun env '(k, vals) => foldl (fun env v => Set_ env k v) env vals) [] m.

(** ** Well-formed environments *)

Definition key_ok (k : string) : Prop := contains_char "=" k = false.

(** Every entry has an ["="], as [Set] and [ParseJob] build them. *)
Definition env_wf (env : Env) : Prop := Forall (fun kv => contains_char "=" kv = true) env.

(** ** Lemmas *)

Lemma Get_app env1 env2 key : Get (env1 ++ env2) key = foldl (Get_entry key) (Get env1 key) env2.
Proof. unfold Get. by rewrite foldl_app. Qed.

Lemma entry_index k v : index_char "=" (k +:+ "=" +:+ v) <> None.
Proof.
  rewrite index_char_None, contains_char_app. simpl. by rewrite orb_true_r.
Qed.

Lemma entry_split k v : key_ok k -> split2 "=" (k +:+ "=" +:+ v) = [k; v].
Proof. intros Hk. by apply split2_app. Qed.

Lemma Get_entry_set key k v value :
  key_ok k -> Get_entry key value (k +:+ "=" +:+ v) = if decide (k = key) then v else value.
Proof.
  intros Hk. unfold Get_entry. pose proof (entry_index k v) as Hi.
  destruct (index_char "=" _); [|done]. rewrite entry_split by done.
  destruct (String.eqb_spec k key); case_decide; done.
Qed.

Lemma Get_Set env key k v : key_ok k -> Get (Set_ env k v) key = if decide (k = key) then v else Get env key.
Proof. intros Hk. unfold Set_. rewrite Get_app. simpl. by apply Get_entry_set. Qed.

(** The shape of an entry with an ["="]. *)
Lemma env_wf_entry kv :
  contains_char "=" kv = true -> exists k v, kv = k +:+ "=" +:+ v /\ key_ok k.
Proof.
  intros H. destruct (split2_spec "=" kv) as [[? _]|(a&b&->&Ha&_)]; [congruence|].
  by exists a, b.
Qed.

Lemma Map_loop_wf env m :
  env_wf env -> exists m', Map_loop m env = Return m' /\
    forall key, m' !! key = match m' !! key with Some _ => Some (foldl (Get_entry key) (default "" (m !! key)) env) | None => None end /\
                (is_Some (m' !! key) <-> is_Some (m !! key) \/ exists v, key +:+ "=" +:+ v ∈ env /\ key_ok key).
Proof.
  revert m. induction env as [|kv env IH]; intros m Hw; simpl.
  - exists m. split; [done|]. intros key. split; [by destruct (m !! key)|].
    split; [by left|]. intros [?|(v&Hv&_)]; [done|by apply elem_of_nil in Hv].
  - inversion Hw as [|? ? Hkv Hw']; subst. apply env_wf_entry in Hkv as (k&v&->&Hk).
    unfold Map_entry. rewrite entry_split by done. simpl.
    destruct (IH (<[k := v]> m) Hw') as (m'&Hm'&Hkeys). exists m'. split; [done|].
    intros key. destruct (Hkeys key) as [H1 H2]. rewrite Get_entry_set by done. split.
    + rewrite H1. destruct (m' !! key); [|done]. rewrite lookup_insert. by case_decide.
    + rewrite H2, lookup_insert. setoid_rewrite elem_of_cons. case_decide as Hd.
      * subst. split; [intros _; right; exists v; eauto|]. intros _. left. eauto.
      * split; [intros [?|(w&?&?)]; eauto|].
        intros [?|(w&[Heq|?]&Hkey)]; [by left| |right; eauto].
        exfalso. apply Hd. pose proof (entry_split key w Hkey) as E1. rewrite Heq in E1.
        rewrite entry_split in E1 by done. congruence.
Qed.

Lemma InitMultiMap_snoc m k vals :
  InitMultiMap (m ++ [(k, vals)]) = InitMultiMap m ++ ((fun v => k +:+ "=" +:+ v) <$> vals).
Proof.
  unfold InitMultiMap. rewrite foldl_app. simpl. generalize (foldl (fun env '(k, vals) =>
    foldl (fun env v => Set_ env k v) env vals) [] m). intros env. revert env.
  induction vals as [|v vals IH]; intros env; simpl; [by rewrite app_nil_r|].
  rewrite IH. unfold Set_. by rewrite <- app_assoc.
Qed.

Lemma MultiMap_loop_app m env1 env2 :
  MultiMap_loop m (env1 ++ env2) = (m' ← MultiMap_loop m env1; MultiMap_loop m' env2).
Proof.
  revert m. induction env1 as [|kv env1 IH]; intros m; [done|]. simpl.
  destruct (MultiMap_entry m kv); simpl; [apply IH|done|done].
Qed.

Lemma MultiMap_loop_key m k vals :
  key_ok k -> vals <> [] ->
  MultiMap_loop m ((fun v => k +:+ "=" +:+ v) <$> vals) = Return (<[k := default [] (m !! k) ++ vals]> m).
Proof.
  intros Hk. revert m. induction vals as [|v vals IH]; intros m Hne; [done|].
  simpl. unfold MultiMap_entry. rewrite entry_split by done. simpl.
  destruct vals as [|v' vals]; [done|].
  rewrite IH by done. rewrite insert_insert_eq, lookup_insert_eq. simpl. by rewrite <- app_assoc.
Qed.

Lemma MultiMap_InitMultiMap_loop l :
  NoDup l.*1 -> Forall (fun kv => key_ok kv.1 /\ kv.2 <> []) l ->
  MultiMap (InitMultiMap l) = Return (list_to_map l).
Proof.
  induction l as [|[k vals] l IH] using rev_ind; [done|]. intros Hnd Hok.
  rewrite fmap_app in Hnd. apply NoDup_app in Hnd as (Hnd&Hdis&_).
  apply Forall_app in Hok as [Hok Hk]. inversion Hk as [|? ? [Hk1 Hk2] _]; subst. simpl in *.
  unfold MultiMap in *. rewrite InitMultiMap_snoc, MultiMap_loop_app, IH by done. simpl.
  rewrite MultiMap_loop_key by done. f_equal.
  assert (k ∉ l.*1) as Hnk by (intros Hin; apply (Hdis k Hin); by left).
  rewrite (not_elem_of_list_to_map_1 l k) by done. simpl.
  by rewrite list_to_map_snoc.
Qed.

(** ** Properties *)

Lemma Get_SetBool env k b : key_ok k -> GetBool (SetBool env k b) k = b.
Proof.
  intros Hk. unfold GetBool, SetBool. destruct b; rewrite Get_Set, decide_True by done; done.
Qed.

Lemma Get_SetInt64 env k z : key_ok k -> min_int64 <= z <= max_int64 -> GetInt64 (SetInt64 env k z) k = z.
Proof.
  intros Hk Hz. unfold GetInt64, SetInt64. rewrite Get_Set, decide_True by done.
  rewrite trim_itoa.
  - rewrite parse_int_itoa; [done|lia|]. unfold min_int64, max_int64 in Hz.
    change (2 ^ (64 - 1)) with 9223372036854775808. lia.
  - intros c. destruct c as [[] [] [] [] [] [] [] []]; vm_compute; done.
Qed.

(** Values written to an environment are read back by the accessor of the
    same type (strings, booleans, every int64 and int) without disturbing any
    other key, for keys without an equals sign. *)
Theorem Env_typed_roundtrip env k s b z :
  key_ok k -> min_int64 <= z <= max_int64 ->
  Get (Set_ env k s) k = s /\
  GetBool (SetBool env k b) k = b /\
  GetInt64 (SetInt64 env k z) k = z /\ GetInt (SetInt env k z) k = z /\
  forall k', k' <> k ->
    Get (Set_ env k s) k' = Get env k' /\ Get (SetBool env k b) k' = Get env k' /\
    Get (SetInt64 env k z) k' = Get env k'.
Proof.
  intros Hk Hz. split; [by rewrite Get_Set, decide_True|]. split; [by apply Get_SetBool|].
  split; [by apply Get_SetInt64|]. split; [by apply Get_SetInt64|].
  intros k' Hne. unfold SetBool, SetInt64. destruct b; rewrite !Get_Set, !decide_False by done; done.
Qed.

Lemma Env_typed_roundtrip_witness :
  Get (Set_ ["A=1"] "B" "x=y") "B" = "x=y" /\ GetBool (SetBool ["A=1"] "B" true) "B" = true.
Proof.
  destruct (Env_typed_roundtrip ["A=1"] "B" "x=y" true 0 eq_refl
    ltac:(unfold min_int64, max_int64; lia)) as (H1&H2&_).
  split; [exact H1|exact H2].
Defined.

(** The linear scan of [Get] agrees with the map the environment denotes:
    on an environment whose entries all have an equals sign [Map] does not
    panic, [Get] is the lookup in that map (empty when absent), and a key
    exists in the map exactly when some entry sets it. *)
Theorem Env_Get_Map env :
  env_wf env ->
  exists m, Map env = Return m /\
    (forall key, key_ok key -> Get env key = default "" (m !! key)) /\
    (forall key, is_Some (m !! key) <-> exists v, key +:+ "=" +:+ v ∈ env /\ key_ok key).
Proof.
  intros Hw. destruct (Map_loop_wf env ∅ Hw) as (m&Hm&Hkeys). exists m. split; [done|]. split.
  - intros key Hk. destruct (Hkeys key) as [H1 H2]. destruct (m !! key) as [v|] eqn:E; simpl.
    + rewrite ?E in H1. injection H1 as ->. by rewrite lookup_empty.
    + assert (~ exists v, key +:+ "=" +:+ v ∈ env) as Hno.
      { intros [v Hv]. destruct (proj2 H2) as [? ?]; [right; eauto | done]. }
      clear -Hno Hw. unfold Get. induction env as [|kv env IH] using rev_ind; [done|].
      apply Forall_app in Hw as [Hw Hkv]. inversion Hkv as [|? ? Hc _]; subst.
      rewrite foldl_app. simpl. apply env_wf_entry in Hc as (k&v&->&Hk).
      rewrite Get_entry_set by done. rewrite decide_False.
      * apply IH; [done|]. intros [w Hw']. apply Hno. exists w. apply elem_of_app. by left.
      * intros ->. apply Hno. exists v. apply elem_of_app. right. by left.
  - intros key. destruct (Hkeys key) as [_ H2]. rewrite H2, lookup_empty.
    split; [intros [[? ?]|?]; [done|done] | by right].
Qed.

Lemma Env_Get_Map_witness :
  exists m, Map ["A=1"; "B=2"; "A=3"] = Return m /\
    (forall key, key_ok key -> Get ["A=1"; "B=2"; "A=3"] key = default "" (m !! key)).
Proof.
  destruct (Env_Get_Map ["A=1"; "B=2"; "A=3"]) as (m&H1&H2&_); [by repeat constructor|].
  exists m. split; [exact H1|exact H2].
Defined.

(** [InitMultiMap] and [MultiMap] are inverse: whatever order the map is
    ranged over in, the environment built from it is read back as the same
    map, for keys without an equals sign and with at least one value. *)
Theorem MultiMap_InitMultiMap (m : gmap string (list string)) l :
  l ≡ₚ map_to_list m -> map_Forall (fun k vals => key_ok k /\ vals <> []) m ->
  MultiMap (InitMultiMap l) = Return m.
Proof.
  intros Hl Hm. rewrite MultiMap_InitMultiMap_loop.
  - f_equal. rewrite <- (list_to_map_to_list m). symmetry. apply list_to_map_proper; [|by symmetry].
    apply NoDup_fst_map_to_list.
  - rewrite Hl. apply NoDup_fst_map_to_list.
  - rewrite Hl. by apply map_Forall_to_list in Hm; apply (Forall_impl _ _ _ Hm); intros [].
Qed.

Lemma MultiMap_InitMultiMap_witness :
  MultiMap (InitMultiMap [("X-Meta", ["a"; "b=c"])]) = Return {["X-Meta" := ["a"; "b=c"]]}.
Proof.
  apply (MultiMap_InitMultiMap {["X-Meta" := ["a"; "b=c"]]}); [by rewrite map_to_list_singleton|].
  intros k vals [<- <-]%lookup_singleton_Some. split; [reflexivity|discriminate].
Defined.
