(* ===== verification/Engine.v ===== *)
(** * engine/: the job dispatcher

    [Engine] is the engine's state; a handler is a name in the table
    [handlers], and what running it does to the engine and to the job is the
    parameter [call] (handlers are the rest of the daemon).  Writers are
    references into the store [writers], so that two streams can share one. *)

From stdpp Require Import base gmap list strings sorting.
From Stdlib Require Import ZArith Lia Ascii.
From S2P Require Import Prelude GoStrings Env.

Local Open Scope Z_scope.

(** ** Streams (streams.go) *)

(** An [io.Writer]: the bytes it received, whether its [Write] and its
    [Close] fail, and whether it is an [io.Closer]. *)
Record Writer := {
  content : string;
  write_err : option string;
  closer : bool;
  close_err : option string;
  closed : bool }.

Definition new_buffer : Writer :=
  {| content := ""; write_err := None; closer := false; close_err := None; closed := false |}.

Abbreviation Store := (gmap nat Writer).

Record Output := { dests : list nat; used : bool }.
Definition NewOutput : Output := {| dests := []; used := false |}.

Definition Add (o : Output) (dst : nat) : Output := {| dests := dests o ++ [dst]; used := used o |}.

Definition first_err (e1 e2 : option string) : option string :=
  match e1 with Some _ => e1 | None => e2 end.

Definition write_one (p : string) (st : Store) (dst : nat) : Store * option string :=
  match st !! dst with
  | None => (st, None)
  | Some w =>
      match write_err w with
      | Some e => (st, Some e)
      | None => (<[dst := {| content := content w +:+ p; write_err := None; closer := closer w;
                             close_err := close_err w; closed := closed w |}]> st, None)
      end
  end.

(** [Output.Write]: every destination is written, the first error returned. *)
Definition Write (o : Output) (p : string) (st : Store) : Output * Store * option string :=
  let '(st, err) :=
    foldl (fun '(st, firstErr) dst =>
             let '(st, err) := write_one p st dst in (st, first_err firstErr err))
          (st, None) (dests o) in
  ({| dests := dests o; used := true |}, st, err).

Definition close_one (st : Store) (dst : nat) : Store * option string :=
  match st !! dst with
  | Some w =>
      if closer w then
        (<[dst := {| content := content w; write_err := write_err w; closer := true;
                     close_err := close_err w; closed := true |}]> st, close_err w)
      else (st, None)
  | None => (st, None)
  end.

(** [Output.Close]: every destination that can be closed is closed. *)
Definition Close (o : Output) (st : Store) : Store * option string :=
  foldl (fun '(st, firstErr) dst =>
           let '(st, err) := close_one st dst in (st, first_err firstErr err))
        (st, None) (dests o).

Definition Set_output (o : Output) (dst : nat) (st : Store) : Output * Store :=
  ({| dests := [dst]; used := used o |}, fst (Close o st)).

(** [Input]: at most one source, here a reference like the writers'. *)
Record Input := { src : option nat }.
Definition NewInput : Input := {| src := None |}.

Definition Input_Add (i : Input) (r : nat) : result string Input :=
  match src i with
  | Some _ => Err "Maximum number of sources reached: 1"
  | None => Ok {| src := Some r |}
  end.

Definition Input_Close (i : Input) (st : Store) : Store * option string :=
  match src i with Some r => close_one st r | None => (st, None) end.

(** [Tail]: the loop over [i] downwards; [i] is one more than the index. *)
Fixpoint Tail_loop (bytes : string) (i : nat) (n : Z) : string :=
  match i with
  | O => bytes
  | S i' =>
      match String.get i' bytes with
      | Some c =>
          if Ascii.eqb c "010" then
            if n - 1 =? 0 then drop_str (S i') bytes else Tail_loop bytes i' (n - 1)
          else Tail_loop bytes i' n
      | None => bytes
      end
  end.

Definition trim_newline (s : string) : string :=
  match rev_str s with
  | String c r => if Ascii.eqb c "010" then rev_str r else s
  | EmptyString => s
  end.

Definition Tail (buffer : string) (n : Z) : string :=
  if n <=? 0 then "" else Tail_loop (trim_newline buffer) (String.length buffer - 1) n.

(** ** Jobs and the engine (job.go, engine.go) *)

Abbreviation Status := Z (only parsing).
Definition StatusOK : Z := 0.
Definition StatusErr : Z := 1.
Definition StatusNotFound : Z := 127.

Record Job := {
  Name : string;
  Args : list string;
  env : Env;
  Stdout : Output;
  Stderr : Output;
  Stdin : Input;
  handler : option nat;
  status : Z;
  ended : bool }.

Record Engine := {
  handlers : gmap string nat;
  catchall : option nat;
  id : string;
  eng_Stderr : nat;
  Logging : bool;
  tasks : Z;
  is_shutdown : bool;
  onShutdown : list nat;
  writers : Store }.

Definition set_handlers (e : Engine) h : Engine :=
  {| handlers := h; catchall := catchall e; id := id e; eng_Stderr := eng_Stderr e; Logging := Logging e;
     tasks := tasks e; is_shutdown := is_shutdown e; onShutdown := onShutdown e; writers := writers e |}.
Definition set_catchall (e : Engine) c : Engine :=
  {| handlers := handlers e; catchall := c; id := id e; eng_Stderr := eng_Stderr e; Logging := Logging e;
     tasks := tasks e; is_shutdown := is_shutdown e; onShutdown := onShutdown e; writers := writers e |}.
Definition set_tasks (e : Engine) t : Engine :=
  {| handlers := handlers e; catchall := catchall e; id := id e; eng_Stderr := eng_Stderr e; Logging := Logging e;
     tasks := t; is_shutdown := is_shutdown e; onShutdown := onShutdown e; writers := writers e |}.
Definition set_shutdown (e : Engine) b : Engine :=
  {| handlers := handlers e; catchall := catchall e; id := id e; eng_Stderr := eng_Stderr e; Logging := Logging e;
     tasks := tasks e; is_shutdown := b; onShutdown := onShutdown e; writers := writers e |}.
Definition set_onShutdown (e : Engine) l : Engine :=
  {| handlers := handlers e; catchall := catchall e; id := id e; eng_Stderr := eng_Stderr e; Logging := Logging e;
     tasks := tasks e; is_shutdown := is_shutdown e; onShutdown := l; writers := writers e |}.
Definition set_writers (e : Engine) w : Engine :=
  {| handlers := handlers e; catchall := catchall e; id := id e; eng_Stderr := eng_Stderr e; Logging := Logging e;
     tasks := tasks e; is_shutdown := is_shutdown e; onShutdown := onShutdown e; writers := w |}.

Definition set_Stderr (j : Job) o : Job :=
  {| Name := Name j; Args := Args j; env := env j; Stdout := Stdout j; Stderr := o; Stdin := Stdin j;
     handler := handler j; status := status j; ended := ended j |}.
Definition set_Stdout (j : Job) o : Job :=
  {| Name := Name j; Args := Args j; env := env j; Stdout := o; Stderr := Stderr j; Stdin := Stdin j;
     handler := handler j; status := status j; ended := ended j |}.
Definition set_status (j : Job) s : Job :=
  {| Name := Name j; Args := Args j; env := env j; Stdout := Stdout j; Stderr := Stderr j; Stdin := Stdin j;
     handler := handler j; status := s; ended := ended j |}.
Definition set_ended (j : Job) : Job :=
  {| Name := Name j; Args := Args j; env := env j; Stdout := Stdout j; Stderr := Stderr j; Stdin := Stdin j;
     handler := handler j; status := status j; ended := true |}.
Definition set_env (j : Job) v : Job :=
  {| Name := Name j; Args := Args j; env := v; Stdout := Stdout j; Stderr := Stderr j; Stdin := Stdin j;
     handler := handler j; status := status j; ended := ended j |}.

(** [Engine.Register] refuses to overwrite. *)
Definition Register (eng : Engine) (name : string) (h : nat) : Engine * result string () :=
  match handlers eng !! name with
  | Some _ => (eng, Err ("Can't overwrite handler for command " +:+ name))
  | None => (set_handlers eng (<[name := h]> (handlers eng)), Ok ())
  end.

Definition RegisterCatchall (eng : Engine) (h : nat) : Engine := set_catchall eng (Some h).

(** [New] registers ["commands"] and copies the global handlers over it. *)
Definition New (eid : string) (stderr commands_handler : nat) (globalHandlers : gmap string nat)
    (st : Store) : Engine :=
  let eng := {| handlers := ∅; catchall := None; id := eid; eng_Stderr := stderr; Logging := true;
                tasks := 0; is_shutdown := false; onShutdown := []; writers := st |} in
  let eng := fst (Register eng "commands" commands_handler) in
  set_handlers eng (globalHandlers ∪ handlers eng).

(** [commands]: the registered names, sorted. *)
Definition commands (eng : Engine) : list string :=
  merge_sort String.le (map_to_list (handlers eng)).*1.

(** [Engine.Job]: a specific handler shadows the catchall, and an empty name
    gets neither. *)
Definition Job_ (eng : Engine) (name : string) (args : list string) : Job :=
  let stderr := if Logging eng then Add NewOutput (eng_Stderr eng) else NewOutput in
  {| Name := name; Args := args; env := []; Stdout := NewOutput; Stderr := stderr; Stdin := NewInput;
     handler := match handlers eng !! name with
                | Some h => Some h
                | None => if negb (String.eqb name "") then catchall eng else None
                end;
     status := 0; ended := false |}.

Definition OnShutdown (eng : Engine) (h : nat) : Engine :=
  set_onShutdown eng (onShutdown eng ++ [h]).

(** [Shutdown]: the state it leaves and the shutdown handlers it starts. *)
Definition Shutdown (eng : Engine) : Engine * list nat :=
  if is_shutdown eng then (eng, []) else (set_shutdown eng true, onShutdown eng).

Definition IsShutdown (eng : Engine) : bool := is_shutdown eng.

(** The words of [ParseJob]: ["KEY=VALUE"] words go to the environment. *)
Definition ParseJob_word '((cmd, e) : list string * Env) (word : string) : list string * Env :=
  match split2 "=" word with
  | [k; v] => (cmd, Set_ e k v)
  | _ => (cmd ++ [word], e)
  end.

Definition ParseJob (eng : Engine) (input : string) : result string Job :=
  let '(cmd, e) := foldl ParseJob_word ([], []) (String.words input) in
  match cmd with
  | [] => Err ("empty command: '" +:+ input +:+ "'")
  | name :: args => Ok (set_env (Job_ eng name args) (Init e))
  end.

Definition CallString (j : Job) : string := Name j +:+ "(" +:+ join ", " (Args j) +:+ ")".

Definition StatusString (j : Job) : string :=
  if ended j then
    " = " +:+ (if status j =? StatusOK then "OK" else "ERR") +:+ " (" +:+ itoa (status j) +:+ ")"
  else "".

(** [Engine.Logf] with the message already formatted. *)
Definition Logf (eng : Engine) (msg : string) : Engine :=
  if Logging eng then
    set_writers eng (fst (write_one ("[" +:+ take_str 8 (id eng) +:+ "] " +:+ msg +:+ String "010" "")
                                    (writers eng) (eng_Stderr eng)))
  else eng.

(** [Job.Errorf] on a (non-empty) format whose formatted text is [msg]: the
    newline is added when the format does not end with one. *)
Definition Errorf (eng : Engine) (j : Job) (format msg : string) : Engine * Job * Z :=
  let msg := match rev_str format with
             | String c _ => if Ascii.eqb c "010" then msg else msg +:+ String "010" ""
             | EmptyString => msg
             end in
  let '(o, st, _) := Write (Stderr j) msg (writers eng) in
  (set_writers eng st, set_Stderr j o, StatusErr).

(** [Job.Error] and [Job.Printf], the text already formatted. *)
Definition Error (eng : Engine) (j : Job) (err : string) : Engine * Job * Z :=
  let '(o, st, _) := Write (Stderr j) (err +:+ String "010" "") (writers eng) in
  (set_writers eng st, set_Stderr j o, StatusErr).

Definition Printf (eng : Engine) (j : Job) (text : string) : Engine * Job :=
  let '(o, st, _) := Write (Stdout j) text (writers eng) in
  (set_writers eng st, set_Stdout j o).

(** The handler that [New] registers as ["commands"]. *)
Definition commands_handler (eng : Engine) (j : Job) : Engine * Job * Z :=
  let '(eng, j) :=
    foldl (fun '(eng, j) name => Printf eng j (name +:+ String "010" "")) (eng, j) (commands eng) in
  (eng, j, StatusOK).

Definition Getenv (j : Job) (key : string) : string := Get (env j) key.
Definition EnvExists (j : Job) (key : string) : outcome bool := Exists (env j) key.
Definition GetenvBool (j : Job) (key : string) : bool := GetBool (env j) key.
Definition GetenvInt64 (j : Job) (key : string) : Z := GetInt64 (env j) key.
Definition GetenvInt (j : Job) (key : string) : Z := GetInt (env j) key.
Definition Setenv (j : Job) (key value : string) : Job := set_env j (Set_ (env j) key value).
Definition SetenvBool (j : Job) (key : string) (value : bool) : Job := set_env j (SetBool (env j) key value).
Definition SetenvInt64 (j : Job) (key : string) (value : Z) : Job := set_env j (SetInt64 (env j) key value).
Definition SetenvInt (j : Job) (key : string) (value : Z) : Job := set_env j (SetInt (env j) key value).
Definition Environ (j : Job) : outcome (gmap string string) := Map (env j).
Definition StatusCode (j : Job) : Z := status j.

(** [Table.lessBy] on the two values of the sort key. *)
Definition lessBy (a b : Env) (by_ : string) : bool :=
  let keyA := Get a by_ in
  let keyB := Get b by_ in
  match parse_int 64 keyA, parse_int 64 keyB with
  | Ok intA, Ok intB => intA <? intB
  | _, _ => String.ltb keyA keyB
  end.

Section Run.
(** What a handler does when it is called on an engine and a job, and the
    status it returns. *)
Context (call : nat -> Engine -> Job -> Engine * Job * Z).

(** The middle of [Job.Run]: call the handler, or report that there is none. *)
Definition Run_handler (eng : Engine) (j : Job) : Engine * Job :=
  match handler j with
  | None =>
      let '(eng, j, _) := Errorf eng j "%s: command not found" (Name j +:+ ": command not found") in
      (eng, set_status j StatusNotFound)
  | Some h => let '(eng, j, s) := call h eng j in (eng, set_ended (set_status j s))
  end.

(** The end of [Job.Run]: close the streams in order, each error returned, then
    turn a non-zero status into the last line of the error buffer [buf]. *)
Definition Run_close (buf : nat) (eng : Engine) (j : Job) : Engine * result string () :=
  let '(st, err) := Close (Stdout j) (writers eng) in
  let eng := set_writers eng st in
  match err with
  | Some e => (eng, Err e)
  | None =>
      let '(st, err) := Close (Stderr j) (writers eng) in
      let eng := set_writers eng st in
      match err with
      | Some e => (eng, Err e)
      | None =>
          let '(st, err) := Input_Close (Stdin j) (writers eng) in
          let eng := set_writers eng st in
          match err with
          | Some e => (eng, Err e)
          | None =>
              if status j =? 0 then (eng, Ok ())
              else
                let errorMessage := match writers eng !! buf with Some w => content w | None => "" end in
                (eng, Err (Tail errorMessage 1))
          end
      end
  end.

(** The body of [Job.Run] between the deferred actions: from the first log
    line to the returned error. *)
Definition Run_body (eng : Engine) (j : Job) : Engine * Job * result string () :=
  let eng := Logf eng ("+job " +:+ CallString j) in
  let buf := fresh (dom (writers eng)) in
  let eng := set_writers eng (<[buf := new_buffer]> (writers eng)) in
  let j := set_Stderr j (Add (Stderr j) buf) in
  let '(eng, j) := Run_handler eng j in
  let '(eng, r) := Run_close buf eng j in
  (eng, j, r).

(** [Job.Run]: the shutdown test, the task count, the single-use test and the
    deferred log line around the body. *)
Definition Run (eng : Engine) (j : Job) : Engine * Job * result string () :=
  if IsShutdown eng then (eng, j, Err "engine is shutdown")
  else
    let counted := negb (String.eqb (Name j) "serveapi") in
    let eng := if counted then set_tasks eng (tasks eng + 1) else eng in
    let '(eng, j, r) :=
      if ended j then (eng, j, Err (Name j +:+ ": job has already completed"))
      else
        let '(eng, j, r) := Run_body eng j in
        (Logf eng ("-job " +:+ CallString j +:+ StatusString j), j, r) in
    let eng := if counted then set_tasks eng (tasks eng - 1) else eng in
    (eng, j, r).
End Run.

(** ** [Tail] *)

Definition nl : string := String "010" "".

Lemma Tail_loop_spec pre : forall post n, 1 <= n ->
  Tail_loop (pre +:+ post) (String.length pre) n =
  join nl (lastn (Z.to_nat n) (split "010" pre)) +:+ post.
Proof.
  induction pre as [|p c IH] using string_snoc_ind; intros post n Hn.
  { unfold lastn. simpl. replace (1 - Z.to_nat n)%nat with 0%nat by lia. by destruct post. }
  rewrite string_length_app. cbn [String.length]. rewrite Nat.add_1_r. cbn [Tail_loop].
  rewrite string_app_assoc. change (String c "" +:+ post) with (String c post).
  rewrite get_app_mid. destruct (Ascii.eqb c "010") eqn:Ec.
  - apply Ascii.eqb_eq in Ec as ->. rewrite split_snoc_sep, lastn_snoc by lia.
    destruct (Z.eqb_spec (n - 1) 0).
    + replace (Z.to_nat n - 1)%nat with 0%nat by lia. unfold lastn.
      rewrite Nat.sub_0_r, drop_all. change (join nl ([] ++ [""]) +:+ post) with post.
      replace (S (String.length p)) with (String.length (p +:+ nl)) by (rewrite string_length_app; simpl; lia).
      change (String "010" post) with (nl +:+ post). rewrite <- string_app_assoc. apply drop_app_str.
    + rewrite IH by lia. replace (Z.to_nat n - 1)%nat with (Z.to_nat (n - 1)) by lia.
      rewrite join_snoc by (apply lastn_ne; [lia | apply split_ne]).
      by rewrite !string_app_assoc.
  - rewrite IH by lia. destruct (split_snoc_other "010" c p Ec) as (l&w&->&->).
    rewrite !lastn_snoc, join_snoc_app by lia. by rewrite string_app_assoc.
Qed.

Lemma Tail_lines buffer n :
  Tail buffer n =
  if n <=? 0 then "" else join nl (lastn (Z.to_nat n) (split "010" (trim_newline buffer))).
Proof.
  unfold Tail. destruct (Z.leb_spec n 0); [done|].
  destruct (string_snoc buffer) as [->|(p&c&->)].
  { unfold lastn. simpl. by replace (1 - Z.to_nat n)%nat with 0%nat by lia. }
  rewrite string_length_app. cbn [String.length]. rewrite Nat.add_sub.
  unfold trim_newline. rewrite rev_str_snoc. destruct (Ascii.eqb c "010") eqn:Ec.
  - rewrite rev_str_involutive. rewrite <- (string_app_nil_r p) at 1.
    rewrite Tail_loop_spec by lia. by rewrite string_app_nil_r.
  - rewrite Tail_loop_spec by lia. destruct (split_snoc_other "010" c p Ec) as (l&w&->&->).
    by rewrite !lastn_snoc, join_snoc_app by lia.
Qed.

(** ** Streams *)

Definition write_step (p : string) : Store * option string -> nat -> Store * option string :=
  fun '(st, firstErr) dst => let '(st, err) := write_one p st dst in (st, first_err firstErr err).
Definition close_step : Store * option string -> nat -> Store * option string :=
  fun '(st, firstErr) dst => let '(st, err) := close_one st dst in (st, first_err firstErr err).

Lemma write_one_other p st dst b : b <> dst -> (write_one p st dst).1 !! b = st !! b.
Proof.
  intros Hne. unfold write_one. destruct (st !! dst) as [w|]; [|done].
  destruct (write_err w); simpl; [done|]. by rewrite lookup_insert_ne.
Qed.

Lemma write_all_other p ds acc b : b ∉ ds -> (foldl (write_step p) acc ds).1 !! b = acc.1 !! b.
Proof.
  revert acc. induction ds as [|d ds IH]; intros [st e] Hb; [done|]. simpl.
  apply not_elem_of_cons in Hb as [Hne Hb]. rewrite IH by done. simpl.
  pose proof (write_one_other p st d b Hne). by destruct (write_one p st d).
Qed.

(** A destination that accepts writes and is attached once receives exactly
    what is written. *)
Lemma Write_received o p st b w ds :
  dests o = ds ++ [b] -> b ∉ ds -> st !! b = Some w -> write_err w = None ->
  exists w', (Write o p st).1.2 !! b = Some w' /\ content w' = content w +:+ p /\
    write_err w' = None /\ closer w' = closer w.
Proof.
  intros Ho Hb Hw Hok. unfold Write. fold (write_step p). rewrite Ho, foldl_app. cbn [foldl].
  pose proof (write_all_other p ds (st, None) b Hb) as Hst. cbn [fst] in Hst.
  destruct (foldl (write_step p) (st, None) ds) as [st1 e1] eqn:E. cbn [fst] in Hst.
  unfold write_step, write_one. rewrite Hst, Hw, Hok. cbn.
  rewrite lookup_insert_eq. eexists. split; [done|]. done.
Qed.

Lemma Write_other o p st b : b ∉ dests o -> (Write o p st).1.2 !! b = st !! b.
Proof.
  intros Hb. unfold Write. fold (write_step p).
  pose proof (write_all_other p (dests o) (st, None) b Hb) as H.
  by destruct (foldl (write_step p) (st, None) (dests o)).
Qed.

Definition closable (st : Store) (d : nat) : Prop :=
  forall w, st !! d = Some w -> closer w = true -> close_err w = None.

Lemma close_one_keeps st d b :
  content <$> (close_one st d).1 !! b = content <$> st !! b /\
  closer <$> (close_one st d).1 !! b = closer <$> st !! b /\
  close_err <$> (close_one st d).1 !! b = close_err <$> st !! b.
Proof.
  unfold close_one. destruct (st !! d) as [w|] eqn:E; [|done].
  destruct (closer w) eqn:Ec; [|done]. simpl. rewrite lookup_insert.
  case_decide; subst; [rewrite E; simpl; rewrite Ec|]; done.
Qed.

Lemma closable_close_one st d b : closable st b -> closable (close_one st d).1 b.
Proof.
  intros H w Hw Hc. destruct (close_one_keeps st d b) as (_&H2&H3). rewrite Hw in H2, H3. simpl in *.
  destruct (st !! b) as [w'|] eqn:E; [|done]. simpl in *. injection H2 as H2. injection H3 as H3.
  rewrite H3. apply H; congruence.
Qed.

(** Closing keeps what the writers received, and fails only if one of them does. *)
Lemma close_all ds acc :
  Forall (closable acc.1) ds -> acc.2 = None ->
  (foldl close_step acc ds).2 = None /\
  forall b, content <$> (foldl close_step acc ds).1 !! b = content <$> acc.1 !! b.
Proof.
  revert acc. induction ds as [|d ds IH]; intros [st e] Hf He; [done|]. simpl in *. subst e.
  inversion Hf as [|? ? Hd Hds]; subst.
  pose proof (close_one_keeps st d) as Hk. pose proof (closable_close_one st d) as Hc.
  assert ((close_one st d).2 = None) as Hn.
  { unfold close_one. destruct (st !! d) as [w|] eqn:E; [|done].
    destruct (closer w) eqn:Ec; [|done]. simpl. by eapply Hd. }
  destruct (close_one st d) as [st1 e1]. simpl in *. subst e1.
  destruct (IH (st1, None)) as [H1 H2]; [|done|].
  - simpl. eapply Forall_impl; [exact Hds|]. auto.
  - split; [done|]. intros b. rewrite H2. simpl. apply Hk.
Qed.

Lemma Close_ok o st :
  Forall (closable st) (dests o) ->
  (Close o st).2 = None /\ forall b, content <$> (Close o st).1 !! b = content <$> st !! b.
Proof. intros H. by apply (close_all (dests o) (st, None)). Qed.

(** ** Running a job *)

Lemma Logf_tasks eng msg : tasks (Logf eng msg) = tasks eng.
Proof. unfold Logf. by destruct (Logging eng). Qed.

Lemma Run_refused call eng j :
  is_shutdown eng = true \/ ended j = true ->
  Run call eng j =
  (eng, j, Err (if is_shutdown eng then "engine is shutdown" else Name j +:+ ": job has already completed")).
Proof.
  intros H. unfold Run, IsShutdown. destruct (is_shutdown eng); [done|].
  destruct H as [|H]; [done|]. rewrite H. destruct (negb _); [|done].
  do 2 f_equal. unfold set_tasks. destruct eng. simpl. f_equal. lia.
Qed.

Lemma Run_close_tasks buf eng j : tasks (Run_close buf eng j).1 = tasks eng.
Proof.
  unfold Run_close. destruct (Close (Stdout j) _) as [st [x|]]; [done|].
  destruct (Close (Stderr j) _) as [st2 [x|]]; [done|].
  destruct (Input_Close _ _) as [st3 [x|]]; [done|]. by destruct (status j =? 0).
Qed.

Section Calls.
Context (call : nat -> Engine -> Job -> Engine * Job * Z).

Lemma Run_handler_tasks eng j :
  (forall h e k, tasks (call h e k).1.1 = tasks e) -> tasks (Run_handler call eng j).1 = tasks eng.
Proof.
  intros Hc. unfold Run_handler. destruct (handler j) as [h|].
  - specialize (Hc h eng j). by destruct (call h eng j) as [[e k] s].
  - unfold Errorf. by destruct (Write _ _ _) as [[o st] x].
Qed.

Lemma Run_body_tasks eng j :
  (forall h e k, tasks (call h e k).1.1 = tasks e) -> tasks (Run_body call eng j).1.1 = tasks eng.
Proof.
  intros Hc. unfold Run_body. set (e1 := set_writers _ _). set (j1 := set_Stderr j _).
  pose proof (Run_handler_tasks e1 j1 Hc) as Hh. destruct (Run_handler call e1 j1) as [e2 j2].
  set (buf := fresh _). pose proof (Run_close_tasks buf e2 j2) as Hcl.
  destruct (Run_close buf e2 j2) as [e3 r]. simpl in *. rewrite Hcl, Hh. apply Logf_tasks.
Qed.

(** The last part of [Run] when no stream fails to close. *)
Lemma Run_close_ok buf eng j w :
  Forall (closable (writers eng)) (dests (Stdout j)) ->
  Forall (closable (writers eng)) (dests (Stderr j)) ->
  src (Stdin j) = None -> dests (Stdout j) = [] ->
  writers eng !! buf = Some w ->
  (Run_close buf eng j).2 = if status j =? 0 then Ok () else Err (Tail (content w) 1).
Proof.
  intros _ He Hin Hout Hw. unfold Run_close.
  assert (Close (Stdout j) (writers eng) = (writers eng, None)) as ->.
  { unfold Close. by rewrite Hout. }
  cbn. destruct (Close_ok (Stderr j) (writers eng) He) as [H1 H2].
  destruct (Close (Stderr j) (writers eng)) as [st e]. simpl in H1, H2. subst e.
  unfold Input_Close. rewrite Hin. cbn. destruct (status j =? 0); [done|]. cbn.
  specialize (H2 buf). rewrite Hw in H2. simpl in H2.
  destruct (st !! buf) as [w'|]; [|done]. simpl in H2. by injection H2 as ->.
Qed.
End Calls.

Lemma write_one_closable p st d b : closable st b -> closable (write_one p st d).1 b.
Proof.
  intros H w Hw Hc. unfold write_one in Hw. destruct (st !! d) as [w'|] eqn:E; [|by eapply H].
  destruct (write_err w'); [by eapply H|]. simpl in Hw. rewrite lookup_insert in Hw.
  case_decide; subst; [|by eapply H]. injection Hw as <-. simpl in *. by eapply H.
Qed.

Lemma write_all_closable p ds acc b : closable acc.1 b -> closable (foldl (write_step p) acc ds).1 b.
Proof.
  revert acc. induction ds as [|d ds IH]; intros [st e] H; [done|]. simpl. apply IH.
  pose proof (write_one_closable p st d b H). by destruct (write_one p st d).
Qed.

Lemma Write_closable o p st b : closable st b -> closable (Write o p st).1.2 b.
Proof.
  intros H. unfold Write. fold (write_step p).
  pose proof (write_all_closable p (dests o) (st, None) b H).
  by destruct (foldl (write_step p) (st, None) (dests o)).
Qed.

(** A message with its newline, as [Errorf] completes it. *)
Definition with_newline (format msg : string) : string :=
  match rev_str format with
  | String c _ => if Ascii.eqb c "010" then msg else msg +:+ nl
  | EmptyString => msg
  end.

Lemma contains_char_snoc d p c : contains_char d (p +:+ String c "") = false -> Ascii.eqb c d = false.
Proof. rewrite contains_char_app. simpl. by intros [_ [? _]%orb_false_iff]%orb_false_iff. Qed.

Lemma with_newline_eq format msg :
  format <> "" -> contains_char "010" format = false -> with_newline format msg = msg +:+ nl.
Proof.
  intros Hne Hnl. destruct (string_snoc format) as [->|(p&c&->)]; [done|].
  unfold with_newline. rewrite rev_str_snoc. by rewrite (contains_char_snoc _ _ _ Hnl).
Qed.

(** Writing texts to the standard error of a job, as [Error], [Errorf] and
    handlers do. *)
Definition print_error (texts : list string) (eng : Engine) (j : Job) : Engine * Job :=
  foldl (fun '(e, k) text => let '(o, st, _) := Write (Stderr k) text (writers e) in (set_writers e st, set_Stderr k o)) (eng, j) texts.

Lemma Errorf_prints eng j format msg :
  Errorf eng j format msg = (print_error [with_newline format msg] eng j, StatusErr).
Proof. unfold Errorf, print_error. fold nl. fold (with_newline format msg). cbn [foldl]. by destruct (Write _ _ _) as [[o st] x]. Qed.

Lemma Write_dests o p st : dests (Write o p st).1.1 = dests o.
Proof. unfold Write. by destruct (foldl _ _ _). Qed.

Lemma print_error_received texts : forall eng j buf ds w,
  dests (Stderr j) = ds ++ [buf] -> buf ∉ ds -> writers eng !! buf = Some w -> write_err w = None -> closer w = false ->
  Forall (closable (writers eng)) ds ->
  let '(eng', j') := print_error texts eng j in
  dests (Stderr j') = ds ++ [buf] /\ Stdout j' = Stdout j /\ Stdin j' = Stdin j /\ Forall (closable (writers eng')) ds /\
  exists w', writers eng' !! buf = Some w' /\ content w' = content w +:+ String.concat "" texts /\ closer w' = false.
Proof.
  induction texts as [|t texts IH]; intros eng j buf ds w Hd Hb Hw Hok Hc Hcl.
  { unfold print_error. simpl. split_and!; try done. exists w. split; [done|]. by rewrite string_app_nil_r. }
  destruct (Write_received (Stderr j) t (writers eng) buf w ds Hd Hb Hw Hok) as (w1 & Hw1 & Hc1 & Hok1 & Hcl1).
  pose proof (fun b => Write_closable (Stderr j) t (writers eng) b) as Hwc. pose proof (Write_dests (Stderr j) t (writers eng)) as Hds.
  unfold print_error in *. cbn [foldl]. destruct (Write (Stderr j) t (writers eng)) as [[o st] x]. simpl in Hw1, Hds, Hwc.
  pose proof (IH (set_writers eng st) (set_Stderr j o) buf ds w1) as H. simpl in H.
  destruct (foldl _ (set_writers eng st, set_Stderr j o) texts) as [eng' j'].
  destruct H as (H1 & H2 & H3 & H4 & w' & H5 & H6 & H7); [congruence|done|done|done|congruence|by eapply Forall_impl|].
  split_and!; try done. exists w'. split_and!; try done. rewrite H6, Hc1, string_app_assoc. f_equal.
  destruct texts; simpl; [by rewrite string_app_nil_r|done].
Qed.

(** Printing errors and then closing the streams returns the last line of
    what was printed. *)
Lemma prints_close eng j buf ds texts s (f : Job -> Job) :
  dests (Stderr j) = ds ++ [buf] -> buf ∉ ds -> writers eng !! buf = Some new_buffer ->
  Forall (closable (writers eng)) ds -> dests (Stdout j) = [] -> src (Stdin j) = None -> s <> 0 ->
  (forall k, Stdout (f k) = Stdout k /\ Stderr (f k) = Stderr k /\ Stdin (f k) = Stdin k /\ status (f k) = s) ->
  let '(eng', j') := print_error texts eng j in
  (Run_close buf eng' (f j')).2 = Err (Tail (String.concat "" texts) 1).
Proof.
  intros Hd Hb Hbuf Hcl Hout Hin Hs Hf.
  pose proof (print_error_received texts eng j buf ds new_buffer Hd Hb Hbuf eq_refl eq_refl Hcl) as H.
  destruct (print_error texts eng j) as [eng' j']. destruct H as (H1 & H2 & H3 & H4 & w & Hw & Hcont & Hclo).
  destruct (Hf j') as (F1&F2&F3&F4).
  rewrite (Run_close_ok buf _ _ w).
  - rewrite F4. destruct (Z.eqb_spec s 0); [done|]. by rewrite Hcont.
  - rewrite F1, H2, Hout. constructor.
  - rewrite F2, H1. apply Forall_app. split; [done|].
    constructor; [|done]. intros w' Hw' Hc. congruence.
  - by rewrite F3, H3.
  - by rewrite F1, H2.
  - done.
Qed.

(** The engine's own standard error exists and can be closed. *)
Definition stderr_ok (eng : Engine) : Prop :=
  exists w, writers eng !! eng_Stderr eng = Some w /\ (closer w = true -> close_err w = None).

Lemma Logf_stderr eng msg : stderr_ok eng ->
  is_Some (writers (Logf eng msg) !! eng_Stderr eng) /\ closable (writers (Logf eng msg)) (eng_Stderr eng).
Proof.
  intros (w&Hw&Hc). assert (closable (writers eng) (eng_Stderr eng)) as Hcl.
  { intros w' Hw'. assert (w' = w) as -> by congruence. done. }
  unfold Logf. destruct (Logging eng); [|by eauto]. simpl.
  set (p := "[" +:+ _). pose proof (write_one_closable p _ (eng_Stderr eng) _ Hcl) as H.
  split; [|done]. unfold write_one. rewrite Hw. destruct (write_err w); simpl; [by eauto|].
  rewrite lookup_insert_eq. by eauto.
Qed.

Lemma Run_error call eng name args texts s :
  stderr_ok eng -> is_shutdown eng = false -> s <> 0 ->
  (match handler (Job_ eng name args) with
   | None => texts = [name +:+ ": command not found" +:+ nl] /\ s = StatusNotFound
   | Some h => forall e k, call h e k = (print_error texts e k, s)
   end) ->
  (Run call eng (Job_ eng name args)).2 = Err (Tail (String.concat "" texts) 1).
Proof.
  intros Hok Hsd Hs Hh. unfold Run, IsShutdown. rewrite Hsd. cbn [ended Job_].
  set (eng0 := if negb _ then _ else _).
  assert (stderr_ok eng0 /\ eng_Stderr eng0 = eng_Stderr eng) as [Hok0 Heq] by (unfold eng0; by destruct (negb _)).
  set (j := Job_ eng name args) in *.
  assert ((Run_body call eng0 j).2 = Err (Tail (String.concat "" texts) 1)) as Hb.
  { unfold Run_body. set (e0 := Logf eng0 _).
    destruct (Logf_stderr eng0 ("+job " +:+ CallString j) Hok0) as [Hex Hcl]. fold e0 in Hex, Hcl.
    set (buf := fresh (dom (writers e0))).
    assert (buf ∉ dom (writers e0)) as Hfresh by apply is_fresh.
    assert (buf <> eng_Stderr eng) as Hne.
    { intros E. apply Hfresh. rewrite E, <- Heq. by apply elem_of_dom. }
    set (e1 := set_writers e0 _). set (j1 := set_Stderr j _).
    set (ds := if Logging eng then [eng_Stderr eng] else []).
    assert (dests (Stderr j1) = ds ++ [buf]) as Hd by (unfold ds, j1, j; simpl; by destruct (Logging eng)).
    assert (buf ∉ ds) as Hbd.
    { unfold ds. destruct (Logging eng); [|apply not_elem_of_nil]. rewrite elem_of_cons, elem_of_nil. naive_solver. }
    assert (Forall (closable (writers e1)) ds) as Hfc.
    { unfold ds. destruct (Logging eng); [|done]. constructor; [|done]. rewrite <- Heq.
      intros w Hw. simpl in Hw. rewrite lookup_insert_ne in Hw by congruence. by apply Hcl. }
    assert (writers e1 !! buf = Some new_buffer) as Hbuf by (simpl; apply lookup_insert_eq).
    unfold Run_handler. replace (handler j1) with (handler j) by done.
    destruct (handler j) as [h|].
    - rewrite Hh.
      pose proof (prints_close e1 j1 buf ds texts s (fun k => set_ended (set_status k s))
        Hd Hbd Hbuf Hfc eq_refl eq_refl Hs ltac:(done)) as He.
      destruct (print_error texts e1 j1) as [e' k']. by destruct (Run_close buf _ _).
    - destruct Hh as (->&->).
      pose proof (prints_close e1 j1 buf ds [name +:+ ": command not found" +:+ nl] StatusNotFound (fun k => set_status k StatusNotFound) Hd Hbd Hbuf Hfc eq_refl eq_refl Hs ltac:(done)) as He.
      change (Name j1) with name. rewrite Errorf_prints, with_newline_eq, string_app_assoc by done.
      destruct (print_error _ e1 j1) as [e' k']. by destruct (Run_close buf _ _). }
  destruct (Run_body call eng0 j) as [[e k] r]. simpl in *. by subst r.
Qed.

(** What is printed ends in [line]: it is the whole text or what follows a
    newline, with or without a newline of its own. *)
Definition ends_in_line (text line : string) : Prop :=
  contains_char "010" line = false /\
  exists before, (before = "" \/ exists b, before = b +:+ nl) /\
    (text = before +:+ line +:+ nl \/ (line <> "" /\ text = before +:+ line)).

Lemma Tail_last_line text line : ends_in_line text line -> Tail text 1 = line.
Proof.
  intros (Hnl & before & Hb & Ht). rewrite Tail_lines. simpl (_ <=? _). cbv iota.
  assert (trim_newline text = before +:+ line) as ->.
  { destruct Ht as [->|[Hne ->]]; unfold trim_newline.
    - unfold nl at 1. rewrite <- string_app_assoc. rewrite rev_str_snoc. cbn. by rewrite rev_str_involutive.
    - destruct (string_snoc line) as [->|(p & c & ->)]; [done|]. rewrite <- string_app_assoc, rev_str_snoc.
      by rewrite (contains_char_snoc _ _ _ Hnl). }
  destruct Hb as [->|[b ->]].
  - rewrite split_no_sep by done. done.
  - rewrite string_app_assoc. unfold nl. change (String "010" "" +:+ line) with (String "010" line). rewrite split_app_gen.
    rewrite (split_no_sep _ line) by done. rewrite lastn_snoc by lia. unfold lastn. by rewrite Nat.sub_0_r, drop_all.
Qed.

Lemma Init_id e : Init e = e.
Proof.
  unfold Init. induction e as [|x e IH] using rev_ind; [done|]. by rewrite foldl_app, IH.
Qed.

(** ** Words of a job's text form *)

Lemma ParseJob_words_foldl l cmd e :
  foldl ParseJob_word (cmd, e) l =
  (cmd ++ List.filter (fun w => negb (contains_char "=" w)) l, e ++ List.filter (contains_char "=") l).
Proof.
  revert cmd e. induction l as [|w l IH]; intros cmd e; [by rewrite !app_nil_r|].
  cbn [foldl List.filter]. unfold ParseJob_word at 2.
  destruct (split2_spec "=" w) as [[Hc ->]|(k&v&Hw&Hk&->)].
  - rewrite Hc. simpl. by rewrite IH, <- app_assoc.
  - rewrite Hw, !contains_char_app. simpl. rewrite orb_true_r. simpl.
    rewrite IH. unfold Set_. by rewrite <- app_assoc.
Qed.

(** ** Properties *)

(** [Tail], a scan from the end of the buffer, returns the last [n] lines
    of it: the text without its final newline, cut at newlines, its last [n]
    pieces joined again; nothing when [n] is not positive. *)
Theorem Tail_spec buffer n :
  Tail buffer n =
  if n <=? 0 then "" else join nl (lastn (Z.to_nat n) (split "010" (trim_newline buffer))).
Proof. apply Tail_lines. Qed.

(** C5. The error of a job is the last line it printed on its standard error:
    whatever texts a failing handler writes there, in however many pieces and
    of however many lines, the line they end in; the message of [Errorf]; and
    "NAME: command not found" for an unknown command.  A job is refused when
    the engine is shut down or when it already ran, and then nothing changes;
    and every run leaves the engine's task count as it was. *)
Theorem Run_reports call eng name args :
  stderr_ok eng -> is_shutdown eng = false -> contains_char "010" name = false ->
  (forall h e k, tasks (call h e k).1.1 = tasks e) ->
  (handlers eng !! name = None -> catchall eng = None ->
     (Run call eng (Job_ eng name args)).2 = Err (name +:+ ": command not found")) /\
  (forall h texts line s, handlers eng !! name = Some h -> s <> 0 ->
     (forall e k, call h e k = (print_error texts e k, s)) -> ends_in_line (String.concat "" texts) line ->
     (Run call eng (Job_ eng name args)).2 = Err line) /\
  (forall h format msg, handlers eng !! name = Some h -> format <> "" ->
     contains_char "010" format = false -> contains_char "010" msg = false ->
     (forall e k, call h e k = Errorf e k format msg) ->
     (Run call eng (Job_ eng name args)).2 = Err msg) /\
  (forall e j, is_shutdown e = true \/ ended j = true ->
     (Run call e j).1 = (e, j) /\ is_ok (Run call e j).2 = false) /\
  (forall e j, tasks (Run call e j).1.1 = tasks e).
Proof.
  intros Hok Hsd Hnl Hcall.
  assert (forall h texts line s, handlers eng !! name = Some h -> s <> 0 ->
     (forall e k, call h e k = (print_error texts e k, s)) -> ends_in_line (String.concat "" texts) line ->
     (Run call eng (Job_ eng name args)).2 = Err line) as Hprints.
  { intros h texts line s Hh Hs Hf Hl. rewrite (Run_error call eng name args texts s); [|done..|].
    - by rewrite (Tail_last_line _ line).
    - simpl. by rewrite Hh. }
  assert (forall m, contains_char "010" m = false -> ends_in_line (m +:+ nl) m) as Hone by (intros m Hm; split; [done|]; exists ""; auto).
  split_and!; [|done|..].
  - intros Hh Hc. rewrite (Run_error call eng name args [name +:+ ": command not found" +:+ nl] StatusNotFound); [|done..|].
    + simpl. rewrite <- string_app_assoc. rewrite (Tail_last_line _ (name +:+ ": command not found")); [done|]. apply Hone. by rewrite contains_char_app, Hnl.
    + simpl. rewrite Hh, Hc. by destruct (negb _).
  - intros h format msg Hh Hne Hfm Hm Hf. apply (Hprints h [with_newline format msg] msg StatusErr); [done|done| |].
    + intros e k. by rewrite Hf, Errorf_prints.
    + rewrite with_newline_eq by done. by apply Hone.
  - intros e j H. by rewrite Run_refused.
  - intros e j. destruct (decide (is_shutdown e = true \/ ended j = true)) as [H|H]; [by rewrite Run_refused|].
    unfold Run, IsShutdown. destruct (is_shutdown e); [tauto|]. destruct (ended j); [tauto|].
    set (e0 := if negb _ then _ else _).
    pose proof (Run_body_tasks call e0 j Hcall) as Ht. destruct (Run_body call e0 j) as [[e1 j1] r].
    simpl in Ht. unfold e0 in Ht. destruct (negb _); simpl in *; rewrite Logf_tasks; lia.
Qed.

Definition example_engine : Engine :=
  New "00112233" 0 7 {["echo" := 1%nat; "fail" := 2%nat]} {[0%nat := new_buffer]}.
Definition example_call (h : nat) (e : Engine) (j : Job) : Engine * Job * Z :=
  if Nat.eqb h 2 then (print_error ["mounting" +:+ nl +:+ "no such"; " container" +:+ nl] e j, 7) else (e, j, StatusOK).

Lemma Run_reports_witness :
  (Run example_call example_engine (Job_ example_engine "ech" [])).2 = Err "ech: command not found" /\
  (Run example_call example_engine (Job_ example_engine "fail" ["x"])).2 = Err "no such container".
Proof.
  assert (stderr_ok example_engine) as Hok by (exists new_buffer; by split).
  assert (forall h e k, tasks (example_call h e k).1.1 = tasks e) as Ht.
  { intros h e k. unfold example_call. destruct (Nat.eqb h 2); [|done].
    unfold print_error. simpl. destruct (Write _ _ _) as [[? ?] ?]. simpl. by destruct (Write _ _ _) as [[? ?] ?]. }
  split.
  - apply (Run_reports example_call example_engine "ech" []); auto.
  - destruct (Run_reports example_call example_engine "fail" ["x"] Hok eq_refl eq_refl Ht) as (_&H&_).
    apply (H 2%nat ["mounting" +:+ nl +:+ "no such"; " container" +:+ nl] "no such container" 7); [reflexivity|discriminate|reflexivity|].
    split; [reflexivity|]. exists ("mounting" +:+ nl). split; [right; exists "mounting"; reflexivity|left; reflexivity].
Defined.

(** [ParseJob] inverts the printing of a command line: from non-empty
    words without blanks, separated by spaces, the first word without an
    equals sign is the job's name, the others its arguments in order, and the
    words with one its environment in order; without a command it fails. *)
Theorem ParseJob_words eng l :
  Forall word_ok l ->
  let cmd := List.filter (fun w => negb (contains_char "=" w)) l in
  let e := List.filter (contains_char "=") l in
  match cmd with
  | [] => is_ok (ParseJob eng (join " " l)) = false
  | name :: args => exists j, ParseJob eng (join " " l) = Ok j /\
      Name j = name /\ Args j = args /\ env j = e /\ handler j = handler (Job_ eng name args)
  end.
Proof.
  intros Hl. unfold ParseJob. rewrite words_join by done. rewrite ParseJob_words_foldl. cbn [app].
  destruct (List.filter _ l) as [|name args]; [done|]. eexists. split; [done|]. simpl. by rewrite Init_id.
Qed.

Lemma ParseJob_words_witness :
  exists j, ParseJob example_engine "VERBOSE=1 echo hello TEST=true world" = Ok j /\
    Name j = "echo" /\ Args j = ["hello"; "world"] /\ env j = ["VERBOSE=1"; "TEST=true"].
Proof.
  destruct (ParseJob_words example_engine ["VERBOSE=1"; "echo"; "hello"; "TEST=true"; "world"]) as (j&H1&H2&H3&H4&_).
  { repeat constructor; discriminate. }
  exists j. split; [exact H1|]. split; [exact H2|]. split; [exact H3|exact H4].
Defined.

(** Registration never overwrites and is what dispatch finds: a new name
    is served by its handler from then on, other names as before, a taken name
    is refused with the engine unchanged; the catchall serves every other
    non-empty name; and [commands] lists exactly the registered names, sorted
    and without duplicates. *)
Theorem Register_dispatch eng name h args :
  let '(eng', r) := Register eng name h in
  (is_ok r = true <-> handlers eng !! name = None) /\
  (is_ok r = false -> eng' = eng) /\
  (is_ok r = true -> handler (Job_ eng' name args) = Some h /\
     forall n, n <> name -> handler (Job_ eng' n args) = handler (Job_ eng n args)) /\
  (forall n c, handlers eng !! n = None -> n <> "" ->
     handler (Job_ (RegisterCatchall eng c) n args) = Some c) /\
  handler (Job_ eng "" args) = handlers eng !! "" /\
  (forall n, n ∈ commands eng' <-> is_Some (handlers eng' !! n)) /\
  Sorted String.le (commands eng') /\ NoDup (commands eng').
Proof.
  assert (forall e, (forall n, n ∈ commands e <-> is_Some (handlers e !! n)) /\
    Sorted String.le (commands e) /\ NoDup (commands e)) as Hcmd.
  { intros e. unfold commands. split_and!.
    - intros n. rewrite merge_sort_Permutation, list_elem_of_fmap. split.
      + intros ([k v]&->&H%elem_of_map_to_list). by exists v.
      + intros [v H]. exists (n, v). split; [done|]. by apply elem_of_map_to_list.
    - apply Sorted_merge_sort. apply _.
    - rewrite merge_sort_Permutation. apply NoDup_fst_map_to_list. }
  unfold Register. destruct (handlers eng !! name) as [h'|] eqn:E.
  all: destruct (Hcmd eng) as (A1&A2&A3).
  all: split_and!; try done.
  all: try (intros n c Hn Hne; simpl; rewrite Hn; by destruct (String.eqb_spec n "")).
  all: try (simpl; by destruct (handlers eng !! "")).
  all: try apply (Hcmd (set_handlers eng (<[name:=h]> (handlers eng)))).
  intros _. split; [simpl; by rewrite lookup_insert_eq|].
  intros n Hn. simpl. by rewrite lookup_insert_ne.
Qed.

(** [lessBy] compares two integer keys by value and any other pair as
    text; mixing the two is not an order: with keys "2", "10" and "1a" each is
    less than the next and the last less than the first. *)
Theorem lessBy_order a b k :
  (forall x y, min_int64 <= x <= max_int64 -> min_int64 <= y <= max_int64 ->
     Get a k = itoa x -> Get b k = itoa y -> lessBy a b k = (x <? y)) /\
  lessBy ["Size=2"] ["Size=10"] "Size" = true /\
  lessBy ["Size=10"] ["Size=1a"] "Size" = true /\
  lessBy ["Size=1a"] ["Size=2"] "Size" = true.
Proof.
  split_and!; try reflexivity.
  intros x y Hx Hy Ha Hb. unfold lessBy. rewrite Ha, Hb.
  assert (forall z, min_int64 <= z <= max_int64 -> parse_int 64 (itoa z) = Ok z) as Hp.
  { intros z Hz. apply parse_int_itoa; [done|]. unfold min_int64, max_int64 in Hz.
    change (2 ^ (64 - 1)) with 9223372036854775808. lia. }
  by rewrite (Hp x Hx), (Hp y Hy).
Qed.
