(* ===== verification/State.v ===== *)
(** * daemon/state.go: the state of a container and its waiters

    A channel is an id; [closed] holds the closed ones and [next] the next
    fresh id, so that closing twice is a panic and a waiter blocked on a
    channel can be followed.  The lock makes every method one step, except
    that the two [Wait] methods look at the state, release the lock, wait for
    a channel and look at the state again: [WaitStop_begin] and [Wait_end] are
    their two halves, and [step] interleaves them with the other methods. *)

From stdpp Require Import base gmap sets list.
From Stdlib Require Import ZArith Lia.
From S2P Require Import Prelude.

Local Open Scope Z_scope.

(** Times are seconds; 0 is Go's zero time. *)
Record State := {
  Running : bool;
  Paused : bool;
  Restarting : bool;
  Pid : Z;
  ExitCode : Z;
  StartedAt : Z;
  FinishedAt : Z;
  waitChan : nat }.

(** The channels of the process. *)
Record Chans := { closed : gset nat; next : nat }.

Definition make_chan (cs : Chans) : nat * Chans :=
  (next cs, {| closed := closed cs; next := S (next cs) |}).

Definition close_chan (c : nat) (cs : Chans) : outcome Chans :=
  if decide (c ∈ closed cs) then Panic
  else Return {| closed := {[c]} ∪ closed cs; next := next cs |}.

Definition NewState (cs : Chans) : State * Chans :=
  let '(c, cs) := make_chan cs in
  ({| Running := false; Paused := false; Restarting := false; Pid := 0; ExitCode := 0;
      StartedAt := 0; FinishedAt := 0; waitChan := c |}, cs).

Definition IsRunning (s : State) : bool := Running s.
Definition IsRestarting (s : State) : bool := Restarting s.
Definition IsPaused (s : State) : bool := Paused s.
Definition GetPid (s : State) : Z := Pid s.
Definition GetExitCode (s : State) : Z := ExitCode s.

(** [close(s.waitChan); s.waitChan = make(chan struct{})]: fire the waiters. *)
Definition fire (s : State) (cs : Chans) : outcome (State * Chans) :=
  cs ← close_chan (waitChan s) cs;
  let '(c, cs) := make_chan cs in
  Return ({| Running := Running s; Paused := Paused s; Restarting := Restarting s; Pid := Pid s;
             ExitCode := ExitCode s; StartedAt := StartedAt s; FinishedAt := FinishedAt s;
             waitChan := c |}, cs).

Definition SetRunning (now pid : Z) (s : State) (cs : Chans) : outcome (State * Chans) :=
  fire {| Running := true; Paused := false; Restarting := false; Pid := pid; ExitCode := 0;
          StartedAt := now; FinishedAt := FinishedAt s; waitChan := waitChan s |} cs.

Definition SetStopped (now exitCode : Z) (s : State) (cs : Chans) : outcome (State * Chans) :=
  fire {| Running := false; Paused := Paused s; Restarting := false; Pid := 0; ExitCode := exitCode;
          StartedAt := StartedAt s; FinishedAt := now; waitChan := waitChan s |} cs.

(** A restarting container counts as running. *)
Definition SetRestarting (now exitCode : Z) (s : State) (cs : Chans) : outcome (State * Chans) :=
  fire {| Running := true; Paused := Paused s; Restarting := true; Pid := 0; ExitCode := exitCode;
          StartedAt := StartedAt s; FinishedAt := now; waitChan := waitChan s |} cs.

Definition with_paused (b : bool) (s : State) : State :=
  {| Running := Running s; Paused := b; Restarting := Restarting s; Pid := Pid s; ExitCode := ExitCode s;
     StartedAt := StartedAt s; FinishedAt := FinishedAt s; waitChan := waitChan s |}.

Definition SetPaused (s : State) : State := with_paused true s.
Definition SetUnpaused (s : State) : State := with_paused false s.

(** The first half of the [Wait] methods: an immediate answer, or the channel
    to wait for. *)
Definition WaitRunning_begin (s : State) : Z + nat :=
  if IsRunning s then inl (Pid s) else inr (waitChan s).
Definition WaitStop_begin (s : State) : Z + nat :=
  if negb (Running s) then inl (ExitCode s) else inr (waitChan s).

(** [wait]: with both events ready Go's [select] may take either branch, so
    [timer_first] chooses; [None] blocks. *)
Definition wait (c : nat) (timeout : Z) (expired timer_first : bool) (cs : Chans) : option (result () ()) :=
  let ready := bool_decide (c ∈ closed cs) in
  let timed_out := (0 <=? timeout) && expired in
  if ready && timed_out then Some (if timer_first then Err () else Ok ())
  else if ready then Some (Ok ())
  else if timed_out then Some (Err ()) else None.

Definition Wait_end (get : State -> Z) (r : result () ()) (s : State) : Z * bool :=
  match r with Ok _ => (get s, true) | Err _ => (-1, false) end.

Definition WaitRunning_end : result () () -> State -> Z * bool := Wait_end GetPid.
Definition WaitStop_end : result () () -> State -> Z * bool := Wait_end GetExitCode.

(** ** Runs *)

Inductive op :=
| ORunning (now pid : Z)
| OStopped (now exitCode : Z)
| ORestarting (now exitCode : Z)
| OPaused
| OUnpaused.

Definition apply_op (o : op) (s : State) (cs : Chans) : outcome (State * Chans) :=
  match o with
  | ORunning now pid => SetRunning now pid s cs
  | OStopped now c => SetStopped now c s cs
  | ORestarting now c => SetRestarting now c s cs
  | OPaused => Return (SetPaused s, cs)
  | OUnpaused => Return (SetUnpaused s, cs)
  end.

Definition fires (o : op) : bool :=
  match o with ORunning _ _ | OStopped _ _ | ORestarting _ _ => true | _ => false end.

Fixpoint run_ops (l : list op) (s : State) (cs : Chans) : outcome (State * Chans) :=
  match l with
  | [] => Return (s, cs)
  | o :: l => '(s, cs) ← apply_op o s cs; run_ops l s cs
  end.

(** The invariant: the current channel is open and allocated, only allocated
    channels are closed, and the flags agree with the pid. *)
Definition wf (s : State) (cs : Chans) : Prop :=
  (waitChan s ∉ closed cs) /\ (waitChan s < next cs)%nat /\
  (forall c, c ∈ closed cs -> (c < next cs)%nat) /\
  (Restarting s = true -> Running s = true /\ Pid s = 0) /\
  (Running s = false -> Pid s = 0).

Lemma fire_spec s cs :
  wf s cs ->
  exists s', fire s cs = Return (s', {| closed := {[waitChan s]} ∪ closed cs; next := S (next cs) |}) /\
    waitChan s' = next cs /\ Running s' = Running s /\ Restarting s' = Restarting s /\
    Paused s' = Paused s /\ Pid s' = Pid s /\ ExitCode s' = ExitCode s /\
    wf s' {| closed := {[waitChan s]} ∪ closed cs; next := S (next cs) |}.
Proof.
  intros (H1&H2&H3&H4&H5). unfold fire, close_chan. rewrite decide_False by done. simpl.
  eexists. split; [done|]. split_and!; try done. unfold wf. simpl. split_and!; try done.
  - rewrite elem_of_union, elem_of_singleton. intros [E|E]; [lia|]. apply H3 in E. lia.
  - lia.
  - intros c. rewrite elem_of_union, elem_of_singleton. intros [->|E]; [lia|]. apply H3 in E. lia.
Qed.

(** What each operation leaves: the state fields it sets, the channel it closes. *)
Definition after (o : op) (s s' : State) : Prop :=
  match o with
  | ORunning _ pid => Running s' = true /\ Paused s' = false /\ Restarting s' = false /\ Pid s' = pid /\ ExitCode s' = 0
  | OStopped _ c => Running s' = false /\ Paused s' = Paused s /\ Restarting s' = false /\ Pid s' = 0 /\ ExitCode s' = c
  | ORestarting _ c => Running s' = true /\ Paused s' = Paused s /\ Restarting s' = true /\ Pid s' = 0 /\ ExitCode s' = c
  | OPaused => s' = with_paused true s
  | OUnpaused => s' = with_paused false s
  end.

Lemma apply_op_spec o s cs :
  wf s cs ->
  exists s' cs', apply_op o s cs = Return (s', cs') /\ wf s' cs' /\ after o s s' /\
    closed cs ⊆ closed cs' /\ (next cs <= next cs')%nat /\
    (if fires o then closed cs' = {[waitChan s]} ∪ closed cs /\ waitChan s' = next cs
     else closed cs' = closed cs /\ waitChan s' = waitChan s).
Proof.
  intros Hw. pose proof Hw as (H1&H2&H3&H4&H5). destruct o; simpl; unfold SetRunning, SetStopped, SetRestarting.
  1-3: match goal with |- context [fire ?x ?y] =>
         destruct (fire_spec x y) as (s'&E&F1&F2&F3&F4&F5&F6&F7);
           [by unfold wf; simpl; split_and! |]; rewrite E end;
       eexists _, _; split; [done|]; simpl in *; split_and!; try done; try set_solver; lia.
  all: eexists _, _; split; [done|]; split_and!; try done.
Qed.

Lemma run_ops_wf l s cs :
  wf s cs -> exists s' cs', run_ops l s cs = Return (s', cs') /\ wf s' cs' /\
    closed cs ⊆ closed cs' /\ (forallb (fun o => negb (fires o)) l = true -> waitChan s' = waitChan s /\ closed cs' = closed cs).
Proof.
  revert s cs. induction l as [|o l IH]; intros s cs Hw; simpl.
  { by exists s, cs. }
  destruct (apply_op_spec o s cs Hw) as (s1&cs1&->&Hw1&_&Hc&_&Hf). simpl.
  destruct (IH s1 cs1 Hw1) as (s2&cs2&->&Hw2&Hc2&Hn). exists s2, cs2. split_and!; try done.
  - set_solver.
  - intros [Ho Hl]%andb_true_iff. apply negb_true_iff in Ho. rewrite Ho in Hf.
    destruct (Hn Hl) as [-> ->]. by destruct Hf as [-> ->].
Qed.

Lemma NewState_wf cs :
  (forall c, c ∈ closed cs -> (c < next cs)%nat) -> wf (NewState cs).1 (NewState cs).2.
Proof. intros H. unfold wf. simpl. split_and!; try done; [|lia|]; intros; [intros E%H; lia|]. apply H in H0. lia. Qed.

(** ** Properties *)

(** C6. A container state never panics on its wait channel and keeps its
    invariant: after any sequence of transitions from [NewState] the current
    channel is open, a restarting container is running and has no pid, and a
    container that is not running has no pid; each transition then sets
    exactly the fields it names. *)
Theorem State_invariant cs l o :
  (forall c, c ∈ closed cs -> (c < next cs)%nat) ->
  let '(s0, cs0) := NewState cs in
  exists s cs1 s' cs',
    run_ops l s0 cs0 = Return (s, cs1) /\ wf s cs1 /\
    run_ops (l ++ [o]) s0 cs0 = Return (s', cs') /\ wf s' cs' /\ after o s s'.
Proof.
  intros Hcs. pose proof (NewState_wf cs Hcs) as H0. destruct (NewState cs) as [s0 cs0]. simpl in H0.
  destruct (run_ops_wf l s0 cs0 H0) as (s&cs1&E1&Hw1&_&_).
  destruct (apply_op_spec o s cs1 Hw1) as (s'&cs'&E2&Hw2&Ha&_).
  exists s, cs1, s', cs'. split_and!; try done.
  assert (forall l s0 cs0, run_ops l s0 cs0 = Return (s, cs1) -> run_ops (l ++ [o]) s0 cs0 = Return (s', cs')) as Happ.
  { clear -E2. induction l as [|x l IH]; intros s0 cs0; simpl.
    - intros [= -> ->]. by rewrite E2.
    - destruct (apply_op x s0 cs0) as [[s1 cs2]| |]; try done. simpl. apply IH. }
  by apply Happ.
Qed.

Lemma State_invariant_witness :
  exists s cs', run_ops [ORunning 5 42; OPaused; OUnpaused; ORestarting 9 1; ORunning 10 43; OStopped 20 137]
      (NewState {| closed := ∅; next := 0 |}).1 (NewState {| closed := ∅; next := 0 |}).2 = Return (s, cs') /\
    wf s cs' /\ Running s = false /\ ExitCode s = 137.
Proof.
  destruct (State_invariant {| closed := ∅; next := 0 |}
    [ORunning 5 42; OPaused; OUnpaused; ORestarting 9 1; ORunning 10 43] (OStopped 20 137)) as (s&cs1&s'&cs'&_&_&E&W&A).
  - intros c H. by apply elem_of_empty in H.
  - exists s', cs'. split; [exact E|]. split; [exact W|]. destruct A as (A1&_&_&_&A5). split; [exact A1|exact A5].
Defined.

(** C7. A [WaitStop] that blocks in a well-formed state is woken by the next
    transition and by nothing before it (pausing does not wake it), and
    without a timeout then returns the exit code of that transition if no
    further one comes first: the code given to [SetStopped] or
    [SetRestarting].  But a [WaitStop] made while the container restarts is
    woken by [SetRunning], and answers exit code 0 for a container that has
    just started. *)
Theorem WaitStop_wakes s cs l o c :
  wf s cs -> WaitStop_begin s = inr c -> forallb (fun o => negb (fires o)) l = true -> fires o = true ->
  exists s1 cs1 s2 cs2,
    run_ops l s cs = Return (s1, cs1) /\ wait c (-1) true true cs1 = None /\
    apply_op o s1 cs1 = Return (s2, cs2) /\ wait c (-1) true true cs2 = Some (Ok ()) /\
    WaitStop_end (Ok ()) s2 =
      (match o with ORunning _ _ => 0 | OStopped _ code | ORestarting _ code => code | _ => 0 end, true) /\
    Running s2 = (match o with OStopped _ _ => false | _ => true end).
Proof.
  intros Hw Hb Hl Ho. unfold WaitStop_begin in Hb. destruct (Running s); [|done]. injection Hb as <-.
  destruct (run_ops_wf l s cs Hw) as (s1&cs1&E1&Hw1&_&Hn). destruct (Hn Hl) as [Hc1 Hc2].
  destruct (apply_op_spec o s1 cs1 Hw1) as (s2&cs2&E2&Hw2&Ha&_&_&Hf). rewrite Ho in Hf. destruct Hf as [Hf1 Hf2].
  exists s1, cs1, s2, cs2. destruct Hw1 as (Hopen&_). rewrite Hc1 in Hopen. split_and!; try done.
  - unfold wait. by rewrite bool_decide_eq_false_2.
  - unfold wait. rewrite bool_decide_eq_true_2; [done|]. rewrite Hf1, Hc1. set_solver.
  - unfold WaitStop_end, Wait_end, GetExitCode. destruct o; simpl in *; try done; by destruct Ha as (?&?&?&?&->).
  - destruct o; simpl in *; try done; by destruct Ha as (->&_).
Qed.

(** The container exits with code 1, its restart policy restarts it, and a
    client that waits meanwhile is told 0. *)
Lemma WaitStop_wakes_witness :
  exists s cs c s2 cs2,
    run_ops [ORunning 5 42; ORestarting 9 1] (NewState {| closed := ∅; next := 0 |}).1
      (NewState {| closed := ∅; next := 0 |}).2 = Return (s, cs) /\
    WaitStop_begin s = inr c /\ ExitCode s = 1 /\
    apply_op (ORunning 10 43) s cs = Return (s2, cs2) /\ wait c (-1) true true cs2 = Some (Ok ()) /\
    WaitStop_end (Ok ()) s2 = (0, true) /\ Running s2 = true.
Proof.
  eexists _, _, _. 
  assert (wf {| Running := true; Paused := false; Restarting := true; Pid := 0; ExitCode := 1;
                StartedAt := 5; FinishedAt := 9; waitChan := 2 |} {| closed := {[1%nat]} ∪ ({[0%nat]} ∪ ∅); next := 3 |}) as Hw.
  { unfold wf. simpl. split_and!; [set_solver|lia| |done|done]. intros c. rewrite !elem_of_union, !elem_of_singleton.
    intros [->|[->|H]]; [lia|lia|by apply elem_of_empty in H]. }
  destruct (WaitStop_wakes _ _ [] (ORunning 10 43) 2%nat Hw eq_refl eq_refl eq_refl) as (s1&cs1&s2&cs2&E1&_&E2&E3&E4&E5).
  injection E1 as <- <-.
  exists s2, cs2. split; [reflexivity|]. split; [reflexivity|]. split; [reflexivity|]. split; [exact E2|].
  split; [exact E3|]. split; [exact E4|exact E5].
Defined.
