(* ===== verification/Monitor.v ===== *)
(** * daemon/monitor.go: restart policies

    What one turn of the monitor's loop meets in the world (the log files, the
    process, the calls of [ExitOnNext] made by other goroutines) is an
    [Attempt]; [Start] runs the loop over a list of them.  The calls that only
    touch pipes, the terminal and the disk appear in the trace. *)

From stdpp Require Import base gmap sets list strings.
From Stdlib Require Import ZArith Lia.
From S2P Require Import Prelude State.

Local Open Scope Z_scope.

Definition defaultTimeIncrement : Z := 100.

(** [runconfig.RestartPolicy] *)
Record RestartPolicy := { Name : string; MaximumRetryCount : Z }.

Inductive act :=
| LogEvent (action : string)
| WaitFor (ns : Z)
| ResetContainer
| CleanedUp.

Record containerMonitor := {
  container_State : State;
  channels : Chans;
  RestartCount : Z;
  restartPolicy : RestartPolicy;
  failureCount : Z;
  shouldStop : bool;
  startSignal : bool; (* closed? *)
  stopChan : bool; (* closed? *)
  timeIncrement : Z;
  lastStartTime : Z;
  trace : list act }.

Record Attempt := {
  logging_err : option string; (* startLoggingToDisk *)
  start_time : Z; (* milliseconds *)
  started : option Z; (* the pid when the driver calls back *)
  exit_ExitOnNext : bool; (* ExitOnNext is called before the process ends *)
  exitStatus : Z;
  run_err : option string; (* daemon.Run *)
  end_time : Z;
  wait_ExitOnNext : bool (* ExitOnNext is called before the wait ends *) }.

Definition is_err (e : option string) : bool := match e with Some _ => true | None => false end.

Definition newContainerMonitor (s : State) (cs : Chans) (policy : RestartPolicy) : containerMonitor :=
  {| container_State := s; channels := cs; RestartCount := 0; restartPolicy := policy; failureCount := 0;
     shouldStop := false; startSignal := false; stopChan := false; timeIncrement := defaultTimeIncrement;
     lastStartTime := 0; trace := [] |}.

Definition with_state (m : containerMonitor) '((s, cs) : State * Chans) : containerMonitor :=
  {| container_State := s; channels := cs; RestartCount := RestartCount m; restartPolicy := restartPolicy m;
     failureCount := failureCount m; shouldStop := shouldStop m; startSignal := startSignal m;
     stopChan := stopChan m; timeIncrement := timeIncrement m; lastStartTime := lastStartTime m; trace := trace m |}.
Definition with_count (m : containerMonitor) (n : Z) : containerMonitor :=
  {| container_State := container_State m; channels := channels m; RestartCount := n; restartPolicy := restartPolicy m;
     failureCount := failureCount m; shouldStop := shouldStop m; startSignal := startSignal m;
     stopChan := stopChan m; timeIncrement := timeIncrement m; lastStartTime := lastStartTime m; trace := trace m |}.
Definition with_lastStart (m : containerMonitor) (t : Z) : containerMonitor :=
  {| container_State := container_State m; channels := channels m; RestartCount := RestartCount m;
     restartPolicy := restartPolicy m; failureCount := failureCount m; shouldStop := shouldStop m;
     startSignal := startSignal m; stopChan := stopChan m; timeIncrement := timeIncrement m;
     lastStartTime := t; trace := trace m |}.
Definition log (m : containerMonitor) (a : act) : containerMonitor :=
  {| container_State := container_State m; channels := channels m; RestartCount := RestartCount m;
     restartPolicy := restartPolicy m; failureCount := failureCount m; shouldStop := shouldStop m;
     startSignal := startSignal m; stopChan := stopChan m; timeIncrement := timeIncrement m;
     lastStartTime := lastStartTime m; trace := trace m ++ [a] |}.

(** [ExitOnNext]: the flag protects the channel from a second close. *)
Definition ExitOnNext (m : containerMonitor) : outcome containerMonitor :=
  if shouldStop m then Return m
  else if stopChan m then Panic
  else Return
    {| container_State := container_State m; channels := channels m; RestartCount := RestartCount m;
       restartPolicy := restartPolicy m; failureCount := failureCount m; shouldStop := true;
       startSignal := startSignal m; stopChan := true; timeIncrement := timeIncrement m;
       lastStartTime := lastStartTime m; trace := trace m |}.

(** [resetMonitor]: more than ten seconds of execution resets the increment. *)
Definition resetMonitor (now : Z) (successful : bool) (m : containerMonitor) : containerMonitor :=
  {| container_State := container_State m; channels := channels m; RestartCount := RestartCount m;
     restartPolicy := restartPolicy m;
     failureCount := if successful then 0 else failureCount m + 1;
     shouldStop := shouldStop m; startSignal := startSignal m; stopChan := stopChan m;
     timeIncrement := if now - lastStartTime m >? 10000 then defaultTimeIncrement
                      else int64 (timeIncrement m * 2);
     lastStartTime := lastStartTime m; trace := trace m |}.

(** [waitForNextRestart]: the duration it arms, in nanoseconds. *)
Definition waitForNextRestart (m : containerMonitor) : containerMonitor :=
  log m (WaitFor (int64 (timeIncrement m * 1000000))).

Definition shouldRestart (m : containerMonitor) (exitStatus : Z) : bool :=
  if shouldStop m then false
  else if String.eqb (Name (restartPolicy m)) "always" then true
  else if String.eqb (Name (restartPolicy m)) "on-failure" then
    let max := MaximumRetryCount (restartPolicy m) in
    if negb (max =? 0) && (max <=? failureCount m) then false else negb (exitStatus =? 0)
  else false.

(** [callback]: the process has started. *)
Definition callback (now pid : Z) (m : containerMonitor) : outcome containerMonitor :=
  sc ← SetRunning now pid (container_State m) (channels m);
  let m := with_state m sc in
  Return {| container_State := container_State m; channels := channels m; RestartCount := RestartCount m;
            restartPolicy := restartPolicy m; failureCount := failureCount m; shouldStop := shouldStop m;
            startSignal := true; stopChan := stopChan m; timeIncrement := timeIncrement m;
            lastStartTime := lastStartTime m; trace := trace m |}.

Definition resetContainer (m : containerMonitor) : containerMonitor := log m ResetContainer.
Definition Close (m : containerMonitor) : containerMonitor := log m CleanedUp.

Definition when (b : bool) (f : containerMonitor -> outcome containerMonitor) (m : containerMonitor) :
    outcome containerMonitor := if b then f m else Return m.

(** [daemon.Run], as far as the monitor sees it. *)
Definition daemon_Run (a : Attempt) (m : containerMonitor) : outcome containerMonitor :=
  m ← match started a with Some pid => callback (start_time a) pid m | None => Return m end;
  when (exit_ExitOnNext a) ExitOnNext m.

(** One turn of the loop of [Start]: [inl] continues, [inr] returns. *)
Definition Start_step (m : containerMonitor) (a : Attempt) :
    outcome (containerMonitor + (containerMonitor * option string)) :=
  let m := with_count m (RestartCount m + 1) in
  match logging_err a with
  | Some e => Return (inr (resetContainer m, Some e))
  | None =>
      let m := log m (LogEvent "start") in
      let m := with_lastStart m (start_time a) in
      m ← daemon_Run a m;
      if is_err (run_err a) && (RestartCount m =? 0) then
        Return (inr (resetContainer m, run_err a))
      else
        let m := resetMonitor (end_time a)
                   (negb (is_err (run_err a)) && (exitStatus a =? 0)) m in
        if shouldRestart m (exitStatus a) then
          sc ← SetRestarting (end_time a) (exitStatus a) (container_State m) (channels m);
          let m := log (with_state m sc) (LogEvent "die") in
          let m := waitForNextRestart (resetContainer m) in
          m ← when (wait_ExitOnNext a) ExitOnNext m;
          if shouldStop m then
            sc ← SetStopped (end_time a) (exitStatus a) (container_State m) (channels m);
            Return (inr (with_state m sc, run_err a))
          else Return (inl m)
        else
          sc ← SetStopped (end_time a) (exitStatus a) (container_State m) (channels m);
          let m := log (with_state m sc) (LogEvent "die") in
          Return (inr (resetContainer m, run_err a))
  end.

Fixpoint Start_loop (m : containerMonitor) (l : list Attempt) :
    outcome (containerMonitor + (containerMonitor * option string)) :=
  match l with
  | [] => Return (inl m)
  | a :: l =>
      r ← Start_step m a;
      match r with
      | inl m => Start_loop m l
      | inr (m, err) => Return (inr (Close m, err))
      end
  end.

(** [Start]: [inl] when the attempts are used up and the container still runs
    or restarts. *)
Definition Start (m : containerMonitor) (l : list Attempt) :
    outcome (containerMonitor + (containerMonitor * option string)) :=
  Start_loop (with_count m (-1)) l.

(** ** The policy *)

(** Does the loop end at attempt number [i]? *)
Definition ends (p : RestartPolicy) (i : nat) (a : Attempt) : bool :=
  is_err (logging_err a)
  || (is_err (run_err a) && Nat.eqb i 0)
  || exit_ExitOnNext a || wait_ExitOnNext a
  || (if String.eqb (Name p) "always" then false
      else if String.eqb (Name p) "on-failure" then
        (exitStatus a =? 0) || (negb (MaximumRetryCount p =? 0) && (MaximumRetryCount p <=? Z.of_nat i + 1))
      else true).

(** The first attempt that ends it. *)
Fixpoint ends_at (p : RestartPolicy) (i : nat) (l : list Attempt) : option (nat * Attempt) :=
  match l with
  | [] => None
  | a :: l => if ends p i a then Some (i, a) else ends_at p (S i) l
  end.

(** The monitor before attempt [i]. *)
Definition ready (p : RestartPolicy) (i : nat) (m : containerMonitor) : Prop :=
  RestartCount m = Z.of_nat i - 1 /\ restartPolicy m = p /\ shouldStop m = false /\ stopChan m = false /\
  wf (container_State m) (channels m) /\
  (Name p = "on-failure" -> failureCount m = Z.of_nat i) /\
  (i <> O -> Restarting (container_State m) = true).

(** The container when [Start] has returned at attempt [i]. *)
Definition final_ok (i : nat) (a : Attempt) (m : containerMonitor) (err : option string) : Prop :=
  RestartCount m = Z.of_nat i /\ wf (container_State m) (channels m) /\
  match logging_err a with
  | Some e => err = Some e /\ (i <> O -> Restarting (container_State m) = true)
  | None => err = run_err a /\
      (run_err a = None \/ i <> O ->
       Running (container_State m) = false /\ ExitCode (container_State m) = exitStatus a)
  end.

Lemma set_ok o s cs : wf s cs ->
  exists s' cs', apply_op o s cs = Return (s', cs') /\ wf s' cs' /\ after o s s'.
Proof. intros H. destruct (apply_op_spec o s cs H) as (s'&cs'&?&?&?&_). eauto. Qed.

(** What [daemon.Run] leaves: the fields of the monitor it does not touch. *)
Lemma daemon_Run_spec a m :
  wf (container_State m) (channels m) -> stopChan m = false -> shouldStop m = false ->
  exists m', daemon_Run a m = Return m' /\ wf (container_State m') (channels m') /\
    RestartCount m' = RestartCount m /\ restartPolicy m' = restartPolicy m /\
    failureCount m' = failureCount m /\ shouldStop m' = exit_ExitOnNext a /\ stopChan m' = exit_ExitOnNext a /\
    timeIncrement m' = timeIncrement m /\ lastStartTime m' = lastStartTime m /\ trace m' = trace m.
Proof.
  intros Hw Hc Hs. unfold daemon_Run.
  assert (exists m1, match started a with Some pid => callback (start_time a) pid m | None => Return m end = Return m1 /\
    wf (container_State m1) (channels m1) /\
    RestartCount m1 = RestartCount m /\ restartPolicy m1 = restartPolicy m /\
    failureCount m1 = failureCount m /\ shouldStop m1 = false /\ stopChan m1 = false /\
    timeIncrement m1 = timeIncrement m /\ lastStartTime m1 = lastStartTime m /\ trace m1 = trace m)
    as (m1&->&Hw1&?&?&?&Hs1&Hc1&?&?&?).
  { destruct (started a) as [pid|]; [|by exists m]. unfold callback.
    destruct (set_ok (ORunning (start_time a) pid) _ _ Hw) as (s'&cs'&E&Hw'&_). simpl in E. rewrite E. simpl.
    eexists. split; [done|]. by split_and!. }
  simpl. unfold when. destruct (exit_ExitOnNext a).
  - unfold ExitOnNext. rewrite Hs1, Hc1. eexists. split; [done|]. by split_and!.
  - by exists m1.
Qed.

Lemma shouldRestart_ends p i a m :
  restartPolicy m = p -> shouldStop m = exit_ExitOnNext a ->
  (Name p = "on-failure" -> exitStatus a <> 0 -> failureCount m = Z.of_nat i + 1) ->
  logging_err a = None -> is_err (run_err a) && Nat.eqb i 0 = false ->
  ends p i a = if shouldRestart m (exitStatus a) then wait_ExitOnNext a else true.
Proof.
  intros Hp Hs Hf Hl Hr. unfold shouldRestart, ends. rewrite Hp, Hs, Hl, Hr.
  destruct (exit_ExitOnNext a); [done|]. destruct (wait_ExitOnNext a); [simpl; match goal with |- _ = if ?b then _ else _ => by destruct b end|].
  simpl. destruct (String.eqb_spec (Name p) "always"); [done|].
  destruct (String.eqb_spec (Name p) "on-failure"); [|done].
  destruct (Z.eqb_spec (exitStatus a) 0); simpl; [by destruct (negb _ && _)|].
  rewrite Hf by done. by destruct (negb _ && _).
Qed.

Lemma Start_step_spec p i m a :
  ready p i m ->
  if ends p i a then exists m' err, Start_step m a = Return (inr (m', err)) /\ final_ok i a m' err
  else exists m', Start_step m a = Return (inl m') /\ ready p (S i) m'.
Proof.
  intros (Hi&Hp&Hs&Hc&Hw&Hf&Hr). unfold Start_step, final_ok.
  destruct (logging_err a) as [e|] eqn:El.
  { unfold ends. rewrite El. simpl. eexists _, _. split; [done|]. simpl. split_and!; try done. lia. }
  set (m1 := with_lastStart _ _). destruct (daemon_Run_spec a m1 Hw Hc Hs) as (m2&->&Hw2&R1&R2&R3&R4&R5&_).
  cbn [mbind outcome_bind]. simpl in R1, R2, R3.
  assert ((RestartCount m2 =? 0) = Nat.eqb i 0) as ->.
  { rewrite R1, Hi. destruct (Nat.eqb_spec i 0); [apply Z.eqb_eq | apply Z.eqb_neq]; lia. }
  destruct (is_err (run_err a) && Nat.eqb i 0) eqn:Er.
  { unfold ends. rewrite El, Er. simpl. eexists _, _. split; [done|]. simpl. split_and!; try done; [lia|].
    apply andb_true_iff in Er as [E1 E2%Nat.eqb_eq]. intros [Hn|Hn]; [by rewrite Hn in E1|done]. }
  set (m3 := resetMonitor _ _ m2).
  assert (Name p = "on-failure" -> exitStatus a <> 0 -> failureCount m3 = Z.of_nat i + 1) as Hf3.
  { intros Hn Hx. simpl. apply Z.eqb_neq in Hx. rewrite Hx, andb_false_r, R3. by rewrite Hf. }
  rewrite (shouldRestart_ends p i a m3) by (try done; simpl; congruence).
  destruct (shouldRestart m3 (exitStatus a)) eqn:Es.
  - destruct (set_ok (ORestarting (end_time a) (exitStatus a)) _ _ Hw2) as (s'&cs'&E&Hw'&(A1&A2&A3&A4&A5)).
    simpl in E. change (container_State m3) with (container_State m2). change (channels m3) with (channels m2).
    rewrite E. cbn [mbind outcome_bind].
    assert (shouldStop m3 = false /\ stopChan m3 = false) as [Hs3 Hc3].
    { unfold shouldRestart in Es. destruct (shouldStop m3) eqn:E3; [done|]. split; [done|]. simpl in *. congruence. }
    unfold when. destruct (wait_ExitOnNext a).
    + unfold ExitOnNext. cbn [shouldStop stopChan log waitForNextRestart resetContainer with_state].
      rewrite Hs3, Hc3. cbn.
      destruct (set_ok (OStopped (end_time a) (exitStatus a)) s' cs' Hw') as (s2&cs2&E2&Hw2'&(B1&B2&B3&B4&B5)).
      simpl in E2. rewrite E2. cbn. eexists _, _. split; [done|]. simpl. split_and!; try done. lia.
    + cbn [mbind outcome_bind shouldStop log waitForNextRestart resetContainer with_state]. rewrite Hs3.
      eexists. split; [done|]. unfold ready. cbn [container_State channels RestartCount restartPolicy shouldStop stopChan failureCount log waitForNextRestart resetContainer with_state].
      split_and!; try done.
      * simpl. lia.
      * simpl. congruence.
      * intros Hn. rewrite Hf3; [lia|done|].
        unfold shouldRestart in Es. rewrite Hs3 in Es. change (restartPolicy m3) with (restartPolicy m2) in Es.
        rewrite R2, Hp, Hn in Es. cbn in Es.
        match type of Es with (if ?b then _ else _) = _ => destruct b; [done|] end. intros E0. by rewrite E0 in Es.
  - destruct (set_ok (OStopped (end_time a) (exitStatus a)) _ _ Hw2) as (s'&cs'&E&Hw'&(A1&A2&A3&A4&A5)).
    simpl in E. change (container_State m3) with (container_State m2). change (channels m3) with (channels m2).
    rewrite E. cbn. eexists _, _. split; [done|]. simpl. split_and!; try done. lia.
Qed.

Lemma Start_loop_spec p l : forall i m, ready p i m ->
  match ends_at p i l with
  | Some (k, a) => exists m' err, Start_loop m l = Return (inr (m', err)) /\ final_ok k a m' err
  | None => exists m', Start_loop m l = Return (inl m') /\ ready p (i + length l) m'
  end.
Proof.
  induction l as [|a l IH]; intros i m Hm; simpl.
  { exists m. split; [done|]. by rewrite Nat.add_0_r. }
  pose proof (Start_step_spec p i m a Hm) as Hs. destruct (ends p i a).
  - destruct Hs as (m'&err&->&Hf). simpl. by exists (Close m'), err.
  - destruct Hs as (m'&->&Hr). simpl. specialize (IH (S i) m' Hr).
    destruct (ends_at p (S i) l) as [[k b]|]; [done|]. by rewrite Nat.add_succ_r.
Qed.

(** An attempt in which the process starts and exits with an error. *)
Definition attempt_fails (a : Attempt) : bool :=
  negb (is_err (logging_err a)) && negb (is_err (run_err a)) && negb (exit_ExitOnNext a) && negb (wait_ExitOnNext a) && negb (exitStatus a =? 0).

Lemma ends_at_fails p l : forall i,
  Name p = "on-failure" -> 0 < MaximumRetryCount p -> Z.of_nat i < MaximumRetryCount p <= Z.of_nat (i + length l) ->
  Forall (fun a => attempt_fails a = true) l -> exists a, ends_at p i l = Some (Z.to_nat (MaximumRetryCount p - 1), a).
Proof.
  induction l as [|a l IH]; intros i Hn Hp Hi Hl; simpl in *; [lia|]. inversion Hl as [|? ? Ha Hl']; subst.
  unfold attempt_fails in Ha. reflect_bools.
  assert (ends p i a = (MaximumRetryCount p <=? Z.of_nat i + 1)) as ->.
  { unfold ends. rewrite Hn. repeat match goal with H : _ = false |- _ => rewrite H end.
    destruct (Z.eqb_spec (exitStatus a) 0); [done|]. simpl.
    destruct (Z.eqb_spec (MaximumRetryCount p) 0); [lia|]. done. }
  destruct (Z.leb_spec (MaximumRetryCount p) (Z.of_nat i + 1)).
  - exists a. do 2 f_equal. lia.
  - apply IH; [done|done|lia|done].
Qed.

(** ** Properties *)

(** C8. The monitor implements the restart policy.  Whatever the attempts do,
    it never panics and returns at the first attempt that ends the policy: the
    log files cannot be opened, the first start fails, someone asked it to
    stop while the process ran or during the wait, the policy is neither
    "always" nor "on-failure", or, with "on-failure", the exit status is 0 or
    this was the last allowed attempt.  Until then it goes on with the restart
    count at the number of restarts.  When it returns, the restart count is
    the number of that attempt, the error is that attempt's, and the
    container is stopped with that attempt's exit status; only after a failed
    first start it is left as the driver left it, and after a log failure on a
    restart it still says "restarting" although nothing restarts it.  The
    last allowed attempt of "on-failure:n" is the n-th that fails: a process
    that always fails is restarted n - 1 times, once less than cli.md says. *)
Theorem Start_policy s cs p l :
  wf s cs ->
  let m := newContainerMonitor s cs p in
  match ends_at p 0 l with
  | Some (k, a) => exists m' err, Start m l = Return (inr (m', err)) /\ final_ok k a m' err
  | None => exists m', Start m l = Return (inl m') /\ RestartCount m' = Z.of_nat (length l) - 1 /\
      shouldStop m' = false
  end /\
  (Name p = "on-failure" -> 0 < MaximumRetryCount p <= Z.of_nat (length l) -> Forall (fun a => attempt_fails a = true) l ->
   exists m' err, Start m l = Return (inr (m', err)) /\ RestartCount m' = MaximumRetryCount p - 1).
Proof.
  intros Hw m. pose proof (Start_loop_spec p l 0 (with_count m (-1))) as H. unfold Start. split.
  - destruct (ends_at p 0 l) as [[k a]|]; [apply H; by unfold ready; split_and!|].
    destruct H as (m'&E&(H1&H2&H3&_)); [by unfold ready; split_and!|]. by exists m'.
  - intros Hn Hm Hl. destruct (ends_at_fails p l 0) as [a Ha]; [done|lia|simpl; lia|done|]. rewrite Ha in H.
    destruct H as (m' & err & E & Hf & _); [by unfold ready; split_and!|]. exists m', err. split; [done|]. lia.
Qed.

(** A container that always fails, with at most three attempts. *)
Definition failing (t : Z) : Attempt :=
  {| logging_err := None; start_time := t; started := Some 42; exit_ExitOnNext := false; exitStatus := 1;
     run_err := None; end_time := t + 500; wait_ExitOnNext := false |}.
Definition fresh_container : State * Chans := NewState {| closed := ∅; next := 0 |}.

Lemma fresh_container_wf : wf fresh_container.1 fresh_container.2.
Proof. apply NewState_wf. intros c H. by apply elem_of_empty in H. Qed.

Lemma Start_policy_witness :
  exists m' err,
    Start (newContainerMonitor fresh_container.1 fresh_container.2 {| Name := "on-failure"; MaximumRetryCount := 3 |})
      (failing <$> [0; 1000; 2000; 3000; 4000]) = Return (inr (m', err)) /\
    RestartCount m' = 2.
Proof.
  destruct (Start_policy fresh_container.1 fresh_container.2 {| Name := "on-failure"; MaximumRetryCount := 3 |}
    (failing <$> [0; 1000; 2000; 3000; 4000]) fresh_container_wf) as [_ H].
  apply H; [reflexivity|simpl; lia|repeat constructor].
Defined.

(** ** The time between restarts *)

Definition short (a : Attempt) : bool := end_time a - start_time a <=? 10000.

(** How many of the last attempts were short. *)
Fixpoint streak_from (n : Z) (l : list Attempt) : Z :=
  match l with [] => n | a :: l => streak_from (if short a then n + 1 else 0) l end.
Definition streak : list Attempt -> Z := streak_from 0.

Lemma streak_from_snoc n l a : streak_from n (l ++ [a]) = if short a then streak_from n l + 1 else 0.
Proof. revert n. induction l as [|b l IH]; intros n; [done|]. simpl. apply IH. Qed.
Lemma streak_snoc l a : streak (l ++ [a]) = if short a then streak l + 1 else 0.
Proof. apply streak_from_snoc. Qed.

Lemma streak_bounds l : 0 <= streak l <= Z.of_nat (length l).
Proof.
  induction l as [|a l IH] using rev_ind; [done|]. rewrite streak_snoc, length_app. simpl. destruct (short a); lia.
Qed.

(** The acts of the attempts after [l0], when none of them ends the loop. *)
Fixpoint turns (l0 l : list Attempt) : list act :=
  match l with
  | [] => []
  | a :: l =>
      [LogEvent "start"; LogEvent "die"; ResetContainer; WaitFor (100000000 * 2 ^ streak (l0 ++ [a]))]
      ++ turns (l0 ++ [a]) l
  end.

Lemma Start_step_trace p i m a m' :
  ready p i m -> Start_step m a = Return (inl m') ->
  timeIncrement m' = (if short a then int64 (timeIncrement m * 2) else 100) /\
  trace m' = trace m ++ [LogEvent "start"; LogEvent "die"; ResetContainer; WaitFor (int64 (timeIncrement m' * 1000000))].
Proof.
  intros (Hi&Hp&Hs&Hc&Hw&Hf&Hr). unfold Start_step. destruct (logging_err a); [done|].
  set (m1 := with_lastStart _ _).
  destruct (daemon_Run_spec a m1 Hw Hc Hs) as (m2&->&Hw2&_&_&_&_&_&R6&R7&R8). simpl in R6, R7, R8.
  cbn [mbind outcome_bind]. destruct (is_err _ && _); [done|].
  destruct (shouldRestart _ _); [|by destruct (SetStopped _ _ _ _)].
  destruct (SetRestarting _ _ _ _) as [[s' cs']| |]; [|done|done]. cbn [mbind outcome_bind].
  unfold when. destruct (wait_ExitOnNext a).
  - unfold ExitOnNext. cbn [shouldStop stopChan log waitForNextRestart resetContainer with_state resetMonitor].
    destruct (shouldStop m2) eqn:E2.
    + cbn [mbind outcome_bind shouldStop log waitForNextRestart resetContainer with_state resetMonitor]. rewrite ?E2.
      by destruct (SetStopped _ _ _ _) as [[? ?]| |].
    + destruct (stopChan m2); [done|]. cbn [mbind outcome_bind shouldStop]. by destruct (SetStopped _ _ _ _) as [[? ?]| |].
  - cbn [mbind outcome_bind shouldStop log waitForNextRestart resetContainer with_state resetMonitor].
    destruct (shouldStop m2); [by destruct (SetStopped _ _ _ _) as [[? ?]| |]|]. intros [= <-].
    cbn [timeIncrement trace log waitForNextRestart resetContainer with_state resetMonitor].
    rewrite R6, R7, R8. unfold short, defaultTimeIncrement. rewrite Z.gtb_ltb.
    destruct (Z.ltb_spec 10000 (end_time a - start_time a)), (Z.leb_spec (end_time a - start_time a) 10000); try lia.
    all: split; [done|]; by rewrite <- !app_assoc.
Qed.

Lemma Start_loop_trace p l : forall l0 m,
  ready p (length l0) m -> timeIncrement m = 100 * 2 ^ streak l0 -> Z.of_nat (length l0 + length l) <= 36 ->
  ends_at p (length l0) l = None ->
  exists m', Start_loop m l = Return (inl m') /\ trace m' = trace m ++ turns l0 l.
Proof.
  induction l as [|a l IH]; intros l0 m Hm Ht Hl He.
  { exists m. by rewrite app_nil_r. }
  simpl in He. destruct (ends p (length l0) a) eqn:Ea; [done|].
  pose proof (Start_step_spec p _ m a Hm) as Hs. rewrite Ea in Hs. destruct Hs as (m1&E1&Hm1).
  destruct (Start_step_trace p _ m a m1 Hm E1) as [Ht1 Htr1]. simpl in Hl.
  assert (length (l0 ++ [a]) = S (length l0)) as Hlen by (rewrite length_app; simpl; lia).
  pose proof (streak_bounds l0) as Hb. pose proof (streak_bounds (l0 ++ [a])) as Hb'. rewrite Hlen in Hb'.
  assert (timeIncrement m1 = 100 * 2 ^ streak (l0 ++ [a])) as Ht1'.
  { rewrite Ht1, Ht, streak_snoc. destruct (short a); [|done].
    rewrite wrapS_small; [rewrite Z.pow_add_r by lia; lia|lia|].
    pose proof (Z.pow_le_mono_r 2 (streak l0) 36 ltac:(lia) ltac:(lia)). 
    change (2 ^ (64 - 1)) with 9223372036854775808. change (2 ^ 36) with 68719476736 in H.
    pose proof (Z.pow_nonneg 2 (streak l0)). lia. }
  destruct (IH (l0 ++ [a]) m1) as (m'&E'&Htr'); [by rewrite Hlen|done|rewrite Hlen; lia|by rewrite Hlen|].
  exists m'. simpl. rewrite E1. simpl. split; [done|]. rewrite Htr', Htr1, <- app_assoc. simpl. do 5 f_equal.
  rewrite Ht1', wrapS_small; [f_equal; lia|lia|].
  pose proof (Z.pow_le_mono_r 2 (streak (l0 ++ [a])) 36 ltac:(lia) ltac:(lia)).
  change (2 ^ (64 - 1)) with 9223372036854775808. change (2 ^ 36) with 68719476736 in H.
  pose proof (Z.pow_nonneg 2 (streak (l0 ++ [a]))). lia.
Qed.

(** The restarts back off: while the policy does not end, every attempt
    logs one "start" and one "die", resets the container's streams and waits
    100 ms times 2 to the number of consecutive runs of at most ten seconds
    up to it, so 200 ms after a first short run and 100 ms after a long one
    (the bound of 36 attempts keeps the duration below 2^63 ns). *)
Theorem Start_backoff s cs p l :
  wf s cs -> ends_at p 0 l = None -> (length l <= 36)%nat ->
  exists m', Start (newContainerMonitor s cs p) l = Return (inl m') /\ trace m' = turns [] l.
Proof.
  intros Hw He Hl. apply (Start_loop_trace p l []); [by unfold ready; split_and!|done|simpl; lia|done].
Qed.

Lemma Start_backoff_witness :
  exists m', Start (newContainerMonitor fresh_container.1 fresh_container.2 {| Name := "always"; MaximumRetryCount := 0 |})
      (failing <$> [0; 1000]) = Return (inl m') /\
    trace m' = [LogEvent "start"; LogEvent "die"; ResetContainer; WaitFor 200000000;
                LogEvent "start"; LogEvent "die"; ResetContainer; WaitFor 400000000].
Proof.
  assert (ends_at {| Name := "always"; MaximumRetryCount := 0 |} 0 (failing <$> [0; 1000]) = None) as He by reflexivity.
  destruct (Start_backoff fresh_container.1 fresh_container.2 {| Name := "always"; MaximumRetryCount := 0 |}
    (failing <$> [0; 1000]) fresh_container_wf He ltac:(simpl; lia)) as (m'&E&T).
  exists m'. split; [exact E|]. rewrite T. vm_compute. reflexivity.
Defined.
