(* ===== verification/Iptables.v ===== *)
(** * pkg/iptables: the rules of the docker chain

    Running the iptables binary is the parameter [exec] on a kernel state of
    type [W]; [IptablesLaws] states what its manual says of the rule list:
    a successful append or insert adds one copy of the rule, a delete of a
    present rule succeeds and removes one copy, and a failed command changes
    nothing. *)

From stdpp Require Import base gmap gmultiset list strings.
From Stdlib Require Import ZArith Lia Ascii.
From S2P Require Import Prelude GoStrings GoNet.

Local Open Scope Z_scope.

Inductive Action := AddRule | DeleteRule.

Definition action_string (a : Action) : string :=
  match a with AddRule => "-A" | DeleteRule => "-D" end.

(** [Chain] *)
Record Chain := { Name : string; Bridge : string }.

Definition ErrIptablesNotFound : string := "Iptables not found".

(** [IP.IsUnspecified] *)
Definition IsUnspecified (ip : IP) : bool :=
  match To4 ip with
  | [] => bool_decide (ip = repeat 0 16)
  | ip4 => bool_decide (ip4 = [0; 0; 0; 0])
  end.

(** [net.JoinHostPort] *)
Definition JoinHostPort (host port : string) : string :=
  if contains_char ":" host || contains_char "%" host then "[" +:+ host +:+ "]:" +:+ port
  else host +:+ ":" +:+ port.

Section Iptables.
Context {W : Type}.
(** The combined output and the error of a run of the binary, whether it is in
    the path and whether it supports [--wait]. *)
Context (exec : list string -> W -> W * (string * option string)).
Context (found supportsXlock : bool).

Definition Raw (args : list string) (w : W) : W * result string string :=
  if negb found then (w, Err ErrIptablesNotFound)
  else
    let args := if supportsXlock then "--wait" :: args else args in
    let '(w, (output, err)) := exec args w in
    match err with
    | Some e => (w, Err ("iptables failed: iptables " +:+ join " " args +:+ ": " +:+ output +:+ " (" +:+ e +:+ ")"))
    | None => (w, Ok (if contains "waiting for it to exit" output then "" else output))
    end.

(** A command must succeed and print nothing. *)
Definition Raw_silent (what : string) (args : list string) (w : W) : W * result string () :=
  let '(w, r) := Raw args w in
  match r with
  | Err e => (w, Err e)
  | Ok output => if String.eqb output "" then (w, Ok ()) else (w, Err (what +:+ output))
  end.

Definition forward_nat_args (c : Chain) (action : string) (ip : IP) (port : Z) (proto dest_addr : string)
    (dest_port : Z) : list string :=
  ["-t"; "nat"; action; Name c; "-p"; proto; "-d"; (if IsUnspecified ip then "0/0" else IP_String ip);
   "--dport"; itoa port; "!"; "-i"; Bridge c; "-j"; "DNAT"; "--to-destination";
   JoinHostPort dest_addr (itoa dest_port)].

Definition forward_filter_args (c : Chain) (action : string) (proto dest_addr : string) (dest_port : Z) :
    list string :=
  [action; "FORWARD"; "!"; "-i"; Bridge c; "-o"; Bridge c; "-p"; proto; "-d"; dest_addr;
   "--dport"; itoa dest_port; "-j"; "ACCEPT"].

Definition Forward (c : Chain) (action : Action) (ip : IP) (port : Z) (proto dest_addr : string)
    (dest_port : Z) (w : W) : W * result string () :=
  let '(w, r) := Raw_silent "Error iptables forward: "
    (forward_nat_args c (action_string action) ip port proto dest_addr dest_port) w in
  match r with
  | Err e => (w, Err e)
  | Ok _ =>
      let fAction := match action with AddRule => "-I" | DeleteRule => action_string action end in
      Raw_silent "Error iptables forward: " (forward_filter_args c fAction proto dest_addr dest_port) w
  end.

Definition Prerouting (c : Chain) (action : Action) (args : list string) (w : W) : W * result string () :=
  Raw_silent "Error iptables prerouting: "
    (["-t"; "nat"; action_string action; "PREROUTING"] ++ args ++ ["-j"; Name c]) w.

Definition Output (c : Chain) (action : Action) (args : list string) (w : W) : W * result string () :=
  Raw_silent "Error iptables output: "
    (["-t"; "nat"; action_string action; "OUTPUT"] ++ args ++ ["-j"; Name c]) w.

Definition local_args : list string := ["-m"; "addrtype"; "--dst-type"; "LOCAL"].
Definition not_loopback_args : list string := local_args ++ ["!"; "--dst"; "127.0.0.0/8"].

(** [Remove] ignores every error. *)
Definition Remove (c : Chain) (w : W) : W :=
  let w := fst (Prerouting c DeleteRule local_args w) in
  let w := fst (Output c DeleteRule not_loopback_args w) in
  let w := fst (Output c DeleteRule local_args w) in
  let w := fst (Prerouting c DeleteRule [] w) in
  let w := fst (Output c DeleteRule [] w) in
  let w := fst (Raw ["-t"; "nat"; "-F"; Name c] w) in
  fst (Raw ["-t"; "nat"; "-X"; Name c] w).

Definition RemoveExistingChain (name : string) (w : W) : W := Remove {| Name := name; Bridge := "" |} w.

Definition NewChain (name bridge : string) (w : W) : W * result string Chain :=
  let '(w, r) := Raw_silent "Error creating new iptables chain: " ["-t"; "nat"; "-N"; name] w in
  match r with
  | Err e => (w, Err e)
  | Ok _ =>
      let chain := {| Name := name; Bridge := bridge |} in
      let '(w, r) := Prerouting chain AddRule local_args w in
      match r with
      | Err e => (w, Err ("Failed to inject docker in PREROUTING chain: " +:+ e))
      | Ok _ =>
          let '(w, r) := Output chain AddRule not_loopback_args w in
          match r with
          | Err e => (w, Err ("Failed to inject docker in OUTPUT chain: " +:+ e))
          | Ok _ => (w, Ok chain)
          end
      end
  end.

Definition Exists (args : list string) (w : W) : W * bool :=
  let '(w, r) := Raw ("-C" :: args) w in (w, is_ok r).
End Iptables.

(** ** What iptables does to the list of rules *)

(** A rule: the table arguments, the chain, the match and target. *)
Definition rule (tbl : list string) (chain : string) (spec : list string) : list string :=
  tbl ++ chain :: spec.

Class IptablesLaws {W} (exec : list string -> W -> W * (string * option string)) (supportsXlock : bool)
    (rules : W -> gmultiset (list string)) := {
  exec_add : forall tbl a chain spec w w' out,
    tbl = [] \/ tbl = ["-t"; "nat"] -> a = "-A" \/ a = "-I" ->
    exec ((if supportsXlock then ["--wait"] else []) ++ tbl ++ a :: chain :: spec) w = (w', (out, None)) ->
    rules w' = rules w ⊎ {[+ rule tbl chain spec +]};
  exec_delete : forall tbl chain spec w,
    tbl = [] \/ tbl = ["-t"; "nat"] -> rule tbl chain spec ∈ rules w ->
    exists w', exec ((if supportsXlock then ["--wait"] else []) ++ tbl ++ "-D" :: chain :: spec) w = (w', ("", None)) /\
      rules w' = rules w ∖ {[+ rule tbl chain spec +]};
  exec_failed : forall args w w' out e, exec args w = (w', (out, Some e)) -> rules w' = rules w }.

Lemma wait_args (supportsXlock : bool) (args : list string) :
  (if supportsXlock then "--wait" :: args else args) = (if supportsXlock then ["--wait"] else []) ++ args.
Proof. by destruct supportsXlock. Qed.

Section Laws.
Context {W : Type} (exec : list string -> W -> W * (string * option string)) (found supportsXlock : bool)
  (rules : W -> gmultiset (list string)) `{!IptablesLaws exec supportsXlock rules}.

Lemma Raw_silent_add what tbl a chain spec w w' :
  tbl = [] \/ tbl = ["-t"; "nat"] -> a = "-A" \/ a = "-I" ->
  Raw_silent exec found supportsXlock what (tbl ++ a :: chain :: spec) w = (w', Ok ()) ->
  found = true /\ rules w' = rules w ⊎ {[+ rule tbl chain spec +]}.
Proof.
  intros Ht Ha. unfold Raw_silent, Raw. destruct found; [|done]. rewrite wait_args. cbn [negb].
  destruct (exec _ w) as [w1 [out [e|]]] eqn:E; [done|]. intros H. split; [done|].
  eapply exec_add in E; [|done|done]. destruct (String.eqb _ ""); [|done]. by injection H as <-.
Qed.

Lemma Raw_silent_delete what tbl chain spec w :
  found = true -> tbl = [] \/ tbl = ["-t"; "nat"] -> rule tbl chain spec ∈ rules w ->
  exists w', Raw_silent exec found supportsXlock what (tbl ++ "-D" :: chain :: spec) w = (w', Ok ()) /\
    rules w' = rules w ∖ {[+ rule tbl chain spec +]}.
Proof.
  intros -> Ht Hin. unfold Raw_silent, Raw. rewrite wait_args. cbn [negb].
  destruct (exec_delete tbl chain spec w Ht Hin) as (w'&->&Hw'). exists w'. split; [done|done].
Qed.

(** The two rules that [Forward] installs. *)
Definition forward_rules (c : Chain) (ip : IP) (port : Z) (proto dest_addr : string) (dest_port : Z) :
    gmultiset (list string) :=
  {[+ rule ["-t"; "nat"] (Name c) (drop 4 (forward_nat_args c "" ip port proto dest_addr dest_port)) +]} ⊎
  {[+ rule [] "FORWARD" (drop 2 (forward_filter_args c "" proto dest_addr dest_port)) +]}.

Lemma Forward_add c ip port proto da dp w w' :
  Forward exec found supportsXlock c AddRule ip port proto da dp w = (w', Ok ()) ->
  found = true /\ rules w' = rules w ⊎ forward_rules c ip port proto da dp.
Proof.
  unfold Forward. destruct (Raw_silent _ _ _ _ _ w) as [w1 [[]|e]] eqn:E1; [|done]. intros E2.
  eapply (Raw_silent_add _ ["-t"; "nat"] "-A") in E1 as [Hf E1]; [|by right|by left].
  eapply (Raw_silent_add _ [] "-I") in E2 as [_ E2]; [|by left|by right].
  split; [done|]. rewrite E2, E1. unfold forward_rules. cbn [drop forward_nat_args forward_filter_args].
  multiset_solver.
Qed.

Lemma Forward_delete c ip port proto da dp w :
  found = true -> forward_rules c ip port proto da dp ⊆ rules w ->
  exists w', Forward exec found supportsXlock c DeleteRule ip port proto da dp w = (w', Ok ()) /\
    rules w' = rules w ∖ forward_rules c ip port proto da dp.
Proof.
  intros Hf Hin. unfold Forward, forward_rules in *. cbn [action_string].
  destruct (Raw_silent_delete "Error iptables forward: " ["-t"; "nat"] (Name c)
    (drop 4 (forward_nat_args c "" ip port proto da dp)) w Hf) as (w1&E1&H1); [by right|multiset_solver|].
  change (["-t"; "nat"] ++ "-D" :: Name c :: drop 4 (forward_nat_args c "" ip port proto da dp))
    with (forward_nat_args c "-D" ip port proto da dp) in E1. rewrite E1.
  destruct (Raw_silent_delete "Error iptables forward: " [] "FORWARD"
    (drop 2 (forward_filter_args c "" proto da dp)) w1 Hf) as (w2&E2&H2).
  - by left.
  - rewrite H1. multiset_solver.
  - change ([] ++ "-D" :: "FORWARD" :: drop 2 (forward_filter_args c "" proto da dp))
      with (forward_filter_args c "-D" proto da dp) in E2. rewrite E2. exists w2. split; [done|].
    rewrite H2, H1. multiset_solver.
Qed.
End Laws.

(** ** A concrete iptables, for the witnesses *)

Definition toy_exec (args : list string) (w : gmultiset (list string)) :
    gmultiset (list string) * (string * option string) :=
  let '(tbl, rest) := match args with
                      | "-t" :: "nat" :: rest => (["-t"; "nat"], rest)
                      | _ => ([], args)
                      end in
  match rest with
  | a :: chain :: spec =>
      if String.eqb a "-A" || String.eqb a "-I" then (w ⊎ {[+ rule tbl chain spec +]}, ("", None))
      else if String.eqb a "-D" && bool_decide (rule tbl chain spec ∈ w) then
        (w ∖ {[+ rule tbl chain spec +]}, ("", None))
      else (w, ("", Some "exit status 1"))
  | _ => (w, ("", Some "exit status 2"))
  end.

#[export] Instance toy_laws : IptablesLaws toy_exec false id.
Proof.
  split.
  - intros tbl a chain spec w w' out [->| ->] [->| ->]; simpl; by intros [= <- <-].
  - intros tbl chain spec w [->| ->] Hin; unfold toy_exec; simpl; rewrite bool_decide_eq_true_2 by done; eauto.
  - intros args w w' out e. unfold toy_exec.
    destruct (match args with "-t" :: "nat" :: rest => _ | _ => _ end) as [tbl rest].
    destruct rest as [|a [|chain spec]]; [by intros [= <-]..|].
    destruct (_ || _); [done|]. destruct (_ && _); [done|]. by intros [= <-].
Qed.
