(* ===== verification/PortMapper.v ===== *)
(** * daemon/networkdriver/portmapper: published ports

    Mapping a port takes it from the pool of Ports.v, installs the rules of
    Iptables.v, records the mapping and starts a proxy process; the four are
    the fields of [Mapper].  Whether the proxy starts is an argument. *)

From stdpp Require Import base gmap gmultiset list strings.
From Stdlib Require Import ZArith Lia.
From S2P Require Import Prelude GoStrings GoNet Ports Iptables.

Local Open Scope Z_scope.

(** [net.Addr] *)
Inductive Addr :=
| TCPAddr (ip : IP) (port : Z)
| UDPAddr (ip : IP) (port : Z)
| OtherAddr.

(** The arguments of [NewProxy]. *)
Record UserlandProxy := { px_proto : string; px_hostIP : IP; px_hostPort : Z; px_containerIP : IP; px_containerPort : Z }.

#[export] Instance proxy_eq_dec : EqDecision UserlandProxy.
Proof. solve_decision. Defined.

Record mapping := { proto : string; userlandProxy : UserlandProxy; host : Addr; container : Addr }.

(** An error of the port allocator keeps its Go type: a caller looks for it. *)
Inductive map_error := ErrAlloc (e : alloc_error) | ErrText (s : string).

Definition map_error_Error (e : map_error) : string :=
  match e with ErrAlloc e => alloc_error_Error e | ErrText s => s end.

Definition ErrUnknownBackendAddressType : map_error := ErrText "unknown container address type not supported".
Definition ErrPortMappedForIP : map_error := ErrText "port is already mapped to ip".
Definition ErrPortNotMapped : map_error := ErrText "port is not mapped".

Record Mapper (W : Type) := {
  globalMap : ipMapping;
  currentMappings : gmap string mapping;
  proxies : list UserlandProxy; (* the processes that run *)
  kernel : W }.
Arguments globalMap {W} _.
Arguments currentMappings {W} _.
Arguments proxies {W} _.
Arguments kernel {W} _.

Definition getKey (a : Addr) : string :=
  match a with
  | TCPAddr ip port => IP_String ip +:+ ":" +:+ itoa port +:+ "/" +:+ "tcp"
  | UDPAddr ip port => IP_String ip +:+ ":" +:+ itoa port +:+ "/" +:+ "udp"
  | OtherAddr => ""
  end.

Definition getIPAndPort (a : Addr) : IP * Z :=
  match a with TCPAddr ip port | UDPAddr ip port => (ip, port) | OtherAddr => ([], 0) end.

(** A nil [net.IP]. *)
Definition ip_arg (ip : IP) : option IP := match ip with [] => None | _ => Some ip end.

Fixpoint remove_one (x : UserlandProxy) (l : list UserlandProxy) : list UserlandProxy :=
  match l with
  | [] => []
  | y :: l => if decide (x = y) then l else y :: remove_one x l
  end.

Section Mapper.
Context {W : Type}.
Context (exec : list string -> W -> W * (string * option string)) (found supportsXlock : bool).
(** The package variable [chain]. *)
Context (chain : option Chain).

Definition with_pool (s : Mapper W) g : Mapper W :=
  {| globalMap := g; currentMappings := currentMappings s; proxies := proxies s; kernel := kernel s |}.
Definition with_mappings (s : Mapper W) m : Mapper W :=
  {| globalMap := globalMap s; currentMappings := m; proxies := proxies s; kernel := kernel s |}.
Definition with_proxies (s : Mapper W) l : Mapper W :=
  {| globalMap := globalMap s; currentMappings := currentMappings s; proxies := l; kernel := kernel s |}.
Definition with_kernel (s : Mapper W) w : Mapper W :=
  {| globalMap := globalMap s; currentMappings := currentMappings s; proxies := proxies s; kernel := w |}.

Definition forward (action : Action) (proto : string) (sourceIP : IP) (sourcePort : Z) (containerIP : string)
    (containerPort : Z) (w : W) : W * result string () :=
  match chain with
  | None => (w, Ok ())
  | Some c => Forward exec found supportsXlock c action sourceIP sourcePort proto containerIP containerPort w
  end.

(** The type switch of [Map]: the protocol, and how to build the host address. *)
Definition addr_proto (a : Addr) : option (string * (IP -> Z -> Addr)) :=
  match a with
  | TCPAddr _ _ => Some ("tcp", TCPAddr)
  | UDPAddr _ _ => Some ("udp", UDPAddr)
  | OtherAddr => None
  end.

(** The part of [Map] after the port is allocated. *)
Definition Map_allocated (start_err : option string) (m : mapping) (hostIP : IP) (allocatedHostPort : Z)
    (s : Mapper W) : Mapper W * result map_error Addr :=
  let key := getKey (host m) in
  match currentMappings s !! key with
  | Some _ => (s, Err ErrPortMappedForIP)
  | None =>
      let '(containerIP, containerPort) := getIPAndPort (container m) in
      let '(w, r) := forward AddRule (proto m) hostIP allocatedHostPort (IP_String containerIP) containerPort (kernel s) in
      let s := with_kernel s w in
      match r with
      | Err e => (s, Err (ErrText e))
      | Ok _ =>
          let s := with_mappings s (<[key := m]> (currentMappings s)) in
          match start_err with
          | Some e =>
              let '(w, _) := forward DeleteRule (proto m) hostIP allocatedHostPort (IP_String containerIP) containerPort (kernel s) in
              (with_kernel s w, Err (ErrText e))
          | None => (with_proxies s (userlandProxy m :: proxies s), Ok (host m))
          end
      end
  end.

(** [Map]; the deferred function releases the port on any later error. *)
Definition Map (start_err : option string) (container : Addr) (hostIP : IP) (hostPort : Z) (s : Mapper W) :
    outcome (Mapper W * result map_error Addr) :=
  match addr_proto container with
  | None => Return (s, Err ErrUnknownBackendAddressType)
  | Some (proto, mk) =>
      '(g, r) ← RequestPort findPort_fuel (ip_arg hostIP) proto hostPort (globalMap s);
      let s := with_pool s g in
      match r with
      | Err e => Return (s, Err (ErrAlloc e))
      | Ok allocatedHostPort =>
          let '(containerIP, containerPort) := getIPAndPort container in
          let m := {| proto := proto; host := mk hostIP allocatedHostPort; container := container;
                      userlandProxy := {| px_proto := proto; px_hostIP := hostIP; px_hostPort := allocatedHostPort;
                                          px_containerIP := containerIP; px_containerPort := containerPort |} |} in
          let '(s, r) := Map_allocated start_err m hostIP allocatedHostPort s in
          match r with
          | Ok _ => Return (s, r)
          | Err _ =>
              '(g, _) ← ReleasePort (ip_arg hostIP) proto allocatedHostPort (globalMap s);
              Return (with_pool s g, r)
          end
      end
  end.

Definition Unmap (a : Addr) (s : Mapper W) : outcome (Mapper W * result map_error ()) :=
  let key := getKey a in
  match currentMappings s !! key with
  | None => Return (s, Err ErrPortNotMapped)
  | Some data =>
      let s := with_proxies s (remove_one (userlandProxy data) (proxies s)) in
      let s := with_mappings s (delete key (currentMappings s)) in
      let '(containerIP, containerPort) := getIPAndPort (container data) in
      let '(hostIP, hostPort) := getIPAndPort (host data) in
      let '(w, r) := forward DeleteRule (proto data) hostIP hostPort (IP_String containerIP) containerPort (kernel s) in
      let s := with_kernel s w in
      match r with
      | Err e => Return (s, Err (ErrText e))
      | Ok _ =>
          match addr_proto a with
          | Some (proto, _) =>
              let '(ip, port) := getIPAndPort a in
              '(g, r) ← ReleasePort (ip_arg ip) proto port (globalMap s);
              Return (with_pool s g, match r with Ok _ => Ok () | Err e => Err (ErrAlloc e) end)
          | None => Return (s, Ok ())
          end
      end
  end.

Context (rules : W -> gmultiset (list string)) `{!IptablesLaws exec supportsXlock rules}.

(** The rules of a mapping. *)
Definition mapping_rules (proto : string) (hostIP : IP) (port : Z) (c : Addr) : gmultiset (list string) :=
  match chain with
  | None => ∅
  | Some ch => forward_rules ch hostIP port proto (IP_String (getIPAndPort c).1) (getIPAndPort c).2
  end.

Lemma forward_add proto hostIP port c w w' :
  forward AddRule proto hostIP port (IP_String (getIPAndPort c).1) (getIPAndPort c).2 w = (w', Ok ()) ->
  (chain = None \/ found = true) /\ rules w' = rules w ⊎ mapping_rules proto hostIP port c.
Proof.
  unfold forward, mapping_rules. destruct chain as [ch|].
  - intros H. eapply Forward_add in H as [Hf H]; [|done]. split; [by right|done].
  - intros [= <-]. split; [by left|]. multiset_solver.
Qed.

Lemma forward_delete proto hostIP port c w :
  chain = None \/ found = true -> mapping_rules proto hostIP port c ⊆ rules w ->
  exists w', forward DeleteRule proto hostIP port (IP_String (getIPAndPort c).1) (getIPAndPort c).2 w = (w', Ok ()) /\
    rules w' = rules w ∖ mapping_rules proto hostIP port c.
Proof.
  unfold forward, mapping_rules. destruct chain as [ch|]; intros Hf Hin.
  - destruct Hf as [|Hf]; [done|]. by apply Forward_delete.
  - exists w. split; [done|]. multiset_solver.
Qed.

(** [Map] up to the port request. *)
Lemma Map_inv start_err c hostIP port s s1 r pr mk :
  addr_proto c = Some (pr, mk) -> Map start_err c hostIP port s = Return (s1, r) ->
  (exists g e, RequestPort findPort_fuel (ip_arg hostIP) pr port (globalMap s) = Return (g, Err e) /\
     s1 = with_pool s g /\ r = Err (ErrAlloc e)) \/
  (exists g q, RequestPort findPort_fuel (ip_arg hostIP) pr port (globalMap s) = Return (g, Ok q) /\
     let m := {| proto := pr; host := mk hostIP q; container := c;
                 userlandProxy := {| px_proto := pr; px_hostIP := hostIP; px_hostPort := q;
                                     px_containerIP := (getIPAndPort c).1; px_containerPort := (getIPAndPort c).2 |} |} in
     exists s2, Map_allocated start_err m hostIP q (with_pool s g) = (s2, r) /\
     match r with
     | Ok _ => s1 = s2
     | Err _ => exists g' r', ReleasePort (ip_arg hostIP) pr q (globalMap s2) = Return (g', r') /\ s1 = with_pool s2 g'
     end).
Proof.
  intros Ha. unfold Map. rewrite Ha.
  destruct (RequestPort _ _ _ _ _) as [[g [q|e]]| |]; [|cbn; intros [= <- <-]; left; by eauto|done|done].
  cbn [mbind outcome_bind]. destruct (getIPAndPort c) as [cip cport]. cbn [fst snd].
  destruct (Map_allocated _ _ _ _ _) as [s2 [x|e]] eqn:E; intros H; right; exists g, q; (split; [done|]); exists s2.
  - simplify_eq. by rewrite E.
  - destruct (ReleasePort _ _ _ _) as [[g' r']| |] eqn:E'; simpl in H; simplify_eq. rewrite E. eauto 10.
Qed.

Lemma addr_getIPAndPort c pr mk ip q : addr_proto c = Some (pr, mk) ->
  getIPAndPort (mk ip q) = (ip, q) /\ (exists mk', addr_proto (mk ip q) = Some (pr, mk')) /\ (pr = "tcp" \/ pr = "udp").
Proof. destruct c; simpl; intros [= <- <-]; simpl; eauto 10. Qed.

Lemma remove_one_cons x l : remove_one x (x :: l) = l.
Proof. simpl. by rewrite decide_True. Qed.

(** The effect of the part after the port is allocated. *)
Lemma Map_allocated_ok m hostIP q s s2 a :
  Map_allocated None m hostIP q s = (s2, Ok a) ->
  a = host m /\ currentMappings s !! getKey (host m) = None /\ globalMap s2 = globalMap s /\
  currentMappings s2 = <[getKey (host m) := m]> (currentMappings s) /\
  proxies s2 = userlandProxy m :: proxies s /\ (chain = None \/ found = true) /\
  rules (kernel s2) = rules (kernel s) ⊎ mapping_rules (proto m) hostIP q (container m).
Proof.
  unfold Map_allocated. destruct (currentMappings s !! _) eqn:Ek; [done|].
  pose proof (forward_add (proto m) hostIP q (container m) (kernel s)) as Hf.
  destruct (getIPAndPort (container m)) as [cip cport]. cbn [fst snd] in Hf.
  destruct (forward _ _ _ _ _ _ _) as [w [[]|e]]; [|done]. intros [= <- <-]. simpl.
  destruct (Hf w eq_refl) as [H1 H2]. by split_and!.
Qed.
End Mapper.

(** The two pools have the same allocated ports. *)
Definition same_ports (g g' : ipMapping) : Prop := forall s proto, allocated g s proto = allocated g' s proto.

(** ** Properties *)

Section Properties.
Context {W : Type} (exec : list string -> W -> W * (string * option string)) (found supportsXlock : bool).
Context (chain : option Chain) (rules : W -> gmultiset (list string)) `{!IptablesLaws exec supportsXlock rules}.

Lemma Map_Unmap_effect c hostIP port (s s1 : Mapper W) a :
  pool_wf (globalMap s) ->
  Map exec found supportsXlock chain None c hostIP port s = Return (s1, Ok a) ->
  exists pr mk q, addr_proto c = Some (pr, mk) /\ a = mk hostIP q /\
    currentMappings s !! getKey a = None /\ is_Some (currentMappings s1 !! getKey a) /\
    rules (kernel s1) = rules (kernel s) ⊎ mapping_rules chain pr hostIP q c /\
    q ∈ allocated (globalMap s1) (ipstr (ip_arg hostIP)) pr /\
    exists s2, Unmap exec found supportsXlock chain a s1 = Return (s2, Ok ()) /\
      currentMappings s2 = currentMappings s /\ proxies s2 = proxies s /\
      rules (kernel s2) = rules (kernel s) /\
      ((q ∉ allocated (globalMap s) (ipstr (ip_arg hostIP)) pr) -> same_ports (globalMap s2) (globalMap s)).
Proof.
  intros Hg H. destruct (addr_proto c) as [[pr mk]|] eqn:Hc; [|unfold Map in H; by rewrite Hc in H].
  destruct (Map_inv _ _ _ _ _ _ _ _ _ _ _ _ _ Hc H) as [(g&e&_&_&[=])|(g&q&Hreq&s2&Hm&<-)].
  destruct (request_effect _ _ _ _ _ _ Hg Hreq) as [Hg1 Hall1].
  eapply Map_allocated_ok in Hm as (->&Hk&Hgm&Hcm&Hpx&Hf&Hr); [|done]. cbn in Hk, Hgm, Hcm, Hpx, Hr |- *.
  exists pr, mk, q. destruct (addr_getIPAndPort c pr mk hostIP q Hc) as (Hip&(mk'&Hap)&Hpr).
  split_and!; try done.
  { by rewrite Hcm, lookup_insert_eq. }
  { rewrite Hgm, Hall1, decide_True by done. set_solver. }
  destruct (release_effect g (ip_arg hostIP) pr q Hg1 Hpr) as (g'&Hrel&_&Hall2).
  unfold Unmap. rewrite Hcm, lookup_insert_eq. cbn [container host proto].
  destruct (forward_delete exec found supportsXlock chain rules pr hostIP q c (kernel s1) Hf) as (w&Hfd&Hw).
  { rewrite Hr. multiset_solver. }
  destruct (getIPAndPort c) as [cip cport] eqn:Hcip. cbn [fst snd] in Hfd. rewrite Hip.
  cbn [with_mappings with_proxies kernel globalMap]. rewrite Hfd. rewrite Hap. cbn [with_kernel with_mappings with_proxies globalMap].
  rewrite Hgm, Hrel. cbn. eexists. split; [done|]. cbn. split_and!.
  - rewrite ?Hcm. by apply delete_insert_id.
  - rewrite Hpx. apply remove_one_cons.
  - rewrite Hw, Hr. multiset_solver.
  - intros Hfree i pr'. rewrite Hall2, Hall1. destruct (decide _) as [[-> ->]|]; [|done]. set_solver.
Qed.

(** Publishing a port and unpublishing it: a [Map] that succeeds returns a
    host address whose key was not mapped, records it, starts one proxy, adds
    the two iptables rules of the mapping and takes the port it names; and an
    [Unmap] of that address then succeeds and restores the mappings, the
    proxies, the rules and (when the port was free before) the port pool. *)
Theorem Map_Unmap c hostIP port (s s1 : Mapper W) a :
  pool_wf (globalMap s) ->
  Map exec found supportsXlock chain None c hostIP port s = Return (s1, Ok a) ->
  exists pr mk q, addr_proto c = Some (pr, mk) /\ a = mk hostIP q /\
    currentMappings s !! getKey a = None /\ is_Some (currentMappings s1 !! getKey a) /\
    rules (kernel s1) = rules (kernel s) ⊎ mapping_rules chain pr hostIP q c /\
    q ∈ allocated (globalMap s1) (ipstr (ip_arg hostIP)) pr /\
    exists s2, Unmap exec found supportsXlock chain a s1 = Return (s2, Ok ()) /\
      currentMappings s2 = currentMappings s /\ proxies s2 = proxies s /\
      rules (kernel s2) = rules (kernel s) /\
      ((q ∉ allocated (globalMap s) (ipstr (ip_arg hostIP)) pr) -> same_ports (globalMap s2) (globalMap s)).
Proof. intros Hg H. by apply (Map_Unmap_effect c hostIP port). Qed.

Lemma Map_allocated_taken start_err m hostIP q (s : Mapper W) :
  is_Some (currentMappings s !! getKey (host m)) ->
  Map_allocated exec found supportsXlock chain start_err m hostIP q s = (s, Err ErrPortMappedForIP).
Proof. intros [x Hx]. unfold Map_allocated. by rewrite Hx. Qed.

(** A port that the pool hands out although its key is mapped: the call fails
    and gives the port back. *)
Lemma Map_taken start_err c hostIP port (s : Mapper W) pr mk g q :
  pool_wf (globalMap s) -> addr_proto c = Some (pr, mk) ->
  RequestPort findPort_fuel (ip_arg hostIP) pr port (globalMap s) = Return (g, Ok q) ->
  is_Some (currentMappings s !! getKey (mk hostIP q)) ->
  exists s1, Map exec found supportsXlock chain start_err c hostIP port s = Return (s1, Err ErrPortMappedForIP) /\
    currentMappings s1 = currentMappings s /\ proxies s1 = proxies s /\ kernel s1 = kernel s /\
    forall i p', allocated (globalMap s1) i p' =
      if decide (i = ipstr (ip_arg hostIP) /\ p' = pr) then allocated (globalMap s) i p' ∖ {[q]}
      else allocated (globalMap s) i p'.
Proof.
  intros Hg Hc Hreq Hk. destruct (request_effect _ _ _ _ _ _ Hg Hreq) as [Hg1 Hall1].
  destruct (addr_getIPAndPort c pr mk hostIP q Hc) as (_&_&Hpr).
  destruct (release_effect g (ip_arg hostIP) pr q Hg1 Hpr) as (g'&Hrel&_&Hall2).
  unfold Map. rewrite Hc, Hreq. cbn [mbind outcome_bind]. destruct (getIPAndPort c) as [cip cport].
  rewrite Map_allocated_taken by done. cbn [with_pool globalMap]. rewrite Hrel. cbn.
  eexists. split; [done|]. split_and!; try done. intros i p'. cbn. rewrite Hall2, Hall1.
  destruct (decide _); [set_solver|done].
Qed.

(** What a failed [Map] leaves behind.  When the proxy does not start, the
    rules, proxies and ports are as before but the mapping stays recorded, so
    that every later request for that free port fails as "already mapped".
    And a first automatic request on an address whose port 49153 is published
    fails, and gives the published port back to the pool. *)
Theorem Map_failures c hostIP q (s : Mapper W) pr mk e :
  pool_wf (globalMap s) -> addr_proto c = Some (pr, mk) ->
  (forall s0 a, 0 < q -> (q ∉ allocated (globalMap s) (ipstr (ip_arg hostIP)) pr) ->
    Map exec found supportsXlock chain None c hostIP q s = Return (s0, Ok a) ->
    exists s1, Map exec found supportsXlock chain (Some e) c hostIP q s = Return (s1, Err (ErrText e)) /\
      same_ports (globalMap s1) (globalMap s) /\ proxies s1 = proxies s /\
      rules (kernel s1) = rules (kernel s) /\
      forall start_err, exists s2,
        Map exec found supportsXlock chain start_err c hostIP q s1 = Return (s2, Err ErrPortMappedForIP)) /\
  (last_of (globalMap s) (ipstr (ip_arg hostIP)) pr = 0 ->
   is_Some (currentMappings s !! getKey (mk hostIP BeginPortRange)) ->
   exists s1, Map exec found supportsXlock chain None c hostIP 0 s = Return (s1, Err ErrPortMappedForIP) /\
     currentMappings s1 = currentMappings s /\
     (BeginPortRange ∉ allocated (globalMap s1) (ipstr (ip_arg hostIP)) pr)).
Proof.
  intros Hg Hc. split.
  - intros s0 a Hq Hfree Hok.
    destruct (addr_getIPAndPort c pr mk hostIP q Hc) as (Hip&_&Hpr).
    destruct (request_explicit (globalMap s) (ip_arg hostIP) pr q Hg Hpr Hq Hfree) as (g&Hreq).
    destruct (request_effect _ _ _ _ _ _ Hg Hreq) as [Hg1 Hall1].
    destruct (release_effect g (ip_arg hostIP) pr q Hg1 Hpr) as (g'&Hrel&Hg2&Hall2).
    assert (same_ports g' (globalMap s)) as Hsame.
    { intros i p'. rewrite Hall2, Hall1. destruct (decide _) as [[-> ->]|]; [set_solver|done]. }
    assert (forall s1 : Mapper W, pool_wf (globalMap s1) -> same_ports (globalMap s1) (globalMap s) ->
      is_Some (currentMappings s1 !! getKey (mk hostIP q)) -> forall start_err, exists s2,
      Map exec found supportsXlock chain start_err c hostIP q s1 = Return (s2, Err ErrPortMappedForIP)) as Hagain.
    { intros s1 Hw1 Hsp Hk start_err.
      destruct (request_explicit (globalMap s1) (ip_arg hostIP) pr q Hw1 Hpr Hq) as (g3&Hreq3); [by rewrite Hsp|].
      destruct (Map_taken start_err c hostIP q s1 pr mk g3 q Hw1 Hc Hreq3 Hk) as (s2&E2&_). eauto. }
    unfold Map in Hok |- * at 1. rewrite Hc, Hreq in Hok |- *. cbn [mbind outcome_bind] in Hok |- *.
    pose proof (forward_add exec found supportsXlock chain rules pr hostIP q c (kernel s)) as Hadd.
    pose proof (fun w => forward_delete exec found supportsXlock chain rules pr hostIP q c w) as Hdel.
    destruct (getIPAndPort c) as [cip cport] eqn:Hcip. cbn [fst snd] in Hadd, Hdel.
    unfold Map_allocated in Hok |- *. cbn [host proto container with_pool currentMappings kernel] in Hok |- *.
    destruct (currentMappings s !! _) eqn:Ek; [by cbn in Hok; destruct (ReleasePort _ _ _ _) as [[? ?]| |]|].
    rewrite Hcip in Hok |- *.
    destruct (forward _ _ _ _ AddRule _ _ _ _ _ _) as [w [[]|x]]; [|by cbn in Hok; destruct (ReleasePort _ _ _ _) as [[? ?]| |]].
    destruct (Hadd w eq_refl) as [Hf Hw]. destruct (Hdel w Hf) as (w'&Hd&Hw'); [rewrite Hw; multiset_solver|].
    cbn [with_kernel with_mappings kernel]. rewrite Hd. cbn [with_kernel with_mappings globalMap]. cbn. rewrite Hrel.
    cbn. eexists. split; [done|]. split_and!; try done.
    + cbn. rewrite Hw', Hw. multiset_solver.
    + apply Hagain; [done|done|]. cbn. rewrite lookup_insert_eq. by eauto.
  - intros Hl Hk. destruct (addr_getIPAndPort c pr mk hostIP BeginPortRange Hc) as (Hip&_&Hpr).
    destruct (request_first (globalMap s) (ip_arg hostIP) pr 0 Hg Hpr ltac:(lia) Hl) as (g&Hreq).
    destruct (Map_taken None c hostIP 0 s pr mk g _ Hg Hc Hreq Hk) as (s1&E&Hm&_&_&Hall).
    exists s1. split_and!; try done. rewrite Hall, decide_True by done. set_solver.
Qed.
End Properties.

(** A fresh mapper on an empty rule list. *)
Definition fresh_mapper : Mapper (gmultiset (list string)) :=
  {| globalMap := ∅; currentMappings := ∅; proxies := []; kernel := ∅ |}.
Definition docker_chain : Chain := {| Name := "DOCKER"; Bridge := "docker0" |}.

Lemma Map_Unmap_witness :
  exists s1 s2 a,
    Map toy_exec true false (Some docker_chain) None (TCPAddr (IPv4 172 17 0 2) 80) (IPv4 192 168 0 7) 8080 fresh_mapper
      = Return (s1, Ok a) /\ Unmap toy_exec true false (Some docker_chain) a s1 = Return (s2, Ok ()) /\
    kernel s2 = ∅ /\ currentMappings s2 = ∅.
Proof.
  eassert (Map toy_exec true false (Some docker_chain) None (TCPAddr (IPv4 172 17 0 2) 80) (IPv4 192 168 0 7) 8080 fresh_mapper
    = Return (_, Ok _)) as E by reflexivity.
  destruct (Map_Unmap toy_exec true false (Some docker_chain) id (TCPAddr (IPv4 172 17 0 2) 80) (IPv4 192 168 0 7) 8080
    fresh_mapper _ _ (map_Forall_empty _) E) as (pr&mk&q&_&_&_&_&_&_&s2&E2&H1&_&H3&_).
  eexists _, s2, _. split; [exact E|]. split; [exact E2|]. split; [exact H3|exact H1].
Defined.

Lemma Map_failures_witness :
  exists s1, Map toy_exec true false None (Some "fork failed") (TCPAddr (IPv4 172 17 0 2) 80) (IPv4 192 168 0 7) 8080 fresh_mapper
      = Return (s1, Err (ErrText "fork failed")) /\
    forall start_err, exists s2,
      Map toy_exec true false None start_err (TCPAddr (IPv4 172 17 0 2) 80) (IPv4 192 168 0 7) 8080 s1
        = Return (s2, Err ErrPortMappedForIP).
Proof.
  eassert (Map toy_exec true false None None (TCPAddr (IPv4 172 17 0 2) 80) (IPv4 192 168 0 7) 8080 fresh_mapper
    = Return (_, Ok _)) as E by reflexivity.
  destruct (proj1 (Map_failures toy_exec true false None id (TCPAddr (IPv4 172 17 0 2) 80) (IPv4 192 168 0 7) 8080
    fresh_mapper "tcp" TCPAddr "fork failed" (map_Forall_empty _) eq_refl) _ _ ltac:(lia)
    ltac:(apply not_elem_of_empty) E) as (s1&E1&_&_&_&H).
  exists s1. split; [exact E1|exact H].
Defined.
