(* ===== verification/Events.v ===== *)
(** * events/: the event log and its subscribers

    The log keeps the last 64 events in a slice of fixed capacity; a new event
    shifts it by [copy].  A subscriber is a channel; delivering an event gives
    each subscriber a bounded time, so whether it receives is an argument, and
    what it received is kept in [received].  Sending on a channel that was
    closed is a panic. *)

From stdpp Require Import base gmap sets list strings.
From Stdlib Require Import ZArith Lia.
From S2P Require Import Prelude GoStrings.

Local Open Scope Z_scope.

Definition eventsLimit : nat := 64.

(** [utils.JSONMessage], the fields an event has *)
Record JSONMessage := { Status : string; ID : string; From : string; Time : Z }.

Record Events := {
  events : list JSONMessage;
  subscribers : list nat;
  closed : gset nat;
  received : gmap nat (list JSONMessage) }.

Definition New : Events := {| events := []; subscribers := []; closed := ∅; received := ∅ |}.

(** Go's [copy(dst, src)] on slices of one array starts with [src]'s elements. *)
Definition copy {A} (dst src : list A) : list A :=
  take (min (length dst) (length src)) src ++ drop (min (length dst) (length src)) dst.

(** The slice part of [Events.log]. *)
Definition store_event (jm : JSONMessage) (l : list JSONMessage) : list JSONMessage :=
  if Nat.eqb (length l) eventsLimit then
    let l := copy l (drop 1 l) in <[(length l - 1)%nat := jm]> l
  else l ++ [jm].

(** Sending to each subscriber in turn; [ready] says which ones receive in
    time.  A closed channel makes [send] panic. *)
Fixpoint deliver (ready : nat -> bool) (jm : JSONMessage) (l : list nat) (e : Events) : outcome Events :=
  match l with
  | [] => Return e
  | s :: l =>
      if decide (s ∈ closed e) then Panic
      else
        let e := if ready s then
                   {| events := events e; subscribers := subscribers e; closed := closed e;
                      received := <[s := default [] (received e !! s) ++ [jm]]> (received e) |}
                 else e in
        deliver ready jm l e
  end.

Definition log (now : Z) (ready : nat -> bool) (action id from : string) (e : Events) : outcome Events :=
  let jm := {| Status := action; ID := id; From := from; Time := now |} in
  let e := {| events := store_event jm (events e); subscribers := subscribers e; closed := closed e;
              received := received e |} in
  deliver ready jm (subscribers e) e.

Definition subscribe (l : nat) (e : Events) : Events :=
  {| events := events e; subscribers := subscribers e ++ [l]; closed := closed e; received := received e |}.

(** The loop of [unsubscribe]: the position of the listener. *)
Fixpoint find_listener (i : nat) (l : nat) (subs : list nat) : option nat :=
  match subs with
  | [] => None
  | s :: subs => if Nat.eqb s l then Some i else find_listener (S i) l subs
  end.

Definition unsubscribe (l : nat) (e : Events) : outcome (Events * bool) :=
  match find_listener 0 l (subscribers e) with
  | Some i =>
      if decide (l ∈ closed e) then Panic
      else Return
        ({| events := events e; subscribers := take i (subscribers e) ++ drop (i + 1) (subscribers e);
            closed := {[l]} ∪ closed e; received := received e |}, true)
  | None => Return (e, false)
  end.

Definition subscribersCount (e : Events) : Z := Z.of_nat (length (subscribers e)).

(** [writeEvent] on a writer of JSON messages that accepts [room] more. *)
Definition writeEvent (room : nat) (out : list JSONMessage) (event : JSONMessage) : result string (list JSONMessage) :=
  if (length out <? room)%nat then Ok (out ++ [event]) else Err "write error".

(** [writeCurrent]: the stored events of an interval, until a write fails. *)
Definition writeCurrent (room : nat) (since until : Z) (e : Events) (out : list JSONMessage) :
    result string (list JSONMessage) :=
  result_foldl (fun out event =>
      if (since <=? Time event) && ((Time event <=? until) || (until =? 0))
      then writeEvent room out event else Ok out)
    out (events e).

(** What the [events] job writes before it follows its listener. *)
Definition Get_start (l room : nat) (since until : Z) (e : Events) : Events * result string (list JSONMessage) :=
  let e := subscribe l e in
  (e, if negb (since =? 0) then writeCurrent room since until e [] else Ok []).

(** The calls of [log] that were started and have not run. *)
Definition goroutine : Type := string * string * string.

(** [Log], the job: three arguments or an error.  It answers at once, and the
    call of [log] it starts runs on its own. *)
Definition Log (args : list string) (waiting : list goroutine) : list goroutine * result string () :=
  match args with
  | [action; id; from] => (waiting ++ [(action, id, from)], Ok ())
  | _ => (waiting, Err "usage: log ACTION ID FROM")
  end.

(** ** Runs *)

Inductive ev_op :=
| ELog (now : Z) (ready : nat -> bool) (action id from : string)
| ESubscribe (l : nat)
| EUnsubscribe (l : nat).

Definition ev_step (o : ev_op) (e : Events) : outcome Events :=
  match o with
  | ELog now ready action id from => log now ready action id from e
  | ESubscribe l => Return (subscribe l e)
  | EUnsubscribe l => fst <$> unsubscribe l e
  end.

Fixpoint ev_run (ops : list ev_op) (e : Events) : outcome Events :=
  match ops with [] => Return e | o :: ops => e ← ev_step o e; ev_run ops e end.

(** The events logged by a run, oldest first. *)
Definition logged (ops : list ev_op) : list JSONMessage :=
  omap (fun o => match o with
                 | ELog now _ action id from => Some {| Status := action; ID := id; From := from; Time := now |}
                 | _ => None end) ops.

(** The events logged while a listener is subscribed and ready. *)
Fixpoint heard (l : nat) (on : bool) (ops : list ev_op) : list JSONMessage :=
  match ops with
  | [] => []
  | ELog now ready action id from :: ops =>
      (if on && ready l then [{| Status := action; ID := id; From := from; Time := now |}] else []) ++ heard l on ops
  | ESubscribe l' :: ops => heard l (on || Nat.eqb l' l) ops
  | EUnsubscribe l' :: ops => heard l (on && negb (Nat.eqb l' l)) ops
  end.

(** Every listener is subscribed at most once in its life (each call of the
    [events] job makes its own channel). *)
Definition subscriptions (ops : list ev_op) : list nat :=
  omap (fun o => match o with ESubscribe l => Some l | _ => None end) ops.

(** Jobs and goroutines interleaved: a job adds a goroutine, any goroutine may
    run next, and listeners come and go.  The list is what ran, in its order. *)
Inductive served : Events * list goroutine -> list ev_op -> Events * list goroutine -> Prop :=
| served_none s : served s [] s
| served_job args e ps ps' r ops s' : Log args ps = (ps', r) -> served (e, ps') ops s' -> served (e, ps) ops s'
| served_log now ready ps1 action id from ps2 e e' ops s' :
    log now ready action id from e = Return e' -> served (e', ps1 ++ ps2) ops s' -> served (e, ps1 ++ (action, id, from) :: ps2) (ELog now ready action id from :: ops) s'
| served_subscribe l e ps ops s' : served (subscribe l e, ps) ops s' -> served (e, ps) (ESubscribe l :: ops) s'
| served_unsubscribe l e e' b ps ops s' : unsubscribe l e = Return (e', b) -> served (e', ps) ops s' -> served (e, ps) (EUnsubscribe l :: ops) s'.

(** What the jobs and goroutines do is a run, in the order the goroutines run. *)
Lemma served_run s ops s' : served s ops s' -> ev_run ops s.1 = Return s'.1.
Proof.
  induction 1 as [s|args e ps ps' r ops s' E _ IH|now ready ps1 action id from ps2 e e' ops s' E _ IH|l e ps ops s' _ IH|l e e' b ps ops s' E _ IH]; cbn in *; [done|done| | |].
  - by rewrite E.
  - done.
  - by rewrite E.
Qed.

Lemma store_event_lastn jm l :
  (length l <= eventsLimit)%nat -> store_event jm l = lastn eventsLimit (l ++ [jm]).
Proof.
  intros Hl. unfold store_event, lastn. rewrite length_app. simpl length.
  destruct (Nat.eqb_spec (length l) eventsLimit) as [E|E].
  - rewrite E. replace (eventsLimit + 1 - eventsLimit)%nat with 1%nat by lia.
    destruct l as [|x l]; [done|]. cbn [length] in E. unfold copy. change (drop 1 (x :: l)) with l. cbn [length].
    rewrite !Nat.min_r by lia. rewrite take_ge by lia.
    assert (exists z, drop (length l) (x :: l) = [z]) as [z ->].
    { clear. revert x. induction l as [|y l IH]; intros x; [by exists x|]. apply (IH y). }
    rewrite length_app. simpl length. replace (length l + 1 - 1)%nat with (length l + 0)%nat by lia.
    by rewrite insert_app_r.
  - replace (length l + 1 - eventsLimit)%nat with 0%nat by lia. by rewrite drop_0.
Qed.

Lemma lastn_lastn {A} n m (l : list A) : (n <= m)%nat -> lastn n (lastn m l) = lastn n l.
Proof. intros H. unfold lastn. rewrite length_drop, drop_drop. f_equal. lia. Qed.

Lemma lastn_lastn_snoc {A} n (l : list A) x : lastn n (lastn n l ++ [x]) = lastn n (l ++ [x]).
Proof.
  destruct n as [|n]; [unfold lastn; by rewrite !drop_ge by (simpl; lia)|].
  rewrite !lastn_snoc by lia. by rewrite lastn_lastn by lia.
Qed.

Lemma lastn_lastn_app {A} n (l k : list A) : lastn n (lastn n l ++ k) = lastn n (l ++ k).
Proof.
  induction k as [|x k IH] using rev_ind; [rewrite !app_nil_r; by apply lastn_lastn|].
  rewrite !app_assoc. rewrite <- lastn_lastn_snoc, IH. apply lastn_lastn_snoc.
Qed.

Lemma lastn_length {A} n (l : list A) : (length (lastn n l) <= n)%nat.
Proof. unfold lastn. rewrite length_drop. lia. Qed.

(** ** Delivery *)

(** The listeners that are subscribed or closed have been subscribed. *)
Definition ev_wf (e : Events) : Prop :=
  NoDup (subscribers e) /\ forall l, l ∈ subscribers e -> l ∉ closed e.

Lemma deliver_spec ready jm subs e :
  NoDup subs -> (forall l, l ∈ subs -> l ∉ closed e) ->
  exists e', deliver ready jm subs e = Return e' /\ events e' = events e /\ subscribers e' = subscribers e /\
    closed e' = closed e /\
    forall l, default [] (received e' !! l) =
      default [] (received e !! l) ++ (if bool_decide (l ∈ subs) && ready l then [jm] else []).
Proof.
  revert e. induction subs as [|s subs IH]; intros e Hnd Hc; simpl.
  { exists e. split_and!; try done. intros l. by rewrite app_nil_r. }
  apply NoDup_cons in Hnd as [Hs Hnd]. rewrite decide_False by (apply Hc; by left).
  set (e1 := if ready s then _ else e).
  assert (events e1 = events e /\ subscribers e1 = subscribers e /\ closed e1 = closed e) as (E1&E2&E3)
    by (unfold e1; by destruct (ready s)).
  destruct (IH e1 Hnd) as (e'&->&F1&F2&F3&F4).
  { intros l Hl. rewrite E3. apply Hc. by right. }
  exists e'. split_and!; [done|congruence..|]. intros l. rewrite F4. unfold e1.
  destruct (decide (l = s)) as [->|Hne].
  - rewrite (bool_decide_eq_false_2 (s ∈ subs)) by done. rewrite bool_decide_eq_true_2 by (by left).
    destruct (ready s); simpl; [|done]. by rewrite lookup_insert_eq, app_nil_r.
  - replace (bool_decide (l ∈ s :: subs)) with (bool_decide (l ∈ subs)).
    2: { apply bool_decide_ext. rewrite elem_of_cons. naive_solver. }
    f_equal. destruct (ready s); [|done]. simpl. by rewrite lookup_insert_ne.
Qed.

Lemma find_listener_spec l subs i k :
  find_listener i l subs = Some k -> exists j, k = (i + j)%nat /\ subs !! j = Some l.
Proof.
  revert i. induction subs as [|s subs IH]; intros i; simpl; [done|].
  destruct (Nat.eqb_spec s l) as [->|]; [intros [= <-]; exists 0%nat; split; [lia|done]|].
  intros H. apply IH in H as (j&->&Hj). exists (S j). split; [lia|done].
Qed.

Lemma find_listener_None l subs i : find_listener i l subs = None -> l ∉ subs.
Proof.
  revert i. induction subs as [|s subs IH]; intros i; simpl; [intros _; apply not_elem_of_nil|].
  destruct (Nat.eqb_spec s l); [done|]. intros H. rewrite elem_of_cons. intros [->|Hin]; [done|]. by eapply IH.
Qed.

Lemma unsubscribe_spec l e :
  ev_wf e ->
  exists e' b, unsubscribe l e = Return (e', b) /\ ev_wf e' /\ events e' = events e /\ received e' = received e /\
    b = bool_decide (l ∈ subscribers e) /\
    (forall l', l' ∈ subscribers e' <-> l' ∈ subscribers e /\ l' <> l) /\
    closed e' = (if b then {[l]} ∪ closed e else closed e).
Proof.
  intros [Hnd Hc]. unfold unsubscribe. destruct (find_listener 0 l (subscribers e)) as [i|] eqn:E.
  - apply find_listener_spec in E as (j&->&Hj). simpl.
    assert (l ∈ subscribers e) as Hin by (by eapply list_elem_of_lookup_2).
    rewrite decide_False by auto. eexists _, _. split; [done|]. simpl.
    pose proof (take_drop_middle _ _ _ Hj) as Hsplit. replace (j + 1)%nat with (S j) by lia.
    rewrite <- Hsplit in Hnd. apply NoDup_app in Hnd as (N1&N2&N3). apply NoDup_cons in N3 as [N3 N4].
    assert (forall l', l' ∈ take j (subscribers e) ++ drop (S j) (subscribers e) <-> l' ∈ subscribers e /\ l' <> l) as Hel.
    { intros l'. rewrite <- Hsplit at 3. rewrite !elem_of_app, elem_of_cons. split.
      - intros [H|H]; split; auto; intros ->; [apply (N2 _ H); by left|done].
      - intros [[H|[->|H]] Hne]; auto. done. }
    split_and!; try done.
    + split; simpl.
      * apply NoDup_app. split_and!; [done| |done]. intros x Hx. specialize (N2 x Hx). rewrite elem_of_cons in N2. tauto.
      * intros l' [H1 H2]%Hel. rewrite elem_of_union, elem_of_singleton. intros [|]; [done|]. by apply (Hc l').
    + by rewrite bool_decide_eq_true_2.
  - apply find_listener_None in E. exists e, false. split_and!; try done.
    + by rewrite bool_decide_eq_false_2.
    + intros l'. split; [intros H; split; [done|by intros ->]|by intros []].
Qed.

(** One step keeps the invariant and has the effect the trace functions say. *)
Lemma ev_step_spec o e :
  ev_wf e -> (forall l, o = ESubscribe l -> (l ∉ subscribers e) /\ (l ∉ closed e)) ->
  (length (events e) <= eventsLimit)%nat ->
  exists e', ev_step o e = Return e' /\ ev_wf e' /\
    events e' = lastn eventsLimit (events e ++ logged [o]) /\
    (forall l, default [] (received e' !! l) =
       default [] (received e !! l) ++ heard l (bool_decide (l ∈ subscribers e)) [o]) /\
    (forall l, bool_decide (l ∈ subscribers e') =
       match o with
       | ELog _ _ _ _ _ => bool_decide (l ∈ subscribers e)
       | ESubscribe l' => bool_decide (l ∈ subscribers e) || Nat.eqb l' l
       | EUnsubscribe l' => bool_decide (l ∈ subscribers e) && negb (Nat.eqb l' l)
       end) /\
    (forall l, l ∈ closed e' -> l ∈ closed e \/ l ∈ subscribers e).
Proof.
  intros Hw Hs Hlen.
  assert (lastn eventsLimit (events e) = events e) as Hid.
  { unfold lastn. replace (length (events e) - eventsLimit)%nat with 0%nat by lia. apply drop_0. }
  destruct o as [now ready action id from|l|l]; simpl.
  - unfold log. destruct Hw as [Hnd Hc]. set (jm := {| Status := action; ID := id; From := from; Time := now |}).
    match goal with |- context [deliver ready jm _ ?x] => set (e1 := x) end.
    change (subscribers e1) with (subscribers e).
    destruct (deliver_spec ready jm (subscribers e) e1 Hnd Hc) as (e'&->&E1&E2&E3&E4).
    exists e'. split; [done|]. split_and!.
    + split; [by rewrite E2|]. rewrite E2, E3. done.
    + rewrite E1. simpl. by apply store_event_lastn.
    + intros l. rewrite E4, app_nil_r. done.
    + intros l. by rewrite E2.
    + intros l. rewrite E3. by left.
  - destruct (Hs l eq_refl) as [H1 H2]. destruct Hw as [Hnd Hc]. eexists. split; [done|]. split_and!.
    + split; simpl.
      * apply NoDup_app. split_and!; [done| |apply NoDup_singleton]. intros x Hx. rewrite list_elem_of_singleton. by intros ->.
      * intros l'. rewrite elem_of_app, list_elem_of_singleton. intros [H| ->]; [by apply Hc|done].
    + simpl. by rewrite app_nil_r, Hid.
    + intros l'. simpl. by rewrite app_nil_r.
    + intros l'. simpl. destruct (Nat.eqb_spec l l') as [->|Hne].
      * rewrite orb_true_r. apply bool_decide_eq_true_2. apply elem_of_app. right. by left.
      * rewrite orb_false_r. apply bool_decide_ext. rewrite elem_of_app, list_elem_of_singleton. naive_solver.
    + simpl. auto.
  - destruct (unsubscribe_spec l e Hw) as (e'&b&->&Hw'&E1&E2&->&E3&E4). exists e'. simpl. split_and!; try done.
    + by rewrite app_nil_r, E1, Hid.
    + intros l'. by rewrite E2, app_nil_r.
    + intros l'. destruct (Nat.eqb_spec l l') as [->|Hne].
      * rewrite andb_false_r. apply bool_decide_eq_false_2. rewrite E3. by intros [_ ?].
      * rewrite andb_true_r. apply bool_decide_ext. rewrite E3. naive_solver.
    + intros l'. rewrite E4. case_bool_decide; [|by left]. rewrite elem_of_union, elem_of_singleton.
      intros [->|]; auto.
Qed.

Lemma logged_cons o ops : logged (o :: ops) = logged [o] ++ logged ops.
Proof. unfold logged. simpl. by destruct o. Qed.

Lemma ev_run_spec ops : forall e,
  ev_wf e -> NoDup (subscriptions ops) ->
  (forall l, l ∈ subscriptions ops -> (l ∉ subscribers e) /\ (l ∉ closed e)) ->
  (length (events e) <= eventsLimit)%nat ->
  exists e', ev_run ops e = Return e' /\
    events e' = lastn eventsLimit (events e ++ logged ops) /\
    (forall l, default [] (received e' !! l) =
       default [] (received e !! l) ++ heard l (bool_decide (l ∈ subscribers e)) ops).
Proof.
  induction ops as [|o ops IH]; intros e Hw Hnd Hsub Hlen; cbn [ev_run].
  { exists e. split_and!; try done; [|intros; by rewrite app_nil_r]. unfold logged, lastn. simpl.
    rewrite app_nil_r. replace (length (events e) - eventsLimit)%nat with 0%nat by lia. by rewrite drop_0. }
  assert (forall l, o = ESubscribe l -> l ∈ subscriptions (o :: ops)) as Hin by (intros l ->; by left).
  destruct (ev_step_spec o e Hw) as (e1&E1&Hw1&Ev&Hr&Hb&Hcl); [intros l Ho; by apply Hsub, Hin|done|].
  rewrite E1. cbn [mbind outcome_bind].
  assert (NoDup (subscriptions ops)) as Hnd'.
  { unfold subscriptions in *. simpl in Hnd. destruct o; simpl in Hnd; try done. by apply NoDup_cons in Hnd as []. }
  destruct (IH e1 Hw1 Hnd') as (e'&E'&Ev'&Hr').
  { intros l Hl. assert (l ∈ subscriptions (o :: ops)) as Hl'.
    { unfold subscriptions in *. simpl. destruct o; [done|by right|done]. }
    destruct (Hsub l Hl') as [H1 H2]. split.
    - rewrite <- bool_decide_eq_false, Hb. rewrite (bool_decide_eq_false_2 _ H1). destruct o as [|l'|]; try done.
      simpl. apply Nat.eqb_neq. intros ->. unfold subscriptions in Hnd. simpl in Hnd. by apply NoDup_cons in Hnd as [].
    - intros [?|?]%Hcl; done. }
  { rewrite Ev. apply lastn_length. }
  exists e'. split; [done|]. split.
  - rewrite Ev', Ev, (logged_cons o ops), app_assoc. apply lastn_lastn_app.
  - intros l. rewrite Hr', Hr, <- app_assoc, Hb. destruct o; simpl; rewrite ?app_nil_r; done.
Qed.

(** ** Properties *)

(** C9. Runs of the event log.  After any sequence of events, subscriptions
    (each with a listener of its own) and unsubscriptions nothing panics, the
    log holds the last 64 events in order, and each listener has received, in
    order and once each, exactly the events logged while it was subscribed
    and for which it was ready in time. *)
Theorem Events_run ops :
  NoDup (subscriptions ops) ->
  exists e, ev_run ops New = Return e /\
    events e = lastn eventsLimit (logged ops) /\
    forall l, default [] (received e !! l) = heard l false ops.
Proof.
  intros Hnd. destruct (ev_run_spec ops New) as (e&E&H1&H2); try done.
  - split; [by apply NoDup_nil|]. intros l H. by apply elem_of_nil in H.
  - intros l _. split; [apply not_elem_of_nil|apply not_elem_of_empty].
  - unfold eventsLimit. simpl. lia.
  - exists e. by split_and!.
Qed.

Definition ev_example : list ev_op :=
  [ELog 1 (fun _ => true) "create" "c1" "base"; ESubscribe 7; ELog 2 (fun _ => true) "start" "c1" "base";
   ELog 3 (fun _ => false) "pause" "c1" "base"; EUnsubscribe 7; ELog 4 (fun _ => true) "die" "c1" "base"].

Lemma Events_run_witness :
  exists e, ev_run ev_example New = Return e /\ ID <$> events e = ["c1"; "c1"; "c1"; "c1"] /\
    Status <$> default [] (received e !! 7%nat) = ["start"].
Proof.
  destruct (Events_run ev_example) as (e&E&H1&H2); [apply NoDup_singleton|].
  exists e. split; [exact E|]. split; [rewrite H1; reflexivity|rewrite H2; reflexivity].
Defined.

Lemma writeCurrent_foldl room (f : JSONMessage -> bool) l : forall out,
  (length out + length (List.filter f l) <= room)%nat ->
  result_foldl (fun out event => if f event then writeEvent room out event else Ok out) out l =
  Ok (out ++ List.filter f l).
Proof.
  induction l as [|x l IH]; intros out Hl; simpl in *; [by rewrite app_nil_r|].
  destruct (f x); simpl in *.
  - assert (writeEvent room out x = Ok (out ++ [x])) as ->.
    { unfold writeEvent. destruct (Nat.ltb_spec (length out) room); [done|lia]. }
    simpl. rewrite IH by (rewrite length_app; simpl; lia). by rewrite <- app_assoc.
  - by apply IH.
Qed.

Lemma writeCurrent_full room (f : JSONMessage -> bool) l : forall out,
  (length out <= room)%nat -> (room < length out + length (List.filter f l))%nat ->
  is_ok (result_foldl (fun out event => if f event then writeEvent room out event else Ok out) out l) = false.
Proof.
  induction l as [|x l IH]; intros out Ho Hl; simpl in *; [lia|].
  destruct (f x); simpl in *; [|by apply IH].
  destruct (writeEvent room out x) as [out'|] eqn:E; simpl; [|done].
  unfold writeEvent in E. destruct (Nat.ltb_spec (length out) room); [|done]. injection E as <-.
  apply IH; rewrite length_app; simpl; lia.
Qed.

(** Replaying the log.  When the client accepts everything, the [events]
    job first writes the stored events whose time is at least [since] and, if
    there is an [until], at most [until], in order; with no [since] it writes
    none; and it fails exactly when the client stops accepting before. *)
Theorem Get_replays l room since until e :
  let wanted := List.filter (fun ev => (since <=? Time ev) && ((Time ev <=? until) || (until =? 0))) (events e) in
  (since = 0 -> (Get_start l room since until e).2 = Ok []) /\
  (since <> 0 -> (length wanted <= room)%nat -> (Get_start l room since until e).2 = Ok wanted) /\
  (since <> 0 -> (room < length wanted)%nat -> is_ok (Get_start l room since until e).2 = false) /\
  subscribers (Get_start l room since until e).1 = subscribers e ++ [l].
Proof.
  intros wanted. unfold Get_start, writeCurrent. cbn [snd fst].
  change (events (subscribe l e)) with (events e). split_and!.
  - intros ->. done.
  - intros Hs Hl. destruct (Z.eqb_spec since 0); [done|]. cbn [negb].
    by rewrite (writeCurrent_foldl room (fun ev => (since <=? Time ev) && ((Time ev <=? until) || (until =? 0)))).
  - intros Hs Hl. destruct (Z.eqb_spec since 0); [done|]. cbn [negb].
    apply (writeCurrent_full room (fun ev => (since <=? Time ev) && ((Time ev <=? until) || (until =? 0)))); [simpl; lia|done].
  - done.
Qed.
