(* ===== verification/Parsers.v ===== *)
(** * pkg/parsers, pkg/version, pkg/units, nat: command-line values

    [ParseHost], [ParseRepositoryTag], [PartParser], [ParseKeyValueOpt] and
    the filter flags; dotted versions and kernel versions; sizes; published
    port specifications.  [net.ParseIP] is the parameter [is_ip]. *)

From stdpp Require Import base gmap list strings pretty.
From Stdlib Require Import ZArith Lia Ascii.
From S2P Require Import Prelude GoStrings.

Local Open Scope Z_scope.

(** ** pkg/parsers *)

Inductive proto := Unix | Tcp.

(** The part of [ParseHost] after the protocol is known: [addr] is what
    follows it. *)
Definition ParseHost_addr (defaultHost : string) (p : proto) (addr : string) : result string string :=
  match p with
  | Unix => Ok ("unix://" +:+ addr)
  | Tcp =>
      if contains_char ":" addr then
        match split ":" addr with
        | [h; port] =>
            let host := if String.eqb h "" then defaultHost else h in
            match atoi port with
            | Ok n => if n =? 0 then Err ("Invalid bind address format: " +:+ addr)
                      else Ok ("tcp://" +:+ host +:+ ":" +:+ itoa n)
            | Err _ => Err ("Invalid bind address format: " +:+ addr)
            end
        | _ => Err ("Invalid bind address format: " +:+ addr)
        end
      else Err ("Invalid bind address format: " +:+ addr)
  end.

Definition ParseHost (defaultHost defaultUnix addr : string) : result string string :=
  let addr := trim_space addr in
  if String.eqb addr "tcp://" then Err ("Invalid bind address format: " +:+ addr)
  else if has_prefix "unix://" addr then
    let addr := trim_prefix "unix://" addr in
    ParseHost_addr defaultHost Unix (if String.eqb addr "" then defaultUnix else addr)
  else if has_prefix "tcp://" addr then ParseHost_addr defaultHost Tcp (trim_prefix "tcp://" addr)
  else if has_prefix "fd://" addr then Ok addr
  else if String.eqb addr "" then ParseHost_addr defaultHost Unix defaultUnix
  else if contains "://" addr then Err ("Invalid bind address protocol: " +:+ addr)
  else ParseHost_addr defaultHost Tcp addr.

Definition ParseRepositoryTag (repos : string) : string * string :=
  match last_index_char ":" repos with
  | None => (repos, "")
  | Some n =>
      let tag := drop_str (n + 1) repos in
      if negb (contains_char "/" tag) then (take_str n repos, tag) else (repos, "")
  end.

Definition PartParser (template data : string) : result string (gmap string string) :=
  let templateParts := split ":" template in
  let parts := split ":" data in
  if negb (Nat.eqb (length parts) (length templateParts)) then
    Err ("Invalid format to parse.  " +:+ data +:+ " should match template " +:+ template)
  else Ok (foldl (fun out '(t, value) => <[t := value]> out) ∅ (zip templateParts parts)).

Definition ParseKeyValueOpt (opt : string) : result string (string * string) :=
  match split2 "=" opt with
  | [k; v] => Ok (trim_space k, trim_space v)
  | _ => Err ("Unable to parse key/value option: " +:+ opt)
  end.

(** filters.ParseFlag; an error also returns the map, unchanged. *)
Abbreviation Args := (gmap string (list string)).

Definition ParseFlag (arg : string) (prev : option Args) : Args * option string :=
  let filters := default ∅ prev in
  if String.eqb arg "" then (filters, None)
  else if negb (contains_char "=" arg) then (filters, Some "bad format of filter (expected name=value)")
  else match split2 "=" arg with
       | [name; value] => (<[name := default [] (filters !! name) ++ [value]]> filters, None)
       | _ => (filters, None)
       end.

(** ** pkg/version *)

Definition nth_int (l : list string) (i : nat) : Z :=
  match l !! i with Some s => atoi_value s | None => 0 end.

(** The loop of [compareTo] over the indices below [max]. *)
Fixpoint compare_loop (me other : list string) (i n : nat) : Z :=
  match n with
  | O => 0
  | S n =>
      if nth_int other i <? nth_int me i then 1
      else if nth_int me i <? nth_int other i then -1
      else compare_loop me other (S i) n
  end.

Definition compareTo (me other : string) : Z :=
  let meTab := split "." me in
  let otherTab := split "." other in
  compare_loop meTab otherTab 0 (Nat.max (length meTab) (length otherTab)).

Definition LessThan (me other : string) : bool := compareTo me other =? -1.
Definition LessThanOrEqualTo (me other : string) : bool := compareTo me other <=? 0.
Definition GreaterThan (me other : string) : bool := compareTo me other =? 1.
Definition GreaterThanOrEqualTo (me other : string) : bool := 0 <=? compareTo me other.
Definition Equal (me other : string) : bool := compareTo me other =? 0.

(** ** pkg/parsers/kernel *)

Record KernelVersionInfo := { Kernel : Z; Major : Z; Minor : Z; Flavor : string }.

Definition KernelVersionInfo_String (k : KernelVersionInfo) : string :=
  itoa (Kernel k) +:+ "." +:+ itoa (Major k) +:+ "." +:+ itoa (Minor k) +:+ Flavor k.

Definition CompareKernelVersion (a b : KernelVersionInfo) : Z :=
  if Kernel a <? Kernel b then -1 else if Kernel b <? Kernel a then 1
  else if Major a <? Major b then -1 else if Major b <? Major a then 1
  else if Minor a <? Minor b then -1 else if Minor b <? Minor a then 1
  else 0.

(** ** pkg/units: sizes *)

Abbreviation unitMap := (gmap string Z).

Definition decimalMap : unitMap :=
  {["k" := 1000; "m" := 1000000; "g" := 1000000000; "t" := 1000000000000; "p" := 1000000000000000]}.
Definition binaryMap : unitMap :=
  {["k" := 1024; "m" := 1048576; "g" := 1073741824; "t" := 1099511627776; "p" := 1125899906842624]}.

Definition is_digit (c : ascii) : bool := match digit_val c with Some _ => true | None => false end.

(** The leading digits and the rest. *)
Fixpoint span_digits (s : string) : string * string :=
  match s with
  | String c s' => if is_digit c then let '(d, r) := span_digits s' in (String c d, r) else (EmptyString, s)
  | EmptyString => (EmptyString, EmptyString)
  end.

Definition is_unit (c : ascii) : bool :=
  existsb (Ascii.eqb (lower_char c)) ["k"; "m"; "g"; "t"; "p"]%char.
Definition is_b (c : ascii) : bool := Ascii.eqb c "b" || Ascii.eqb c "B".

(** [sizeRegex.FindStringSubmatch]: ^(\d+)([kKmMgGtTpP])?[bB]?$ *)
Definition size_match (s : string) : option (string * string) :=
  let '(digits, rest) := span_digits s in
  if String.eqb digits "" then None
  else match rest with
       | EmptyString => Some (digits, "")
       | String c EmptyString =>
           if is_unit c then Some (digits, String c "")
           else if is_b c then Some (digits, "") else None
       | String c (String d EmptyString) =>
           if is_unit c && is_b d then Some (digits, String c "") else None
       | _ => None
       end.

(** [parseSize]; the product wraps at 64 bits. *)
Definition parseSize (sizeStr : string) (uMap : unitMap) : result string Z :=
  match size_match sizeStr with
  | None => Err ("Invalid size: '" +:+ sizeStr +:+ "'")
  | Some (digits, u) =>
      match parse_int 64 digits with
      | Err _ => Err ("parsing " +:+ digits)
      | Ok size =>
          Ok (match uMap !! to_lower u with Some mul => int64 (size * mul) | None => size end)
      end
  end.

Definition FromHumanSize (size : string) : result string Z := parseSize size decimalMap.
Definition RAMInBytes (size : string) : result string Z := parseSize size binaryMap.

(** ** nat *)

Record PortBinding := { HostIp : string; HostPort : string }.
Abbreviation Port := string (only parsing).
Abbreviation PortMap := (gmap string (list PortBinding)).
Abbreviation PortSet := (gmap string unit).

Definition PortSpecTemplate : string := "ip:hostPort:containerPort".

Definition NewPort (proto port : string) : Port := port +:+ "/" +:+ proto.

Definition ParsePort (rawPort : string) : result num_error Z := parse_uint 16 rawPort.

Definition Proto (p : Port) : string :=
  match split "/" p with
  | [_] => "tcp"
  | _ :: proto :: _ => proto
  | [] => ""
  end.

Definition Port_ (p : Port) : string := match split "/" p with port :: _ => port | [] => "" end.

(** [Port.Int] panics on a port that is not a number. *)
Definition Int (p : Port) : outcome Z :=
  match ParsePort (Port_ p) with Ok i => Return i | Err _ => Panic end.

Definition SplitProtoPort (rawPort : string) : string * string :=
  match split "/" rawPort with
  | [] => ("", "")
  | [_] => if String.eqb rawPort "" then ("", "") else ("tcp", rawPort)
  | port :: proto :: _ => (proto, port)
  end.

Definition validateProto (proto : string) : bool := existsb (String.eqb proto) ["tcp"; "udp"].

Section Nat.
(** Is the text an IP address ([net.ParseIP] returns one)? *)
Context (is_ip : string -> bool).

(** The protocol and the specification, with its missing parts empty. *)
Definition spec_parts (rawPort : string) : string * string :=
  let '(proto, rawPort) :=
    match last_index_char "/" rawPort with
    | Some i => (drop_str (i + 1) rawPort, take_str i rawPort)
    | None => ("tcp", rawPort)
    end in
  (proto,
   if negb (contains_char ":" rawPort) then "::" +:+ rawPort
   else if Nat.eqb (length (split ":" rawPort)) 2 then ":" +:+ rawPort else rawPort).

Definition ParsePortSpec (rawPort : string) : result string (Port * PortBinding) :=
  let '(proto, rawPort) := spec_parts rawPort in
  parts ← PartParser PortSpecTemplate rawPort;
  let containerPort := default "" (parts !! "containerPort") in
  let rawIp := default "" (parts !! "ip") in
  let hostPort := default "" (parts !! "hostPort") in
  if negb (String.eqb rawIp "") && negb (is_ip rawIp) then Err ("Invalid ip address: " +:+ rawIp)
  else if String.eqb containerPort "" then Err ("No port specified: " +:+ rawPort +:+ "<empty>")
  else if negb (is_ok (parse_uint 16 containerPort)) then Err ("Invalid containerPort: " +:+ containerPort)
  else if negb (String.eqb hostPort "") && negb (is_ok (parse_uint 16 hostPort)) then
    Err ("Invalid hostPort: " +:+ hostPort)
  else if negb (validateProto proto) then Err ("Invalid proto: " +:+ proto)
  else Ok (NewPort proto containerPort, {| HostIp := rawIp; HostPort := hostPort |}).

(** The loop of [ParsePortSpecs]. *)
Definition ParsePortSpecs_step '((exposedPorts, bindings) : PortSet * PortMap) (rawPort : string) :
    result string (PortSet * PortMap) :=
  match ParsePortSpec rawPort with
  | Err e => Err e
  | Ok (port, binding) =>
      Ok (match exposedPorts !! port with
          | Some _ => exposedPorts
          | None => <[port := ()]> exposedPorts
          end, <[port := default [] (bindings !! port) ++ [binding]]> bindings)
  end.

Definition ParsePortSpecs (ports : list string) : result string (PortSet * PortMap) :=
  result_foldl ParsePortSpecs_step (∅, ∅) ports.
End Nat.

(** ** Lemmas on text *)

Lemma drop_app_str_S p c q : drop_str (String.length p + 1) (p +:+ String c q) = q.
Proof.
  induction p as [|d p IH]; [by destruct q|]. rewrite string_app_cons. exact IH.
Qed.

(** A text is without the separator, or cut at its last one. *)
Lemma last_cut c s :
  contains_char c s = false \/ exists a b, s = a +:+ String c b /\ contains_char c b = false.
Proof.
  induction s as [|d s IH]; [by left|]. destruct IH as [H|(a&b&->&H)].
  - destruct (Ascii.eqb_spec d c) as [->|Hne]; [right; by exists "", s|].
    left. simpl. apply Ascii.eqb_neq in Hne. by rewrite Hne, H.
  - right. exists (String d a), b. split; [done|done].
Qed.

(** Trimming keeps a text whose first and last characters stay. *)
Lemma trim_left_head p c s : p c = false -> trim_left p (String c s) = String c s.
Proof. intros H. simpl. by rewrite H. Qed.

Lemma trim_ends p c m d : p c = false -> p d = false ->
  trim p (String c (m +:+ String d "")) = String c (m +:+ String d "").
Proof.
  intros Hc Hd. unfold trim. rewrite trim_left_head by done. unfold trim_right.
  change (String c (m +:+ String d "")) with (String c m +:+ String d "").
  rewrite rev_str_snoc, trim_left_head by done. rewrite <- rev_str_snoc. apply rev_str_involutive.
Qed.

Lemma trim_left_idem p s : trim_left p (trim_left p s) = trim_left p s.
Proof. induction s as [|c s IH]; [done|]. simpl. destruct (p c) eqn:E; [done|]. simpl. by rewrite E. Qed.

Lemma trim_left_suffix p s : exists a, s = a +:+ trim_left p s /\ forall_str p a = true.
Proof.
  induction s as [|c s (a&Hs&Ha)]; [by exists ""|]. simpl. destruct (p c) eqn:E.
  - exists (String c a). split; [by rewrite string_app_cons, <- Hs|]. simpl. by rewrite E.
  - by exists "".
Qed.

(** What is left of a trim starts and ends with characters that stay. *)
Lemma trim_shape p s : trim p s = "" \/
  (exists c, trim p s = String c "" /\ p c = false) \/
  exists c m d, trim p s = String c (m +:+ String d "") /\ p c = false /\ p d = false.
Proof.
  unfold trim, trim_right. set (t := trim_left p s).
  assert (t = "" \/ exists c r, t = String c r /\ p c = false) as [->|(c&r&Ht&Hc)].
  { unfold t. clear t. induction s as [|c s IH]; [by left|]. simpl. destruct (p c) eqn:E; [done|]. right. eauto. }
  { by left. }
  assert (exists d q, trim_left p (rev_str t) = String d q /\ p d = false) as (d&q&Hq&Hd).
  { clear -Ht Hc. clearbody t. subst t. destruct (string_snoc r) as [->|(m&d&->)].
    - exists c, "". split; [|done]. by apply trim_left_head.
    - assert (forall z, trim_left p (z +:+ String c "") = "" -> False) as Hno.
      { induction z as [|e z IH].
        + change ("" +:+ String c "") with (String c ""). by rewrite trim_left_head.
        + rewrite string_app_cons. simpl. by destruct (p e). }
      assert (exists z, rev_str (String c (m +:+ String d "")) = z +:+ String c "") as [z Hz].
      { exists (rev_str (m +:+ String d "")). rewrite <- (rev_str_involutive (rev_str (m +:+ String d "") +:+ String c "")).
        f_equal. by rewrite rev_str_snoc, rev_str_involutive. }
      rewrite Hz. specialize (Hno z). clear Hz. induction (z +:+ String c "") as [|e w IH]; [by destruct Hno|].
      simpl in *. destruct (p e) eqn:E; [auto|eauto]. }
  right. rewrite Hq. destruct (trim_left_suffix p (rev_str t)) as (a&Ha&_). rewrite Hq in Ha.
  assert (t = rev_str (String d q) +:+ rev_str a) as Hta.
  { assert (forall x y, rev_str (x +:+ y) = rev_str y +:+ rev_str x) as Hrev.
    { intros x y. revert x. induction y as [|e y IH] using string_snoc_ind; intros x; [by rewrite string_app_nil_r|].
      rewrite <- string_app_assoc, !rev_str_snoc, IH. by rewrite string_app_cons. }
    rewrite <- Hrev, <- Ha. symmetry. apply rev_str_involutive. }
  assert (exists m, rev_str (String d q) = m +:+ String d "") as [m Hm].
  { exists (rev_str q). rewrite <- (rev_str_involutive (rev_str q +:+ String d "")).
    f_equal. by rewrite rev_str_snoc, rev_str_involutive. }
  rewrite Hm in *. destruct m as [|c' m].
  - left. exists d. split; [done|done].
  - right. exists c', m, d. split; [by rewrite string_app_cons|]. split; [|done].
    rewrite Ht in Hta. rewrite !string_app_cons in Hta. by injection Hta as <- _.
Qed.

Lemma trim_idem p s : trim p (trim p s) = trim p s.
Proof.
  destruct (trim_shape p s) as [->|[(c&->&Hc)|(c&m&d&->&Hc&Hd)]]; [done| |by apply trim_ends].
  apply trim_id. simpl. by rewrite Hc.
Qed.

(** ** Hosts and repository names *)

Lemma atoi_range s n : atoi s = Ok n -> min_int64 <= n <= max_int64.
Proof.
  assert (forall max t m k, parse_digits max m t = Ok k -> 0 <= m -> 0 <= k) as Hpos.
  { intros max t. induction t as [|c t IH]; intros m k; simpl; [by intros [= <-]|].
    destruct (digit_val c) as [v|] eqn:Ev; [|done]. destruct (_ <? _); [done|].
    intros H Hm. apply (IH _ _ H). unfold digit_val in Ev. destruct (_ && _) eqn:E; [|done].
    injection Ev as <-. reflect_bools. lia. }
  unfold atoi, parse_int. destruct s as [|c s]; [done|].
  match goal with |- context [parse_uint 64 ?b] => set (body := b) end.
  destruct (parse_uint 64 body) as [un|e] eqn:E; [|done]. simpl.
  assert (0 <= un) as Hun.
  { unfold parse_uint in E. destruct body; [done|]. eapply Hpos; [exact E|done]. }
  change (2 ^ (64 - 1)) with 9223372036854775808. unfold min_int64, max_int64.
  destruct (Ascii.eqb c "-"); simpl.
  - destruct (Z.ltb_spec 9223372036854775808 un); [done|]. intros [= <-]. lia.
  - destruct (Z.leb_spec 9223372036854775808 un); [done|]. intros [= <-]. lia.
Qed.

Lemma atoi_itoa n : min_int64 <= n <= max_int64 -> atoi (itoa n) = Ok n.
Proof.
  intros H. apply parse_int_itoa; [done|]. change (2 ^ (64 - 1)) with 9223372036854775808.
  unfold min_int64, max_int64 in H. lia.
Qed.

Lemma itoa_last z : exists q d, itoa z = q +:+ String d "" /\ Ascii.is_space d = false.
Proof.
  destruct (string_snoc (itoa z)) as [E|(q&d&E)].
  - exfalso. unfold itoa in E. destruct z as [|p|p]; [done| |done].
    destruct (pretty_N_cons (N.pos p)) as (c&s&Hs&_).
    change (pretty (Z.pos p)) with (pretty (N.pos p)) in E. by rewrite Hs in E.
  - exists q, d. split; [done|]. pose proof (itoa_chars z) as Hc. rewrite E, forall_str_app in Hc.
    apply andb_true_iff in Hc as [_ Hd]. simpl in Hd. rewrite andb_true_r in Hd.
    by destruct d as [[] [] [] [] [] [] [] []].
Qed.

Lemma itoa_no_sep c z : is_num_char c = false -> contains_char c (itoa z) = false.
Proof.
  intros Hc. pose proof (itoa_chars z) as H. induction (itoa z) as [|e s IH]; [done|]. simpl in *.
  apply andb_true_iff in H as [He Hs]. rewrite IH by done. rewrite orb_false_r.
  apply Ascii.eqb_neq. intros ->. congruence.
Qed.

(** The normal forms that [ParseHost] returns. *)
Lemma ParseHost_tcp_normal d u h n :
  min_int64 <= n <= max_int64 -> n <> 0 -> h <> "" -> contains_char ":" h = false ->
  ParseHost d u ("tcp://" +:+ h +:+ ":" +:+ itoa n) = Ok ("tcp://" +:+ h +:+ ":" +:+ itoa n).
Proof.
  intros Hn H0 Hh Hc. destruct (itoa_last n) as (q&c&Hq&Hsp).
  unfold ParseHost. set (s := "tcp://" +:+ h +:+ ":" +:+ itoa n).
  assert (trim_space s = s) as ->.
  { unfold s. rewrite Hq.
    change ("tcp://" +:+ h +:+ ":" +:+ q +:+ String c "")
      with (String "t" ("cp://" +:+ h +:+ ":" +:+ q +:+ String c "")).
    replace ("cp://" +:+ h +:+ ":" +:+ q +:+ String c "") with (("cp://" +:+ h +:+ ":" +:+ q) +:+ String c "")
      by (by rewrite !string_app_assoc).
    by apply trim_ends. }
  assert (String.eqb s "tcp://" = false) as ->.
  { apply String.eqb_neq. unfold s. intros E. apply (f_equal String.length) in E.
    rewrite !string_length_app in E. simpl in E. lia. }
  change (has_prefix "unix://" s) with false. cbv iota.
  unfold s. rewrite has_prefix_app, trim_prefix_app. cbn [ParseHost_addr].
  rewrite contains_char_app. change (":" +:+ itoa n) with (String ":" (itoa n)). simpl (contains_char ":" (String ":" _)).
  rewrite orb_true_r. rewrite split_app by done.
  rewrite split_no_sep by (by apply itoa_no_sep). simpl (String.eqb _ _).
  destruct (String.eqb_spec h ""); [done|]. rewrite atoi_itoa by done.
  destruct (Z.eqb_spec n 0); [done|]. done.
Qed.

Lemma ParseHost_unix_normal d u a :
  a <> "" -> trim_space ("unix://" +:+ a) = "unix://" +:+ a ->
  ParseHost d u ("unix://" +:+ a) = Ok ("unix://" +:+ a).
Proof.
  intros Ha Ht. unfold ParseHost. rewrite Ht.
  change (String.eqb ("unix://" +:+ a) "tcp://") with false. cbv iota.
  rewrite has_prefix_app, trim_prefix_app. destruct (String.eqb_spec a ""); done.
Qed.

Lemma ParseHost_addr_tcp d a s :
  d <> "" -> contains_char ":" d = false -> ParseHost_addr d Tcp a = Ok s ->
  exists h n, s = "tcp://" +:+ h +:+ ":" +:+ itoa n /\ min_int64 <= n <= max_int64 /\ n <> 0 /\ h <> "" /\
    contains_char ":" h = false.
Proof.
  intros Hd Hdc H. cbn [ParseHost_addr] in H. destruct (contains_char ":" a); [|done].
  pose proof (split_pieces ":" a) as Hp. destruct (split ":" a) as [|h [|p [|]]]; try done.
  destruct (atoi p) as [n|] eqn:En; [|done]. destruct (Z.eqb_spec n 0); [done|]. injection H as <-.
  inversion Hp as [|? ? Hh _]; subst. apply atoi_range in En.
  destruct (String.eqb_spec h ""); [by exists d, n|by exists h, n].
Qed.

(** [ParseHost] returns a normal form: when it accepts an address, the
    result is a unix, fd or tcp address, and parsing it again, with any
    defaults, returns it unchanged (for a non-empty default host without a
    colon and a default socket path without surrounding blanks).  Ports are
    not checked: negative and oversized ones are accepted. *)
Theorem ParseHost_normal d u d' u' addr s :
  d <> "" -> contains_char ":" d = false -> u <> "" -> trim_space ("unix://" +:+ u) = "unix://" +:+ u ->
  ParseHost d u addr = Ok s ->
  (has_prefix "unix://" s || has_prefix "tcp://" s || has_prefix "fd://" s = true) /\
  ParseHost d' u' s = Ok s /\
  ParseHost d u "tcp://h:-5" = Ok "tcp://h:-5" /\ ParseHost d u "h:99999" = Ok "tcp://h:99999".
Proof.
  intros Hd Hdc Hu Hut H.
  assert (forall a s, ParseHost_addr d Tcp a = Ok s ->
    has_prefix "unix://" s || has_prefix "tcp://" s || has_prefix "fd://" s = true /\ ParseHost d' u' s = Ok s) as Htcp.
  { intros a s0 H0. apply ParseHost_addr_tcp in H0 as (h&n&->&Hn&H0&Hh&Hc); [|done|done].
    split; [rewrite has_prefix_app; by rewrite orb_true_r|]. by apply ParseHost_tcp_normal. }
  assert (forall a, a <> "" -> trim_space ("unix://" +:+ a) = "unix://" +:+ a ->
    has_prefix "unix://" ("unix://" +:+ a) || has_prefix "tcp://" ("unix://" +:+ a) || has_prefix "fd://" ("unix://" +:+ a) = true
    /\ ParseHost d' u' ("unix://" +:+ a) = Ok ("unix://" +:+ a)) as Hunix.
  { intros a Ha Ht. split; [by rewrite has_prefix_app|]. by apply ParseHost_unix_normal. }
  assert (trim_space (trim_space addr) = trim_space addr) as Hidem by apply trim_idem.
  split_and!; [| |reflexivity|reflexivity].
  all: unfold ParseHost in H; destruct (String.eqb (trim_space addr) "tcp://") eqn:E0; [done|].
  all: destruct (has_prefix "unix://" (trim_space addr)) eqn:E1.
  1,3: apply has_prefix_inv in E1 as [a Ea]; rewrite Ea, trim_prefix_app in H; injection H as <-;
       destruct (String.eqb_spec a ""); apply Hunix; congruence.
  all: destruct (has_prefix "tcp://" (trim_space addr)) eqn:E2; [by eapply Htcp|].
  all: destruct (has_prefix "fd://" (trim_space addr)) eqn:E3.
  - injection H as <-. by rewrite E3, orb_true_r.
  - destruct (String.eqb (trim_space addr) "") eqn:E4; [injection H as <-; by apply Hunix|].
    destruct (contains "://" (trim_space addr)); [done|]. by eapply Htcp.
  - injection H as <-. unfold ParseHost. by rewrite Hidem, E0, E1, E2, E3.
  - destruct (String.eqb (trim_space addr) "") eqn:E4; [injection H as <-; by apply Hunix|].
    destruct (contains "://" (trim_space addr)); [done|]. by eapply Htcp.
Qed.

Lemma ParseHost_normal_witness :
  ParseHost "127.0.0.1" "/var/run/docker.sock" " :2375 " = Ok "tcp://127.0.0.1:2375" /\
  ParseHost "x" "y" "tcp://127.0.0.1:2375" = Ok "tcp://127.0.0.1:2375".
Proof.
  assert (ParseHost "127.0.0.1" "/var/run/docker.sock" " :2375 " = Ok "tcp://127.0.0.1:2375") as E by reflexivity.
  split; [exact E|].
  apply (ParseHost_normal "127.0.0.1" "/var/run/docker.sock" "x" "y" " :2375 ") in E;
    [apply E|discriminate|reflexivity|discriminate|reflexivity].
Defined.

Lemma ParseRepositoryTag_cut repos tag :
  contains_char ":" tag = false ->
  ParseRepositoryTag (repos +:+ String ":" tag) =
  if contains_char "/" tag then (repos +:+ String ":" tag, "") else (repos, tag).
Proof.
  intros H. unfold ParseRepositoryTag. rewrite last_index_char_app, drop_app_str_S, take_app_str by done.
  by destruct (contains_char "/" tag).
Qed.

Lemma ParseRepositoryTag_plain repos :
  contains_char ":" repos = false -> ParseRepositoryTag repos = (repos, "").
Proof. intros H. unfold ParseRepositoryTag. by rewrite last_index_char_None. Qed.

(** [ParseRepositoryTag] splits at the tag and never loses text: an image
    name is "REPO:TAG" exactly when the text after its last colon has no
    slash; otherwise (a registry port, or no colon) the whole name is the
    repository and the tag is empty. *)
Theorem ParseRepositoryTag_spec s :
  let '(repo, tag) := ParseRepositoryTag s in
  (tag = "" \/ s = repo +:+ ":" +:+ tag) /\
  (forall r t, s = r +:+ ":" +:+ t -> contains_char ":" t = false -> contains_char "/" t = false ->
     repo = r /\ tag = t) /\
  ((contains_char ":" s = false \/
    exists r t, s = r +:+ ":" +:+ t /\ contains_char ":" t = false /\ contains_char "/" t = true) ->
   repo = s /\ tag = "").
Proof.
  destruct (ParseRepositoryTag s) as [repo tag] eqn:E. split_and!.
  - destruct (last_cut ":" s) as [H|(a&b&->&H)].
    + rewrite ParseRepositoryTag_plain in E by done. injection E as <- <-. by left.
    + rewrite ParseRepositoryTag_cut in E by done. destruct (contains_char "/" b); injection E as <- <-; [by left|by right].
  - intros r t -> Hc Hs. change (":" +:+ t) with (String ":" t) in E.
    rewrite ParseRepositoryTag_cut, Hs in E by done. by injection E as <- <-.
  - intros [H|(r&t&->&Hc&Hs)].
    + rewrite ParseRepositoryTag_plain in E by done. by injection E as <- <-.
    + change (":" +:+ t) with (String ":" t) in *.
      rewrite ParseRepositoryTag_cut, Hs in E by done. by injection E as <- <-.
Qed.

(** ** Versions *)

(** The first difference of two number sequences decides. *)
Definition lex_less (a b : nat -> Z) : Prop :=
  exists i, (forall j, (j < i)%nat -> a j = b j) /\ a i < b i.

Lemma compare_loop_spec me other n : forall i,
  (forall j, (j < i)%nat -> nth_int me j = nth_int other j) ->
  (forall j, (i + n <= j)%nat -> nth_int me j = nth_int other j) ->
  (compare_loop me other i n = -1 /\ lex_less (nth_int me) (nth_int other)) \/
  (compare_loop me other i n = 1 /\ lex_less (nth_int other) (nth_int me)) \/
  (compare_loop me other i n = 0 /\ forall j, nth_int me j = nth_int other j).
Proof.
  induction n as [|n IH]; intros i Hlo Hhi; simpl.
  - right. right. split; [done|]. intros j. destruct (decide (j < i)%nat); [auto|]. apply Hhi. lia.
  - destruct (Z.ltb_spec (nth_int other i) (nth_int me i)).
    { right. left. split; [done|]. exists i. split; [|done]. intros j Hj. symmetry. auto. }
    destruct (Z.ltb_spec (nth_int me i) (nth_int other i)).
    { left. split; [done|]. by exists i. }
    apply IH.
    + intros j Hj. destruct (decide (j = i)) as [->|]; [lia|]. apply Hlo. lia.
    + intros j Hj. apply Hhi. lia.
Qed.

Lemma nth_int_out l j : (length l <= j)%nat -> nth_int l j = 0.
Proof. intros H. unfold nth_int. by rewrite lookup_ge_None_2. Qed.

Definition version_ints (v : string) : nat -> Z := nth_int (split "." v).

Lemma compareTo_cases a b :
  (compareTo a b = -1 /\ lex_less (version_ints a) (version_ints b)) \/
  (compareTo a b = 1 /\ lex_less (version_ints b) (version_ints a)) \/
  (compareTo a b = 0 /\ forall j, version_ints a j = version_ints b j).
Proof.
  apply compare_loop_spec; [lia|]. intros j Hj. rewrite !nth_int_out by lia. done.
Qed.

Lemma lex_less_irrefl a b : lex_less a b -> ~ (forall j, a j = b j).
Proof. intros (i&_&H) E. rewrite E in H. lia. Qed.

Lemma lex_less_asym a b : lex_less a b -> ~ lex_less b a.
Proof.
  intros (i&Hi&H) (k&Hk&H'). destruct (lt_eq_lt_dec i k) as [[|<-]|]; [rewrite Hk in H by done; lia|lia|].
  rewrite Hi in H' by done. lia.
Qed.

Lemma lex_less_trans a b c : lex_less a b -> lex_less b c -> lex_less a c.
Proof.
  intros (i&Hi&H) (k&Hk&H'). exists (min i k). split.
  - intros j Hj. rewrite Hi, Hk by lia. done.
  - destruct (lt_eq_lt_dec i k) as [[|<-]|].
    + rewrite Nat.min_l by lia. rewrite <- Hk by done. done.
    + rewrite Nat.min_id. lia.
    + rewrite Nat.min_r by lia. rewrite Hi by done. done.
Qed.

Lemma compareTo_lt a b : compareTo a b = -1 <-> lex_less (version_ints a) (version_ints b).
Proof.
  destruct (compareTo_cases a b) as [[-> H]|[[-> H]|[-> H]]]; split; try done; intros H'.
  - by apply lex_less_asym in H'.
  - by apply lex_less_irrefl in H'.
Qed.

Lemma compareTo_gt a b : compareTo a b = 1 <-> lex_less (version_ints b) (version_ints a).
Proof.
  destruct (compareTo_cases a b) as [[-> H]|[[-> H]|[-> H]]]; split; try done; intros H'.
  - by apply lex_less_asym in H'.
  - exfalso. apply (lex_less_irrefl _ _ H'). intros j. by rewrite H.
Qed.

(** Version comparison is the lexicographic order on the numbers between
    the dots, missing and unreadable ones counting as 0: [LessThan] and
    [GreaterThan] are that strict order and its converse, [Equal] its
    equivalence, so exactly one of the three holds, the order is transitive,
    and the three-way comparison is antisymmetric; and kernel versions compare
    lexicographically by their three numbers. *)
Theorem version_order a b c :
  (LessThan a b = true <-> lex_less (version_ints a) (version_ints b)) /\
  (Equal a b = true <-> forall j, version_ints a j = version_ints b j) /\
  GreaterThan a b = LessThan b a /\ compareTo b a = - compareTo a b /\
  LessThanOrEqualTo a b = negb (GreaterThan a b) /\ GreaterThanOrEqualTo a b = negb (LessThan a b) /\
  (LessThan a b = true -> LessThan b c = true -> LessThan a c = true) /\
  (forall k l, CompareKernelVersion k l =
     match Kernel k ?= Kernel l, Major k ?= Major l, Minor k ?= Minor l with
     | Lt, _, _ | Eq, Lt, _ | Eq, Eq, Lt => -1
     | Eq, Eq, Eq => 0
     | _, _, _ => 1
     end).
Proof.
  assert (compareTo b a = - compareTo a b) as Hanti.
  { destruct (compareTo_cases a b) as [[-> H]|[[-> H]|[-> H]]];
      [by apply compareTo_gt|by apply compareTo_lt|].
    destruct (compareTo_cases b a) as [[_ H']|[[_ H']|[-> _]]]; [exfalso; apply lex_less_irrefl in H'; auto..|done]. }
  unfold LessThan, Equal, GreaterThan, LessThanOrEqualTo, GreaterThanOrEqualTo.
  split_and!; try done.
  - rewrite Z.eqb_eq. apply compareTo_lt.
  - rewrite Z.eqb_eq. destruct (compareTo_cases a b) as [[-> H]|[[-> H]|[-> H]]]; split; try done; intros H'.
    + exfalso. by apply (lex_less_irrefl _ _ H).
    + exfalso. by apply (lex_less_irrefl _ _ H).
  - rewrite Hanti. by destruct (compareTo_cases a b) as [[-> H]|[[-> H]|[-> H]]].
  - by destruct (compareTo_cases a b) as [[-> H]|[[-> H]|[-> H]]].
  - by destruct (compareTo_cases a b) as [[-> H]|[[-> H]|[-> H]]].
  - rewrite !Z.eqb_eq, !compareTo_lt. apply lex_less_trans.
  - intros k l. unfold CompareKernelVersion, Z.ltb. rewrite (Z.compare_antisym (Kernel k)),
      (Z.compare_antisym (Major k)), (Z.compare_antisym (Minor k)).
    by destruct (Kernel k ?= Kernel l), (Major k ?= Major l), (Minor k ?= Minor l).
Qed.

Lemma version_order_witness : LessThan "1.2" "1.10" = true /\ LessThan "1.10" "1.10.1" = true /\ LessThan "1.2" "1.10.1" = true.
Proof.
  split; [reflexivity|]. split; [reflexivity|].
  apply (version_order "1.2" "1.10" "1.10.1"); reflexivity.
Defined.

(** ** Sizes *)

Definition opt_str (c : option ascii) : string := match c with Some c => String c "" | None => "" end.

(** The text of a size: a number, an optional unit and an optional "b". *)
Definition size_text (digits : string) (u b : option ascii) : string := digits +:+ opt_str u +:+ opt_str b.

Definition unit_ok (u : option ascii) : Prop := forall c, u = Some c -> is_unit c = true.
Definition b_ok (b : option ascii) : Prop := forall c, b = Some c -> is_b c = true.

Lemma unit_not_digit c : is_unit c || is_b c = true -> is_digit c = false.
Proof. destruct c as [[] [] [] [] [] [] [] []]; vm_compute; done. Qed.
Lemma b_not_unit c : is_b c = true -> is_unit c = false.
Proof. destruct c as [[] [] [] [] [] [] [] []]; vm_compute; done. Qed.

Lemma span_digits_app d r :
  forall_str is_digit d = true -> (match r with String c _ => is_digit c = false | EmptyString => True end) ->
  span_digits (d +:+ r) = (d, r).
Proof.
  intros Hd Hr. induction d as [|c d IH].
  - change ("" +:+ r) with r. destruct r as [|c r]; [done|]. simpl. by rewrite Hr.
  - simpl in Hd. apply andb_true_iff in Hd as [Hc Hd]. rewrite string_app_cons. simpl. by rewrite Hc, IH.
Qed.

Lemma span_digits_inv s d r : span_digits s = (d, r) -> s = d +:+ r /\ forall_str is_digit d = true.
Proof.
  revert d r. induction s as [|c s IH]; simpl; intros d r; [by intros [= <- <-]|].
  destruct (is_digit c) eqn:Ec; [|by intros [= <- <-]].
  destruct (span_digits s) as [d' r'] eqn:E. intros [= <- <-]. destruct (IH d' r' eq_refl) as [-> Hd].
  split; [done|]. simpl. by rewrite Ec.
Qed.

Lemma size_match_text d u b :
  forall_str is_digit d = true -> d <> "" -> unit_ok u -> b_ok b ->
  size_match (size_text d u b) = Some (d, opt_str u).
Proof.
  intros Hd Hne Hu Hb. unfold size_match, size_text. rewrite span_digits_app; [|done|].
  - destruct (String.eqb_spec d ""); [done|].
    destruct u as [cu|], b as [cb|]; simpl; try done.
    + change (String cu "" +:+ String cb "") with (String cu (String cb "")). cbv iota.
      by rewrite (Hu cu), (Hb cb).
    + change (String cu "" +:+ "") with (String cu ""). cbv iota. by rewrite (Hu cu).
    + change ("" +:+ String cb "") with (String cb ""). cbv iota.
      assert (is_b cb = true) as Hcb by (by apply Hb). by rewrite (b_not_unit cb Hcb), Hcb.
  - destruct u as [cu|]; [|destruct b as [cb|]; [|done]]; simpl; apply unit_not_digit.
    + by rewrite (Hu cu).
    + by rewrite (Hb cb), orb_true_r.
Qed.

Lemma size_match_inv s d u :
  size_match s = Some (d, u) ->
  exists ou ob, s = size_text d ou ob /\ u = opt_str ou /\ unit_ok ou /\ b_ok ob /\ d <> "" /\ forall_str is_digit d = true.
Proof.
  unfold size_match. destruct (span_digits s) as [d' r] eqn:E. apply span_digits_inv in E as [-> Hd].
  destruct (String.eqb_spec d' ""); [done|].
  destruct r as [|c [|c' [|]]]; [| | |by destruct (is_unit c); simpl].
  - intros [= -> <-]. exists None, None. by repeat split.
  - destruct (is_unit c) eqn:Eu.
    + intros [= -> <-]. exists (Some c), None. split; [done|]. split; [done|]. split; [by intros ? [= <-]|done].
    + destruct (is_b c) eqn:Eb; [|done]. intros [= -> <-]. exists None, (Some c).
      split; [done|]. split; [done|]. split; [done|]. split; [by intros ? [= <-]|done].
  - destruct (is_unit c) eqn:Eu; [|done]. destruct (is_b c') eqn:Eb; [|done]. intros [= -> <-].
    exists (Some c), (Some c'). split; [done|]. split; [done|].
    split; [by intros ? [= <-]|]. split; [by intros ? [= <-]|done].
Qed.

Lemma itoa_digits n : 0 <= n -> forall_str is_digit (itoa n) = true /\ itoa n <> "".
Proof.
  intros Hn. split.
  - pose proof (itoa_chars n) as H. assert (contains_char "-" (itoa n) = false) as Hm by (by apply itoa_no_char).
    induction (itoa n) as [|c s IH]; [done|]. simpl in *. apply andb_true_iff in H as [H1 H2].
    apply orb_false_iff in Hm as [M1 M2]. rewrite IH by done. rewrite andb_true_r.
    destruct c as [[] [] [] [] [] [] [] []]; vm_compute in H1, M1 |- *; done.
  - destruct (itoa_last n) as (q&d&->&_). by destruct q.
Qed.

(** Sizes.  The accepted texts are exactly a decimal number, an optional
    unit k, m, g, t or p of either case and an optional b, with the number
    below 2^63; the value is the number times the unit wrapped to 64 bits, so
    the exact product when that is below 2^63, but 0 for "16777216T". *)
Theorem parseSize_spec n u b m :
  0 <= n <= max_int64 -> unit_ok u -> b_ok b -> m = decimalMap \/ m = binaryMap ->
  let mul := default 1 (m !! to_lower (opt_str u)) in
  parseSize (size_text (itoa n) u b) m = Ok (int64 (n * mul)) /\
  (n * mul <= max_int64 -> parseSize (size_text (itoa n) u b) m = Ok (n * mul)) /\
  (forall s z, parseSize s m = Ok z -> exists d ou ob k, s = size_text d ou ob /\ forall_str is_digit d = true /\
     unit_ok ou /\ b_ok ob /\ parse_int 64 d = Ok k /\ z = int64 (k * default 1 (m !! to_lower (opt_str ou)))) /\
  RAMInBytes "16777216T" = Ok 0.
Proof.
  intros Hn Hu Hb Hm mul. destruct (itoa_digits n) as [Hd Hne]; [lia|].
  assert (forall k, min_int64 <= k <= max_int64 -> int64 k = k) as Hsmall.
  { intros k Hk. apply wrapS_small; [lia|]. change (2 ^ (64 - 1)) with 9223372036854775808.
    unfold min_int64, max_int64 in Hk. lia. }
  assert (0 <= mul) as Hmul.
  { unfold mul. destruct (m !! to_lower (opt_str u)) as [v|] eqn:E; [|done]. simpl.
    destruct Hm as [-> | ->]; unfold decimalMap, binaryMap in E;
      rewrite !lookup_insert, lookup_singleton in E; repeat case_decide; simplify_eq; lia. }
  assert (parseSize (size_text (itoa n) u b) m = Ok (int64 (n * mul))) as Hval.
  { unfold parseSize. rewrite size_match_text by done.
    change (parse_int 64 (itoa n)) with (atoi (itoa n)).
    rewrite atoi_itoa by (unfold min_int64, max_int64 in *; lia). unfold mul.
    destruct (m !! to_lower (opt_str u)); [done|]. simpl. rewrite Z.mul_1_r, Hsmall; [done|].
    unfold min_int64, max_int64 in *. lia. }
  split_and!; [done| | |reflexivity].
  - intros Hle. rewrite Hval, Hsmall; [done|]. unfold min_int64. lia.
  - intros s z Hs. unfold parseSize in Hs. destruct (size_match s) as [[d us]|] eqn:Es; [|done].
    apply size_match_inv in Es as (ou&ob&->&->&Hou&Hob&Hdne&Hdd).
    destruct (parse_int 64 d) as [k|] eqn:Ek; [|done]. injection Hs as <-.
    exists d, ou, ob, k. split_and!; try done.
    destruct (m !! to_lower (opt_str ou)); [done|]. simpl. rewrite Z.mul_1_r. symmetry. apply Hsmall.
    by apply atoi_range in Ek.
Qed.

Lemma parseSize_spec_witness : RAMInBytes "32mB" = Ok 33554432 /\ FromHumanSize "32k" = Ok 32000.
Proof.
  split.
  - apply (parseSize_spec 32 (Some "m"%char) (Some "B"%char) binaryMap); try (intros ? [= <-]; reflexivity);
      try (unfold max_int64; lia); [by right|apply Z.leb_le; vm_compute; reflexivity].
  - apply (parseSize_spec 32 (Some "k"%char) None decimalMap); try (intros ? [= <-]; reflexivity);
      try (unfold max_int64; lia); [by left|apply Z.leb_le; vm_compute; reflexivity].
Defined.

(** ** Published ports *)

Section NatSpecs.
Context (is_ip : string -> bool).

Definition port_text (s : string) : Prop := exists n, 0 <= n < 65536 /\ s = itoa n.

Lemma PartParser_three a b c :
  contains_char ":" a = false -> contains_char ":" b = false -> contains_char ":" c = false ->
  PartParser PortSpecTemplate (a +:+ ":" +:+ b +:+ ":" +:+ c) =
  Ok (<["containerPort" := c]> (<["hostPort" := b]> (<["ip" := a]> ∅))).
Proof.
  intros Ha Hb Hc. unfold PartParser.
  change (a +:+ ":" +:+ b +:+ ":" +:+ c) with (a +:+ String ":" (b +:+ String ":" c)).
  rewrite !split_app, (split_no_sep _ c) by done. reflexivity.
Qed.

Lemma no_sep_itoa c n : 0 <= n -> digit_val c = None -> contains_char c (itoa n) = false.
Proof. apply itoa_no_char. Qed.

(** The five spellings of a specification. *)
Definition spec_text (ip host cont proto : string) (form : nat) : string :=
  match form with
  | 0%nat => ip +:+ ":" +:+ host +:+ ":" +:+ cont +:+ "/" +:+ proto
  | 1%nat => host +:+ ":" +:+ cont +:+ "/" +:+ proto
  | 2%nat => cont +:+ "/" +:+ proto
  | 3%nat => host +:+ ":" +:+ cont
  | _ => cont
  end.

Definition form_ok (ip host proto : string) (form : nat) : Prop :=
  match form with
  | 0%nat => True
  | 1%nat => ip = ""
  | 2%nat => ip = "" /\ host = ""
  | 3%nat => ip = "" /\ proto = "tcp"
  | _ => ip = "" /\ host = "" /\ proto = "tcp"
  end.

Lemma spec_parts_text ip host cont proto form :
  form_ok ip host proto form -> contains_char ":" ip = false -> contains_char ":" host = false ->
  contains_char "/" host = false ->
  contains_char ":" cont = false -> contains_char "/" cont = false -> contains_char "/" proto = false ->
  spec_parts (spec_text ip host cont proto form) = (proto, ip +:+ ":" +:+ host +:+ ":" +:+ cont).
Proof.
  intros Hf Hi Hh Hhs Hc Hcs Hp.
  assert (forall a, spec_parts (a +:+ "/" +:+ proto) =
    (proto, if negb (contains_char ":" a) then "::" +:+ a
            else if Nat.eqb (length (split ":" a)) 2 then ":" +:+ a else a)) as Hcut.
  { intros a. unfold spec_parts. change ("/" +:+ proto) with (String "/" proto).
    by rewrite last_index_char_app, drop_app_str_S, take_app_str. }
  assert (forall a, contains_char "/" a = false -> spec_parts a =
    ("tcp", if negb (contains_char ":" a) then "::" +:+ a
            else if Nat.eqb (length (split ":" a)) 2 then ":" +:+ a else a)) as Hplain.
  { intros a Ha. unfold spec_parts. by rewrite last_index_char_None. }
  assert (contains_char ":" (host +:+ ":" +:+ cont) = true) as Hc2 by (rewrite contains_char_app; simpl; by rewrite orb_true_r).
  assert (split ":" (host +:+ ":" +:+ cont) = [host; cont]) as Hs2.
  { change (":" +:+ cont) with (String ":" cont). by rewrite split_app, split_no_sep. }
  destruct form as [|[|[|[|form]]]]; cbn [spec_text form_ok] in *.
  - replace (ip +:+ ":" +:+ host +:+ ":" +:+ cont +:+ "/" +:+ proto)
      with ((ip +:+ ":" +:+ host +:+ ":" +:+ cont) +:+ "/" +:+ proto) by (by rewrite !string_app_assoc).
    rewrite Hcut. rewrite contains_char_app. simpl (contains_char ":" (":" +:+ _)). rewrite orb_true_r. cbn [negb].
    change (":" +:+ host +:+ ":" +:+ cont) with (String ":" (host +:+ ":" +:+ cont)).
    rewrite split_app, Hs2 by done. done.
  - subst ip. replace (host +:+ ":" +:+ cont +:+ "/" +:+ proto) with ((host +:+ ":" +:+ cont) +:+ "/" +:+ proto)
      by (by rewrite !string_app_assoc).
    rewrite Hcut, Hc2, Hs2. done.
  - destruct Hf as [-> ->]. by rewrite Hcut, Hc.
  - destruct Hf as [-> ->]. rewrite Hplain, Hc2, Hs2; [done|]. rewrite contains_char_app, Hhs. simpl. done.
  - destruct Hf as (->&->&->). by rewrite Hplain, Hc.
Qed.

Lemma ParsePortSpec_text ip host cont proto form :
  form_ok ip host proto form -> ip = "" \/ is_ip ip = true -> contains_char ":" ip = false ->
  host = "" \/ port_text host -> port_text cont -> proto = "tcp" \/ proto = "udp" ->
  ParsePortSpec is_ip (spec_text ip host cont proto form) =
  Ok (cont +:+ "/" +:+ proto, {| HostIp := ip; HostPort := host |}).
Proof.
  intros Hf Hip Hic Hh (n&Hn&->) Hp. unfold ParsePortSpec.
  assert (contains_char ":" host = false /\ contains_char "/" host = false /\
    (String.eqb host "" || is_ok (parse_uint 16 host)) = true) as (Hh1&Hh2&Hh3).
  { destruct Hh as [->|(k&Hk&->)]; [done|]. rewrite !itoa_no_char by (lia || done).
    rewrite parse_uint_itoa; [by rewrite orb_true_r|]. change (2 ^ 16) with 65536. lia. }
  assert (validateProto proto = true /\ contains_char "/" proto = false) as [Hv Hps] by (by destruct Hp as [-> | ->]).
  rewrite spec_parts_text; try done; try (by apply itoa_no_char; [lia|]).
  rewrite PartParser_three; try done; [|by apply itoa_no_char; [lia|]]. cbn [mbind result_bind].
  match goal with |- context [default "" (?parts !! "ip")] =>
    change (parts !! "containerPort") with (Some (itoa n)); change (parts !! "ip") with (Some ip);
    change (parts !! "hostPort") with (Some host) end.
  cbn [from_option id].
  destruct (itoa_digits n) as [_ Hne]; [lia|].
  destruct (String.eqb_spec (itoa n) ""); [done|].
  rewrite (parse_uint_itoa 16 n) by (change (2 ^ 16) with 65536; lia). cbn [is_ok negb].
  rewrite Hv. cbn [negb].
  assert (negb (String.eqb ip "") && negb (is_ip ip) = false) as ->.
  { destruct Hip as [-> | ->]; [done|]. apply andb_false_r. }
  assert (negb (String.eqb host "") && negb (is_ok (parse_uint 16 host)) = false) as ->.
  { by rewrite <- negb_orb, Hh3. }
  done.
Qed.

(** The bindings and exposed ports that accepted specifications denote. *)
Definition bindings_of (l : list (Port * PortBinding)) (p : Port) : list PortBinding :=
  omap (fun '(q, b) => if String.eqb q p then Some b else None) l.

Lemma ParsePortSpecs_foldl specs l : forall e m,
  Forall2 (fun s pb => ParsePortSpec is_ip s = Ok pb) specs l ->
  exists e' m', result_foldl (ParsePortSpecs_step is_ip) (e, m) specs = Ok (e', m') /\
    (forall p, default [] (m' !! p) = default [] (m !! p) ++ bindings_of l p) /\
    (forall p, is_Some (m' !! p) <-> is_Some (m !! p) \/ p ∈ l.*1) /\
    (forall p, is_Some (e' !! p) <-> is_Some (e !! p) \/ p ∈ l.*1).
Proof.
  intros e m H. revert e m. induction H as [|s [q b] specs l Hs _ IH]; intros e m.
  { exists e, m. split; [done|]. split_and!; intros p.
    - unfold bindings_of. simpl. by rewrite app_nil_r.
    - split; [by left|]. intros [?|Hp]; [done|]. by apply elem_of_nil in Hp.
    - split; [by left|]. intros [?|Hp]; [done|]. by apply elem_of_nil in Hp. }
  cbn [result_foldl]. unfold ParsePortSpecs_step at 2. rewrite Hs. cbn [mbind result_bind].
  match goal with |- context [result_foldl _ (?e1, ?m1) specs] => destruct (IH e1 m1) as (e'&m'&->&H1&H2&H3) end.
  exists e', m'. split; [done|]. split_and!; intros p.
  - rewrite H1. unfold bindings_of. simpl. destruct (String.eqb_spec q p) as [->|Hne].
    + rewrite lookup_insert_eq. simpl. by rewrite <- app_assoc.
    + by rewrite lookup_insert_ne.
  - rewrite H2, fmap_cons, elem_of_cons. cbn [fst]. destruct (decide (p = q)) as [->|Hne].
    + rewrite lookup_insert_eq. naive_solver.
    + rewrite lookup_insert_ne by done. naive_solver.
  - rewrite H3, fmap_cons, elem_of_cons. cbn [fst]. destruct (e !! q) eqn:E.
    + split; [naive_solver|]. intros [?|[->|?]]; [by left|left; by rewrite E|by right].
    + destruct (decide (p = q)) as [->|Hne].
      * rewrite lookup_insert_eq. naive_solver.
      * rewrite lookup_insert_ne by done. naive_solver.
Qed.

Lemma ParsePortSpecs_err specs s e :
  s ∈ specs -> ParsePortSpec is_ip s = Err e -> is_ok (ParsePortSpecs is_ip specs) = false.
Proof.
  unfold ParsePortSpecs. generalize (∅ : PortSet, ∅ : PortMap) as st. intros st. revert st.
  induction specs as [|s' specs IH]; intros [ex m] Hin He; [by apply elem_of_nil in Hin|].
  cbn [result_foldl]. unfold ParsePortSpecs_step at 2.
  apply elem_of_cons in Hin as [<-|Hin].
  - rewrite He. done.
  - destruct (ParsePortSpec is_ip s') as [[q b]|]; cbn [mbind result_bind]; [|done]. by apply IH.
Qed.

(** [ParsePortSpecs] reads every spelling of a published port (address,
    host port and protocol optional, address in front only with both colons)
    as the port and binding it denotes; for a list of specifications it fails
    if one is not readable, and otherwise exposes exactly the ports read and
    binds each of them to its bindings in the order given. *)
Theorem ParsePortSpecs_spec ip host cont proto form specs l :
  (form_ok ip host proto form -> ip = "" \/ is_ip ip = true -> contains_char ":" ip = false ->
   host = "" \/ port_text host -> port_text cont -> proto = "tcp" \/ proto = "udp" ->
   ParsePortSpec is_ip (spec_text ip host cont proto form) =
   Ok (cont +:+ "/" +:+ proto, {| HostIp := ip; HostPort := host |})) /\
  (Forall2 (fun s pb => ParsePortSpec is_ip s = Ok pb) specs l ->
   exists exposed bindings, ParsePortSpecs is_ip specs = Ok (exposed, bindings) /\
     forall p, (is_Some (exposed !! p) <-> p ∈ l.*1) /\ (is_Some (bindings !! p) <-> p ∈ l.*1) /\
       default [] (bindings !! p) = bindings_of l p) /\
  (forall s e, s ∈ specs -> ParsePortSpec is_ip s = Err e -> is_ok (ParsePortSpecs is_ip specs) = false).
Proof.
  split; [apply ParsePortSpec_text|]. split; [|apply ParsePortSpecs_err].
  intros H. destruct (ParsePortSpecs_foldl specs l ∅ ∅ H) as (e'&m'&E&H1&H2&H3).
  exists e', m'. split; [exact E|]. intros p. rewrite H3, H2, H1, !lookup_empty. split_and!; try done.
  all: split; [intros [[? ?]|]; done|by right].
Qed.
End NatSpecs.

Lemma ParsePortSpecs_spec_witness :
  ParsePortSpec (String.eqb "127.0.0.1") "127.0.0.1:8080:80/udp" =
  Ok ("80/udp", {| HostIp := "127.0.0.1"; HostPort := "8080" |}).
Proof.
  apply (proj1 (ParsePortSpecs_spec (String.eqb "127.0.0.1") "127.0.0.1" "8080" "80" "udp" 0 [] [])).
  - exact I.
  - right. reflexivity.
  - reflexivity.
  - right. exists 8080. split; [lia|reflexivity].
  - exists 80. split; [lia|reflexivity].
  - right. reflexivity.
Defined.
