(* ===== verification/StdCopy.v ===== *)
(** * utils/stdcopy.go: two output streams on one connection

    [Write] frames what a container prints on one of its streams, [StdCopy]
    takes the frames apart again.  A reader delivers its bytes in chunks of
    any sizes, so that a read may return any part of a header or a frame; of
    the buffer only the bytes read and not yet written ([buf\[:nr\]], here
    [pending]) and its length matter. *)

From stdpp Require Import base list strings.
From Stdlib Require Import ZArith Lia.
From S2P Require Import Prelude GoNet.

Local Open Scope Z_scope.

Definition StdWriterPrefixLen : nat := 8.
Definition StdWriterSizeIndex : nat := 4.

Definition Stdin : list Z := [0; 0; 0; 0; 0; 0; 0; 0].
Definition Stdout : list Z := [1; 0; 0; 0; 0; 0; 0; 0].
Definition Stderr : list Z := [2; 0; 0; 0; 0; 0; 0; 0].

(** A destination: what it received, how many more bytes it takes ([None] is
    unlimited), and whether it then fails or only writes short. *)
Record Dst := { content : list Z; room : option nat; short : bool }.

Definition dst_write (p : list Z) (d : Dst) : Dst * nat * option string :=
  match room d with
  | None => ({| content := content d ++ p; room := None; short := short d |}, length p, None)
  | Some r =>
      if (length p <=? r)%nat then
        ({| content := content d ++ p; room := Some (r - length p)%nat; short := short d |}, length p, None)
      else ({| content := content d ++ take r p; room := Some 0%nat; short := short d |}, r,
            if short d then None else Some "write error")
  end.

(** [StdWriter.Write] on a writer with the prefix [prefix]; [None] is a nil
    writer. *)
Definition Write (w : option Dst) (prefix buf : list Z) : option Dst * Z * option string :=
  match w with
  | None => (None, 0, Some "Writer not instanciated")
  | Some d =>
      let prefix := take StdWriterSizeIndex prefix ++ be_PutUint32 (uint32 (Z.of_nat (length buf))) in
      let '(d, n, err) := dst_write (prefix ++ buf) d in
      (Some d, Z.of_nat n - Z.of_nat StdWriterPrefixLen, err)
  end.

Inductive rerr := EOF | ReadErr (e : string).

(** A reader: chunks still to come, whether the last one comes together with
    the final error, and the final error ([None] is EOF). *)
Record Reader := { chunks : list (list Z); with_last : bool; final : option string }.

Definition final_err (r : Reader) : rerr := match final r with None => EOF | Some e => ReadErr e end.

Definition Read (n : nat) (r : Reader) : list Z * option rerr * Reader :=
  match chunks r with
  | [] => ([], Some (final_err r), r)
  | d :: rest =>
      if (n <? length d)%nat then
        (take n d, None, {| chunks := drop n d :: rest; with_last := with_last r; final := final r |})
      else
        (d, if with_last r then match rest with [] => Some (final_err r) | _ => None end else None,
         {| chunks := rest; with_last := with_last r; final := final r |})
  end.

Inductive filled := Full | Short | Failed (e : string).

(** One turn of the two loops that read until [need] bytes are there. *)
Definition fill_step (need bufLen : nat) '((pending, r) : list Z * Reader) :
    (list Z * Reader) + (list Z * Reader * filled) :=
  if (need <=? length pending)%nat then inr (pending, r, Full)
  else
    let '(d, e, r) := Read (bufLen - length pending) r in
    let pending := pending ++ d in
    match e with
    | Some EOF => inr (pending, r, if (length pending <? need)%nat then Short else Full)
    | Some (ReadErr x) => inr (pending, r, Failed x)
    | None => inl (pending, r)
    end.

(** Every turn takes a byte or a chunk. *)
Definition fill_measure (s : list Z * Reader) : nat :=
  (length (chunks s.2) + length (concat (chunks s.2)))%nat.

Definition fill (need bufLen : nat) (s : list Z * Reader) : outcome (list Z * Reader * filled) :=
  or_out_of_fuel (loop (fill_step need bufLen) (S (fill_measure s)) s).

Record Copy := { pending : list Z; src : Reader; bufLen : nat; written : Z; dstout : Dst; dsterr : Dst }.

(** The switch on the first byte: does the frame go to [dsterr]? *)
Definition select_fd (b : Z) : option bool :=
  if (b =? 0) || (b =? 1) then Some false else if b =? 2 then Some true else None.

(** One turn of the loop of [StdCopy]. *)
Definition StdCopy_step (s : Copy) : outcome (Copy + (Copy * (Z * option string))) :=
  '(p, r, f) ← fill StdWriterPrefixLen (bufLen s) (pending s, src s);
  let s := {| pending := p; src := r; bufLen := bufLen s; written := written s; dstout := dstout s; dsterr := dsterr s |} in
  match f with
  | Short => Return (inr (s, (written s, None)))
  | Failed e => Return (inr (s, (0, Some e)))
  | Full =>
      fd ← or_panic (p !! 0%nat);
      match select_fd fd with
      | None => Return (inr (s, (0, Some "Unrecognized input header")))
      | Some to_err =>
          size ← be_Uint32 (drop StdWriterSizeIndex p);
          let frameSize := Z.to_nat size in
          let bl := if (bufLen s <? frameSize + StdWriterPrefixLen)%nat
                    then (bufLen s + (frameSize + StdWriterPrefixLen - bufLen s + 1))%nat else bufLen s in
          '(p, r, f) ← fill (frameSize + StdWriterPrefixLen) bl (p, r);
          let s := {| pending := p; src := r; bufLen := bl; written := written s; dstout := dstout s; dsterr := dsterr s |} in
          match f with
          | Short => Return (inr (s, (written s, None)))
          | Failed e => Return (inr (s, (0, Some e)))
          | Full =>
              let '(d, nw, ew) := dst_write (take frameSize (drop StdWriterPrefixLen p))
                                    (if to_err then dsterr s else dstout s) in
              let s := {| pending := pending s; src := src s; bufLen := bufLen s; written := written s;
                          dstout := if to_err then dstout s else d; dsterr := if to_err then d else dsterr s |} in
              match ew with
              | Some e => Return (inr (s, (0, Some e)))
              | None =>
                  if negb (Nat.eqb nw frameSize) then Return (inr (s, (0, Some "short write")))
                  else Return (inl
                    {| pending := drop (frameSize + StdWriterPrefixLen) p; src := src s; bufLen := bufLen s;
                       written := int64 (written s + Z.of_nat nw); dstout := dstout s; dsterr := dsterr s |})
              end
          end
      end
  end.

Fixpoint StdCopy_loop (fuel : nat) (s : Copy) : outcome (Copy * (Z * option string)) :=
  match fuel with
  | O => OutOfFuel
  | S n => r ← StdCopy_step s; match r with inl s => StdCopy_loop n s | inr x => Return x end
  end.

Definition StdCopy (out err : Dst) (r : Reader) : outcome (Copy * (Z * option string)) :=
  StdCopy_loop (S (length (concat (chunks r))))
    {| pending := []; src := r; bufLen := Z.to_nat (32 * 1024) + StdWriterPrefixLen + 1; written := 0; dstout := out; dsterr := err |}.

(** ** Frames *)

(** A frame: its first header byte and its bytes. *)
Definition frame : Type := Z * list Z.

Definition frame_ok (f : frame) : Prop := (f.1 = 0 \/ f.1 = 1 \/ f.1 = 2) /\ Z.of_nat (length f.2) < 2 ^ 32.

Definition encode (f : frame) : list Z := [f.1; 0; 0; 0] ++ be_PutUint32 (Z.of_nat (length f.2)) ++ f.2.
Definition mux (fs : list frame) : list Z := concat (encode <$> fs).

(** What the frames carry for one of the two destinations. *)
Definition payload (to_err : bool) (fs : list frame) : list Z :=
  concat (snd <$> List.filter (fun f => bool_decide (select_fd f.1 = Some to_err)) fs).

(** The end of a stream that was cut: less than a header, or a header whose
    frame is not there in full. *)
Definition incomplete (tail : list Z) : Prop :=
  (length tail < 8)%nat \/
  exists t n rest, (t = 0 \/ t = 1 \/ t = 2) /\ 0 <= n < 2 ^ 32 /\
    tail = [t; 0; 0; 0] ++ be_PutUint32 n ++ rest /\ Z.of_nat (length rest) < n.

Lemma Write_frame d t buf :
  room d = None -> Z.of_nat (length buf) < 2 ^ 32 ->
  Write (Some d) [t; 0; 0; 0; 0; 0; 0; 0] buf =
  (Some {| content := content d ++ encode (t, buf); room := None; short := short d |}, Z.of_nat (length buf), None).
Proof.
  intros Hr Hl. unfold Write, dst_write. rewrite Hr, wrapU_small by lia. cbn -[Z.div Z.modulo Z.of_nat Z.pow app].
  f_equal. f_equal. unfold be_PutUint32. rewrite !length_app. simpl length. unfold StdWriterPrefixLen. lia.
Qed.

(** ** The reader *)

Lemma fill_step_full need bl p r : (need <= length p)%nat -> fill_step need bl (p, r) = inr (p, r, Full).
Proof. intros H. unfold fill_step. by destruct (Nat.leb_spec need (length p)); [|lia]. Qed.

(** What the reading loops return: the same bytes, enough of them if there are. *)
Definition fill_post (need : nat) (all : list Z) (r0 : Reader) (x : list Z * Reader * filled) : Prop :=
  let '(p, r, f) := x in
  p ++ concat (chunks r) = all /\ with_last r = with_last r0 /\ final r = final r0 /\
  match f with
  | Full => (need <= length p)%nat
  | Short => (length all < need)%nat
  | Failed _ => False
  end.

Lemma fill_spec need bl p r :
  (need <= bl)%nat -> final r = None ->
  exists x, fill need bl (p, r) = Return x /\ fill_post need (p ++ concat (chunks r)) r x.
Proof.
  intros Hbl Hf. unfold fill.
  destruct (loop_total (fill_step need bl)
    (fun s => s.1 ++ concat (chunks s.2) = p ++ concat (chunks r) /\ with_last s.2 = with_last r /\ final s.2 = final r)
    fill_measure (fill_post need (p ++ concat (chunks r)) r) (p, r) (S (fill_measure (p, r)))) as (x&->&Hx).
  - intros [q [cs wl fi]] s' (H1&H2&H3) Hs. simpl in H1, H2, H3. unfold fill_step in Hs.
    destruct (Nat.leb_spec need (length q)); [done|]. unfold Read, final_err in Hs. cbn [chunks with_last final] in Hs.
    destruct cs as [|d rest]; [by destruct fi|].
    destruct (Nat.ltb_spec (bl - length q) (length d)).
    + injection Hs as <-. simpl. split.
      * split; [|done]. rewrite <- H1. simpl. rewrite <- !app_assoc, (app_assoc (take _ d)), take_drop. done.
      * unfold fill_measure. simpl. rewrite !length_app, length_drop. lia.
    + destruct wl; [destruct rest; [by destruct fi|]|]; injection Hs as <-; simpl; split.
      all: try (split; [rewrite <- H1; simpl; by rewrite <- app_assoc|done]).
      all: unfold fill_measure; simpl; rewrite ?length_app; lia.
  - intros [q [cs wl fi]] [[q' r'] f] (H1&H2&H3) Hs. simpl in H1, H2, H3. unfold fill_step in Hs.
    destruct (Nat.leb_spec need (length q)).
    { injection Hs as <- <- <-. by split_and!. }
    rewrite Hf in H3. subst fi. unfold Read, final_err in Hs. cbn [chunks with_last final] in Hs.
    destruct cs as [|d rest].
    + rewrite app_nil_r in Hs. injection Hs as <- <- <-. unfold fill_post. cbn [chunks with_last final concat]. rewrite ?Hf. split_and!; try done.
      destruct (Nat.ltb_spec (length q) need); [|lia]. rewrite app_nil_r in H1. rewrite <- H1. lia.
    + destruct (Nat.ltb_spec (bl - length q) (length d)); [done|].
      destruct wl; [|done]. destruct rest; [|done]. injection Hs as <- <- <-. unfold fill_post. cbn [chunks with_last final concat]. rewrite ?Hf.
      simpl in H1. rewrite app_nil_r in H1. rewrite app_nil_r. split_and!; try done.
      destruct (Nat.ltb_spec (length (q ++ d)) need); [rewrite <- H1; lia|lia].
  - done.
  - lia.
  - by exists x.
Qed.

(** ** Headers *)

Lemma be_Uint32_app n x : 0 <= n < 2 ^ 32 -> be_Uint32 (be_PutUint32 n ++ x) = Return n.
Proof.
  intros Hn. pose proof (ip_val_PutUint32 n Hn) as H. unfold be_PutUint32 in *. simpl in *. by f_equal.
Qed.

(** A buffer that holds the header of a frame. *)
Lemma header_read p x t n rest :
  p ++ x = [t; 0; 0; 0] ++ be_PutUint32 n ++ rest -> (8 <= length p)%nat -> 0 <= n < 2 ^ 32 ->
  p !! 0%nat = Some t /\ be_Uint32 (drop StdWriterSizeIndex p) = Return n /\
  drop 8 p ++ x = rest.
Proof.
  intros H Hp Hn.
  assert (p = [t; 0; 0; 0] ++ be_PutUint32 n ++ drop 8 p) as Ep.
  { rewrite <- (take_drop 8 p) at 1. assert (take 8 p = take 8 (p ++ x)) as -> by (by rewrite take_app_le).
    rewrite H. by rewrite (take_app_length' [t; 0; 0; 0] _ 4) || by rewrite app_assoc. }
  split_and!.
  - by rewrite Ep.
  - rewrite Ep. change (drop StdWriterSizeIndex ([t; 0; 0; 0] ++ be_PutUint32 n ++ drop 8 p)) with (be_PutUint32 n ++ drop 8 p).
    by apply be_Uint32_app.
  - rewrite Ep in H. rewrite <- !app_assoc in H. apply app_inv_head in H. by apply app_inv_head in H.
Qed.

Definition unlimited (d : Dst) : Prop := room d = None.

Definition recv (d : Dst) (p : list Z) : Dst := {| content := content d ++ p; room := None; short := short d |}.

Lemma dst_write_unlimited p d : unlimited d -> dst_write p d = (recv d p, length p, None).
Proof. intros H. unfold dst_write. by rewrite H. Qed.

(** A state of the copy with [all] still to read. *)
Definition copying (s : Copy) (all : list Z) : Prop :=
  pending s ++ concat (chunks (src s)) = all /\ final (src s) = None /\ (8 <= bufLen s)%nat /\
  unlimited (dstout s) /\ unlimited (dsterr s).

Lemma select_ok t : t = 0 \/ t = 1 \/ t = 2 -> exists b, select_fd t = Some b.
Proof. intros [-> | [-> | ->]]; by eexists. Qed.

Lemma StdCopy_step_frame s f all :
  copying s (encode f ++ all) -> frame_ok f -> 0 <= written s -> written s + Z.of_nat (length f.2) <= max_int64 ->
  exists s', StdCopy_step s = Return (inl s') /\ copying s' all /\
    written s' = written s + Z.of_nat (length f.2) /\
    dstout s' = (if decide (select_fd f.1 = Some false) then recv (dstout s) f.2 else dstout s) /\
    dsterr s' = (if decide (select_fd f.1 = Some true) then recv (dsterr s) f.2 else dsterr s).
Proof.
  intros (H1&H2&H3&H4&H5) [Ht Hlen] Hw0 Hw. unfold encode in H1. rewrite <- !app_assoc in H1.
  unfold StdCopy_step.
  destruct (fill_spec StdWriterPrefixLen (bufLen s) (pending s) (src s)) as ([[p r] fl]&->&Hp); [done|done|].
  destruct Hp as (P1&P2&P3&P4). cbn [mbind outcome_bind]. rewrite H1 in P1.
  destruct fl as [| |e]; [|exfalso|done].
  2: { rewrite H1, !length_app in P4. change (length (be_PutUint32 _)) with 4%nat in P4.
       unfold StdWriterPrefixLen in P4. simpl in P4. lia. }
  set (n := Z.of_nat (length f.2)) in *.
  destruct (header_read p _ f.1 n _ P1 P4) as (Hfd&Hsz&Hrest); [lia|].
  rewrite Hfd. cbn [or_panic mbind outcome_bind]. destruct (select_ok _ Ht) as [b Hb]. rewrite Hb.
  rewrite Hsz. cbn [mbind outcome_bind]. unfold n. rewrite Nat2Z.id.
  cbn [bufLen]. set (bl := if (_ <? _)%nat then _ else _).
  assert (length f.2 + StdWriterPrefixLen <= bl)%nat as Hbl.
  { unfold bl. destruct (Nat.ltb_spec (bufLen s) (length f.2 + StdWriterPrefixLen)); lia. }
  destruct (fill_spec (length f.2 + StdWriterPrefixLen) bl p r) as ([[p2 r2] fl]&->&Hp2); [done|congruence|].
  destruct Hp2 as (Q1&Q2&Q3&Q4). cbn [mbind outcome_bind]. rewrite P1 in Q1.
  destruct fl as [| |e]; [|exfalso|done].
  2: { rewrite P1, !length_app in Q4. change (length (be_PutUint32 _)) with 4%nat in Q4.
       unfold StdWriterPrefixLen in Q4. simpl in Q4. lia. }
  unfold StdWriterPrefixLen in *.
  destruct (header_read p2 _ f.1 n _ Q1) as (_&_&Hrest2); [lia|lia|].
  assert (take (length f.2) (drop 8 p2) = f.2 /\ drop (length f.2 + 8) p2 ++ concat (chunks r2) = all) as [Hd Ha].
  { assert (length f.2 <= length (drop 8 p2))%nat as Hle by (rewrite length_drop; lia). split.
    - rewrite <- (take_app_le _ (concat (chunks r2))) by done. rewrite Hrest2. by apply take_app_length'.
    - replace (length f.2 + 8)%nat with (8 + length f.2)%nat by lia. rewrite <- drop_drop.
      rewrite <- drop_app_le by done. rewrite Hrest2. by apply drop_app_length'. }
  cbn [dstout dsterr]. rewrite Hd. rewrite dst_write_unlimited by (by destruct b).
  rewrite Nat.eqb_refl. cbn [negb pending src bufLen written dstout dsterr].
  eexists. split; [done|]. cbn [pending src bufLen written dstout dsterr]. split_and!.
  - unfold copying. cbn [pending src bufLen written dstout dsterr]. split_and!.
    + done.
    + congruence.
    + lia.
    + by destruct b.
    + by destruct b.
  - apply wrapS_small; [lia|]. change (2 ^ (64 - 1)) with 9223372036854775808. unfold max_int64 in Hw. lia.
  - by destruct b.
  - by destruct b.
Qed.

Lemma StdCopy_step_end s tail :
  copying s tail -> incomplete tail ->
  exists s', StdCopy_step s = Return (inr (s', (written s, None))) /\ dstout s' = dstout s /\ dsterr s' = dsterr s.
Proof.
  intros (H1&H2&H3&H4&H5) Hi. unfold StdCopy_step.
  destruct (fill_spec StdWriterPrefixLen (bufLen s) (pending s) (src s)) as ([[p r] fl]&->&Hp); [done|done|].
  destruct Hp as (P1&P2&P3&P4). cbn [mbind outcome_bind]. rewrite H1 in P1, P4.
  destruct fl as [| |e]; [|by eexists|done].
  destruct Hi as [Hi|(t&n&rest&Ht&Hn&->&Hr)].
  { rewrite <- P1, length_app in Hi. unfold StdWriterPrefixLen in P4. lia. }
  destruct (header_read p _ t n rest P1 P4 Hn) as (Hfd&Hsz&Hrest).
  rewrite Hfd. cbn [or_panic mbind outcome_bind]. destruct (select_ok _ Ht) as [b Hb]. rewrite Hb, Hsz.
  cbn [mbind outcome_bind bufLen]. set (bl := if (_ <? _)%nat then _ else _).
  assert (Z.to_nat n + StdWriterPrefixLen <= bl)%nat as Hbl.
  { unfold bl. destruct (Nat.ltb_spec (bufLen s) (Z.to_nat n + StdWriterPrefixLen)); lia. }
  destruct (fill_spec (Z.to_nat n + StdWriterPrefixLen) bl p r) as ([[p2 r2] fl]&->&Hp2); [done|congruence|].
  destruct Hp2 as (Q1&Q2&Q3&Q4). cbn [mbind outcome_bind]. rewrite P1 in Q1, Q4.
  destruct fl as [| |e]; [exfalso|by eexists|done].
  apply (f_equal length) in Q1. rewrite !length_app in Q1. unfold StdWriterPrefixLen in Q4. simpl in Q1. lia.
Qed.

Lemma payload_cons b f fs :
  payload b (f :: fs) = (if decide (select_fd f.1 = Some b) then f.2 else []) ++ payload b fs.
Proof. unfold payload. simpl. rewrite bool_decide_decide. by destruct (decide (select_fd f.1 = Some b)). Qed.

Lemma recv_recv d p q : recv (recv d p) q = recv d (p ++ q).
Proof. unfold recv. simpl. by rewrite app_assoc. Qed.

Lemma recv_nil d : unlimited d -> recv d [] = d.
Proof. destruct d. unfold recv, unlimited. simpl. intros ->. by rewrite app_nil_r. Qed.

Lemma StdCopy_loop_spec fs tail : forall fuel s,
  copying s (mux fs ++ tail) -> Forall frame_ok fs -> incomplete tail -> (length fs < fuel)%nat ->
  0 <= written s -> written s + Z.of_nat (length (mux fs)) <= max_int64 ->
  exists s', StdCopy_loop fuel s = Return (s', (written s + Z.of_nat (length (payload false fs) + length (payload true fs)), None)) /\
    dstout s' = recv (dstout s) (payload false fs) /\ dsterr s' = recv (dsterr s) (payload true fs).
Proof.
  induction fs as [|f fs IH]; intros fuel s Hs Hfs Ht Hfuel Hw0 Hw; (destruct fuel as [|fuel]; [simpl in Hfuel; lia|]).
  - destruct (StdCopy_step_end s tail Hs Ht) as (s'&E&E1&E2). cbn [StdCopy_loop]. rewrite E. cbn [mbind outcome_bind].
    exists s'. change (payload false []) with (@nil Z). change (payload true []) with (@nil Z).
    destruct Hs as (_&_&_&U1&U2). rewrite !recv_nil by done. simpl. rewrite Z.add_0_r. done.
  - apply Forall_cons in Hfs as [Hf Hfs]. change (mux (f :: fs)) with (encode f ++ mux fs) in Hs, Hw.
    rewrite <- app_assoc in Hs. rewrite length_app in Hw.
    assert (length f.2 <= length (encode f))%nat as Hle by (unfold encode; rewrite !length_app; lia).
    destruct (StdCopy_step_frame s f _ Hs Hf Hw0) as (s1&E&C&W&D1&D2); [lia|].
    cbn [StdCopy_loop]. rewrite E. cbn [mbind outcome_bind].
    destruct (IH fuel s1 C Hfs Ht) as (s'&->&E1&E2); [simpl in Hfuel; lia|lia|lia|].
    exists s'. rewrite E1, E2, D1, D2, !payload_cons, W. destruct Hs as (_&_&_&U1&U2). destruct Hf as [Hfd _].
    destruct Hfd as [Hfd|[Hfd|Hfd]]; rewrite Hfd; simpl; rewrite ?recv_recv; split; try done;
      do 3 f_equal; rewrite ?length_app; lia.
Qed.

(** ** Properties *)

(** What [StdWriter.Write] puts on the connection for a list of prints, each
    on the stream with that first prefix byte. *)
Definition write_all (fs : list frame) (d : Dst) : Dst :=
  foldl (fun d f => match (Write (Some d) [f.1; 0; 0; 0; 0; 0; 0; 0] f.2).1.1 with Some d => d | None => d end) d fs.

Lemma write_all_mux fs : forall d, unlimited d -> Forall frame_ok fs -> write_all fs d = recv d (mux fs).
Proof.
  induction fs as [|f fs IH]; intros d Hd Hfs; [by rewrite recv_nil|].
  apply Forall_cons in Hfs as [[Ht Hf] Hfs]. unfold write_all. cbn [foldl].
  rewrite Write_frame by done. etrans; [exact (IH (recv d (encode f)) eq_refl Hfs)|]. apply recv_recv.
Qed.

(** C10. Demultiplexing inverts multiplexing.  Take what writers printed with
    [StdWriter.Write] on stdin, stdout and stderr, any way the connection cuts
    the bytes into reads (empty reads, and an end of file that comes with the
    last bytes, included), and possibly an incomplete last frame: [StdCopy]
    terminates without error, gives each destination exactly what was printed
    for it in order, drops the incomplete frame and counts the bytes. *)
Theorem StdCopy_demux fs tail r out err :
  Forall frame_ok fs -> incomplete tail -> unlimited out -> unlimited err ->
  final r = None -> concat (chunks r) = content (write_all fs {| content := []; room := None; short := false |}) ++ tail ->
  Z.of_nat (length (concat (chunks r))) <= max_int64 ->
  exists s, StdCopy out err r =
      Return (s, (Z.of_nat (length (payload false fs) + length (payload true fs)), None)) /\
    content (dstout s) = content out ++ payload false fs /\
    content (dsterr s) = content err ++ payload true fs.
Proof.
  intros Hfs Ht Ho He Hr Hc Hmax. rewrite write_all_mux in Hc by done. simpl in Hc.
  unfold StdCopy. match goal with |- context [StdCopy_loop ?n ?s] => destruct (StdCopy_loop_spec fs tail n s) as (s'&->&E1&E2) end.
  - unfold copying. cbn [pending src bufLen dstout dsterr app]. unfold StdWriterPrefixLen. split_and!; try done. lia.
  - done.
  - done.
  - rewrite Hc, length_app. assert (length fs <= length (mux fs))%nat; [|lia].
    clear. induction fs as [|f fs IH]; [done|]. change (mux (f :: fs)) with (encode f ++ mux fs).
    unfold encode. rewrite !length_app. simpl. lia.
  - done.
  - simpl. rewrite Hc, length_app in Hmax. lia.
  - exists s'. split; [done|]. rewrite E1, E2. done.
Qed.

Lemma StdCopy_demux_witness :
  exists s, StdCopy {| content := []; room := None; short := false |} {| content := []; room := None; short := false |}
      {| chunks := [[1;0;0;0;0;0]; []; [0;2;104;105;2;0;0;0;0;0;0;1;33;1;0]]; with_last := true; final := None |} =
      Return (s, (3, None)) /\ content (dstout s) = [104; 105] /\ content (dsterr s) = [33].
Proof.
  apply (StdCopy_demux [(1, [104; 105]); (2, [33])] [1; 0]
    {| chunks := [[1;0;0;0;0;0]; []; [0;2;104;105;2;0;0;0;0;0;0;1;33;1;0]]; with_last := true; final := None |}).
  - repeat constructor; simpl; lia.
  - left. simpl. lia.
  - reflexivity.
  - reflexivity.
  - reflexivity.
  - reflexivity.
  - simpl. unfold max_int64. lia.
Defined.
