(* ===== verification/Tags.v ===== *)
(** * pkg/truncindex and graph/tags.go: names of images

    [TruncIndex] finds an identifier by any unique prefix; the patricia trie
    it is built on is the interface [Trie], whose laws are its documentation.
    [TagStore] maps repository names and tags to image identifiers, with a
    copy on disk that every operation reads again; the image store is used
    through the interface [ImageGraph], which Images.v implements over a
    [TruncIndex]. *)

From stdpp Require Import base gmap sets list strings sorting.
From Stdlib Require Import ZArith Lia Ascii.
From S2P Require Import Prelude GoStrings Parsers.

Local Open Scope Z_scope.

(** ** The trie interface *)

(** A set of keys with insertion, deletion and the visit of the keys under a
    prefix; [visit] lists them in visiting order. *)
Class Trie (T : Type) := {
  trie_keys : T -> gset string;
  trie_new : T;
  trie_insert : string -> T -> T * bool;
  trie_delete : string -> T -> T * bool;
  trie_visit : string -> T -> list string;
  trie_new_keys : trie_keys trie_new = ∅;
  trie_insert_keys : forall k t, trie_keys (trie_insert k t).1 = {[k]} ∪ trie_keys t;
  trie_insert_new : forall k t, (trie_insert k t).2 = bool_decide (k ∉ trie_keys t);
  trie_delete_keys : forall k t, trie_keys (trie_delete k t).1 = trie_keys t ∖ {[k]};
  trie_delete_found : forall k t, (trie_delete k t).2 = bool_decide (k ∈ trie_keys t);
  trie_visit_keys : forall p t k, k ∈ trie_visit p t <-> k ∈ trie_keys t /\ has_prefix p k = true;
  trie_visit_once : forall p t, NoDup (trie_visit p t) }.

(** ** TruncIndex *)

Record TruncIndex (T : Type) := { ids : gset string; trie : T }.
Arguments ids {T} _.
Arguments trie {T} _.

Definition ErrNoID : string := "prefix can't be empty".

Section TruncIndex.
Context {T : Type} `{Trie T}.

Definition addId (id : string) (idx : TruncIndex T) : TruncIndex T * result string () :=
  if contains_char " " id then (idx, Err "Illegal character: ' '")
  else if String.eqb id "" then (idx, Err ErrNoID)
  else if bool_decide (id ∈ ids idx) then (idx, Err ("Id already exists: '" +:+ id +:+ "'"))
  else
    let '(t, inserted) := trie_insert id (trie idx) in
    ({| ids := {[id]} ∪ ids idx; trie := t |},
     if negb inserted then Err ("Failed to insert id: " +:+ id) else Ok ()).

(** [NewTruncIndex] ignores the errors. *)
Definition NewTruncIndex (l : list string) : TruncIndex T :=
  foldl (fun idx id => fst (addId id idx)) {| ids := ∅; trie := trie_new |} l.

Definition Add (id : string) (idx : TruncIndex T) : TruncIndex T * result string () := addId id idx.

Definition Delete_id (id : string) (idx : TruncIndex T) : TruncIndex T * result string () :=
  if negb (bool_decide (id ∈ ids idx)) || String.eqb id "" then (idx, Err ("No such id: '" +:+ id +:+ "'"))
  else
    let '(t, deleted) := trie_delete id (trie idx) in
    ({| ids := ids idx ∖ {[id]}; trie := t |},
     if negb deleted then Err ("No such id: '" +:+ id +:+ "'") else Ok ()).

(** The visitor of [Get] over the visited keys: it stops at the second one. *)
Fixpoint visit_ids (id : string) (keys : list string) : result string string :=
  match keys with
  | [] => Ok id
  | k :: keys => if negb (String.eqb id "") then Err "we've found two entries" else visit_ids k keys
  end.

Definition Get_id (s : string) (idx : TruncIndex T) : result string string :=
  if String.eqb s "" then Err ErrNoID
  else match visit_ids "" (trie_visit s (trie idx)) with
       | Err _ => Err ("No such id: " +:+ s)
       | Ok id => if negb (String.eqb id "") then Ok id else Err ("No such id: " +:+ s)
       end.

(** The index and its trie hold the same identifiers, none empty. *)
Definition idx_wf (idx : TruncIndex T) : Prop := trie_keys (trie idx) = ids idx /\ (""%string ∉ ids idx).

Lemma addId_spec id idx :
  idx_wf idx ->
  idx_wf (addId id idx).1 /\
  (is_ok (addId id idx).2 = true <-> contains_char " " id = false /\ id <> "" /\ (id ∉ ids idx)) /\
  ids (addId id idx).1 = (if is_ok (addId id idx).2 then {[id]} ∪ ids idx else ids idx).
Proof.
  intros [Hk He]. unfold addId. destruct (contains_char " " id) eqn:Ec; [by split_and!; [|naive_solver|]|].
  destruct (String.eqb_spec id "") as [->|Hne]; [by split_and!; [|naive_solver|]|].
  destruct (bool_decide (id ∈ ids idx)) eqn:Ei.
  { apply bool_decide_eq_true in Ei. split_and!; [done| |done]. split; [done|]. by intros (_&_&?). }
  apply bool_decide_eq_false in Ei.
  pose proof (trie_insert_keys id (trie idx)) as H1. pose proof (trie_insert_new id (trie idx)) as H2.
  destruct (trie_insert id (trie idx)) as [t b]. simpl in *. rewrite Hk in *.
  rewrite bool_decide_eq_true_2 in H2 by done. subst b. simpl. split_and!; [|done|done].
  split; simpl; [done|]. set_solver.
Qed.

Lemma visit_ids_spec l : (""%string ∉ l) ->
  match l with
  | [] => visit_ids "" l = Ok ""
  | [k] => visit_ids "" l = Ok k
  | _ => is_ok (visit_ids "" l) = false
  end.
Proof.
  intros He. destruct l as [|k [|k' l]]; [done|done|]. simpl.
  destruct (String.eqb_spec k ""); [|done]. subst k. exfalso. apply He. by left.
Qed.

Lemma Get_id_spec s idx id :
  idx_wf idx ->
  Get_id s idx = Ok id <->
  s <> "" /\ id ∈ ids idx /\ has_prefix s id = true /\
  forall id', id' ∈ ids idx -> has_prefix s id' = true -> id' = id.
Proof.
  intros [Hk He]. unfold Get_id. destruct (String.eqb_spec s "") as [->|Hs]; [split; [done|by intros [? _]]|].
  pose proof (trie_visit_keys s (trie idx)) as Hv. rewrite Hk in Hv.
  assert (""%string ∉ trie_visit s (trie idx)) as Hne by (rewrite Hv; tauto).
  pose proof (trie_visit_once s (trie idx)) as Hnd.
  pose proof (visit_ids_spec _ Hne) as Hvis. destruct (trie_visit s (trie idx)) as [|k [|k' l]].
  - rewrite Hvis. simpl. split; [done|]. intros (_&H1&H2&_). exfalso. by eapply elem_of_nil, Hv.
  - rewrite Hvis. assert (k <> "") as Hkne by (intros ->; apply Hne; by left).
    destruct (String.eqb_spec k ""); [done|]. simpl.
    assert (k ∈ ids idx /\ has_prefix s k = true) as [H1 H2] by (apply Hv; by left). split.
    + intros [= <-]. split_and!; try done. intros id' Hi Hp.
      assert (id' ∈ [k]) as Hin by (by apply Hv). by apply list_elem_of_singleton in Hin.
    + intros (_&_&_&Hu). f_equal. by apply Hu.
  - destruct (visit_ids "" (k :: k' :: l)); [done|]. split; [done|]. intros (_&_&_&Hu).
    assert (k = id) as -> by (apply Hu; apply Hv; by left).
    assert (k' = id) as -> by (apply Hu; apply Hv; right; by left).
    apply NoDup_cons in Hnd as [Hnd _]. exfalso. apply Hnd. by left.
Qed.

Lemma Delete_id_spec id idx :
  idx_wf idx ->
  idx_wf (Delete_id id idx).1 /\
  (is_ok (Delete_id id idx).2 = true <-> id ∈ ids idx) /\
  ids (Delete_id id idx).1 = ids idx ∖ {[id]}.
Proof.
  intros [Hk He]. unfold Delete_id. destruct (bool_decide (id ∈ ids idx)) eqn:Ei; simpl.
  - apply bool_decide_eq_true in Ei. destruct (String.eqb_spec id "") as [->|Hne]; [done|].
    pose proof (trie_delete_keys id (trie idx)) as H1. pose proof (trie_delete_found id (trie idx)) as H2.
    destruct (trie_delete id (trie idx)) as [t b]. simpl in *. rewrite Hk in *.
    rewrite bool_decide_eq_true_2 in H2 by done. subst b. split_and!; [|done|done].
    split; simpl; [done|]. set_solver.
  - apply bool_decide_eq_false in Ei. split_and!; [done|done|]. set_solver.
Qed.
End TruncIndex.

Arguments NewTruncIndex {T} {_} l.

(** A trie as a list of its keys. *)
#[export] Program Instance list_trie : Trie (list string) := {
  trie_keys l := list_to_set l;
  trie_new := [];
  trie_insert k l := if decide (k ∈ l) then (l, false) else (k :: l, true);
  trie_delete k l := (List.filter (fun x => negb (String.eqb x k)) l, bool_decide (k ∈ l));
  trie_visit p l := remove_dups (List.filter (has_prefix p) l) }.
Next Obligation. done. Qed.
Next Obligation. intros k l. simpl. case_decide; simpl; set_solver. Qed.
Next Obligation. intros k l. simpl. case_decide; simpl; case_bool_decide; set_solver. Qed.
Next Obligation.
  intros k l. simpl. apply set_eq. intros x. rewrite elem_of_list_to_set, elem_of_difference, elem_of_list_to_set, elem_of_singleton.
  rewrite list_elem_of_In, List.filter_In, <- list_elem_of_In. destruct (String.eqb_spec x k); naive_solver.
Qed.
Next Obligation. intros k l. simpl. apply bool_decide_ext. by rewrite elem_of_list_to_set. Qed.
Next Obligation.
  intros p l k. simpl. rewrite elem_of_remove_dups, elem_of_list_to_set.
  rewrite list_elem_of_In, List.filter_In, <- list_elem_of_In. done.
Qed.
Next Obligation. intros p l. apply NoDup_remove_dups. Qed.

(** A truncated index answers for a prefix exactly when one identifier has
    it: after any additions and deletions from an empty index, [Get] of a
    non-empty text returns the identifier of which it is a prefix when there
    is exactly one (an identifier that is a prefix of another is not found
    even by its full text), and otherwise fails; [Add] refuses exactly blanks,
    the empty text and duplicates. *)
Theorem TruncIndex_spec {T} `{Trie T} l ops s id :
  let step idx '((add, i) : bool * string) := fst (if (add : bool) then Add i idx else Delete_id i idx) in
  let idx := foldl step (NewTruncIndex l) ops in
  (Get_id s idx = Ok id <->
   s <> "" /\ id ∈ ids idx /\ has_prefix s id = true /\
   forall id', id' ∈ ids idx -> has_prefix s id' = true -> id' = id) /\
  (is_ok (Add id idx).2 = true <-> contains_char " " id = false /\ id <> "" /\ (id ∉ ids idx)) /\
  (is_ok (Add id idx).2 = true -> ids (Add id idx).1 = {[id]} ∪ ids idx) /\
  (is_ok (Delete_id id idx).2 = true <-> id ∈ ids idx) /\
  ids (Delete_id id idx).1 = ids idx ∖ {[id]}.
Proof.
  intros step idx.
  assert (idx_wf idx) as Hw.
  { assert (idx_wf (NewTruncIndex l)) as H0.
    { unfold NewTruncIndex. assert (idx_wf {| ids := ∅; trie := trie_new |}) as Hs.
      { split; simpl; [apply trie_new_keys|set_solver]. }
      revert Hs. generalize {| ids := ∅; trie := trie_new |} as i0. induction l as [|x l IH]; intros i0 Hi; [done|].
      simpl. apply IH. by apply addId_spec. }
    unfold idx. revert H0. generalize (NewTruncIndex l) as i0. clear idx.
    induction ops as [|[add x] ops IH]; intros i0 Hi; [done|]. simpl. apply IH.
    destruct add; [by apply addId_spec|by apply Delete_id_spec]. }
  destruct (addId_spec id idx Hw) as (_&A1&A2). destruct (Delete_id_spec id idx Hw) as (_&D1&D2).
  split_and!; [by apply Get_id_spec|exact A1| |exact D1|exact D2].
  intros Hok. unfold Add in *. by rewrite A2, Hok.
Qed.

(** ** TagStore *)

Abbreviation Repository := (gmap string string).

(** The JSON file: its contents ([None] before it exists), and what reading
    and writing it fail with. *)
Record Disk := { file : option (gmap string Repository); read_err : option string; write_err : option string }.

Record TagStore := {
  Repositories : gmap string Repository;
  disk : Disk;
  pullingPool : gmap string nat;
  pushingPool : gmap string nat;
  next_chan : nat;
  closed_chans : gset nat }.

Definition DEFAULTTAG : string := "latest".

Definition with_repos (s : TagStore) r : TagStore :=
  {| Repositories := r; disk := disk s; pullingPool := pullingPool s; pushingPool := pushingPool s;
     next_chan := next_chan s; closed_chans := closed_chans s |}.
Definition with_disk (s : TagStore) d : TagStore :=
  {| Repositories := Repositories s; disk := d; pullingPool := pullingPool s; pushingPool := pushingPool s;
     next_chan := next_chan s; closed_chans := closed_chans s |}.

(** The image store, as far as tags need it: the image of type [I] that a name
    denotes, and its identifier. *)
Class ImageGraph (I : Type) := {
  image_ID : I -> string;
  graph_Get : string -> result string I }.

Section TagStore.
Context {I : Type} `{ImageGraph I}.
(** The order in which Go ranges over a map. *)
Context (order : forall V, gmap string V -> list (string * V)).

Definition save (s : TagStore) : TagStore * result string () :=
  match write_err (disk s) with
  | Some e => (s, Err e)
  | None => (with_disk s {| file := Some (Repositories s); read_err := read_err (disk s); write_err := None |}, Ok ())
  end.

(** Decoding JSON into the existing map keeps the entries that the file does
    not have. *)
Definition reload (s : TagStore) : TagStore * result string () :=
  match read_err (disk s), file (disk s) with
  | Some e, _ => (s, Err e)
  | None, None => (s, Err "no such file or directory")
  | None, Some r => (with_repos s (r ∪ Repositories s), Ok ())
  end.

Definition Get (repoName : string) (s : TagStore) : TagStore * result string (option Repository) :=
  let '(s, r) := reload s in
  match r with Err e => (s, Err e) | Ok _ => (s, Ok (Repositories s !! repoName)) end.

(** The first revision, in range order, that has the text as a prefix. *)
Definition find_revision (tagOrID : string) (repo : Repository) : option string :=
  list_find (fun p => has_prefix tagOrID p.2 = true) (order string repo) ≫= (fun x => Some x.2.2).

Definition GetImage (repoName tagOrID : string) (s : TagStore) : TagStore * result string (option I) :=
  let '(s, r) := Get repoName s in
  (s, match r with
      | Err e => Err e
      | Ok None => Ok None
      | Ok (Some repo) =>
          match repo !! tagOrID with
          | Some revision => Some <$> graph_Get revision
          | None => match find_revision tagOrID repo with
                    | Some revision => Some <$> graph_Get revision
                    | None => Ok None
                    end
          end
      end).

Definition LookupImage (name : string) (s : TagStore) : TagStore * result string I :=
  let '(repos, tag) := ParseRepositoryTag name in
  let '(s, r) := GetImage repos (if String.eqb tag "" then DEFAULTTAG else tag) s in
  (s, match r with
      | Err e => Err e
      | Ok None => graph_Get name
      | Ok (Some img) => Ok img
      end).

Definition validateRepoName (name : string) : result string () :=
  if String.eqb name "" then Err "Repository name can't be empty" else Ok ().

Definition validateTagName (name : string) : result string () :=
  if String.eqb name "" then Err "Tag name can't be empty"
  else if contains_char "/" name || contains_char ":" name then Err ("Illegal tag name: " +:+ name)
  else Ok ().

(** [Set]; the conflict test of the source is inside the branch where the
    repository does not exist. *)
Definition Set_ (repoName tag imageName : string) (force : bool) (s : TagStore) : TagStore * result string () :=
  let '(s, img) := LookupImage imageName s in
  match img with
  | Err e => (s, Err e)
  | Ok img =>
      let tag := if String.eqb tag "" then DEFAULTTAG else tag in
      match validateRepoName repoName with
      | Err e => (s, Err e)
      | Ok _ =>
          match validateTagName tag with
          | Err e => (s, Err e)
          | Ok _ =>
              let '(s, r) := reload s in
              match r with
              | Err e => (s, Err e)
              | Ok _ =>
                  let repo :=
                    match Repositories s !! repoName with
                    | Some r => Ok r
                    | None =>
                        match Repositories s !! repoName with
                        | Some old => if negb force then Err ("Conflict: Tag " +:+ repoName +:+ ":" +:+ tag +:+ " is already set")
                                      else Ok ∅
                        | None => Ok ∅
                        end
                    end in
                  match repo with
                  | Err e => (s, Err e)
                  | Ok repo => save (with_repos s (<[repoName := <[tag := image_ID img]> repo]> (Repositories s)))
                  end
              end
          end
      end
  end.

Definition Delete (repoName tag : string) (s : TagStore) : TagStore * result string bool :=
  let '(s, r) := reload s in
  match r with
  | Err e => (s, Err e)
  | Ok _ =>
      match Repositories s !! repoName with
      | None => (s, Err ("No such repository: " +:+ repoName))
      | Some r =>
          let repos :=
            if negb (String.eqb tag "") then
              match r !! tag with
              | Some _ =>
                  let r := delete tag r in
                  Ok (if bool_decide (r = ∅) then delete repoName (Repositories s)
                      else <[repoName := r]> (Repositories s))
              | None => Err ("No such tag: " +:+ repoName +:+ ":" +:+ tag)
              end
            else Ok (delete repoName (Repositories s)) in
          match repos with
          | Err e => (s, Err e)
          | Ok repos =>
              let '(s, r) := save (with_repos s repos) in
              (s, match r with Ok _ => Ok true | Err e => Err e end)
          end
      end
  end.

(** The names of the store in range order: (name, identifier). *)
Definition all_names (s : TagStore) : list (string * string) :=
  '(repoName, repository) ← order _ (Repositories s);
  '(tag, id) ← order _ repository;
  [(repoName +:+ ":" +:+ tag, id)].

Definition ByID_step (byID : gmap string (list string)) '((name, id) : string * string) : gmap string (list string) :=
  match byID !! id with
  | None => <[id := [name]]> byID
  | Some names => <[id := merge_sort String.le (names ++ [name])]> byID
  end.

Definition ByID (s : TagStore) : gmap string (list string) := foldl ByID_step ∅ (all_names s).

(** [utils.TruncateID]: the first twelve characters. *)
Definition TruncateID (id : string) : string := take_str 12 id.

Definition ImageName (id : string) (s : TagStore) : string :=
  match ByID s !! id with Some (n :: _) => n | _ => TruncateID id end.

(** The loop of [DeleteAll]; a name is cut at its first colon. *)
Fixpoint DeleteAll_loop (names : list string) (s : TagStore) : TagStore * result string () :=
  match names with
  | [] => (s, Ok ())
  | name :: names =>
      let '(s, r) :=
        if contains_char ":" name then
          match split ":" name with
          | a :: b :: _ => Delete a b s
          | _ => (s, Ok false)
          end
        else Delete name "" s in
      match r with Err e => (s, Err e) | Ok _ => DeleteAll_loop names s end
  end.

Definition DeleteAll (id : string) (s : TagStore) : TagStore * result string () :=
  match ByID s !! id with
  | None => (s, Ok ())
  | Some names => DeleteAll_loop names s
  end.

Definition GetRepoRefs (s : TagStore) : gmap string (list string) :=
  foldl (fun refs '(name, id) => <[TruncateID id := default [] (refs !! TruncateID id) ++ [name]]> refs) ∅ (all_names s).
End TagStore.

(** ** Transfers in progress *)

Definition poolAdd (kind key : string) (s : TagStore) : TagStore * result (option nat * string) nat :=
  match pullingPool s !! key with
  | Some c => (s, Err (Some c, "pull " +:+ key +:+ " is already in progress"))
  | None =>
      match pushingPool s !! key with
      | Some c => (s, Err (Some c, "push " +:+ key +:+ " is already in progress"))
      | None =>
          let c := next_chan s in
          if String.eqb kind "pull" then
            ({| Repositories := Repositories s; disk := disk s; pullingPool := <[key := c]> (pullingPool s);
                pushingPool := pushingPool s; next_chan := S c; closed_chans := closed_chans s |}, Ok c)
          else if String.eqb kind "push" then
            ({| Repositories := Repositories s; disk := disk s; pullingPool := pullingPool s;
                pushingPool := <[key := c]> (pushingPool s); next_chan := S c; closed_chans := closed_chans s |}, Ok c)
          else (s, Err (None, "Unknown pool type"))
      end
  end.

(** Closing a closed channel panics. *)
Definition pool_close (c : nat) (s : TagStore) : outcome (gset nat) :=
  if decide (c ∈ closed_chans s) then Panic else Return ({[c]} ∪ closed_chans s).

Definition poolRemove (kind key : string) (s : TagStore) : outcome (TagStore * result string ()) :=
  if String.eqb kind "pull" then
    match pullingPool s !! key with
    | Some c =>
        cl ← pool_close c s;
        Return ({| Repositories := Repositories s; disk := disk s; pullingPool := delete key (pullingPool s);
                   pushingPool := pushingPool s; next_chan := next_chan s; closed_chans := cl |}, Ok ())
    | None => Return (s, Ok ())
    end
  else if String.eqb kind "push" then
    match pushingPool s !! key with
    | Some c =>
        cl ← pool_close c s;
        Return ({| Repositories := Repositories s; disk := disk s; pullingPool := pullingPool s;
                   pushingPool := delete key (pushingPool s); next_chan := next_chan s; closed_chans := cl |}, Ok ())
    | None => Return (s, Ok ())
    end
  else Return (s, Err "Unknown pool type").

(** ** Lemmas *)

(** Memory and disk agree and the disk works. *)
Definition synced (s : TagStore) : Prop :=
  disk s = {| file := Some (Repositories s); read_err := None; write_err := None |}.

(** No repository is empty. *)
Definition no_empty (s : TagStore) : Prop := map_Forall (fun _ r => r <> ∅) (Repositories s).

(** What a tag points to. *)
Definition tag_of (s : TagStore) (repo tag : string) : option string :=
  Repositories s !! repo ≫= (fun r => r !! tag).

Lemma reload_synced s : synced s -> reload s = (s, Ok ()).
Proof.
  intros Hs. unfold reload. rewrite Hs. simpl. rewrite map_union_idemp.
  unfold with_repos. by destruct s.
Qed.

Lemma save_synced s r : synced s ->
  exists s', save (with_repos s r) = (s', Ok ()) /\ synced s' /\ Repositories s' = r /\
    pullingPool s' = pullingPool s /\ pushingPool s' = pushingPool s.
Proof. intros Hs. unfold save. simpl. rewrite Hs. simpl. eexists. split; [done|]. done. Qed.

Section TagLemmas.
Context {I : Type} `{ImageGraph I} (order : forall V, gmap string V -> list (string * V)).

Lemma GetImage_synced s repo tag : synced s ->
  GetImage order repo tag s =
  (s, match Repositories s !! repo with
      | None => Ok None
      | Some r => match r !! tag with
                  | Some id => Some <$> graph_Get id
                  | None => match find_revision order tag r with Some id => Some <$> graph_Get id | None => Ok None end
                  end
      end).
Proof.
  intros Hs. unfold GetImage, Get. rewrite reload_synced by done.
  by destruct (Repositories s !! repo).
Qed.

Lemma LookupImage_synced s name : synced s -> (LookupImage order name s).1 = s.
Proof.
  intros Hs. unfold LookupImage. destruct (ParseRepositoryTag name) as [repo tag].
  by rewrite GetImage_synced.
Qed.

Lemma validateTagName_ok tag : is_ok (validateTagName tag) = true <->
  tag <> "" /\ contains_char "/" tag = false /\ contains_char ":" tag = false.
Proof.
  unfold validateTagName. destruct (String.eqb_spec tag "") as [->|Hne]; [split; [done|by intros []]|].
  destruct (contains_char "/" tag), (contains_char ":" tag); simpl; split; try done; by intros (?&?&?).
Qed.

Lemma Set_synced s repo tag name force img :
  synced s -> (LookupImage order name s).2 = Ok img -> repo <> "" -> is_ok (validateTagName tag) = true ->
  exists s', Set_ order repo tag name force s = (s', Ok ()) /\ synced s' /\
    Repositories s' = <[repo := <[tag := image_ID img]> (default ∅ (Repositories s !! repo))]> (Repositories s).
Proof.
  intros Hs Hl Hr Ht. pose proof (LookupImage_synced s name Hs) as H1. unfold Set_.
  destruct (LookupImage order name s) as [s1 i]. simpl in H1, Hl. subst s1 i.
  pose proof (proj1 (validateTagName_ok tag) Ht) as (Hne&_&_).
  destruct (String.eqb_spec tag ""); [done|]. unfold validateRepoName. destruct (String.eqb_spec repo ""); [done|].
  destruct (validateTagName tag) as [[]|]; [|done]. rewrite reload_synced by done.
  destruct (Repositories s !! repo) as [r|] eqn:Er; simpl.
  - destruct (save_synced s (<[repo := <[tag := image_ID img]> r]> (Repositories s)) Hs) as (s'&->&S1&S2&_). by exists s'.
  - destruct (save_synced s (<[repo := <[tag := image_ID img]> ∅]> (Repositories s)) Hs) as (s'&->&S1&S2&_). by exists s'.
Qed.

Lemma Set_cases s repo tag name force img s' r :
  synced s -> (LookupImage order name s).2 = Ok img -> Set_ order repo tag name force s = (s', r) ->
  match r with
  | Ok _ => synced s' /\ Repositories s' =
      <[repo := <[(if String.eqb tag "" then DEFAULTTAG else tag) := image_ID img]> (default ∅ (Repositories s !! repo))]> (Repositories s)
  | Err _ => s' = s
  end.
Proof.
  intros Hs Hl E. pose proof (LookupImage_synced s name Hs) as H1. unfold Set_ in E.
  destruct (LookupImage order name s) as [s1 i]. simpl in H1, Hl. subst s1 i.
  destruct (validateRepoName repo); [|by injection E as <- <-]. destruct (validateTagName _); [|by injection E as <- <-].
  rewrite reload_synced in E by done. set (t := if String.eqb tag "" then DEFAULTTAG else tag) in *.
  destruct (save_synced s (<[repo := <[t := image_ID img]> (default ∅ (Repositories s !! repo))]> (Repositories s)) Hs) as (s2 & Hsv & S1 & S2 & _).
  destruct (Repositories s !! repo) as [q|]; [change (default ∅ (Some q)) with q in *|change (default ∅ None) with (∅ : Repository) in *]; simpl in E; rewrite Hsv in E; by injection E as <- <-.
Qed.

Lemma Delete_synced s repo tag :
  synced s -> tag <> "" ->
  match tag_of s repo tag with
  | None => Delete repo tag s = (s, Err (match Repositories s !! repo with
                                          | Some _ => "No such tag: " +:+ repo +:+ ":" +:+ tag
                                          | None => "No such repository: " +:+ repo
                                          end))
  | Some _ => exists s', Delete repo tag s = (s', Ok true) /\ synced s' /\ (no_empty s -> no_empty s') /\
      forall r t, tag_of s' r t = if decide (r = repo /\ t = tag) then None else tag_of s r t
  end.
Proof.
  intros Hs Hne. unfold Delete, tag_of. rewrite reload_synced by done.
  destruct (Repositories s !! repo) as [r|] eqn:Er; simpl; [|done].
  destruct (String.eqb_spec tag ""); [done|]. cbn [negb].
  destruct (r !! tag) as [id|] eqn:Et; [|done].
  set (repos := if bool_decide _ then _ else _).
  destruct (save_synced s repos Hs) as (s'&->&S1&S2&_). exists s'. split; [done|]. split; [done|]. split.
  - unfold no_empty. rewrite S2. unfold repos. intros Hn. case_bool_decide.
    + by apply map_Forall_delete.
    + by apply map_Forall_insert_2.
  - intros r' t'. unfold tag_of. rewrite S2. unfold repos.
    destruct (decide (r' = repo /\ t' = tag)) as [[-> ->]|Hd].
    + case_bool_decide; [by rewrite lookup_delete_eq|]. rewrite lookup_insert_eq. simpl. by rewrite lookup_delete_eq.
    + destruct (decide (r' = repo)) as [->|Hr].
      * assert (t' <> tag) as Ht by naive_solver. rewrite Er. simpl. case_bool_decide as Hb.
        -- rewrite lookup_delete_eq. simpl. assert (delete tag r !! t' = None) as Hd' by (by rewrite Hb, lookup_empty).
           by rewrite lookup_delete_ne in Hd'.
        -- rewrite lookup_insert_eq. simpl. by rewrite lookup_delete_ne.
      * case_bool_decide; [by rewrite lookup_delete_ne|by rewrite lookup_insert_ne].
Qed.

(** The conflict test is in a branch where it cannot fail. *)
Lemma Set_force s repo tag name f f' : Set_ order repo tag name f s = Set_ order repo tag name f' s.
Proof.
  unfold Set_. destruct (LookupImage order name s) as [s1 [img|]]; [|done].
  destruct (validateRepoName repo); [|done]. destruct (validateTagName _); [|done].
  destruct (reload s1) as [s2 [|]]; [|done]. by destruct (Repositories s2 !! repo).
Qed.

(** Tagging an image.  With a working disk, [Set] of an image name that
    can be looked up, under a valid repository and tag, succeeds whatever the
    force flag and whatever the tag pointed to before (the conflict test is
    never reached); then the tag denotes that image, by [GetImage] and by
    looking up "REPO:TAG", every other tag is as before, and deleting the tag
    succeeds and leaves exactly the other tags, with no empty repository. *)
Theorem Set_tag s repo tag name force img :
  synced s -> no_empty s -> (LookupImage order name s).2 = Ok img -> repo <> "" -> is_ok (validateTagName tag) = true ->
  exists s', Set_ order repo tag name force s = (s', Ok ()) /\
    Set_ order repo tag name (negb force) s = (s', Ok ()) /\ synced s' /\
    GetImage order repo tag s' = (s', Some <$> graph_Get (image_ID img)) /\
    LookupImage order (repo +:+ ":" +:+ tag) s' = (s', graph_Get (image_ID img)) /\
    (forall r t, tag_of s' r t = if decide (r = repo /\ t = tag) then Some (image_ID img) else tag_of s r t) /\
    exists s'', Delete repo tag s' = (s'', Ok true) /\ synced s'' /\ no_empty s'' /\
      forall r t, tag_of s'' r t = if decide (r = repo /\ t = tag) then None else tag_of s r t.
Proof.
  intros Hs Hn Hl Hr Ht. pose proof (proj1 (validateTagName_ok tag) Ht) as (Hne&Hsl&Hco).
  destruct (Set_synced s repo tag name force img Hs Hl Hr Ht) as (s'&E&S1&S2).
  assert (forall r t, tag_of s' r t = if decide (r = repo /\ t = tag) then Some (image_ID img) else tag_of s r t) as Htag.
  { intros r t. unfold tag_of. rewrite S2. destruct (decide (r = repo)) as [->|Hrn].
    - rewrite lookup_insert_eq. simpl. destruct (decide (t = tag)) as [->|Htn].
      + rewrite lookup_insert_eq. by rewrite decide_True.
      + rewrite lookup_insert_ne by done. rewrite decide_False by naive_solver.
        destruct (Repositories s !! repo); simpl; [done|apply lookup_empty].
    - rewrite lookup_insert_ne by done. by rewrite decide_False by naive_solver. }
  assert (GetImage order repo tag s' = (s', Some <$> graph_Get (image_ID img))) as Hg.
  { rewrite GetImage_synced, S2, lookup_insert_eq, lookup_insert_eq by done. done. }
  exists s'. split_and!; try done.
  - rewrite <- E. apply Set_force.
  - unfold LookupImage. change (repo +:+ ":" +:+ tag) with (repo +:+ String ":" tag).
    rewrite ParseRepositoryTag_cut, Hsl by done. destruct (String.eqb_spec tag ""); [done|].
    rewrite Hg. by destruct (graph_Get (image_ID img)).
  - pose proof (Delete_synced s' repo tag S1 Hne) as Hd. rewrite Htag, decide_True in Hd by done.
    destruct Hd as (s''&Ed&D1&D2&D3). exists s''. split; [done|]. split; [done|]. split.
    + apply D2. unfold no_empty. rewrite S2. apply map_Forall_insert_2; [|done].
      intros Hemp. apply (f_equal (lookup tag)) in Hemp. rewrite lookup_insert_eq in Hemp. by rewrite lookup_empty in Hemp.
    + intros r t. rewrite D3, Htag. by destruct (decide (r = repo /\ t = tag)).
Qed.
End TagLemmas.

Definition map_order (V : Type) (m : gmap string V) : list (string * V) := map_to_list m.
#[export] Instance id_graph : ImageGraph string := {| image_ID := fun id => id; graph_Get := fun name => Ok name |}.
Definition empty_store : TagStore :=
  {| Repositories := ∅; disk := {| file := Some ∅; read_err := None; write_err := None |};
     pullingPool := ∅; pushingPool := ∅; next_chan := 0; closed_chans := ∅ |}.

Lemma Set_tag_witness :
  exists s', Set_ map_order "ubuntu" "14.04" "d0955f21bf24" false empty_store = (s', Ok ()) /\
    LookupImage map_order "ubuntu:14.04" s' = (s', Ok "d0955f21bf24").
Proof.
  destruct (Set_tag map_order empty_store "ubuntu" "14.04" "d0955f21bf24" false "d0955f21bf24") as (s'&E1&_&_&_&E2&_);
    [reflexivity|apply map_Forall_empty|reflexivity|discriminate|reflexivity|].
  exists s'. split; [exact E1|exact E2].
Defined.

(** ** Names by identifier *)

Section ByIDLemmas.
Context {I : Type} `{ImageGraph I} (order : forall V, gmap string V -> list (string * V)).
Context (order_perm : forall V (m : gmap string V), order V m ≡ₚ map_to_list m).

Lemma in_order V (m : gmap string V) k v : (k, v) ∈ order V m <-> m !! k = Some v.
Proof. rewrite order_perm. apply elem_of_map_to_list. Qed.

Lemma in_all_names s name id :
  (name, id) ∈ all_names order s <-> exists repo tag, name = repo +:+ ":" +:+ tag /\ tag_of s repo tag = Some id.
Proof.
  unfold all_names, tag_of. rewrite list_elem_of_bind. split.
  - intros ([repo r]&Hin&Hr%in_order). apply list_elem_of_bind in Hin as ([tag i]&Hin&Ht%in_order).
    apply list_elem_of_singleton in Hin as [= -> ->]. exists repo, tag. split; [done|]. by rewrite Hr.
  - intros (repo&tag&->&Ht). destruct (Repositories s !! repo) as [r|] eqn:Er; [|done]. simpl in Ht.
    exists (repo, r). split; [|by apply in_order]. apply list_elem_of_bind. exists (tag, id).
    split; [by left|by apply in_order].
Qed.

(** The names that a list of (name, identifier) gives to an identifier. *)
Definition names_of (l : list (string * string)) (id : string) : list string :=
  omap (fun '(n, i) => if String.eqb i id then Some n else None) l.

Lemma ByID_foldl l : forall m id,
  (forall i, Sorted String.le (default [] (m !! i))) -> (forall i, m !! i <> Some []) ->
  let m' := foldl ByID_step m l in
  default [] (m' !! id) ≡ₚ default [] (m !! id) ++ names_of l id /\ Sorted String.le (default [] (m' !! id)) /\ m' !! id <> Some [].
Proof.
  induction l as [|[n i] l IH]; intros m id Hs Hne; simpl.
  { rewrite app_nil_r. auto. }
  set (m1 := match m !! i with Some _ => _ | None => _ end).
  assert (forall j, default [] (m1 !! j) ≡ₚ default [] (m !! j) ++ (if String.eqb i j then [n] else []) /\
    Sorted String.le (default [] (m1 !! j)) /\ m1 !! j <> Some []) as Hm1.
  { intros j. unfold m1. destruct (m !! i) as [names|] eqn:E; destruct (String.eqb_spec i j) as [<-|Hij].
    - rewrite E, lookup_insert_eq. simpl. split_and!.
      + by rewrite merge_sort_Permutation.
      + apply Sorted_merge_sort. apply _.
      + intros [= Hn]. apply (f_equal length) in Hn. pose proof (Permutation_length (merge_sort_Permutation String.le (names ++ [n]))) as Hl.
        rewrite Hn, length_app in Hl. simpl in Hl. lia.
    - rewrite lookup_insert_ne, app_nil_r by done. auto.
    - rewrite E, lookup_insert_eq. simpl. split_and!; [done|by repeat constructor|done].
    - rewrite lookup_insert_ne, app_nil_r by done. auto. }
  destruct (IH m1 id) as (I1&I2&I3); [apply Hm1|apply Hm1|]. split_and!; [|done|done].
  destruct (Hm1 id) as (H1&_). rewrite I1, H1, <- app_assoc. unfold names_of. simpl. by destruct (String.eqb i id).
Qed.

Lemma ByID_spec s id name :
  name ∈ default [] (ByID order s !! id) <-> exists repo tag, name = repo +:+ ":" +:+ tag /\ tag_of s repo tag = Some id.
Proof.
  unfold ByID. destruct (ByID_foldl (all_names order s) ∅ id) as (H1&_).
  - intros i. rewrite lookup_empty. constructor.
  - intros i. by rewrite lookup_empty.
  - rewrite H1, lookup_empty. simpl. rewrite <- in_all_names. unfold names_of. rewrite list_elem_of_omap. split.
    + intros ([n i]&Hin&Hx). destruct (String.eqb_spec i id) as [->|]; [|done]. by injection Hx as ->.
    + intros Hin. exists (name, id). split; [done|]. by rewrite String.eqb_refl.
Qed.

(** Names are distinct when no repository or tag has a colon. *)
Definition no_colons (s : TagStore) : Prop :=
  forall repo tag id, tag_of s repo tag = Some id -> contains_char ":" repo = false /\ contains_char ":" tag = false /\ tag <> "".

Lemma name_inj r t r' t' :
  contains_char ":" r = false -> contains_char ":" r' = false -> r +:+ ":" +:+ t = r' +:+ ":" +:+ t' -> r = r' /\ t = t'.
Proof.
  intros H1 H2 E. change (r +:+ String ":" t = r' +:+ String ":" t') in E.
  pose proof (split2_app ":" r t H1) as E1. rewrite E, (split2_app ":" r' t' H2) in E1. by injection E1 as -> ->.
Qed.

(** Deleting a list of distinct names. *)
Lemma DeleteAll_loop_spec names : forall s,
  synced s -> NoDup names ->
  (forall n, n ∈ names -> exists repo tag id, n = repo +:+ ":" +:+ tag /\ tag_of s repo tag = Some id /\
     contains_char ":" repo = false /\ contains_char ":" tag = false /\ tag <> "") ->
  exists s', DeleteAll_loop names s = (s', Ok ()) /\ synced s' /\
    forall r t, contains_char ":" r = false ->
      tag_of s' r t = if bool_decide (r +:+ ":" +:+ t ∈ names) then None else tag_of s r t.
Proof.
  induction names as [|n names IH]; intros s Hs Hnd Hn; simpl.
  { exists s. by split_and!. }
  apply NoDup_cons in Hnd as [Hni Hnd].
  destruct (Hn n) as (repo&tag&id&->&Ht&Hr&Htc&Hne); [by left|].
  assert (contains_char ":" (repo +:+ ":" +:+ tag) = true) as -> by (rewrite contains_char_app; simpl; by rewrite orb_true_r).
  change (repo +:+ ":" +:+ tag) with (repo +:+ String ":" tag) at 1. rewrite split_app, split_no_sep by done.
  pose proof (Delete_synced s repo tag Hs Hne) as Hd. rewrite Ht in Hd. destruct Hd as (s1&->&S1&_&Htag1).
  destruct (IH s1 S1 Hnd) as (s'&->&S2&Htag).
  - intros m Hm. destruct (Hn m) as (r&t&i&->&Hi&Hrc&Htc'&Hne'); [by right|]. exists r, t, i. split_and!; try done.
    rewrite Htag1, decide_False; [done|]. by intros [-> ->].
  - exists s'. split_and!; try done. intros r t Hrc. rewrite Htag by done. rewrite Htag1.
    destruct (decide (r = repo /\ t = tag)) as [[-> ->]|Hd].
    + rewrite (bool_decide_eq_true_2 (_ ∈ _ :: _)) by (by left). by case_bool_decide.
    + assert (bool_decide (r +:+ ":" +:+ t ∈ (repo +:+ ":" +:+ tag) :: names) = bool_decide (r +:+ ":" +:+ t ∈ names)) as ->; [|done].
      apply bool_decide_ext. rewrite elem_of_cons. split; [|by right]. intros [E|]; [|done].
      apply name_inj in E as [-> ->]; [|done|done]. by destruct Hd.
Qed.

Lemma NoDup_all_names s : no_colons s -> NoDup (all_names order s).*1.
Proof.
  intros Hc. unfold all_names.
  assert (forall l, (forall repo r, (repo, r) ∈ l -> Repositories s !! repo = Some r) -> NoDup l.*1 ->
    NoDup ('(repoName, repository) ← l; '(tag, id) ← order _ repository; [(repoName +:+ ":" +:+ tag, id)]).*1) as Hgen.
  2: { apply Hgen; [intros repo r; apply in_order|]. rewrite order_perm. apply NoDup_fst_map_to_list. }
  induction l as [|[repo r] l IH]; intros Hin Hnd; [constructor|].
  simpl. rewrite fmap_app. apply NoDup_cons in Hnd as [Hni Hnd]. apply NoDup_app. split_and!.
  - assert (forall l', (forall t i, (t, i) ∈ l' -> r !! t = Some i) -> NoDup l'.*1 ->
      NoDup ('(tag, id) ← l'; [(repo +:+ ":" +:+ tag, id)]).*1) as Hin2.
    2: { apply Hin2; [intros t i; apply in_order|]. rewrite order_perm. apply NoDup_fst_map_to_list. }
    induction l' as [|[t i] l' IH']; intros Hl' Hnd'; [constructor|].
    apply NoDup_cons in Hnd' as [Hni' Hnd']. simpl. apply NoDup_cons. split; [|apply IH'; [intros; apply Hl'; by right|done]].
    intros ([n j]&En&Hn)%list_elem_of_fmap. apply list_elem_of_bind in Hn as ([t' i']&Hn&Hl).
    apply list_elem_of_singleton in Hn as [= -> ->]. simpl in En.
    assert (Repositories s !! repo = Some r) as Hr by (apply Hin; by left).
    apply name_inj in En as [_ <-].
    + apply Hni'. apply list_elem_of_fmap. by exists (t, i').
    + apply (Hc repo t i). unfold tag_of. rewrite Hr. simpl. apply Hl'. by left.
    + apply (Hc repo t i). unfold tag_of. rewrite Hr. simpl. apply Hl'. by left.
  - intros n Hn1 Hn2. apply list_elem_of_fmap in Hn1 as ([n1 i1]&->&Hn1). apply list_elem_of_bind in Hn1 as ([t1 j1]&Hn1&Ho1%in_order).
    apply list_elem_of_singleton in Hn1 as [= -> ->]. simpl in Hn2.
    apply list_elem_of_fmap in Hn2 as ([n2 i2]&E&Hn2). simpl in E. subst n2.
    apply list_elem_of_bind in Hn2 as ([repo2 r2]&Hn2&Hl2). apply list_elem_of_bind in Hn2 as ([t2 j2]&Hn2&Ho2%in_order).
    apply list_elem_of_singleton in Hn2 as [= E2 ->].
    assert (Repositories s !! repo = Some r) as Hr by (apply Hin; by left).
    assert (Repositories s !! repo2 = Some r2) as Hr2 by (apply Hin; by right).
    apply name_inj in E2 as [-> _].
    + apply Hni. apply list_elem_of_fmap. by exists (repo2, r2).
    + apply (Hc repo t1 j1). unfold tag_of. by rewrite Hr.
    + apply (Hc repo2 t2 j2). unfold tag_of. by rewrite Hr2.
  - apply IH; [|done]. intros; apply Hin; by right.
Qed.
End ByIDLemmas.

Lemma names_of_NoDup l id : NoDup l.*1 -> NoDup (names_of l id).
Proof.
  unfold names_of. induction l as [|[n i] l IH]; [constructor|]. intros [Hn Hnd]%NoDup_cons. simpl.
  destruct (String.eqb i id); [|by apply IH]. apply NoDup_cons. split; [|by apply IH].
  intros ([m j]&Hin&Hx)%list_elem_of_omap. destruct (String.eqb j id); [|done]. injection Hx as ->.
  apply Hn. apply list_elem_of_fmap. by exists (n, j).
Qed.

Definition private_store : TagStore :=
  let r := {["localhost:5000/img" := {["latest" := "aabbccddeeff"]}]} in
  {| Repositories := r; disk := {| file := Some r; read_err := None; write_err := None |};
     pullingPool := ∅; pushingPool := ∅; next_chan := 0; closed_chans := ∅ |}.

(** Names of an image.  Whatever order Go ranges over its maps, [ByID]
    lists for an identifier exactly the names "REPO:TAG" that point to it,
    sorted; with a working disk and repository names without colons,
    [DeleteAll] succeeds and removes exactly the tags of that identifier; but
    for a repository of a registry with a port it fails without deleting,
    because it cuts the name at its first colon. *)
Theorem ByID_DeleteAll (order : forall V, gmap string V -> list (string * V))
    (order_perm : forall V (m : gmap string V), order V m ≡ₚ map_to_list m) s id :
  synced s -> no_colons s ->
  (forall name, name ∈ default [] (ByID order s !! id) <->
     exists repo tag, name = repo +:+ ":" +:+ tag /\ tag_of s repo tag = Some id) /\
  Sorted String.le (default [] (ByID order s !! id)) /\
  (exists s', DeleteAll order id s = (s', Ok ()) /\ synced s' /\
     forall repo tag, contains_char ":" repo = false ->
       tag_of s' repo tag = if decide (tag_of s repo tag = Some id) then None else tag_of s repo tag) /\
  DeleteAll map_order "aabbccddeeff" private_store = (private_store, Err "No such repository: localhost").
Proof.
  intros Hs Hc. pose proof (ByID_spec order order_perm s id) as Hby.
  assert (default [] (ByID order s !! id) ≡ₚ names_of (all_names order s) id /\
    Sorted String.le (default [] (ByID order s !! id))) as [Hp Hsort].
  { unfold ByID. destruct (ByID_foldl (all_names order s) ∅ id) as (H1&H2&_).
    - intros i. rewrite lookup_empty. constructor.
    - intros i. by rewrite lookup_empty.
    - by rewrite lookup_empty in H1. }
  split_and!; [exact Hby|exact Hsort| |reflexivity].
  unfold DeleteAll. destruct (ByID order s !! id) as [names|] eqn:E; simpl in *.
  - assert (NoDup names) as Hnd.
    { rewrite Hp. apply names_of_NoDup. by apply NoDup_all_names. }
    destruct (DeleteAll_loop_spec names s Hs Hnd) as (s'&->&S1&S2).
    { intros n (repo&tag&->&Ht)%Hby. exists repo, tag, id. split; [done|]. split; [done|]. by eapply Hc. }
    exists s'. split_and!; try done. intros repo tag Hr. rewrite S2 by done.
    assert (bool_decide (repo +:+ ":" +:+ tag ∈ names) = bool_decide (tag_of s repo tag = Some id)) as ->.
    { apply bool_decide_ext. rewrite Hby. split; [|by eauto]. intros (r&t&En&Ht).
      apply name_inj in En as [-> ->]; [done|done|]. by apply (Hc r t id). }
    by case_bool_decide; case_decide.
  - exists s. split_and!; try done. intros repo tag Hr. case_decide as Ht; [|done]. exfalso.
    eapply elem_of_nil. apply Hby. by exists repo, tag.
Qed.

Lemma ByID_DeleteAll_witness :
  exists s', DeleteAll map_order "aabbccddeeff" empty_store = (s', Ok ()) /\ synced s'.
Proof.
  destruct (ByID_DeleteAll map_order (fun V m => reflexivity _) empty_store "aabbccddeeff") as (_&_&(s'&E&S&_)&_).
  - reflexivity.
  - intros repo tag id H. unfold tag_of in H. simpl in H; rewrite lookup_empty in H. discriminate.
  - exists s'. split; [exact E|exact S].
Defined.

(** ** Transfers *)

Inductive pool_op := PAdd (kind key : string) | PRemove (kind key : string).

Definition pool_step (o : pool_op) (s : TagStore) : outcome TagStore :=
  match o with
  | PAdd kind key => Return (poolAdd kind key s).1
  | PRemove kind key => fst <$> poolRemove kind key s
  end.

Fixpoint pool_run (l : list pool_op) (s : TagStore) : outcome TagStore :=
  match l with [] => Return s | o :: l => s ← pool_step o s; pool_run l s end.

(** The channels of a set of entries are open, allocated and distinct. *)
Definition entries_wf (u : gmap string nat) (closed : gset nat) (next : nat) : Prop :=
  (forall key c, u !! key = Some c -> (c ∉ closed) /\ (c < next)%nat) /\
  (forall k1 k2 c, u !! k1 = Some c -> u !! k2 = Some c -> k1 = k2) /\
  (forall c, c ∈ closed -> (c < next)%nat).

(** Both pools together. *)
Definition in_progress (s : TagStore) : gmap string nat := pullingPool s ∪ pushingPool s.

Definition pool_wf (s : TagStore) : Prop :=
  pullingPool s ##ₘ pushingPool s /\ entries_wf (in_progress s) (closed_chans s) (next_chan s).

Lemma entries_wf_insert u closed next key :
  entries_wf u closed next -> entries_wf (<[key := next]> u) closed (S next).
Proof.
  intros (H1&H2&H3).
  assert (forall k, u !! k = Some next -> False) as Hnew by (intros k [_ Hx]%H1; lia).
  split_and!.
  - intros k c. rewrite lookup_insert. case_decide.
    + intros [= <-]. split; [intros Hx%H3; lia|lia].
    + intros [A B]%H1. split; [done|lia].
  - intros k1 k2 c. rewrite !lookup_insert. intros A B.
    destruct (decide (key = k1)) as [<-|], (decide (key = k2)) as [<-|]; simplify_eq; try done; [exfalso; eauto..|].
    by eapply H2.
  - intros c Hx%H3. lia.
Qed.

Lemma entries_wf_delete u closed next key c :
  entries_wf u closed next -> u !! key = Some c -> entries_wf (delete key u) ({[c]} ∪ closed) next.
Proof.
  intros (H1&H2&H3) Hk. split_and!.
  - intros k d. rewrite lookup_delete_Some. intros [Hne Hd]. destruct (H1 k d Hd) as [A B]. split; [|done].
    rewrite elem_of_union, elem_of_singleton. intros [->|]; [|done]. apply Hne. by eapply H2.
  - intros k1 k2 d. rewrite !lookup_delete_Some. intros [_ A] [_ B]. by eapply H2.
  - intros d. rewrite elem_of_union, elem_of_singleton. intros [->|H]; [by eapply H1|auto].
Qed.

Lemma in_progress_None s key : in_progress s !! key = None <-> pullingPool s !! key = None /\ pushingPool s !! key = None.
Proof. apply lookup_union_None. Qed.

(** [poolAdd]: refused with the channel of the transfer in progress, or a new
    channel in one of the two pools. *)
Lemma poolAdd_spec kind key s :
  pool_wf s ->
  match in_progress s !! key with
  | Some c => exists msg, poolAdd kind key s = (s, Err (Some c, msg))
  | None =>
      if bool_decide (kind = "pull" \/ kind = "push") then
        exists s', poolAdd kind key s = (s', Ok (next_chan s)) /\ pool_wf s' /\
          in_progress s' = <[key := next_chan s]> (in_progress s) /\ closed_chans s' = closed_chans s /\
          (if String.eqb kind "pull" then pullingPool s' !! key else pushingPool s' !! key) = Some (next_chan s)
      else poolAdd kind key s = (s, Err (None, "Unknown pool type"))
  end.
Proof.
  intros [Hd Hw]. unfold poolAdd. destruct (in_progress s !! key) as [c|] eqn:E.
  - unfold in_progress in E. rewrite lookup_union in E.
    destruct (pullingPool s !! key) eqn:E1.
    + rewrite union_Some_l in E. injection E as ->. by eexists.
    + assert (pushingPool s !! key = Some c) as -> by (by destruct (pushingPool s !! key)). by eexists.
  - apply in_progress_None in E as [E1 E2]. rewrite E1, E2. case_bool_decide as Hk.
    + pose proof (entries_wf_insert _ _ _ key Hw) as Hw'.
      destruct Hk as [-> | ->]; simpl; eexists; (split; [done|]).
      * assert (<[key:=next_chan s]> (pullingPool s) ∪ pushingPool s = <[key:=next_chan s]> (in_progress s)) as Hu
          by (unfold in_progress; by rewrite insert_union_l).
        split_and!; [|exact Hu|done|simpl; by rewrite lookup_insert_eq].
        split; simpl; [by apply map_disjoint_insert_l_2|]. unfold in_progress at 1. simpl. by rewrite Hu.
      * assert (pullingPool s ∪ <[key:=next_chan s]> (pushingPool s) = <[key:=next_chan s]> (in_progress s)) as Hu
          by (unfold in_progress; by rewrite insert_union_r).
        split_and!; [|exact Hu|done|simpl; by rewrite lookup_insert_eq].
        split; simpl; [by apply map_disjoint_insert_r_2|]. unfold in_progress at 1. simpl. by rewrite Hu.
    + destruct (String.eqb_spec kind "pull"); [tauto|]. destruct (String.eqb_spec kind "push"); [tauto|]. done.
Qed.

(** [poolRemove]: the transfer of that kind ends and its channel is closed. *)
Lemma poolRemove_spec kind key s :
  pool_wf s ->
  exists s' r, poolRemove kind key s = Return (s', r) /\ pool_wf s' /\ (is_ok r = true <-> kind = "pull" \/ kind = "push") /\
    match (if String.eqb kind "pull" then pullingPool s !! key
           else if String.eqb kind "push" then pushingPool s !! key else None) with
    | Some c => in_progress s' = delete key (in_progress s) /\ closed_chans s' = {[c]} ∪ closed_chans s
    | None => s' = s
    end.
Proof.
  intros [Hd Hw]. unfold poolRemove. pose proof Hw as (H1&_&_).
  destruct (String.eqb_spec kind "pull") as [->|Hn1]; [|destruct (String.eqb_spec kind "push") as [->|Hn2]].
  - destruct (pullingPool s !! key) as [c|] eqn:E.
    + assert (in_progress s !! key = Some c) as Hu by (unfold in_progress; by apply lookup_union_Some_l).
      unfold pool_close. rewrite decide_False by (by eapply H1). simpl. eexists _, _. split; [done|].
      assert (delete key (pullingPool s) ∪ pushingPool s = delete key (in_progress s)) as Hdel.
      { unfold in_progress. rewrite delete_union. f_equal. symmetry. apply delete_id.
        by eapply map_disjoint_Some_l. }
      split_and!; [|split; [by left|done]|exact Hdel|done].
      split; simpl; [by apply map_disjoint_delete_l|]. unfold in_progress at 1. simpl. rewrite Hdel. by apply entries_wf_delete.
    + eexists _, _. split; [done|]. split_and!; [done|split; [by left|done]|done].
  - destruct (pushingPool s !! key) as [c|] eqn:E.
    + assert (in_progress s !! key = Some c) as Hu by (unfold in_progress; by apply lookup_union_Some_r).
      unfold pool_close. rewrite decide_False by (by eapply H1). simpl. eexists _, _. split; [done|].
      assert (pullingPool s ∪ delete key (pushingPool s) = delete key (in_progress s)) as Hdel.
      { unfold in_progress. rewrite delete_union. f_equal. symmetry. apply delete_id.
        by eapply map_disjoint_Some_r. }
      split_and!; [|split; [by right|done]|exact Hdel|done].
      split; simpl; [by apply map_disjoint_delete_r|]. unfold in_progress at 1. simpl. rewrite Hdel. by apply entries_wf_delete.
    + eexists _, _. split; [done|]. split_and!; [done|split; [by right|done]|done].
  - eexists _, _. split; [done|]. split_and!; [done| |done]. split; [done|]. by intros [|].
Qed.

Lemma pool_run_wf l : forall s, pool_wf s -> exists s', pool_run l s = Return s' /\ pool_wf s'.
Proof.
  induction l as [|o l IH]; intros s Hs; simpl; [by exists s|].
  destruct o as [kind key|kind key]; simpl.
  - apply IH. pose proof (poolAdd_spec kind key s Hs) as Ha.
    destruct (in_progress s !! key); [by destruct Ha as [msg ->]|].
    case_bool_decide; [by destruct Ha as (s'&->&?&_)|by rewrite Ha].
  - destruct (poolRemove_spec kind key s Hs) as (s'&r&->&Hs'&_). simpl. by apply IH.
Qed.

(** One transfer at a time.  After any pulls and pushes begun and ended
    (in any order, even mismatched) from empty pools no channel is closed
    twice; a repository is in at most one of the two pools, and beginning a
    transfer of it is refused, with the channel to wait on, exactly while one
    is in progress; ending a transfer of the right kind closes that channel
    and frees the repository, one of the other kind changes nothing. *)
Theorem pool_exclusive repos d l kind key :
  let s0 := {| Repositories := repos; disk := d; pullingPool := ∅; pushingPool := ∅; next_chan := 0; closed_chans := ∅ |} in
  exists s, pool_run l s0 = Return s /\
    (pullingPool s !! key = None \/ pushingPool s !! key = None) /\
    (match in_progress s !! key with
     | Some c => (c ∉ closed_chans s) /\ exists msg, poolAdd kind key s = (s, Err (Some c, msg))
     | None => is_ok (poolAdd kind key s).2 = bool_decide (kind = "pull" \/ kind = "push")
     end) /\
    exists s' r, poolRemove kind key s = Return (s', r) /\
      (forall c, (if String.eqb kind "pull" then pullingPool s !! key
                  else if String.eqb kind "push" then pushingPool s !! key else None) = Some c ->
         in_progress s' !! key = None /\ c ∈ closed_chans s') /\
      ((if String.eqb kind "pull" then pullingPool s !! key
        else if String.eqb kind "push" then pushingPool s !! key else None) = None -> s' = s).
Proof.
  intros s0. destruct (pool_run_wf l s0) as (s&->&Hs).
  { split; [apply map_disjoint_empty_r|]. unfold in_progress. simpl. rewrite map_union_empty.
    split_and!; [intros ? ? H; by rewrite lookup_empty in H|intros ? ? ? H; by rewrite lookup_empty in H|].
    intros c H. by apply elem_of_empty in H. }
  exists s. split; [done|]. pose proof Hs as [Hd (H1&_&_)]. split_and!.
  - destruct (pullingPool s !! key) as [c|] eqn:E; [|by left]. right. by eapply map_disjoint_Some_l.
  - pose proof (poolAdd_spec kind key s Hs) as Ha. destruct (in_progress s !! key) as [c|] eqn:E.
    + split; [by eapply H1|done].
    + case_bool_decide; [by destruct Ha as (s'&->&_)|by rewrite Ha].
  - destruct (poolRemove_spec kind key s Hs) as (s'&r&->&_&_&Hr). exists s', r. split; [done|].
    destruct (if String.eqb kind "pull" then _ else _) as [c|].
    + destruct Hr as [-> ->]. split; [|done]. intros c' [= <-]. rewrite lookup_delete_eq. split; [done|set_solver].
    + split; [done|]. by intros _.
Qed.
