(* ===== verification/GoPath.v ===== *)
(** * Go's [path] and [path/filepath] on Unix

    [Clean] (the same function in both packages) as a stack machine over the
    elements of the path, [Split], [Base], [Dir], [Join] and [IsAbs], with
    the lemmas the components share. *)

From stdpp Require Import base list strings.
From Stdlib Require Import ZArith Lia Ascii.
From S2P Require Import Prelude GoStrings.

(** ** path/filepath *)

Definition IsAbs (p : string) : bool := has_prefix "/" p.

(** One path element on the stack of elements kept so far (innermost first). *)
Definition clean_push (rooted : bool) (acc : list string) (c : string) : list string :=
  if String.eqb c "" || String.eqb c "." then acc
  else if String.eqb c ".." then
    match acc with
    | top :: rest => if String.eqb top ".." then c :: acc else rest
    | [] => if rooted then [] else [c]
    end
  else c :: acc.

Definition clean_elems (rooted : bool) (l : list string) : list string :=
  rev (foldl (clean_push rooted) [] l).

Definition clean_text (rooted : bool) (l : list string) : string :=
  if rooted then "/" +:+ join "/" l
  else match l with [] => "." | _ => join "/" l end.

Definition Clean (path : string) : string :=
  clean_text (IsAbs path) (clean_elems (IsAbs path) (split "/" path)).

(** [Join] drops empty elements; what is left of nothing is empty. *)
Definition Join (l : list string) : string :=
  match List.filter (fun e => negb (String.eqb e "")) l with
  | [] => ""
  | l => Clean (join "/" l)
  end.

(** [path.Split]: the text through the last slash, and the text after it. *)
Definition Split (p : string) : string * string :=
  match last_index_char "/" p with
  | Some n => (take_str (S n) p, drop_str (S n) p)
  | None => ("", p)
  end.

Definition Dir (p : string) : string := Clean (fst (Split p)).

Definition strip_slashes (p : string) : string := trim_right (fun c => Ascii.eqb c "/") p.

Definition Base (p : string) : string :=
  if String.eqb p "" then "."
  else let p := snd (Split (strip_slashes p)) in
       if String.eqb p "" then "/" else p.

Example Clean_test :
  (Clean "/a/../b//./c", Clean "../../x", Clean "/..", Clean "a/..", Clean "", Clean "//") =
  ("/b/c", "../../x", "/", ".", ".", "/").
Proof. reflexivity. Qed.

Example Join_test :
  (Join ["/"; "a"], Join [""; ""], Join ["/a"; ".."; "b"], Join ["a"; ""], Split "/a/b", Split "b", Split "/a/", Dir "/a/b", Dir "b", Base "/a/b//", Base "//") =
  ("/a", "", "/b", "a", ("/a/", "b"), ("", "b"), ("/a/", ""), "/a", ".", "b", "/").
Proof. reflexivity. Qed.

(** ** Cleaned paths *)

Definition plain_elem (c : string) : Prop :=
  contains_char "/" c = false /\ c <> "" /\ c <> "." /\ c <> "..".

(** The stacks [clean_push] builds: plain elements on top of [..] elements,
    the latter only in a relative path. *)
Definition clean_stack (rooted : bool) (acc : list string) : Prop :=
  exists a n, acc = a ++ replicate n ".." /\ Forall plain_elem a /\ (rooted = true -> n = 0%nat).

Lemma clean_push_stack rooted acc c :
  contains_char "/" c = false -> clean_stack rooted acc -> clean_stack rooted (clean_push rooted acc c).
Proof.
  intros Hc (a & n & -> & Ha & Hn). unfold clean_push.
  destruct (String.eqb_spec c ""); [by exists a, n|]. destruct (String.eqb_spec c "."); [by exists a, n|]. cbn [orb].
  destruct (String.eqb_spec c "..") as [->|Hd]; [|exists (c :: a), n; repeat split; try done; by constructor].
  destruct a as [|top a].
  - destruct n as [|n]; simpl.
    + destruct rooted; [by exists [], 0%nat|exists [], 1%nat; by repeat split].
    + exists [], (S (S n)). repeat split; try done. intros E. by specialize (Hn E).
  - simpl. inversion Ha as [|? ? (_&_&_&Ht) Ha']; subst. destruct (String.eqb_spec top ".."); [done|]. by exists a, n.
Qed.

Lemma clean_foldl_stack rooted l : Forall (fun c => contains_char "/" c = false) l ->
  forall acc, clean_stack rooted acc -> clean_stack rooted (foldl (clean_push rooted) acc l).
Proof. induction 1 as [|c l Hc _ IH]; intros acc H; [done|]. simpl. by apply IH, clean_push_stack. Qed.

Lemma clean_elems_stack rooted p : clean_stack rooted (rev (clean_elems rooted (split "/" p))).
Proof.
  unfold clean_elems. rewrite rev_involutive. apply clean_foldl_stack; [apply split_pieces|].
  by exists [], 0%nat.
Qed.

Lemma clean_push_plain rooted acc c : plain_elem c -> clean_push rooted acc c = c :: acc.
Proof.
  intros (_&H1&H2&H3). unfold clean_push.
  by destruct (String.eqb_spec c ""), (String.eqb_spec c "."), (String.eqb_spec c "..").
Qed.

(** Pushing the elements of such a stack builds it again. *)
Lemma clean_foldl_id rooted acc : clean_stack rooted acc -> foldl (clean_push rooted) [] (rev acc) = acc.
Proof.
  intros (a & n & -> & Ha & Hn). induction a as [|c a IH].
  - clear Ha. cbn [app]. destruct rooted; [by rewrite (Hn eq_refl)|]. clear Hn.
    induction n as [|n IH]; [done|]. cbn [replicate rev]. rewrite foldl_app, IH. by destruct n.
  - inversion Ha; subst. cbn [app rev]. rewrite foldl_app, IH by done. by apply clean_push_plain.
Qed.

Lemma clean_stack_elems rooted acc : clean_stack rooted acc ->
  Forall (fun c => contains_char "/" c = false) (rev acc) /\ Forall (fun c => c <> "") (rev acc) /\
  (rooted = true -> ~ In ".." (rev acc)).
Proof.
  intros (a & n & -> & Ha & Hn).
  assert (Forall (fun c => contains_char "/" c = false /\ c <> "") (a ++ replicate n "..")) as H.
  { apply Forall_app. split; [eapply Forall_impl; [exact Ha|by intros c (?&?&_)]|]. by apply Forall_replicate. }
  split; [apply List.Forall_rev; eapply Forall_impl; [exact H|by intros c [? ?]]|].
  split; [apply List.Forall_rev; eapply Forall_impl; [exact H|by intros c [? ?]]|]. intros E. rewrite (Hn E). simpl. rewrite app_nil_r, <- in_rev. intros Hin.
  apply List.Forall_forall with (x := "..") in Ha; [by destruct Ha as (_&_&_&?)|done].
Qed.

Lemma IsAbs_join l : Forall (fun c => contains_char "/" c = false) l -> Forall (fun c => c <> "") l ->
  IsAbs (clean_text false l) = false.
Proof.
  intros H1 H2. destruct H1 as [|c l Hc H1]; [done|]. inversion H2; subst. unfold IsAbs, clean_text.
  destruct c as [|d c]; [done|]. simpl in Hc. apply orb_false_iff in Hc as [Hd _].
  assert (exists r, join "/" (String d c :: l) = String d r) as [r ->].
  { destruct l; [by exists c|]. eexists. rewrite join_cons by done. reflexivity. }
  unfold has_prefix. cbn [String.prefix]. destruct (ascii_dec "/" d) as [<-|]; done.
Qed.

(** What a cleaned path is: rooted like its argument, a fixed point, and
    without [..] when it is absolute. *)
Lemma Clean_spec p :
  IsAbs (Clean p) = IsAbs p /\ Clean (Clean p) = Clean p /\
  (IsAbs p = true -> ~ In ".." (split "/" (Clean p))).
Proof.
  pose proof (clean_elems_stack (IsAbs p) p) as Hs.
  assert (Clean p = clean_text (IsAbs p) (clean_elems (IsAbs p) (split "/" p))) as -> by done.
  set (l := clean_elems (IsAbs p) (split "/" p)) in *.
  pose proof (clean_stack_elems _ _ Hs) as (H1 & H2 & H3). rewrite rev_involutive in H1, H2, H3.
  assert (foldl (clean_push (IsAbs p)) [] l = rev l) as Hf.
  { rewrite <- (rev_involutive l) at 1. by apply clean_foldl_id. }
  destruct (IsAbs p) eqn:E.
  - assert (split "/" (clean_text true l) = "" :: match l with [] => [""] | _ => l end) as Hsp.
    { unfold clean_text. change ("/" +:+ join "/" l) with ("" +:+ String "/" (join "/" l)).
      rewrite split_app by done. f_equal. destruct l as [|c l']; [done|]. by apply split_join. }
    assert (IsAbs (clean_text true l) = true) as Ha by apply has_prefix_app.
    unfold Clean. rewrite Ha, Hsp. split; [done|]. split.
    + f_equal. unfold clean_elems. destruct l as [|c l']; [done|].
      change (foldl (clean_push true) [] ("" :: c :: l')) with (foldl (clean_push true) [] (c :: l')).
      by rewrite Hf, rev_involutive.
    + intros _ [Hx|Hx]; [done|]. destruct l as [|c l']; [by destruct Hx|]. by apply H3.
  - assert (IsAbs (clean_text false l) = false) as Ha by by apply IsAbs_join.
    unfold Clean. rewrite Ha. split; [done|]. split; [|done]. f_equal.
    unfold clean_text. destruct l as [|c l']; [done|]. rewrite split_join by done. unfold clean_elems.
    by rewrite Hf, rev_involutive.
Qed.

(** ** Splitting off the last element *)

Lemma Split_app a b : contains_char "/" b = false -> Split (a +:+ String "/" b) = (a +:+ "/", b).
Proof.
  intros Hb. unfold Split. rewrite last_index_char_app by done.
  assert (S (String.length a) = String.length (a +:+ "/")) as -> by (rewrite string_length_app; simpl; lia).
  change (String "/" b) with ("/" +:+ b). rewrite <- string_app_assoc. by rewrite take_app_str, drop_app_str.
Qed.

Lemma last_index_None_inv c s : last_index_char c s = None -> contains_char c s = false.
Proof.
  induction s as [|d s IH]; [done|]. simpl. destruct (last_index_char c s); [done|].
  destruct (Ascii.eqb d c); [done|]. exact IH.
Qed.

Lemma last_index_drop c s n : last_index_char c s = Some n -> contains_char c (drop_str (S n) s) = false.
Proof.
  revert n. induction s as [|d s IH]; [done|]. intros n. simpl. destruct (last_index_char c s) as [k|] eqn:E.
  - intros [= <-]. by apply IH.
  - destruct (Ascii.eqb d c); [|done]. intros [= <-]. assert (drop_str 0 s = s) as -> by by destruct s.
    by apply last_index_None_inv.
Qed.

Lemma Split_name p : contains_char "/" (snd (Split p)) = false.
Proof.
  unfold Split. destruct (last_index_char "/" p) as [n|] eqn:E; [by apply last_index_drop|by apply last_index_None_inv].
Qed.

(** ** Absolute paths as lists of names *)

Definition good_name (n : string) : Prop := contains_char "/" n = false /\ n <> "".

(** The absolute path of a list of names. *)
Definition abs_path (ns : list string) : string := "/" +:+ join "/" ns.

Lemma split_abs_path ns : Forall good_name ns -> split "/" (abs_path ns) = "" :: match ns with [] => [""] | _ => ns end.
Proof.
  intros H. unfold abs_path. change ("/" +:+ join "/" ns) with ("" +:+ String "/" (join "/" ns)).
  rewrite split_app by done. f_equal. destruct ns as [|n ns]; [done|].
  apply (split_join "/" (n :: ns)); [done|].
  eapply Forall_impl; [exact H|]. by intros ? [? _].
Qed.

Definition plain (ns : list string) : Prop := Forall plain_elem ns.

Lemma plain_app ns ms : plain (ns ++ ms) <-> plain ns /\ plain ms.
Proof. apply Forall_app. Qed.

Lemma plain_one n : plain [n] <-> plain_elem n.
Proof. unfold plain. rewrite Forall_singleton. done. Qed.

Lemma plain_good ns : plain ns -> Forall good_name ns.
Proof. intros H. eapply Forall_impl; [exact H|]. intros c (? & ? & _). by split. Qed.

(** The names of a path, cleaned. *)
Definition path_elems (p : string) : list string := clean_elems true (split "/" p).

Definition dropped (c : string) : bool := String.eqb c "" || String.eqb c ".".

Lemma clean_elems_filter rooted l : Forall (fun c => dropped c = true \/ plain_elem c) l ->
  clean_elems rooted l = List.filter (fun c => negb (dropped c)) l.
Proof.
  intros H. unfold clean_elems.
  assert (forall acc, foldl (clean_push rooted) acc l = rev (List.filter (fun c => negb (dropped c)) l) ++ acc) as E.
  { induction H as [|c l Hc _ IH]; intros acc; [done|]. cbn [foldl List.filter]. rewrite IH. destruct Hc as [Hd|Hp].
    - rewrite Hd. cbn [negb]. f_equal. unfold clean_push. unfold dropped in Hd. by rewrite Hd.
    - assert (dropped c = false) as ->.
      { destruct Hp as (_&H1&H2&_). unfold dropped. by destruct (String.eqb_spec c ""), (String.eqb_spec c "."). }
      cbn [negb rev]. rewrite clean_push_plain, <- app_assoc by done. done. }
  by rewrite E, app_nil_r, rev_involutive.
Qed.

Lemma filter_plain ns : plain ns -> List.filter (fun c => negb (dropped c)) ns = ns.
Proof.
  induction 1 as [|c ns (_&H1&H2&_) _ IH]; [done|]. simpl. rewrite IH. unfold dropped.
  by destruct (String.eqb_spec c ""), (String.eqb_spec c ".").
Qed.

Lemma filter_empty l : List.filter (fun c => negb (dropped c)) ("" :: l) = List.filter (fun c => negb (dropped c)) l.
Proof. done. Qed.

Lemma plain_kept ns : plain ns -> Forall (fun c => dropped c = true \/ plain_elem c) ns.
Proof. intros H. eapply Forall_impl; [exact H|]. by right. Qed.

Lemma split_abs ns : plain ns -> split "/" (abs_path ns) = "" :: match ns with [] => [""] | _ => ns end.
Proof. intros H. by apply split_abs_path, plain_good. Qed.

Lemma path_elems_abs ns : plain ns -> path_elems (abs_path ns) = ns.
Proof.
  intros H. unfold path_elems. rewrite split_abs by done. rewrite clean_elems_filter.
  - destruct ns as [|n ns]; [done|]. change ("" :: n :: ns) with ([""] ++ n :: ns). by rewrite List.filter_app, (filter_plain (n :: ns)).
  - constructor; [by left|]. destruct ns; [by repeat constructor|]. by apply plain_kept.
Qed.

Lemma abs_path_inj ns ms : plain ns -> plain ms -> abs_path ns = abs_path ms -> ns = ms.
Proof. intros H1 H2 E. by rewrite <- (path_elems_abs ns), <- (path_elems_abs ms), E. Qed.

Lemma Clean_of_elems p l : IsAbs p = true -> path_elems p = l -> Clean p = abs_path l.
Proof. intros Ha Hl. unfold Clean, path_elems in *. by rewrite Ha, Hl. Qed.

Lemma IsAbs_cons s : IsAbs (String "/" s) = true.
Proof. by destruct s. Qed.

(** The names of a text that is the join of plain names and dropped pieces. *)
Lemma elems_kept rooted s l ns : split "/" s = l -> Forall (fun c => dropped c = true \/ plain_elem c) l ->
  List.filter (fun c => negb (dropped c)) l = ns -> clean_elems rooted (split "/" s) = ns.
Proof. intros -> H <-. by apply clean_elems_filter. Qed.

Lemma split_rel ns : plain ns -> ns <> [] -> split "/" (join "/" ns) = ns.
Proof. intros H Hne. apply (split_join "/" ns); [done|]. eapply Forall_impl; [exact H|]. by intros ? [? _]. Qed.

Lemma rel_ne ns : plain ns -> ns <> [] -> join "/" ns <> "" /\ IsAbs (join "/" ns) = false.
Proof.
  intros H Hne. destruct H as [|n ns (Hc & Hn & _) _]; [done|]. destruct n as [|c n]; [done|].
  assert (exists r, join "/" (String c n :: ns) = String c r) as [r ->] by (destruct ns; by eexists).
  split; [done|]. simpl in Hc. apply orb_false_iff in Hc as [Hc _]. unfold IsAbs, has_prefix. cbn [String.prefix].
  destruct (ascii_dec "/" c) as [<-|]; done.
Qed.

(** [Join] of an absolute path and a second one whose pieces are plain names
    or dropped. *)
Lemma Join_abs ds b l ns : plain ds -> b <> "" -> split "/" b = l -> Forall (fun c => dropped c = true \/ plain_elem c) l ->
  List.filter (fun c => negb (dropped c)) l = ns -> Join [abs_path ds; b] = abs_path (ds ++ ns).
Proof.
  intros Hd Hb Hs Hl <-. unfold Join. change (List.filter (fun e => negb (String.eqb e "")) [abs_path ds; b]) with
    (abs_path ds :: if negb (String.eqb b "") then [b] else []).
  destruct (String.eqb_spec b ""); [done|]. cbn [negb]. cbv iota beta.
  apply Clean_of_elems; [apply IsAbs_cons|]. cbn [join].
  change (abs_path ds +:+ "/" +:+ b) with (abs_path ds +:+ String "/" b). unfold path_elems.
  eapply elems_kept; [rewrite split_app_gen, Hs, split_abs by done; reflexivity| |].
  - apply Forall_app. split; [|done]. constructor; [by left|]. destruct ds; [by repeat constructor|]. by apply plain_kept.
  - rewrite List.filter_app. f_equal. rewrite filter_empty. destruct ds as [|d ds]; [done|]. by apply filter_plain.
Qed.

Lemma Join_abs_one ds n : plain ds -> plain_elem n -> Join [abs_path ds; n] = abs_path (ds ++ [n]).
Proof.
  intros Hd Hn. pose proof Hn as (Hc & Hne & _). apply (Join_abs ds n [n] [n]); try done.
  - by apply split_no_sep.
  - constructor; [by right|constructor].
  - apply filter_plain. by apply plain_one.
Qed.

Lemma Join_abs_rel ds ns : plain ds -> plain ns -> ns <> [] -> Join [abs_path ds; join "/" ns] = abs_path (ds ++ ns).
Proof.
  intros Hd Hn Hne. apply (Join_abs ds _ ns ns); [done|by apply rel_ne|by apply split_rel|by apply plain_kept|by apply filter_plain].
Qed.

Lemma Join_abs_abs ds ns : plain ds -> plain ns -> Join [abs_path ds; abs_path ns] = abs_path (ds ++ ns).
Proof.
  intros Hd Hn. apply (Join_abs ds _ ("" :: match ns with [] => [""] | _ => ns end) ns); [done|done|by apply split_abs| |].
  - constructor; [by left|]. destruct ns; [by repeat constructor|by apply plain_kept].
  - rewrite filter_empty. destruct ns as [|n ns]; [done|]. by apply filter_plain.
Qed.

Lemma Join_abs_dot ds : plain ds -> Join [abs_path ds; "."] = abs_path ds.
Proof.
  intros Hd. rewrite (Join_abs ds "." ["."] []); [by rewrite app_nil_r|done|done|done| |done]. constructor; [by left|constructor].
Qed.

Lemma Dir_abs ns n : plain ns -> contains_char "/" n = false -> Dir (abs_path (ns ++ [n])) = abs_path ns.
Proof.
  intros Hns Hn. unfold Dir. destruct ns as [|m ns].
  - change (abs_path ([] ++ [n])) with ("" +:+ String "/" n). by rewrite Split_app.
  - assert (abs_path ((m :: ns) ++ [n]) = abs_path (m :: ns) +:+ String "/" n) as ->.
    { unfold abs_path. rewrite join_snoc by done. reflexivity. }
    rewrite Split_app by done. cbn [fst]. apply Clean_of_elems; [apply IsAbs_cons|]. unfold path_elems.
    change (abs_path (m :: ns) +:+ "/") with (abs_path (m :: ns) +:+ String "/" "").
    eapply elems_kept; [rewrite split_app_gen, split_abs by done; reflexivity| |].
    + constructor; [by left|]. change (Forall (fun c => dropped c = true \/ plain_elem c) ((m :: ns) ++ [""])).
      apply Forall_app. split; [by apply plain_kept|]. by repeat constructor.
    + change (("" :: m :: ns) ++ split "/" "") with ([""] ++ (m :: ns) ++ [""]). rewrite !List.filter_app, (filter_plain (m :: ns)) by done.
      simpl. by rewrite app_nil_r.
Qed.

Lemma Base_abs ns n : plain_elem n -> Base (abs_path (ns ++ [n])) = n.
Proof.
  intros (Hn & Hne & _). unfold Base.
  assert (exists p, abs_path (ns ++ [n]) = p +:+ String "/" n) as [p ->].
  { destruct ns as [|m ns]; [by exists ""|]. exists (abs_path (m :: ns)). unfold abs_path. rewrite join_snoc by done. reflexivity. }
  assert (strip_slashes (p +:+ String "/" n) = p +:+ String "/" n) as ->.
  { destruct (string_snoc n) as [->|(q & c & ->)]; [done|]. unfold strip_slashes, trim_right.
    assert (p +:+ String "/" (q +:+ String c "") = (p +:+ String "/" q) +:+ String c "") as -> by (by rewrite string_app_assoc).
    rewrite rev_str_snoc. cbn [trim_left]. assert (Ascii.eqb c "/" = false) as ->.
    { rewrite contains_char_app in Hn. apply orb_false_iff in Hn as [_ Hn]. simpl in Hn. by apply orb_false_iff in Hn as [? _]. }
    by rewrite <- rev_str_snoc, rev_str_involutive. }
  rewrite Split_app by done. cbn [snd]. destruct (String.eqb_spec n ""); [done|].
  destruct (String.eqb_spec (p +:+ String "/" n) "") as [E|]; [|done]. by destruct p.
Qed.

Lemma drop_abs ns : drop_str 1 (abs_path ns) = join "/" ns.
Proof. unfold abs_path. change ("/" +:+ join "/" ns) with (String "/" (join "/" ns)). simpl. by destruct (join "/" ns). Qed.

Lemma IsAbs_app s t : s <> "" -> IsAbs (s +:+ t) = IsAbs s.
Proof.
  destruct s as [|c s]; [done|]. intros _. rewrite string_app_cons. unfold IsAbs, has_prefix. cbn [String.prefix].
  destruct (ascii_dec "/" c); [|done]. by destruct (s +:+ t), s.
Qed.

Lemma Clean_rel ns : plain ns -> ns <> [] -> Clean (join "/" ns) = join "/" ns /\ Clean (join "/" ns +:+ "/") = join "/" ns.
Proof.
  intros H Hne. pose proof (rel_ne ns H Hne) as [H1 H2]. unfold Clean. rewrite H2.
  assert (IsAbs (join "/" ns +:+ "/") = false) as ->.
  { by rewrite IsAbs_app. }
  split.
  - rewrite (elems_kept false _ ns ns); [by destruct ns|by apply split_rel|by apply plain_kept|by apply filter_plain].
  - rewrite (elems_kept false _ (ns ++ [""]) ns); [by destruct ns| | |].
    + change (join "/" ns +:+ "/") with (join "/" ns +:+ String "/" ""). by rewrite split_app_gen, split_rel.
    + apply Forall_app. split; [by apply plain_kept|by repeat constructor].
    + rewrite List.filter_app, filter_plain by done. simpl. by rewrite app_nil_r.
Qed.

Lemma Dir_rel ns n : plain (ns ++ [n]) -> Dir (join "/" (ns ++ [n])) = match ns with [] => "." | _ => join "/" ns end.
Proof.
  intros [Hns Hn%plain_one]%plain_app. pose proof Hn as (Hc & _). unfold Dir. destruct ns as [|m ns].
  - cbn [app join]. unfold Split. apply last_index_char_None in Hc. by rewrite Hc.
  - rewrite join_snoc by done. change (join "/" (m :: ns) +:+ "/" +:+ n) with (join "/" (m :: ns) +:+ String "/" n).
    rewrite Split_app by done. cbn [fst]. by apply Clean_rel.
Qed.
