(* ===== verification/Opts.v ===== *)
(** * opts: repeated command-line options, their validators, environment files

    [ListOpts] with its operations, the validators of [opts/opts.go], and
    [ParseEnvFile] of [opts/envfile.go].  The process environment
    ([os.Getenv]), the file system ([os.Open] and what a file holds) and
    [net.ParseIP] with [IP.String] are parameters; [filepath.Clean] and
    [bufio.Scanner], which the code calls, are written out. *)

From stdpp Require Import base gmap list strings.
From Stdlib Require Import ZArith Lia Ascii.
From S2P Require Import Prelude GoStrings GoPath Parsers.

(** ** ListOpts *)

Abbreviation ValidatorFctType := (string -> result string string).

Record ListOpts := { values : list string; validator : option ValidatorFctType }.

Definition NewListOpts (v : option ValidatorFctType) : ListOpts := {| values := []; validator := v |}.

Definition append_value (opts : ListOpts) (value : string) : ListOpts :=
  {| values := values opts ++ [value]; validator := validator opts |}.

Definition Set_ (opts : ListOpts) (value : string) : result string ListOpts :=
  match validator opts with
  | Some f => match f value with Ok v => Ok (append_value opts v) | Err e => Err e end
  | None => Ok (append_value opts value)
  end.

(** The slice without the first element equal to [key]. *)
Fixpoint delete_first (key : string) (l : list string) : list string :=
  match l with
  | [] => []
  | k :: l' => if String.eqb k key then l' else k :: delete_first key l'
  end.

Definition Delete (opts : ListOpts) (key : string) : ListOpts :=
  {| values := delete_first key (values opts); validator := validator opts |}.

Definition GetMap (opts : ListOpts) : gmap string unit :=
  foldl (fun ret k => <[k := tt]> ret) ∅ (values opts).

Definition GetAll (opts : ListOpts) : list string := values opts.

Definition Get (opts : ListOpts) (key : string) : bool := existsb (String.eqb key) (values opts).

Definition Len (opts : ListOpts) : nat := length (values opts).

(** ** Validators *)

Definition ValidateAttach (val : string) : result string string :=
  let s := to_lower val in
  if existsb (String.eqb s) ["stdin"; "stdout"; "stderr"] then Ok s
  else Err "valid streams are STDIN, STDOUT and STDERR.".

Definition ValidateLink (val : string) : result string string :=
  match PartParser "name:alias" val with Ok _ => Ok val | Err e => Err e end.

(** [strings.Count(val, ":") > 2] is more than three pieces. *)
Definition ValidatePath (val : string) : result string string :=
  if Nat.ltb 3 (length (split ":" val)) then Err ("bad format for volumes: " +:+ val)
  else
    let '(containerPath, val) :=
      match split2 ":" val with
      | [a; b] => (b, a +:+ ":" +:+ Clean b)
      | a :: _ => (a, Clean a)
      | [] => (val, val)
      end in
    if negb (IsAbs containerPath) then Err (containerPath +:+ " is not an absolute path") else Ok val.

(** A label of a domain: letters and digits, with dashes inside. *)
Definition is_alnum (c : ascii) : bool :=
  is_digit c || (Ascii.leb "a" (lower_char c) && Ascii.leb (lower_char c) "z").
Definition is_alpha (c : ascii) : bool := is_alnum c && negb (is_digit c).

Definition head_char (s : string) : option ascii := String.get 0 s.
Definition last_char (s : string) : option ascii := head_char (rev_str s).
Definition char_is (p : ascii -> bool) (c : option ascii) : bool := match c with Some c => p c | None => false end.

Definition is_label (s : string) : bool :=
  forall_str (fun c => is_alnum c || Ascii.eqb c "-") s && char_is is_alnum (head_char s) && char_is is_alnum (last_char s).

(** The regular expression writes [(:?] where [(?:] is meant: an optional
    colon, in front of each label, twice in front of the first one, and in
    front of each dot. *)
Definition opt_colon (s : string) : string := trim_prefix ":" s.
Definition opt_colon_end (s : string) : string := rev_str (trim_prefix ":" (rev_str s)).

Fixpoint is_labels (l : list string) : bool :=
  match l with
  | [] => false
  | [s] => is_label (opt_colon s)
  | s :: l' => is_label (opt_colon (opt_colon_end s)) && is_labels l'
  end.

Definition is_domain (s : string) : bool := is_labels (split "." (opt_colon s)).

(** The first group of the regular expression, without the final dot and the
    final white space (tab, newline, form feed, return, space). *)
Definition is_re_space (c : ascii) : bool := existsb (Ascii.eqb c) ["009"; "010"; "012"; "013"; " "]%char.
Definition domain_match (val : string) : option string :=
  let s := trim_right is_re_space val in
  let s := rev_str (trim_prefix "." (rev_str s)) in
  if is_domain s then Some s else None.

Definition validateDomain (val : string) : result string string :=
  if forall_str (fun c => negb (is_alpha c)) val then Err (val +:+ " is not a valid domain")
  else match domain_match val with
       | Some d => Ok d
       | None => Err (val +:+ " is not a valid domain")
       end.

Definition ValidateDnsSearch (val : string) : result string string :=
  let val := trim (Ascii.eqb " ") val in
  if String.eqb val "." then Ok val else validateDomain val.

(** ** Environment files *)

Inductive env_file_error := ErrOpen | ErrBadEnvVariable (msg : string).

Definition whiteSpaces : ascii -> bool := is_blank.

(** [bufio.ScanLines] drops one final carriage return, and gives no empty
    line at the end of the file. *)
Definition drop_cr (line : string) : string := rev_str (trim_prefix (String "013" "") (rev_str line)).
Definition file_lines (l : list string) : list string :=
  match rev l with "" :: l' => rev l' | _ => l end.

(** The scanner stops, with an error [ParseEnvFile] never asks for, at a line
    that does not fit its buffer of 65536 bytes. *)
Fixpoint scan (lines : list string) : list string :=
  match lines with
  | [] => []
  | l :: rest => if (65536 <=? Z.of_nat (String.length l))%Z then [] else drop_cr l :: scan rest
  end.

Section Environment.
Context (Getenv : string -> string) (parse_ip : string -> option string) (read_file : string -> option string).

Definition ValidateEnv (val : string) : result string string :=
  if Nat.ltb 1 (length (split "=" val)) then Ok val
  else Ok (val +:+ "=" +:+ Getenv val).

(** [parse_ip s] is the text of the address [net.ParseIP] reads in [s]. *)
Definition ValidateIPAddress (val : string) : result string string :=
  match parse_ip (trim_space val) with
  | Some ip => Ok ip
  | None => Err (val +:+ " is not an ip address")
  end.

Definition ParseEnvFile_line (lines : list string) (line : string) : result env_file_error (list string) :=
  if String.eqb line "" || has_prefix "#" line then Ok lines
  else if contains_char "=" line then
    match split2 "=" line with
    | [a; b] =>
        let variable := trim_left whiteSpaces a in
        if negb (forall_str (fun c => negb (whiteSpaces c)) variable) then
          Err (ErrBadEnvVariable ("variable '" +:+ variable +:+ "' has white spaces"))
        else Ok (lines ++ [variable +:+ "=" +:+ b])
    | _ => Ok lines
    end
  else Ok (lines ++ [trim_space line +:+ "=" +:+ Getenv line]).

Definition ParseEnvFile (filename : string) : result env_file_error (list string) :=
  match read_file filename with
  | None => Err ErrOpen
  | Some content => result_foldl ParseEnvFile_line [] (scan (file_lines (split "010" content)))
  end.
End Environment.

(** ** The operations on concrete input *)

Example validators_test :
  (ValidatePath "/a://b/../c", ValidatePath "/a:b", ValidatePath "/x/", ValidateDnsSearch " foo.com. ",
   ValidateDnsSearch ":foo.com", ValidateDnsSearch ".", ValidateDnsSearch "-foo.com", ValidateDnsSearch "1.2") =
  (Ok "/a:/c", Err "b is not an absolute path", Ok "/x", Ok "foo.com", Ok ":foo.com", Ok ".",
   Err "-foo.com is not a valid domain", Err "1.2 is not a valid domain").
Proof. vm_compute. reflexivity. Qed.

Example ParseEnvFile_test :
  ParseEnvFile (fun v => if String.eqb v "HOME" then "/root" else "") (fun _ => Some ("# c" +:+ String "010" "A=1" +:+ String "013" (String "010" (" B= x" +:+ String "010" (String "010" "HOME"))))) "f" =
  Ok ["A=1"; "B= x"; "HOME=/root"].
Proof. vm_compute. reflexivity. Qed.

(** ** Validated paths *)

(** Every path an option accepts comes out with an absolute, cleaned
    container path: [ValidatePath] accepts a text of at most three
    colon-separated pieces exactly when the part after the first colon (the
    whole text when there is none) is absolute; the result has that part
    cleaned, which is a fixed point of [filepath.Clean] without any [..]
    element, and leaves the part before the colon alone. *)
Theorem ValidatePath_spec val :
  (forall r, ValidatePath val = Ok r ->
     exists pre p, val = pre +:+ p /\ r = pre +:+ Clean p /\ (length (split ":" val) <= 3)%nat /\
       ((pre = "" /\ contains_char ":" p = false) \/ exists h, pre = h +:+ ":" /\ contains_char ":" h = false) /\
       IsAbs p = true /\ IsAbs (Clean p) = true /\ Clean (Clean p) = Clean p /\ ~ In ".." (split "/" (Clean p))) /\
  (is_ok (ValidatePath val) = true <->
     (length (split ":" val) <= 3)%nat /\
     IsAbs (match split2 ":" val with [_; p] => p | _ => val end) = true).
Proof.
  unfold ValidatePath. destruct (Nat.ltb_spec 3 (length (split ":" val))) as [Hn|Hn].
  { split; [done|]. split; [done|]. intros [? _]. lia. }
  destruct (split2_spec ":" val) as [(Hc & Hs)|(h & p & -> & Hh & Hs)]; rewrite Hs.
  - destruct (IsAbs val) eqn:Ha; (split; [|by split; [|intros [_ ?]]]); simpl; [|done].
    intros r [= <-]. exists "", val. pose proof (Clean_spec val) as (H1 & H2 & H3). rewrite H1. auto 10.
  - destruct (IsAbs p) eqn:Ha; (split; [|by split; [|intros [_ ?]]]); simpl; [|done].
    intros r [= <-]. exists (h +:+ ":"), p. pose proof (Clean_spec p) as (H1 & H2 & H3). rewrite H1.
    rewrite !string_app_assoc. repeat split; auto. right. by exists h.
Qed.

(** ** Environment files: lines and their meaning *)

Inductive env_line :=
| Blank
| Comment (s : string)
| Assign (indent k v : string)
| PassThrough (name : string).

Definition line_text (l : env_line) : string :=
  match l with
  | Blank => ""
  | Comment s => "#" +:+ s
  | Assign indent k v => indent +:+ k +:+ "=" +:+ v
  | PassThrough name => name
  end.

Definition line_vars (Getenv : string -> string) (l : env_line) : list string :=
  match l with
  | Blank | Comment _ => []
  | Assign _ k v => [k +:+ "=" +:+ v]
  | PassThrough name => [trim_space name +:+ "=" +:+ Getenv name]
  end.

(** A line that ends with [cr] and fits the scanner's buffer; the variable of
    an assignment is a word without [=], blanks around it only in front. *)
Definition line_fits (cr s : string) : Prop :=
  contains_char "010" s = false /\ last_char s <> Some "013"%char /\
  (Z.of_nat (String.length (s +:+ cr)) < 65536)%Z.

Definition no_comment (s : string) : Prop := head_char s <> Some "#"%char.

Definition line_ok (cr : string) (l : env_line) : Prop :=
  line_fits cr (line_text l) /\
  match l with
  | Blank | Comment _ => True
  | Assign indent k v =>
      forall_str whiteSpaces indent = true /\ forall_str (fun c => negb (whiteSpaces c)) k = true /\
      contains_char "=" k = false /\ no_comment (line_text l)
  | PassThrough name => name <> "" /\ contains_char "=" name = false /\ no_comment name
  end.

Definition file_of (cr : string) (ls : list string) : string :=
  join (String "010" "") (((fun s => s +:+ cr) <$> ls) ++ [""]).

Definition eol_ok (cr : string) : Prop := cr = "" \/ cr = String "013" "".

Lemma head_char_app p s : p <> "" -> head_char (p +:+ s) = head_char p.
Proof. by destruct p. Qed.

Lemma no_comment_prefix s : no_comment s <-> has_prefix "#" s = false.
Proof.
  unfold no_comment, has_prefix, head_char. destruct s as [|c s]; [done|]. cbn [String.get String.prefix].
  destruct (ascii_dec "#" c) as [<-|Hn].
  - split; [by intros []|by destruct s].
  - split; [done|]. intros _ [= ->]. done.
Qed.

Lemma drop_cr_eol cr s : eol_ok cr -> last_char s <> Some "013"%char -> drop_cr (s +:+ cr) = s.
Proof.
  intros [-> | ->] H; unfold drop_cr, last_char in *.
  - rewrite string_app_nil_r.
    assert (has_prefix (String "013" "") (rev_str s) = false) as Hp.
    { unfold has_prefix. destruct (rev_str s) as [|c r]; [done|]. cbn [String.prefix].
      destruct (ascii_dec "013" c) as [<-|]; done. }
    unfold trim_prefix. rewrite Hp. apply rev_str_involutive.
  - rewrite rev_str_snoc. change (String "013" (rev_str s)) with (String "013" "" +:+ rev_str s).
    rewrite trim_prefix_app. apply rev_str_involutive.
Qed.

Lemma trim_left_word p indent k : forall_str p indent = true -> forall_str (fun c => negb (p c)) k = true ->
  trim_left p (indent +:+ k) = k.
Proof.
  induction indent as [|c i IH]; simpl; [intros _; apply trim_left_id|].
  intros [Hc Hi]%andb_true_iff Hk. change (trim_left p (String c (i +:+ k)) = k). simpl. rewrite Hc. auto.
Qed.

Section EnvFiles.
Context (Getenv : string -> string) (read_file : string -> option string) (cr : string).
Hypothesis Hcr : eol_ok cr.

Lemma ParseEnvFile_line_ok ls l : line_ok cr l ->
  ParseEnvFile_line Getenv ls (line_text l) = Ok (ls ++ line_vars Getenv l).
Proof.
  intros [_ H]. unfold ParseEnvFile_line. destruct l as [|s|indent k v|name]; cbn [line_text line_vars] in *.
  - by rewrite app_nil_r.
  - rewrite (has_prefix_app "#" s), orb_true_r. by rewrite app_nil_r.
  - destruct H as (Hi & Hk & He & Hc). apply no_comment_prefix in Hc. rewrite Hc.
    assert (contains_char "=" indent = false) as Hie by by apply (forall_str_no_char whiteSpaces).
    assert (String.eqb (indent +:+ k +:+ "=" +:+ v) "" = false) as ->.
    { apply String.eqb_neq. by destruct indent, k. }
    cbn [orb]. rewrite <- string_app_assoc. change ("=" +:+ v) with (String "=" v).
    rewrite contains_char_app, split2_app by (by rewrite contains_char_app, Hie, He).
    cbn [contains_char]. rewrite Ascii.eqb_refl, orb_true_r. by rewrite trim_left_word, Hk.
  - destruct H as (Hn & He & Hc). apply no_comment_prefix in Hc. rewrite Hc, He.
    by destruct (String.eqb_spec name "").
Qed.

Lemma split_file ls : Forall (fun s => contains_char "010" s = false) ls ->
  file_lines (split "010" (file_of cr ls)) = (fun s => s +:+ cr) <$> ls.
Proof.
  intros H. unfold file_of. rewrite split_join.
  - unfold file_lines. rewrite rev_unit. apply rev_involutive.
  - by destruct ls.
  - apply Forall_app. split; [|by repeat constructor]. apply Forall_fmap. eapply Forall_impl; [exact H|].
    intros s Hs. simpl. rewrite contains_char_app, Hs. by destruct Hcr as [-> | ->].
Qed.

Lemma scan_app ls rest : Forall (line_fits cr) ls ->
  scan (((fun s => s +:+ cr) <$> ls) ++ rest) = ls ++ scan rest.
Proof.
  induction 1 as [|s ls (_ & H & Hl) _ IH]; [done|]. cbn [fmap list_fmap app scan].
  destruct (Z.leb_spec 65536 (Z.of_nat (String.length (s +:+ cr)))); [lia|]. f_equal; [by apply drop_cr_eol|exact IH].
Qed.

Lemma ParseEnvFile_lines ls rest :
  Forall (line_ok cr) ls ->
  result_foldl (ParseEnvFile_line Getenv) [] ((line_text <$> ls) ++ rest) =
  result_foldl (ParseEnvFile_line Getenv) (mjoin (line_vars Getenv <$> ls)) rest.
Proof.
  change (mjoin (line_vars Getenv <$> ls)) with ([] ++ mjoin (line_vars Getenv <$> ls)). generalize (@nil string).
  induction ls as [|l ls IH]; intros acc H; [by rewrite app_nil_r|]. inversion H; subst.
  cbn [fmap list_fmap app result_foldl]. rewrite ParseEnvFile_line_ok by done. cbn [mbind result_bind].
  rewrite IH by done. by rewrite <- (assoc_L (++)).
Qed.
End EnvFiles.

Lemma ParseEnvFile_line_bad Getenv acc indent k v :
  forall_str whiteSpaces indent = true -> whiteSpaces (default "x"%char (head_char k)) = false ->
  forall_str (fun c => negb (whiteSpaces c)) k = false -> contains_char "=" k = false ->
  no_comment (indent +:+ k) -> k <> "" ->
  ParseEnvFile_line Getenv acc (indent +:+ k +:+ "=" +:+ v) =
    Err (ErrBadEnvVariable ("variable '" +:+ k +:+ "' has white spaces")).
Proof.
  intros Hi Hh Hk He Hc Hne. unfold ParseEnvFile_line.
  assert (contains_char "=" indent = false) as Hie by by apply (forall_str_no_char whiteSpaces).
  assert (trim_left whiteSpaces (indent +:+ k) = k) as Ht.
  { clear -Hi Hh Hne. induction indent as [|c i IH].
    - destruct k as [|c k]; [done|]. by apply trim_left_head.
    - simpl in Hi. apply andb_true_iff in Hi as [Hc Hi]. change (trim_left whiteSpaces (String c (i +:+ k)) = k).
      simpl. rewrite Hc. auto. }
  rewrite <- (string_app_assoc indent k).
  assert (String.eqb ((indent +:+ k) +:+ "=" +:+ v) "" || has_prefix "#" ((indent +:+ k) +:+ "=" +:+ v) = false) as ->.
  { apply orb_false_iff. split; [apply String.eqb_neq; by destruct indent, k|].
    apply no_comment_prefix. unfold no_comment in *.
    rewrite head_char_app; [done|]. by destruct indent, k. }
  change ("=" +:+ v) with (String "=" v).
  rewrite contains_char_app, split2_app by (by rewrite contains_char_app, Hie, He).
  cbn [contains_char]. rewrite Ascii.eqb_refl, orb_true_r. by rewrite Ht, Hk.
Qed.

(** An environment file is read line by line, whatever its line ends:
    blank lines and comments give nothing, an assignment gives its text
    without the blanks in front, a bare name gives the value the caller's
    environment has for it.  A variable with a blank inside is an error that
    hides all that was read, and a line too long for the scanner ends the
    reading without any error: the rest of the file is silently lost. *)
Theorem ParseEnvFile_spec (Getenv : string -> string) (read_file : string -> option string) cr f ls :
  eol_ok cr -> Forall (line_ok cr) ls ->
  (read_file f = Some (file_of cr (line_text <$> ls)) ->
   ParseEnvFile Getenv read_file f = Ok (mjoin (line_vars Getenv <$> ls))) /\
  (forall indent k v rest,
     forall_str whiteSpaces indent = true -> whiteSpaces (default "x"%char (head_char k)) = false ->
     forall_str (fun c => negb (whiteSpaces c)) k = false -> contains_char "=" k = false ->
     no_comment (indent +:+ k) -> k <> "" ->
     Forall (line_fits cr) ((indent +:+ k +:+ "=" +:+ v) :: rest) ->
     read_file f = Some (file_of cr ((line_text <$> ls) ++ (indent +:+ k +:+ "=" +:+ v) :: rest)) ->
     ParseEnvFile Getenv read_file f = Err (ErrBadEnvVariable ("variable '" +:+ k +:+ "' has white spaces"))) /\
  (forall long rest,
     contains_char "010" long = false -> (65536 <= Z.of_nat (String.length (long +:+ cr)))%Z ->
     Forall (fun s => contains_char "010" s = false) rest ->
     read_file f = Some (file_of cr ((line_text <$> ls) ++ long :: rest)) ->
     ParseEnvFile Getenv read_file f = Ok (mjoin (line_vars Getenv <$> ls))) /\
  (read_file f = None -> ParseEnvFile Getenv read_file f = Err ErrOpen).
Proof.
  intros Hcr Hls.
  assert (Forall (line_fits cr) (line_text <$> ls)) as Hfit.
  { apply Forall_fmap. eapply Forall_impl; [exact Hls|]. by intros l [? _]. }
  assert (forall l, Forall (line_fits cr) l -> Forall (fun s => contains_char "010" s = false) l) as Hnl.
  { intros l Hl. eapply Forall_impl; [exact Hl|]. by intros s (?&_). }
  unfold ParseEnvFile. split; [|split; [|split; [|by intros ->]]].
  - intros ->. rewrite split_file by auto. rewrite <- (app_nil_r (_ <$> (_ <$> ls))), scan_app by done.
    by rewrite ParseEnvFile_lines with (cr := cr).
  - intros indent k v rest Hi Hh Hk He Hc Hne Hrest ->. rewrite split_file by (try apply Forall_app; auto).
    rewrite <- (app_nil_r (_ <$> _)), scan_app by (try apply Forall_app; auto).
    rewrite app_nil_r, ParseEnvFile_lines with (cr := cr) by done. cbn [result_foldl].
    by rewrite ParseEnvFile_line_bad.
  - intros long rest Hlong Hlen Hrest ->. rewrite split_file by (try apply Forall_app; auto).
    rewrite fmap_app, scan_app by done. cbn [fmap list_fmap scan].
    destruct (Z.leb_spec 65536 (Z.of_nat (String.length (long +:+ cr)))); [|lia].
    by rewrite ParseEnvFile_lines with (cr := cr).
Qed.

Lemma ParseEnvFile_spec_witness :
  ParseEnvFile (fun _ => "/root") (fun _ => Some (file_of "" ["# c"; " A=1"; ""; "HOME"])) "f" = Ok ["A=1"; "HOME=/root"].
Proof.
  destruct (ParseEnvFile_spec (fun _ => "/root") (fun _ => Some (file_of "" ["# c"; " A=1"; ""; "HOME"])) "" "f"
    [Comment " c"; Assign " " "A" "1"; Blank; PassThrough "HOME"]) as [H _].
  - by left.
  - repeat constructor; by vm_compute.
  - apply H. reflexivity.
Defined.
