(* ===== verification/RunConfig.v ===== *)
(** * runconfig: the configuration of a container

    The records of [runconfig/config.go] and [hostconfig.go], the body of
    [parseRun] once [mflag] has filled the flags, [Merge] of a user's
    configuration with its image's, and [Compare], which decides whether a
    build step is cached.

    Maps are [gmap]; where the code tests a map for nil ([ExposedPorts]) it is
    optional.  [Merge] lets the two configurations share one map of ports:
    what it adds afterwards goes into both, and is modelled so.  [range] over
    a map takes the order as a parameter. *)

From stdpp Require Import base gmap list strings.
From Stdlib Require Import ZArith Lia Ascii.
From S2P Require Import Prelude GoStrings GoPath Parsers Opts.

Local Open Scope Z_scope.

(** ** Data *)

Record Config := {
  Hostname : string; Domainname : string; User : string;
  Memory : Z; MemorySwap : Z; CpuShares : Z; Cpuset : string;
  AttachStdin : bool; AttachStdout : bool; AttachStderr : bool;
  PortSpecs : list string; ExposedPorts : option PortSet;
  Tty : bool; OpenStdin : bool; StdinOnce : bool;
  Env : list string; Cmd : list string; Image : string;
  Volumes : gmap string unit; WorkingDir : string; Entrypoint : list string;
  NetworkDisabled : bool; OnBuild : list string }.

Abbreviation NetworkMode := string (only parsing).

Record DeviceMapping := { PathOnHost : string; PathInContainer : string; CgroupPermissions : string }.

Record RestartPolicy := { Name : string; MaximumRetryCount : Z }.

Record KeyValuePair := { Key : string; Value : string }.

Record HostConfig := {
  Binds : list string; ContainerIDFile : string; LxcConf : list KeyValuePair; Privileged : bool;
  PortBindings : PortMap; Links : list string; PublishAllPorts : bool; Dns : list string;
  DnsSearch : list string; VolumesFrom : list string; Devices : list DeviceMapping;
  NetMode : NetworkMode; CapAdd : list string; CapDrop : list string; Restart : RestartPolicy }.

Definition IsHost (n : NetworkMode) : bool := String.eqb n "host".

Definition IsContainer (n : NetworkMode) : bool :=
  match split2 ":" n with p :: _ :: _ => String.eqb p "container" | _ => false end.

(** ** Parsing of single options *)

Inductive run_error :=
| ErrInvalidWorkingDirectory
| ErrConflictAttachDetach
| ErrConflictDetachAutoRemove
| ErrConflictNetworkHostname
| ErrConflictHostNetworkAndLinks
| ErrConflictRestartPolicyAndAutoRemove
| ErrEnvFile (e : env_file_error)
| ErrAtoi (e : num_error)
| ErrText (s : string).

Definition quoted (s : string) : string := String "034" (s +:+ String "034" "").

(** The policy comes back with its error, as far as it was read. *)
Definition parseRestartPolicy (policy : string) : RestartPolicy * option run_error :=
  if String.eqb policy "" then ({| Name := ""; MaximumRetryCount := 0 |}, None)
  else
    let parts := split ":" policy in
    let name := default "" (head parts) in
    if String.eqb name "always" then
      ({| Name := name; MaximumRetryCount := 0 |},
       if Nat.eqb (length parts) 2
       then Some (ErrText ("maximum restart count not valid with restart policy of " +:+ quoted name)) else None)
    else if String.eqb name "no" then ({| Name := ""; MaximumRetryCount := 0 |}, None)
    else if String.eqb name "on-failure" then
      match parts with
      | [_; count] =>
          match atoi count with
          | Ok n => ({| Name := name; MaximumRetryCount := n |}, None)
          | Err e => ({| Name := name; MaximumRetryCount := 0 |}, Some (ErrAtoi e))
          end
      | _ => ({| Name := name; MaximumRetryCount := 0 |}, None)
      end
    else ({| Name := ""; MaximumRetryCount := 0 |}, Some (ErrText ("invalid restart policy " +:+ name))).

Definition parseDriverOpts_step (out : gmap string (list string)) (o : string) :
    result run_error (gmap string (list string)) :=
  match split2 "." o with
  | [k; v] =>
      if String.eqb (trim_space k) "" then Err (ErrText ("key cannot be empty " +:+ o))
      else Ok (<[k := default [] (out !! k) ++ [v]]> out)
  | _ => Err (ErrText ("invalid opt format " +:+ o))
  end.

Definition parseDriverOpts (opts : ListOpts) : result run_error (gmap string (list string)) :=
  result_foldl parseDriverOpts_step ∅ (GetAll opts).

Definition parseKeyValueOpt (o : string) : result run_error KeyValuePair :=
  match ParseKeyValueOpt o with
  | Ok (k, v) => Ok {| Key := k; Value := v |}
  | Err e => Err (ErrText e)
  end.

Definition parseKeyValueOpts (opts : ListOpts) : result run_error (list KeyValuePair) :=
  result_mapM parseKeyValueOpt (GetAll opts).

Definition parseNetMode (netMode : string) : result run_error NetworkMode :=
  let parts := split ":" netMode in
  let mode := default "" (head parts) in
  if existsb (String.eqb mode) ["bridge"; "none"; "host"] then Ok netMode
  else if String.eqb mode "container" then
    match parts with
    | _ :: name :: _ =>
        if String.eqb name "" then Err (ErrText "invalid container format container:<name|id>") else Ok netMode
    | _ => Err (ErrText "invalid container format container:<name|id>")
    end
  else Err (ErrText ("invalid --net: " +:+ netMode)).

Definition ParseDevice (device : string) : result run_error DeviceMapping :=
  let mapping src dst permissions :=
    Ok {| PathOnHost := src; PathInContainer := if String.eqb dst "" then src else dst;
          CgroupPermissions := permissions |} in
  match split ":" device with
  | [src; dst; permissions] => mapping src dst permissions
  | [src; dst] => mapping src dst "rwm"
  | [src] => mapping src "" "rwm"
  | _ => Err (ErrText ("Invalid device specification: " +:+ device))
  end.

(** ** parseRun *)

(** The flags as [mflag] leaves them, with the arguments that follow. *)
Record RunFlags := {
  flAttach : ListOpts; flVolumes : ListOpts; flLinks : ListOpts; flEnv : ListOpts; flDevices : ListOpts;
  flPublish : ListOpts; flExpose : ListOpts; flDns : ListOpts; flDnsSearch : ListOpts;
  flVolumesFrom : ListOpts; flLxcOpts : ListOpts; flEnvFile : ListOpts; flCapAdd : ListOpts; flCapDrop : ListOpts;
  flAutoRemove : bool; flDetach : bool; flNetwork : bool; flPrivileged : bool; flPublishAll : bool;
  flStdin : bool; flTty : bool; flContainerIDFile : string; flEntrypoint : string; flHostname : string;
  flMemoryString : string; flUser : string; flWorkingDir : string; flCpuShares : Z; flCpuset : string;
  flNetMode : string; flRestartPolicy : string; parsedArgs : list string }.

Record SysInfo := { MemoryLimit : bool; SwapLimit : bool }.

Definition check_conflicts (f : RunFlags) : option run_error :=
  if flDetach f && Nat.ltb 0 (Len (flAttach f)) then Some ErrConflictAttachDetach
  else if negb (String.eqb (flWorkingDir f) "") && negb (IsAbs (flWorkingDir f)) then Some ErrInvalidWorkingDirectory
  else if flDetach f && flAutoRemove f then Some ErrConflictDetachAutoRemove
  else if negb (String.eqb (flNetMode f) "bridge") && negb (String.eqb (flNetMode f) "none")
          && negb (String.eqb (flHostname f) "") then Some ErrConflictNetworkHostname
  else if String.eqb (flNetMode f) "host" && Nat.ltb 0 (Len (flLinks f)) then Some ErrConflictHostNetworkAndLinks
  else None.

(** [flAttach.Set], its error ignored. *)
Definition set_attach (o : ListOpts) (s : string) : ListOpts := match Set_ o s with Ok o' => o' | Err _ => o end.

Definition default_attach (f : RunFlags) : ListOpts :=
  if Nat.eqb (Len (flAttach f)) 0 && negb (flDetach f) then
    let o := set_attach (set_attach (flAttach f) "stdout") "stderr" in
    if flStdin f then set_attach o "stdin" else o
  else flAttach f.

Definition bind_step '((vols, binds) : ListOpts * list string) (bind : string) :
    result run_error (ListOpts * list string) :=
  match split ":" bind with
  | _ :: dst :: _ =>
      if String.eqb dst "/" then Err (ErrText "Invalid bind mount: destination can't be '/'")
      else Ok (Delete vols bind, binds ++ [bind])
  | _ => if String.eqb bind "/" then Err (ErrText "Invalid volume: path can't be '/'") else Ok (vols, binds)
  end.

Definition expose_step (ports : PortSet) (e : string) : result run_error PortSet :=
  if contains_char ":" e then Err (ErrText ("Invalid port format for --expose: " +:+ e))
  else
    let '(proto, port) := SplitProtoPort e in
    let p := NewPort proto port in
    Ok (match ports !! p with Some _ => ports | None => <[p := tt]> ports end).

Definition env_file_step Getenv read_file (env : list string) (ef : string) : result run_error (list string) :=
  match ParseEnvFile Getenv read_file ef with
  | Ok vars => Ok (env ++ vars)
  | Err e => Err (ErrEnvFile e)
  end.

Definition text_error {A} (r : result string A) : result run_error A :=
  match r with Ok a => Ok a | Err e => Err (ErrText e) end.

Section Run.
Context (is_ip : string -> bool) (Getenv : string -> string) (read_file : string -> option string).
(** The order in which [range] visits the keys of a map. *)
Context (range : gmap string unit -> list string).

Definition memory_string (f : RunFlags) (sysInfo : option SysInfo) : string :=
  match sysInfo with
  | Some s => if negb (String.eqb (flMemoryString f) "") && negb (MemoryLimit s) then "" else flMemoryString f
  | None => flMemoryString f
  end.

Definition parseRun (f : RunFlags) (sysInfo : option SysInfo) : result run_error (Config * HostConfig) :=
  let memoryString := memory_string f sysInfo in
  match check_conflicts f with
  | Some e => Err e
  | None =>
  let attach := default_attach f in
  flMemory ← (if String.eqb memoryString "" then Ok 0 else text_error (RAMInBytes memoryString));
  vb ← result_foldl bind_step (flVolumes f, []) (range (GetMap (flVolumes f)));
  let (volumes, binds) := vb : ListOpts * list string in
  lxcConf ← parseKeyValueOpts (flLxcOpts f);
  let '(hostname, domainname) :=
    match split2 "." (flHostname f) with [h; d] => (h, d) | _ => (flHostname f, "") end in
  pb ← text_error (ParsePortSpecs is_ip (GetAll (flPublish f)));
  let (published, portBindings) := pb : PortSet * PortMap in
  ports ← result_foldl expose_step published (GetAll (flExpose f));
  deviceMappings ← result_mapM ParseDevice (GetAll (flDevices f));
  fileVariables ← result_foldl (env_file_step Getenv read_file) [] (GetAll (flEnvFile f));
  netMode ← match parseNetMode (flNetMode f) with
            | Ok m => Ok m
            | Err (ErrText e) => Err (ErrText ("--net: invalid net mode: " +:+ e))
            | Err e => Err e
            end;
  match parseRestartPolicy (flRestartPolicy f) with
  | (_, Some e) => Err e
  | (restartPolicy, None) =>
  if flAutoRemove f && (String.eqb (Name restartPolicy) "always" || String.eqb (Name restartPolicy) "on-failure")
  then Err ErrConflictRestartPolicyAndAutoRemove
  else Ok
   ({| Hostname := hostname; Domainname := domainname; User := flUser f;
       Memory := flMemory;
       MemorySwap := match sysInfo with Some s => if (0 <? flMemory) && negb (SwapLimit s) then -1 else 0 | None => 0 end;
       CpuShares := flCpuShares f; Cpuset := flCpuset f;
       AttachStdin := Get attach "stdin"; AttachStdout := Get attach "stdout"; AttachStderr := Get attach "stderr";
       PortSpecs := []; ExposedPorts := Some ports; Tty := flTty f; OpenStdin := flStdin f;
       StdinOnce := flStdin f && Get attach "stdin";
       Env := fileVariables ++ GetAll (flEnv f); Cmd := tail (parsedArgs f);
       Image := default "" (head (parsedArgs f)); Volumes := GetMap volumes; WorkingDir := flWorkingDir f;
       Entrypoint := if String.eqb (flEntrypoint f) "" then [] else [flEntrypoint f];
       NetworkDisabled := negb (flNetwork f); OnBuild := [] |},
    {| Binds := binds; ContainerIDFile := flContainerIDFile f; LxcConf := lxcConf; Privileged := flPrivileged f;
       PortBindings := portBindings; Links := GetAll (flLinks f); PublishAllPorts := flPublishAll f;
       Dns := GetAll (flDns f); DnsSearch := GetAll (flDnsSearch f); VolumesFrom := GetAll (flVolumesFrom f);
       Devices := deviceMappings; NetMode := netMode; CapAdd := GetAll (flCapAdd f); CapDrop := GetAll (flCapDrop f);
       Restart := restartPolicy |})
  end
  end.
End Run.

(** ** Merge *)

Definition or_text (user image : string) : string := if String.eqb user "" then image else user.
Definition or_int (user image : Z) : Z := if user =? 0 then image else user.

Definition with_ports (c : Config) (ports : option PortSet) : Config :=
  {| Hostname := Hostname c; Domainname := Domainname c; User := User c; Memory := Memory c;
     MemorySwap := MemorySwap c; CpuShares := CpuShares c; Cpuset := Cpuset c; AttachStdin := AttachStdin c;
     AttachStdout := AttachStdout c; AttachStderr := AttachStderr c; PortSpecs := PortSpecs c;
     ExposedPorts := ports; Tty := Tty c; OpenStdin := OpenStdin c; StdinOnce := StdinOnce c; Env := Env c;
     Cmd := Cmd c; Image := Image c; Volumes := Volumes c; WorkingDir := WorkingDir c;
     Entrypoint := Entrypoint c; NetworkDisabled := NetworkDisabled c; OnBuild := OnBuild c |}.

(** The user's configuration, the image's, and whether their port maps are
    one and the same. *)
Record MergeState := { userConf : Config; imageConf : Config; shared : bool }.

Definition merge_limits (u i : Config) : Config :=
  {| Hostname := Hostname u; Domainname := Domainname u; User := or_text (User u) (User i);
     Memory := or_int (Memory u) (Memory i); MemorySwap := or_int (MemorySwap u) (MemorySwap i);
     CpuShares := or_int (CpuShares u) (CpuShares i); Cpuset := Cpuset u; AttachStdin := AttachStdin u;
     AttachStdout := AttachStdout u; AttachStderr := AttachStderr u; PortSpecs := PortSpecs u;
     ExposedPorts := ExposedPorts u; Tty := Tty u; OpenStdin := OpenStdin u; StdinOnce := StdinOnce u; Env := Env u;
     Cmd := Cmd u; Image := Image u; Volumes := Volumes u; WorkingDir := WorkingDir u;
     Entrypoint := Entrypoint u; NetworkDisabled := NetworkDisabled u; OnBuild := OnBuild u |}.

Definition clear_specs (c : Config) : Config :=
  {| Hostname := Hostname c; Domainname := Domainname c; User := User c; Memory := Memory c;
     MemorySwap := MemorySwap c; CpuShares := CpuShares c; Cpuset := Cpuset c; AttachStdin := AttachStdin c;
     AttachStdout := AttachStdout c; AttachStderr := AttachStderr c; PortSpecs := [];
     ExposedPorts := ExposedPorts c; Tty := Tty c; OpenStdin := OpenStdin c; StdinOnce := StdinOnce c; Env := Env c;
     Cmd := Cmd c; Image := Image c; Volumes := Volumes c; WorkingDir := WorkingDir c;
     Entrypoint := Entrypoint c; NetworkDisabled := NetworkDisabled c; OnBuild := OnBuild c |}.

Definition ports_of (c : Config) : PortSet := default ∅ (ExposedPorts c).

(** [for port := range ports { if !exists { userConf.ExposedPorts[port] = ... } }] *)
Definition add_ports (s : MergeState) (ports : PortSet) : MergeState :=
  let new := Some (ports_of (userConf s) ∪ ports) in
  {| userConf := with_ports (userConf s) new;
     imageConf := if shared s then with_ports (imageConf s) new else imageConf s;
     shared := shared s |}.

(** [if userConf.ExposedPorts == nil { userConf.ExposedPorts = make(nat.PortSet) }] *)
Definition make_ports (s : MergeState) : MergeState :=
  match ExposedPorts (userConf s) with
  | Some _ => s
  | None => {| userConf := with_ports (userConf s) (Some ∅); imageConf := imageConf s; shared := false |}
  end.

Definition merge_ports (s : MergeState) : MergeState :=
  if Nat.eqb (size (ports_of (userConf s))) 0 then
    {| userConf := with_ports (userConf s) (ExposedPorts (imageConf s)); imageConf := imageConf s; shared := true |}
  else match ExposedPorts (imageConf s) with
       | Some ports => add_ports s ports
       | None => s
       end.

Definition env_key (e : string) : string := default "" (head (split "=" e)).

Definition merge_env_step (env : list string) (imageEnv : string) : list string :=
  if existsb (fun userEnv => String.eqb (env_key imageEnv) (env_key userEnv)) env then env else env ++ [imageEnv].

Definition merge_rest (u i : Config) : Config :=
  {| Hostname := Hostname u; Domainname := Domainname u; User := User u; Memory := Memory u;
     MemorySwap := MemorySwap u; CpuShares := CpuShares u; Cpuset := Cpuset u; AttachStdin := AttachStdin u;
     AttachStdout := AttachStdout u; AttachStderr := AttachStderr u; PortSpecs := PortSpecs u;
     ExposedPorts := ExposedPorts u; Tty := Tty u; OpenStdin := OpenStdin u; StdinOnce := StdinOnce u;
     Env := match Env u with [] => Env i | _ => foldl merge_env_step (Env u) (Env i) end;
     Cmd := match Entrypoint u, Cmd u with [], [] => Cmd i | _, _ => Cmd u end;
     Image := Image u;
     Volumes := if Nat.eqb (size (Volumes u)) 0 then Volumes i else Volumes i ∪ Volumes u;
     WorkingDir := or_text (WorkingDir u) (WorkingDir i);
     Entrypoint := match Entrypoint u with [] => Entrypoint i | _ => Entrypoint u end;
     NetworkDisabled := NetworkDisabled u; OnBuild := OnBuild u |}.

Section MergeSpecs.
Context (is_ip : string -> bool).

(** The ports of a configuration's deprecated specifications. *)
Definition merge_specs (s : MergeState) (specs : list string) : result string MergeState :=
  match specs with
  | [] => Ok s
  | _ =>
      let s := make_ports s in
      match ParsePortSpecs is_ip specs with
      | Ok (ports, _) => Ok (add_ports s ports)
      | Err e => Err e
      end
  end.

(** Both configurations come back as they are then, with the error if any;
    after a failed parse the map of the user is not nil any more. *)
Definition Merge (u i : Config) : Config * Config * option string :=
  let s := merge_ports {| userConf := merge_limits u i; imageConf := i; shared := false |} in
  match merge_specs s (PortSpecs (userConf s)) with
  | Err e => (userConf (make_ports s), imageConf s, Some e)
  | Ok s =>
      let s := {| userConf := clear_specs (userConf s); imageConf := imageConf s; shared := shared s |} in
      match merge_specs s (PortSpecs (imageConf s)) with
      | Err e => (userConf (make_ports s), imageConf s, Some e)
      | Ok s => (merge_rest (userConf s) (imageConf s), imageConf s, None)
      end
  end.
End MergeSpecs.

(** ** Compare *)

(** Lists already known to be as long as each other. *)
Definition same_strings (a b : list string) : bool := forallb (fun '(x, y) => String.eqb x y) (zip a b).

Definition keys_in (a b : gmap string unit) : bool :=
  forallb (fun '(k, _) => bool_decide (is_Some (b !! k))) (map_to_list a).

Definition Compare (a b : option Config) : bool :=
  match a, b with
  | Some a, Some b =>
      if OpenStdin a || OpenStdin b then false
      else if negb (Bool.eqb (AttachStdout a) (AttachStdout b)) || negb (Bool.eqb (AttachStderr a) (AttachStderr b))
        || negb (String.eqb (User a) (User b)) || negb (Memory a =? Memory b)
        || negb (MemorySwap a =? MemorySwap b) || negb (CpuShares a =? CpuShares b)
        || negb (Bool.eqb (OpenStdin a) (OpenStdin b)) || negb (Bool.eqb (Tty a) (Tty b)) then false
      else if negb (Nat.eqb (length (Cmd a)) (length (Cmd b))) || negb (Nat.eqb (length (Env a)) (length (Env b)))
        || negb (Nat.eqb (length (PortSpecs a)) (length (PortSpecs b)))
        || negb (Nat.eqb (size (ports_of a)) (size (ports_of b)))
        || negb (Nat.eqb (length (Entrypoint a)) (length (Entrypoint b)))
        || negb (Nat.eqb (size (Volumes a)) (size (Volumes b))) then false
      else same_strings (Cmd a) (Cmd b) && same_strings (Env a) (Env b) && same_strings (PortSpecs a) (PortSpecs b)
        && keys_in (ports_of a) (ports_of b) && same_strings (Entrypoint a) (Entrypoint b)
        && keys_in (Volumes a) (Volumes b)
  | _, _ => false
  end.

(** ** Lemmas on merging *)

Lemma with_ports_same c : with_ports c (ExposedPorts c) = c.
Proof. by destruct c. Qed.

Lemma with_ports_twice c p q : with_ports (with_ports c p) q = with_ports c q.
Proof. done. Qed.

(** The maps are really one: shared, and not nil. *)
Definition linked (s : MergeState) : bool := shared s && bool_decide (is_Some (ExposedPorts (imageConf s))).

Definition linked_ok (s : MergeState) : Prop := shared s = true -> ExposedPorts (userConf s) = ExposedPorts (imageConf s).

(** One stage of [Merge] that adds the ports [new]. *)
Definition ports_stage (s : MergeState) (new : gset string) (s' : MergeState) : Prop :=
  (exists p, userConf s' = with_ports (userConf s) p) /\
  dom (ports_of (userConf s')) = dom (ports_of (userConf s)) ∪ new /\
  imageConf s' = (if linked s' then with_ports (imageConf s) (ExposedPorts (userConf s')) else imageConf s) /\
  linked_ok s'.

Lemma merge_ports_stage s : shared s = false ->
  ports_stage s (dom (ports_of (imageConf s))) (merge_ports s) /\
  linked (merge_ports s) = bool_decide (size (ports_of (userConf s)) = 0%nat /\ is_Some (ExposedPorts (imageConf s))).
Proof.
  intros Hs. unfold merge_ports. destruct (Nat.eqb_spec (size (ports_of (userConf s))) 0) as [E|E].
  - apply map_size_empty_iff in E. unfold ports_stage, linked, linked_ok. cbn [userConf imageConf shared andb].
    split; [|apply bool_decide_ext; rewrite E, map_size_empty; tauto]. split; [by eexists|]. rewrite E.
    split; [unfold ports_of; cbn; set_solver|]. split; [|done]. case_bool_decide; [|done]. exact (eq_sym (with_ports_same (imageConf s))).
  - rewrite bool_decide_eq_false_2 by tauto. unfold ports_of at 1.
    destruct (ExposedPorts (imageConf s)) as [ports|] eqn:Ei.
    + unfold ports_stage, linked, linked_ok, add_ports. cbn [userConf imageConf shared]. rewrite Hs. cbn [andb].
      split; [|done]. split; [by eexists|]. split; [|done]. unfold ports_of at 1. cbn. by rewrite dom_union_L.
    + split; [|unfold linked; by rewrite Hs]. unfold ports_stage, linked, linked_ok. rewrite Hs. cbn [andb].
      split; [by exists (ExposedPorts (userConf s)); rewrite with_ports_same|]. split; [set_solver|done].
Qed.

Section MergeLemmas.
Context (is_ip : string -> bool).

Definition ports_from (specs : list string) : result string PortSet :=
  match ParsePortSpecs is_ip specs with Ok (p, _) => Ok p | Err e => Err e end.

Lemma merge_specs_stage s specs : linked_ok s ->
  match ports_from specs with
  | Ok new => exists s', merge_specs is_ip s specs = Ok s' /\ ports_stage s (dom new) s' /\ linked s' = linked s
  | Err e => merge_specs is_ip s specs = Err e
  end.
Proof.
  intros Hok. destruct specs as [|x specs].
  { exists s. cbn. split; [done|]. split; [|done]. split; [by exists (ExposedPorts (userConf s)); rewrite with_ports_same|].
    split; [set_solver|]. split; [|done]. unfold linked. destruct (shared s) eqn:E; [|done]. cbn.
    case_bool_decide; [|done]. by rewrite (Hok E), with_ports_same. }
  unfold merge_specs, ports_from. destruct (ParsePortSpecs is_ip (x :: specs)) as [[new bs]|e]; [|done].
  eexists. split; [done|]. unfold make_ports, ports_stage, linked, linked_ok in *.
  destruct (ExposedPorts (userConf s)) as [p|] eqn:Eu; unfold add_ports, ports_of; cbn [userConf imageConf shared].
  - rewrite Eu. destruct (shared s) eqn:E; cbn.
    + specialize (Hok eq_refl). rewrite <- Hok, !bool_decide_eq_true_2 by done. cbn.
      rewrite dom_union_L. repeat split; by eexists.
    + rewrite dom_union_L. repeat split; [by eexists|done].
  - rewrite Eu. cbn. rewrite dom_union_L, dom_empty_L. repeat split; [by eexists|done|].
    destruct (shared s) eqn:E; [|done]. cbn. by rewrite <- (Hok eq_refl), bool_decide_eq_false_2 by by intros [].
Qed.
End MergeLemmas.

(** The configuration [Merge] makes, its ports apart. *)
Definition Merged (u i : Config) (p : option PortSet) : Config :=
  merge_rest (with_ports (clear_specs (merge_limits u i)) p) i.

Definition takes_image_ports (u i : Config) : bool :=
  bool_decide (size (ports_of u) = 0%nat /\ is_Some (ExposedPorts i)).

Lemma Merge_result is_ip u i :
  match ports_from is_ip (PortSpecs u), ports_from is_ip (PortSpecs i) with
  | Ok up, Ok ip =>
      exists p, Merge is_ip u i = (Merged u i p, with_ports i (if takes_image_ports u i then p else ExposedPorts i), None) /\
        dom (default ∅ p) = dom (ports_of u) ∪ dom (ports_of i) ∪ dom up ∪ dom ip
  | Err e, _ | Ok _, Err e => snd (Merge is_ip u i) = Some e
  end.
Proof.
  unfold Merge. set (s0 := {| userConf := merge_limits u i; imageConf := i; shared := false |}).
  destruct (merge_ports_stage s0 eq_refl) as [((p1 & H1) & D1 & I1 & L1) E1].
  set (s1 := merge_ports s0) in *. assert (PortSpecs (userConf s1) = PortSpecs u) as -> by by rewrite H1.
  pose proof (merge_specs_stage is_ip s1 (PortSpecs u) L1) as H.
  destruct (ports_from is_ip (PortSpecs u)) as [up|e]; [|by rewrite H].
  destruct H as (s2 & -> & ((p2 & H2) & D2 & I2 & L2) & E2).
  set (s3 := {| userConf := clear_specs (userConf s2); imageConf := imageConf s2; shared := shared s2 |}).
  assert (PortSpecs (imageConf s2) = PortSpecs i) as Hi.
  { rewrite I2, I1. by destruct (linked s2), (linked s1). }
  change (PortSpecs (imageConf s3)) with (PortSpecs (imageConf s2)). rewrite Hi.
  assert (linked_ok s3) as L3 by exact L2.
  pose proof (merge_specs_stage is_ip s3 (PortSpecs i) L3) as H.
  destruct (ports_from is_ip (PortSpecs i)) as [ip|e]; [|by rewrite H].
  destruct H as (s4 & -> & ((p4 & H4) & D4 & I4 & L4) & E4).
  change (linked s3) with (linked s2) in E4. rewrite E4, E2, E1 in I4. rewrite E2, E1 in I2. rewrite E1 in I1.
  change (bool_decide (size (ports_of (userConf s0)) = 0%nat /\ is_Some (ExposedPorts (imageConf s0))))
    with (takes_image_ports u i) in *.
  exists p4. change (imageConf s3) with (imageConf s2) in I4. change (userConf s3) with (clear_specs (userConf s2)) in *.
  split.
  - assert (userConf s4 = with_ports (clear_specs (merge_limits u i)) p4) as Hu by by rewrite H4, H2, H1.
    assert (imageConf s4 = with_ports i (if takes_image_ports u i then p4 else ExposedPorts i)) as Hc.
    { rewrite I4, I2, I1, Hu. destruct (takes_image_ports u i); [done|]. by rewrite with_ports_same. }
    by rewrite Hu, Hc.
  - rewrite H4 in D4. change (ports_of (clear_specs (userConf s2))) with (ports_of (userConf s2)) in D4.
    unfold ports_of at 1 in D4. cbn [ExposedPorts with_ports] in D4. rewrite D4, D2, D1. unfold s0. cbn. done.
Qed.

Lemma or_text_idem u i : or_text (or_text u i) i = or_text u i.
Proof. unfold or_text. destruct (String.eqb u "") eqn:E; [by destruct (String.eqb i "")|by rewrite E]. Qed.

Lemma or_int_idem u i : or_int (or_int u i) i = or_int u i.
Proof. unfold or_int. destruct (u =? 0) eqn:E; [by destruct (i =? 0)|by rewrite E]. Qed.

Lemma env_key_in k env : existsb (fun e => String.eqb k (env_key e)) env = true <-> k ∈ env_key <$> env.
Proof.
  rewrite existsb_exists. setoid_rewrite <- list_elem_of_In. rewrite list_elem_of_fmap.
  split; intros (e & H1 & H2); exists e; [apply String.eqb_eq in H2|]; split; try done. subst. by apply String.eqb_eq.
Qed.

(** What the image adds to an environment: the first entry of each variable
    the user does not set. *)
Lemma merge_env_added u i : exists added,
  foldl merge_env_step u i = u ++ added /\ sublist added i /\ NoDup (env_key <$> added) /\
  (forall e, e ∈ added -> env_key e ∉ env_key <$> u) /\
  (forall e, e ∈ i -> env_key e ∈ env_key <$> (u ++ added)).
Proof.
  revert u. induction i as [|e i IH]; intros u.
  - exists []. rewrite app_nil_r. repeat split; try done; [constructor|by intros ? ?%not_elem_of_nil|by intros ? ?%not_elem_of_nil].
  - cbn [foldl]. unfold merge_env_step at 2. destruct (existsb _ u) eqn:E.
    + apply env_key_in in E. destruct (IH u) as (a & -> & Hs & Hn & Hu & Hi). exists a. repeat split; try done.
      * by constructor.
      * intros e' [->|He]%elem_of_cons; [|auto]. rewrite fmap_app. apply elem_of_app. auto.
    + destruct (IH (u ++ [e])) as (a & -> & Hs & Hn & Hu & Hi). exists (e :: a). rewrite <- (assoc_L (++)). cbn [app].
      assert (env_key e ∉ env_key <$> u) as Hk by (rewrite <- env_key_in; by rewrite E).
      split; [done|]. split; [by constructor|]. split.
      * cbn. constructor; [|done]. intros (e' & Heq & He')%list_elem_of_fmap. apply (Hu e' He').
        rewrite fmap_app, <- Heq. set_solver.
      * split.
        -- intros e' [->|He]%elem_of_cons; [done|]. specialize (Hu e' He). rewrite fmap_app in Hu. set_solver.
        -- intros e' [->|He]%elem_of_cons; [rewrite fmap_app; set_solver|]. specialize (Hi e' He).
           by rewrite <- (assoc_L (++)) in Hi.
Qed.

Lemma merge_env_idem u i : (forall e, e ∈ i -> env_key e ∈ env_key <$> u) -> foldl merge_env_step u i = u.
Proof.
  induction i as [|e i IH]; intros H; [done|]. cbn [foldl]. unfold merge_env_step at 2.
  destruct (existsb _ u) eqn:E; [apply IH; intros; apply H; by right|].
  exfalso. assert (env_key e ∈ env_key <$> u) as Hin by (apply H; left). apply env_key_in in Hin. by rewrite E in Hin.
Qed.

Lemma with_ports_ext a b :
  Hostname a = Hostname b -> Domainname a = Domainname b -> User a = User b -> Memory a = Memory b ->
  MemorySwap a = MemorySwap b -> CpuShares a = CpuShares b -> Cpuset a = Cpuset b -> AttachStdin a = AttachStdin b ->
  AttachStdout a = AttachStdout b -> AttachStderr a = AttachStderr b -> PortSpecs a = PortSpecs b -> Tty a = Tty b ->
  OpenStdin a = OpenStdin b -> StdinOnce a = StdinOnce b -> Env a = Env b -> Cmd a = Cmd b ->
  Image a = Image b -> Volumes a = Volumes b -> WorkingDir a = WorkingDir b -> Entrypoint a = Entrypoint b ->
  NetworkDisabled a = NetworkDisabled b -> OnBuild a = OnBuild b ->
  with_ports a None = with_ports b None.
Proof. intros. unfold with_ports. f_equal; done. Qed.

Lemma merged_env_idem u i : (match (match Env u with [] => Env i | _ => foldl merge_env_step (Env u) (Env i) end) with
    [] => Env i
  | _ => foldl merge_env_step (match Env u with [] => Env i | _ => foldl merge_env_step (Env u) (Env i) end) (Env i)
  end) = match Env u with [] => Env i | _ => foldl merge_env_step (Env u) (Env i) end.
Proof.
  destruct (Env u) as [|e env] eqn:Eu.
  - destruct (Env i) as [|e env] eqn:Ei; [done|]. apply merge_env_idem. intros e' He. apply list_elem_of_fmap. by exists e'.
  - destruct (merge_env_added (e :: env) (Env i)) as (a & -> & _ & _ & _ & Hi). cbn [app]. by apply merge_env_idem.
Qed.

Lemma merged_volumes_idem (u i : gmap string unit) :
  let m := if Nat.eqb (size u) 0 then i else i ∪ u in (if Nat.eqb (size m) 0 then i else i ∪ m) = m.
Proof.
  intros m. unfold m. destruct (Nat.eqb_spec (size u) 0) as [E|E].
  - destruct (Nat.eqb (size i) 0); [done|]. by rewrite (idemp_L (∪)).
  - destruct (Nat.eqb_spec (size (i ∪ u)) 0) as [E2|E2]; [|by rewrite (assoc_L (∪)), (idemp_L (∪))].
    apply map_size_empty_iff, map_positive_l in E2 as E3. by rewrite E3 in *; rewrite (left_id_L ∅ (∪)) in *;
      apply map_size_empty_iff in E2; rewrite E2 in *.
Qed.

Lemma Merged_idem u i p q r : with_ports (Merged (Merged u i p) (with_ports i q) r) None = with_ports (Merged u i p) None.
Proof.
  apply with_ports_ext; try reflexivity.
  - apply or_text_idem.
  - apply or_int_idem.
  - apply or_int_idem.
  - apply or_int_idem.
  - exact (merged_env_idem u i).
  - cbn. by destruct (Entrypoint u), (Entrypoint i), (Cmd u), (Cmd i).
  - exact (merged_volumes_idem (Volumes u) (Volumes i)).
  - apply or_text_idem.
  - cbn. by destruct (Entrypoint u), (Entrypoint i).
Qed.

(** C11. [Merge] fills what the user left out from the image and never
    replaces what the user said: scalar settings, the working directory, the
    entry point (whose command it keeps together with it), volumes and exposed
    ports of both, those of the deprecated port specifications included; the
    image's environment only for variables the user does not set.  It fails
    exactly when one of the port specifications does not parse, and merging
    the same image once more changes nothing.  When the user exposes no port,
    the image's own port map is handed over, so that the ports of the user's
    specifications land in the image's configuration too. *)
Theorem Merge_spec is_ip u i :
  (snd (Merge is_ip u i) = None <->
     is_ok (ports_from is_ip (PortSpecs u)) = true /\ is_ok (ports_from is_ip (PortSpecs i)) = true) /\
  forall u' i', Merge is_ip u i = (u', i', None) ->
    (User u' = or_text (User u) (User i) /\ Memory u' = or_int (Memory u) (Memory i) /\
     MemorySwap u' = or_int (MemorySwap u) (MemorySwap i) /\ CpuShares u' = or_int (CpuShares u) (CpuShares i) /\
     WorkingDir u' = or_text (WorkingDir u) (WorkingDir i) /\ PortSpecs u' = []) /\
    (Entrypoint u <> [] -> Entrypoint u' = Entrypoint u /\ Cmd u' = Cmd u) /\
    (Entrypoint u = [] -> Entrypoint u' = Entrypoint i /\ Cmd u' = match Cmd u with [] => Cmd i | _ => Cmd u end) /\
    (Env u = [] -> Env u' = Env i) /\
    (Env u <> [] -> exists added, Env u' = Env u ++ added /\ sublist added (Env i) /\ NoDup (env_key <$> added) /\
       (forall e, e ∈ added -> env_key e ∉ env_key <$> Env u) /\
       (forall e, e ∈ Env i -> env_key e ∈ env_key <$> Env u')) /\
    dom (Volumes u') = dom (Volumes u) ∪ dom (Volumes i) /\
    (exists up ip, ports_from is_ip (PortSpecs u) = Ok up /\ ports_from is_ip (PortSpecs i) = Ok ip /\
       dom (ports_of u') = dom (ports_of u) ∪ dom (ports_of i) ∪ dom up ∪ dom ip) /\
    i' = with_ports i (if takes_image_ports u i then ExposedPorts u' else ExposedPorts i) /\
    exists u2 i2, Merge is_ip u' i' = (u2, i2, None) /\ with_ports u2 None = with_ports u' None /\
      dom (ports_of u2) = dom (ports_of u').
Proof.
  pose proof (Merge_result is_ip u i) as H. split.
  { destruct (ports_from is_ip (PortSpecs u)), (ports_from is_ip (PortSpecs i)); try (rewrite H; split; [done|by intros [? ?]]).
    by destruct H as (p & -> & _). }
  intros u' i' HM. destruct (ports_from is_ip (PortSpecs u)) as [up|e] eqn:Eu; [|by rewrite HM in H].
  destruct (ports_from is_ip (PortSpecs i)) as [ip|e] eqn:Ei; [|by rewrite HM in H].
  destruct H as (p & H & Hp). rewrite HM in H. injection H as -> ->.
  split; [done|]. split; [cbn; by destruct (Entrypoint u)|]. split; [cbn; by intros ->; destruct (Cmd u)|].
  split; [cbn; by intros ->|]. split.
  { intros Hne. destruct (merge_env_added (Env u) (Env i)) as (a & Ha & Hs & Hn & Hu & Hi).
    assert (Env (Merged u i p) = Env u ++ a) as E by (rewrite <- Ha; cbn; by destruct (Env u)).
    exists a. rewrite E. auto. }
  split.
  { cbn. destruct (Nat.eqb_spec (size (Volumes u)) 0) as [E|E]; [|rewrite dom_union_L; set_solver].
    apply map_size_empty_iff in E. rewrite E. set_solver. }
  split; [by exists up, ip|]. split; [done|].
  set (i1 := with_ports i _). pose proof (Merge_result is_ip (Merged u i p) i1) as H2.
  change (PortSpecs (Merged u i p)) with (@nil string) in H2. change (PortSpecs i1) with (PortSpecs i) in H2.
  rewrite Ei in H2. destruct H2 as (r & -> & Hr). eexists _, _. split; [done|]. split; [apply Merged_idem|].
  change (dom (default ∅ r) = dom (default ∅ p)). rewrite Hr. change (ports_of (Merged u i p)) with (default (∅ : PortSet) p).
  change (ports_of i1) with (default (∅ : PortSet) (if takes_image_ports u i then p else ExposedPorts i)).
  rewrite dom_empty_L. destruct (takes_image_ports u i); [set_solver|].
  change (default ∅ (ExposedPorts i)) with (ports_of i). set_solver.
Qed.

(** A configuration with an environment, port specifications and ports. *)
Definition demo_config (env specs : list string) (ports : option PortSet) : Config :=
  {| Hostname := "h"; Domainname := ""; User := ""; Memory := 0; MemorySwap := 0; CpuShares := 0; Cpuset := "";
     AttachStdin := false; AttachStdout := false; AttachStderr := false; PortSpecs := specs; ExposedPorts := ports;
     Tty := false; OpenStdin := false; StdinOnce := false; Env := env; Cmd := []; Image := ""; Volumes := ∅;
     WorkingDir := ""; Entrypoint := []; NetworkDisabled := false; OnBuild := [] |}.

Lemma Merge_spec_witness :
  let u := demo_config ["A=1"] ["8080:80"] None in
  let i := demo_config ["A=2"; "B=3"; "B=4"] [] (Some {["22/tcp" := tt]}) in
  exists u' i', Merge (fun _ => false) u i = (u', i', None) /\ Env u' = ["A=1"; "B=3"] /\
    PortSpecs u' = [] /\ ExposedPorts i' = ExposedPorts u' /\ ExposedPorts i' <> ExposedPorts i.
Proof.
  intros u i. destruct (Merge_spec (fun _ => false) u i) as [[_ Hok] H].
  destruct (Merge (fun _ => false) u i) as [[u' i'] [e|]] eqn:E; [exfalso; vm_compute in E; discriminate|].
  exists u', i'. split; [done|]. destruct (H u' i' eq_refl) as ((_ & _ & _ & _ & _ & H1) & _ & _ & _ & _ & _ & _ & H2 & _).
  assert (exists r, (u', i', @None string) = r /\ Env r.1.1 = ["A=1"; "B=3"] /\
    bool_decide (ExposedPorts r.1.2 = ExposedPorts i) = false) as (r & <- & X1 & X2).
  { exists (Merge (fun _ => false) u i). split; [by rewrite E|]. split; vm_compute; reflexivity. }
  split; [exact X1|]. split; [exact H1|]. split; [rewrite H2; reflexivity|].
  by apply bool_decide_eq_false in X2.
Defined.

(** ** Comparing configurations *)

Lemma same_strings_eq a b : length a = length b -> same_strings a b = true <-> a = b.
Proof.
  intros Hl. unfold same_strings. revert b Hl. induction a as [|x a IH]; intros [|y b] Hl; try done.
  cbn. injection Hl as Hl. rewrite andb_true_iff, String.eqb_eq, IH by done. split; [by intros [-> ->]|by intros [= -> ->]].
Qed.

Lemma keys_in_eq (a b : gmap string unit) : size a = size b -> keys_in a b = true <-> a = b.
Proof.
  intros Hs. unfold keys_in. rewrite forallb_forall. split; [|intros ->; intros [k v]].
  - intros H. assert (dom a ⊆ dom b) as Hd.
    { intros k [v Hv]%elem_of_dom. apply elem_of_map_to_list, list_elem_of_In in Hv. specialize (H _ Hv).
      apply elem_of_dom. by apply bool_decide_eq_true in H. }
    assert (dom a = dom b) as E.
    { apply leibniz_equiv, set_subseteq_size_equiv; [done|]. by rewrite !size_dom, Hs. }
    apply map_eq. intros k. assert (k ∈ dom a <-> k ∈ dom b) as Hk by by rewrite E. rewrite !elem_of_dom in Hk.
    destruct (a !! k) as [[]|] eqn:Ea, (b !! k) as [[]|] eqn:Eb; try done; [by destruct (proj1 Hk)|by destruct (proj2 Hk)].
  - intros Hin. apply bool_decide_eq_true. apply list_elem_of_In, elem_of_map_to_list in Hin. by exists v.
Qed.

(** The fields [Compare] looks at. *)
Definition compared (c : Config) :=
  (AttachStdout c, AttachStderr c, User c, Memory c, MemorySwap c, CpuShares c, Tty c,
   (Cmd c, Env c, PortSpecs c, ports_of c, Entrypoint c, Volumes c)).

Ltac split_bools :=
  repeat match goal with
  | H : _ && _ = true |- _ => apply andb_true_iff in H as [? ?]
  | H : _ || _ = false |- _ => apply orb_false_iff in H as [? ?]
  | H : negb _ = false |- _ => apply negb_false_iff in H
  end.

(** [Compare] is equality of the listed fields on configurations that do
    not keep stdin open, and never holds for one that does: an equivalence
    there.  The other fields are ignored: not only [Image] and [Hostname] but
    also the working directory, the domain name, the cpu set, [AttachStdin],
    [StdinOnce], [NetworkDisabled] and [OnBuild]. *)
Theorem Compare_spec a b :
  (Compare (Some a) (Some b) = true <-> OpenStdin a = false /\ OpenStdin b = false /\ compared a = compared b) /\
  Compare None (Some b) = false /\ Compare (Some a) None = false /\ Compare None None = false /\
  Compare (Some a) (Some b) = Compare (Some b) (Some a) /\
  (forall c, Compare (Some a) (Some b) = true -> Compare (Some b) (Some c) = true -> Compare (Some a) (Some c) = true).
Proof.
  assert (forall a b, Compare (Some a) (Some b) = true <-> OpenStdin a = false /\ OpenStdin b = false /\ compared a = compared b) as H.
  { clear. intros a b. unfold Compare. destruct (OpenStdin a) eqn:Ea; [split; [done|by intros []]|].
    destruct (OpenStdin b) eqn:Eb; [split; [done|by intros (_&?&_)]|]. cbn [orb Bool.eqb negb].
    split.
    - intros H. case_match eqn:E1; [done|]. case_match eqn:E2; [done|]. split_bools.
      repeat match goal with
      | H : Bool.eqb _ _ = true |- _ => apply Bool.eqb_prop in H
      | H : String.eqb _ _ = true |- _ => apply String.eqb_eq in H
      | H : Z.eqb _ _ = true |- _ => apply Z.eqb_eq in H
      | H : Nat.eqb _ _ = true |- _ => apply Nat.eqb_eq in H
      | H : same_strings _ _ = true |- _ => apply same_strings_eq in H; [|done]
      | H : keys_in _ _ = true |- _ => apply keys_in_eq in H; [|done]
      end.
      split; [done|]. split; [done|]. unfold compared. congruence.
    - intros (_ & _ & H). unfold compared in H. injection H as -> -> -> -> -> -> -> -> -> -> -> -> ->.
      rewrite !Bool.eqb_reflx, !String.eqb_refl, !Z.eqb_refl, !Nat.eqb_refl. cbn [negb orb].
      rewrite !(proj2 (same_strings_eq _ _ eq_refl)), !(proj2 (keys_in_eq _ _ eq_refl)) by done. done. }
  split; [apply H|]. do 3 (split; [done|]). split.
  - apply eq_bool_prop_intro. rewrite !Is_true_true, !H. split; intros (A1 & A2 & A3); by rewrite A3.
  - intros c. rewrite !H. intros (A1 & _ & A3) (_ & B2 & B3). by rewrite A3.
Qed.

(** ** What [parseRun] accepts *)

Abbreviation occurrences := (count_occ String.string_dec).

Lemma occurrences_elem l v : v ∈ l <-> (1 <= occurrences l v)%nat.
Proof. rewrite list_elem_of_In, (count_occ_In String.string_dec). lia. Qed.

Lemma delete_first_occurrences k l v :
  occurrences (delete_first k l) v = (occurrences l v - (if decide (v = k) then 1 else 0))%nat.
Proof.
  induction l as [|x l IH]; [done|]. cbn [delete_first].
  destruct (String.eqb_spec x k) as [->|Hx]; cbn [count_occ].
  - destruct (String.string_dec k v) as [->|Hn]; [rewrite decide_True by done; lia|rewrite decide_False by done; lia].
  - rewrite IH. destruct (String.string_dec x v) as [->|Hn]; [rewrite decide_False by done; lia|done].
Qed.

Lemma GetMap_elem o v : v ∈ dom (GetMap o) <-> v ∈ values o.
Proof.
  unfold GetMap. destruct o as [l f]. cbn [values]. induction l as [|x l IH] using rev_ind.
  - cbn [foldl]. rewrite (dom_empty_L (M := gmap string) (A := unit)). set_solver.
  - rewrite foldl_app. cbn [foldl]. rewrite dom_insert_L, elem_of_union, IH. set_solver.
Qed.

Definition is_bind (v : string) : bool := contains_char ":" v.

(** What a volume option may be: a bind mount anywhere but on [/], or a
    volume that is not [/]. *)
Definition volume_ok (v : string) : Prop :=
  if is_bind v then exists src dst rest, split ":" v = src :: dst :: rest /\ dst <> "/" else v <> "/".

Lemma split_bind v : if is_bind v then exists a b r, split ":" v = a :: b :: r else split ":" v = [v].
Proof.
  unfold is_bind. destruct (contains_char ":" v) eqn:E; [|by apply split_no_sep].
  destruct (split2_spec ":" v) as [[H _]|(a & b & -> & Ha & _)]; [by rewrite E in H|].
  rewrite split_app by done. destruct (split ":" b) as [|x r] eqn:Eb; [by apply split_ne in Eb|]. by exists a, x, r.
Qed.

Lemma bind_step_ok vols binds v r : bind_step (vols, binds) v = Ok r ->
  volume_ok v /\ r = if is_bind v then (Delete vols v, binds ++ [v]) else (vols, binds).
Proof.
  unfold bind_step, volume_ok. pose proof (split_bind v) as H. destruct (is_bind v).
  - destruct H as (a & b & l & ->). destruct (String.eqb_spec b "/"); [done|]. intros [= <-].
    split; [by exists a, b, l|done].
  - rewrite H. destruct (String.eqb_spec v "/"); [done|]. by intros [= <-].
Qed.

Lemma binds_spec ks vols vols' binds binds' : NoDup ks ->
  result_foldl bind_step (vols, binds) ks = Ok (vols', binds') ->
  Forall volume_ok ks /\ binds' = binds ++ List.filter is_bind ks /\
  forall v, occurrences (values vols') v =
    (occurrences (values vols) v - (if decide (v ∈ ks /\ is_bind v = true) then 1 else 0))%nat.
Proof.
  revert vols binds. induction ks as [|k ks IH]; intros vols binds Hn H.
  - injection H as -> ->. split; [done|]. rewrite app_nil_r. split; [done|]. intros v.
    rewrite decide_False by (intros [?%not_elem_of_nil _]; done). lia.
  - apply NoDup_cons in Hn as [Hk Hn]. cbn [result_foldl] in H. apply bind_ok in H as (r & Hr & H).
    apply bind_step_ok in Hr as [Hv ->]. destruct (is_bind k) eqn:Eb.
    + apply IH in H as (HF & -> & Hc); [|done]. split; [by constructor|]. cbn [List.filter]. rewrite Eb.
      split; [by rewrite <- (assoc_L (++))|]. intros v. rewrite Hc. cbn [Delete values]. rewrite delete_first_occurrences.
      destruct (decide (v = k)) as [->|Hne].
      * rewrite (decide_False (P := k ∈ ks /\ _)) by tauto.
        rewrite (decide_True (P := k ∈ k :: ks /\ _)) by (split; [by left|done]). lia.
      * rewrite Nat.sub_0_r. f_equal. apply decide_ext. rewrite elem_of_cons. tauto.
    + apply IH in H as (HF & -> & Hc); [|done]. split; [by constructor|]. cbn [List.filter]. rewrite Eb.
      split; [done|]. intros v. rewrite Hc. f_equal. apply decide_ext. rewrite elem_of_cons. naive_solver congruence.
Qed.

Definition range_ok (range : gmap string unit -> list string) : Prop := forall m, range m ≡ₚ (map_to_list m).*1.

Lemma range_elem range m v : range_ok range -> v ∈ range m <-> v ∈ dom m.
Proof.
  intros H. rewrite (H m), elem_of_dom, list_elem_of_fmap. split.
  - intros ([k x] & -> & Hk%elem_of_map_to_list). by exists x.
  - intros [x Hx%elem_of_map_to_list]. by exists (v, x).
Qed.

Lemma check_conflicts_none f : check_conflicts f = None ->
  (flDetach f = true -> values (flAttach f) = [] /\ flAutoRemove f = false) /\
  (flWorkingDir f = "" \/ IsAbs (flWorkingDir f) = true) /\
  (flNetMode f <> "bridge" -> flNetMode f <> "none" -> flHostname f = "") /\
  (flNetMode f = "host" -> values (flLinks f) = []).
Proof.
  unfold check_conflicts, Len. intros H.
  case_match eqn:E1; [done|]. case_match eqn:E2; [done|]. case_match eqn:E3; [done|].
  case_match eqn:E4; [done|]. case_match eqn:E5; [done|]. clear H.
  split; [intros Hd; rewrite Hd in *|split; [|split]].
  - split; [by destruct (values (flAttach f))|]. by destruct (flAutoRemove f).
  - destruct (String.eqb_spec (flWorkingDir f) ""); [by left|right]. by destruct (IsAbs (flWorkingDir f)).
  - intros Hb Hn. apply String.eqb_neq in Hb, Hn. rewrite Hb, Hn in E4. by destruct (String.eqb_spec (flHostname f) "").
  - intros Hh. rewrite Hh in E5. by destruct (values (flLinks f)).
Qed.

Lemma parseNetMode_ok m m' : parseNetMode m = Ok m' -> m' = m.
Proof.
  unfold parseNetMode. generalize (default "" (head (split ":" m))). intros mode.
  destruct (existsb _ _); [by intros [= ->]|]. destruct (String.eqb mode "container"); [|done].
  destruct (split ":" m) as [|a [|n l]]; try done. destruct (String.eqb n ""); [done|]. by intros [= ->].
Qed.

Lemma default_attach_values f : validator (flAttach f) = Some ValidateAttach ->
  values (default_attach f) =
    if Nat.eqb (Len (flAttach f)) 0 && negb (flDetach f)
    then ["stdout"; "stderr"] ++ (if flStdin f then ["stdin"] else [])
    else values (flAttach f).
Proof.
  unfold default_attach. destruct (flAttach f) as [l v]. cbn [validator]. intros ->. unfold Len. cbn [values].
  destruct l as [|x l]; [|done]. destruct (flDetach f); [done|]. by destruct (flStdin f).
Qed.

(** What [docker run] accepts is consistent.  A detached container attaches
    nothing and is not removed on exit, the working directory is absolute or
    absent, a host name only comes with its own network stack, links never
    with the host's, and a restart policy never with removal on exit.  Without
    [-a] and [-d] the output streams are attached, and stdin exactly with
    [-i].  Binds are the volume options with a colon, once each and never
    aimed at the root; the volumes are the other ones, but also every bind
    that was given twice, since only one occurrence is taken out. *)
Theorem parseRun_safe is_ip Getenv read_file range f sysInfo c h :
  range_ok range -> validator (flAttach f) = Some ValidateAttach ->
  parseRun is_ip Getenv read_file range f sysInfo = Ok (c, h) ->
  (flDetach f = true ->
     AttachStdin c = false /\ AttachStdout c = false /\ AttachStderr c = false /\ flAutoRemove f = false) /\
  (flDetach f = false -> values (flAttach f) = [] ->
     AttachStdout c = true /\ AttachStderr c = true /\ AttachStdin c = flStdin f) /\
  StdinOnce c = OpenStdin c && AttachStdin c /\
  (WorkingDir c = "" \/ IsAbs (WorkingDir c) = true) /\
  (NetMode h = flNetMode f /\ (NetMode h <> "bridge" -> NetMode h <> "none" -> Hostname c = "" /\ Domainname c = "")) /\
  (IsHost (NetMode h) = true -> Links h = []) /\
  (flAutoRemove f = true -> Name (Restart h) <> "always" /\ Name (Restart h) <> "on-failure") /\
  (forall b, b ∈ Binds h <-> b ∈ values (flVolumes f) /\ is_bind b = true) /\ NoDup (Binds h) /\
  (forall b, b ∈ values (flVolumes f) -> volume_ok b) /\
  (forall v, v ∈ dom (Volumes c) <->
     v ∈ values (flVolumes f) /\ (is_bind v = false \/ 2 <= occurrences (values (flVolumes f)) v)%nat).
Proof.
  intros Hrange Hval H. unfold parseRun in H.
  destruct (check_conflicts f) eqn:Ec; [done|]. apply check_conflicts_none in Ec as (C1 & C2 & C3 & C4).
  pose proof (default_attach_values f Hval) as Ha. unfold Len in Ha.
  apply bind_ok in H as (mem & _ & H). apply bind_ok in H as ([vols binds] & Hb & H).
  apply bind_ok in H as (lxc & _ & H).
  destruct (match split2 "." (flHostname f) with [h0; d] => (h0, d) | _ => (flHostname f, "") end) as [hn dn] eqn:Ehn.
  apply bind_ok in H as ([pub pb] & _ & H). apply bind_ok in H as (ports & _ & H).
  apply bind_ok in H as (devs & _ & H). apply bind_ok in H as (env & _ & H).
  apply bind_ok in H as (mode & Hm & H).
  assert (mode = flNetMode f) as ->.
  { destruct (parseNetMode (flNetMode f)) as [m|[]] eqn:E; try done. injection Hm as <-. by apply parseNetMode_ok. }
  destruct (parseRestartPolicy (flRestartPolicy f)) as [pol [e|]]; [done|].
  destruct (flAutoRemove f && _) eqn:Er; [done|]. injection H as <- <-.
  cbn [AttachStdin AttachStdout AttachStderr StdinOnce OpenStdin WorkingDir NetMode Hostname Domainname Links Restart Binds Volumes].
  apply binds_spec in Hb as (HF & -> & Hc).
  2: { rewrite (Hrange _). apply NoDup_fst_map_to_list. }
  cbn [app]. rewrite Forall_forall in HF.
  assert (forall v, v ∈ range (GetMap (flVolumes f)) <-> v ∈ values (flVolumes f)) as Hr.
  { intros v. by rewrite range_elem, GetMap_elem. }
  unfold Get. rewrite Ha. clear Ha Hm.
  split; [intros Hd; destruct (C1 Hd) as [C1a C1b]; by rewrite C1a, Hd|].
  split; [intros Hd Hl; rewrite Hl, Hd; by destruct (flStdin f)|].
  split; [done|]. split; [done|]. split.
  { split; [done|]. intros Hb Hn. rewrite (C3 Hb Hn) in Ehn. by injection Ehn as <- <-. }
  split; [intros Hh%String.eqb_eq; by apply C4|]. split.
  { intros Hrm. rewrite Hrm in Er. cbn in Er. by apply orb_false_iff in Er as [?%String.eqb_neq ?%String.eqb_neq]. }
  split; [intros b; by rewrite list_elem_of_In, List.filter_In, <- list_elem_of_In, Hr|].
  split; [apply NoDup_ListNoDup, List.NoDup_filter, NoDup_ListNoDup; rewrite (Hrange _); apply NoDup_fst_map_to_list|].
  split; [intros b Hb; by apply HF, Hr|].
  intros v. rewrite GetMap_elem, (occurrences_elem (values vols)), Hc, (occurrences_elem (values (flVolumes f))).
  specialize (Hr v). rewrite (occurrences_elem (values (flVolumes f))) in Hr.
  case_decide as Hd; destruct (is_bind v) eqn:E; try naive_solver lia.
Qed.

(** [docker run -v /a:/b -v /a:/b img]: the bind stays among the volumes. *)
Definition demo_flags (vols : list string) : RunFlags :=
  let l v := {| values := []; validator := v |} in
  {| flAttach := l (Some ValidateAttach); flVolumes := {| values := vols; validator := Some ValidatePath |};
     flLinks := l (Some ValidateLink); flEnv := l None; flDevices := l (Some ValidatePath);
     flPublish := l None; flExpose := l None; flDns := l None; flDnsSearch := l (Some ValidateDnsSearch);
     flVolumesFrom := l None; flLxcOpts := l None; flEnvFile := l None; flCapAdd := l None; flCapDrop := l None;
     flAutoRemove := false; flDetach := false; flNetwork := true; flPrivileged := false; flPublishAll := false;
     flStdin := true; flTty := true; flContainerIDFile := ""; flEntrypoint := ""; flHostname := "web.example.com";
     flMemoryString := "1g"; flUser := ""; flWorkingDir := "/srv"; flCpuShares := 0; flCpuset := "";
     flNetMode := "bridge"; flRestartPolicy := "on-failure:5"; parsedArgs := ["img"; "ls"] |}.

Definition any_order (m : gmap string unit) : list string := (map_to_list m).*1.

Lemma parseRun_safe_witness :
  exists c h, parseRun (fun _ => false) (fun _ => "") (fun _ => None) any_order
    (demo_flags ["/a:/b"; "/v"; "/a:/b"]) (Some {| MemoryLimit := true; SwapLimit := false |}) = Ok (c, h) /\
  Binds h = ["/a:/b"] /\ Memory c = 1073741824 /\ MemorySwap c = -1 /\ Hostname c = "web" /\
  Domainname c = "example.com" /\ Restart h = {| Name := "on-failure"; MaximumRetryCount := 5 |} /\
  AttachStdin c = true /\ "/a:/b" ∈ dom (Volumes c).
Proof.
  destruct (parseRun (fun _ => false) (fun _ => "") (fun _ => None) any_order
    (demo_flags ["/a:/b"; "/v"; "/a:/b"]) (Some {| MemoryLimit := true; SwapLimit := false |})) as [[c h]|e] eqn:E;
    [|vm_compute in E; discriminate].
  exists c, h.
  destruct (parseRun_safe _ _ _ any_order (demo_flags ["/a:/b"; "/v"; "/a:/b"]) _ c h (fun m => Permutation_refl _) eq_refl E)
    as (_ & H1 & _ & _ & _ & _ & _ & _ & _ & _ & Hv).
  assert (exists r, Ok (E := run_error) (c, h) = Ok r /\ Binds r.2 = ["/a:/b"] /\ Memory r.1 = 1073741824 /\ MemorySwap r.1 = -1 /\ Hostname r.1 = "web" /\
    Domainname r.1 = "example.com" /\ Restart r.2 = {| Name := "on-failure"; MaximumRetryCount := 5 |}) as (r & Hr & Hx).
  { rewrite <- E. vm_compute. eexists. repeat split. }
  injection Hr as <-. destruct Hx as (X1 & X2 & X3 & X4 & X5 & X6). cbn in X1, X2, X3, X4, X5, X6.
  do 7 (split; [done|]). split; [by destruct (H1 eq_refl eq_refl) as (_ & _ & ?)|].
  apply Hv. split; [by left|]. right. vm_compute. lia.
Defined.

Example bind_root_bypass :
  ValidatePath "/h:/.:ro" = Ok "/h:/.:ro" /\ volume_ok "/h:/.:ro" /\ Clean "/." = "/" /\ ~ volume_ok "/h:/:ro".
Proof.
  split; [reflexivity|]. split; [by exists "/h", "/.", ["ro"]|]. split; [reflexivity|].
  intros (a & b & r & [= <- <- <-] & H). done.
Qed.
