(* ===== verification/Resolv.v ===== *)
(** * pkg/networkfs/resolvconf: the resolver configuration

    Reading name servers and search domains out of the text of a resolv.conf,
    and building that text.  Reading and writing the file itself is left to
    the callers.  The white space of the regular expressions is tab, newline,
    form feed, return and space ([is_re_space]). *)

From stdpp Require Import base list strings.
From Stdlib Require Import ZArith Lia Ascii.
From S2P Require Import Prelude GoStrings Parsers Opts.

Definition strip_comment (line : string) : string :=
  match index_char "#" line with Some n => take_str n line | None => line end.

Definition getLines (input : string) : list string := strip_comment <$> split "010" input.

(** The text after a keyword that may have white space in front and after. *)
Definition after_keyword (keyword line : string) : option string :=
  let s := trim_left is_re_space line in
  if has_prefix keyword s then Some (trim_left is_re_space (trim_prefix keyword s)) else None.

Definition is_number (s : string) : bool := negb (String.eqb s "") && forall_str is_digit s.

Definition is_quad (s : string) : bool :=
  let parts := split "." s in Nat.eqb (length parts) 4 && forallb is_number parts.

Definition nameserver_of (line : string) : option string :=
  match after_keyword "nameserver" line with
  | Some rest => let s := trim_right is_re_space rest in if is_quad s then Some s else None
  | None => None
  end.

Definition GetNameservers (resolvConf : string) : list string := omap nameserver_of (getLines resolvConf).

Definition GetNameserversAsCIDR (resolvConf : string) : list string :=
  (fun nameserver => nameserver +:+ "/32") <$> GetNameservers resolvConf.

(** [strings.Fields] of the first group; the last line that matches wins. *)
Definition search_of (domains : list string) (line : string) : list string :=
  match after_keyword "search" line with
  | Some rest => String.words rest
  | None => domains
  end.

Definition GetSearchDomains (resolvConf : string) : list string := foldl search_of [] (getLines resolvConf).

Definition add_nameserver (content d : string) : string := content +:+ "nameserver " +:+ d +:+ String "010" "".

(** The content [Build] writes. *)
Definition Build (dns dnsSearch : list string) : string :=
  foldl add_nameserver "" dns +:+
  (match dnsSearch with
   | [] => ""
   | _ => let searchString := join " " dnsSearch in
          if String.eqb (trim (Ascii.eqb " ") searchString) "." then ""
          else "search " +:+ searchString +:+ String "010" ""
   end).

Example Resolv_test :
  GetNameservers ("# nameserver 9.9.9.9" +:+ String "010" ("nameserver 8.8.8.8  # x" +:+ String "010" "nameserver8.8.4.4")) =
    ["8.8.8.8"; "8.8.4.4"] /\
  GetSearchDomains (Build ["1.1.1.1"] ["a.com"; "b.com"]) = ["a.com"; "b.com"] /\
  Build ["1.1.1.1"] ["."] = "nameserver 1.1.1.1" +:+ String "010" "".
Proof. repeat split; vm_compute; reflexivity. Qed.

(** ** Reading back what was built *)

Lemma add_nameservers acc dns : foldl add_nameserver acc dns = acc +:+ foldl add_nameserver "" dns.
Proof.
  revert acc. induction dns as [|d l IH]; intros acc; [by rewrite string_app_nil_r|].
  cbn [foldl]. rewrite (IH (add_nameserver acc d)), (IH (add_nameserver "" d)). unfold add_nameserver.
  by rewrite !string_app_assoc.
Qed.

Lemma split_nameservers dns rest :
  Forall (fun d => contains_char "010" d = false) dns ->
  split "010" (foldl add_nameserver "" dns +:+ rest) = ((fun d => "nameserver " +:+ d) <$> dns) ++ split "010" rest.
Proof.
  induction 1 as [|d l Hd H IH]; [done|]. cbn [foldl fmap list_fmap app]. rewrite add_nameservers, string_app_assoc.
  unfold add_nameserver at 1. rewrite <- IH, !string_app_assoc.
  change (String "010" "" +:+ ?x) with (String "010" x).
  change ("" +:+ "nameserver " +:+ d +:+ String "010" ?x) with ("nameserver " +:+ d +:+ String "010" x).
  rewrite <- (string_app_assoc "nameserver " d), split_app; [done|]. by rewrite contains_char_app, Hd.
Qed.

Lemma strip_comment_id s : contains_char "#" s = false -> strip_comment s = s.
Proof. intros H. unfold strip_comment. by apply index_char_None in H as ->. Qed.

(** What a word of the file may hold. *)
Definition plain_char (c : ascii) : bool := negb (Ascii.is_space c) && negb (Ascii.eqb c "#").
Definition domain_ok (s : string) : Prop := s <> "" /\ forall_str plain_char s = true.

Lemma plain_no_char c s : plain_char c = false -> forall_str plain_char s = true -> contains_char c s = false.
Proof. intros Hc H. by apply (forall_str_no_char plain_char). Qed.

Lemma quad_plain d : is_quad d = true -> domain_ok d.
Proof.
  unfold is_quad. intros [Hl Hn]%andb_true_iff. split; [by intros ->|].
  rewrite <- (join_split "." d). revert Hn. clear Hl. induction (split "." d) as [|x l IH]; [done|].
  cbn [forallb]. intros [Hx Hl]%andb_true_iff. unfold is_number in Hx. apply andb_true_iff in Hx as [_ Hx].
  assert (forall_str plain_char x = true) as Hp.
  { eapply forall_str_impl; [|exact Hx]. intros c. unfold is_digit, digit_val, plain_char.
    destruct c as [[] [] [] [] [] [] [] []]; by vm_compute. }
  destruct l as [|y l]; [done|]. rewrite join_cons by done. rewrite !forall_str_app, Hp. by rewrite IH.
Qed.

Lemma plain_re_space c : plain_char c = true -> is_re_space c = false.
Proof. destruct c as [[] [] [] [] [] [] [] []]; by vm_compute. Qed.

Lemma trim_left_plain s : forall_str plain_char s = true -> trim_left is_re_space s = s.
Proof.
  intros H. apply trim_left_id. eapply forall_str_impl; [|exact H]. intros c Hc. by rewrite plain_re_space.
Qed.

Lemma rev_str_app_str s t : rev_str (s +:+ t) = rev_str t +:+ rev_str s.
Proof.
  revert s. induction t as [|c t IH] using string_snoc_ind; intros s.
  - by rewrite string_app_nil_r.
  - rewrite <- string_app_assoc, !rev_str_snoc, IH. done.
Qed.

Lemma trim_right_plain s : forall_str plain_char s = true -> trim_right is_re_space s = s.
Proof.
  intros H. unfold trim_right. rewrite trim_left_plain; [apply rev_str_involutive|].
  unfold rev_str. by rewrite forall_str_rev_app, H.
Qed.

Lemma after_keyword_word k w : forall_str plain_char k = true -> k <> "" ->
  after_keyword k (k +:+ " " +:+ w) = Some (trim_left is_re_space w).
Proof.
  intros Hk Hne. unfold after_keyword.
  assert (trim_left is_re_space (k +:+ " " +:+ w) = k +:+ " " +:+ w) as ->.
  { destruct k as [|c k]; [done|]. apply trim_left_head. simpl in Hk. apply andb_true_iff in Hk as [Hk _].
    by apply plain_re_space. }
  rewrite has_prefix_app, trim_prefix_app. done.
Qed.

Lemma nameserver_line d : is_quad d = true -> nameserver_of (strip_comment ("nameserver " +:+ d)) = Some d.
Proof.
  intros H. destruct (quad_plain d H) as [_ Hp]. rewrite strip_comment_id.
  2: { by rewrite contains_char_app, (plain_no_char "#" d). }
  unfold nameserver_of. change ("nameserver " +:+ d) with ("nameserver" +:+ " " +:+ d).
  rewrite after_keyword_word by done. by rewrite trim_left_plain, trim_right_plain, H.
Qed.

Lemma other_keyword k k' c l w : forall_str plain_char k = true -> forall_str plain_char (String c l) = true ->
  String.get 0 k' <> Some c -> k' <> "" -> after_keyword k' (String c l +:+ w) = None.
Proof.
  intros Hk Hl Hc Hne. unfold after_keyword. rewrite string_app_cons, trim_left_head.
  2: { simpl in Hl. apply andb_true_iff in Hl as [Hl _]. by apply plain_re_space. }
  destruct k' as [|c' k']; [done|]. unfold has_prefix. cbn [String.prefix].
  destruct (ascii_dec c' c) as [->|]; [by destruct Hc|done].
Qed.

Lemma join_plain l : Forall domain_ok l -> l <> [] ->
  exists c s, join " " l = String c s /\ plain_char c = true /\ contains_char "#" (join " " l) = false /\
    contains_char "010" (join " " l) = false.
Proof.
  induction 1 as [|x l [Hne Hx] Hl IH]; [done|]. intros _. destruct x as [|c x]; [done|].
  assert (plain_char c = true) as Hc by (simpl in Hx; by apply andb_true_iff in Hx as [? _]).
  assert (forall k, plain_char k = false -> contains_char k (String c x) = false) as Hk.
  { intros k Hk. by apply plain_no_char. }
  destruct l as [|y l]; [exists c, x; by rewrite !Hk|].
  destruct IH as (c' & s & _ & _ & H1 & H2); [done|]. rewrite join_cons by done. exists c, (x +:+ " " +:+ join " " (y :: l)).
  rewrite !contains_char_app, H1, H2, !Hk by done. done.
Qed.

(** A resolver configuration read back: for name servers in dotted form and
    search domains that are words, the text [Build] writes holds exactly those
    name servers and those domains; a single search domain [.] is written as
    no search line at all. *)
Theorem Build_roundtrip dns search :
  Forall (fun d => is_quad d = true) dns -> Forall domain_ok search ->
  GetNameservers (Build dns search) = dns /\
  GetNameserversAsCIDR (Build dns search) = (fun d => d +:+ "/32") <$> dns /\
  GetSearchDomains (Build dns search) =
    (if String.eqb (trim (Ascii.eqb " ") (join " " search)) "." then [] else search).
Proof.
  intros Hd Hs.
  assert (exists tl, getLines (Build dns search) = (strip_comment <$> ((fun d => "nameserver " +:+ d) <$> dns)) ++ tl /\
    omap nameserver_of tl = [] /\ forall acc, foldl search_of acc tl =
      (if String.eqb (trim (Ascii.eqb " ") (join " " search)) "." then acc
       else match search with [] => acc | _ => search end)) as (tl & Hl & Ht & Hf).
  { unfold getLines, Build. rewrite split_nameservers.
    2: { eapply Forall_impl; [exact Hd|]. intros d H. apply quad_plain in H as [_ H]. by apply plain_no_char. }
    rewrite fmap_app. eexists. split; [done|].
    destruct search as [|x l]; [split; [done|]; intros acc; by destruct (String.eqb _ _)|].
    destruct (String.eqb _ _); [done|]. destruct (join_plain (x :: l) Hs) as (c & s & E & Hc & H1 & H2); [done|].
    rewrite <- (string_app_assoc "search " (join " " (x :: l))).
    rewrite split_app by (by rewrite contains_char_app, H2). cbn [split fmap list_fmap].
    rewrite !strip_comment_id by (by rewrite ?contains_char_app, ?H1).
    split.
    - cbn [omap list_omap]. unfold nameserver_of at 1.
      change ("search " +:+ join " " (x :: l)) with (String "s" "earch" +:+ " " +:+ join " " (x :: l)).
      by rewrite (other_keyword "search").
    - intros acc. cbn [foldl]. unfold search_of at 2.
      change ("search " +:+ join " " (x :: l)) with ("search" +:+ " " +:+ join " " (x :: l)).
      rewrite after_keyword_word by done. rewrite E, trim_left_head, <- E by (by apply plain_re_space).
      change (String.words (join " " (x :: l)) = x :: l). apply words_join. eapply Forall_impl; [exact Hs|]. intros w [Hne Hw]. split; [done|].
      eapply forall_str_impl; [|exact Hw]. unfold plain_char. by intros a [? _]%andb_true_iff. }
  assert (GetNameservers (Build dns search) = dns) as Hns.
  { unfold GetNameservers. rewrite Hl, omap_app, Ht, app_nil_r. clear Hl.
    induction Hd as [|d dns' H Hd IH]; [done|]. cbn [fmap list_fmap omap list_omap]. rewrite nameserver_line by done.
    f_equal. exact IH. }
  split; [done|]. split; [unfold GetNameserversAsCIDR; by rewrite Hns|].
  unfold GetSearchDomains. rewrite Hl, foldl_app.
  assert (foldl search_of [] (strip_comment <$> ((fun d => "nameserver " +:+ d) <$> dns)) = []) as ->.
  { clear Hl Hns. induction Hd as [|d dns' H Hd IH]; [done|]. cbn [fmap list_fmap foldl].
    destruct (quad_plain d H) as [_ Hp]. rewrite strip_comment_id by (by rewrite contains_char_app, (plain_no_char "#" d)).
    unfold search_of at 2. change ("nameserver " +:+ d) with (String "n" "ameserver" +:+ " " +:+ d).
    by rewrite (other_keyword "nameserver"). }
  rewrite Hf. by destruct search.
Qed.

Lemma Build_roundtrip_witness :
  GetNameservers (Build ["8.8.8.8"; "8.8.4.4"] ["example.com"; "local"]) = ["8.8.8.8"; "8.8.4.4"] /\
  GetSearchDomains (Build ["8.8.8.8"; "8.8.4.4"] ["example.com"; "local"]) = ["example.com"; "local"].
Proof.
  destruct (Build_roundtrip ["8.8.8.8"; "8.8.4.4"] ["example.com"; "local"]) as (H1 & _ & H3).
  - by repeat constructor.
  - by repeat constructor.
  - split; [exact H1|exact H3].
Defined.
