(* ===== verification/GoSort.v ===== *)
(** * Go's [sort.Sort] on slices of strings

    The class states the documented contract of [sort.Sort] given a [less]
    that orders the elements: a sorted permutation, with the order of
    equivalent elements left open.  Insertion sort is an instance, for
    concrete runs. *)

From stdpp Require Import base sets list strings.
From Stdlib Require Import Sorting.
From S2P Require Import Prelude.

(** [less] orders the elements of [l]: asymmetric on different elements,
    transitive, and so is being incomparable. *)
Record orders (less : string -> string -> bool) (l : list string) : Prop := {
  less_asym : forall x y, x ∈ l -> y ∈ l -> x <> y -> less x y = true -> less y x = false;
  less_trans : forall x y z, x ∈ l -> y ∈ l -> z ∈ l -> x <> y -> y <> z -> x <> z ->
    less y x = false -> less z y = false -> less z x = false }.

Class GoSort := {
  Sort : list string -> (string -> string -> bool) -> list string;
  Sort_perm : forall l less, Sort l less ≡ₚ l;
  Sort_sorted : forall l less, NoDup l -> orders less l ->
    StronglySorted (fun x y => less y x = false) (Sort l less) }.

(** ** Insertion sort is a sort *)

Fixpoint sort_insert (less : string -> string -> bool) (x : string) (l : list string) : list string :=
  match l with
  | [] => [x]
  | y :: l' => if less y x then y :: sort_insert less x l' else x :: l
  end.

Definition insertion_sort (l : list string) (less : string -> string -> bool) : list string :=
  foldr (sort_insert less) [] l.

Lemma sort_insert_perm less x l : sort_insert less x l ≡ₚ x :: l.
Proof. induction l as [|y l IH]; [done|]. simpl. destruct (less y x); [|done]. rewrite IH. apply perm_swap. Qed.

Lemma insertion_sort_perm l less : insertion_sort l less ≡ₚ l.
Proof. induction l as [|x l IH]; [done|]. simpl. by rewrite sort_insert_perm, IH. Qed.

Lemma sort_insert_sorted less x l : NoDup (x :: l) -> orders less (x :: l) ->
  StronglySorted (fun x y => less y x = false) l -> StronglySorted (fun x y => less y x = false) (sort_insert less x l).
Proof.
  induction l as [|y l IH]; intros Hn Ho Hs; [by repeat constructor|]. simpl.
  inversion Hs as [|? ? Hs' Hy]; subst. destruct (less y x) eqn:E.
  - constructor.
    + apply IH; [| |done].
      * apply NoDup_cons in Hn as [Hx Hn]. apply NoDup_cons in Hn as [_ Hn]. apply NoDup_cons. split; [set_solver|done].
      * destruct Ho as [Ha Ht]. split; [intros a b; intros; apply Ha; set_solver|].
        intros a b c; intros. apply (Ht a b c); set_solver.
    + rewrite sort_insert_perm. constructor; [|done]. apply (less_asym _ _ Ho); [set_solver|set_solver| |done].
      apply NoDup_cons in Hn as [Hx _]. set_solver.
  - constructor; [done|]. constructor; [done|]. apply Forall_forall. intros z Hz.
    rewrite Forall_forall in Hy. apply NoDup_cons in Hn as [Hx Hn]. apply NoDup_cons in Hn as [Hy' _].
    apply (less_trans _ _ Ho x y z); try set_solver.
Qed.

Lemma insertion_sort_sorted l less : NoDup l -> orders less l ->
  StronglySorted (fun x y => less y x = false) (insertion_sort l less).
Proof.
  intros Hn Ho. induction l as [|x l IH]; [constructor|]. simpl. apply NoDup_cons in Hn as [Hx Hn] .
  assert (orders less l) as Ho'.
  { destruct Ho as [Ha Ht]. split; [intros a b; intros; apply Ha; set_solver|].
    intros a b c; intros. apply (Ht a b c); set_solver. }
  apply sort_insert_sorted.
  - apply NoDup_cons. rewrite insertion_sort_perm. done.
  - destruct Ho as [Ha Ht]. pose proof (insertion_sort_perm l less) as Hp.
    assert (forall z, z ∈ x :: insertion_sort l less -> z ∈ x :: l) as Hin by (intros z; by rewrite Hp).
    split; [intros a b ? ?; apply Ha; auto|]. intros a b c ? ? ?. apply Ht; auto.
  - by apply IH.
Qed.

#[export] Instance go_insertion_sort : GoSort :=
  {| Sort := insertion_sort; Sort_perm := insertion_sort_perm; Sort_sorted := insertion_sort_sorted |}.
