(* ===== verification/Bridge.v ===== *)
(** * daemon/networkdriver/bridge: the bridge driver

    The driver's package variables are the record [Driver]: the bridge, the
    interfaces of the containers, the pool of addresses (IPAlloc.v) and the
    port mapper (PortMapper.v), whose kernel field is the world [W] the driver
    changes.  The jobs it registers ([Allocate], [Release], [AllocatePort],
    [LinkContainers]) take the arguments and the environment of a job and
    return what they write to its standard output.  [net.ParseIP] is a
    parameter; log lines are left out.  BridgeSetup.v sets the driver up. *)

From stdpp Require Import base gmap gmultiset list strings.
From Stdlib Require Import ZArith Lia Ascii.
From S2P Require Import Prelude GoStrings GoNet NetUtils Ports IPAlloc Engine Env Parsers Iptables PortMapper Resolv.

Local Open Scope Z_scope.

Definition MaxAllocatedPortAttempts : nat := 10.

Record networkInterface := { if_IP : IP; PortMappings : list Addr }.

Inductive bridge_error :=
| ErrIP (e : ip_error)
| ErrMap (e : map_error)
| ErrNet (e : net_error)
| ErrJob (s : string).

Record Driver (W : Type) := {
  bridgeIface : string;
  bridgeNetwork : IPNet;
  defaultBindingIP : IP;
  currentInterfaces : gmap string networkInterface;
  allocatedIPs : networkSet;
  chain : option Chain;
  mapper : Mapper W }.
Arguments bridgeIface {W} _.
Arguments bridgeNetwork {W} _.
Arguments defaultBindingIP {W} _.
Arguments currentInterfaces {W} _.
Arguments allocatedIPs {W} _.
Arguments chain {W} _.
Arguments mapper {W} _.

Definition with_ips {W} (s : Driver W) ips : Driver W :=
  {| bridgeIface := bridgeIface s; bridgeNetwork := bridgeNetwork s; defaultBindingIP := defaultBindingIP s;
     currentInterfaces := currentInterfaces s; allocatedIPs := ips; chain := chain s; mapper := mapper s |}.
Definition with_interfaces {W} (s : Driver W) ifs : Driver W :=
  {| bridgeIface := bridgeIface s; bridgeNetwork := bridgeNetwork s; defaultBindingIP := defaultBindingIP s;
     currentInterfaces := ifs; allocatedIPs := allocatedIPs s; chain := chain s; mapper := mapper s |}.
Definition with_mapper {W} (s : Driver W) m : Driver W :=
  {| bridgeIface := bridgeIface s; bridgeNetwork := bridgeNetwork s; defaultBindingIP := defaultBindingIP s;
     currentInterfaces := currentInterfaces s; allocatedIPs := allocatedIPs s; chain := chain s; mapper := m |}.

Definition mask_ones (m : IPMask) : Z := Z.of_nat (default 0%nat (simpleMaskLength m)).

Section Jobs.
Context {W : Type} (exec : list string -> W -> W * (string * option string)) (found supportsXlock : bool).
(** [None] is the nil address of a text that is not one. *)
Context (ParseIP : string -> option IP).

(** ** allocate_interface *)

Definition Allocate (args : list string) (env : Env) (s : Driver W) : outcome (Driver W * result bridge_error Env) :=
  id ← or_panic (head args);
  '(ips, r) ← RequestIP (bridgeNetwork s) (ParseIP (Get env "RequestedIP")) (allocatedIPs s);
  let s := with_ips s ips in
  match r with
  | Err e => Return (s, Err (ErrIP e))
  | Ok ip =>
      let out := Set_ [] "IP" (IP_String ip) in
      let out := Set_ out "Mask" (mask_String (net_Mask (bridgeNetwork s))) in
      let out := Set_ out "Gateway" (IP_String (net_IP (bridgeNetwork s))) in
      let out := Set_ out "Bridge" (bridgeIface s) in
      let out := SetInt out "IPPrefixLen" (mask_ones (net_Mask (bridgeNetwork s))) in
      Return (with_interfaces s (<[id := {| if_IP := ip; PortMappings := [] |}]> (currentInterfaces s)), Ok out)
  end.

(** ** release_interface *)

(** The loop over the mappings; errors are only logged. *)
Fixpoint unmap_all (c : option Chain) (l : list Addr) (m : Mapper W) : outcome (Mapper W) :=
  match l with
  | [] => Return m
  | a :: l => '(m, _) ← Unmap exec found supportsXlock c a m; unmap_all c l m
  end.

Definition Release (args : list string) (s : Driver W) : outcome (Driver W * result bridge_error Env) :=
  id ← or_panic (head args);
  match currentInterfaces s !! id with
  | None => Return (s, Err (ErrJob ("No network information to release for " +:+ id)))
  | Some containerInterface =>
      m ← unmap_all (chain s) (PortMappings containerInterface) (mapper s);
      let s := with_mapper s m in
      '(ips, _) ← ReleaseIP (bridgeNetwork s) (if_IP containerInterface) (allocatedIPs s);
      Return (with_ips s ips, Ok [])
  end.

(** ** allocate_port *)

(** At most [n] attempts; [last] is the outcome of the one before. *)
Fixpoint map_attempts (c : option Chain) (start_err : nat -> option string) (container : Addr) (ip : IP) (hostPort : Z)
    (n : nat) (last : result map_error Addr) (m : Mapper W) : outcome (Mapper W * result map_error Addr) :=
  match n with
  | O => Return (m, last)
  | S n' =>
      '(m, r) ← Map exec found supportsXlock c (start_err n') container ip hostPort m;
      match r with
      | Ok _ => Return (m, r)
      | Err (ErrAlloc (ErrPortAlreadyAllocated _ _)) =>
          if negb (hostPort =? 0) then Return (m, r)
          else map_attempts c start_err container ip hostPort n' r m
      | Err _ => Return (m, r)
      end
  end.

Definition AllocatePort (start_err : nat -> option string) (args : list string) (env : Env) (s : Driver W) :
    outcome (Driver W * result bridge_error Env) :=
  id ← or_panic (head args);
  let hostIP := Get env "HostIP" in
  let hostPort := GetInt env "HostPort" in
  let containerPort := GetInt env "ContainerPort" in
  let proto := Get env "Proto" in
  let ip := if String.eqb hostIP "" then defaultBindingIP s else default [] (ParseIP hostIP) in
  if negb (String.eqb proto "tcp") && negb (String.eqb proto "udp") then
    Return (s, Err (ErrJob ("unsupported address type " +:+ proto)))
  else
    network ← or_panic (currentInterfaces s !! id);
    let container := if String.eqb proto "tcp" then TCPAddr (if_IP network) containerPort
                     else UDPAddr (if_IP network) containerPort in
    '(m, r) ← map_attempts (chain s) start_err container ip hostPort MaxAllocatedPortAttempts (Ok OtherAddr) (mapper s);
    let s := with_mapper s m in
    match r with
    | Err e => Return (s, Err (ErrMap e))
    | Ok host =>
        let network := {| if_IP := if_IP network; PortMappings := PortMappings network ++ [host] |} in
        let s := with_interfaces s (<[id := network]> (currentInterfaces s)) in
        let out := match host with
                   | TCPAddr hip hport | UDPAddr hip hport =>
                       SetInt (Set_ [] "HostIP" (IP_String hip)) "HostPort" hport
                   | OtherAddr => []
                   end in
        Return (s, Ok out)
    end.

(** ** link *)

Definition link_rule (action iface proto : string) (src port_flag port dst : string) : list string :=
  [action; "FORWARD"; "-i"; iface; "-o"; iface; "-p"; proto; "-s"; src; port_flag; port; "-d"; dst; "-j"; "ACCEPT"].

Definition toggle_rule (ignoreErrors : bool) (args : list string) (w : W) : W * option bridge_error :=
  let '(w, r) := Raw exec found supportsXlock args w in
  match r with
  | Err e => (w, if ignoreErrors then None else Some (ErrJob e))
  | Ok output => (w, if String.eqb output "" then None else Some (ErrJob ("Error toggle iptables forward: " +:+ output)))
  end.

Fixpoint link_ports (action iface childIP parentIP : string) (ignoreErrors : bool) (ports : list string) (w : W) :
    outcome (W * option bridge_error) :=
  match ports with
  | [] => Return (w, None)
  | p :: ports =>
      match split "/" p with
      | port :: proto :: _ =>
          let '(w, e) := toggle_rule ignoreErrors (link_rule action iface proto parentIP "--dport" port childIP) w in
          match e with
          | Some e => Return (w, Some e)
          | None =>
              let '(w, e) := toggle_rule ignoreErrors (link_rule action iface proto childIP "--sport" port parentIP) w in
              match e with
              | Some e => Return (w, Some e)
              | None => link_ports action iface childIP parentIP ignoreErrors ports w
              end
          end
      | _ => Panic
      end
  end.

(** [ports] is the list the job's environment holds under "Ports". *)
Definition LinkContainers (args : list string) (env : Env) (ports : list string) (s : Driver W) :
    outcome (Driver W * result bridge_error Env) :=
  action ← or_panic (head args);
  '(w, e) ← link_ports action (bridgeIface s) (Get env "ChildIP") (Get env "ParentIP") (GetBool env "IgnoreErrors")
              ports (kernel (mapper s));
  Return (with_mapper s (with_kernel (mapper s) w), match e with Some e => Err e | None => Ok [] end).
End Jobs.

(** ** Ports of a container *)

Lemma findPort_not_allocated fuel pm pm' r : findPort fuel pm = Return (pm', r) ->
  r = Err ErrAllPortsAllocated \/ exists q, r = Ok q.
Proof.
  unfold findPort. destruct (_ =? 0); [intros [= <- <-]; by right; eexists|].
  assert (forall n q x, loop (findPort_step pm) n q = Some x -> x = Err ErrAllPortsAllocated \/ exists q, x = Ok q) as Hl.
  { induction n as [|n IH]; intros q x; [done|]. cbn [loop]. unfold findPort_step at 1.
    destruct (q =? Ports.last pm); [intros [= <-]; by left|].
    destruct (decide _); [apply IH|intros [= <-]; right; by eexists]. }
  destruct (loop _ _ _) as [x|] eqn:E; [|done]. apply Hl in E as [->|[q ->]]; cbn; intros [= <- <-]; [by left|right; by eexists].
Qed.

Lemma RequestPort_taken fuel ip proto port g g' i q :
  RequestPort fuel ip proto port g = Return (g', Err (ErrPortAlreadyAllocated i q)) -> 0 < port.
Proof.
  unfold RequestPort. destruct (_ && _); [done|]. destruct (or_panic _) as [m| |]; [|done|done]. cbn.
  destruct (Z.ltb_spec 0 port); [done|]. destruct (findPort fuel m) as [[m' r]| |] eqn:E; cbn; [|done|done].
  apply findPort_not_allocated in E as [->|[x ->]]; by intros [=].
Qed.

Section Ports.
Context {W : Type} (exec : list string -> W -> W * (string * option string)) (found supportsXlock : bool).

Lemma Map_allocated_text ch start_err m hostIP q (s s2 : Mapper W) e :
  Map_allocated exec found supportsXlock ch start_err m hostIP q s = (s2, Err e) -> exists t, e = ErrText t.
Proof.
  unfold Map_allocated. destruct (currentMappings s !! _); [intros [= <- <-]; by eexists|].
  destruct (getIPAndPort _). destruct (forward _ _ _ _ _ _ _ _ _ _) as [w [[]|x]]; [|intros [= <- <-]; by eexists].
  destruct start_err; [|done]. destruct (forward _ _ _ _ _ _ _ _ _ _). intros [= <- <-]. by eexists.
Qed.

(** The allocator's "already allocated" only answers an explicit port. *)
Lemma Map_already_allocated ch start_err c hostIP port (s s1 : Mapper W) i q :
  PortMapper.Map exec found supportsXlock ch start_err c hostIP port s =
    Return (s1, Err (ErrAlloc (ErrPortAlreadyAllocated i q))) -> 0 < port.
Proof.
  intros H. destruct (addr_proto c) as [[pr mk]|] eqn:Hc; [|unfold PortMapper.Map in H; by rewrite Hc in H].
  destruct (Map_inv _ _ _ _ _ _ _ _ _ _ _ _ _ Hc H) as [(g&e&Hr&_&[= <-])|(g&x&_&s2&Hm&_)].
  - by eapply RequestPort_taken.
  - by apply Map_allocated_text in Hm as [t [=]].
Qed.

Lemma map_attempts_once ch start_err c hostIP port n last (s : Mapper W) :
  map_attempts exec found supportsXlock ch start_err c hostIP port (S n) last s =
  PortMapper.Map exec found supportsXlock ch (start_err n) c hostIP port s.
Proof.
  cbn [map_attempts]. destruct (PortMapper.Map _ _ _ _ _ _ _ _ _) as [[m r]| |] eqn:E; [|done|done]. cbn.
  destruct r as [a|[[| |i q]|t]]; try done. apply Map_already_allocated in E.
  destruct (Z.eqb_spec port 0); [lia|done].
Qed.
End Ports.

(** ** Addresses of a container *)

(** What an automatic request and the release of its address do to the pool
    of a network. *)
Lemma RequestIP_next n k g g' ip :
  wf_net4 n k -> (1 <= k)%nat -> 0 <= IPAlloc.last (pool_of g n) -> RequestIP n None g = Return (g', Ok ip) ->
  exists pos, wf_ip4 ip /\ Contains n ip = true /\ ip_val ip = address n pos /\ IPAlloc.candidate n k pos /\
    (pos ∉ IPAlloc.p (pool_of g n)) /\
    pool_of g' n = {| IPAlloc.p := {[pos]} ∪ IPAlloc.p (pool_of g n); IPAlloc.last := pos |} /\ is_Some (g' !! IPNet_String n).
Proof.
  intros Hw Hk Hl H. destruct (getNextIP_spec (pool_of g n) n k Hw Hk Hl) as (a & r & Hg & Hr).
  unfold RequestIP in H. fold (pool_of g n) in H. rewrite Hg in H. cbn in H. injection H as <- ->.
  destruct Hr as (Hip & pos & Hv & Hc & Hf & ->). exists pos. split; [done|].
  rewrite pool_of_insert, decide_True by done. rewrite lookup_insert_eq. split_and!; try done.
  apply (Contains_interval n k); [done|done|]. destruct Hc as [? _]. unfold address in Hv. lia.
Qed.

Lemma ReleaseIP_effect n k g ip :
  wf_net4 n k -> (1 <= k)%nat -> wf_ip4 ip -> Contains n ip = true -> is_Some (g !! IPNet_String n) ->
  exists g', ReleaseIP n ip g = Return (g', Ok ()) /\
    pool_of g' n = {| IPAlloc.p := IPAlloc.p (pool_of g n) ∖ {[ip_val ip - ip_val (first_ip n)]};
                      IPAlloc.last := IPAlloc.last (pool_of g n) |}.
Proof.
  intros Hw Hk Hip Hc [a Ha]. unfold ReleaseIP. rewrite Ha, (getPosition_wf n k) by done. cbn. eexists. split; [done|].
  rewrite pool_of_insert, decide_True by done. unfold pool_of. by rewrite Ha.
Qed.

(** ** The life of an interface *)

Section Life.
Context {W : Type} (exec : list string -> W -> W * (string * option string)) (found supportsXlock : bool).
Context (rules : W -> gmultiset (list string)) `{!IptablesLaws exec supportsXlock rules}.
Context (ParseIP : string -> option IP).

Lemma Allocate_ok args e (s s1 : Driver W) out :
  Allocate ParseIP args e s = Return (s1, Ok out) ->
  exists id ip ips, head args = Some id /\
    RequestIP (bridgeNetwork s) (ParseIP (Env.Get e "RequestedIP")) (allocatedIPs s) = Return (ips, Ok ip) /\
    s1 = with_interfaces (with_ips s ips) (<[id := {| if_IP := ip; PortMappings := [] |}]> (currentInterfaces s)) /\
    Env.Get out "IP" = IP_String ip /\ Env.Get out "Gateway" = IP_String (net_IP (bridgeNetwork s)) /\
    Env.Get out "Bridge" = bridgeIface s.
Proof.
  unfold Allocate. destruct (head args) as [id|]; [|done]. cbn [or_panic mbind outcome_bind].
  destruct (RequestIP _ _ _) as [[ips [ip|er]]| |]; [|done|done|done]. cbn [mbind outcome_bind]. intros [= <- <-].
  exists id, ip, ips. do 3 (split; [done|]). unfold SetInt. rewrite !Get_Set by done. repeat split.
Qed.

Lemma AllocatePort_ok start_err args e (s s1 : Driver W) out :
  AllocatePort exec found supportsXlock ParseIP start_err args e s = Return (s1, Ok out) ->
  exists id network m a, head args = Some id /\ currentInterfaces s !! id = Some network /\
    let ip := if String.eqb (Env.Get e "HostIP") "" then defaultBindingIP s
              else default [] (ParseIP (Env.Get e "HostIP")) in
    let container := if String.eqb (Env.Get e "Proto") "tcp" then TCPAddr (if_IP network) (GetInt e "ContainerPort")
                     else UDPAddr (if_IP network) (GetInt e "ContainerPort") in
    PortMapper.Map exec found supportsXlock (chain s) (start_err 9%nat) container ip (GetInt e "HostPort") (mapper s) =
      Return (m, Ok a) /\
    s1 = with_interfaces (with_mapper s m)
           (<[id := {| if_IP := if_IP network; PortMappings := PortMappings network ++ [a] |}]> (currentInterfaces s)).
Proof.
  unfold AllocatePort. destruct (head args) as [id|]; [|done]. cbn [or_panic mbind outcome_bind].
  destruct (_ && _); [done|]. destruct (currentInterfaces s !! id) as [network|] eqn:En; [|done].
  cbn [or_panic mbind outcome_bind]. unfold MaxAllocatedPortAttempts. rewrite map_attempts_once.
  destruct (PortMapper.Map _ _ _ _ _ _ _ _ _) as [[m [a|er]]| |] eqn:Em; [|done|done|done]. cbn [mbind outcome_bind].
  intros [= <- _]. exists id, network, m, a. by rewrite Em.
Qed.

(** C12. The life of a container's interface, over the address pool, the port
    pool, iptables and the proxies: after [Allocate] with an automatic address
    and [AllocatePort] of a port that was free, [Release] succeeds and gives
    back everything the two took: the address pool has the positions it had,
    and mappings, proxies, iptables rules and the port pool are as before.  In
    between, the container has an address of the network that nobody had. *)
Theorem Release_restores k id e1 e2 (s s1 s2 : Driver W) out1 out2 :
  wf_net4 (bridgeNetwork s) k -> (1 <= k)%nat -> 0 <= IPAlloc.last (pool_of (allocatedIPs s) (bridgeNetwork s)) ->
  pool_wf (globalMap (mapper s)) -> ParseIP (Env.Get e1 "RequestedIP") = None ->
  Allocate ParseIP [id] e1 s = Return (s1, Ok out1) ->
  AllocatePort exec found supportsXlock ParseIP (fun _ => None) [id] e2 s1 = Return (s2, Ok out2) ->
  exists network a pos, currentInterfaces s2 !! id = Some network /\ PortMappings network = [a] /\
    Contains (bridgeNetwork s) (if_IP network) = true /\ ip_val (if_IP network) = address (bridgeNetwork s) pos /\
    (pos ∉ IPAlloc.p (pool_of (allocatedIPs s) (bridgeNetwork s))) /\
    (pos ∈ IPAlloc.p (pool_of (allocatedIPs s2) (bridgeNetwork s))) /\
    is_Some (currentMappings (mapper s2) !! getKey a) /\
    exists s3, Release exec found supportsXlock [id] s2 = Return (s3, Ok []) /\
      IPAlloc.p (pool_of (allocatedIPs s3) (bridgeNetwork s)) = IPAlloc.p (pool_of (allocatedIPs s) (bridgeNetwork s)) /\
      currentMappings (mapper s3) = currentMappings (mapper s) /\ proxies (mapper s3) = proxies (mapper s) /\
      rules (kernel (mapper s3)) = rules (kernel (mapper s)) /\
      (let '(hostIP, q) := getIPAndPort a in
       (q ∉ allocated (globalMap (mapper s)) (ipstr (ip_arg hostIP)) (Env.Get e2 "Proto")) ->
       Env.Get e2 "Proto" = "tcp" \/ Env.Get e2 "Proto" = "udp" ->
       same_ports (globalMap (mapper s3)) (globalMap (mapper s))).
Proof.
  intros Hw Hk Hl Hpw Hnone H1 H2.
  apply Allocate_ok in H1 as (? & ip & ips & [= <-] & Hreq & -> & _). rewrite Hnone in Hreq.
  destruct (RequestIP_next _ k _ _ _ Hw Hk Hl Hreq) as (pos & Hip & Hc & Hv & _ & Hfree & Hpool & Hsome).
  apply AllocatePort_ok in H2 as (? & network & m & a & [= <-] & Hn & Hm & ->).
  cbn [currentInterfaces with_interfaces with_ips with_mapper] in Hn. rewrite lookup_insert_eq in Hn. injection Hn as <-.
  cbn [if_IP PortMappings mapper with_interfaces with_ips chain defaultBindingIP] in Hm.
  set (c := if String.eqb (Env.Get e2 "Proto") "tcp" then TCPAddr _ _ else _) in Hm.
  set (hip := if String.eqb _ _ then defaultBindingIP s else _) in Hm.
  destruct (Map_Unmap_effect exec found supportsXlock (chain s) rules c hip _ _ _ _ Hpw Hm)
    as (pr & mk & q & Hap & -> & _ & Hmapped & _ & _ & m2 & Hun & Hcm & Hpx & Hru & Hsp).
  eexists _, (mk hip q), pos. cbn [currentInterfaces with_interfaces]. rewrite lookup_insert_eq. split; [done|]. split; [done|]. split; [done|]. split; [done|].
  split; [done|]. cbn [allocatedIPs with_interfaces with_mapper with_ips mapper].
  rewrite Hpool. split; [cbn; set_solver|]. split; [done|].
  destruct (ReleaseIP_effect _ k ips ip Hw Hk Hip Hc Hsome) as (g' & Hrel & Hg').
  unfold Release. cbn [or_panic head mbind outcome_bind currentInterfaces with_interfaces].
  rewrite lookup_insert_eq. cbn [PortMappings app unmap_all chain mapper with_interfaces with_mapper with_ips]. rewrite Hun.
  cbn [mbind outcome_bind bridgeNetwork allocatedIPs if_IP with_interfaces with_mapper with_ips]. rewrite Hrel.
  eexists. split; [done|]. cbn [allocatedIPs with_ips with_mapper mapper]. rewrite Hg', Hpool. cbn [IPAlloc.p].
  split; [unfold address in Hv; replace (ip_val ip - ip_val (first_ip (bridgeNetwork s))) with pos by lia; set_solver|].
  do 3 (split; [done|]). destruct (addr_getIPAndPort c pr mk hip q Hap) as (-> & _ & _). intros Hf Hp. apply Hsp.
  assert (pr = Env.Get e2 "Proto") as ->; [|done]. unfold c in Hap.
  destruct Hp as [Hp | Hp]; rewrite Hp in Hap |- *; cbn in Hap; by injection Hap as <- _.
Qed.
End Life.

(** The driver of the examples: the bridge of [example_net]. *)
Definition example_driver : Driver (gmultiset (list string)) :=
  {| bridgeIface := "docker0"; bridgeNetwork := example_net; defaultBindingIP := IPv4 0 0 0 0;
     currentInterfaces := ∅; allocatedIPs := ∅; chain := Some docker_chain; mapper := fresh_mapper |}.

(** An address parser that knows one address. *)
Definition example_ParseIP (s : string) : option IP := if String.eqb s "192.168.1.7" then Some [192; 168; 1; 7] else None.

(** The state and the reply of a job that succeeds. *)
Definition state_of (r : outcome (Driver (gmultiset (list string)) * result bridge_error Env)) :=
  match r with Return (s, _) => s | _ => example_driver end.
Definition reply_of (r : outcome (Driver (gmultiset (list string)) * result bridge_error Env)) : Env :=
  match r with Return (_, Ok out) => out | _ => [] end.

Lemma Release_restores_witness :
  exists s1 s2 s3 out1 out2,
    Allocate example_ParseIP ["c"] [] example_driver = Return (s1, Ok out1) /\
    AllocatePort toy_exec true false example_ParseIP (fun _ => None) ["c"] ["Proto=tcp"; "ContainerPort=80"; "HostPort=8080"] s1
      = Return (s2, Ok out2) /\
    Release toy_exec true false ["c"] s2 = Return (s3, Ok []) /\
    kernel (mapper s3) = ∅ /\ currentMappings (mapper s3) = ∅ /\ proxies (mapper s3) = [].
Proof.
  set (r1 := Allocate example_ParseIP ["c"] [] example_driver).
  assert (r1 = Return (state_of r1, Ok (reply_of r1))) as E1 by reflexivity.
  set (s1 := state_of r1) in E1.
  set (r2 := AllocatePort toy_exec true false example_ParseIP (fun _ => None) ["c"] ["Proto=tcp"; "ContainerPort=80"; "HostPort=8080"] s1).
  assert (r2 = Return (state_of r2, Ok (reply_of r2))) as E2 by reflexivity.
  set (s2 := state_of r2) in E2.
  assert (0 <= IPAlloc.last (pool_of (allocatedIPs example_driver) (bridgeNetwork example_driver))) as Hl by by vm_compute.
  assert ((1 <= 24)%nat) as Hk by lia.
  destruct (Release_restores toy_exec true false (fun w => w) example_ParseIP 24 "c" [] ["Proto=tcp"; "ContainerPort=80"; "HostPort=8080"]
    example_driver s1 s2 (reply_of r1) (reply_of r2) example_net_wf Hk Hl (map_Forall_empty _) eq_refl E1 E2)
    as (nw & a & pos & _ & _ & _ & _ & _ & _ & _ & s3 & H1 & _ & H2 & H3 & H4 & _).
  exists s1, s2, s3, (reply_of r1), (reply_of r2). split; [exact E1|]. split; [exact E2|]. split; [exact H1|].
  split; [exact H4|]. split; [exact H2|exact H3].
Defined.

(** [Release] does not forget the interface, so releasing a container twice
    frees an address that may belong to another one by then: after [a] is
    released, [b] takes its address, and the second release of [a] lets [c]
    have the address of [b], which is still up. *)
Theorem Release_twice_shares_address :
  let env := ["RequestedIP=192.168.1.7"] in
  exists s1 s2 s3 s4 s5 o1 o3 o5,
    Allocate example_ParseIP ["a"] env example_driver = Return (s1, Ok o1) /\
    Release toy_exec true false ["a"] s1 = Return (s2, Ok []) /\
    Allocate example_ParseIP ["b"] env s2 = Return (s3, Ok o3) /\
    Release toy_exec true false ["a"] s3 = Return (s4, Ok []) /\
    Allocate example_ParseIP ["c"] env s4 = Return (s5, Ok o5) /\
    (if_IP <$> currentInterfaces s5 !! "b") = (if_IP <$> currentInterfaces s5 !! "c") /\
    is_Some (currentInterfaces s5 !! "b").
Proof.
  cbv zeta.
  set (r1 := Allocate example_ParseIP ["a"] ["RequestedIP=192.168.1.7"] example_driver).
  set (r2 := Release toy_exec true false ["a"] (state_of r1)).
  set (r3 := Allocate example_ParseIP ["b"] ["RequestedIP=192.168.1.7"] (state_of r2)).
  set (r4 := Release toy_exec true false ["a"] (state_of r3)).
  set (r5 := Allocate example_ParseIP ["c"] ["RequestedIP=192.168.1.7"] (state_of r4)).
  exists (state_of r1), (state_of r2), (state_of r3), (state_of r4), (state_of r5), (reply_of r1), (reply_of r3), (reply_of r5).
  split_and!; try (vm_compute; reflexivity). vm_compute. by eexists.
Qed.

(** [AllocatePort] makes exactly one attempt to map the port, although it
    is written to make ten: the pool only answers "already allocated" for an
    explicit port, which is not retried.  It panics for a container it does
    not know, a failure leaves the interfaces alone, and on success the reply
    names the host port of the mapping that is added to the interface. *)
Theorem AllocatePort_once {W} exec found supportsXlock ParseIP start_err id rest e (s : Driver W) :
  Env.Get e "Proto" = "tcp" \/ Env.Get e "Proto" = "udp" ->
  match currentInterfaces s !! id with
  | None => AllocatePort exec found supportsXlock ParseIP start_err (id :: rest) e s = Panic
  | Some network =>
      (forall start_err', start_err' 9%nat = start_err 9%nat ->
         AllocatePort exec found supportsXlock ParseIP start_err' (id :: rest) e s =
         AllocatePort exec found supportsXlock ParseIP start_err (id :: rest) e s) /\
      (forall s1 er, AllocatePort exec found supportsXlock ParseIP start_err (id :: rest) e s = Return (s1, Err er) ->
         currentInterfaces s1 = currentInterfaces s /\ allocatedIPs s1 = allocatedIPs s) /\
      (forall s1 out, AllocatePort exec found supportsXlock ParseIP start_err (id :: rest) e s = Return (s1, Ok out) ->
         exists a, is_Some (currentMappings (mapper s1) !! getKey a) /\
           currentInterfaces s1 !! id = Some {| if_IP := if_IP network; PortMappings := PortMappings network ++ [a] |} /\
           Env.Get out "HostPort" = itoa (getIPAndPort a).2 /\ Env.Get out "HostIP" = IP_String (getIPAndPort a).1)
  end.
Proof.
  intros Hp. unfold AllocatePort. cbn [head or_panic mbind outcome_bind].
  assert (negb (String.eqb (Env.Get e "Proto") "tcp") && negb (String.eqb (Env.Get e "Proto") "udp") = false) as ->
    by by destruct Hp as [-> | ->].
  destruct (currentInterfaces s !! id) as [network|] eqn:En; [|done]. cbn [or_panic mbind outcome_bind].
  unfold MaxAllocatedPortAttempts. setoid_rewrite map_attempts_once.
  split; [by intros start_err' ->|].
  set (c := if String.eqb _ "tcp" then _ else _).
  destruct (PortMapper.Map _ _ _ _ _ _ _ _ _) as [[m [a|er]]| |] eqn:Em; cbn [mbind outcome_bind].
  2-4: by split; intros ? ? [= <- <-].
  split; [done|]. intros s1 out [= <- <-]. exists a.
  assert (exists pr mk, addr_proto c = Some (pr, mk)) as (pr & mk & Hc).
  { unfold c. destruct (String.eqb _ _); by eexists _, _. }
  destruct (Map_inv _ _ _ _ _ _ _ _ _ _ _ _ _ Hc Em) as [(g & e' & _ & _ & [=])|(g & q & _ & s2 & Hm & ->)].
  cbn [mapper with_interfaces with_mapper currentInterfaces]. rewrite lookup_insert_eq.
  unfold Map_allocated in Hm. cbn [host with_pool currentMappings] in Hm.
  destruct (currentMappings (mapper s) !! _); [done|]. destruct (getIPAndPort (PortMapper.container _)).
  destruct (forward _ _ _ _ AddRule _ _ _ _ _ _) as [w [[]|x]]; [|done].
  destruct (start_err 9%nat); [by destruct (forward _ _ _ _ DeleteRule _ _ _ _ _ _)|]. injection Hm as <- <-.
  cbn [currentMappings with_proxies with_mappings host]. rewrite lookup_insert_eq. split; [by eexists|]. split; [done|].
  unfold c in Hc. destruct (String.eqb _ _); injection Hc as <- <-; cbn [getIPAndPort fst snd]; unfold SetInt;
    rewrite !Get_Set by done; done.
Qed.

Lemma AllocatePort_once_witness :
  AllocatePort toy_exec true false example_ParseIP (fun _ => None) ["x"] ["Proto=udp"] example_driver = Panic.
Proof.
  assert (Env.Get ["Proto=udp"] "Proto" = "tcp" \/ Env.Get ["Proto=udp"] "Proto" = "udp") as Hp by (right; reflexivity).
  exact (AllocatePort_once toy_exec true false example_ParseIP (fun _ => None) "x" [] ["Proto=udp"] example_driver Hp).
Defined.

