(* ===== verification/BridgeSetup.v ===== *)
(** * daemon/networkdriver/bridge: setting the bridge up

    [InitDriver] with what it calls: finding or creating the bridge with an
    address that overlaps nothing, and the iptables rules that do not belong
    to one container.  Netlink, [net.ParseCIDR], the routes and the name
    server file of the host are parameters. *)

From stdpp Require Import base gmap gmultiset list strings.
From Stdlib Require Import ZArith Lia Ascii.
From S2P Require Import Prelude GoStrings GoNet NetUtils Ports IPAlloc Engine Env Parsers Iptables PortMapper Resolv Bridge.

Local Open Scope Z_scope.

Definition addrs : list string :=
  ["172.17.42.1/16"; "10.0.42.1/16"; "10.1.42.1/16"; "10.42.42.1/16"; "172.16.42.1/24"; "172.16.43.1/24";
   "172.16.44.1/24"; "10.0.42.1/24"; "10.0.43.1/24"; "192.168.42.1/24"; "192.168.43.1/24"; "192.168.44.1/24"].

Definition DefaultNetworkBridge : string := "docker0".

(** ** Setting the bridge up *)

Section Setup.
Context {W : Type} (exec : list string -> W -> W * (string * option string)) (found supportsXlock : bool).

(** Insert a rule unless iptables knows it. *)
Definition ensure_rule (failed printed : string) (args : list string) (w : W) : W * result string () :=
  let '(w, known) := Exists exec found supportsXlock args w in
  if known then (w, Ok ())
  else
    let '(w, r) := Raw exec found supportsXlock ("-I" :: args) w in
    match r with
    | Err e => (w, Err (failed +:+ e))
    | Ok output => (w, if String.eqb output "" then Ok () else Err (printed +:+ output))
    end.

Definition nat_args (iface addr : string) : list string :=
  ["POSTROUTING"; "-t"; "nat"; "-s"; addr; "!"; "-o"; iface; "-j"; "MASQUERADE"].
Definition icc_args (iface target : string) : list string :=
  ["FORWARD"; "-i"; iface; "-o"; iface; "-j"; target].
Definition outgoing_args (iface : string) : list string :=
  ["FORWARD"; "-i"; iface; "!"; "-o"; iface; "-j"; "ACCEPT"].
Definition existing_args (iface : string) : list string :=
  ["FORWARD"; "-o"; iface; "-m"; "conntrack"; "--ctstate"; "RELATED,ESTABLISHED"; "-j"; "ACCEPT"].

Definition setupIPTables (iface addr : string) (icc : bool) (w : W) : W * result string () :=
  let '(w, r) := ensure_rule "Unable to enable network bridge NAT: " "Error iptables postrouting: "
                   (nat_args iface addr) w in
  match r with
  | Err e => (w, Err e)
  | Ok _ =>
      let '(target, other) := if icc then ("ACCEPT", "DROP") else ("DROP", "ACCEPT") in
      let '(failed, printed) :=
        if icc then ("Unable to allow intercontainer communication: ", "Error enabling intercontainer communication: ")
        else ("Unable to prevent intercontainer communication: ", "Error disabling intercontainer communication: ") in
      let '(w, _) := Raw exec found supportsXlock ("-D" :: icc_args iface other) w in
      let '(w, r) := ensure_rule failed printed (icc_args iface target) w in
      match r with
      | Err e => (w, Err e)
      | Ok _ =>
          let '(w, r) := ensure_rule "Unable to allow outgoing packets: " "Error iptables allow outgoing: "
                           (outgoing_args iface) w in
          match r with
          | Err e => (w, Err e)
          | Ok _ => ensure_rule "Unable to allow incoming packets: " "Error iptables allow incoming: "
                      (existing_args iface) w
          end
      end
  end.

(** The host: its name server file, [net.ParseCIDR], its routes, and netlink. *)
Context (resolvConf : option string) (ParseCIDR : string -> result net_error (IP * IPNet)).
Context (routes : result net_error (list Route)) (kernelVersion : result string KernelVersionInfo).
Context (CreateBridge : string -> bool -> W -> W * option string) (InterfaceByName : string -> W -> option string).
Context (NetworkLinkAddIp : string -> IP -> IPNet -> W -> W * option string).
Context (NetworkLinkUp : string -> W -> W * option string).

Definition cidr_net (s : string) : result net_error IPNet :=
  match ParseCIDR s with Ok (_, n) => Ok n | Err e => Err e end.

Definition host_nameservers : list string :=
  match resolvConf with Some c => GetNameserversAsCIDR c | None => [] end.

(** The first of the predefined ranges that overlaps no name server and no
    route; the empty text when there is none. *)
Fixpoint choose_addr (nameservers : list string) (l : list string) : outcome (result net_error string) :=
  match l with
  | [] => Return (Ok "")
  | addr :: l =>
      match cidr_net addr with
      | Err e => Return (Err e)
      | Ok dockerNetwork =>
          r ← CheckNameserverOverlaps cidr_net nameservers dockerNetwork;
          match r with
          | Err _ => choose_addr nameservers l
          | Ok _ =>
              r ← CheckRouteOverlaps routes dockerNetwork;
              match r with
              | Ok _ => Return (Ok addr)
              | Err _ => choose_addr nameservers l
              end
          end
      end
  end.

Definition setBridgeMacAddr : bool :=
  match kernelVersion with Ok kv => (3 <=? Kernel kv) && (3 <=? Major kv) | Err _ => false end.

Definition createBridgeIface (name : string) (w : W) : W * option string := CreateBridge name setBridgeMacAddr w.

(** The error of [NetworkLinkAddIp] is not looked at. *)
Definition createBridge (iface bridgeIP : string) (w : W) : outcome (W * result bridge_error ()) :=
  r ← (if negb (String.eqb bridgeIP "") then
         Return (match cidr_net bridgeIP with Err e => Err e | Ok _ => Ok bridgeIP end)
       else choose_addr host_nameservers addrs);
  match r with
  | Err e => Return (w, Err (ErrNet e))
  | Ok ifaceAddr =>
      if String.eqb ifaceAddr "" then
        Return (w, Err (ErrJob ("Could not find a free IP address range for interface '" +:+ iface +:+
          "'. Please configure its address manually and run 'docker -b " +:+ iface +:+ "'")))
      else
        let '(w, e) := createBridgeIface iface w in
        match e with
        | Some e => Return (w, Err (ErrJob e))
        | None =>
            match InterfaceByName iface w with
            | Some e => Return (w, Err (ErrJob e))
            | None =>
                match ParseCIDR ifaceAddr with
                | Err e => Return (w, Err (ErrNet e))
                | Ok (ipAddr, ipNet) =>
                    let '(w, _) := NetworkLinkAddIp iface ipAddr ipNet w in
                    let '(w, e) := NetworkLinkUp iface w in
                    match e with
                    | Some e => Return (w, Err (ErrJob ("Unable to start network bridge: " +:+ e)))
                    | None => Return (w, Ok ())
                    end
                end
            end
        end
  end.

(** [net.IP.Equal] *)
Definition IP_Equal (a b : IP) : bool :=
  bool_decide (a = b) || (Nat.eqb (length a) 4 && bool_decide (b = v4InV6Prefix ++ a))
  || (Nat.eqb (length b) 4 && bool_decide (a = v4InV6Prefix ++ b)).

(** ** init_networkdriver *)

Context (interfaceAddrs : string -> W -> result net_error (list IPNet)) (enable_forward : W -> W).
Context (ParseIP : string -> option IP).

(** The network of the bridge, created when it is the default one and missing. *)
Definition find_bridge (iface : string) (usingDefaultBridge : bool) (bridgeIP : string) (w : W) :
    outcome (W * result bridge_error IPNet) :=
  match GetIfaceAddr iface (interfaceAddrs iface w) with
  | Err e =>
      if negb usingDefaultBridge then Return (w, Err (ErrNet e))
      else
        '(w, r) ← createBridge iface bridgeIP w;
        match r with
        | Err e => Return (w, Err e)
        | Ok _ => Return (w, match GetIfaceAddr iface (interfaceAddrs iface w) with
                             | Err e => Err (ErrNet e)
                             | Ok n => Ok n
                             end)
        end
  | Ok network =>
      if String.eqb bridgeIP "" then Return (w, Ok network)
      else
        match ParseCIDR bridgeIP with
        | Err e => Return (w, Err (ErrNet e))
        | Ok (bip, _) =>
            Return (w, if IP_Equal (net_IP network) bip then Ok network
                       else Err (ErrJob ("bridge ip (" +:+ IP_String (net_IP network) +:+
                              ") does not match existing bridge configuration " +:+ IP_String bip)))
        end
  end.

Fixpoint register_all (eng : Engine) (l : list (string * nat)) : Engine * option bridge_error :=
  match l with
  | [] => (eng, None)
  | (name, f) :: l =>
      let '(eng, r) := Register eng name f in
      match r with Err e => (eng, Some (ErrJob e)) | Ok _ => register_all eng l end
  end.

(** [jobs] are the four handlers in the order [range] takes them. *)
Definition InitDriver (jobs : list (string * nat)) (env : Env) (eng : Engine) (s : Driver W) :
    outcome (Engine * Driver W * result bridge_error ()) :=
  let defaultIP := Get env "DefaultBindingIP" in
  let binding := if String.eqb defaultIP "" then defaultBindingIP s else default [] (ParseIP defaultIP) in
  let name := Get env "BridgeIface" in
  let iface := if String.eqb name "" then DefaultNetworkBridge else name in
  let driver network ch w :=
    {| bridgeIface := iface; bridgeNetwork := network; defaultBindingIP := binding;
       currentInterfaces := currentInterfaces s; allocatedIPs := allocatedIPs s; chain := ch;
       mapper := with_kernel (mapper s) w |} in
  '(w, r) ← find_bridge iface (String.eqb name "") (Get env "BridgeIP") (kernel (mapper s));
  match r with
  | Err e => Return (eng, driver (bridgeNetwork s) (chain s) w, Err e)
  | Ok network =>
      let '(w, r) := if GetBool env "EnableIptables"
                     then setupIPTables iface (IPNet_String network) (GetBool env "InterContainerCommunication") w
                     else (w, Ok ()) in
      match r with
      | Err e => Return (eng, driver (bridgeNetwork s) (chain s) w, Err (ErrJob e))
      | Ok _ =>
          let w := if GetBool env "EnableIpForward" then enable_forward w else w in
          let w := RemoveExistingChain exec found supportsXlock "DOCKER" w in
          let '(w, r) := if GetBool env "EnableIptables"
                         then let '(w, r) := NewChain exec found supportsXlock "DOCKER" iface w in
                              (w, match r with Ok c => Ok (Some c) | Err e => Err e end)
                         else (w, Ok (chain s)) in
          match r with
          | Err e => Return (eng, driver (bridgeNetwork s) (chain s) w, Err (ErrJob e))
          | Ok ch =>
              let '(eng, e) := register_all eng jobs in
              Return (eng, driver network ch w, match e with Some e => Err e | None => Ok () end)
          end
      end
  end.
End Setup.

(** ** The rules of the bridge *)

(** What iptables does with a whole command line, by the rules it knows:
    [-C] asks, [-I] adds, [-D] takes out one copy at most. *)
Class IptablesTable {W} (exec : list string -> W -> W * (string * option string)) (supportsXlock : bool)
    (known : W -> gset (list string)) := {
  table_check : forall args w, exists out e,
    exec ((if supportsXlock then ["--wait"] else []) ++ "-C" :: args) w =
      (w, (out, if decide (args ∈ known w) then None else Some e));
  table_insert : forall args w w' out e,
    exec ((if supportsXlock then ["--wait"] else []) ++ "-I" :: args) w = (w', (out, e)) ->
    known w' = match e with None => {[args]} ∪ known w | Some _ => known w end;
  table_delete : forall args w w' r,
    exec ((if supportsXlock then ["--wait"] else []) ++ "-D" :: args) w = (w', r) ->
    known w' ⊆ known w /\ known w ⊆ {[args]} ∪ known w' }.

Section Table.
Context {W : Type} (exec : list string -> W -> W * (string * option string)) (supportsXlock : bool).
Context (known : W -> gset (list string)) `{!IptablesTable exec supportsXlock known}.

Lemma Exists_known args w :
  Exists exec true supportsXlock args w = (w, bool_decide (args ∈ known w)).
Proof.
  unfold Exists, Raw. cbn [negb]. rewrite wait_args. destruct (table_check args w) as (out & e & ->).
  rewrite bool_decide_decide. by destruct (decide _).
Qed.

Lemma ensure_rule_known failed printed args w w' :
  ensure_rule exec true supportsXlock failed printed args w = (w', Ok ()) -> known w' = {[args]} ∪ known w.
Proof.
  unfold ensure_rule. rewrite Exists_known. case_bool_decide as Hk; [intros [= <-]; set_solver|].
  unfold Raw. cbn [negb]. rewrite wait_args. destruct (exec _ w) as [w1 [out e]] eqn:E.
  apply table_insert in E. destruct e as [e|]; [done|]. intros H. by injection H as <- _.
Qed.

Lemma ensure_rule_again failed printed args w : args ∈ known w ->
  ensure_rule exec true supportsXlock failed printed args w = (w, Ok ()).
Proof. intros H. unfold ensure_rule. rewrite Exists_known. by rewrite bool_decide_eq_true_2. Qed.

Lemma delete_known args w w' r : Raw exec true supportsXlock ("-D" :: args) w = (w', r) ->
  known w' ⊆ known w /\ known w ⊆ {[args]} ∪ known w'.
Proof.
  unfold Raw. cbn [negb]. rewrite wait_args. destruct (exec _ w) as [w1 [out e]] eqn:E.
  apply table_delete in E. destruct e; by intros [= <- _].
Qed.

(** The rules of a bridge that lets its containers talk, or not. *)
Definition bridge_rules (iface addr : string) (icc : bool) : gset (list string) :=
  {[nat_args iface addr; icc_args iface (if icc then "ACCEPT" else "DROP"); outgoing_args iface; existing_args iface]}.
Definition opposite_rule (iface : string) (icc : bool) : list string :=
  icc_args iface (if icc then "DROP" else "ACCEPT").

Lemma opposite_not_needed iface addr icc : opposite_rule iface icc ∉ bridge_rules iface addr icc.
Proof. unfold bridge_rules, opposite_rule. rewrite !not_elem_of_union, !not_elem_of_singleton. by destruct icc. Qed.

(** The sets of rules known along the way. *)
Lemma rules_chain (K0 K1 K3 K4 K5 K' : gset (list string)) n t o x op :
  K1 = {[n]} ∪ K0 -> K3 ⊆ K1 -> K1 ⊆ {[op]} ∪ K3 -> K4 = {[t]} ∪ K3 -> K5 = {[o]} ∪ K4 -> K' = {[x]} ∪ K5 ->
  op ∉ ({[n; t; o; x]} : gset (list string)) ->
  {[n; t; o; x]} ⊆ K' /\ K' ⊆ {[n; t; o; x]} ∪ K0 /\ K0 ⊆ {[op]} ∪ K'.
Proof.
  intros -> H3 H1 -> -> -> Hop. assert (n ∈ K3) as Hn.
  { assert (n ∈ {[op]} ∪ K3) as Hin by (apply H1; set_solver +).
    apply elem_of_union in Hin as [->%elem_of_singleton|]; [|done]. destruct Hop. set_solver +. }
  split; [set_solver + Hn|]. split; [set_solver + H3|]. intros y Hy.
  assert (y ∈ {[op]} ∪ K3) as Hin by (apply H1; set_solver + Hy). set_solver + Hin.
Qed.

(** When [setupIPTables] succeeds, iptables knows the four rules of the
    bridge, no rule but these was added, none but the opposite rule for
    traffic between containers can be gone, and running it once more succeeds
    and adds nothing. *)
Theorem setupIPTables_rules iface addr icc w w' found :
  setupIPTables exec found supportsXlock iface addr icc w = (w', Ok ()) ->
  found = true /\ bridge_rules iface addr icc ⊆ known w' /\
  known w' ⊆ bridge_rules iface addr icc ∪ known w /\
  known w ⊆ {[opposite_rule iface icc]} ∪ known w' /\
  exists w2, setupIPTables exec found supportsXlock iface addr icc w' = (w2, Ok ()) /\
    known w2 ⊆ known w' /\ known w' ⊆ {[opposite_rule iface icc]} ∪ known w2.
Proof.
  intros H. assert (found = true) as ->.
  { destruct found; [done|]. unfold setupIPTables, ensure_rule, Exists, Raw in H. by cbn in H. }
  split; [done|]. unfold setupIPTables in H.
  destruct (ensure_rule _ _ _ _ _ _ w) as [w1 [[]|e]] eqn:E1; [|done]. apply ensure_rule_known in E1.
  replace (if icc then ("ACCEPT", "DROP") else ("DROP", "ACCEPT"))
    with ((if icc then "ACCEPT" else "DROP") : string, (if icc then "DROP" else "ACCEPT") : string) in H by by destruct icc.
  destruct (if icc then (_, _) else (_, _)) as [failed printed] eqn:Ep in H.
  destruct (Raw _ _ _ _ w1) as [w3 r3] eqn:E3. apply delete_known in E3 as [D1 D2].
  destruct (ensure_rule _ _ _ _ _ _ w3) as [w4 [[]|e]] eqn:E4; [|done]. apply ensure_rule_known in E4.
  destruct (ensure_rule _ _ _ _ _ _ w4) as [w5 [[]|e]] eqn:E5; [|done]. apply ensure_rule_known in E5.
  apply ensure_rule_known in H. fold (opposite_rule iface icc) in *.
  pose proof (opposite_not_needed iface addr icc) as Hop. unfold bridge_rules in *.
  destruct (rules_chain _ _ _ _ _ _ _ _ _ _ _ E1 D1 D2 E4 E5 H Hop) as (R1 & R2 & R3).
  split; [exact R1|]. split; [exact R2|]. split; [exact R3|]. clear R2 R3 E1 D1 D2 E4 E5 H.
  unfold setupIPTables. rewrite ensure_rule_again by (apply R1; set_solver +).
  replace (if icc then ("ACCEPT", "DROP") else ("DROP", "ACCEPT"))
    with ((if icc then "ACCEPT" else "DROP") : string, (if icc then "DROP" else "ACCEPT") : string) by by destruct icc.
  rewrite Ep. destruct (Raw _ _ _ _ w') as [w6 r6] eqn:E6. apply delete_known in E6 as [D3 D4].
  fold (opposite_rule iface icc) in *.
  assert (forall x, x ∈ bridge_rules iface addr icc -> x ∈ known w6) as Hkeep.
  { intros x Hx. specialize (D4 x (R1 x Hx)). apply elem_of_union in D4 as [->%elem_of_singleton|]; [by destruct Hop|done]. }
  unfold bridge_rules in Hkeep. rewrite !ensure_rule_again by (apply Hkeep; set_solver +).
  exists w6. by split_and!.
Qed.
End Table.

(** An iptables that keeps a set of command lines. *)
Definition table_exec (args : list string) (w : gset (list string)) : gset (list string) * (string * option string) :=
  match args with
  | cmd :: args =>
      if String.eqb cmd "-C" then (w, ("", if decide (args ∈ w) then None else Some "exit status 1"))
      else if String.eqb cmd "-I" then ({[args]} ∪ w, ("", None))
      else if String.eqb cmd "-D" then (w ∖ {[args]}, ("", if decide (args ∈ w) then None else Some "exit status 1"))
      else (w, ("", Some "exit status 2"))
  | [] => (w, ("", Some "exit status 2"))
  end.

#[export] Instance table_laws : IptablesTable table_exec false (fun w => w).
Proof.
  split.
  - intros args w. by exists "", "exit status 1".
  - intros args w w' out e [= <- _ <-]. done.
  - intros args w w' r [= <- _]. split; [set_solver|]. intros x Hx.
    destruct (decide (x = args)); set_solver.
Qed.

Lemma setupIPTables_rules_witness :
  exists w', setupIPTables table_exec true false "docker0" "172.17.42.1/16" false {[icc_args "docker0" "ACCEPT"]} = (w', Ok ()) /\
    bridge_rules "docker0" "172.17.42.1/16" false ⊆ w'.
Proof.
  set (r := setupIPTables table_exec true false "docker0" "172.17.42.1/16" false {[icc_args "docker0" "ACCEPT"]}).
  assert (r = (r.1, Ok ())) as E by reflexivity.
  destruct (setupIPTables_rules table_exec false (fun w => w) _ _ _ _ _ _ E) as (_ & H & _).
  exists r.1. split; [exact E|exact H].
Defined.

(** ** The address of a new bridge *)

Section NewBridge.
Context (ParseCIDR : string -> result net_error (IP * IPNet)) (rs : list Route) (ns : list string).

(** A range the bridge can have: it parses and overlaps nothing. *)
Definition free_range (a : string) : Prop :=
  exists n, cidr_net ParseCIDR a = Ok n /\
    (forall r m, r ∈ rs -> route_IPNet r = Some m -> ~ share_address n m) /\
    (forall s, s ∈ ns -> exists m, cidr_net ParseCIDR s = Ok m /\ ~ share_address n m).

Lemma choose_addr_spec l :
  Forall wf_route rs -> (forall s m, cidr_net ParseCIDR s = Ok m -> wf_net m) ->
  Forall (fun a => is_ok (cidr_net ParseCIDR a) = true /\ a <> "") l ->
  exists a, choose_addr ParseCIDR (Ok rs) ns l = Return (Ok a) /\
    ((a = "" /\ Forall (fun b => ~ free_range b) l) \/
     (a <> "" /\ exists l1 l2, l = l1 ++ a :: l2 /\ free_range a /\ Forall (fun b => ~ free_range b) l1)).
Proof.
  intros Hrs Hp. induction 1 as [|a l [Ha Hne] Hl IH]; [exists ""; split; [done|by left]|].
  cbn [choose_addr]. destruct (cidr_net ParseCIDR a) as [n|e] eqn:Ea; [|done].
  destruct (check_nameservers_correct (cidr_net ParseCIDR) ns n (Hp _ _ Ea) Hp) as (r1 & -> & H1).
  destruct (check_routes_correct rs n (Hp _ _ Ea) Hrs) as (r2 & H2 & _ & H3). cbn [mbind outcome_bind].
  unfold CheckRouteOverlaps. rewrite H2. cbn [mbind outcome_bind].
  assert (free_range a <-> r1 = Ok () /\ r2 = Ok ()) as Hfree.
  { rewrite H1, H3. split; [intros (m & Hm & ? & ?); assert (m = n) as -> by congruence; done|].
    intros [? ?]. by exists n. }
  assert (forall P, ~ free_range a -> (exists b, P b /\
      ((b = "" /\ Forall (fun b => ~ free_range b) l) \/
       (b <> "" /\ exists l1 l2, l = l1 ++ b :: l2 /\ free_range b /\ Forall (fun b => ~ free_range b) l1))) ->
    exists b, P b /\
      ((b = "" /\ Forall (fun b => ~ free_range b) (a :: l)) \/
       (b <> "" /\ exists l1 l2, a :: l = l1 ++ b :: l2 /\ free_range b /\ Forall (fun b => ~ free_range b) l1))) as Hskip.
  { intros P Hn (b & HP & [[-> HF]|(Hb & l1 & l2 & -> & Hf & HF)]); [exists ""; split; [done|left; auto]|].
    exists b. split; [done|]. right. split; [done|]. exists (a :: l1), l2. auto. }
  destruct r1 as [[]|]; [destruct r2 as [[]|]|].
  - exists a. split; [done|]. right. split; [done|]. exists [], l. split; [done|]. split; [by apply Hfree|done].
  - apply Hskip; [|done]. rewrite Hfree. by intros [_ ?].
  - apply Hskip; [|done]. rewrite Hfree. by intros [? _].
Qed.
End NewBridge.

(** [createBridge] without an address takes the first of its predefined
    ranges that overlaps no route and no name server of the host, and fails
    without touching the host exactly when there is none.  Once the interface
    exists it ends as [NetworkLinkUp] does, whether or not
    [NetworkLinkAddIp] gave the interface its address: that error is dropped. *)
Theorem createBridge_address {W} resolvConf ParseCIDR rs kv CreateBridge InterfaceByName LinkAddIp LinkUp iface (w : W) :
  Forall wf_route rs -> (forall s m, cidr_net ParseCIDR s = Ok m -> wf_net m) ->
  Forall (fun a => is_ok (cidr_net ParseCIDR a) = true) addrs ->
  let run := createBridge resolvConf ParseCIDR (Ok rs) kv CreateBridge InterfaceByName LinkAddIp LinkUp iface "" w in
  let free := free_range ParseCIDR rs (host_nameservers resolvConf) in
  (Forall (fun a => ~ free a) addrs ->
     exists msg, run = Return (w, Err (ErrJob ("Could not find a free IP address range for interface '" +:+ msg)))) /\
  (forall l1 a l2, addrs = l1 ++ a :: l2 -> Forall (fun a => ~ free a) l1 -> free a ->
     forall ip n w1, ParseCIDR a = Ok (ip, n) ->
       CreateBridge iface (setBridgeMacAddr kv) w = (w1, None) -> InterfaceByName iface w1 = None ->
       run = Return (let '(w2, e) := LinkUp iface (LinkAddIp iface ip n w1).1 in
                     (w2, match e with Some e => Err (ErrJob ("Unable to start network bridge: " +:+ e)) | None => Ok () end))).
Proof.
  intros Hrs Hp Ha run free.
  destruct (choose_addr_spec ParseCIDR rs (host_nameservers resolvConf) addrs Hrs Hp) as (a & Hc & Hcase).
  { unfold addrs in *. repeat (apply Forall_cons in Ha as [? Ha]). repeat constructor; done. }
  unfold run, createBridge. cbn [String.eqb negb]. rewrite Hc. cbn [mbind outcome_bind]. split.
  - intros Hn. destruct Hcase as [[-> _]|(_ & l1 & l2 & E & Hf & _)].
    + eexists. cbn [String.eqb]. reflexivity.
    + exfalso. rewrite E in Hn. apply Forall_app in Hn as [_ Hn]. by apply Forall_cons in Hn as [? _].
  - intros l1 b l2 E HF Hb ip n w1 Hcidr Hcb Hif.
    assert (a = b /\ a <> "") as [-> Hne].
    { destruct Hcase as [[_ HF2]|(Hne & l3 & l4 & E2 & Hf & HF2)].
      - exfalso. rewrite E in HF2. apply Forall_app in HF2 as [_ HF2]. by apply Forall_cons in HF2 as [? _].
      - split; [|done]. clear Hc Ha Hcidr run. rewrite E in E2. clear E Hne.
        revert l3 E2 HF2. induction HF as [|x l1 Hx HF IH]; intros [|y l3] E2 HF2; injection E2 as E2 E3.
        + done.
        + subst. by apply Forall_cons in HF2 as [? _].
        + by subst.
        + apply Forall_cons in HF2 as [_ HF2]. eauto. }
    apply String.eqb_neq in Hne. rewrite Hne. unfold createBridgeIface. rewrite Hcb, Hif, Hcidr.
    destruct (LinkAddIp iface ip n w1) as [w2 e2]. cbn [fst]. by destruct (LinkUp iface w2) as [w3 [e|]].
Qed.

(** The CIDR parser of the example knows every range as a network of its own. *)
Definition demo_CIDR (s : string) : result net_error (IP * IPNet) :=
  if String.eqb s "172.17.42.1/16" then Ok ([192; 168; 1; 1], example_net) else Ok ([10; 0; 0; 1], {| net_IP := [10; 0; 0; 1]; net_Mask := CIDRMask 24 4 |}).

Lemma demo_CIDR_wf s m : cidr_net demo_CIDR s = Ok m -> wf_net m.
Proof.
  unfold cidr_net, demo_CIDR. destruct (String.eqb _ _); intros [= <-]; exists 24%nat; [exact example_net_wf|].
  split; [split; [done|repeat constructor; unfold byte; lia]|]. split; [lia|done].
Qed.

Lemma createBridge_address_witness :
  exists w, createBridge (W := list string) None demo_CIDR (Ok []) (Err "") (fun n _ w => (n :: w, None)) (fun _ _ => None)
    (fun _ _ _ w => (w, Some "no address")) (fun _ w => (w, None)) "docker0" "" [] = Return (w, Ok ()).
Proof.
  assert (Forall (fun a => is_ok (cidr_net demo_CIDR a) = true) addrs) as Ha by (repeat constructor; reflexivity).
  destruct (createBridge_address None demo_CIDR [] (Err "") (fun n _ w => (n :: w, None)) (fun _ _ => None)
    (fun _ _ _ w => (w, Some "no address")) (fun _ w => (w, None)) "docker0" [] (List.Forall_nil _) demo_CIDR_wf Ha) as [_ H].
  eexists. apply (H [] "172.17.42.1/16" (tail addrs) eq_refl) with (ip := [192; 168; 1; 1]) (n := example_net) (w1 := ["docker0"]).
  - by apply List.Forall_nil.
  - exists example_net. split; [reflexivity|]. split; [intros r m Hin|intros x Hin]; by apply elem_of_nil in Hin.
  - reflexivity.
  - reflexivity.
  - reflexivity.
Defined.
