(* ===== verification/Links.v ===== *)
(** * links, nat/sort.go: links between containers

    A [Link] holds the addresses of the two containers, the name of the child
    under which the parent sees it, the child's environment and its exposed
    ports.  [ToEnv] gives the parent's environment; [Enable] and [Disable] run
    the engine's [link] job, which is [LinkContainers] of Bridge.v.  Go's
    [sort.Sort] is the class [GoSort] of GoSort.v. *)

From stdpp Require Import base gmap gmultiset list strings.
From Stdlib Require Import ZArith Lia Ascii Sorting.
From S2P Require Import Prelude GoStrings GoSort GoNet Ports Env Parsers Iptables PortMapper Bridge.

Local Open Scope Z_scope.

(** ** Link *)

Record Link := {
  ParentIP : string; ChildIP : string; Name : string; ChildEnvironment : list string;
  Ports : list string; IsEnabled : bool }.

(** [range] gives the exposed ports in some order. *)
Definition NewLink (parentIP childIP name : string) (env ports : list string) : Link :=
  {| ParentIP := parentIP; ChildIP := childIP; Name := name; ChildEnvironment := env; Ports := ports; IsEnabled := false |}.

Definition with_ports (l : Link) (ports : list string) : Link :=
  {| ParentIP := ParentIP l; ChildIP := ChildIP l; Name := Name l; ChildEnvironment := ChildEnvironment l;
     Ports := ports; IsEnabled := IsEnabled l |}.
Definition with_enabled (l : Link) (b : bool) : Link :=
  {| ParentIP := ParentIP l; ChildIP := ChildIP l; Name := Name l; ChildEnvironment := ChildEnvironment l;
     Ports := Ports l; IsEnabled := b |}.

(** The file part of [path.Split]. *)
Definition Alias (l : Link) : string :=
  match last_index_char "/" (Name l) with Some n => drop_str (n + 1) (Name l) | None => Name l end.

Definition port_int (p : Port) : Z := match Int p with Return n => n | _ => 0 end.

Definition port_less (ip jp : Port) : bool :=
  (port_int ip <? port_int jp) || ((port_int ip =? port_int jp) && String.eqb (to_lower (Proto ip)) "tcp").

Definition env_alias (l : Link) : string := replace_char "-" "_" (to_upper (Alias l)).

Definition port_vars (alias childIP : string) (p : Port) : list string :=
  let name := alias +:+ "_PORT_" +:+ Port_ p +:+ "_" +:+ to_upper (Proto p) in
  [name +:+ "=" +:+ Proto p +:+ "://" +:+ childIP +:+ ":" +:+ Port_ p;
   name +:+ "_ADDR=" +:+ childIP;
   name +:+ "_PORT=" +:+ Port_ p;
   name +:+ "_PROTO=" +:+ Proto p].

Definition child_var (alias v : string) : list string :=
  match split "=" v with
  | [k; x] => if String.eqb k "HOME" || String.eqb k "PATH" then [] else [alias +:+ "_ENV_" +:+ k +:+ "=" +:+ x]
  | _ => []
  end.

Section Link.
Context `{!GoSort}.

(** Sorting reorders the ports of the link in place, and compares every one:
    [Port.Int] panics when one is not a number. *)
Definition getDefaultPort (l : Link) : outcome (Link * option Port) :=
  match Ports l with
  | [] => Return (l, None)
  | [p] => Return (l, Some p)
  | _ =>
      if forallb (fun p => match Int p with Return _ => true | _ => false end) (Ports l) then
        let ports := Sort (Ports l) port_less in
        p ← or_panic (head ports);
        Return (with_ports l ports, Some p)
      else Panic
  end.

Definition ToEnv (l : Link) : outcome (Link * list string) :=
  let alias := env_alias l in
  '(l, p) ← getDefaultPort l;
  let env := match p with
             | Some p => [alias +:+ "_PORT=" +:+ Proto p +:+ "://" +:+ ChildIP l +:+ ":" +:+ Port_ p]
             | None => []
             end in
  let env := foldl (fun env p => env ++ port_vars alias (ChildIP l) p) env (Ports l) in
  let env := env ++ [alias +:+ "_NAME=" +:+ Name l] in
  Return (l, foldl (fun env v => env ++ child_var alias v) env (ChildEnvironment l)).
End Link.

(** The [link] job: the action, the environment and the list of ports. *)
Section Toggle.
Context {S : Type} (link_job : list string -> Env -> list string -> S -> outcome (S * result bridge_error Env)).

Definition toggle (l : Link) (action : string) (ignoreErrors : bool) (s : S) : outcome (S * option bridge_error) :=
  let env := Set_ [] "ParentIP" (ParentIP l) in
  let env := Set_ env "ChildIP" (ChildIP l) in
  let env := SetBool env "IgnoreErrors" ignoreErrors in
  let out := (fun p => Port_ p +:+ "/" +:+ Proto p) <$> Ports l in
  '(s, r) ← link_job [action] env out s;
  Return (s, match r with Ok _ => None | Err e => Some e end).

Definition Enable (l : Link) (s : S) : outcome (S * Link * option bridge_error) :=
  '(s, e) ← toggle l "-I" false s;
  match e with
  | Some e => Return (s, l, Some e)
  | None => Return (s, with_enabled l true, None)
  end.

Definition Disable (l : Link) (s : S) : outcome (S * Link) :=
  '(s, _) ← toggle l "-D" true s;
  Return (s, with_enabled l false).
End Toggle.

(** ** Ports in order *)

Definition numeric (p : Port) : Prop := exists n, Int p = Return n.

(** Different exposed ports differ in number or protocol, in lower case. *)
Definition ports_ok (ports : list Port) : Prop :=
  NoDup ports /\ Forall numeric ports /\
  forall p q, p ∈ ports -> q ∈ ports -> port_int p = port_int q -> to_lower (Proto p) = to_lower (Proto q) -> p = q.

Lemma port_less_orders ports : ports_ok ports -> orders port_less ports.
Proof.
  intros (_ & _ & Hd). unfold port_less. split.
  - intros x y Hx Hy Hne H. apply orb_true_iff in H as [H|H].
    + apply Z.ltb_lt in H. apply orb_false_iff. split; [apply Z.ltb_ge; lia|].
      apply andb_false_iff. left. apply Z.eqb_neq. lia.
    + apply andb_true_iff in H as [E%Z.eqb_eq Hp%String.eqb_eq]. apply orb_false_iff. split; [apply Z.ltb_ge; lia|].
      apply andb_false_iff. right. apply String.eqb_neq. intros Hq. apply Hne, Hd; congruence.
  - intros x y z Hx Hy Hz Hxy Hyz Hxz H1 H2.
    apply orb_false_iff in H1 as [L1%Z.ltb_ge T1]. apply orb_false_iff in H2 as [L2%Z.ltb_ge T2].
    apply orb_false_iff. split; [apply Z.ltb_ge; lia|]. apply andb_false_iff.
    destruct (Z.eqb_spec (port_int z) (port_int x)) as [E|]; [right|by left].
    apply andb_false_iff in T1 as [T1%Z.eqb_neq|T1]; [lia|]. apply andb_false_iff in T2 as [T2%Z.eqb_neq|T2]; [lia|done].
Qed.

(** ** The environment of a link *)

Lemma foldl_append {A B} (f : A -> list B) l acc : foldl (fun env p => env ++ f p) acc l = acc ++ mjoin (f <$> l).
Proof.
  revert acc. induction l as [|x l IH]; intros acc; [by rewrite app_nil_r|]. cbn [foldl]. rewrite IH.
  by rewrite <- (assoc_L (++)).
Qed.

(** The port the environment names first: the lowest number, tcp before any
    other protocol of that number. *)
Definition default_port (ports : list Port) (p : Port) : Prop :=
  p ∈ ports /\ forall q, q ∈ ports -> port_int p <= port_int q /\
    (port_int q = port_int p -> to_lower (Proto q) = "tcp" -> to_lower (Proto p) = "tcp").

Section EnvSpec.
Context `{!GoSort}.

Lemma getDefaultPort_spec l : ports_ok (Ports l) ->
  exists ports, getDefaultPort l = Return (with_ports l ports, head ports) /\ ports ≡ₚ Ports l /\
    forall p, head ports = Some p -> default_port (Ports l) p.
Proof.
  intros Hok. pose proof Hok as (Hn & Hnum & Hd). unfold getDefaultPort.
  destruct (Ports l) as [|p [|q ports]] eqn:El.
  - exists []. split; [destruct l; cbn in El |- *; by subst|]. done.
  - exists [p]. split; [destruct l; cbn in El |- *; by subst|]. split; [done|]. intros x [= <-].
    split; [set_solver|]. intros q ->%list_elem_of_singleton. by split.
  - rewrite <- El in *.
    assert (forallb (fun p => match Int p with Return _ => true | _ => false end) (Ports l) = true) as ->.
    { apply forallb_forall. intros x Hx%list_elem_of_In. rewrite Forall_forall in Hnum.
      destruct (Hnum x Hx) as [n Hx']. by rewrite Hx'. }
    pose proof (Sort_perm (Ports l) port_less) as Hp.
    pose proof (Sort_sorted (Ports l) port_less Hn (port_less_orders _ Hok)) as Hs.
    destruct (Sort (Ports l) port_less) as [|x sorted] eqn:E.
    { exfalso. apply Permutation_nil_l in Hp. by rewrite El in Hp. }
    exists (x :: sorted). split; [done|]. split; [done|]. intros y [= <-].
    split; [rewrite <- Hp; set_solver|]. intros z Hz. rewrite <- Hp in Hz.
    apply elem_of_cons in Hz as [->|Hz]; [by split|].
    inversion Hs as [|? ? _ Hall]; subst. rewrite Forall_forall in Hall. specialize (Hall z Hz).
    unfold port_less in Hall. apply orb_false_iff in Hall as [L%Z.ltb_ge T]. split; [done|].
    intros Eq Ht. rewrite Eq, Z.eqb_refl, Ht in T. done.
Qed.

(** The environment a parent gets for a link: the URL of the default port
    (the lowest exposed one, tcp first), four variables for every exposed
    port, the name of the link, and the variables of the child's own
    environment except [HOME] and [PATH] -- and except every variable whose
    value holds a [=], which are dropped. *)
Theorem ToEnv_spec l : ports_ok (Ports l) ->
  exists l' ports env, ToEnv l = Return (l', env) /\ l' = with_ports l ports /\ ports ≡ₚ Ports l /\
    env = (match head ports with
           | Some p => [env_alias l +:+ "_PORT=" +:+ Proto p +:+ "://" +:+ ChildIP l +:+ ":" +:+ Port_ p]
           | None => []
           end) ++ mjoin (port_vars (env_alias l) (ChildIP l) <$> ports) ++ [env_alias l +:+ "_NAME=" +:+ Name l]
           ++ mjoin (child_var (env_alias l) <$> ChildEnvironment l) /\
    (forall p, head ports = Some p -> default_port (Ports l) p) /\
    (forall k x, contains_char "=" k = false -> contains_char "=" x = false -> k <> "HOME" -> k <> "PATH" ->
       k +:+ "=" +:+ x ∈ ChildEnvironment l -> env_alias l +:+ "_ENV_" +:+ k +:+ "=" +:+ x ∈ env) /\
    (forall k x, contains_char "=" k = false -> contains_char "=" x = true ->
       child_var (env_alias l) (k +:+ "=" +:+ x) = []).
Proof.
  intros Hok. destruct (getDefaultPort_spec l Hok) as (ports & Hg & Hp & Hd).
  unfold ToEnv. rewrite Hg. cbn [mbind outcome_bind]. eexists _, ports, _. split; [done|]. split; [done|]. split; [done|].
  change (Ports (with_ports l ports)) with ports. change (ChildIP (with_ports l ports)) with (ChildIP l).
  change (Name (with_ports l ports)) with (Name l).
  change (ChildEnvironment (with_ports l ports)) with (ChildEnvironment l).
  rewrite !foldl_append, <- !(assoc_L (++)).
  assert (forall k x, contains_char "=" k = false -> split "=" (k +:+ "=" +:+ x) = k :: split "=" x) as Hs.
  { intros k x Hk. change ("=" +:+ x) with (String "=" x). by apply split_app. }
  split; [done|]. split; [done|]. split.
  - intros k x Hk Hx H1 H2 Hin. rewrite !elem_of_app. do 3 right.
    apply list_elem_of_join. exists (child_var (env_alias l) (k +:+ "=" +:+ x)). split.
    + unfold child_var. rewrite Hs, (split_no_sep _ x) by done.
      apply String.eqb_neq in H1, H2. rewrite H1, H2. set_solver.
    + apply list_elem_of_fmap. by eexists.
  - intros k x Hk Hx. unfold child_var. rewrite Hs by done.
    destruct (split2_spec "=" x) as [[Hcx _]|(a & b & -> & Ha & _)]; [by rewrite Hx in Hcx|].
    rewrite split_app by done. destruct (split "=" b) as [|y r] eqn:E; [by apply split_ne in E|done].
Qed.
End EnvSpec.

Definition demo_link : Link :=
  NewLink "172.17.0.2" "172.17.0.3" "/web/my-db" ["A=1"; "OPTS=-x=2"; "HOME=/"] ["6379/tcp"; "80/udp"; "80/tcp"].

Lemma ToEnv_spec_witness :
  exists l' env, ToEnv demo_link = Return (l', env) /\ "MY_DB_ENV_A=1" ∈ env /\
    head env = Some "MY_DB_PORT=tcp://172.17.0.3:80".
Proof.
  assert (ports_ok (Ports demo_link)) as Hok.
  { split; [|split].
    - apply (bool_decide_unpack _). by vm_compute.
    - repeat constructor; eexists; vm_compute; reflexivity.
    - intros p q Hp Hq. cbn in Hp, Hq. repeat (apply elem_of_cons in Hp as [->|Hp]); try by apply elem_of_nil in Hp.
      all: repeat (apply elem_of_cons in Hq as [->|Hq]); try by apply elem_of_nil in Hq.
      all: by vm_compute. }
  destruct (ToEnv_spec demo_link Hok) as (l' & ports & env & H & _ & _ & _ & _ & Hin & _).
  exists l', env. split; [exact H|]. split.
  - apply (Hin "A" "1"); [reflexivity|reflexivity|discriminate|discriminate|]. left.
  - assert (Return (l', env) = ToEnv demo_link) as E by (symmetry; exact H). vm_compute in E. injection E as -> ->. reflexivity.
Defined.

(** ** Enabling a link on the bridge *)

Section OnBridge.
Context {W : Type} (exec : list string -> W -> W * (string * option string)) (found supportsXlock : bool).
Context (rules : W -> gmultiset (list string)) `{!IptablesLaws exec supportsXlock rules}.

(** The two rules of a port. *)
Definition link_spec (iface parentIP childIP : string) (p : Port) : gmultiset (list string) :=
  {[+ rule [] "FORWARD" (drop 2 (link_rule "" iface (Proto p) parentIP "--dport" (Port_ p) childIP)) +]} ⊎
  {[+ rule [] "FORWARD" (drop 2 (link_rule "" iface (Proto p) childIP "--sport" (Port_ p) parentIP)) +]}.

Definition link_rules (iface : string) (l : Link) : gmultiset (list string) :=
  foldr (fun p m => link_spec iface (ParentIP l) (ChildIP l) p ⊎ m) ∅ (Ports l).

Lemma toggle_rule_add iface proto src f port dst w w' e :
  let r := rule [] "FORWARD" (drop 2 (link_rule "" iface proto src f port dst)) in
  toggle_rule exec found supportsXlock false (link_rule "-I" iface proto src f port dst) w = (w', e) ->
  match e with
  | None => found = true /\ rules w' = rules w ⊎ {[+ r +]}
  | Some _ => rules w' = rules w \/ rules w' = rules w ⊎ {[+ r +]}
  end.
Proof.
  intros r. unfold toggle_rule, Raw. destruct found; [|intros [= <- <-]; by left].
  cbn [negb]. rewrite wait_args. destruct (exec _ w) as [w1 [out [er|]]] eqn:E.
  - apply exec_failed in E. intros [= <- <-]. by left.
  - eapply (exec_add [] "-I") in E; [|by left|by right]. destruct (String.eqb _ ""); intros [= <- <-]; [done|by right].
Qed.

Lemma toggle_rule_delete iface proto src f port dst w : found = true ->
  let r := rule [] "FORWARD" (drop 2 (link_rule "" iface proto src f port dst)) in r ∈ rules w ->
  exists w', toggle_rule exec found supportsXlock true (link_rule "-D" iface proto src f port dst) w = (w', None) /\
    rules w' = rules w ∖ {[+ r +]}.
Proof.
  intros -> r Hin. unfold toggle_rule, Raw. cbn [negb]. rewrite wait_args.
  destruct (exec_delete [] "FORWARD" (drop 2 (link_rule "" iface proto src f port dst)) w (or_introl eq_refl) Hin)
    as (w' & E & Hw). cbn [app] in E.
  change (link_rule "-D" iface proto src f port dst) with ("-D" :: "FORWARD" :: drop 2 (link_rule "" iface proto src f port dst)).
  rewrite E. by exists w'.
Qed.

Lemma split_port p : split "/" (Port_ p +:+ "/" +:+ Proto p) = [Port_ p; Proto p].
Proof.
  assert (contains_char "/" (Port_ p) = false /\ contains_char "/" (Proto p) = false) as [H1 H2].
  { unfold Port_, Proto. pose proof (split_pieces "/" p) as H. destruct (split "/" p) as [|a [|b r]]; [done| |].
    - by inversion H.
    - inversion H as [|? ? Ha Hr]; subst. by inversion Hr. }
  change ("/" +:+ Proto p) with (String "/" (Proto p)). rewrite split_app by done. by rewrite split_no_sep.
Qed.

Definition job_ports (ports : list Port) : list string := (fun p => Port_ p +:+ "/" +:+ Proto p) <$> ports.

Definition specs (iface parentIP childIP : string) (ports : list Port) : gmultiset (list string) :=
  foldr (fun p m => link_spec iface parentIP childIP p ⊎ m) ∅ ports.

Lemma link_ports_add iface childIP parentIP ports w : exists w' e,
  link_ports exec found supportsXlock "-I" iface childIP parentIP false (job_ports ports) w = Return (w', e) /\
  match e with
  | None => (ports = [] \/ found = true) /\ rules w' = rules w ⊎ specs iface parentIP childIP ports
  | Some _ => exists part, part ⊆ specs iface parentIP childIP ports /\ rules w' = rules w ⊎ part
  end.
Proof.
  revert w. induction ports as [|p ports IH]; intros w.
  { exists w, None. split; [done|]. split; [by left|]. cbn. multiset_solver. }
  cbn [job_ports fmap list_fmap link_ports]. rewrite split_port.
  cbn [specs foldr]. fold (specs iface parentIP childIP ports). unfold link_spec.
  destruct (toggle_rule _ _ _ _ _ w) as [w1 e1] eqn:E1. apply toggle_rule_add in E1. destruct e1 as [e1|].
  { exists w1, (Some e1). split; [done|]. destruct E1 as [E1|E1].
    - exists ∅. split; [multiset_solver|]. rewrite E1. multiset_solver.
    - eexists. split; [|exact E1]. multiset_solver. }
  destruct E1 as [Hf E1]. destruct (toggle_rule _ _ _ _ _ w1) as [w2 e2] eqn:E2. apply toggle_rule_add in E2. destruct e2 as [e2|].
  { exists w2, (Some e2). split; [done|]. destruct E2 as [E2|E2].
    - eexists. split; [|by rewrite E2, E1]. multiset_solver.
    - eexists. split; [|by rewrite E2, E1, <- (assoc_L (⊎))]. multiset_solver. }
  destruct E2 as [_ E2]. destruct (IH w2) as (w3 & e3 & H3 & H4). exists w3, e3. split; [exact H3|].
  destruct e3 as [e3|].
  - destruct H4 as (part & Hpart & ->). rewrite E2, E1. eexists. split; [|by rewrite <- !(assoc_L (⊎))]. multiset_solver.
  - destruct H4 as [_ ->]. split; [by right|]. rewrite E2, E1. multiset_solver.
Qed.

Lemma link_ports_delete iface childIP parentIP ports w : found = true -> specs iface parentIP childIP ports ⊆ rules w ->
  exists w', link_ports exec found supportsXlock "-D" iface childIP parentIP true (job_ports ports) w = Return (w', None) /\
    rules w' = rules w ∖ specs iface parentIP childIP ports.
Proof.
  intros Hf. revert w. induction ports as [|p ports IH]; intros w Hin.
  { exists w. split; [done|]. cbn. multiset_solver. }
  cbn [specs foldr] in Hin. fold (specs iface parentIP childIP ports) in Hin. unfold link_spec in Hin.
  cbn [job_ports fmap list_fmap link_ports]. rewrite split_port.
  destruct (toggle_rule_delete iface (Proto p) parentIP "--dport" (Port_ p) childIP w Hf) as (w1 & -> & E1); [multiset_solver|].
  destruct (toggle_rule_delete iface (Proto p) childIP "--sport" (Port_ p) parentIP w1 Hf) as (w2 & -> & E2).
  { rewrite E1. multiset_solver. }
  destruct (IH w2) as (w3 & H3 & E3); [rewrite E2, E1; multiset_solver|].
  exists w3. split; [exact H3|]. rewrite E3, E2, E1. cbn [specs foldr]. fold (specs iface parentIP childIP ports).
  unfold link_spec. multiset_solver.
Qed.

Definition bridge_link_job (args : list string) (env : Env) (ports : list string) (s : Driver W) :=
  LinkContainers exec found supportsXlock args env ports s.
End OnBridge.

Section EnableDisable.
Context {W : Type} (exec : list string -> W -> W * (string * option string)) (found supportsXlock : bool).
Context (rules : W -> gmultiset (list string)) `{!IptablesLaws exec supportsXlock rules}.

(** Links on the bridge driver: a link that is enabled has two iptables
    rules for each of its ports, one per direction, and disabling it takes
    out exactly those; enabling that fails keeps the link disabled but may
    leave some of its rules behind. *)
Theorem Enable_Disable (l : Link) (s : Driver W) :
  let job := bridge_link_job exec found supportsXlock in
  let all := specs (bridgeIface s) (ParentIP l) (ChildIP l) (Ports l) in
  exists s1 l1 e, Enable job l s = Return (s1, l1, e) /\ bridgeIface s1 = bridgeIface s /\
    match e with
    | None => IsEnabled l1 = true /\ rules (kernel (mapper s1)) = rules (kernel (mapper s)) ⊎ all /\
        exists s2, Disable job l1 s1 = Return (s2, with_enabled l1 false) /\
          rules (kernel (mapper s2)) = rules (kernel (mapper s))
    | Some _ => l1 = l /\ exists part, part ⊆ all /\ rules (kernel (mapper s1)) = rules (kernel (mapper s)) ⊎ part
    end.
Proof.
  intros job all. unfold Enable, toggle. fold (job_ports (Ports l)).
  set (env := SetBool _ "IgnoreErrors" false).
  assert (Env.Get env "ChildIP" = ChildIP l /\ Env.Get env "ParentIP" = ParentIP l /\ GetBool env "IgnoreErrors" = false)
    as (G1 & G2 & G3).
  { unfold env, SetBool, GetBool. rewrite !Get_Set by done.
    split_and!; repeat first [rewrite decide_True by done | rewrite decide_False by done]; done. }
  destruct (link_ports_add exec found supportsXlock rules (bridgeIface s) (ChildIP l) (ParentIP l) (Ports l) (kernel (mapper s)))
    as (w1 & e1 & H1 & H2).
  unfold job at 1, bridge_link_job, LinkContainers. cbn [head or_panic mbind outcome_bind]. rewrite G1, G2, G3, H1.
  cbn [mbind outcome_bind]. destruct e1 as [e1|].
  { eexists _, _, _. split; [done|]. split; [done|]. split; [done|]. exact H2. }
  destruct H2 as [Hf H2]. eexists _, _, _. split; [done|]. split; [done|]. split; [done|]. split; [exact H2|].
  unfold Disable, toggle. fold (job_ports (Ports (with_enabled l true))). change (Ports (with_enabled l true)) with (Ports l).
  change (ParentIP (with_enabled l true)) with (ParentIP l). change (ChildIP (with_enabled l true)) with (ChildIP l).
  set (env2 := SetBool _ "IgnoreErrors" true).
  assert (Env.Get env2 "ChildIP" = ChildIP l /\ Env.Get env2 "ParentIP" = ParentIP l /\ GetBool env2 "IgnoreErrors" = true)
    as (K1 & K2 & K3).
  { unfold env2, SetBool, GetBool. rewrite !Get_Set by done.
    split_and!; repeat first [rewrite decide_True by done | rewrite decide_False by done]; done. }
  unfold job, bridge_link_job, LinkContainers. cbn [head or_panic mbind outcome_bind]. rewrite K1, K2, K3.
  cbn [bridgeIface with_mapper mapper kernel with_kernel].
  destruct Hf as [Hnil|Hf].
  - rewrite Hnil in *. cbn [job_ports fmap list_fmap link_ports mbind outcome_bind]. eexists. split; [done|]. cbn.
    rewrite H2. cbn. multiset_solver.
  - destruct (link_ports_delete exec found supportsXlock rules (bridgeIface s) (ChildIP l) (ParentIP l) (Ports l) w1 Hf)
      as (w2 & -> & E2); [rewrite H2; multiset_solver|].
    cbn [mbind outcome_bind]. eexists. split; [done|]. cbn [kernel mapper with_mapper with_kernel]. rewrite E2, H2.
    multiset_solver.
Qed.
End EnableDisable.

Definition example_link : Link := NewLink "172.17.0.2" "172.17.0.3" "/web/db" [] ["80/tcp"; "53/udp"].

Lemma Enable_Disable_witness :
  exists s1 l1 s2, Enable (bridge_link_job toy_exec true false) example_link example_driver = Return (s1, l1, None) /\
    IsEnabled l1 = true /\ size (kernel (mapper s1)) = 4%nat /\
    Disable (bridge_link_job toy_exec true false) l1 s1 = Return (s2, with_enabled l1 false) /\ kernel (mapper s2) = ∅.
Proof.
  destruct (Enable_Disable toy_exec true false id example_link example_driver) as (s1 & l1 & e & H1 & _ & H2).
  assert (match Enable (bridge_link_job toy_exec true false) example_link example_driver with
          | Return (s1, _, e) => e = None /\ size (kernel (mapper s1)) = 4%nat | _ => False end) as H3
    by (vm_compute; split; reflexivity).
  rewrite H1 in H3. destruct H3 as [-> H3]. destruct H2 as (H4 & _ & s2 & H5 & H6).
  exists s1, l1, s2. split; [exact H1|]. split; [exact H4|]. split; [exact H3|]. split; [exact H5|exact H6].
Defined.
