(* ===== verification/GraphDB.v ===== *)
(** * pkg/graphdb: the database of container names

    The two tables of the sqlite database: [entity] is the set of identifiers,
    [edge] the rows with a parent under their unique index (parent_id, name),
    and [root_edges] the rows whose parent is NULL, which that index does not
    constrain.  Foreign keys are off, sqlite's default.  A statement that
    violates a constraint fails with sqlite's text, an argument of the model;
    I/O errors of the database are not modelled.  Rows come in the order
    of the class [QueryOrder]: any order. *)

From stdpp Require Import base gmap list strings.
From Stdlib Require Import ZArith Lia Ascii Sorting.
From S2P Require Import Prelude GoStrings GoPath GoSort.

Local Open Scope Z_scope.

(** ** Paths *)

(** Depth, the number of slashes of a path. *)
Definition PathDepth (p : string) : nat :=
  match split "/" p with
  | [a; b] => if String.eqb b "" then 1%nat else 2%nat
  | parts => length parts
  end.

Definition splitPath (p : string) : outcome (string * string) :=
  match p with
  | EmptyString => Panic
  | String c _ =>
      let p := if Ascii.eqb c "/" then p else "/" +:+ p in
      let '(parent, name) := Split p in
      let l := String.length parent in
      match String.get (l - 1) parent with
      | Some d => Return (if Ascii.eqb d "/" then take_str (l - 1) parent else parent, name)
      | None => Panic
      end
  end.

(** ** The tables *)

Record Edge := { EntityID : string; EdgeName : string; ParentID : string }.

Record Database := {
  entity : gset string;
  edge : gmap (string * string) string;
  root_edges : list (string * string) }.

Definition with_entity (db : Database) (e : gset string) : Database :=
  {| entity := e; edge := edge db; root_edges := root_edges db |}.
Definition with_edge (db : Database) (e : gmap (string * string) string) : Database :=
  {| entity := entity db; edge := e; root_edges := root_edges db |}.

Definition empty_tables : Database := {| entity := ∅; edge := ∅; root_edges := [] |}.

Class QueryOrder := {
  order : forall A : Type, list A -> list A;
  order_perm : forall A (l : list A), order A l ≡ₚ l }.

Definition IsNonUniqueNameError (str : string) : bool :=
  if has_suffix "name are not unique" str then true
  else if contains "UNIQUE constraint failed" str && contains "edge.name" str then true
  else has_suffix "constraint failed" str.

Definition RootEntity : string := "0".

Section Database.
(** What sqlite reports for a duplicate key of each table. *)
Context (entity_exists edge_exists : string).

(** The connection with the tables it holds, [empty_tables] when there are
    none; the transaction that adds the root is rolled back on an error. *)
Definition NewDatabase (conn : option Database) (init : bool) : result string Database :=
  match conn with
  | None => Err "Database connection cannot be nil"
  | Some db =>
      if init then
        if decide ("0" ∈ entity db) then Err entity_exists
        else Ok {| entity := {["0"]} ∪ entity db; edge := edge db; root_edges := root_edges db ++ [("0", "/")] |}
      else Ok db
  end.

Definition child (db : Database) (parent name : string) : option string := edge db !! (parent, name).

Fixpoint get_loop (db : Database) (e : string) (parts : list string) : option string :=
  match parts with
  | [] => Some e
  | p :: parts =>
      if String.eqb p "" then get_loop db e parts
      else match child db e p with Some next => get_loop db next parts | None => None end
  end.

Definition get (db : Database) (name : string) : result string string :=
  if String.eqb name "/" then Ok RootEntity
  else match get_loop db RootEntity (tail (split "/" name)) with
       | Some e => Ok e
       | None => Err ("Cannot find child for " +:+ name)
       end.

Definition Get (db : Database) (name : string) : option string :=
  match get db name with Ok e => Some e | Err _ => None end.

Definition Exists (db : Database) (name : string) : bool :=
  match get db name with Ok _ => true | Err _ => false end.

Definition setEdge (db : Database) (parentPath name e : string) : result string Database :=
  parent ← get db parentPath;
  if String.eqb parent e then Err "Cannot set self as child"
  else match edge db !! (parent, name) with
       | Some _ => Err edge_exists
       | None => Ok (with_edge db (<[(parent, name) := e]> (edge db)))
       end.

Definition Set_ (db : Database) (fullPath id : string) : outcome (Database * result string string) :=
  let db1 := if decide (id ∈ entity db) then db else with_entity db ({[id]} ∪ entity db) in
  '(parentPath, name) ← splitPath fullPath;
  match setEdge db1 parentPath name id with
  | Ok db2 => Return (db2, Ok id)
  | Err e => Return (db, Err e)
  end.

Definition Delete (db : Database) (name : string) : outcome (Database * option string) :=
  if String.eqb name "/" then Return (db, Some "Cannot delete root entity")
  else
    '(parentPath, n) ← splitPath name;
    match get db parentPath with
    | Err e => Return (db, Some e)
    | Ok parent => Return (with_edge db (delete (parent, n) (edge db)), None)
    end.

Definition refs_edges (db : Database) (id : string) : list (string * string) :=
  fst <$> List.filter (fun r => String.eqb (snd r) id) (map_to_list (edge db)).
Definition refs_root (db : Database) (id : string) : list (string * string) :=
  List.filter (fun r => String.eqb (fst r) id) (root_edges db).

Definition Refs (db : Database) (id : string) : nat :=
  (length (refs_edges db id) + length (refs_root db id))%nat.

(** Both deletions and the number of edges the first one took. *)
Definition Purge (db : Database) (id : string) : Database * nat :=
  ({| entity := entity db ∖ {[id]};
      edge := filter (fun r => snd r <> id) (edge db);
      root_edges := List.filter (fun r => negb (String.eqb (fst r) id)) (root_edges db) |},
   Refs db id).

Definition Rename (db : Database) (currentName newName : string) : outcome (Database * option string) :=
  '(parentPath, name) ← splitPath currentName;
  '(newParentPath, newEdgeName) ← splitPath newName;
  if negb (String.eqb parentPath newParentPath) then
    Return (db, Some ("Cannot rename when root paths do not match " +:+ parentPath +:+ " != " +:+ newParentPath))
  else match get db parentPath with
  | Err e => Return (db, Some e)
  | Ok parent =>
      match edge db !! (parent, name) with
      | None => Return (db, Some ("Cannot locate edge for " +:+ parent +:+ " " +:+ name))
      | Some id =>
          if negb (String.eqb name newEdgeName) && bool_decide (is_Some (edge db !! (parent, newEdgeName)))
          then Return (db, Some edge_exists)
          else Return (with_edge db (<[(parent, newEdgeName) := id]> (delete (parent, name) (edge db))), None)
      end
  end.

(** ** Walking the graph *)

Record WalkMeta := { Parent : string; Entity : string; FullPath : string; Edge_ : Edge }.

Context `{!QueryOrder}.

(** A row whose parent is NULL does not scan into a string: the list ends
    there. *)
Fixpoint scan_refs (id : string) (rows : list (string * option string)) : list Edge :=
  match rows with
  | (name, Some parentId) :: rows =>
      {| EntityID := id; EdgeName := name; ParentID := parentId |} :: scan_refs id rows
  | _ => []
  end.

Definition RefPaths (db : Database) (id : string) : list Edge :=
  scan_refs id (order _ (((fun r => (snd r, Some (fst r))) <$> refs_edges db id) ++
                         ((fun r => (snd r, None)) <$> refs_root db id))).

(** [SELECT entity_id, name FROM edge where parent_id = ?] *)
Definition child_rows (db : Database) (e : string) : list (string * string) :=
  order _ ((fun r => (snd r, snd (fst r))) <$>
           List.filter (fun r => String.eqb (fst (fst r)) e) (map_to_list (edge db))).

Definition next_depth (depth : Z) : Z := if depth =? -1 then depth else int64 (depth - 1).

Fixpoint children (fuel : nat) (db : Database) (e name : string) (depth : Z) (entities : list WalkMeta) :
    outcome (list WalkMeta) :=
  match fuel with
  | O => OutOfFuel
  | S fuel =>
      foldl (fun acc row =>
        entities ← acc;
        let meta := {| Parent := e; Entity := fst row; FullPath := Join [name; snd row];
                       Edge_ := {| ParentID := e; EdgeName := snd row; EntityID := fst row |} |} in
        let entities := entities ++ [meta] in
        if negb (depth =? 0) then children fuel db (fst row) (FullPath meta) (next_depth depth) entities
        else Return entities) (Return entities) (child_rows db e)
  end.

Definition Children (fuel : nat) (db : Database) (name : string) (depth : Z) : outcome (result string (list WalkMeta)) :=
  match get db name with
  | Err e => Return (Err e)
  | Ok e => Ok <$> children fuel db e name depth []
  end.

Definition List_ (fuel : nat) (db : Database) (name : string) (depth : Z) : outcome (gmap string string) :=
  match get db name with
  | Err _ => Return ∅
  | Ok e => c ← children fuel db e name depth [];
            Return (foldl (fun out m => <[FullPath m := Entity m]> out) ∅ c)
  end.

(** [walkFunc] acts on a state of its own, the database included. *)
Definition Walk {S : Type} (fuel : nat) (db : Database) (name : string)
    (walkFunc : string -> string -> S -> S * option string) (depth : Z) (s : S) : outcome (S * option string) :=
  c ← Children fuel db name depth;
  match c with
  | Err e => Return (s, Some e)
  | Ok l => Return (foldl (fun st m => match st with
                                       | (s, None) => walkFunc (FullPath m) (Entity m) s
                                       | _ => st end) (s, None) l)
  end.

Context `{!GoSort}.

(** The keys in the order of the map, then sorted. *)
Definition Paths (e : gmap string string) : list string :=
  Sort (order _ (fst <$> map_to_list e)) (fun i j => (PathDepth j <? PathDepth i)%nat).
End Database.

(** ** The operations on concrete input *)

#[export] Instance stored_order : QueryOrder := {| order := fun A l => l; order_perm := fun A l => Permutation_refl l |}.

Definition example_graph : Database :=
  {| entity := {["0"; "1"; "2"; "4"]};
     edge := list_to_map [(("0", "webapp"), "1"); (("0", "db"), "2"); (("0", "logs"), "4"); (("2", "logs"), "4"); (("1", "db"), "2")];
     root_edges := [("0", "/")] |}.

Example get_test :
  (Get example_graph "/webapp/db/logs", Get example_graph "/webapp//db/", Get example_graph "webapp", Get example_graph "/x", Get example_graph "/") =
  (Some "4", Some "2", Some "0", None, Some "0").
Proof. vm_compute. reflexivity. Qed.

Example splitPath_test :
  (splitPath "/webapp", splitPath "/a/b", splitPath "a/b", splitPath "/a/", splitPath "/", splitPath "") =
  (Return ("", "webapp"), Return ("/a", "b"), Return ("/a", "b"), Return ("/a", ""), Return ("", ""), Panic).
Proof. vm_compute. reflexivity. Qed.

Example PathDepth_test : (PathDepth "/", PathDepth "/a", PathDepth "/a/b", PathDepth "") = (1, 2, 3, 1)%nat.
Proof. reflexivity. Qed.

Example Paths_test :
  match List_ 5 example_graph "/" (-1) with Return e => Paths e | _ => [] end =
  ["/webapp/db/logs"; "/webapp/db"; "/db/logs"; "/webapp"; "/logs"; "/db"].
Proof. vm_compute. reflexivity. Qed.

(** ** Names and paths *)

(** Following edges, one per name. *)
Fixpoint resolve (db : Database) (e : string) (ns : list string) : option string :=
  match ns with
  | [] => Some e
  | n :: ns => match child db e n with Some e' => resolve db e' ns | None => None end
  end.

Lemma resolve_app db e ns ms :
  resolve db e (ns ++ ms) = (e' ← resolve db e ns; resolve db e' ms).
Proof. revert e. induction ns as [|n ns IH]; intros e; [done|]. simpl. destruct (child db e n); [apply IH|done]. Qed.

Lemma resolve_snoc db e ns n : resolve db e (ns ++ [n]) = (e' ← resolve db e ns; child db e' n).
Proof. rewrite resolve_app. destruct (resolve db e ns) as [e'|]; [|done]. simpl. by destruct (child db e' n). Qed.

Lemma resolve_mono db db' e ns x : edge db ⊆ edge db' -> resolve db e ns = Some x -> resolve db' e ns = Some x.
Proof.
  intros Hs. revert e. induction ns as [|n ns IH]; intros e H; [done|]. simpl in *. unfold child in *.
  destruct (edge db !! (e, n)) as [e'|] eqn:E; [|done]. rewrite (lookup_weaken _ _ _ _ E Hs). by apply IH.
Qed.

Lemma get_loop_resolve db e ns : Forall good_name ns -> get_loop db e ns = resolve db e ns.
Proof.
  intros H. revert e. induction H as [|n ns [_ Hn] _ IH]; intros e; [done|]. simpl.
  destruct (String.eqb_spec n ""); [done|]. destruct (child db e n); [apply IH|done].
Qed.

Lemma get_abs db ns : Forall good_name ns ->
  get db (abs_path ns) =
  match resolve db "0" ns with Some e => Ok e | None => Err ("Cannot find child for " +:+ abs_path ns) end.
Proof.
  intros H. unfold get. destruct ns as [|n ns]; [done|].
  destruct (String.eqb_spec (abs_path (n :: ns)) "/") as [E|_].
  - pose proof (split_abs_path _ H) as Hs. rewrite E in Hs. inversion Hs; subst. inversion H as [|? ? [_ ?]]; done.
  - rewrite split_abs_path by done. cbn [tail]. by rewrite get_loop_resolve.
Qed.

Lemma Get_abs db ns : Forall good_name ns -> Get db (abs_path ns) = resolve db "0" ns.
Proof. intros H. unfold Get. rewrite get_abs by done. by destruct (resolve db "0" ns). Qed.

(** What [splitPath] leaves of the directory of a path. *)
Definition parent_path (ns : list string) : string := match ns with [] => "" | _ => abs_path ns end.

Lemma get_parent_path db ns : Forall good_name ns -> get db (parent_path ns) = get db (abs_path ns).
Proof. by destruct ns. Qed.

Lemma splitPath_abs ns n : contains_char "/" n = false -> splitPath (abs_path (ns ++ [n])) = Return (parent_path ns, n).
Proof.
  intros Hn. assert (abs_path (ns ++ [n]) = parent_path ns +:+ String "/" n) as E.
  { destruct ns as [|m ns]; [done|]. unfold abs_path, parent_path. rewrite join_snoc by done. reflexivity. }
  assert (exists r, abs_path (ns ++ [n]) = String "/" r) as [r Er] by (by eexists).
  unfold splitPath. rewrite Er. cbv iota. rewrite <- Er, E.
  assert (Ascii.eqb "/" "/" = true) as -> by done. cbv zeta iota.
  rewrite Split_app by done. cbv iota zeta. rewrite string_length_app. cbn [String.length].
  replace (String.length (parent_path ns) + 1 - 1)%nat with (String.length (parent_path ns)) by lia.
  rewrite get_app_mid. assert (Ascii.eqb "/" "/" = true) as -> by done. by rewrite take_app_str.
Qed.

(** ** Setting, deleting and renaming *)

Section Operations.
Context (edge_exists : string).

Lemma Set_abs db ns n id :
  Forall good_name ns -> good_name n ->
  let p := abs_path (ns ++ [n]) in
  match resolve db "0" ns with
  | Some pid =>
      if decide (pid = id) then Set_ edge_exists db p id = Return (db, Err "Cannot set self as child")
      else match edge db !! (pid, n) with
      | Some _ => Set_ edge_exists db p id = Return (db, Err edge_exists)
      | None => exists db', Set_ edge_exists db p id = Return (db', Ok id) /\
          edge db' = <[(pid, n) := id]> (edge db) /\ entity db' = {[id]} ∪ entity db /\ root_edges db' = root_edges db
      end
  | None => exists e, Set_ edge_exists db p id = Return (db, Err e)
  end.
Proof.
  intros Hns [Hn Hn'] p. unfold Set_. unfold p. rewrite splitPath_abs by done. cbn [mbind outcome_bind].
  set (db1 := if decide (id ∈ entity db) then db else with_entity db ({[id]} ∪ entity db)).
  assert (edge db1 = edge db /\ entity db1 = {[id]} ∪ entity db /\ root_edges db1 = root_edges db) as (He & Hent & Hr).
  { unfold db1. destruct (decide (id ∈ entity db)); [|done]. split; [done|]. split; [set_solver|done]. }
  assert (forall e ms, resolve db1 e ms = resolve db e ms) as Hres.
  { intros e ms. revert e. induction ms as [|m ms IH]; intros e; [done|]. simpl. unfold child. rewrite He.
    destruct (edge db !! (e, m)); [apply IH|done]. }
  clearbody db1. unfold setEdge. rewrite get_parent_path, get_abs, Hres by done.
  destruct (resolve db "0" ns) as [pid|]; cbn [mbind result_bind]; [|by eexists].
  destruct (String.eqb_spec pid id) as [->|Hne]; [by rewrite decide_True|]. rewrite decide_False by done. rewrite He.
  destruct (edge db !! (pid, n)); [done|]. eexists. split; [done|]. cbn. by rewrite Hent, Hr.
Qed.

Lemma Delete_abs db ns n pid : Forall good_name ns -> good_name n -> resolve db "0" ns = Some pid ->
  Delete db (abs_path (ns ++ [n])) = Return (with_edge db (delete (pid, n) (edge db)), None).
Proof.
  intros Hns [Hn Hn'] Hr. unfold Delete.
  assert (Forall good_name (ns ++ [n])) as Hg by (apply Forall_app; split; [done|by constructor]).
  destruct (String.eqb_spec (abs_path (ns ++ [n])) "/") as [E|_].
  - exfalso. pose proof (split_abs_path _ Hg) as Hs. rewrite E in Hs. destruct (ns ++ [n]) as [|m l] eqn:El; [by destruct ns|].
    inversion Hs; subst. inversion Hg as [|? ? [_ ?]]; done.
  - rewrite splitPath_abs by done. cbn [mbind outcome_bind]. rewrite get_parent_path, get_abs by done. by rewrite Hr.
Qed.

Lemma resolve_insert db db' ns n pid id :
  edge db !! (pid, n) = None -> edge db' = <[(pid, n) := id]> (edge db) -> resolve db "0" ns = Some pid ->
  resolve db' "0" (ns ++ [n]) = Some id.
Proof.
  intros Hn He Hp. rewrite resolve_snoc, (resolve_mono db db' _ ns pid).
  - simpl. unfold child. by rewrite He, lookup_insert_eq.
  - rewrite He. by apply insert_subseteq.
  - done.
Qed.

(** Naming an entity: for an absolute path of proper names, [Set] either
    changes nothing and fails - exactly when the parent does not resolve, is
    the entity itself, or has that name already, the last with sqlite's own
    error - or makes the path resolve to the entity, which is then known,
    while every path that resolved before still gives what it gave. *)
Theorem Set_Get (db : Database) (ns : list string) (n id : string) :
  Forall good_name ns -> good_name n ->
  let p := abs_path (ns ++ [n]) in
  exists db' r, Set_ edge_exists db p id = Return (db', r) /\
    match r with
    | Ok e => e = id /\ Get db' p = Some id /\ id ∈ entity db' /\ entity db ⊆ entity db' /\ Get db p = None /\
        (forall ms e, Forall good_name ms -> Get db (abs_path ms) = Some e -> Get db' (abs_path ms) = Some e)
    | Err e => db' = db /\
        (Get db (abs_path ns) = None \/ Get db (abs_path ns) = Some id \/
         (e = edge_exists /\ exists other, Get db p = Some other))
    end.
Proof.
  intros Hns Hn p. pose proof (Set_abs db ns n id Hns Hn) as H. fold p in H.
  assert (Forall good_name (ns ++ [n])) as Hp by (apply Forall_app; split; [done|by constructor]).
  assert (Get db p = e' ← resolve db "0" ns; child db e' n) as Eg by (unfold p; by rewrite Get_abs, resolve_snoc).
  destruct (resolve db "0" ns) as [pid|] eqn:Er.
  2: { destruct H as [e H]. exists db, (Err e). split; [exact H|]. split; [done|]. left. by rewrite Get_abs. }
  assert (Get db (abs_path ns) = Some pid) as Epid by by rewrite Get_abs.
  cbn [mbind option_bind] in Eg. unfold child in Eg. destruct (decide (pid = id)) as [->|Hne].
  { eexists _, _. split; [exact H|]. split; [done|]. by right; left. }
  destruct (edge db !! (pid, n)) as [o|] eqn:Eo.
  { eexists _, _. split; [exact H|]. split; [done|]. right; right. split; [done|]. by exists o. }
  destruct H as (db' & H & He & Hent & _). exists db', (Ok id). split; [exact H|]. split; [done|].
  split; [unfold p; rewrite Get_abs by done; by eapply resolve_insert|].
  split; [rewrite Hent; set_solver|]. split; [rewrite Hent; set_solver|]. split; [done|].
  intros ms e Hms. rewrite !Get_abs by done. apply resolve_mono. rewrite He. by apply insert_subseteq.
Qed.
End Operations.

Lemma Set_Get_witness :
  good_name "sentry" /\ exists db', Set_ "UNIQUE constraint failed: edge.parent_id, edge.name" example_graph "/webapp/sentry" "3" = Return (db', Ok "3") /\
    Get db' "/webapp/sentry" = Some "3" /\ Get db' "/webapp/db/logs" = Some "4".
Proof.
  assert (good_name "sentry" /\ Forall good_name ["webapp"; "db"; "logs"]) as [H1 H2].
  { split; [done|]. by repeat constructor. }
  assert (Forall good_name ["webapp"]) as H3 by by repeat constructor.
  split; [exact H1|].
  destruct (Set_Get "UNIQUE constraint failed: edge.parent_id, edge.name" example_graph ["webapp"] "sentry" "3" H3 H1) as (db' & r & E & H).
  assert (match Set_ "UNIQUE constraint failed: edge.parent_id, edge.name" example_graph "/webapp/sentry" "3" with
          | Return (_, r) => r = Ok "3" | _ => False end) as Hr by (vm_compute; reflexivity).
  change (abs_path (["webapp"] ++ ["sentry"])) with "/webapp/sentry" in *. rewrite E in Hr. subst r.
  exists db'. split; [exact E|]. destruct H as (_ & Hg & _ & _ & _ & Hm). split; [exact Hg|].
  apply (Hm ["webapp"; "db"; "logs"] "4" H2). vm_compute. reflexivity.
Defined.

(** ** Walking: what [children] returns, and when *)

Section Walking.
Context {rows_in_any_order : QueryOrder}.

Definition child_of (db : Database) (c e : string) : Prop := exists n, child db e n = Some c.

Lemma child_rows_spec db e id n : (id, n) ∈ child_rows db e <-> child db e n = Some id.
Proof.
  unfold child_rows. rewrite order_perm, list_elem_of_fmap. unfold child. split.
  - intros ([[p m] i] & Em & Hf). simpl in Em. injection Em as -> ->. apply list_elem_of_In, List.filter_In in Hf as [Hin E]. simpl in E.
    apply String.eqb_eq in E as ->. by apply list_elem_of_In, elem_of_map_to_list in Hin.
  - intros H. exists ((e, n), id). split; [done|]. apply list_elem_of_In, List.filter_In. simpl. rewrite String.eqb_refl.
    split; [|done]. by apply list_elem_of_In, elem_of_map_to_list.
Qed.

Lemma child_rows_NoDup db e : NoDup (snd <$> child_rows db e).
Proof.
  unfold child_rows. rewrite order_perm. rewrite <- list_fmap_compose.
  pose proof (NoDup_fst_map_to_list (edge db)) as H. revert H. generalize (map_to_list (edge db)). intros l.
  induction l as [|[[p m] i] l IH]; intros H; [constructor|]. cbn [fmap list_fmap fst] in H. apply NoDup_cons in H as [Hx H].
  cbn [List.filter fst snd]. destruct (String.eqb_spec p e) as [->|]; [|by apply IH]. cbn [fmap list_fmap].
  apply NoDup_cons. split; [|by apply IH]. intros ([[p' m'] i'] & Em & Hf)%list_elem_of_fmap. apply list_elem_of_In, List.filter_In in Hf as [H' E]. simpl in *.
  apply String.eqb_eq in E as ->. subst m'. apply Hx, list_elem_of_fmap. exists ((e, m), i'). split; [done|]. by apply list_elem_of_In.
Qed.

(** The entry for the path [ns] below [e], which is called [name]. *)
Fixpoint meta_at (db : Database) (e name : string) (ns : list string) : WalkMeta :=
  match ns with
  | [] => {| Parent := e; Entity := e; FullPath := name; Edge_ := {| EntityID := e; EdgeName := ""; ParentID := e |} |}
  | n :: ms =>
      let id := default "" (child db e n) in
      match ms with
      | [] => {| Parent := e; Entity := id; FullPath := Join [name; n]; Edge_ := {| EntityID := id; EdgeName := n; ParentID := e |} |}
      | _ => meta_at db id (Join [name; n]) ms
      end
  end.

Definition within (depth : Z) (ns : list string) : Prop := depth = -1 \/ Z.of_nat (length ns) <= depth + 1.

(** The walk as a loop over the rows. *)
Definition visit (fuel : nat) (db : Database) (e name : string) (depth : Z) (entities : list WalkMeta) (row : string * string) :=
  let path := Join [name; snd row] in
  let meta := {| Parent := e; Entity := fst row; FullPath := path;
                 Edge_ := {| EntityID := fst row; EdgeName := snd row; ParentID := e |} |} in
  if negb (depth =? 0) then children fuel db (fst row) path (next_depth depth) (entities ++ [meta])
  else Return (entities ++ [meta]).

Lemma foldl_outcome_stuck {A B} (f : A -> B -> outcome A) (m : outcome A) l :
  (forall a, m <> Return a) -> foldl (fun acc x => a ← acc; f a x) m l = m.
Proof. intros H. induction l as [|x l IH]; [done|]. simpl. destruct m as [a| |]; [by destruct (H a)|done|done]. Qed.

Lemma foldl_outcome_cons {A B} (f : A -> B -> outcome A) a x l :
  foldl (fun acc x => a ← acc; f a x) (Return a) (x :: l) =
  (a' ← f a x; foldl (fun acc x => a ← acc; f a x) (Return a') l).
Proof. simpl. destruct (f a x); simpl; [done| |]; by apply foldl_outcome_stuck. Qed.

Lemma children_S fuel db e name depth acc :
  children (S fuel) db e name depth acc =
  foldl (fun acc x => a ← acc; visit fuel db e name depth a x) (Return acc) (child_rows db e).
Proof. done. Qed.

Lemma meta_at_cons db e name n ns c : child db e n = Some c -> ns <> [] -> meta_at db e name (n :: ns) = meta_at db c (Join [name; n]) ns.
Proof. intros H Hn. simpl. rewrite H. by destruct ns. Qed.

Lemma next_depth_ok depth : -1 <= depth < 2 ^ 63 -> depth <> 0 ->
  -1 <= next_depth depth < 2 ^ 63 /\ (forall n ns, within (next_depth depth) ns <-> within depth (n :: ns)).
Proof.
  intros H H0. unfold next_depth, within. destruct (Z.eqb_spec depth (-1)) as [->|Hd].
  - split; [done|]. intros n ns. split; by left.
  - assert (int64 (depth - 1) = depth - 1) as ->.
    { unfold wrapS. rewrite Z.mod_small; lia. }
    split; [lia|]. intros n ns. cbn [length]. lia.
Qed.
(** The entries [l] are those of the paths that [P] selects, each path once. *)
Definition entries (db : Database) (e name : string) (P : list string -> Prop) (l : list WalkMeta) : Prop :=
  exists ps, NoDup ps /\ (forall ns, ns ∈ ps <-> P ns) /\ l = meta_at db e name <$> ps.

Lemma entries_app db e name (P Q R : list string -> Prop) l k :
  entries db e name P l -> entries db e name Q k -> (forall ns, P ns -> Q ns -> False) ->
  (forall ns, R ns <-> P ns \/ Q ns) -> entries db e name R (l ++ k).
Proof.
  intros (ps & Np & Hp & ->) (qs & Nq & Hq & ->) Hd HR. exists (ps ++ qs). split; [|split].
  - apply NoDup_app. split; [done|]. split; [|done]. intros ns H1%Hp H2%Hq. by eapply Hd.
  - intros ns. rewrite elem_of_app, Hp, Hq. by rewrite HR.
  - by rewrite fmap_app.
Qed.

Lemma entries_ext db e name (P Q : list string -> Prop) l :
  (forall ns, P ns <-> Q ns) -> entries db e name P l -> entries db e name Q l.
Proof. intros H (ps & ? & Hp & ?). exists ps. split; [done|]. split; [|done]. intros ns. by rewrite Hp. Qed.

Lemma entries_cons db e name n c (P : list string -> Prop) l :
  child db e n = Some c -> (forall ns, P ns -> ns <> []) -> entries db c (Join [name; n]) P l ->
  entries db e name (fun ns => exists ms, ns = n :: ms /\ P ms) l.
Proof.
  intros Hc HP (ps & Np & Hp & ->). exists (cons n <$> ps). split; [|split].
  - apply NoDup_fmap; [|done]. by intros x y [= ->].
  - intros ns. rewrite list_elem_of_fmap. split.
    + intros (ms & -> & ?%Hp). by exists ms.
    + intros (ms & -> & ?%Hp). by exists ms.
  - rewrite <- list_fmap_compose. apply list_fmap_ext. intros i ns Hi. simpl. symmetry. apply (meta_at_cons db e name n ns c Hc).
    apply HP, Hp. by eapply list_elem_of_lookup_2.
Qed.

Definition content (db : Database) (e : string) (depth : Z) (ns : list string) : Prop :=
  ns <> [] /\ within depth ns /\ is_Some (resolve db e ns).

Lemma within_one depth n : -1 <= depth -> within depth [n].
Proof. unfold within. cbn [length]. lia. Qed.

Lemma entries_one db e name n id : child db e n = Some id ->
  entries db e name (eq [n]) [{| Parent := e; Entity := id; FullPath := Join [name; n];
                                 Edge_ := {| EntityID := id; EdgeName := n; ParentID := e |} |}].
Proof.
  intros Hc. exists [[n]]. split; [apply NoDup_singleton|]. split; [intros ns; rewrite list_elem_of_singleton; done|].
  simpl. by rewrite Hc.
Qed.

Lemma visit_content fuel db e name depth acc id n l :
  (forall e name depth acc l, -1 <= depth < 2 ^ 63 -> children fuel db e name depth acc = Return l ->
     exists k, l = acc ++ k /\ entries db e name (content db e depth) k) ->
  -1 <= depth < 2 ^ 63 -> child db e n = Some id -> visit fuel db e name depth acc (id, n) = Return l ->
  exists k, l = acc ++ k /\ entries db e name (fun ns => head ns = Some n /\ content db e depth ns) k.
Proof.
  intros IH Hd Hc. unfold visit. cbn [fst snd].
  assert (forall ms, is_Some (resolve db id ms) <-> is_Some (resolve db e (n :: ms))) as Hr by (intros ms; simpl; by rewrite Hc).
  destruct (Z.eqb_spec depth 0) as [->|H0]; cbn [negb].
  - intros [= <-]. eexists. split; [done|]. eapply entries_ext; [|by apply entries_one]. intros ns. cbv beta. split.
    + intros <-. split; [done|]. split; [done|]. split; [by apply within_one|]. simpl. by rewrite Hc.
    + intros [Hh (_ & [Hw|Hw] & _)]; [done|]. destruct ns as [|n' [|]]; simpl in *; [done| |lia]. by injection Hh as ->.
  - destruct (next_depth_ok depth Hd H0) as [Hd' Hw]. intros H. apply IH in H as (k & -> & Hk); [|done].
    eexists. split; [by rewrite <- app_assoc|].
    eapply entries_app; [by apply entries_one|eapply entries_cons; [exact Hc| |exact Hk]; by intros ns (?&?&?)| |].
    + intros ns <- (ms & [= <-] & Hm & _). done.
    + intros ns. split.
      * intros (Hh & _ & H1 & H2). destruct ns as [|n' ms]; [done|]. injection Hh as ->. destruct ms as [|m ms]; [by left|right].
        exists (m :: ms). split; [done|]. split; [done|]. split; [by apply (Hw n)|]. by apply Hr.
      * intros [<-|(ms & -> & H1 & H2 & H3)].
        { split; [done|]. split; [done|]. split; [apply within_one; lia|]. simpl. by rewrite Hc. }
        split; [done|]. split; [done|]. split; [by apply Hw|]. by apply Hr.
Qed.

Lemma children_content db fuel : forall e name depth acc l,
  -1 <= depth < 2 ^ 63 -> children fuel db e name depth acc = Return l ->
  exists k, l = acc ++ k /\ entries db e name (content db e depth) k.
Proof.
  induction fuel as [|fuel IH]; intros e name depth acc l Hd; [done|]. rewrite children_S.
  assert (forall rows acc l, NoDup (snd <$> rows) -> (forall id n, (id, n) ∈ rows -> child db e n = Some id) ->
    foldl (fun acc x => a ← acc; visit fuel db e name depth a x) (Return acc) rows = Return l ->
    exists k, l = acc ++ k /\
      entries db e name (fun ns => exists n, n ∈ snd <$> rows /\ head ns = Some n /\ content db e depth ns) k) as Hrows.
  { clear acc l. intros rows. induction rows as [|[id n] rows IHr]; intros acc l Hn Hc H.
    - injection H as <-. exists []. split; [by rewrite app_nil_r|]. exists []. split; [constructor|]. split; [|done].
      intros ns. split; [by intros ?%not_elem_of_nil|]. intros (n & ?%not_elem_of_nil & _). done.
    - rewrite foldl_outcome_cons in H. destruct (visit fuel db e name depth acc (id, n)) as [acc1| |] eqn:Ev; try done.
      cbn [mbind outcome_bind] in H. cbn [fmap list_fmap snd] in Hn. apply NoDup_cons in Hn as [Hx Hn].
      apply visit_content in Ev as (k1 & -> & Hk1); [|done|done|apply Hc; by left].
      apply IHr in H as (k2 & -> & Hk2); [|done|intros i m Hin; apply Hc; by right].
      exists (k1 ++ k2). split; [by rewrite app_assoc|]. eapply entries_app; [exact Hk1|exact Hk2| |].
      + intros ns [E1 _] (m & Hm & E2 & _). rewrite E1 in E2. injection E2 as <-. done.
      + intros ns. cbn [fmap list_fmap snd]. setoid_rewrite elem_of_cons. naive_solver. }
  intros H. apply Hrows in H as (k & -> & Hk); [|apply child_rows_NoDup|by intros id n ?%child_rows_spec].
  exists k. split; [done|]. eapply entries_ext; [|exact Hk]. intros ns. split; [by intros (n & _ & _ & ?)|].
  intros Hcont. destruct ns as [|n ms]; [by destruct Hcont|]. exists n. split; [|done].
  destruct Hcont as (_ & _ & Hs). simpl in Hs. destruct (child db e n) as [c|] eqn:Ec; [|by destruct Hs].
  apply list_elem_of_fmap. exists (c, n). split; [done|]. by apply child_rows_spec.
Qed.
(** When a walk ends within [fuel] levels. *)
Fixpoint ends (fuel : nat) (db : Database) (e : string) (depth : Z) : Prop :=
  match fuel with
  | O => False
  | S fuel => forall c n, child db e n = Some c -> depth = 0 \/ ends fuel db c (next_depth depth)
  end.

Definition returned {A} (r : outcome A) (P : Prop) : Prop :=
  match r with Return _ => P | Panic => False | OutOfFuel => ~ P end.

Lemma returned_ext {A} (r : outcome A) (P Q : Prop) : (P <-> Q) -> returned r P -> returned r Q.
Proof. destruct r; simpl; tauto. Qed.

Lemma children_returned db fuel : forall e name depth acc, returned (children fuel db e name depth acc) (ends fuel db e depth).
Proof.
  induction fuel as [|fuel IH]; intros e name depth acc; [by intros ?|]. rewrite children_S.
  assert (forall rows acc, returned (foldl (fun acc x => a ← acc; visit fuel db e name depth a x) (Return acc) rows)
    (forall row, row ∈ rows -> depth = 0 \/ ends fuel db (fst row) (next_depth depth))) as Hrows.
  { clear acc. induction rows as [|[c n] rows IHr]; intros acc; [by intros ? ?%not_elem_of_nil|].
    rewrite foldl_outcome_cons.
    assert (returned (visit fuel db e name depth acc (c, n)) (depth = 0 \/ ends fuel db c (next_depth depth))) as Hv.
    { unfold visit. destruct (Z.eqb_spec depth 0) as [->|H0]; cbn [negb]; [by left|]. eapply returned_ext; [|apply IH]. tauto. }
    destruct (visit fuel db e name depth acc (c, n)) as [acc1| |]; cbn [mbind outcome_bind returned] in *; [|done|].
    - eapply returned_ext; [|apply IHr]. setoid_rewrite elem_of_cons. naive_solver.
    - intros Hall. apply Hv. apply (Hall (c, n)). by left. }
  eapply returned_ext; [|apply Hrows]. cbn [ends]. split.
  - intros Hr c n Hc. apply (Hr (c, n)). by apply child_rows_spec.
  - intros He [c n] Hin. apply child_rows_spec in Hin. by apply (He c n).
Qed.

Lemma children_ends fuel db e name depth acc :
  ends fuel db e depth <-> exists l, children fuel db e name depth acc = Return l.
Proof.
  pose proof (children_returned db fuel e name depth acc) as H.
  destruct (children fuel db e name depth acc) as [l| |]; simpl in H; [|done|].
  - split; [by exists l|done].
  - split; [done|by intros [l ?]].
Qed.

Lemma ends_mono db fuel fuel' e depth : (fuel <= fuel')%nat -> ends fuel db e depth -> ends fuel' db e depth.
Proof.
  revert fuel' e depth. induction fuel as [|fuel IH]; intros [|fuel'] e depth Hle; try done; [lia|].
  intros H c n Hc. destruct (H c n Hc) as [?|?]; [by left|right]. apply IH; [lia|done].
Qed.

Lemma ends_bounded db fuel e depth : 0 <= depth < 2 ^ 63 -> depth < Z.of_nat fuel -> ends fuel db e depth.
Proof.
  revert e depth. induction fuel as [|fuel IH]; intros e depth Hd Hf; [lia|]. intros c n _.
  destruct (decide (depth = 0)) as [|H0]; [by left|right]. apply IH; unfold next_depth;
    (destruct (Z.eqb_spec depth (-1)); [lia|]); unfold wrapS; rewrite Z.mod_small; lia.
Qed.

(** Finitely many rows: one fuel that is enough for all of them. *)
Lemma ends_rows db (rows : list (string * string)) depth :
  (forall c n, (c, n) ∈ rows -> exists fuel, ends fuel db c depth) ->
  exists fuel, forall c n, (c, n) ∈ rows -> ends fuel db c depth.
Proof.
  induction rows as [|[c n] rows IH]; intros H; [exists O; by intros ? ? ?%not_elem_of_nil|].
  destruct IH as [f1 H1]; [intros c' n' ?; apply (H c' n'); by right|].
  destruct (H c n) as [f2 H2]; [by left|]. exists (f1 + f2)%nat.
  intros c' n' [[= -> ->]|Hin]%elem_of_cons; [apply (ends_mono _ f2); [lia|done]|].
  apply (ends_mono _ f1); [lia|by eapply H1].
Qed.

Lemma ends_unbounded db e : (exists fuel, ends fuel db e (-1)) <-> Acc (child_of db) e.
Proof.
  split.
  - intros [fuel H]. revert e H. induction fuel as [|fuel IH]; intros e H; [done|]. constructor. intros c [n Hc].
    destruct (H c n Hc) as [?|?]; [done|by apply IH].
  - intros H. induction H as [e _ IH]. destruct (ends_rows db (child_rows db e) (-1)) as [f Hf].
    { intros c n Hin. apply IH. exists n. by apply child_rows_spec. }
    exists (S f). intros c n Hc. right. apply (Hf c n). by apply child_rows_spec.
Qed.

(** C13. Walking the graph, [children] as [List], [Walk] and [Children] call
    it: with a depth of zero or more, a walk returns within one level more
    than the depth; with the depth -1 it returns exactly when no chain of
    edges below the entity is endless; and what it returns is one entry per
    path of at most depth + 1 edges (any number for -1) that leads from the
    entity to another, each path once, under its joined name. *)
Theorem children_correct (db : Database) (e name : string) (depth : Z) (acc : list WalkMeta) :
  -1 <= depth < 2 ^ 63 ->
  (forall fuel, 0 <= depth < Z.of_nat fuel -> exists l, children fuel db e name depth acc = Return l) /\
  (depth = -1 -> (exists fuel l, children fuel db e name depth acc = Return l) <-> Acc (child_of db) e) /\
  (forall fuel l, children fuel db e name depth acc = Return l ->
     exists ps, NoDup ps /\ l = acc ++ (meta_at db e name <$> ps) /\
       forall ns, ns ∈ ps <-> ns <> [] /\ (depth = -1 \/ Z.of_nat (length ns) <= depth + 1) /\ is_Some (resolve db e ns)).
Proof.
  intros Hd. split; [|split].
  - intros fuel Hf. apply children_ends, ends_bounded; lia.
  - intros ->. rewrite <- ends_unbounded. setoid_rewrite <- children_ends. done.
  - intros fuel l Hl. destruct (children_content db fuel e name depth acc l Hd Hl) as (k & -> & ps & Hn & Hp & ->).
    exists ps. split; [done|]. split; [done|exact Hp].
Qed.

(** The path of an entry's edges leads to the entry's entity. *)
Lemma meta_at_entity db ns : ns <> [] -> forall e name x, resolve db e ns = Some x -> Entity (meta_at db e name ns) = x.
Proof.
  induction ns as [|n ns IH]; [done|]. intros _ e name x Hr. simpl in *. destruct (child db e n) as [c|] eqn:Hc; [|done]. simpl.
  destruct ns as [|m ns]; [by injection Hr|]. by apply IH.
Qed.

(** A cycle keeps every walk below it without a bound from returning. *)
Lemma cycle_not_Acc db a b : child_of db a b -> child_of db b a -> ~ Acc (child_of db) a.
Proof.
  intros H1 H2 Ha. assert (forall x, Acc (child_of db) x -> x = a \/ x = b -> False) as H; [|by eapply H; eauto].
  intros x Hx. induction Hx as [x _ IH]. intros [->| ->]; [apply (IH b)|apply (IH a)]; auto.
Qed.
End Walking.

Lemma children_correct_witness :
  exists l, children 4 example_graph "0" "/" (-1) [] = Return l /\
    exists ps, NoDup ps /\ l = [] ++ (meta_at example_graph "0" "/" <$> ps) /\
      forall ns, ns ∈ ps <-> ns <> [] /\ (-1 = -1 \/ Z.of_nat (length ns) <= -1 + 1) /\ is_Some (resolve example_graph "0" ns).
Proof.
  assert (-1 <= -1 < 2 ^ 63) as Hd by lia.
  destruct (children_correct example_graph "0" "/" (-1) [] Hd) as (_ & _ & H).
  assert (exists l, children 4 example_graph "0" "/" (-1) [] = Return l) as [l Hl] by (eexists; vm_compute; reflexivity).
  exists l. split; [exact Hl|]. exact (H 4%nat l Hl).
Defined.

(** ** Sequences of operations *)

Inductive graph_op :=
| OpSet (fullPath id : string)
| OpDelete (name : string)
| OpPurge (id : string)
| OpRename (currentName newName : string).

Definition apply_op (edge_exists : string) (db : Database) (o : graph_op) : outcome Database :=
  match o with
  | OpSet p id => fst <$> Set_ edge_exists db p id
  | OpDelete p => fst <$> Delete db p
  | OpPurge id => Return (fst (Purge db id))
  | OpRename p q => fst <$> Rename edge_exists db p q
  end.

Fixpoint run_ops (edge_exists : string) (db : Database) (l : list graph_op) : outcome Database :=
  match l with
  | [] => Return db
  | o :: l => db ← apply_op edge_exists db o; run_ops edge_exists db l
  end.

(** Every edge leads to a known entity other than its parent, under a name
    without a slash. *)
Definition graph_ok (db : Database) : Prop :=
  forall p n id, edge db !! (p, n) = Some id -> id ∈ entity db /\ p <> id /\ contains_char "/" n = false.

Lemma splitPath_name p q n : splitPath p = Return (q, n) -> contains_char "/" n = false.
Proof.
  unfold splitPath. destruct p as [|c p]; [done|]. generalize (if Ascii.eqb c "/" then String c p else "/" +:+ String c p). intros s.
  pose proof (Split_name s) as Hs. destruct (Split s) as [a b]. simpl in *. destruct (String.get _ a); [|done]. by intros [= _ <-].
Qed.

Lemma setEdge_ok m db p n id db' : graph_ok db -> id ∈ entity db -> contains_char "/" n = false ->
  setEdge m db p n id = Ok db' -> graph_ok db'.
Proof.
  intros Hok Hid Hn H. unfold setEdge in H. apply bind_ok in H as (par & _ & H).
  destruct (String.eqb_spec par id) as [|Hne]; [done|]. destruct (edge db !! (par, n)); [done|]. injection H as <-.
  intros q k c. cbn [edge with_edge entity]. intros [[[= -> ->] ->]|[_ H]]%lookup_insert_Some; [done|by apply Hok in H].
Qed.

Lemma apply_op_ok m db o db' : graph_ok db -> apply_op m db o = Return db' -> graph_ok db'.
Proof.
  intros Hok. destruct o as [p id|p|id|p q]; simpl.
  - unfold Set_. destruct (splitPath p) as [[par n]| |] eqn:Es; try done. cbn [mbind outcome_bind].
    set (db1 := if decide (id ∈ entity db) then db else with_entity db ({[id]} ∪ entity db)).
    assert (graph_ok db1 /\ id ∈ entity db1) as [H1 H2].
    { unfold db1. destruct (decide (id ∈ entity db)); [done|]. split; [|set_solver].
      intros a b c Hc. destruct (Hok a b c Hc) as (? & ? & ?). split; [|done]. cbn. set_solver. }
    destruct (setEdge m db1 par n id) as [d|e] eqn:E; intros [= <-]; [|done]. eapply setEdge_ok; eauto. by eapply splitPath_name.
  - unfold Delete. destruct (String.eqb p "/"); [by intros [= <-]|]. destruct (splitPath p) as [[par n]| |]; try done.
    cbn [mbind outcome_bind]. destruct (get db par) as [q|]; intros [= <-]; [|done].
    intros a b c. cbn [edge with_edge entity]. intros [_ H]%lookup_delete_Some. by apply Hok in H.
  - intros [= <-] a b c. cbn [Purge fst edge entity]. intros [H Hne]%map_lookup_filter_Some. apply Hok in H as (? & ? & ?). split; [|done]. cbn in *. set_solver.
  - unfold Rename. destruct (splitPath p) as [[par n]| |] eqn:Ep; try done. cbn [mbind outcome_bind].
    destruct (splitPath q) as [[par' n']| |] eqn:Eq; try done. cbn [mbind outcome_bind].
    destruct (negb (String.eqb par par')); [by intros [= <-]|]. destruct (get db par) as [e|]; [|by intros [= <-]].
    destruct (edge db !! (e, n)) as [id|] eqn:En; [|by intros [= <-]].
    destruct (_ && _); intros [= <-]; [done|]. apply Hok in En as (H1 & H2 & H3).
    intros a b c. cbn [edge with_edge entity]. intros [[[= <- <-] <-]|[_ [_ H]%lookup_delete_Some]]%lookup_insert_Some.
    + split; [done|]. split; [done|]. by eapply splitPath_name.
    + by apply Hok in H.
Qed.

Lemma get_loop_known db parts : graph_ok db -> forall e x, get_loop db e parts = Some x -> x = e \/ x ∈ entity db.
Proof.
  intros Hok. induction parts as [|p parts IH]; intros e x; simpl; [intros [= ->]; by left|].
  destruct (String.eqb p ""); [apply IH|]. destruct (child db e p) as [c|] eqn:Hc; [|done].
  intros [->|?]%IH; right; [|done]. by apply Hok in Hc as [? _].
Qed.

Lemma run_ops_ok m ops : forall db db', graph_ok db -> run_ops m db ops = Return db' -> graph_ok db'.
Proof.
  induction ops as [|o ops IH]; intros db db' H0 Hrun; [by injection Hrun as <-|]. simpl in Hrun.
  apply outcome_bind_return in Hrun as (d1 & H1 & Hrun). eapply IH; [|exact Hrun]. by eapply apply_op_ok.
Qed.

Lemma NewDatabase_ok m db : NewDatabase m (Some empty_tables) true = Ok db -> graph_ok db.
Proof. unfold NewDatabase. destruct (decide _); [done|]. intros [= <-] ????. done. Qed.

(** C14. The state of the database: whatever sequence of [Set], [Delete],
    [Purge] and [Rename] runs on a new database, with whatever arguments,
    every edge leads to an entity of the entity table, never from an entity to
    itself, under a name without a slash; so a path resolves to the root or to
    a known entity. *)
Theorem graph_invariant (entity_exists edge_exists : string) (ops : list graph_op) (db0 db : Database) :
  NewDatabase entity_exists (Some empty_tables) true = Ok db0 -> run_ops edge_exists db0 ops = Return db ->
  (forall p n id, edge db !! (p, n) = Some id -> id ∈ entity db /\ p <> id /\ contains_char "/" n = false) /\
  (forall path e, Get db path = Some e -> e = "0" \/ e ∈ entity db).
Proof.
  intros H0 Hrun. assert (graph_ok db) as Hok by (eapply run_ops_ok; [by eapply NewDatabase_ok|exact Hrun]).
  split; [exact Hok|]. intros path e. unfold Get, get. destruct (String.eqb path "/"); [intros [= <-]; by left|].
  destruct (get_loop db RootEntity (tail (split "/" path))) as [x|] eqn:E; [|done]. intros [= <-].
  by apply get_loop_known in E as [->|?]; [left|right|].
Qed.

Definition example_ops : list graph_op :=
  [OpSet "/a" "1"; OpSet "/b" "2"; OpSet "/a/b" "2"; OpSet "/c/" "1"; OpRename "/b" "/d"; OpDelete "/x"; OpPurge "1"].

Lemma graph_invariant_witness :
  exists db, run_ops "constraint failed" {| entity := {["0"]} ∪ ∅; edge := ∅; root_edges := [] ++ [("0", "/")] |} example_ops = Return db /\
    Get db "/d" = Some "2" /\ ("2" = "0" \/ "2" ∈ entity db).
Proof.
  set (db0 := {| entity := {["0"]} ∪ ∅; edge := ∅; root_edges := [] ++ [("0", "/")] |}).
  assert (exists db, run_ops "constraint failed" db0 example_ops = Return db /\ Get db "/d" = Some "2") as (db & H & Hg)
    by (eexists; split; vm_compute; reflexivity).
  exists db. split; [exact H|]. split; [exact Hg|].
  destruct (graph_invariant "" "constraint failed" example_ops db0 db eq_refl H) as [_ H2]. exact (H2 "/d" "2" Hg).
Defined.

(** ** Purging *)

Lemma resolve_filter db db' e ns x : edge db' ⊆ edge db -> resolve db' e ns = Some x -> resolve db e ns = Some x.
Proof. intros H. by apply resolve_mono. Qed.

Lemma Purge_subset db id : edge (fst (Purge db id)) ⊆ edge db.
Proof. apply map_filter_subseteq. Qed.

Lemma Purge_edge db id p n c : edge (fst (Purge db id)) !! (p, n) = Some c <-> edge db !! (p, n) = Some c /\ c <> id.
Proof. apply map_lookup_filter_Some. Qed.

Lemma resolve_not_purged db id ns : ns <> [] -> resolve (fst (Purge db id)) "0" ns <> Some id.
Proof.
  destruct ns as [|n ns _] using rev_ind; [done|]. intros _. rewrite resolve_snoc. unfold child.
  destruct (resolve _ "0" ns) as [p|]; [|done]. simpl. intros [_ ?]%Purge_edge. done.
Qed.

Lemma Refs_purged db id : Refs (fst (Purge db id)) id = 0%nat.
Proof.
  unfold Refs, refs_edges, refs_root. cbn [Purge fst edge root_edges]. rewrite length_fmap.
  assert (forall {A} (p : A -> bool) l, (forall x, x ∈ l -> p x = false) -> length (List.filter p l) = 0%nat) as Hnone.
  { intros A p l H. induction l as [|x l IH]; [done|]. simpl. rewrite (H x) by (by left). apply IH. intros y ?. apply H. by right. }
  rewrite !Hnone; [done| |].
  - intros [e n] Hin%list_elem_of_In%List.filter_In. destruct Hin as [_ E]. by apply negb_true_iff in E.
  - intros [[p n] c] Hin%elem_of_map_to_list%map_lookup_filter_Some. destruct Hin as [_ Hne]. by apply String.eqb_neq.
Qed.

Section PurgeSpec.
Context {rows_in_any_order : QueryOrder} (edge_exists : string).

(** Purging an entity: [Purge] counts the edges to it, forgets it, and
    leaves no edge to it, so no path but the root's own resolves to it; no
    path resolves to anything else than before, and every edge to another
    entity stays.  The latter holds for the edges below the entity as well:
    an entity that is named again with the same identifier has its old
    children back. *)
Theorem Purge_spec (db : Database) (id : string) :
  let db' := fst (Purge db id) in
  snd (Purge db id) = Refs db id /\ Refs db' id = 0%nat /\ RefPaths db' id = [] /\ (id ∉ entity db') /\
  (forall ns, Forall good_name ns -> ns <> [] -> Get db' (abs_path ns) <> Some id) /\
  (forall ns e, Forall good_name ns -> Get db' (abs_path ns) = Some e -> Get db (abs_path ns) = Some e) /\
  (forall p n c, c <> id -> edge db !! (p, n) = Some c -> edge db' !! (p, n) = Some c) /\
  (forall ns n m c db2, Forall good_name ns -> good_name n -> good_name m -> c <> id -> edge db !! (id, m) = Some c ->
     Set_ edge_exists db' (abs_path (ns ++ [n])) id = Return (db2, Ok id) ->
     Get db2 (abs_path (ns ++ [n; m])) = Some c).
Proof.
  intros db'. split; [done|]. pose proof (Refs_purged db id) as H0. split; [exact H0|]. split.
  { unfold Refs in H0. unfold db', RefPaths. set (l := order _ _).
    assert (l = []) as ->; [|done]. apply Permutation_nil_r. unfold l. rewrite order_perm.
    destruct (refs_edges _ id); [|done]. destruct (refs_root _ id); done. }
  split; [cbn; set_solver|].
  split; [intros ns Hns Hne; rewrite Get_abs by done; by apply resolve_not_purged|].
  split; [intros ns e Hns; rewrite !Get_abs by done; apply resolve_filter, Purge_subset|].
  split; [intros p n c Hc H; by apply Purge_edge|].
  intros ns n m c db2 Hns Hn Hm Hc He H2. pose proof (Set_abs edge_exists db' ns n id Hns Hn) as Hs.
  destruct (resolve db' "0" ns) as [pid|] eqn:Ep; [|destruct Hs as [e Hs]; by rewrite Hs in H2].
  destruct (decide (pid = id)); [by rewrite Hs in H2|]. destruct (edge db' !! (pid, n)) eqn:En; [by rewrite Hs in H2|].
  destruct Hs as (d & Hs & Hd & _). rewrite Hs in H2. injection H2 as ->.
  rewrite Get_abs by (apply Forall_app; split; [done|]; constructor; [done|]; constructor; [done|apply List.Forall_nil]).
  change [n; m] with ([n] ++ [m]). rewrite app_assoc, resolve_snoc, (resolve_insert db' db2 ns n pid id) by done.
  simpl. unfold child. rewrite Hd, lookup_insert_ne by congruence. by apply Purge_edge.
Qed.
End PurgeSpec.

Lemma Purge_spec_witness :
  exists db2, Set_ "" (fst (Purge example_graph "1")) "/again" "1" = Return (db2, Ok "1") /\
    Get (fst (Purge example_graph "1")) "/webapp" <> Some "1" /\ Get db2 "/again/db" = Some "2".
Proof.
  assert (good_name "again" /\ good_name "db" /\ Forall good_name ["webapp"]) as (G1 & G2 & G3).
  { split; [done|]. split; [done|]. by repeat constructor. }
  destruct (Purge_spec "" example_graph "1") as (_ & _ & _ & _ & H1 & _ & _ & H2).
  assert (exists db2, Set_ "" (fst (Purge example_graph "1")) "/again" "1" = Return (db2, Ok "1")) as [db2 E]
    by (eexists; vm_compute; reflexivity).
  exists db2. split; [exact E|]. split; [apply (H1 ["webapp"] G3); discriminate|].
  apply (H2 [] "again" "db" "2" db2 (List.Forall_nil _) G1 G2); [discriminate|vm_compute; reflexivity|exact E].
Defined.

(** ** A cycle through Set *)

Lemma List_hangs {order_of_rows : QueryOrder} db a b : child_of db a "0" -> child_of db a b -> child_of db b a ->
  forall fuel, List_ fuel db "/" (-1) = OutOfFuel.
Proof.
  intros H0 Hab Hba fuel. unfold List_. change (get db "/") with (@Ok string string "0"). cbv iota.
  pose proof (children_returned db fuel "0" "/" (-1) []) as H.
  destruct (children fuel db "0" "/" (-1) []) as [l| |]; [exfalso|done|done]. cbn [returned] in H.
  assert (Acc (child_of db) "0") as Ha by (apply ends_unbounded; by exists fuel).
  apply (cycle_not_Acc db a b Hab Hba). by apply (Acc_inv Ha).
Qed.

Definition cycle_ops : list graph_op := [OpSet "/a" "1"; OpSet "/b" "2"; OpSet "/a/b" "2"; OpSet "/b/a" "1"].

(** [Set] refuses an entity as its own child only: two containers linked to
    each other are accepted, and from then on no walk of the database without
    a bound on the depth returns, whatever the order of the rows. *)
Theorem Set_cycle_hangs (order_of_rows : QueryOrder) (edge_exists : string) :
  exists db0 db, NewDatabase "" (Some empty_tables) true = Ok db0 /\ run_ops edge_exists db0 cycle_ops = Return db /\
    Get db "/a/b/a/b" = Some "2" /\ forall fuel, List_ fuel db "/" (-1) = OutOfFuel.
Proof.
  assert (exists db0, NewDatabase "" (Some empty_tables) true = Ok db0 /\
    exists db, run_ops edge_exists db0 cycle_ops = Return db /\ Get db "/a/b/a/b" = Some "2" /\
      child db "0" "a" = Some "1" /\ child db "1" "b" = Some "2" /\ child db "2" "a" = Some "1") as (db0 & H0 & db & H1 & H2 & H3 & H4 & H5).
  { eexists. split; [vm_compute; reflexivity|]. eexists. split; [vm_compute; reflexivity|]. vm_compute. done. }
  exists db0, db. split; [done|]. split; [done|]. split; [done|].
  apply (List_hangs db "1" "2"); [by exists "a"|by exists "a"|by exists "b"].
Qed.
