(* ===== verification/Names.v ===== *)
(** * daemon: containers, their identifiers, names and links

    [Daemon] holds what daemon/daemon.go keeps of its containers: the store by
    identifier, the index by unique prefix (Tags.v), the graph of names
    (GraphDB.v) and the channels of the containers' states (State.v).  The
    operations register, name, link, find and remove containers.

    The identifier [utils.GenerateRandomID] draws, the names
    [namesgenerator.GetRandomName] draws and the clock are arguments; so are
    the calls that only touch the disk, a process or the graph driver, each by
    what it returns. *)

From stdpp Require Import base gmap list strings.
From Stdlib Require Import ZArith Lia Ascii.
From S2P Require Import Prelude GoStrings GoPath GoSort Env Parsers State Tags RunConfig GraphDB.

Local Open Scope Z_scope.

Record Container := {
  ID : string; Name : string; Image : string; Created : Z; state : State.State;
  Driver : string; Args : list string; Path : string;
  VolumePaths : list string; Binds : list string;
  RestartPolicyName : string; has_daemon : bool }.

Definition with_name (c : Container) (n : string) : Container :=
  {| ID := ID c; Name := n; Image := Image c; Created := Created c; state := state c; Driver := Driver c;
     Args := Args c; Path := Path c; VolumePaths := VolumePaths c; Binds := Binds c; RestartPolicyName := RestartPolicyName c;
     has_daemon := has_daemon c |}.
Definition with_state (c : Container) (s : State.State) : Container :=
  {| ID := ID c; Name := Name c; Image := Image c; Created := Created c; state := s; Driver := Driver c;
     Args := Args c; Path := Path c; VolumePaths := VolumePaths c; Binds := Binds c; RestartPolicyName := RestartPolicyName c;
     has_daemon := has_daemon c |}.
Definition with_daemon (c : Container) : Container :=
  {| ID := ID c; Name := Name c; Image := Image c; Created := Created c; state := state c; Driver := Driver c;
     Args := Args c; Path := Path c; VolumePaths := VolumePaths c; Binds := Binds c; RestartPolicyName := RestartPolicyName c;
     has_daemon := true |}.

Record Daemon (T : Type) := {
  containers : gmap string Container;
  idIndex : TruncIndex T;
  containerGraph : Database;
  chans : Chans }.
Arguments containers {T} _.
Arguments idIndex {T} _.
Arguments containerGraph {T} _.
Arguments chans {T} _.

Definition with_graph {T} (d : Daemon T) (g : Database) : Daemon T :=
  {| containers := containers d; idIndex := idIndex d; containerGraph := g; chans := chans d |}.
Definition with_containers {T} (d : Daemon T) c : Daemon T :=
  {| containers := c; idIndex := idIndex d; containerGraph := containerGraph d; chans := chans d |}.
Definition with_index {T} (d : Daemon T) i : Daemon T :=
  {| containers := containers d; idIndex := i; containerGraph := containerGraph d; chans := chans d |}.
Definition with_chans {T} (d : Daemon T) cs : Daemon T :=
  {| containers := containers d; idIndex := idIndex d; containerGraph := containerGraph d; chans := cs |}.

(** ** Names *)

Definition is_name_char (c : ascii) : bool :=
  let n := nat_of_ascii c in
  (97 <=? n)%nat && (n <=? 122)%nat || (65 <=? n)%nat && (n <=? 90)%nat || (48 <=? n)%nat && (n <=? 57)%nat ||
  Ascii.eqb c "_" || Ascii.eqb c "." || Ascii.eqb c "-".

(** [^/?\[a-zA-Z0-9_.-\]+$] *)
Definition validContainerNamePattern (s : string) : bool :=
  let s := trim_prefix "/" s in negb (String.eqb s "") && forall_str is_name_char s.

(** [if name\[0\] != '/' { name = "/" + name }] *)
Definition slashed (name : string) : outcome string :=
  match name with
  | EmptyString => Panic
  | String c _ => Return (if Ascii.eqb c "/" then name else "/" +:+ name)
  end.

Definition GetFullContainerName (name : string) : result string string :=
  match name with
  | EmptyString => Err "Container name cannot be empty"
  | String c _ => Ok (if Ascii.eqb c "/" then name else "/" +:+ name)
  end.

Definition validateID (id : string) : result string () :=
  if String.eqb id "" then Err "Invalid empty id" else Ok ().

(** [id\[:12\]] panics on a shorter text. *)
Definition generateHostname (id hostname : string) : outcome string :=
  if String.eqb hostname "" then
    if (String.length id <? 12)%nat then Panic else Return (take_str 12 id)
  else Return hostname.

Definition getEntrypointAndArgs (Entrypoint Cmd : list string) : outcome (string * list string) :=
  match Entrypoint with
  | e :: args => Return (e, args ++ Cmd)
  | [] => match Cmd with c :: args => Return (c, args) | [] => Panic end
  end.

Section Daemon.
Context {T : Type} `{Trie T} (edge_exists : string).

(** ** Finding containers *)

Definition GetByName (d : Daemon T) (name : string) : result string Container :=
  fullName ← GetFullContainerName name;
  match Get (containerGraph d) fullName with
  | None => Err ("Could not find entity for " +:+ name)
  | Some id =>
      match containers d !! id with
      | None => Err ("Could not find container for entity id " +:+ id)
      | Some e => Ok e
      end
  end.

Definition Get_container (d : Daemon T) (name : string) : option Container :=
  match Get_id name (idIndex d) with
  | Ok id => containers d !! id
  | Err _ => match GetByName d name with Ok c => Some c | Err _ => None end
  end.

Definition Exists_container (d : Daemon T) (id : string) : bool := bool_decide (is_Some (Get_container d id)).

(** ** Naming containers *)

Definition reserveName (d : Daemon T) (id name : string) : outcome (Daemon T * result string string) :=
  if negb (validContainerNamePattern name) then
    Return (d, Err ("Invalid container name (" +:+ name +:+ "), only [a-zA-Z0-9_.-] are allowed"))
  else
    name ← slashed name;
    '(g, r) ← Set_ edge_exists (containerGraph d) name id;
    let d := with_graph d g in
    match r with
    | Ok _ => Return (d, Ok name)
    | Err err =>
        if negb (IsNonUniqueNameError err) then Return (d, Err err)
        else match GetByName d name with
        | Err err =>
            if contains "Could not find entity" err then Return (d, Err err)
            else
              '(g, r) ← Delete (containerGraph d) name;
              match r with
              | Some err => Return (with_graph d g, Err err)
              | None => Return (with_graph d g, Ok name)
              end
        | Ok conflictingContainer =>
            let known := trim_prefix "/" name in
            Return (d, Err ("Conflict, The name " +:+ known +:+ " is already assigned to " +:+
              TruncateID (ID conflictingContainer) +:+ ". You have to delete (or rename) that container to be able to assign " +:+
              known +:+ " to a container again."))
        end
    end.

(** [tries] draws of a name remain; [GetRandomName i] is [random i]. *)
Fixpoint generateNewName_loop (random : nat -> string) (d : Daemon T) (id : string) (i tries : nat) :
    outcome (Daemon T * result string string) :=
  match tries with
  | O =>
      let name := "/" +:+ TruncateID id in
      '(g, r) ← Set_ edge_exists (containerGraph d) name id;
      Return (with_graph d g, match r with Ok _ => Ok name | Err e => Err e end)
  | S tries =>
      name ← slashed (random i);
      '(g, r) ← Set_ edge_exists (containerGraph d) name id;
      let d := with_graph d g in
      match r with
      | Err err =>
          if negb (IsNonUniqueNameError err) then Return (d, Err err)
          else generateNewName_loop random d id (S i) tries
      | Ok _ => Return (d, Ok name)
      end
  end.

Definition generateNewName (random : nat -> string) (d : Daemon T) (id : string) :=
  generateNewName_loop random d id 0 6.

Definition generateIdAndName (random : nat -> string) (id : string) (d : Daemon T) (name : string) :
    outcome (Daemon T * result string (string * string)) :=
  '(d, r) ← (if String.eqb name "" then generateNewName random d id else reserveName d id name);
  Return (d, match r with Ok name => Ok (id, name) | Err e => Err e end).

(** ** Registering containers *)

Definition ensureName (random : nat -> string) (d : Daemon T) (c : Container) : outcome (Daemon T * result string Container) :=
  if String.eqb (Name c) "" then
    '(d, r) ← generateNewName random d (ID c);
    Return (d, match r with Ok name => Ok (with_name c name) | Err e => Err e end)
  else Return (d, Ok c).

(** A container found running is stopped, with the code -127 when the
    execution driver does not know it any more; [to_disk] is the error of
    saving it then. *)
Definition stop_old (now : Z) (still_running : bool) (to_disk : option string) (c : Container) (cs : Chans) :
    outcome (Container * Chans * option string) :=
  if IsRunning (state c) then
    '(s, cs) ← SetStopped now 0 (state c) cs;
    if negb still_running then
      '(s, cs) ← SetStopped now (-127) s cs;
      Return (with_state c s, cs, to_disk)
    else Return (with_state c s, cs, None)
  else Return (c, cs, None).

(** The container as it is after the call comes with the result: the daemon
    holds a reference to it. *)
Definition register (random : nat -> string) (now : Z) (still_running : bool) (to_disk : option string)
    (d : Daemon T) (c : Container) : outcome (Daemon T * Container * option string) :=
  if has_daemon c || Exists_container d (ID c) then Return (d, c, Some "Container is already loaded")
  else match validateID (ID c) with
  | Err e => Return (d, c, Some e)
  | Ok _ =>
      '(d, r) ← ensureName random d c;
      match r with
      | Err e => Return (d, c, Some e)
      | Ok c =>
          let c := with_daemon c in
          let d := with_index d (fst (Add (ID c) (idIndex d))) in
          '(c, cs, e) ← stop_old now still_running to_disk c (chans d);
          Return (with_chans (with_containers d (<[ID c := c]> (containers d))) cs, c, e)
      end
  end.

(** ** Links *)

Definition RegisterLink (d : Daemon T) (parent child : Container) (alias : string) : outcome (Daemon T * option string) :=
  let fullName := Join [Name parent; alias] in
  if negb (Exists (containerGraph d) fullName) then
    '(g, r) ← Set_ edge_exists (containerGraph d) fullName (ID child);
    Return (with_graph d g, match r with Ok _ => None | Err e => Some e end)
  else Return (d, None).

Fixpoint RegisterLinks_loop (d : Daemon T) (container : Container) (links : list string) : outcome (Daemon T * option string) :=
  match links with
  | [] => Return (d, None)
  | l :: links =>
      match PartParser "name:alias" l with
      | Err e => Return (d, Some e)
      | Ok parts =>
          match GetByName d (default "" (parts !! "name")) with
          | Err e => Return (d, Some e)
          | Ok child =>
              '(d, e) ← RegisterLink d container child (default "" (parts !! "alias"));
              match e with Some e => Return (d, Some e) | None => RegisterLinks_loop d container links end
          end
      end
  end.

(** [Links] of the host configuration, [None] for a nil configuration or
    slice; [write_config] is the error of saving the configuration. *)
Definition RegisterLinks (write_config : option string) (d : Daemon T) (container : Container) (links : option (list string)) :
    outcome (Daemon T * option string) :=
  match links with
  | None => Return (d, None)
  | Some links =>
      '(d, e) ← RegisterLinks_loop d container links;
      Return (d, match e with Some e => Some e | None => write_config end)
  end.

Context `{!QueryOrder}.

(** The callback of [Walk] adds to the map; depth 0 takes one level. *)
Definition Children_of (d : Daemon T) (name : string) : outcome (result string (gmap string Container)) :=
  match GetFullContainerName name with
  | Err e => Return (Err e)
  | Ok name =>
      '(children, e) ← Walk 1 (containerGraph d) name
        (fun p id children => match Get_container d id with
           | None => (children, Some ("Could not get container for name " +:+ id +:+ " and id " +:+ p))
           | Some c => (<[p := c]> children, None)
           end) 0 ∅;
      Return (match e with Some e => Err e | None => Ok children end)
  end.

(** ** Removing containers *)

Context (stop kill : Container -> Chans -> Container * Chans * option string)
  (driver_Remove remove_all : string -> option string).

(** [stop] is [container.Stop(3)], which changes the state of the container
    the daemon holds.  [Purge] reports no error here. *)
Definition Destroy (d : Daemon T) (container : Container) : Daemon T * option string :=
  let id := ID container in
  match containers d !! id with
  | None => (d, Some ("Container " +:+ id +:+ " not found - maybe it was already destroyed?"))
  | Some _ =>
      let '(c, cs, e) := stop container (chans d) in
      let d := with_chans (with_containers d (<[id := c]> (containers d))) cs in
      match e with
      | Some e => (d, Some e)
      | None =>
          let d := with_index d (fst (Delete_id id (idIndex d))) in
          let d := with_containers d (delete id (containers d)) in
          let d := with_graph d (fst (Purge (containerGraph d) id)) in
          match driver_Remove id with
          | Some e => (d, Some ("Driver failed to remove root filesystem " +:+ id +:+ ": " +:+ e))
          | None =>
              match driver_Remove (id +:+ "-init") with
              | Some e => (d, Some ("Driver failed to remove init filesystem " +:+ id +:+ "-init: " +:+ e))
              | None =>
                  match remove_all id with
                  | Some e => (d, Some ("Unable to remove filesystem for " +:+ id +:+ ": " +:+ e))
                  | None => (d, None)
                  end
              end
          end
      end
  end.

(** [volumeId] is the base of the path of a volume. *)
Definition getVolumeId (p : string) : string :=
  Base (if has_suffix "/layer" p then take_str (String.length p - 6) p else p).

(** [EvalSymlinks] gives a path and an error with [os.IsNotExist] of it. *)
Context (EvalSymlinks : string -> string * option (string * bool)).

Definition bind_source (bind : string) : result string string :=
  let source := match split ":" bind with s :: _ => s | [] => "" end in
  let '(p, e) := EvalSymlinks source in
  match e with
  | Some (e, false) => Err e
  | _ => Ok (if negb (String.eqb p "") then p else source)
  end.

Definition own_volumes (container : Container) : result string (gset string) :=
  binds ← result_mapM bind_source (Binds container);
  Ok (foldl (fun vs v => if bool_decide (v ∈ binds) then vs else {[getVolumeId v]} ∪ vs) ∅ (VolumePaths container)).

Definition used_volumes (cs : gmap string Container) : gset string :=
  foldl (fun vs c => foldl (fun vs v => {[getVolumeId v]} ∪ vs) vs (VolumePaths c)) ∅ (snd <$> map_to_list cs).

(** The deletions in the order of the map, up to the first that fails. *)
Fixpoint delete_volumes (volumes_Delete : string -> option string) (used : gset string) (ids deleted : list string) :
    list string * option string :=
  match ids with
  | [] => (deleted, None)
  | id :: ids =>
      if bool_decide (id ∈ used) then delete_volumes volumes_Delete used ids deleted
      else match volumes_Delete id with
           | Some e => (deleted, Some ("Error calling volumes.Delete(" +:+ id +:+ "): " +:+ e))
           | None => delete_volumes volumes_Delete used ids (deleted ++ [id])
           end
  end.

(** [removeLink]: the edge of the graph and the link of the parent that is
    disabled, as the parent's identifier and the name of the link. *)
Definition remove_link (d : Daemon T) (name : string) : outcome (Daemon T * option (string * string) * option string) :=
  match Get_container d name with
  | None => Return (d, None, Some ("No such link: " +:+ name))
  | Some _ =>
      let name := match GetFullContainerName name with Ok n => n | Err _ => "" end in
      let '(parent, n) := Split name in
      if String.eqb parent "/" then Return (d, None, Some "Conflict, cannot remove the default name of the container")
      else match Get (containerGraph d) parent with
      | None => Return (d, None, Some ("Cannot get parent " +:+ parent +:+ " for name " +:+ name))
      | Some pe =>
          let disabled := match Get_container d pe with Some c => Some (ID c, n) | None => None end in
          '(g, e) ← Delete (containerGraph d) name;
          Return (with_graph d g, disabled, e)
      end
  end.

(** The job: what it does to the daemon, the volumes it deleted, its error. *)
Definition ContainerDestroy (volumes_Delete : string -> option string) (d : Daemon T) (args : list string) (env : Env.Env) :
    outcome (Daemon T * list string * option string) :=
  match args with
  | [name] =>
      let removeVolume := GetBool env "removeVolume" in
      let removeLink := GetBool env "removeLink" in
      let forceRemove := GetBool env "forceRemove" in
      if removeLink then
        '(d, _, e) ← remove_link d name; Return (d, [], e)
      else match Get_container d name with
      | None => Return (d, [], Some ("No such container: " +:+ name))
      | Some container =>
          let '(d, container, e) :=
            if IsRunning (state container) then
              if forceRemove then
                let '(c, cs, e) := kill container (chans d) in
                (with_chans (with_containers d (<[ID c := c]> (containers d))) cs, c,
                 match e with Some e => Some ("Could not kill running container, cannot remove - " +:+ e) | None => None end)
              else (d, container, Some "You cannot remove a running container. Stop the container before attempting removal or use -f")
            else (d, container, None) in
          match e with
          | Some e => Return (d, [], Some e)
          | None =>
              let '(d, e) := Destroy d container in
              match e with
              | Some e => Return (d, [], Some ("Cannot destroy container " +:+ name +:+ ": " +:+ e))
              | None =>
                  if removeVolume then
                    match own_volumes container with
                    | Err e => Return (d, [], Some e)
                    | Ok volumes =>
                        let '(deleted, e) := delete_volumes volumes_Delete (used_volumes (containers d))
                                               (order _ (elements volumes)) [] in
                        Return (d, deleted, e)
                    end
                  else Return (d, [], None)
              end
          end
      end
  | _ => Return (d, [], Some "Not enough arguments. Usage: delete CONTAINER")
  end.

(** ** Restoring containers at start *)

(** [register] for each; its errors are logged, the container is listed. *)
Context (random : nat -> string) (now : Z) (still_running : string -> bool) (to_disk : string -> option string).

Definition register_listed (d : Daemon T) (listed : list Container) (c : Container) : outcome (Daemon T * list Container) :=
  '(d, c, _) ← register random now (still_running (ID c)) (to_disk (ID c)) d c;
  Return (d, listed ++ [c]).

Fixpoint restore_named (d : Daemon T) (entities : gmap string string) (paths : list string)
    (loaded : gmap string Container) (listed : list Container) : outcome (Daemon T * gmap string Container * list Container) :=
  match paths with
  | [] => Return (d, loaded, listed)
  | p :: paths =>
      match loaded !! default "" (entities !! p) with
      | Some c =>
          '(d, listed) ← register_listed d listed c;
          restore_named d entities paths (delete (default "" (entities !! p)) loaded) listed
      | None => restore_named d entities paths loaded listed
      end
  end.

Fixpoint restore_rest (d : Daemon T) (cs : list Container) (listed : list Container) : outcome (Daemon T * list Container) :=
  match cs with
  | [] => Return (d, listed)
  | c :: cs =>
      '(d, r) ← generateNewName random d (ID c);
      '(d, listed) ← register_listed d listed (with_name c (match r with Ok n => n | Err _ => "" end));
      restore_rest d cs listed
  end.

(** What [load] found on disk, under the names of the directories: a
    container that does not load, or belongs to another graph driver, is left
    out. *)
Definition restorable (currentDriver : string) (c : Container) : bool :=
  (String.eqb (Driver c) "" && String.eqb currentDriver "aufs") || String.eqb (Driver c) currentDriver.

Definition load_checked (id : string) (from_disk : option Container) : option Container :=
  match from_disk with
  | Some c => if String.eqb (ID c) id then Some c else None
  | None => None
  end.

Definition loaded_containers (currentDriver : string) (dir : list (string * option Container)) : gmap string Container :=
  foldl (fun cs '(id, c) => match load_checked id c with
    | Some c => if restorable currentDriver c then <[ID c := c]> cs else cs
    | None => cs end) ∅ dir.

Context `{!GoSort}.

(** The containers that start again: by policy, or after a failure. *)
Definition auto_restarted (c : Container) : bool :=
  String.eqb (RestartPolicyName c) "always" ||
  (String.eqb (RestartPolicyName c) "on-failure" && negb (ExitCode (state c) =? 0)).

Definition restore (fuel : nat) (currentDriver : string) (dir : list (string * option Container)) (AutoRestart : bool) (d : Daemon T) :
    outcome (Daemon T * list Container * list string) :=
  entities ← List_ fuel (containerGraph d) "/" (-1);
  '(d, rest, listed) ← restore_named d entities (Paths entities) (loaded_containers currentDriver dir) [];
  '(d, listed) ← restore_rest d (order _ (snd <$> map_to_list rest)) listed;
  Return (d, listed, if AutoRestart then ID <$> List.filter auto_restarted listed else []).
End Daemon.

(** ** The operations on concrete input *)

Example names_test :
  (validContainerNamePattern "/web_1.a-B", validContainerNamePattern "a/b", validContainerNamePattern "/", validContainerNamePattern "//x",
   validContainerNamePattern "..") = (true, false, false, false, true).
Proof. vm_compute. reflexivity. Qed.

Example getVolumeId_test : (getVolumeId "/var/lib/docker/vfs/dir/abc", getVolumeId "/var/lib/docker/aufs/abc/layer") = ("abc", "abc").
Proof. vm_compute. reflexivity. Qed.

Example GetFullContainerName_test : (GetFullContainerName "a", GetFullContainerName "/a", is_ok (GetFullContainerName "")) = (Ok "/a", Ok "/a", false).
Proof. reflexivity. Qed.

(** ** Reserving a name *)

Lemma valid_name name : validContainerNamePattern name = true ->
  good_name (trim_prefix "/" name) /\ slashed name = Return (abs_path [trim_prefix "/" name]).
Proof.
  unfold validContainerNamePattern. intros [H1 H2]%andb_true_iff. apply negb_true_iff, String.eqb_neq in H1. split.
  - split; [|done]. by apply (forall_str_no_char is_name_char).
  - destruct name as [|c s]; [done|]. unfold slashed, abs_path. cbn [join]. unfold trim_prefix, has_prefix in *.
    cbn [String.prefix]. destruct (ascii_dec "/" c) as [<-|Hne].
    + assert (String.prefix "" s = true) as -> by by destruct s.
      assert (Ascii.eqb "/" "/" = true) as -> by done. cbn [drop_str String.length]. by destruct s.
    + destruct (Ascii.eqb_spec c "/") as [->|_]; done.
Qed.

Lemma resolve_one db n : resolve db "0" [n] = edge db !! ("0", n).
Proof. simpl. unfold child. by destruct (edge db !! ("0", n)). Qed.

Section Reserving.
Context {T : Type} `{Trie T} (edge_exists : string).
Context (edge_exists_text : IsNonUniqueNameError edge_exists = true).

Lemma GetByName_abs (d : Daemon T) ns : Forall good_name ns ->
  GetByName d (abs_path ns) =
  match resolve (containerGraph d) "0" ns with
  | None => Err ("Could not find entity for " +:+ abs_path ns)
  | Some id => match containers d !! id with
               | None => Err ("Could not find container for entity id " +:+ id)
               | Some e => Ok e end
  end.
Proof.
  intros Hns. unfold GetByName. change (GetFullContainerName (abs_path ns)) with (@Ok string _ (abs_path ns)).
  cbn [mbind result_bind].
  by rewrite Get_abs.
Qed.

Lemma reserveName_free (d : Daemon T) (id name : string) : validContainerNamePattern name = true ->
  let n := trim_prefix "/" name in
  id <> "0" -> edge (containerGraph d) !! ("0", n) = None ->
  exists d', reserveName edge_exists d id name = Return (d', Ok (abs_path [n])) /\
    containers d' = containers d /\ idIndex d' = idIndex d /\ Get (containerGraph d') (abs_path [n]) = Some id /\
    edge (containerGraph d') = <[("0", n) := id]> (edge (containerGraph d)) /\
    entity (containerGraph d') = {[id]} ∪ entity (containerGraph d) /\
    root_edges (containerGraph d') = root_edges (containerGraph d).
Proof.
  intros Hv n Hid E. destruct (valid_name name Hv) as [Hg Hs]. fold n in Hg, Hs.
  unfold reserveName. rewrite Hv, Hs. cbn [negb mbind outcome_bind].
  pose proof (Set_abs edge_exists (containerGraph d) [] n id (List.Forall_nil _) Hg) as H1. cbn [resolve] in H1.
  change (abs_path ([] ++ [n])) with (abs_path [n]) in H1. rewrite decide_False, E in H1 by congruence.
  destruct H1 as (g & -> & He & Hen & Hro). cbn [mbind outcome_bind].
  eexists. split; [done|]. split; [done|]. split; [done|]. cbn [with_graph containerGraph].
  split; [|done]. rewrite Get_abs by (by constructor). by rewrite resolve_one, He, lookup_insert_eq.
Qed.

(** Reserving a name: a valid name that leads nowhere now leads to the new
    container; a name that leads to a container the daemon knows is refused
    and nothing changes; and a name that leads to an identifier without a
    container is freed and reported as reserved, but it leads nowhere, so the
    next one who asks gets it as well. *)
Theorem reserveName_spec (d : Daemon T) (id name : string) :
  validContainerNamePattern name = true -> id <> "0" ->
  (forall p n owner, edge (containerGraph d) !! (p, n) = Some owner -> contains "Could not find entity" owner = false) ->
  let full := "/" +:+ trim_prefix "/" name in
  exists d' r, reserveName edge_exists d id name = Return (d', r) /\
    containers d' = containers d /\ idIndex d' = idIndex d /\
    match Get (containerGraph d) full with
    | None => r = Ok full /\ Get (containerGraph d') full = Some id
    | Some owner =>
        match containers d !! owner with
        | Some _ => is_ok r = false /\ d' = d
        | None => r = Ok full /\ Get (containerGraph d') full = None /\
            forall id', id' <> "0" ->
              exists d'', reserveName edge_exists d' id' name = Return (d'', Ok full) /\ Get (containerGraph d'') full = Some id'
        end
    end.
Proof.
  intros Hv Hid Ho full. destruct (valid_name name Hv) as [Hg Hs].
  unfold full. set (n := trim_prefix "/" name) in *. change ("/" +:+ n) with (abs_path [n]). clear full.
  assert (Forall good_name [n]) as Hgn by by constructor.
  pose proof (fun d id => reserveName_free d id name Hv) as Hfree. fold n in Hfree.
  rewrite Get_abs, resolve_one by done.
  destruct (edge (containerGraph d) !! ("0", n)) as [owner|] eqn:Eo.
  2: { destruct (Hfree d id Hid Eo) as (d' & ? & ? & ? & ? & _). by exists d', (Ok (abs_path [n])). }
  unfold reserveName at 1. rewrite Hv, Hs. cbn [negb mbind outcome_bind].
  pose proof (Set_abs edge_exists (containerGraph d) [] n id (List.Forall_nil _) Hg) as H1. cbn [resolve] in H1. change (abs_path ([] ++ [n])) with (abs_path [n]) in H1.
  rewrite decide_False, Eo in H1 by congruence. rewrite H1. cbn [mbind outcome_bind]. rewrite edge_exists_text. cbn [negb].
  assert (with_graph d (containerGraph d) = d) as Ed by by destruct d.
  rewrite GetByName_abs by done. cbn [with_graph containerGraph containers].
  rewrite resolve_one, Eo.
  destruct (containers d !! owner) as [c|] eqn:Ec; cbv iota.
  { eexists _, _. split; [done|]. split; [done|]. split; [done|]. split; [done|]. exact Ed. }
  assert (contains "Could not find entity" ("Could not find container for entity id " +:+ owner) = false) as ->.
  { transitivity (contains "Could not find entity" owner); [|by eapply Ho]. by destruct owner. }
  pose proof (Delete_abs (containerGraph d) [] n "0" (List.Forall_nil _) Hg eq_refl) as HD.
  change (abs_path ([] ++ [n])) with (abs_path [n]) in HD. rewrite HD. cbn [mbind outcome_bind].
  eexists _, _. split; [done|]. split; [done|]. split; [done|]. split; [done|]. split.
  { cbn [with_graph containerGraph]. rewrite Get_abs by done. rewrite resolve_one. apply lookup_delete_eq. }
  intros id' Hid'. destruct (Hfree (with_graph d (with_edge (containerGraph d) (delete ("0", n) (edge (containerGraph d))))) id' Hid')
    as (d'' & H2 & _ & _ & H3 & _); [apply lookup_delete_eq|]. exists d''. by split.
Qed.
End Reserving.

(** A daemon with the container [c1] named [/b] and a name [/a] left over. *)
Definition example_container (id name : string) : Container :=
  {| ID := id; Name := name; Image := "img"; Created := 0; state := fst (NewState {| closed := ∅; next := 0 |}); Driver := "vfs";
     Args := []; Path := "sh"; VolumePaths := ["/vfs/dir/v1"; "/host"]; Binds := ["/host:/mnt"]; RestartPolicyName := "";
     has_daemon := true |}.

Definition example_daemon : Daemon (list string) :=
  {| containers := {["c1" := example_container "c1" "/b"]};
     idIndex := {| ids := {["c1"]}; trie := ["c1"] |};
     containerGraph := {| entity := {["0"; "c1"; "c9"]}; edge := {[("0", "b") := "c1"; ("0", "a") := "c9"]}; root_edges := [("0", "/")] |};
     chans := {| closed := ∅; next := 1 |} |}.

Lemma reserveName_spec_witness :
  exists d', reserveName "constraint failed" example_daemon "c2" "a" = Return (d', Ok "/a") /\ Get (containerGraph d') "/a" = None.
Proof.
  assert (forall p n owner, edge (containerGraph example_daemon) !! (p, n) = Some owner -> contains "Could not find entity" owner = false) as Ho.
  { intros p n owner. change (edge (containerGraph example_daemon)) with ({[("0", "b") := "c1"; ("0", "a") := "c9"]} : gmap (string * string) string).
    intros [[_ <-]|[_ [_ <-]%lookup_singleton_Some]]%lookup_insert_Some; reflexivity. }
  assert ("c2" <> "0") as Hne by discriminate.
  destruct (reserveName_spec "constraint failed" eq_refl example_daemon "c2" "a" eq_refl Hne Ho) as (d' & r & H1 & _ & _ & H2).
  change (Get (containerGraph example_daemon) ("/" +:+ trim_prefix "/" "a")) with (Some "c9") in H2.
  change (containers example_daemon !! "c9") with (@None Container) in H2.
  destruct H2 as (-> & H2 & _). exists d'. split; [exact H1|exact H2].
Defined.

(** ** Removing a link *)

Lemma Get_one db n : good_name n -> Get db (String "/" n) = edge db !! ("0", n).
Proof. intros Hg. change (String "/" n) with (abs_path [n]). rewrite Get_abs by (by constructor). apply resolve_one. Qed.

(** A second slash in front makes no difference to [Get]. *)
Lemma Get_double db n : good_name n -> Get db (String "/" (String "/" n)) = edge db !! ("0", n).
Proof.
  intros [Hn Hn']. unfold Get, get. assert (String.eqb (String "/" (String "/" n)) "/" = false) as -> by done.
  assert (split "/" (String "/" (String "/" n)) = ["" ; ""; n]) as ->.
  { change (split "/" (String "/" (String "/" n))) with ("" :: "" :: split "/" n). by rewrite split_no_sep. }
  cbn [tail get_loop]. assert (String.eqb "" "" = true) as -> by done.
  destruct (String.eqb_spec n ""); [done|]. unfold child, RootEntity. by destruct (edge db !! ("0", n)).
Qed.

Lemma Delete_double db n : good_name n ->
  Delete db (String "/" (String "/" n)) = Return (with_edge db (delete ("0", n) (edge db)), None).
Proof.
  intros [Hn Hn']. unfold Delete. assert (String.eqb (String "/" (String "/" n)) "/" = false) as -> by done.
  unfold splitPath. assert (Ascii.eqb "/" "/" = true) as -> by done. cbv iota.
  change (String "/" (String "/" n)) with ("/" +:+ String "/" n). rewrite Split_app by done. reflexivity.
Qed.

Lemma Get_container_slashed {T} `{Trie T} (d : Daemon T) s :
  idx_wf (idIndex d) -> (forall i, i ∈ ids (idIndex d) -> has_prefix "/" i = false) ->
  Get_container d (String "/" s) =
  match Get (containerGraph d) (String "/" s) with Some id => containers d !! id | None => None end.
Proof.
  intros Hidx Hids. unfold Get_container. destruct (Get_id (String "/" s) (idIndex d)) as [i|] eqn:E.
  - exfalso. apply Get_id_spec in E as (_ & Hi & Hp & _); [|done]. pose proof (Hids i Hi) as Hf.
    unfold has_prefix in *. destruct i as [|x i]; [done|]. cbn [String.prefix] in *. destruct (ascii_dec "/" x); [|done]. by destruct i.
  - unfold GetByName. cbn [GetFullContainerName mbind result_bind]. assert (Ascii.eqb "/" "/" = true) as -> by done.
    destruct (Get (containerGraph d) (String "/" s)) as [id|]; [|done]. by destruct (containers d !! id).
Qed.

(** The name a container was created with cannot be removed as a link: the
    job refuses it in its plain form.  A second slash in front gets past
    the test, which compares the directory of the name as text: the name is
    removed, and nothing finds the container by it any more. *)
Theorem remove_link_default_name {T} `{Trie T} (d : Daemon T) (n id : string) (c : Container) :
  good_name n -> edge (containerGraph d) !! ("0", n) = Some id -> containers d !! id = Some c ->
  idx_wf (idIndex d) -> (forall i, i ∈ ids (idIndex d) -> has_prefix "/" i = false) ->
  remove_link d ("/" +:+ n) = Return (d, None, Some "Conflict, cannot remove the default name of the container") /\
  exists d' disabled, remove_link d ("//" +:+ n) = Return (d', disabled, None) /\
    containers d' = containers d /\ Get_container d' ("/" +:+ n) = None /\ Get_container d' ("//" +:+ n) = None.
Proof.
  intros Hg He Hc Hidx Hids. change ("/" +:+ n) with (String "/" n). change ("//" +:+ n) with (String "/" (String "/" n)).
  assert (contains_char "/" n = false) as Hn by apply Hg. split.
  - unfold remove_link. rewrite Get_container_slashed, Get_one, He, Hc by done. cbn [GetFullContainerName].
    assert (Ascii.eqb "/" "/" = true) as -> by done. change (String "/" n) with ("" +:+ String "/" n). by rewrite Split_app.
  - unfold remove_link at 1. rewrite Get_container_slashed, Get_double, He, Hc by done. cbn [GetFullContainerName].
    assert (Ascii.eqb "/" "/" = true) as -> by done. cbv iota. change (String "/" (String "/" n)) with ("/" +:+ String "/" n) at 1.
    rewrite Split_app by done. cbv iota.
    change (String.eqb ("/" +:+ "/") "/") with false. change (Get (containerGraph d) ("/" +:+ "/")) with (Some "0"). cbv iota zeta.
    rewrite Delete_double by done. cbn [mbind outcome_bind]. eexists _, _. split; [done|]. split; [done|].
    rewrite !Get_container_slashed by done. cbn [with_graph containerGraph]. rewrite Get_one, Get_double by done.
    cbn [with_edge edge]. by rewrite lookup_delete_eq.
Qed.

Lemma remove_link_default_name_witness :
  exists d' disabled, remove_link example_daemon "//b" = Return (d', disabled, None) /\ Get_container d' "/b" = None.
Proof.
  assert (good_name "b") as Hg by done.
  assert (idx_wf (idIndex example_daemon)) as Hw by (split; [done|]; cbn; set_solver).
  assert (forall i, i ∈ ids (idIndex example_daemon) -> has_prefix "/" i = false) as Hids.
  { intros i. change (ids (idIndex example_daemon)) with ({["c1"]} : gset string). intros ->%elem_of_singleton. reflexivity. }
  destruct (remove_link_default_name example_daemon "b" "c1" (example_container "c1" "/b") Hg eq_refl eq_refl Hw Hids)
    as (_ & d' & disabled & H1 & _ & H2 & _).
  exists d', disabled. split; [exact H1|exact H2].
Defined.

(** ** The life of a container's name *)

Lemma GetFullContainerName_slashed name full : slashed name = Return full -> GetFullContainerName name = Ok full.
Proof. destruct name; [done|]. simpl. by intros [= <-]. Qed.

(** Purging an entity that has only just been named. *)
Lemma Purge_new db db' id n :
  edge db !! ("0", n) = None -> (id ∉ entity db) ->
  (forall p m owner, edge db !! (p, m) = Some owner -> owner <> id) -> (forall r, r ∈ root_edges db -> fst r <> id) ->
  edge db' = <[("0", n) := id]> (edge db) -> entity db' = {[id]} ∪ entity db -> root_edges db' = root_edges db ->
  fst (Purge db' id) = db.
Proof.
  intros Hn Hid Hown Hroot He Hent Hr. destruct db as [ent ed ro]. cbn [edge entity root_edges] in *. unfold Purge. rewrite He, Hent, Hr. cbn [fst]. f_equal.
  - set_solver.
  - apply map_eq. intros [p m]. destruct (decide ((p, m) = ("0", n))) as [[= -> ->]|Hne].
    + rewrite Hn. apply map_lookup_filter_None. right. rewrite lookup_insert_eq. intros x [= <-] Hx. by apply Hx.
    + destruct (ed !! (p, m)) as [o|] eqn:E.
      * apply map_lookup_filter_Some. rewrite lookup_insert_ne by done. split; [done|]. by eapply Hown.
      * apply map_lookup_filter_None. left. by rewrite lookup_insert_ne.
  - clear He Hent Hr Hown. induction ro as [|r ro IH]; [done|]. simpl. rewrite IH by (intros; apply Hroot; by right).
    destruct (String.eqb_spec (fst r) id) as [E|]; [|done]. exfalso. apply (Hroot r); [by left|done].
Qed.

Section Life.
Context {T : Type} `{Trie T} (edge_exists : string).
Context (stop : Container -> Chans -> Container * Chans * option string) (driver_Remove remove_all : string -> option string).

Lemma register_ok random now running disk (d d' : Daemon T) c c' :
  register edge_exists random now running disk d c = Return (d', c', None) -> Name c <> "" -> IsRunning (state c) = false ->
  c' = with_daemon c /\ containers d' = <[ID c := c']> (containers d) /\ containerGraph d' = containerGraph d /\
  idIndex d' = fst (Add (ID c) (idIndex d)) /\ chans d' = chans d /\ has_daemon c = false /\ ID c <> "".
Proof.
  intros Hr Hn Hrun. unfold register in Hr. destruct (has_daemon c) eqn:Ed; [done|]. cbn [orb] in Hr.
  destruct (Exists_container d (ID c)); [done|]. unfold validateID in Hr. destruct (String.eqb_spec (ID c) ""); [done|].
  unfold ensureName in Hr. destruct (String.eqb_spec (Name c) ""); [done|]. cbn [mbind outcome_bind] in Hr.
  unfold stop_old in Hr. cbn [with_daemon state] in Hr. rewrite Hrun in Hr. cbn [mbind outcome_bind] in Hr.
  injection Hr as <- <-. split; [done|]. by repeat split.
Qed.

(** C15. The life of a container: one that is given a free name and an
    identifier nothing uses, and is registered, is found by its name; when it
    is destroyed, the names, the entities, the index and the store of
    containers are what they were before it was created. *)
Theorem create_Destroy random now running disk (d d1 d2 : Daemon T) (id name full : string) (c c' c1 : Container) (cs1 : Chans) :
  idx_wf (idIndex d) -> ids (idIndex d) = dom (containers d) ->
  (id ∉ dom (containers d)) -> (id ∉ entity (containerGraph d)) -> id <> "0" ->
  (forall p n owner, edge (containerGraph d) !! (p, n) = Some owner -> owner <> id) ->
  (forall r, r ∈ root_edges (containerGraph d) -> fst r <> id) ->
  validContainerNamePattern name = true -> Get (containerGraph d) ("/" +:+ trim_prefix "/" name) = None ->
  generateIdAndName edge_exists random id d name = Return (d1, Ok (id, full)) ->
  ID c = id -> Name c = full -> IsRunning (state c) = false ->
  register edge_exists random now running disk d1 c = Return (d2, c', None) ->
  stop c' (chans d2) = (c1, cs1, None) -> (forall i, driver_Remove i = None) -> remove_all id = None ->
  GetByName d2 name = Ok c' /\
  exists d3, Destroy stop driver_Remove remove_all d2 c' = (d3, None) /\ containers d3 = containers d /\
    ids (idIndex d3) = ids (idIndex d) /\ idx_wf (idIndex d3) /\ containerGraph d3 = containerGraph d.
Proof.
  intros Hidx Hdom Hfresh Hent H0 Hown Hroot Hv Hfree Hgen Hcid Hcn Hrun Hreg Hstop Hdrv Hrm.
  destruct (valid_name name Hv) as [Hg Hs]. set (n := trim_prefix "/" name) in *.
  change ("/" +:+ n) with (abs_path [n]) in Hfree. rewrite Get_abs, resolve_one in Hfree by (by constructor).
  destruct (reserveName_free edge_exists d id name Hv H0 Hfree) as (d1' & Hres & Hc1 & Hi1 & _ & He1 & Hen1 & Hro1). fold n in Hres, He1.
  assert (name <> "") as Hne by (intros ->; done).
  unfold generateIdAndName in Hgen. destruct (String.eqb_spec name ""); [done|]. rewrite Hres in Hgen. cbn [mbind outcome_bind] in Hgen.
  injection Hgen as -> <-.
  destruct (register_ok _ _ _ _ _ _ _ _ Hreg) as (-> & Hc2 & Hg2 & Hi2 & Hch & _ & _); [by rewrite Hcn|done|].
  split.
  - unfold GetByName. rewrite (GetFullContainerName_slashed name (abs_path [n]) Hs). cbn [mbind result_bind].
    rewrite Hg2, Get_abs, resolve_one, He1, lookup_insert_eq by (by constructor).
    by rewrite Hc2, Hcid, lookup_insert_eq.
  - unfold Destroy. change (ID (with_daemon c)) with (ID c). rewrite Hcid, Hc2, Hcid, lookup_insert_eq, Hstop.
    cbn [chans with_chans with_containers containers idIndex with_index with_graph containerGraph]. rewrite !Hdrv, Hrm.
    eexists. split; [done|]. cbn [chans with_chans with_containers containers idIndex with_index with_graph containerGraph].
    destruct (addId_spec id (idIndex d) Hidx) as (Hw1 & _ & Hids1). change (addId id) with (Add id) in *.
    rewrite Hi1, Hcid in Hi2. rewrite Hi2.
    destruct (Delete_id_spec id (Add id (idIndex d)).1 Hw1) as (Hw2 & _ & Hids2).
    split; [|split; [|split]].
    + rewrite Hc1, insert_insert_eq, delete_insert_id; [done|by apply not_elem_of_dom].
    + rewrite Hids2, Hids1. destruct (is_ok _); set_solver.
    + exact Hw2.
    + apply Purge_new with (n := n); first [assumption | by rewrite Hg2].
Qed.
End Life.

Definition new_container : Container :=
  {| ID := "c2"; Name := "/web"; Image := "img"; Created := 1; state := fst (NewState {| closed := ∅; next := 1 |}); Driver := "vfs";
     Args := []; Path := "sh"; VolumePaths := []; Binds := []; RestartPolicyName := ""; has_daemon := false |}.

Lemma create_Destroy_witness :
  exists d2 d3, GetByName d2 "web" = Ok (with_daemon new_container) /\
    Destroy (fun c cs => (c, cs, None)) (fun _ => None) (fun _ => None) d2 (with_daemon new_container) = (d3, None) /\
    containers d3 = containers example_daemon /\ containerGraph d3 = containerGraph example_daemon.
Proof.
  assert (match generateIdAndName "constraint failed" (fun _ => "") "c2" example_daemon "web" with
          | Return (d1, r1) => r1 = Ok ("c2", "/web") /\
              match register "constraint failed" (fun _ => "") 7 false None d1 new_container with
              | Return (d2, c, e) => c = with_daemon new_container /\ e = None
              | _ => False
              end
          | _ => False
          end) as E by (vm_compute; repeat split).
  destruct (generateIdAndName "constraint failed" (fun _ => "") "c2" example_daemon "web") as [[d1 r1]| |] eqn:E1; [|destruct E|destruct E].
  destruct E as [-> E].
  destruct (register "constraint failed" (fun _ => "") 7 false None d1 new_container) as [[[d2 c] e]| |] eqn:E2; [|destruct E|destruct E].
  destruct E as [-> ->].
  assert (idx_wf (idIndex example_daemon)) as Hw by (split; [done|]; cbn; set_solver).
  assert (ids (idIndex example_daemon) = dom (containers example_daemon)) as Hd by (vm_compute; reflexivity).
  assert ("c2" ∉ dom (containers example_daemon)) as Hn by (rewrite <- Hd; change (ids (idIndex example_daemon)) with ({["c1"]} : gset string); set_solver).
  assert ("c2" ∉ entity (containerGraph example_daemon)) as He
    by (change (entity (containerGraph example_daemon)) with ({["0"; "c1"; "c9"]} : gset string); set_solver).
  assert (forall p n owner, edge (containerGraph example_daemon) !! (p, n) = Some owner -> owner <> "c2") as Ho.
  { intros p n owner. change (edge (containerGraph example_daemon)) with ({[("0", "b") := "c1"; ("0", "a") := "c9"]} : gmap (string * string) string).
    intros [[_ <-]|[_ [_ <-]%lookup_singleton_Some]]%lookup_insert_Some; discriminate. }
  assert (forall r, r ∈ root_edges (containerGraph example_daemon) -> fst r <> "c2") as Hr by (by intros r ->%list_elem_of_singleton).
  assert ("c2" <> "0") as H0 by discriminate.
  destruct (create_Destroy "constraint failed" (fun c cs => (c, cs, None)) (fun _ => None) (fun _ => None) (fun _ => "") 7 false None
    example_daemon d1 d2 "c2" "web" "/web" new_container (with_daemon new_container) (with_daemon new_container)
    (chans d2) Hw Hd Hn He H0 Ho Hr eq_refl eq_refl E1 eq_refl eq_refl eq_refl E2 eq_refl (fun _ => eq_refl) eq_refl)
    as (H1 & d3 & H2 & H3 & _ & _ & H4).
  exists d2, d3. split; [exact H1|]. split; [exact H2|]. split; [exact H3|exact H4].
Defined.

(** ** Links *)

Section LinkLemmas.
Context {T : Type} `{Trie T} (edge_exists : string).

Lemma RegisterLink_containers (d d' : Daemon T) p c alias e :
  RegisterLink edge_exists d p c alias = Return (d', e) -> containers d' = containers d /\ idIndex d' = idIndex d.
Proof.
  unfold RegisterLink. destruct (negb _); [|by intros [= <- _]].
  destruct (Set_ edge_exists (containerGraph d) _ (ID c)) as [[g r]| |]; [|done|done]. by intros [= <- _].
Qed.

Lemma RegisterLinks_loop_containers p links : forall (d d' : Daemon T) e,
  RegisterLinks_loop edge_exists d p links = Return (d', e) -> containers d' = containers d /\ idIndex d' = idIndex d.
Proof.
  induction links as [|l links IH]; intros d d' e; simpl; [by intros [= <- _]|].
  destruct (PartParser "name:alias" l) as [parts|]; [|by intros [= <- _]].
  destruct (GetByName d _) as [c|]; [|by intros [= <- _]].
  destruct (RegisterLink edge_exists d p c _) as [[d1 e1]| |] eqn:E1; [|done|done]. cbn [mbind outcome_bind].
  apply RegisterLink_containers in E1 as [H1 H2]. destruct e1; [by intros [= <- _]|].
  intros [H3 H4]%IH. by rewrite H3, H4.
Qed.

Lemma RegisterLinks_containers w (d d' : Daemon T) p links e :
  RegisterLinks edge_exists w d p links = Return (d', e) -> containers d' = containers d.
Proof.
  unfold RegisterLinks. destruct links as [links|]; [|by intros [= <- _]].
  destruct (RegisterLinks_loop edge_exists d p links) as [[d1 e1]| |] eqn:E; [|done|done]. intros [= <- _].
  by apply RegisterLinks_loop_containers in E as [? _].
Qed.
End LinkLemmas.

Definition linked_daemon : Daemon (list string) :=
  {| containers := {["c1" := example_container "c1" "/a"; "c2" := example_container "c2" "/b"]};
     idIndex := {| ids := {["c1"; "c2"]}; trie := ["c1"; "c2"] |};
     containerGraph := {| entity := {["0"; "c1"; "c2"]}; edge := {[("0", "a") := "c1"; ("0", "b") := "c2"]}; root_edges := [("0", "/")] |};
     chans := {| closed := ∅; next := 1 |} |}.

(** C16. Circular links: two containers can be linked to each other, each when
    it is started.  From then on the daemon does not come up any more:
    [restore] lists the names below the root without a bound, and does not
    return for any time it is given, whatever is on the disk. *)
Theorem circular_links_hang (rows : QueryOrder) (sort : GoSort) (edge_exists : string)
    random now running disk fuel driver dir AutoRestart :
  exists d1 d2,
    RegisterLinks edge_exists None linked_daemon (example_container "c1" "/a") (Some ["b:db"]) = Return (d1, None) /\
    RegisterLinks edge_exists None d1 (example_container "c2" "/b") (Some ["a:web"]) = Return (d2, None) /\
    containers d2 = containers linked_daemon /\
    restore edge_exists random now running disk fuel driver dir AutoRestart d2 = OutOfFuel.
Proof.
  assert (match RegisterLinks edge_exists None linked_daemon (example_container "c1" "/a") (Some ["b:db"]) with
          | Return (d1, e1) => e1 = None /\
              match RegisterLinks edge_exists None d1 (example_container "c2" "/b") (Some ["a:web"]) with
              | Return (d2, e2) => e2 = None /\ child (containerGraph d2) "0" "a" = Some "c1" /\
                  child (containerGraph d2) "c1" "db" = Some "c2" /\ child (containerGraph d2) "c2" "web" = Some "c1"
              | _ => False
              end
          | _ => False
          end) as E by (vm_compute; repeat split).
  destruct (RegisterLinks edge_exists None linked_daemon (example_container "c1" "/a") (Some ["b:db"])) as [[d1 e1]| |] eqn:E1;
    [|destruct E|destruct E]. destruct E as [-> E].
  destruct (RegisterLinks edge_exists None d1 (example_container "c2" "/b") (Some ["a:web"])) as [[d2 e2]| |] eqn:E2;
    [|destruct E|destruct E]. destruct E as (-> & H1 & H2 & H3).
  exists d1, d2. split; [done|]. split; [done|]. split.
  { by rewrite (RegisterLinks_containers _ _ _ _ _ _ _ E2), (RegisterLinks_containers _ _ _ _ _ _ _ E1). }
  unfold restore. rewrite (List_hangs _ "c1" "c2"); [done|by exists "a"|by exists "web"|by exists "db"].
Qed.

(** ** Volumes of a removed container *)

Lemma foldl_set_spec {A} (f : A -> option string) (l : list A) (s : gset string) v :
  v ∈ foldl (fun vs x => match f x with Some y => {[y]} ∪ vs | None => vs end) s l <->
  v ∈ s \/ exists x, x ∈ l /\ f x = Some v.
Proof.
  revert s. induction l as [|x l IH]; intros s; cbn [foldl].
  - split; [by left|]. intros [?|(y & ?%not_elem_of_nil & _)]; done.
  - rewrite IH. setoid_rewrite elem_of_cons. destruct (f x) as [y|] eqn:E.
    + rewrite elem_of_union, elem_of_singleton. naive_solver.
    + naive_solver.
Qed.

Lemma used_volumes_spec (cs : gmap string Container) v :
  v ∈ used_volumes cs <-> exists id c p, cs !! id = Some c /\ p ∈ VolumePaths c /\ getVolumeId p = v.
Proof.
  unfold used_volumes.
  assert (forall l (s : gset string), v ∈ foldl (fun vs c => foldl (fun vs w => {[getVolumeId w]} ∪ vs) vs (VolumePaths c)) s l <->
    v ∈ s \/ exists c p, c ∈ l /\ p ∈ VolumePaths c /\ getVolumeId p = v) as Hl.
  { induction l as [|c l IH]; intros s; cbn [foldl].
    - split; [by left|]. intros [?|(c & p & ?%not_elem_of_nil & _)]; done.
    - rewrite IH, (foldl_set_spec (fun w => Some (getVolumeId w))). setoid_rewrite elem_of_cons. naive_solver. }
  rewrite Hl. split.
  - intros [?%not_elem_of_empty|(c & p & Hc & ?)]; [done|]. apply list_elem_of_fmap in Hc as ([id c'] & -> & Hin%elem_of_map_to_list).
    by exists id, c', p.
  - intros (id & c & p & Hc & ?). right. exists c, p. split; [|done]. apply list_elem_of_fmap. exists (id, c). split; [done|].
    by apply elem_of_map_to_list.
Qed.

Lemma own_volumes_spec EvalSymlinks c vs : own_volumes EvalSymlinks c = Ok vs ->
  exists binds, result_mapM (bind_source EvalSymlinks) (Binds c) = Ok binds /\
    forall v, v ∈ vs <-> exists p, p ∈ VolumePaths c /\ (p ∉ binds) /\ getVolumeId p = v.
Proof.
  unfold own_volumes. intros (binds & Hb & [= <-])%bind_ok. exists binds. split; [done|]. intros v.
  set (f := fun w => if bool_decide (w ∈ binds) then None else Some (getVolumeId w)).
  assert (forall l (s : gset string), foldl (fun vs w => if bool_decide (w ∈ binds) then vs else {[getVolumeId w]} ∪ vs) s l =
    foldl (fun vs x => match f x with Some y => {[y]} ∪ vs | None => vs end) s l) as ->.
  { induction l as [|w l IH]; intros s; [done|]. cbn [foldl]. rewrite IH. f_equal. unfold f. by destruct (bool_decide (w ∈ binds)). }
  rewrite foldl_set_spec. unfold f. split.
  - intros [?%not_elem_of_empty|(p & Hp & E)]; [done|]. destruct (bool_decide (p ∈ binds)) eqn:Ed; [done|].
    apply bool_decide_eq_false in Ed. exists p. split; [done|]. split; [done|congruence].
  - intros (p & Hp & Hn & E). right. exists p. split; [done|]. rewrite bool_decide_eq_false_2 by done. congruence.
Qed.

Lemma delete_volumes_spec vd used ids : forall deleted deleted' e,
  delete_volumes vd used ids deleted = (deleted', e) ->
  (forall v, v ∈ deleted' -> v ∈ deleted \/ (v ∈ ids /\ (v ∉ used) /\ vd v = None)) /\
  (forall v, v ∈ deleted -> v ∈ deleted') /\
  (e = None -> forall v, v ∈ ids -> (v ∉ used) -> v ∈ deleted').
Proof.
  induction ids as [|id ids IH]; intros deleted deleted' e; simpl.
  { intros [= <- <-]. split; [by left|]. split; [done|]. intros _ v ?%not_elem_of_nil. done. }
  destruct (bool_decide (id ∈ used)) eqn:Eu.
  { apply bool_decide_eq_true in Eu. intros (H1 & H2 & H3)%IH. split; [|split; [done|]].
    - intros v [?|[? ?]]%H1; [by left|right]. split; [by right|done].
    - intros He v [->|Hv]%elem_of_cons Hn; [done|by apply H3]. }
  apply bool_decide_eq_false in Eu. destruct (vd id) as [m|] eqn:Ev.
  { intros [= <- <-]. split; [by left|]. by split. }
  intros (H1 & H2 & H3)%IH. split; [|split].
  - intros v [[Hv|Hv]%elem_of_app|[? ?]]%H1; [by left|right|right].
    + apply list_elem_of_singleton in Hv as ->. split; [by left|done].
    + split; [by right|done].
  - intros v Hv. apply H2, elem_of_app. by left.
  - intros He v [->|Hv]%elem_of_cons Hn; [|by apply H3]. apply H2, elem_of_app. right. by left.
Qed.

Lemma with_state_id c : with_state c (state c) = c.
Proof. by destruct c. Qed.

Section VolumesOfRemoved.
Context {T : Type} `{Trie T} {any_order : QueryOrder}.
Context (stop kill : Container -> Chans -> Container * Chans * option string) (driver_Remove remove_all : string -> option string).
Context (EvalSymlinks : string -> string * option (string * bool)) (volumes_Delete : string -> option string).
Context (kill_state : forall c cs, exists s, (kill c cs).1.1 = with_state c s).

(** Volumes: the job that removes a container deletes volumes only when it
    was asked to, and only those of this container that are not bind mounts
    and that no remaining container has; when the job succeeds it has deleted
    all of these. *)
Theorem ContainerDestroy_volumes (d d' : Daemon T) (name : string) (env : Env.Env) (deleted : list string) (e : option string) :
  ContainerDestroy stop kill driver_Remove remove_all EvalSymlinks volumes_Delete d [name] env = Return (d', deleted, e) ->
  deleted = [] \/
  exists c binds, GetBool env "removeVolume" = true /\ GetBool env "removeLink" = false /\ Get_container d name = Some c /\
    result_mapM (bind_source EvalSymlinks) (Binds c) = Ok binds /\
    let unused v := exists p, p ∈ VolumePaths c /\ (p ∉ binds) /\ getVolumeId p = v /\
                      forall id c' p', containers d' !! id = Some c' -> p' ∈ VolumePaths c' -> getVolumeId p' <> v in
    (forall v, v ∈ deleted -> unused v) /\ (e = None -> forall v, unused v -> v ∈ deleted).
Proof.
  unfold ContainerDestroy. destruct (GetBool env "removeLink") eqn:Erl.
  { destruct (remove_link d name) as [[[d1 x] e1]| |]; [|done|done]. intros [= _ <- _]. by left. }
  destruct (Get_container d name) as [c|] eqn:Ec; [|intros [= _ <- _]; by left].
  set (k := if IsRunning (state c) then _ else _). destruct k as [[d1 c1] e1] eqn:Ek.
  assert (exists s, c1 = with_state c s) as [s ->].
  { unfold k in Ek. destruct (IsRunning (state c)); [|injection Ek as <- <- <-; exists (state c); by rewrite with_state_id].
    destruct (GetBool env "forceRemove"); [|injection Ek as <- <- <-; exists (state c); by rewrite with_state_id].
    destruct (kill_state c (chans d)) as [s Hs]. destruct (kill c (chans d)) as [[c2 cs2] e2]. injection Ek as <- <- <-. by exists s. }
  clear Ek. destruct e1; [intros [= _ <- _]; by left|]. destruct (Destroy stop driver_Remove remove_all d1 (with_state c s)) as [d2 e2].
  destruct e2; [intros [= _ <- _]; by left|]. destruct (GetBool env "removeVolume") eqn:Erv; [|intros [= _ <- _]; by left].
  destruct (own_volumes EvalSymlinks (with_state c s)) as [vs|] eqn:Eo; [|intros [= _ <- _]; by left].
  destruct (delete_volumes volumes_Delete (used_volumes (containers d2)) (order _ (elements vs)) []) as [dl e3] eqn:Ed.
  intros [= <- <- <-]. right. apply own_volumes_spec in Eo as (binds & Hb & Hvs). exists c, binds.
  do 4 (split; [done|]). apply delete_volumes_spec in Ed as (H1 & _ & H3). split.
  - intros v [?%not_elem_of_nil|(Hin & Hnu & _)]%H1; [done|]. rewrite order_perm, elem_of_elements in Hin. apply Hvs in Hin as (p & Hp & Hnb & E).
    exists p. split; [done|]. split; [done|]. split; [done|]. intros id c' p' Hc' Hp' E'. apply Hnu, used_volumes_spec. by exists id, c', p'.
  - intros He v (p & Hp & Hnb & E & Hun). apply H3; [done| |].
    + rewrite order_perm, elem_of_elements. apply Hvs. by exists p.
    + intros (id & c' & p' & Hc' & Hp' & E')%used_volumes_spec. by apply (Hun id c' p').
Qed.
End VolumesOfRemoved.

Lemma ContainerDestroy_volumes_witness :
  exists d', ContainerDestroy (fun c cs => (c, cs, None)) (fun c cs => (c, cs, None)) (fun _ => None) (fun _ => None)
      (fun s => (s, None)) (fun _ => None) example_daemon ["b"] ["removeVolume=1"] = Return (d', ["v1"], None) /\
    exists p, getVolumeId p = "v1" /\ p <> "/host".
Proof.
  assert (match ContainerDestroy (fun c cs => (c, cs, None)) (fun c cs => (c, cs, None)) (fun _ => None) (fun _ => None)
      (fun s => (s, None)) (fun _ => None) example_daemon ["b"] ["removeVolume=1"] with
      | Return (_, l, e) => l = ["v1"] /\ e = None | _ => False end) as E by (vm_compute; split; reflexivity).
  destruct (ContainerDestroy _ _ _ _ _ _ example_daemon ["b"] ["removeVolume=1"]) as [[[d' l] e]| |] eqn:Ed; [|destruct E|destruct E].
  destruct E as [-> ->]. exists d'. split; [reflexivity|].
  destruct (ContainerDestroy_volumes (fun c cs => (c, cs, None)) (fun c cs => (c, cs, None)) (fun _ => None) (fun _ => None)
    (fun s => (s, None)) (fun _ => None) (fun c cs => ex_intro _ (state c) (eq_sym (with_state_id c)))
    example_daemon d' "b" ["removeVolume=1"] ["v1"] None Ed) as [H|(c & binds & _ & _ & Hc & Hb & H1 & _)]; [discriminate|].
  destruct (H1 "v1") as (p & Hp & Hn & E & _); [by left|]. exists p. split; [exact E|]. intros ->. apply Hn.
  revert Hc Hb. vm_compute. intros [= <-] [= <-]. by left.
Defined.
