(* ===== verification/Layers.v ===== *)
(** * archive: changes between file trees, and layers

    archive/changes.go compares two directories and exports the difference as
    a layer; archive/diff.go applies a layer to a directory.  A file system is
    a finite map from absolute paths (lists of names) to entries; the kernel
    follows no symbolic links inside the paths used here.  Making or removing
    an entry changes the time of its directory ([touch]).  A tar stream is the
    list of its headers, each with the content that follows it. *)

From stdpp Require Import base gmap list strings.
From Stdlib Require Import ZArith Lia Ascii.
From S2P Require Import Prelude GoStrings GoPath.

Local Open Scope Z_scope.

(** ** Files *)

Definition S_IFMT : Z := 61440.
Definition S_IFDIR : Z := 16384.
Definition S_IFREG : Z := 32768.
Definition S_IFLNK : Z := 40960.
Definition S_IFBLK : Z := 24576.
Definition S_IFCHR : Z := 8192.
Definition S_IFIFO : Z := 4096.
Definition S_IFSOCK : Z := 49152.

Record Timespec := { Sec : Z; Nsec : Z }.
Record Stat := { Mode : Z; Uid : Z; Gid : Z; Rdev : Z; Size : Z; mtime : Timespec }.

(** [data] is the content of a regular file and the target of a link. *)
Record Entry := { stat : Stat; capability : option string; data : string }.

#[export] Instance Timespec_eq_dec : EqDecision Timespec.
Proof. solve_decision. Defined.
#[export] Instance Stat_eq_dec : EqDecision Stat.
Proof. solve_decision. Defined.
#[export] Instance Entry_eq_dec : EqDecision Entry.
Proof. solve_decision. Defined.

Definition file_type (e : Entry) : Z := Z.land (Mode (stat e)) S_IFMT.
Definition is_directory (e : Entry) : bool := file_type e =? S_IFDIR.

Definition sameFsTimeSpec (a b : Timespec) : bool :=
  (Sec a =? Sec b) && ((Nsec a =? Nsec b) || (Nsec a =? 0) || (Nsec b =? 0)).

(** [a == b] compares the locations as well, which the callers share. *)
Definition sameFsTime (a b : Timespec) : bool :=
  bool_decide (a = b) || ((Sec a =? Sec b) && ((Nsec a =? 0) || (Nsec b =? 0))).

(** ** Changes *)

Inductive ChangeType := ChangeModify | ChangeAdd | ChangeDelete.
Record Change := { Path : string; Kind : ChangeType }.

#[export] Instance ChangeType_eq_dec : EqDecision ChangeType.
Proof. solve_decision. Defined.

Definition Change_String (c : Change) : string :=
  (match Kind c with ChangeModify => "C" | ChangeAdd => "A" | ChangeDelete => "D" end) +:+ " " +:+ Path c.

(** *** The changes of an AUFS branch, from its walk *)

Inductive stat_result := Found (e : Entry) | NotExist | StatError (e : string).

(** [filepath.Match("/.wh..wh.*", path)] *)
Definition aufs_metadata (path : string) : bool :=
  has_prefix "/.wh..wh." path && negb (contains_char "/" (drop_str 9 path)).

Definition wh : string := ".wh.".

Fixpoint in_layers (layers : list (string -> stat_result)) (path : string) (f : Entry) : result string (option ChangeType) :=
  match layers with
  | [] => Ok (Some ChangeAdd)
  | layer :: layers =>
      match layer path with
      | StatError e => Err e
      | NotExist => in_layers layers path f
      | Found st =>
          if is_directory st && is_directory f &&
             ((Size (stat f) =? Size (stat st)) && (Mode (stat f) =? Mode (stat st)) && sameFsTime (mtime (stat f)) (mtime (stat st)))
          then Ok None else Ok (Some ChangeModify)
      end
  end.

Definition Changes_step (layers : list (string -> stat_result)) (changes : list Change) '((path, f) : string * Entry) :
    result string (list Change) :=
  if String.eqb path "/" then Ok changes
  else if aufs_metadata path then Ok changes
  else
    let file := Base path in
    if has_prefix wh file then
      Ok (changes ++ [{| Path := Join [Dir path; drop_str 4 file]; Kind := ChangeDelete |}])
    else
      k ← in_layers layers path f;
      match k with
      | None => Ok changes
      | Some k => Ok (changes ++ [{| Path := path; Kind := k |}])
      end.

(** The walk of [rw] with its paths rebased. *)
Definition Changes (layers : list (string -> stat_result)) (rw : list (string * Entry)) : result string (list Change) :=
  result_foldl (Changes_step layers) [] rw.

(** *** The changes between two trees *)

Inductive FileInfo := Info (entry : Entry) (children : list (string * FileInfo)).

Definition info_entry (i : FileInfo) : Entry := match i with Info e _ => e end.
Definition info_children (i : FileInfo) : list (string * FileInfo) := match i with Info _ ch => ch end.

Definition assoc {A} (name : string) (l : list (string * A)) : option A :=
  snd <$> List.find (fun p => String.eqb (fst p) name) l.

(** [root] tells whether the parent pointer is nil. *)
Definition isDir (root : bool) (e : Entry) : bool := root || (Z.land (Mode (stat e)) S_IFDIR =? S_IFDIR).

Definition changed (oldChild newChild : Entry) : bool :=
  let o := stat oldChild in let n := stat newChild in
  negb (Mode o =? Mode n) || negb (Uid o =? Uid n) || negb (Gid o =? Gid n) || negb (Rdev o =? Rdev n) ||
  (negb (Size o =? Size n) && negb (Z.land (Mode o) S_IFDIR =? S_IFDIR)) ||
  negb (sameFsTimeSpec (mtime o) (mtime n)) ||
  negb (String.eqb (default "" (capability oldChild)) (default "" (capability newChild))).

(** The children in the order of the maps. *)
Fixpoint addChanges (root : bool) (path : string) (info : FileInfo) (oldInfo : option FileInfo) : list Change :=
  match info with
  | Info e ch =>
      let oldChildren := match oldInfo with
                         | Some o => if isDir root e then info_children o else []
                         | None => [] end in
      (match oldInfo with None => [{| Path := path; Kind := ChangeAdd |}] | Some _ => [] end) ++
      flat_map (fun x => match x with (name, newChild) =>
        let oldChild := assoc name oldChildren in
        (match oldChild with
         | Some o => if changed (info_entry o) (info_entry newChild)
                     then [{| Path := Join [path; name]; Kind := ChangeModify |}] else []
         | None => [] end) ++
        addChanges false (Join [path; name]) newChild oldChild end) ch ++
      flat_map (fun x => if bool_decide (fst x ∈ fst <$> ch) then []
                         else [{| Path := Join [path; fst x]; Kind := ChangeDelete |}]) oldChildren
  end.

(** [newRoot.Changes(oldRoot)] *)
Definition FileInfo_Changes (info oldInfo : FileInfo) : list Change := addChanges true "/" info (Some oldInfo).

(** [LookUp] of the names of a path. *)
Fixpoint LookUp (root : FileInfo) (elems : list string) : option FileInfo :=
  match elems with
  | [] => Some root
  | elem :: elems => match assoc elem (info_children root) with Some c => LookUp c elems | None => None end
  end.

(** [LookUp] of the directory and [parent.children\[name\] = info]. *)
Fixpoint set_child (name : string) (c : FileInfo) (l : list (string * FileInfo)) : list (string * FileInfo) :=
  match l with
  | [] => [(name, c)]
  | (n, x) :: l => if String.eqb n name then (n, c) :: l else (n, x) :: set_child name c l
  end.

Fixpoint insert_info (root : FileInfo) (dir : list string) (name : string) (e : Entry) : option FileInfo :=
  match root with
  | Info re ch =>
      match dir with
      | [] => Some (Info re (set_child name (Info e []) ch))
      | d :: dir =>
          match assoc d ch with
          | None => None
          | Some c => c' ← insert_info c dir name e; Some (Info re (set_child d c' ch))
          end
      end
  end.

Definition newRootFileInfo : FileInfo :=
  Info {| stat := {| Mode := 0; Uid := 0; Gid := 0; Rdev := 0; Size := 0; mtime := {| Sec := 0; Nsec := 0 |} |}; capability := None; data := "" |} [].

(** [collectFileInfo] over the walk of a directory, with paths rebased. *)
Definition collectFileInfo (walk : list (string * Entry)) : result string FileInfo :=
  result_foldl (fun root '(relPath, e) =>
    if String.eqb relPath "/" then Ok root
    else match insert_info root (path_elems (Dir relPath)) (Base relPath) e with
         | Some root => Ok root
         | None => Err ("collectFileInfo: Unexpectedly no parent for " +:+ relPath)
         end) newRootFileInfo walk.

Definition ChangesDirs (newWalk oldWalk : list (string * Entry)) : result string (list Change) :=
  oldRoot ← collectFileInfo oldWalk;
  newRoot ← collectFileInfo newWalk;
  Ok (FileInfo_Changes newRoot oldRoot).

(** ** File systems *)

Abbreviation fs := (gmap (list string) Entry).

(** The names of an absolute path. *)
Definition lookup_path (f : fs) (p : string) : option Entry := f !! path_elems p.

Definition ChangesSize (f : fs) (newDir : string) (changes : list Change) : Z :=
  foldl (fun size c =>
    match Kind c with
    | ChangeDelete => size
    | _ => match lookup_path f (Join [newDir; Path c]) with
           | Some e => if is_directory e then size else int64 (size + Size (stat e))
           | None => size
           end
    end) 0 changes.

Definition major (device : Z) : Z := Z.land (Z.shiftr device 8) 4095.
Definition minor (device : Z) : Z := Z.lor (Z.land device 255) (Z.land (Z.shiftr device 12) 1048320).
Definition mkdev (major minor : Z) : Z :=
  uint32 (Z.lor (Z.lor (Z.shiftl (Z.land minor 1048320) 12) (Z.shiftl (Z.land major 4095) 8)) (Z.land minor 255)).

(** ** Tar headers *)

Inductive tar_type := TypeReg | TypeRegA | TypeLink | TypeSymlink | TypeChar | TypeBlock | TypeDir | TypeFifo | TypeXGlobalHeader | TypeOther (c : Z).

#[export] Instance tar_type_eq_dec : EqDecision tar_type.
Proof. solve_decision. Defined.

Record Header := {
  h_Name : string; Typeflag : tar_type; h_Mode : Z; h_Uid : Z; h_Gid : Z; ModTime : Z;
  Devmajor : Z; Devminor : Z; Linkname : string; Xattr : option string; content : string }.

(** [tar.FileInfoHeader] of the tar package: permission bits and type; a
    socket gets no type, which is the type of an old regular file. *)
Definition header_type (e : Entry) : option tar_type :=
  let t := file_type e in
  if t =? S_IFREG then Some TypeReg
  else if t =? S_IFDIR then Some TypeDir
  else if t =? S_IFLNK then Some TypeSymlink
  else if t =? S_IFCHR then Some TypeChar
  else if t =? S_IFBLK then Some TypeBlock
  else if t =? S_IFIFO then Some TypeFifo
  else if t =? S_IFSOCK then Some TypeRegA
  else None.

(** The header [addTarFile] writes; times lose their fraction in a tar
    stream. *)
Definition addTarFile (f : fs) (path name : string) : option Header :=
  e ← lookup_path f path;
  t ← header_type e;
  let device := (Z.land (Mode (stat e)) S_IFBLK =? S_IFBLK) || (Z.land (Mode (stat e)) S_IFCHR =? S_IFCHR) in
  Some {| h_Name := if is_directory e && negb (has_suffix "/" name) then name +:+ "/" else name;
          Typeflag := t; h_Mode := Z.land (Mode (stat e)) 4095; h_Uid := Uid (stat e); h_Gid := Gid (stat e);
          ModTime := Sec (mtime (stat e));
          Devmajor := if device then major (Rdev (stat e)) else 0; Devminor := if device then minor (Rdev (stat e)) else 0;
          Linkname := if bool_decide (t = TypeSymlink) then data e else "";
          Xattr := capability e;
          content := if bool_decide (t = TypeReg) then data e else "" |}.

Definition whiteout_header (now : Z) (c : Change) : Header :=
  let whiteOut := Join [Dir (Path c); wh +:+ Base (Path c)] in
  {| h_Name := drop_str 1 whiteOut; Typeflag := TypeRegA; h_Mode := 0; h_Uid := 0; h_Gid := 0; ModTime := now;
     Devmajor := 0; Devminor := 0; Linkname := ""; Xattr := None; content := "" |}.

(** What cannot be added is logged and left out. *)
Definition ExportChanges (now : Z) (f : fs) (dir : string) (changes : list Change) : list Header :=
  flat_map (fun c =>
    match Kind c with
    | ChangeDelete => [whiteout_header now c]
    | _ => match addTarFile f (Join [dir; Path c]) (drop_str 1 (Path c)) with Some h => [h] | None => [] end
    end) changes.

(** ** Applying a layer *)

Definition RemoveAll (f : fs) (p : list string) : fs := filter (fun x => ~ p `prefix_of` fst x) f.

Definition is_dir_at (f : fs) (p : list string) : bool :=
  match p with [] => true | _ => match f !! p with Some e => is_directory e | None => false end end.

(** The proper prefixes of a path, from the root down. *)
Definition ancestors (p : list string) : list (list string) := (fun n => take n p) <$> seq 0 (length p).

(** [Lstat] fails because there is nothing, not because an ancestor is no
    directory. *)
Definition not_exist (f : fs) (p : list string) : bool :=
  match p with
  | [] => false
  | _ => match f !! p with
         | Some _ => false
         | None => forallb (fun a => match a with [] => true | _ =>
                     match f !! a with Some e => is_directory e | None => true end end) (ancestors p)
         end
  end.

Definition at_time (e : Entry) (t : Timespec) : Entry :=
  {| stat := {| Mode := Mode (stat e); Uid := Uid (stat e); Gid := Gid (stat e); Rdev := Rdev (stat e); Size := Size (stat e); mtime := t |};
     capability := capability e; data := data e |}.

Definition parent_path (p : list string) : list string := take (length p - 1) p.

Section Apply.
(** The time at which the kernel creates files, the size it gives to a new
    directory, and what the time of a directory becomes when one of its
    entries is made or removed ([fun _ => now], on a clock that stands). *)
Context (now : Timespec) (dir_size : Z) (noted : Timespec -> Timespec).

(** The directory of [p] after the entry [p] was made or removed. *)
Definition touch (p : list string) (f : fs) : fs :=
  alter (fun e => if is_directory e then at_time e (noted (mtime (stat e))) else e) (parent_path p) f.

(** [os.RemoveAll] *)
Definition remove (f : fs) (p : list string) : fs :=
  match f !! p with Some _ => touch p (RemoveAll f p) | None => RemoveAll f p end.

Definition new_dir (perm : Z) : Entry :=
  {| stat := {| Mode := Z.lor S_IFDIR perm; Uid := 0; Gid := 0; Rdev := 0; Size := dir_size; mtime := now |};
     capability := None; data := "" |}.

Definition MkdirAll (f : fs) (p : list string) : result string fs :=
  result_foldl (fun f a =>
    match a with
    | [] => Ok f
    | _ => match f !! a with
           | Some e => if is_directory e then Ok f else Err "not a directory"
           | None => Ok (<[a := new_dir 384]> (touch a f))
           end
    end) f (ancestors p ++ [p]).

(** The entry the switch of [createTarFile] leaves at [path]. *)
Definition create_file (f : fs) (extractDir path : string) (hdr : Header) : result string Entry :=
  let p := path_elems path in
  let fresh type size rdev data :=
    match f !! p with
    | Some _ => Err "file exists"
    | None => if is_dir_at f (parent_path p)
              then Ok {| stat := {| Mode := Z.lor type (h_Mode hdr); Uid := 0; Gid := 0; Rdev := rdev; Size := size; mtime := now |};
                         capability := None; data := data |}
              else Err "no such file or directory"
    end in
  match Typeflag hdr with
  | TypeDir =>
      match f !! p with
      | Some e => if is_directory e then Ok e else Err "file exists"
      | None => if is_dir_at f p then Ok (new_dir (h_Mode hdr)) else fresh S_IFDIR dir_size 0 ""
      end
  | TypeReg | TypeRegA =>
      match f !! p with
      | Some e =>
          if file_type e =? S_IFREG then
            let d := content hdr +:+ drop_str (String.length (content hdr)) (data e) in
            Ok {| stat := {| Mode := Mode (stat e); Uid := Uid (stat e); Gid := Gid (stat e); Rdev := Rdev (stat e);
                             Size := Z.of_nat (String.length d); mtime := now |}; capability := capability e; data := d |}
          else Err "cannot open the file"
      | None => fresh S_IFREG (Z.of_nat (String.length (content hdr))) 0 (content hdr)
      end
  | TypeBlock => fresh S_IFBLK 0 (mkdev (Devmajor hdr) (Devminor hdr)) ""
  | TypeChar => fresh S_IFCHR 0 (mkdev (Devmajor hdr) (Devminor hdr)) ""
  | TypeFifo => fresh S_IFIFO 0 (mkdev (Devmajor hdr) (Devminor hdr)) ""
  | TypeLink =>
      match lookup_path f (Join [extractDir; Linkname hdr]) with
      | None => Err "no such file or directory"
      | Some e => _ ← fresh 0 0 0 ""; Ok e
      end
  | TypeSymlink => fresh S_IFLNK (Z.of_nat (String.length (Linkname hdr))) 0 (Linkname hdr)
  | TypeXGlobalHeader => Err ""
  | TypeOther c => Err ("Unhandled tar header type " +:+ itoa c)
  end.

(** Owner, extended attribute, mode and time, the mode except for links. *)
Definition set_metadata (hdr : Header) (e : Entry) : Entry :=
  let link := bool_decide (Typeflag hdr = TypeSymlink) in
  {| stat := {| Mode := if link then Z.lor S_IFLNK 511 else Z.lor (file_type e) (Z.land (h_Mode hdr) 4095);
                Uid := h_Uid hdr; Gid := h_Gid hdr; Rdev := Rdev (stat e); Size := Size (stat e);
                mtime := {| Sec := ModTime hdr; Nsec := 0 |} |};
     capability := match Xattr hdr with Some c => Some c | None => capability e end;
     data := data e |}.

Definition createTarFile (f : fs) (path extractDir : string) (hdr : Header) : result string fs :=
  match Typeflag hdr with
  | TypeXGlobalHeader => Ok f
  | _ =>
      let p := path_elems path in
      e ← create_file f extractDir path hdr;
      let f := match f !! p with Some _ => f | None => touch p f end in
      Ok (<[p := set_metadata hdr e]> f)
  end.

Record Layering := { files : fs; aufsHardlinks : gmap string Header; dirs : list Header }.

Definition with_Name (h : Header) (n : string) : Header :=
  {| h_Name := n; Typeflag := Typeflag h; h_Mode := h_Mode h; h_Uid := h_Uid h; h_Gid := h_Gid h; ModTime := ModTime h;
     Devmajor := Devmajor h; Devminor := Devminor h; Linkname := Linkname h; Xattr := Xattr h; content := content h |}.

(** The parent directory of an entry, made when there is none. *)
Definition ensure_parent (dest name : string) (f : fs) : result string fs :=
  if negb (has_suffix "/" name) then
    let parentPath := path_elems (Join [dest; Dir name]) in
    if not_exist f parentPath then MkdirAll f parentPath else Ok f
  else Ok f.

Definition retarget (links : gmap string Header) (hdr : Header) : result string Header :=
  if bool_decide (Typeflag hdr = TypeLink) && has_prefix ".wh..wh.plnk" (Clean (Linkname hdr)) then
    match links !! Base (Linkname hdr) with
    | None => Err "Invalid aufs hardlink"
    | Some h => Ok h
    end
  else Ok hdr.

(** One header of the layer. *)
Definition apply_header (dest : string) (s : Layering) (hdr : Header) : result string Layering :=
  let hdr := with_Name hdr (Clean (h_Name hdr)) in
  f ← ensure_parent dest (h_Name hdr) (files s);
  let s := {| files := f; aufsHardlinks := aufsHardlinks s; dirs := dirs s |} in
  if has_prefix ".wh..wh." (h_Name hdr) then
    if has_prefix ".wh..wh.plnk" (h_Name hdr) && bool_decide (Typeflag hdr = TypeReg) then
      Ok {| files := f; aufsHardlinks := <[Base (h_Name hdr) := hdr]> (aufsHardlinks s); dirs := dirs s |}
    else Ok s
  else
    let path := Join [dest; h_Name hdr] in
    let base := Base path in
    if has_prefix wh base then
      let originalPath := Join [Dir path; drop_str 4 base] in
      Ok {| files := remove f (path_elems originalPath); aufsHardlinks := aufsHardlinks s; dirs := dirs s |}
    else
      let f := match lookup_path f path with
               | Some e => if negb (is_directory e && bool_decide (Typeflag hdr = TypeDir)) then remove f (path_elems path) else f
               | None => f
               end in
      srcHdr ← retarget (aufsHardlinks s) hdr;
      f ← createTarFile f path dest srcHdr;
      Ok {| files := f; aufsHardlinks := aufsHardlinks s;
            dirs := if bool_decide (Typeflag hdr = TypeDir) then dirs s ++ [hdr] else dirs s |}.

(** The times of the directories, at the end. *)
Definition set_dir_time (dest : string) (f : fs) (hdr : Header) : result string fs :=
  let p := path_elems (Join [dest; h_Name hdr]) in
  match f !! p with
  | None => Err "no such file or directory"
  | Some e => Ok (<[p := at_time e {| Sec := ModTime hdr; Nsec := 0 |}]> f)
  end.

Definition ApplyLayer (dest : string) (layer : list Header) (f : fs) : result string fs :=
  s ← result_foldl (apply_header dest) {| files := f; aufsHardlinks := ∅; dirs := [] |} layer;
  result_foldl (set_dir_time dest) (files s) (dirs s).
End Apply.

(** ** Device numbers and modes *)

(** Bit [i] of both sides, one bit at a time. *)
Ltac bit_step :=
  match goal with
  | |- context [Z.testbit ?x (Z.neg ?p)] => rewrite (Z.testbit_neg_r x (Z.neg p)) by lia
  | |- context [Z.testbit (Z.lor ?x ?y) ?i] => rewrite (Z.lor_spec x y i)
  | |- context [Z.testbit (Z.land ?x ?y) ?i] => rewrite (Z.land_spec x y i)
  | |- context [Z.testbit (Z.shiftl ?x ?k) ?i] => rewrite (Z.shiftl_spec x k i) by lia
  | |- context [Z.testbit (Z.shiftr ?x ?k) ?i] => rewrite (Z.shiftr_spec x k i) by lia
  end; cbn [Z.sub Z.add Z.opp Z.pos_sub Pos.add Pos.succ Pos.pred_double].

Lemma below_pow_bit d k i : 0 <= d < 2 ^ k -> 0 <= k <= i -> Z.testbit d i = false.
Proof.
  intros Hd Hk. destruct (Z.eq_dec d 0) as [->|]; [apply Z.bits_0|]. apply Z.bits_above_log2; [lia|].
  assert (Z.log2 d < k); [|lia]. apply Z.log2_lt_pow2; lia.
Qed.

Lemma eq_by_bits k a b : 0 <= k -> 0 <= a < 2 ^ k -> 0 <= b < 2 ^ k ->
  (forall i, 0 <= i < k -> Z.testbit a i = Z.testbit b i) -> a = b.
Proof.
  intros Hk Ha Hb H. apply Z.bits_inj'. intros i Hi. destruct (Z.ltb_spec i k); [by apply H|].
  by rewrite !(below_pow_bit _ k) by lia.
Qed.

Lemma mkdev_major_minor d : 0 <= d < 2 ^ 32 -> mkdev (major d) (minor d) = d.
Proof.
  intros Hd. apply (eq_by_bits 32); [lia| |done|].
  { unfold mkdev, wrapU. apply Z.mod_pos_bound. lia. }
  intros i Hi. unfold mkdev, wrapU, major, minor. rewrite Z.mod_pow2_bits_low by lia.
  assert (In i (Z.of_nat <$> seq 0 32)) as Hin.
  { apply in_map_iff. exists (Z.to_nat i). split; [lia|]. apply in_seq. lia. }
  cbn in Hin. repeat (destruct Hin as [<-|Hin]); [..|done]; repeat bit_step;
    generalize (Z.testbit d); intros b; cbn; repeat rewrite ?andb_true_r, ?andb_false_r, ?orb_false_r; done.
Qed.

(** The type bits and the permissions of a mode. *)
Definition type_bits (t : Z) : Prop := t ∈ [S_IFREG; S_IFDIR; S_IFLNK; S_IFCHR; S_IFBLK; S_IFIFO].

Lemma mode_split m : 0 <= m < 2 ^ 16 -> Z.lor (Z.land m S_IFMT) (Z.land m 4095) = m.
Proof.
  intros Hm. rewrite <- Z.land_lor_distr_r. change (Z.lor S_IFMT 4095) with (Z.ones 16). rewrite Z.land_ones by lia.
  apply Z.mod_small. lia.
Qed.

Lemma mode_join t m : type_bits t -> Z.land (Z.lor t (Z.land m 4095)) S_IFMT = t /\ Z.land (Z.lor t (Z.land m 4095)) 4095 = Z.land m 4095.
Proof.
  intros Ht. rewrite !Z.land_lor_distr_l, <- !Z.land_assoc. change (Z.land 4095 S_IFMT) with 0. change (Z.land 4095 4095) with 4095.
  rewrite Z.land_0_r, Z.lor_0_r. unfold type_bits in Ht. repeat (apply elem_of_cons in Ht as [->|Ht]); [..|by apply not_elem_of_nil in Ht];
    (split; [reflexivity|by rewrite Z.lor_0_l]).
Qed.

(** ** Entries that a layer keeps apart, and well-formed trees *)

Definition is_device (e : Entry) : bool := (file_type e =? S_IFCHR) || (file_type e =? S_IFBLK).

(** Equal in everything a layer records: fractions of a second, sizes and the
    attribute of a directory are not. *)
#[export] Instance entry_equiv : Equiv Entry := fun a b =>
  Mode (stat a) = Mode (stat b) /\ Uid (stat a) = Uid (stat b) /\ Gid (stat a) = Gid (stat b) /\
  Sec (mtime (stat a)) = Sec (mtime (stat b)) /\ data a = data b /\
  (is_device a = true -> Rdev (stat a) = Rdev (stat b)) /\
  (is_directory a = false -> default "" (capability a) = default "" (capability b)).

#[export] Instance entry_equivalence : Equivalence (≡@{Entry}).
Proof.
  unfold equiv, entry_equiv, is_device, is_directory, file_type. split.
  - intros a. by split_and!.
  - intros a b (H1 & ? & ? & ? & ? & H2 & H3). rewrite H1 in H2, H3. split_and!; try done; intros; symmetry; auto.
  - intros a b c (H1 & ? & ? & ? & ? & H2 & H3) (H1' & ? & ? & ? & ? & H2' & H3'). rewrite <- H1' in *. rewrite <- H1 in *.
    split_and!; try congruence; intros Ht; [rewrite H2 by done; by apply H2'|rewrite H3 by done; by apply H3'].
Qed.

(** An entry the tar format can carry. *)
Definition entry_ok (e : Entry) : Prop :=
  type_bits (file_type e) /\ 0 <= Mode (stat e) < 2 ^ 16 /\
  (file_type e = S_IFLNK -> Mode (stat e) = Z.lor S_IFLNK 511) /\
  (is_device e = true -> 0 <= Rdev (stat e) < 2 ^ 32) /\
  (file_type e <> S_IFREG -> file_type e <> S_IFLNK -> data e = "").

(** A name that is not taken for a whiteout. *)
Definition name_ok (n : string) : Prop := plain_elem n /\ has_prefix wh n = false.

(** Distinct names, and children below directories only; the root may be any
    entry. *)
Inductive tree_ok : FileInfo -> Prop :=
| tree_ok_info e ch :
    NoDup (fst <$> ch) -> (forall n c, (n, c) ∈ ch -> name_ok n) -> (forall n c, (n, c) ∈ ch -> entry_ok (info_entry c)) ->
    (forall n c, (n, c) ∈ ch -> is_directory (info_entry c) = false -> info_children c = []) ->
    (forall n c, (n, c) ∈ ch -> tree_ok c) -> tree_ok (Info e ch).

(** The entry at a path of a tree. *)
Fixpoint lookup_tree (i : FileInfo) (q : list string) : option Entry :=
  match q with
  | [] => Some (info_entry i)
  | n :: q => match assoc n (info_children i) with Some c => lookup_tree c q | None => None end
  end.

Lemma FileInfo_children_ind (P : FileInfo -> Prop) :
  (forall e ch, (forall x, x ∈ ch -> P (snd x)) -> P (Info e ch)) -> forall i, P i.
Proof.
  intros H. fix IH 1. intros [e ch]. apply H. induction ch as [|[n c] ch IHch].
  - intros x Hx. destruct (not_elem_of_nil _ Hx).
  - intros x Hx. apply elem_of_cons in Hx as [->|Hx]; [apply IH|exact (IHch x Hx)].
Qed.

Lemma assoc_Some {A} n (l : list (string * A)) c : assoc n l = Some c -> (n, c) ∈ l.
Proof.
  unfold assoc. destruct (List.find _ l) as [[m x]|] eqn:E; [|done]. intros [= <-].
  apply List.find_some in E as [Hin E]. apply String.eqb_eq in E. simpl in E. subst m. by apply list_elem_of_In.
Qed.

Lemma assoc_None {A} n (l : list (string * A)) : assoc n l = None <-> (n ∉ fst <$> l).
Proof.
  unfold assoc. induction l as [|[m x] l IH]; [split; [intros _; apply not_elem_of_nil|done]|]. cbn [List.find fst snd fmap list_fmap].
  destruct (String.eqb_spec m n) as [->|Hne].
  - split; [done|]. intros H. exfalso. apply H. by left.
  - rewrite IH, not_elem_of_cons. naive_solver.
Qed.

Lemma assoc_NoDup {A} n (l : list (string * A)) c : NoDup (fst <$> l) -> (n, c) ∈ l -> assoc n l = Some c.
Proof.
  unfold assoc. induction l as [|[m x] l IH]; [by intros _ ?%not_elem_of_nil|]. cbn [fmap list_fmap fst]. intros [Hm Hl]%NoDup_cons Hin.
  cbn [List.find fst snd]. destruct (String.eqb_spec m n) as [->|Hne].
  - apply elem_of_cons in Hin as [[= <-]|Hin]; [done|]. exfalso. apply Hm, list_elem_of_fmap. by exists (n, c).
  - apply elem_of_cons in Hin as [[= <- _]|Hin]; [done|]. by apply IH.
Qed.

Lemma tree_ok_child e ch n c : tree_ok (Info e ch) -> (n, c) ∈ ch ->
  name_ok n /\ entry_ok (info_entry c) /\ (is_directory (info_entry c) = false -> info_children c = []) /\ tree_ok c.
Proof. intros H Hin. inversion H as [? ? _ H1 H2 H3 H4]; subst. split_and!; eauto. Qed.

Lemma tree_ok_NoDup e ch : tree_ok (Info e ch) -> NoDup (fst <$> ch).
Proof. by inversion 1. Qed.

(** ** Names in headers *)

Lemma has_prefix_slash p n r : contains_char "/" p = false -> has_prefix p (n +:+ String "/" r) = has_prefix p n.
Proof.
  unfold has_prefix. revert p. induction n as [|c n IH]; intros p Hp.
  - destruct p as [|d p]; [by destruct r|]. simpl in Hp. apply orb_false_iff in Hp as [Hd _].
    change ("" +:+ String "/" r) with (String "/" r). cbn [String.prefix]. destruct (ascii_dec d "/") as [->|]; [done|done].
  - destruct p as [|d p]; [done|]. simpl in Hp. apply orb_false_iff in Hp as [_ Hp]. rewrite string_app_cons. cbn [String.prefix].
    destruct (ascii_dec d c); [by apply IH|done].
Qed.

Lemma has_prefix_join p n ns : contains_char "/" p = false -> has_prefix p (join "/" (n :: ns)) = has_prefix p n.
Proof. intros Hp. destruct ns as [|m ns]; [done|]. rewrite join_cons by done. by apply (has_prefix_slash p n). Qed.

Lemma has_prefix_wider p q s : has_prefix p s = false -> has_prefix (p +:+ q) s = false.
Proof.
  unfold has_prefix. revert s. induction p as [|c p IH]; intros s; [by destruct s|]. rewrite string_app_cons.
  destruct s as [|d s]; [done|]. cbn [String.prefix]. destruct (ascii_dec c d); [apply IH|done].
Qed.

Lemma has_prefix_both p q s : has_prefix (p +:+ q) (p +:+ s) = has_prefix q s.
Proof.
  unfold has_prefix. induction p as [|c p IH]; [done|]. rewrite !string_app_cons. cbn [String.prefix].
  by destruct (ascii_dec c c).
Qed.

Definition names_ok (ns : list string) : Prop := Forall name_ok ns.

Lemma names_plain ns : names_ok ns -> plain ns.
Proof. intros H. eapply Forall_impl; [exact H|]. by intros c [? _]. Qed.

Lemma names_ok_app ns ms : names_ok (ns ++ ms) <-> names_ok ns /\ names_ok ms.
Proof. apply Forall_app. Qed.

Lemma wh_plain n : plain_elem n -> plain_elem (wh +:+ n).
Proof. intros (Hc & Hn & _). split; [done|]. by repeat split. Qed.

Lemma not_exist_false f p : p = [] \/ is_Some (f !! p) -> not_exist f p = false.
Proof. intros [->|[e He]]; [done|]. unfold not_exist. destruct p; [done|]. by rewrite He. Qed.

(** A kernel that leaves the times of directories alone. *)
Definition still (t : Timespec) : Timespec := t.

Lemma touch_still p f : touch still p f = f.
Proof.
  apply map_eq. intros q. unfold touch. destruct (decide (q = parent_path p)) as [->|Hq]; [|by rewrite lookup_alter_ne].
  rewrite lookup_alter_eq. destruct (f !! parent_path p) as [[[] ? ?]|]; [|done]. simpl. by destruct (is_directory _).
Qed.

Lemma remove_still f p : remove still f p = RemoveAll f p.
Proof. unfold remove. rewrite touch_still. by destruct (f !! p). Qed.

Lemma parent_snoc (p : list string) n : parent_path (p ++ [n]) = p.
Proof. unfold parent_path. rewrite length_app. cbn [length]. replace (length p + 1 - 1)%nat with (length p) by lia. by rewrite take_app_length. Qed.

Section Steps.
Context (now : Timespec) (dir_size : Z) (ds : list string) (Hds : plain ds).

(** The parent directory [ensure_parent] looks for. *)
Lemma parent_of_name ns n : plain (ns ++ [n]) -> path_elems (Join [abs_path ds; Dir (join "/" (ns ++ [n]))]) = ds ++ ns.
Proof.
  intros Hp. rewrite Dir_rel by done. apply plain_app in Hp as [Hp _]. destruct ns as [|m ns].
  - by rewrite Join_abs_dot, path_elems_abs, app_nil_r.
  - rewrite Join_abs_rel, path_elems_abs by (try done; by apply plain_app). done.
Qed.

Lemma ensure_parent_there noted ns n f : plain (ns ++ [n]) -> ds ++ ns = [] \/ is_Some (f !! (ds ++ ns)) ->
  ensure_parent now dir_size noted (abs_path ds) (join "/" (ns ++ [n])) f = Ok f.
Proof. intros Hp Hf. unfold ensure_parent. destruct (negb _); [|done]. by rewrite parent_of_name, not_exist_false. Qed.

Lemma apply_whiteout tnow ns n s : names_ok (ns ++ [n]) -> ds ++ ns = [] \/ is_Some (files s !! (ds ++ ns)) ->
  apply_header now dir_size still (abs_path ds) s (whiteout_header tnow {| Path := abs_path (ns ++ [n]); Kind := ChangeDelete |}) =
  Ok {| files := RemoveAll (files s) (ds ++ ns ++ [n]); aufsHardlinks := aufsHardlinks s; dirs := dirs s |}.
Proof.
  intros Hn Hf. pose proof (names_plain _ Hn) as Hp. apply plain_app in Hp as Hp'. destruct Hp' as [Hns Hn1%plain_one].
  assert (plain (ns ++ [wh +:+ n])) as Hw by (apply plain_app; split; [done|]; by apply plain_one, wh_plain).
  assert (h_Name (whiteout_header tnow {| Path := abs_path (ns ++ [n]); Kind := ChangeDelete |}) = join "/" (ns ++ [wh +:+ n])) as Hname.
  { cbn [whiteout_header h_Name Path]. rewrite Dir_abs, Base_abs by (done || by apply Hn1).
    by rewrite Join_abs_one, drop_abs by (done || by apply wh_plain). }
  unfold apply_header. rewrite Hname. destruct (Clean_rel (ns ++ [wh +:+ n]) Hw) as [-> _]; [by destruct ns|].
  cbn [with_Name h_Name]. rewrite ensure_parent_there by done. cbn [mbind result_bind files aufsHardlinks dirs].
  assert (has_prefix ".wh..wh." (join "/" (ns ++ [wh +:+ n])) = false) as ->.
  { apply Forall_app in Hn as [Hns' Hn']. destruct ns as [|m ns].
    - transitivity (has_prefix ".wh." n); [apply (has_prefix_both wh ".wh." n)|]. by inversion Hn' as [|? ? [_ ?]].
    - cbn [app]. rewrite has_prefix_join by done. apply (has_prefix_wider ".wh." ".wh."). by inversion Hns' as [|? ? [? ?]]. }
  rewrite Join_abs_rel by (try done; by destruct ns). rewrite app_assoc, Base_abs by (by apply wh_plain).
  assert (has_prefix wh (wh +:+ n) = true) as -> by apply has_prefix_app.
  rewrite Dir_abs by (first [by apply plain_app | by apply wh_plain]).
  assert (drop_str 4 (wh +:+ n) = n) as -> by apply (drop_app_str wh n).
  rewrite remove_still. rewrite Join_abs_one by (first [by apply plain_app | done]). rewrite path_elems_abs; [by rewrite <- app_assoc|].
  rewrite <- app_assoc. apply plain_app. by split.
Qed.

(** *** Creating a file *)

Definition type_of (e : Entry) : tar_type := default TypeReg (header_type e).

(** The header of an entry under a name. *)
Definition header_of (e : Entry) (name : string) : Header :=
  let t := type_of e in
  let device := (Z.land (Mode (stat e)) S_IFBLK =? S_IFBLK) || (Z.land (Mode (stat e)) S_IFCHR =? S_IFCHR) in
  {| h_Name := if is_directory e && negb (has_suffix "/" name) then name +:+ "/" else name;
     Typeflag := t; h_Mode := Z.land (Mode (stat e)) 4095; h_Uid := Uid (stat e); h_Gid := Gid (stat e);
     ModTime := Sec (mtime (stat e));
     Devmajor := if device then major (Rdev (stat e)) else 0; Devminor := if device then minor (Rdev (stat e)) else 0;
     Linkname := if bool_decide (t = TypeSymlink) then data e else "";
     Xattr := capability e; content := if bool_decide (t = TypeReg) then data e else "" |}.

Lemma header_type_ok e : entry_ok e -> header_type e = Some (type_of e).
Proof.
  intros (Ht & _). unfold type_of. unfold type_bits in Ht. unfold header_type.
  repeat (apply elem_of_cons in Ht as [->|Ht]; [reflexivity|]). by apply not_elem_of_nil in Ht.
Qed.

Lemma addTarFile_ok g nd ns e : plain nd -> plain ns -> entry_ok e -> g !! (nd ++ ns) = Some e ->
  addTarFile g (Join [abs_path nd; abs_path ns]) (drop_str 1 (abs_path ns)) = Some (header_of e (join "/" ns)).
Proof.
  intros Hnd Hns He Hg. unfold addTarFile, lookup_path. rewrite Join_abs_abs, path_elems_abs by (try done; by apply plain_app).
  rewrite Hg. cbn [mbind option_bind]. rewrite header_type_ok by done. cbn [mbind option_bind]. by rewrite drop_abs.
Qed.

Lemma header_of_Clean e ns : plain ns -> ns <> [] -> Clean (h_Name (header_of e (join "/" ns))) = join "/" ns.
Proof. intros H Hne. cbn [header_of h_Name]. destruct (_ && _); by apply Clean_rel. Qed.

(** The file before its metadata is set, when nothing is in its place. *)
Definition fresh_of (h : Header) : Entry :=
  let mk type size rdev data :=
    {| stat := {| Mode := Z.lor type (h_Mode h); Uid := 0; Gid := 0; Rdev := rdev; Size := size; mtime := now |}; capability := None; data := data |} in
  match Typeflag h with
  | TypeDir => mk S_IFDIR dir_size 0 ""
  | TypeBlock => mk S_IFBLK 0 (mkdev (Devmajor h) (Devminor h)) ""
  | TypeChar => mk S_IFCHR 0 (mkdev (Devmajor h) (Devminor h)) ""
  | TypeFifo => mk S_IFIFO 0 (mkdev (Devmajor h) (Devminor h)) ""
  | TypeSymlink => mk S_IFLNK (Z.of_nat (String.length (Linkname h))) 0 (Linkname h)
  | _ => mk S_IFREG (Z.of_nat (String.length (content h))) 0 (content h)
  end.

Lemma create_fresh f p h e n : plain (p ++ [n]) -> Typeflag h = type_of e -> entry_ok e ->
  f !! (p ++ [n]) = None -> is_dir_at f p = true ->
  create_file now dir_size f (abs_path ds) (abs_path (p ++ [n])) h = Ok (fresh_of h).
Proof.
  intros Hp Ht He Hf Hd. unfold create_file, fresh_of. rewrite path_elems_abs, Hf by done.
  rewrite parent_snoc.
  assert (is_dir_at f (p ++ [n]) = false) as -> by (unfold is_dir_at; rewrite Hf; by destruct p). rewrite Hd, Ht.
  destruct He as (Hb & _). unfold type_of, header_type. unfold type_bits in Hb.
  repeat (apply elem_of_cons in Hb as [->|Hb]; [reflexivity|]). by apply not_elem_of_nil in Hb.
Qed.

Lemma set_metadata_type h e : file_type (set_metadata h e) =
  if bool_decide (Typeflag h = TypeSymlink) then S_IFLNK else Z.land (Z.lor (file_type e) (Z.land (h_Mode h) 4095)) S_IFMT.
Proof. unfold set_metadata, file_type at 1. cbn [stat Mode]. by destruct (bool_decide _). Qed.

Lemma fresh_type e name : entry_ok e -> file_type (fresh_of (header_of e name)) = file_type e /\
  Z.land (h_Mode (header_of e name)) 4095 = Z.land (Mode (stat e)) 4095.
Proof.
  intros (Hb & _). split; [|cbn [header_of h_Mode]; by rewrite <- Z.land_assoc].
  pose proof (mode_join (file_type e) (Mode (stat e)) Hb) as [Hj _]. transitivity (Z.land (Z.lor (file_type e) (Z.land (Mode (stat e)) 4095)) S_IFMT); [|done].
  unfold file_type at 1. f_equal. unfold fresh_of. cbn [header_of Typeflag]. unfold type_of, header_type. unfold type_bits in Hb.
  repeat (apply elem_of_cons in Hb as [->|Hb]; [reflexivity|]). by apply not_elem_of_nil in Hb.
Qed.

Lemma metadata_mode e name e0 : entry_ok e -> file_type e0 = file_type e ->
  Mode (stat (set_metadata (header_of e name) e0)) = Mode (stat e).
Proof.
  intros (Hb & Hm & Hl & _) H0. unfold set_metadata. cbn [stat Mode]. cbn [header_of Typeflag h_Mode]. rewrite H0, <- Z.land_assoc.
  change (Z.land 4095 4095) with 4095. rewrite (mode_split _ Hm : Z.lor (file_type e) _ = _).
  case_bool_decide as Ht; [|done]. symmetry. apply Hl. unfold type_of, header_type in Ht. unfold type_bits in Hb.
  repeat (apply elem_of_cons in Hb as [Hf|Hb]; [first [exact Hf | rewrite Hf in Ht; discriminate Ht]|]). by apply not_elem_of_nil in Hb.
Qed.

Lemma device_numbers e name : entry_ok e -> is_device e = true ->
  mkdev (Devmajor (header_of e name)) (Devminor (header_of e name)) = Rdev (stat e).
Proof.
  intros (_ & _ & _ & Hr & _) Hd. cbn [header_of Devmajor Devminor].
  assert (forall b, Z.land S_IFMT b = b -> Z.land (Mode (stat e)) b = Z.land (file_type e) b) as Hland.
  { intros b Eb. unfold file_type. by rewrite <- Z.land_assoc, Eb. }
  rewrite (Hland S_IFBLK), (Hland S_IFCHR) by done.
  assert ((Z.land (file_type e) S_IFBLK =? S_IFBLK) || (Z.land (file_type e) S_IFCHR =? S_IFCHR) = true) as ->.
  { unfold is_device in Hd. apply orb_true_iff in Hd as [Hf%Z.eqb_eq|Hf%Z.eqb_eq]; by rewrite Hf. }
  apply mkdev_major_minor. by apply Hr.
Qed.

(** With its metadata, a fresh file is the entry again. *)
Lemma fresh_entry e name : entry_ok e -> set_metadata (header_of e name) (fresh_of (header_of e name)) ≡ e.
Proof.
  intros He. pose proof (fresh_type e name He) as [Ht _]. pose proof (metadata_mode e name _ He Ht) as Hm.
  pose proof (device_numbers e name He) as Hdev. pose proof He as (Hb & _ & _ & _ & Hdata).
  set (e' := set_metadata (header_of e name) (fresh_of (header_of e name))) in *.
  unfold equiv, entry_equiv. split; [exact Hm|]. split; [done|]. split; [done|]. split; [done|].
  assert (is_device e' = is_device e) as -> by (unfold is_device, file_type; by rewrite Hm). split.
  - unfold e', set_metadata, fresh_of. cbn [data header_of Typeflag]. unfold type_of, header_type. unfold type_bits in Hb.
    repeat (apply elem_of_cons in Hb as [Hf|Hb]; [rewrite Hf; cbn; unfold type_of, header_type; rewrite ?Hf; first [done | symmetry; apply Hdata; rewrite Hf; discriminate]|]). by apply not_elem_of_nil in Hb.
  - split.
    + intros Hd. rewrite <- (Hdev Hd). unfold is_device in Hd. unfold e', set_metadata, fresh_of. cbn [stat Rdev header_of Typeflag].
      unfold type_of, header_type. apply orb_true_iff in Hd as [Hf%Z.eqb_eq|Hf%Z.eqb_eq]; by rewrite Hf.
    + intros _. unfold e', set_metadata. cbn [capability header_of Xattr]. destruct (capability e); [done|].
      unfold fresh_of. by destruct (Typeflag _).
Qed.

Lemma RemoveAll_lookup f p q : RemoveAll f p !! q = if decide (p `prefix_of` q) then None else f !! q.
Proof.
  unfold RemoveAll. destruct (decide (p `prefix_of` q)) as [Hp|Hp].
  - apply map_lookup_filter_None. right. intros x _. cbn. naive_solver.
  - destruct (f !! q) as [x|] eqn:E; [by apply map_lookup_filter_Some|]. apply map_lookup_filter_None. by left.
Qed.

Lemma prefix_snoc (p q : list string) n : p ++ [n] `prefix_of` q <-> exists r, q = p ++ n :: r.
Proof.
  split; intros [r Hr]; exists r; [by rewrite Hr, <- app_assoc|]. by rewrite <- app_assoc.
Qed.

Lemma not_prefix_parent (p : list string) n : ~ p ++ [n] `prefix_of` p.
Proof. intros H. apply prefix_length in H. rewrite length_app in H. cbn in H. lia. Qed.

(** The file system once the place of an entry is clear. *)
Definition cleared (f : fs) (p : list string) (e : Entry) : fs :=
  match f !! p with
  | Some old => if negb (is_directory old && is_directory e) then RemoveAll f p else f
  | None => f
  end.

Lemma type_dir e : entry_ok e -> bool_decide (type_of e = TypeDir) = is_directory e /\ type_of e <> TypeLink /\ type_of e <> TypeXGlobalHeader.
Proof.
  intros (Hb & _). unfold type_of, header_type, is_directory. unfold type_bits in Hb.
  repeat (apply elem_of_cons in Hb as [->|Hb]; [done|]). by apply not_elem_of_nil in Hb.
Qed.

Lemma cleared_place f p e : match cleared f p e !! p with Some old => is_directory old = true /\ is_directory e = true /\ f !! p = Some old | None => True end.
Proof.
  unfold cleared. destruct (f !! p) as [old|] eqn:E; [|by rewrite E]. destruct (is_directory old) eqn:E1, (is_directory e) eqn:E2; cbn [negb andb];
    first [rewrite RemoveAll_lookup, decide_True by done; done | by rewrite E].
Qed.

Lemma cleared_other f p e q : ~ p `prefix_of` q -> cleared f p e !! q = f !! q.
Proof.
  intros Hq. unfold cleared. destruct (f !! p); [|done]. destruct (negb _); [|done]. by rewrite RemoveAll_lookup, decide_False.
Qed.

Lemma apply_create ns n e s : names_ok (ns ++ [n]) -> entry_ok e -> is_dir_at (files s) (ds ++ ns) = true ->
  let p := ds ++ ns ++ [n] in
  match files s !! p with Some old => is_directory old = true -> data old = "" | None => True end ->
  exists h e', apply_header now dir_size still (abs_path ds) s (header_of e (join "/" (ns ++ [n]))) =
      Ok {| files := <[p := e']> (cleared (files s) p e); aufsHardlinks := aufsHardlinks s;
            dirs := dirs s ++ (if is_directory e then [h] else []) |} /\
    e' ≡ e /\ is_directory e' = is_directory e /\ h_Name h = join "/" (ns ++ [n]) /\ mtime (stat e') = {| Sec := ModTime h; Nsec := 0 |}.
Proof.
  intros Hn He Hdir p Hold. pose proof (names_plain _ Hn) as Hp. assert (ns ++ [n] <> []) as Hne by by destruct ns.
  assert (plain p) as Hpp by (apply plain_app; by split).
  set (h0 := header_of e (join "/" (ns ++ [n]))). set (h := with_Name h0 (join "/" (ns ++ [n]))).
  destruct (type_dir e He) as (Htd & Htl & Htg).
  exists h, (set_metadata h0 (match cleared (files s) p e !! p with Some old => old | None => fresh_of h0 end)).
  assert (is_Some (files s !! (ds ++ ns)) \/ ds ++ ns = []) as Hpar.
  { unfold is_dir_at in Hdir. destruct (ds ++ ns) as [|x l]; [by right|left]. by destruct (files s !! (x :: l)). }
  split.
  { assert (Clean (h_Name h0) = join "/" (ns ++ [n])) as Hcn by by apply header_of_Clean.
    unfold apply_header. rewrite Hcn. cbn [with_Name h_Name].
    rewrite ensure_parent_there by (try done; tauto). cbn [mbind result_bind files aufsHardlinks dirs].
    assert (has_prefix ".wh..wh." (join "/" (ns ++ [n])) = false) as ->.
    { destruct (ns ++ [n]) as [|m l]; [done|]. rewrite has_prefix_join by done. apply (has_prefix_wider ".wh." ".wh.").
      by inversion Hn as [|? ? [? ?]]. }
    rewrite Join_abs_rel by done. fold p. assert (Base (abs_path p) = n) as ->.
    { unfold p. rewrite app_assoc. apply Base_abs. apply plain_app in Hp as [_ Hp]. by apply plain_one. }
    assert (has_prefix wh n = false) as -> by (apply names_ok_app in Hn as [_ Hn]; by inversion Hn as [|? ? [? ?]]).
    unfold lookup_path. rewrite path_elems_abs by done. fold h0. fold h.
    assert (match files s !! p with Some e0 => if negb (is_directory e0 && bool_decide (Typeflag h = TypeDir)) then remove still (files s) p else files s
            | None => files s end = cleared (files s) p e) as ->.
    { unfold cleared. rewrite remove_still. change (Typeflag h) with (type_of e). by rewrite Htd. }
    unfold retarget. change (Typeflag h) with (type_of e). rewrite (bool_decide_eq_false_2 (type_of e = TypeLink)) by done.
    cbn [andb mbind result_bind]. unfold createTarFile. change (Typeflag h) with (type_of e).
    assert (create_file now dir_size (cleared (files s) p e) (abs_path ds) (abs_path p) h =
      Ok (match cleared (files s) p e !! p with Some old => old | None => fresh_of h0 end)) as Hc.
    { pose proof (cleared_place (files s) p e) as Hcl. destruct (cleared (files s) p e !! p) as [old|] eqn:Ecl.
      - destruct Hcl as (Ho & Hd & _). unfold create_file. change (Typeflag h) with (type_of e).
        rewrite <- Htd in Hd. apply bool_decide_eq_true in Hd. rewrite Hd, path_elems_abs, Ecl, Ho by done. done.
      - change (fresh_of h0) with (fresh_of h). unfold p in *. rewrite app_assoc in *. apply (create_fresh _ _ _ e); try done.
        unfold is_dir_at in *. destruct (ds ++ ns) as [|x l] eqn:El; [done|]. rewrite cleared_other; [done|]. apply not_prefix_parent. }
    destruct (type_of e) eqn:Ety; try done; rewrite Hc; cbn [mbind result_bind]; rewrite path_elems_abs, touch_still by done;
      (assert (match cleared (files s) p e !! p with Some _ => cleared (files s) p e | None => cleared (files s) p e end = cleared (files s) p e) as -> by (by destruct (cleared (files s) p e !! p)));
      rewrite <- Htd; first [by rewrite app_nil_r | done]. }
  assert (forall e0, mtime (stat (set_metadata h0 e0)) = {| Sec := ModTime h; Nsec := 0 |}) as Hmt by done.
  rewrite Hmt. pose proof (cleared_place (files s) p e) as Hcl. destruct (cleared (files s) p e !! p) as [old|].
  - destruct Hcl as (Ho & Hd & Hf). rewrite Hf in Hold. specialize (Hold Ho).
    assert (file_type old = file_type e) as Hft by (unfold is_directory in *; apply Z.eqb_eq in Ho, Hd; congruence).
    pose proof (metadata_mode e (join "/" (ns ++ [n])) old He Hft) as Hm. fold h0 in Hm.
    assert (is_directory (set_metadata h0 old) = is_directory e) as Hd' by (unfold is_directory, file_type; by rewrite Hm).
    split; [|done]. unfold equiv, entry_equiv. split; [exact Hm|]. do 3 (split; [done|]). split; [|split].
    + cbn [set_metadata data]. rewrite Hold. destruct He as (_ & _ & _ & _ & Hdata). symmetry. unfold is_directory in Hd. apply Z.eqb_eq in Hd.
      apply Hdata; rewrite Hd; discriminate.
    + unfold is_device. unfold file_type at 1 2. rewrite Hm. fold (file_type e). unfold is_directory in Hd. apply Z.eqb_eq in Hd. by rewrite Hd.
    + rewrite Hd', Hd. done.
  - pose proof (fresh_entry e (join "/" (ns ++ [n])) He) as Hfe. fold h0 in Hfe. split; [done|]. split; [|done].
    destruct Hfe as [Hm _]. unfold is_directory, file_type. by rewrite Hm.
Qed.

(** *** Headers whose directories are there *)

Definition parent_missing (s : Layering) (hdr : Header) : bool :=
  let name := Clean (h_Name hdr) in
  negb (has_suffix "/" name) && not_exist (files s) (path_elems (Join [abs_path ds; Dir name])).

Definition checked_header (s : Layering) (hdr : Header) : result string Layering :=
  if parent_missing s hdr then Err "no parent" else apply_header now dir_size still (abs_path ds) s hdr.

Lemma parent_found s hdr ns n : plain (ns ++ [n]) -> Clean (h_Name hdr) = join "/" (ns ++ [n]) -> ds ++ ns = [] \/ is_Some (files s !! (ds ++ ns)) ->
  checked_header s hdr = apply_header now dir_size still (abs_path ds) s hdr.
Proof. intros Hp Hn Hf. unfold checked_header, parent_missing. by rewrite Hn, parent_of_name, not_exist_false, andb_false_r. Qed.

Lemma whiteout_Clean tnow ns n : plain ns -> plain_elem n ->
  Clean (h_Name (whiteout_header tnow {| Path := abs_path (ns ++ [n]); Kind := ChangeDelete |})) = join "/" (ns ++ [wh +:+ n]).
Proof.
  intros Hns Hn. assert (plain (ns ++ [wh +:+ n])) as Hw by (apply plain_app; split; [done|]; by apply plain_one, wh_plain).
  cbn [whiteout_header h_Name Path]. rewrite Dir_abs, Base_abs by (done || by apply Hn).
  rewrite Join_abs_one, drop_abs by (done || by apply wh_plain). apply Clean_rel; [done|by destruct ns].
Qed.

Lemma checked_whiteout tnow ns n s : names_ok (ns ++ [n]) -> ds ++ ns = [] \/ is_Some (files s !! (ds ++ ns)) ->
  checked_header s (whiteout_header tnow {| Path := abs_path (ns ++ [n]); Kind := ChangeDelete |}) =
  Ok {| files := RemoveAll (files s) (ds ++ ns ++ [n]); aufsHardlinks := aufsHardlinks s; dirs := dirs s |}.
Proof.
  intros Hn Hf. pose proof (names_plain _ Hn) as [Hns Hn1%plain_one]%plain_app.
  rewrite (parent_found _ _ ns (wh +:+ n)); [by apply apply_whiteout| |by apply whiteout_Clean|done].
  apply plain_app. split; [done|]. by apply plain_one, wh_plain.
Qed.

Lemma checked_create ns n e s : names_ok (ns ++ [n]) -> entry_ok e -> is_dir_at (files s) (ds ++ ns) = true ->
  let p := ds ++ ns ++ [n] in
  match files s !! p with Some old => is_directory old = true -> data old = "" | None => True end ->
  exists h e', checked_header s (header_of e (join "/" (ns ++ [n]))) =
      Ok {| files := <[p := e']> (cleared (files s) p e); aufsHardlinks := aufsHardlinks s;
            dirs := dirs s ++ (if is_directory e then [h] else []) |} /\
    e' ≡ e /\ is_directory e' = is_directory e /\ h_Name h = join "/" (ns ++ [n]) /\ mtime (stat e') = {| Sec := ModTime h; Nsec := 0 |}.
Proof.
  intros Hn He Hdir p Hold. rewrite (parent_found _ _ ns n); [by apply apply_create|by apply names_plain|apply header_of_Clean; [by apply names_plain|by destruct ns]|].
  unfold is_dir_at in Hdir. destruct (ds ++ ns) as [|x l]; [by left|right]. by destruct (files s !! (x :: l)).
Qed.
End Steps.

(** ** A layer from the changes between two trees *)

(** A file whose recorded attributes are the same has the same content. *)
Definition faithful (o n : FileInfo) : Prop := forall q eo en,
  lookup_tree o q = Some eo -> lookup_tree n q = Some en -> changed eo en = false -> data eo = data en.

Lemma changed_equiv o n : entry_ok n -> changed o n = false -> data o = data n -> o ≡ n.
Proof.
  intros _ Hc Hd. unfold changed in Hc. repeat match goal with H : _ || _ = false |- _ => apply orb_false_iff in H as [? ?] end.
  repeat match goal with H : negb _ = false |- _ => apply negb_false_iff in H end.
  repeat match goal with H : (_ =? _) = true |- _ => apply Z.eqb_eq in H end.
  match goal with H : String.eqb _ _ = true |- _ => apply String.eqb_eq in H end.
  match goal with H : sameFsTimeSpec _ _ = true |- _ => unfold sameFsTimeSpec in H; apply andb_true_iff in H as [?%Z.eqb_eq _] end.
  by split_and!.
Qed.

Lemma changed_mode o n : changed o n = false -> Mode (stat o) = Mode (stat n).
Proof.
  unfold changed. intros Hc. repeat match goal with H : _ || _ = false |- _ => apply orb_false_iff in H as [? ?] end.
  match goal with H : negb (Mode _ =? _) = false |- _ => apply negb_false_iff, Z.eqb_eq in H; done end.
Qed.

Lemma faithful_child e ch e' ch' n c c' : faithful (Info e ch) (Info e' ch') -> assoc n ch = Some c -> assoc n ch' = Some c' -> faithful c c'.
Proof. intros H Hc Hc' q eo en Ho Hn. apply (H (n :: q)); cbn [lookup_tree info_children]; by rewrite ?Hc, ?Hc'. Qed.

Section Roundtrip.
Context (now : Timespec) (dir_size tnow : Z) (ds nd : list string) (g : fs).
Context (Hds : plain ds) (Hnd : plain nd).

Abbreviation export := (ExportChanges tnow g (abs_path nd)).
Abbreviation run := (result_foldl (checked_header now dir_size ds)).
Abbreviation below p := (fun q => p `prefix_of` q).

(** What a run of headers leaves alone: paths outside [R], hard links; the
    directories it lists are in [D] and have their times. *)
Definition ran (s s' : Layering) (R D : list string -> Prop) : Prop :=
  aufsHardlinks s' = aufsHardlinks s /\
  (forall q, ~ R q -> files s' !! q = files s !! q) /\
  exists hs, dirs s' = dirs s ++ hs /\
    forall h, h ∈ hs -> exists p e, path_elems (Join [abs_path ds; h_Name h]) = p /\ D p /\ files s' !! p = Some e /\
      mtime (stat e) = {| Sec := ModTime h; Nsec := 0 |}.

Lemma ran_refl s R D : ran s s R D.
Proof. split; [done|]. split; [done|]. exists []. split; [by rewrite app_nil_r|]. by intros h ?%not_elem_of_nil. Qed.

Lemma ran_trans s s1 s2 R1 D1 R2 D2 (R D : list string -> Prop) :
  ran s s1 R1 D1 -> ran s1 s2 R2 D2 -> (forall p, D1 p -> R2 p -> False) ->
  (forall p, R1 p \/ R2 p -> R p) -> (forall p, D1 p \/ D2 p -> D p) -> ran s s2 R D.
Proof.
  intros (A1 & F1 & hs1 & E1 & H1) (A2 & F2 & hs2 & E2 & H2) Hdis HR HD. split; [congruence|]. split.
  - intros q Hq. rewrite F2, F1; [done| |]; intros ?; apply Hq, HR; tauto.
  - exists (hs1 ++ hs2). split; [by rewrite E2, E1, app_assoc|]. intros h [Hin|Hin]%elem_of_app.
    + destruct (H1 h Hin) as (p & e & Hp & Hd & Hf & Hm). exists p, e. split; [done|]. split; [apply HD; by left|]. split; [|done].
      rewrite F2; [done|]. intros ?. by apply (Hdis p).
    + destruct (H2 h Hin) as (p & e & Hp & Hd & Hf & Hm). exists p, e. split; [done|]. split; [apply HD; by right|]. done.
Qed.

Lemma run_app s hs1 hs2 s1 s2 : run s hs1 = Ok s1 -> run s1 hs2 = Ok s2 -> run s (hs1 ++ hs2) = Ok s2.
Proof. intros H1 H2. rewrite result_foldl_app, H1. exact H2. Qed.

Lemma export_app cs ds' : export (cs ++ ds') = export cs ++ export ds'.
Proof. unfold ExportChanges. apply flat_map_app. Qed.

(** The changes of one child and of all the children of [ns]. *)
Definition child_changes (ns : list string) (oldChildren : list (string * FileInfo)) (x : string * FileInfo) : list Change :=
  let oldChild := assoc (fst x) oldChildren in
  (match oldChild with
   | Some o => if changed (info_entry o) (info_entry (snd x)) then [{| Path := abs_path (ns ++ [fst x]); Kind := ChangeModify |}] else []
   | None => []
   end) ++ addChanges false (abs_path (ns ++ [fst x])) (snd x) oldChild.

Definition deletions (ns : list string) (names : list string) : list Change :=
  (fun n => {| Path := abs_path (ns ++ [n]); Kind := ChangeDelete |}) <$> names.

Definition gone (ch oldChildren : list (string * FileInfo)) : list string :=
  List.filter (fun n => negb (bool_decide (n ∈ fst <$> ch))) (fst <$> oldChildren).

Lemma addChanges_eq root ns e ch old :
  names_ok ns -> (forall n c, (n, c) ∈ ch -> name_ok n) ->
  let oldChildren := match old with Some o => if isDir root e then info_children o else [] | None => [] end in
  (forall n c, (n, c) ∈ oldChildren -> name_ok n) ->
  addChanges root (abs_path ns) (Info e ch) old =
  (match old with None => [{| Path := abs_path ns; Kind := ChangeAdd |}] | Some _ => [] end) ++
  flat_map (child_changes ns oldChildren) ch ++ deletions ns (gone ch oldChildren).
Proof.
  intros Hns Hch oldChildren Hold. cbn [addChanges]. fold oldChildren. apply names_plain in Hns. f_equal. f_equal.
  - assert (forall l : list (string * FileInfo), (forall n c, (n, c) ∈ l -> name_ok n) ->
      flat_map (fun x => match x with (name, newChild) =>
        (match assoc name oldChildren with
         | Some o => if changed (info_entry o) (info_entry newChild) then [{| Path := Join [abs_path ns; name]; Kind := ChangeModify |}] else []
         | None => [] end) ++ addChanges false (Join [abs_path ns; name]) newChild (assoc name oldChildren) end) l =
      flat_map (child_changes ns oldChildren) l) as Hl; [|by apply Hl].
    induction l as [|[n c] l IH]; intros Hl; [done|]. cbn [flat_map]. rewrite IH by (intros m c' ?; apply (Hl m c'); by right). f_equal.
    unfold child_changes. cbn [fst snd]. rewrite Join_abs_one; [done|done|]. apply (Hl n c). by left.
  - clear Hch. unfold gone, deletions. revert Hold. generalize oldChildren. intros l. induction l as [|[n c] l IH]; intros Hold; [done|].
    cbn [flat_map fmap list_fmap fst List.filter]. rewrite IH by (intros m c' ?; apply (Hold m c'); by right).
    destruct (bool_decide (n ∈ fst <$> ch)); [done|]. cbn [negb app fmap list_fmap]. f_equal. f_equal. apply Join_abs_one; [done|].
    apply (Hold n c). by left.
Qed.

Lemma run_deletions ns names : forall s, names_ok ns -> names_ok names -> ds ++ ns = [] \/ is_Some (files s !! (ds ++ ns)) ->
  exists s', run s (export (deletions ns names)) = Ok s' /\
    ran s s' (fun q => exists n, n ∈ names /\ ds ++ ns ++ [n] `prefix_of` q) (fun _ => False) /\
    forall n q, n ∈ names -> files s' !! (ds ++ ns ++ n :: q) = None.
Proof.
  induction names as [|n names IH]; intros s Hns Hn Hp.
  { exists s. split; [done|]. split; [apply ran_refl|]. by intros n q ?%not_elem_of_nil. }
  inversion Hn as [|? ? Hn1 Hn2]; subst. cbn [deletions fmap list_fmap]. unfold ExportChanges. cbn [flat_map Kind app].
  cbn [result_foldl]. rewrite checked_whiteout by (first [done | apply names_ok_app; split; [done|by apply Forall_singleton]]).
  cbn [mbind result_bind]. set (s1 := {| files := _; aufsHardlinks := _; dirs := _ |}).
  destruct (IH s1 Hns Hn2) as (s' & Hs' & Hran & Hgone).
  { destruct Hp as [?|Hp]; [by left|right]. cbn [files s1]. rewrite RemoveAll_lookup, decide_False; [done|].
    rewrite app_assoc. apply not_prefix_parent. }
  exists s'. split; [exact Hs'|]. destruct Hran as (A & F & hs & Eh & Hh). split.
  - split; [done|]. split.
    + intros q Hq. rewrite F; [|intros (m & Hm & Hpre); apply Hq; exists m; split; [by right|done]].
      cbn [files s1]. rewrite RemoveAll_lookup, decide_False; [done|]. intros Hpre. apply Hq. exists n. split; [by left|done].
    + exists hs. split; [done|]. exact Hh.
  - intros m q Hm. destruct (decide (m ∈ names)) as [Hin|Hin]; [by apply Hgone|]. apply elem_of_cons in Hm as [->|Hm]; [|done].
    rewrite F.
    + cbn [files s1]. rewrite RemoveAll_lookup, decide_True; [done|]. exists q. by rewrite <- !app_assoc.
    + intros (m & Hm & [r Hr]). rewrite <- !app_assoc in Hr. apply app_inv_head, app_inv_head in Hr. by injection Hr as <- _.
Qed.

Definition tree_at (f : fs) (p : list string) (t : option FileInfo) : Prop :=
  forall q, f !! (p ++ q) = match t with Some t => lookup_tree t q | None => None end.

Definition old_ok (oc : option FileInfo) (nc : FileInfo) : Prop :=
  match oc with
  | Some o => entry_ok (info_entry o) /\ (is_directory (info_entry o) = false -> info_children o = []) /\ tree_ok o /\ faithful o nc
  | None => True
  end.

(** What the changes of one child do. *)
Definition node_spec (nc : FileInfo) : Prop := forall ns n oldChildren s,
  names_ok (ns ++ [n]) -> entry_ok (info_entry nc) -> (is_directory (info_entry nc) = false -> info_children nc = []) -> tree_ok nc ->
  is_dir_at (files s) (ds ++ ns) = true -> old_ok (assoc n oldChildren) nc ->
  tree_at (files s) (ds ++ ns ++ [n]) (assoc n oldChildren) -> tree_at g (nd ++ ns ++ [n]) (Some nc) ->
  exists s', run s (export (child_changes ns oldChildren (n, nc))) = Ok s' /\
    ran s s' (below (ds ++ ns ++ [n])) (below (ds ++ ns ++ [n])) /\
    forall q, files s' !! (ds ++ ns ++ n :: q) ≡ lookup_tree nc q.

Lemma is_dir_at_same f f' p : f' !! p = f !! p -> is_dir_at f' p = is_dir_at f p.
Proof. intros E. unfold is_dir_at. by rewrite E. Qed.

Lemma below_disjoint (p : list string) n m q : n <> m -> p ++ [n] `prefix_of` q -> ~ p ++ [m] `prefix_of` q.
Proof. intros Hne [r ->] [r' E]. rewrite <- !app_assoc in E. apply app_inv_head in E. by injection E. Qed.

(** All the children, one after the other. *)
Lemma run_children ns oldChildren : names_ok ns -> forall l s,
  (forall x, x ∈ l -> node_spec (snd x)) -> NoDup (fst <$> l) ->
  (forall n c, (n, c) ∈ l -> name_ok n /\ entry_ok (info_entry c) /\ (is_directory (info_entry c) = false -> info_children c = []) /\ tree_ok c /\
     old_ok (assoc n oldChildren) c /\ tree_at (files s) (ds ++ ns ++ [n]) (assoc n oldChildren) /\ tree_at g (nd ++ ns ++ [n]) (Some c)) ->
  is_dir_at (files s) (ds ++ ns) = true \/ l = [] ->
  exists s', run s (export (flat_map (child_changes ns oldChildren) l)) = Ok s' /\
    ran s s' (fun q => exists n, n ∈ fst <$> l /\ ds ++ ns ++ [n] `prefix_of` q) (fun q => exists n, n ∈ fst <$> l /\ ds ++ ns ++ [n] `prefix_of` q) /\
    forall n c q, (n, c) ∈ l -> files s' !! (ds ++ ns ++ n :: q) ≡ lookup_tree c q.
Proof.
  intros Hns. induction l as [|[n c] l IH]; intros s Hspec Hnd' Hpre Hdir.
  { exists s. split; [done|]. split; [apply ran_refl|]. by intros n c q ?%not_elem_of_nil. }
  destruct Hdir as [Hdir|?]; [|done]. cbn [fmap list_fmap fst] in Hnd'. apply NoDup_cons in Hnd' as [Hn Hnd'].
  destruct (Hpre n c) as (N1 & N2 & N3 & N4 & N5 & N6 & N7); [by left|].
  destruct (Hspec (n, c) ltac:(by left) ns n oldChildren s) as (s1 & R1 & (A1 & F1 & D1) & P1); try done.
  { apply names_ok_app. split; [done|]. by apply Forall_singleton. }
  assert (forall m, m <> n -> forall q, files s1 !! (ds ++ ns ++ m :: q) = files s !! (ds ++ ns ++ m :: q)) as Hother.
  { intros m Hm q. apply F1. rewrite app_assoc. intros Hp. eapply (below_disjoint (ds ++ ns) n m); [by intros ->|exact Hp|].
    exists q. by rewrite <- !app_assoc. }
  destruct (IH s1) as (s2 & R2 & (A2 & F2 & D2) & P2); [by intros x Hx; apply Hspec; right|done| | |].
  { intros m c' Hin. destruct (Hpre m c') as (M1 & M2 & M3 & M4 & M5 & M6 & M7); [by right|]. split_and!; try done.
    intros q. specialize (M6 q). rewrite <- !app_assoc in *. cbn [app] in *. rewrite Hother; [done|]. intros ->. apply Hn, list_elem_of_fmap. by exists (n, c'). }
  { left. rewrite <- Hdir. apply is_dir_at_same, F1. rewrite app_assoc. apply not_prefix_parent. }
  exists s2. split; [cbn [flat_map]; rewrite export_app; by eapply run_app|]. split.
  - eapply (ran_trans s s1 s2); [split; [exact A1|split; [exact F1|exact D1]]|split; [exact A2|split; [exact F2|exact D2]]| | |].
    + cbn beta. intros p Hp (m & Hm & Hp'). rewrite app_assoc in Hp, Hp'. eapply (below_disjoint (ds ++ ns) n m); [|exact Hp|exact Hp'].
      intros ->. done.
    + cbn [fmap list_fmap fst]. intros p [Hp|(m & Hm & Hp)]; [exists n; split; [by left|done]|exists m; split; [by right|done]].
    + cbn [fmap list_fmap fst]. intros p [Hp|(m & Hm & Hp)]; [exists n; split; [by left|done]|exists m; split; [by right|done]].
  - intros m c' q [[= -> ->]|Hin]%elem_of_cons; [|by apply P2]. rewrite F2; [apply P1|]. intros (k & Hk & Hp). rewrite app_assoc in Hp.
    eapply (below_disjoint (ds ++ ns) k n); [by intros ->|exact Hp|]. exists q. by rewrite <- !app_assoc.
Qed.

(** The children of a directory, and the deletions after them. *)
Lemma run_directory ns ch oldChildren s : names_ok ns -> tree_ok (Info (info_entry newRootFileInfo) ch) ->
  (forall x, x ∈ ch -> node_spec (snd x)) ->
  tree_ok (Info (info_entry newRootFileInfo) oldChildren) ->
  (forall n c, (n, c) ∈ ch -> old_ok (assoc n oldChildren) c) ->
  is_dir_at (files s) (ds ++ ns) = true \/ ch = [] -> ds ++ ns = [] \/ is_Some (files s !! (ds ++ ns)) ->
  (forall n, tree_at (files s) (ds ++ ns ++ [n]) (assoc n oldChildren)) \/ (ch = [] /\ forall n, tree_at (files s) (ds ++ ns ++ [n]) None) ->
  (forall n c, (n, c) ∈ ch -> tree_at g (nd ++ ns ++ [n]) (Some c)) ->
  exists s', run s (export (flat_map (child_changes ns oldChildren) ch ++ deletions ns (gone ch oldChildren))) = Ok s' /\
    ran s s' (fun q => exists n, ds ++ ns ++ [n] `prefix_of` q) (fun q => exists n, ds ++ ns ++ [n] `prefix_of` q) /\
    forall n q, files s' !! (ds ++ ns ++ n :: q) ≡ match assoc n ch with Some c => lookup_tree c q | None => None end.
Proof.
  intros Hns Hch Hspec Hold Hok Hdir Hpres Hat Hg.
  destruct (run_children ns oldChildren Hns ch s Hspec (tree_ok_NoDup _ _ Hch)) as (s1 & R1 & (A1 & F1 & D1) & P1); [|done|].
  { intros n c Hin. destruct (tree_ok_child _ _ _ _ Hch Hin) as (? & ? & ? & ?). split_and!; try done; [by apply Hok| |by apply Hg].
    destruct Hat as [Hat|[-> _]]; [by apply Hat|by apply not_elem_of_nil in Hin]. }
  assert (names_ok (gone ch oldChildren)) as Hgn.
  { apply Forall_forall. intros n Hin. apply list_elem_of_In, List.filter_In in Hin as [Hin _]. apply list_elem_of_In, list_elem_of_fmap in Hin as ([m c] & -> & Hin).
    by apply (tree_ok_child _ _ _ _ Hold Hin). }
  assert (files s1 !! (ds ++ ns) = files s !! (ds ++ ns)) as Hself.
  { apply F1. intros (n & _ & Hp). rewrite app_assoc in Hp. by apply not_prefix_parent in Hp. }
  destruct (run_deletions ns (gone ch oldChildren) s1 Hns Hgn) as (s2 & R2 & (A2 & F2 & D2) & P2); [by rewrite Hself|].
  assert (forall n, n ∈ gone ch oldChildren <-> (n ∉ fst <$> ch) /\ n ∈ fst <$> oldChildren) as Hgone.
  { intros n. unfold gone. rewrite list_elem_of_In, List.filter_In, <- list_elem_of_In, negb_true_iff, bool_decide_eq_false. tauto. }
  exists s2. split; [rewrite export_app; by eapply run_app|]. split.
  - eapply (ran_trans s s1 s2); [split; [exact A1|split; [exact F1|exact D1]]|split; [exact A2|split; [exact F2|exact D2]]| | |]; cbn beta.
    + intros p (n & Hn & Hp) (m & Hm & Hp'). apply Hgone in Hm as [Hm _]. rewrite app_assoc in Hp, Hp'.
      eapply (below_disjoint (ds ++ ns) n m); [by intros ->|exact Hp|exact Hp'].
    + intros p [(n & _ & Hp)|(n & _ & Hp)]; by exists n.
    + intros p [(n & _ & Hp)|[]]; by exists n.
  - intros n q. destruct (decide (n ∈ gone ch oldChildren)) as [Hin|Hin].
    { rewrite P2 by done. apply Hgone in Hin as [Hin _]. apply assoc_None in Hin. by rewrite Hin. }
    rewrite F2.
    2: { intros (m & Hm & Hp). rewrite app_assoc in Hp. eapply (below_disjoint (ds ++ ns) m n); [by intros ->|exact Hp|].
         exists q. by rewrite <- !app_assoc. }
    destruct (assoc n ch) as [c|] eqn:Ec; [apply P1; by apply assoc_Some|].
    rewrite F1.
    2: { intros (m & Hm & Hp). rewrite app_assoc in Hp. apply assoc_None in Ec. eapply (below_disjoint (ds ++ ns) m n); [by intros ->|exact Hp|].
         exists q. by rewrite <- !app_assoc. }
    assert (files s !! (ds ++ ns ++ n :: q) = None) as ->; [|done].
    replace (ds ++ ns ++ n :: q) with ((ds ++ ns ++ [n]) ++ q) by (by rewrite <- !app_assoc).
    destruct Hat as [Hat|[_ Hat]]; [|by apply Hat]. rewrite (Hat n q).
    destruct (assoc n oldChildren) as [c|] eqn:Eo; [|done]. exfalso. apply Hin, Hgone. split; [by apply assoc_None|].
    apply list_elem_of_fmap. exists (n, c). split; [done|by apply assoc_Some].
Qed.

Lemma tree_ok_entry e e' ch : tree_ok (Info e ch) -> tree_ok (Info e' ch).
Proof. inversion 1; subst. by constructor. Qed.

Lemma directory_isDir e : is_directory e = true -> isDir false e = true.
Proof.
  unfold is_directory, isDir, file_type. intros H%Z.eqb_eq. cbn [orb]. apply Z.eqb_eq.
  transitivity (Z.land (Z.land (Mode (stat e)) S_IFMT) S_IFDIR); [by rewrite <- Z.land_assoc|by rewrite H].
Qed.

Lemma directory_data e : entry_ok e -> is_directory e = true -> data e = "".
Proof. intros (_ & _ & _ & _ & H) Hd%Z.eqb_eq. apply H; rewrite Hd; discriminate. Qed.

(** One file is added or replaced. *)
Lemma run_file ns n e k s : names_ok (ns ++ [n]) -> entry_ok e -> is_dir_at (files s) (ds ++ ns) = true -> k <> ChangeDelete ->
  match files s !! (ds ++ ns ++ [n]) with Some old => is_directory old = true -> data old = "" | None => True end ->
  g !! (nd ++ ns ++ [n]) = Some e ->
  exists s1 e1, run s (export [{| Path := abs_path (ns ++ [n]); Kind := k |}]) = Ok s1 /\
    ran s s1 (below (ds ++ ns ++ [n])) (eq (ds ++ ns ++ [n])) /\
    files s1 = <[ds ++ ns ++ [n] := e1]> (cleared (files s) (ds ++ ns ++ [n]) e) /\ e1 ≡ e /\ is_directory e1 = is_directory e.
Proof.
  intros Hn He Hdir Hk Hold Hg. pose proof (names_plain _ Hn) as Hp.
  destruct (checked_create now dir_size ds Hds ns n e s Hn He Hdir Hold) as (h & e1 & H1 & H2 & H3 & H4 & H5).
  assert (export [{| Path := abs_path (ns ++ [n]); Kind := k |}] = [header_of e (join "/" (ns ++ [n]))]) as ->.
  { unfold ExportChanges. cbn [flat_map Kind Path app]. rewrite (addTarFile_ok g nd (ns ++ [n]) e) by done. by destruct k. }
  cbn [result_foldl]. rewrite H1. eexists _, e1. split; [done|]. split; [|done].
  split; [done|]. cbn [files dirs]. split.
  - intros q Hq. rewrite lookup_insert_ne by (intros <-; apply Hq; done). by apply cleared_other.
  - exists (if is_directory e then [h] else []). split; [done|]. intros h' Hin. exists (ds ++ ns ++ [n]), e1.
    destruct (is_directory e); [|by apply not_elem_of_nil in Hin]. apply list_elem_of_singleton in Hin as ->.
    rewrite H4, Join_abs_rel, path_elems_abs by (first [done | by destruct ns | by apply plain_app]).
    split; [done|]. split; [done|]. split; [by rewrite lookup_insert_eq|done].
Qed.

(** The entry itself, before its children. *)
Lemma run_entry ns n e ch oldChildren s : let nc := Info e ch in let oc := assoc n oldChildren in
  names_ok (ns ++ [n]) -> entry_ok e -> (is_directory e = false -> ch = []) ->
  is_dir_at (files s) (ds ++ ns) = true -> old_ok oc nc ->
  tree_at (files s) (ds ++ ns ++ [n]) oc -> g !! (nd ++ ns ++ [n]) = Some e ->
  exists s1 e1, run s (export ((match oc with
      | Some o => if changed (info_entry o) e then [{| Path := abs_path (ns ++ [n]); Kind := ChangeModify |}] else []
      | None => [] end) ++ match oc with None => [{| Path := abs_path (ns ++ [n]); Kind := ChangeAdd |}] | Some _ => [] end)) = Ok s1 /\
    ran s s1 (below (ds ++ ns ++ [n])) (eq (ds ++ ns ++ [n])) /\
    files s1 !! (ds ++ ns ++ [n]) = Some e1 /\ e1 ≡ e /\ is_directory e1 = is_directory e /\
    let oldCh := match oc with Some o => if isDir false e then info_children o else [] | None => [] end in
    ((forall m, tree_at (files s1) ((ds ++ ns ++ [n]) ++ [m]) (assoc m oldCh)) \/
     (ch = [] /\ forall m, tree_at (files s1) ((ds ++ ns ++ [n]) ++ [m]) None)).
Proof.
  intros nc oc Hn He Hch Hdir Hok Hat Hg. set (p := ds ++ ns ++ [n]) in *.
  assert (files s !! p = info_entry <$> oc) as Hp.
  { specialize (Hat []). rewrite app_nil_r in Hat. rewrite Hat. by destruct oc. }
  assert (forall (f f1 : fs) e1 m q, f1 = <[p := e1]> f -> f1 !! ((p ++ [m]) ++ q) = f !! ((p ++ [m]) ++ q)) as Hbelow.
  { intros f f1 e1 m q ->. apply lookup_insert_ne. intros E. apply (not_prefix_parent p m). exists q. exact E. }
  destruct oc as [o|] eqn:Eo.
  - destruct Hok as (Ho & Hoch & Hot & Hf). assert (files s !! p = Some (info_entry o)) as Hpo by done.
    assert (forall m q, files s !! ((p ++ [m]) ++ q) = match assoc m (info_children o) with Some c => lookup_tree c q | None => None end) as Hkids.
    { intros m q. specialize (Hat (m :: q)). cbn [lookup_tree] in Hat. rewrite <- Hat. by rewrite <- app_assoc. }
    destruct (changed (info_entry o) e) eqn:Ech.
    + destruct (run_file ns n e ChangeModify s Hn He Hdir) as (s1 & e1 & R1 & Hran & Hs1 & H1 & H2); [done| |done|].
      { fold p. rewrite Hpo. intros Hd. by apply directory_data. }
      exists s1, e1. rewrite app_nil_r. split; [exact R1|]. split; [exact Hran|]. fold p in Hs1. split; [by rewrite Hs1, lookup_insert_eq|].
      split; [done|]. split; [done|]. cbn zeta.
      destruct (is_directory (info_entry o)) eqn:Edo, (is_directory e) eqn:Ede.
      * left. rewrite (directory_isDir e) by done. intros m q. rewrite (Hbelow _ _ e1 m q Hs1). unfold cleared. rewrite Hpo, Edo, Ede. cbn [negb andb]. apply Hkids.
      * right. split; [by apply Hch|]. intros m q. rewrite (Hbelow _ _ e1 m q Hs1). unfold cleared. rewrite Hpo, Edo, Ede. cbn [negb andb].
        rewrite RemoveAll_lookup, decide_True; [done|]. exists ([m] ++ q). by rewrite app_assoc.
      * left. rewrite Hoch by done. intros m q. rewrite (Hbelow _ _ e1 m q Hs1). unfold cleared. rewrite Hpo, Edo, Ede. cbn [negb andb].
        rewrite RemoveAll_lookup, decide_True; [by destruct (isDir false e)|]. exists ([m] ++ q). by rewrite app_assoc.
      * left. rewrite Hoch by done. intros m q. rewrite (Hbelow _ _ e1 m q Hs1). unfold cleared. rewrite Hpo, Edo, Ede. cbn [negb andb].
        rewrite RemoveAll_lookup, decide_True; [by destruct (isDir false e)|]. exists ([m] ++ q). by rewrite app_assoc.
    + exists s, (info_entry o). split; [done|]. split; [apply ran_refl|]. split; [done|].
      assert (info_entry o ≡ e) as Heq by (apply changed_equiv; [done|done|]; by apply (Hf [])).
      pose proof (changed_mode _ _ Ech) as Hmode.
      assert (is_directory (info_entry o) = is_directory e) as Hd by (unfold is_directory, file_type; by rewrite Hmode).
      split; [done|]. split; [done|]. left. intros m q. rewrite Hkids. destruct (isDir false e) eqn:Ei; [done|].
      destruct (is_directory e) eqn:Ee; [by rewrite directory_isDir in Ei|]. by rewrite Hoch.
  - destruct (run_file ns n e ChangeAdd s Hn He Hdir) as (s1 & e1 & R1 & Hran & Hs1 & H1 & H2); [done| |done|].
    { fold p. by rewrite Hp. }
    exists s1, e1. split; [exact R1|]. split; [exact Hran|]. fold p in Hs1. split; [by rewrite Hs1, lookup_insert_eq|]. split; [done|]. split; [done|].
    left. intros m q. rewrite (Hbelow _ _ e1 m q Hs1). unfold cleared. rewrite Hp. cbn. rewrite <- app_assoc. apply (Hat ([m] ++ q)).
Qed.

Lemma node_spec_all nc : node_spec nc.
Proof.
  induction nc as [e ch IH] using FileInfo_children_ind. intros ns n oldChildren s Hn He Hch Htree Hdir Hok Hat Hg.
  cbn [info_entry info_children] in He, Hch. set (oc := assoc n oldChildren) in *.
  set (oldCh := match oc with Some o => if isDir false e then info_children o else [] | None => [] end).
  assert (tree_ok (Info (info_entry newRootFileInfo) oldCh)) as Hold.
  { unfold oldCh. destruct oc as [o|]; [|by constructor; try (intros; by apply not_elem_of_nil in H); apply NoDup_nil_2].
    destruct Hok as (_ & _ & Ho & _). destruct (isDir false e); [|by constructor; try (intros; by apply not_elem_of_nil in H); apply NoDup_nil_2].
    destruct o as [eo cho]. by eapply tree_ok_entry. }
  destruct (run_entry ns n e ch oldChildren s Hn He Hch Hdir Hok Hat) as (s1 & e1 & R1 & Hran1 & Hp1 & Heq & Hd1 & Hat1).
  { specialize (Hg []). by rewrite app_nil_r in Hg. }
  fold oc in R1, Hat1. fold oldCh in Hat1.
  destruct (run_directory (ns ++ [n]) ch oldCh s1 Hn) as (s2 & R2 & (A2 & F2 & D2) & P2);
    [by eapply tree_ok_entry|done|done| | | | | |].
  { intros m c Hin. destruct (assoc m oldCh) as [c'|] eqn:Ec; [|done]. unfold oldCh in Ec. destruct oc as [[eo cho]|]; [|done].
    destruct Hok as (_ & _ & Ho & Hf). destruct (isDir false e); [|done]. cbn [info_children] in Ec.
    destruct (tree_ok_child _ _ _ _ Ho (assoc_Some _ _ _ Ec)) as (_ & ? & ? & ?). split_and!; try done.
    eapply faithful_child; [exact Hf|exact Ec|]. apply assoc_NoDup; [by eapply tree_ok_NoDup|done]. }
  { destruct (is_directory e) eqn:Ed; [left|right; by apply Hch]. unfold is_dir_at. rewrite Hp1, Hd1.
    by destruct (ds ++ ns ++ [n]) eqn:E. }
  { right. by rewrite Hp1. }
  { destruct Hat1 as [Hat1|[? Hat1]]; [left|right; split; [done|]]; intros m; specialize (Hat1 m);
      (replace (ds ++ (ns ++ [n]) ++ [m]) with ((ds ++ ns ++ [n]) ++ [m]) by (by rewrite <- !app_assoc)); done. }
  { intros m c Hin q. specialize (Hg (m :: q)). cbn [lookup_tree info_children] in Hg.
    replace ((nd ++ (ns ++ [n]) ++ [m]) ++ q) with ((nd ++ ns ++ [n]) ++ m :: q) by (by rewrite <- !app_assoc). rewrite Hg. by rewrite (assoc_NoDup m ch c) by (try done; by eapply tree_ok_NoDup). }
  exists s2. split; [|split].
  - unfold child_changes. cbn [fst snd]. fold oc. rewrite addChanges_eq.
    + fold oldCh. rewrite app_assoc, export_app. by eapply run_app.
    + done.
    + intros m c Hin. by apply (tree_ok_child _ _ _ _ Htree Hin).
    + fold oldCh. intros m c Hin. by apply (tree_ok_child _ _ _ _ Hold Hin).
  - eapply (ran_trans s s1 s2); [exact Hran1|split; [exact A2|split; [exact F2|exact D2]]| | |]; cbn beta.
    + intros p <- (m & Hp). rewrite app_assoc in Hp. by apply not_prefix_parent in Hp.
    + intros p [Hp|(m & Hp)]; [done|]. etrans; [|exact Hp]. rewrite !app_assoc. by apply prefix_app_r.
    + intros p [<-|(m & Hp)]; [done|]. etrans; [|exact Hp]. rewrite !app_assoc. by apply prefix_app_r.
  - intros [|m q].
    + rewrite F2; [rewrite Hp1; by constructor|]. intros (m & Hp). rewrite app_assoc in Hp. by apply not_prefix_parent in Hp.
    + specialize (P2 m q). rewrite <- !app_assoc in P2. exact P2.
Qed.
End Roundtrip.

(** *** The times of directories *)

(** An entry without what the kernel changes by itself. *)
Definition timeless (e : Entry) : Entry := if is_directory e then at_time e {| Sec := 0; Nsec := 0 |} else e.

Lemma at_time_type e t : file_type (at_time e t) = file_type e.
Proof. done. Qed.

Lemma timeless_same a b : timeless a = timeless b ->
  file_type a = file_type b /\ (is_directory a = false -> a = b) /\ (forall t, at_time a t = at_time b t) /\ forall h, set_metadata h a = set_metadata h b.
Proof.
  intros H. assert (is_directory a = is_directory b) as Hd.
  { apply (f_equal is_directory) in H. unfold timeless in H. destruct (is_directory a) eqn:Ea, (is_directory b) eqn:Eb; try done;
      unfold is_directory in *; rewrite ?at_time_type in H; congruence. }
  unfold timeless in H. rewrite <- Hd in H. destruct (is_directory a) eqn:Ea; [|subst b; done].
  destruct a as [[] ? ?], b as [[] ? ?]. unfold at_time in H. simpl in H. simplify_eq. done.
Qed.

(** The same files, up to the times of the directories in [T]. *)
Definition alike (T : list (list string)) (f f' : fs) : Prop :=
  forall p, timeless <$> f !! p = timeless <$> f' !! p /\ (p ∉ T -> f !! p = f' !! p).

Lemma alike_sub (T T' : list (list string)) f f' : (forall p, p ∈ T -> p ∈ T') -> alike T f f' -> alike T' f f'.
Proof. intros HT H p. destruct (H p) as [H1 H2]. split; [done|]. intros Hp. apply H2. by intros ?%HT. Qed.

Lemma alike_cases T f f' p : alike T f f' ->
  (f !! p = None /\ f' !! p = None) \/ (exists a b, f !! p = Some a /\ f' !! p = Some b /\ timeless a = timeless b).
Proof.
  intros H. destruct (H p) as [H1 _]. destruct (f !! p) as [a|], (f' !! p) as [b|]; simpl in H1; try done; [right|by left].
  exists a, b. split; [done|]. split; [done|]. congruence.
Qed.

Lemma alike_touch noted T f f' p : alike T f f' -> alike (parent_path p :: T) f (touch noted p f').
Proof.
  intros H q. destruct (H q) as [H1 H2]. unfold touch. destruct (decide (q = parent_path p)) as [->|Hq].
  - split; [|by intros []%not_elem_of_cons]. rewrite lookup_alter_eq, H1. destruct (f' !! _) as [e|]; [|done]. simpl. f_equal.
    destruct (is_directory e) eqn:E; [|done]. unfold timeless, is_directory in *. rewrite at_time_type, E. done.
  - rewrite lookup_alter_ne by done. split; [done|]. intros [_ Hn]%not_elem_of_cons. by apply H2.
Qed.

Lemma alike_RemoveAll T f f' p : alike T f f' -> alike T (RemoveAll f p) (RemoveAll f' p).
Proof. intros H q. rewrite !RemoveAll_lookup. case_decide; [done|]. apply H. Qed.

Lemma alike_remove noted T f f' p : alike T f f' -> alike (parent_path p :: T) (RemoveAll f p) (remove noted f' p).
Proof.
  intros H. pose proof (alike_RemoveAll T f f' p H) as Hr. unfold remove. destruct (f' !! p); [by apply alike_touch|].
  eapply alike_sub; [|done]. intros q Hq. by right.
Qed.

Lemma alike_insert T f f' p e : alike T f f' -> alike T (<[p := e]> f) (<[p := e]> f').
Proof. intros H q. rewrite !lookup_insert. case_decide; [done|]. apply H. Qed.

Lemma alike_dir T f f' : alike T f f' -> (forall p, is_dir_at f p = is_dir_at f' p) /\ (forall p, not_exist f p = not_exist f' p).
Proof.
  intros H. assert (forall p, match f !! p with Some e => is_directory e | None => true end = match f' !! p with Some e => is_directory e | None => true end /\
    match f !! p with Some e => is_directory e | None => false end = match f' !! p with Some e => is_directory e | None => false end) as Hp.
  { intros p. destruct (alike_cases _ _ _ p H) as [[-> ->]|(a & b & -> & -> & Hab)]; [done|].
    apply timeless_same in Hab as (Ht & _). unfold is_directory. by rewrite Ht. }
  split; intros p; [unfold is_dir_at; destruct p; [done|apply Hp]|]. unfold not_exist. destruct p as [|x p]; [done|].
  destruct (alike_cases _ _ _ (x :: p) H) as [[-> ->]|(a & b & -> & -> & _)]; [|done].
  induction (ancestors (x :: p)) as [|q l IH]; [done|]. simpl. rewrite IH. destruct q; [done|]. by rewrite (proj1 (Hp _)).
Qed.

Section Kernel.
Context (now : Timespec) (dir_size : Z) (noted : Timespec -> Timespec) (ds : list string).

Lemma alike_create T f f' dest path h e : alike T f f' -> create_file now dir_size f dest path h = Ok e ->
  exists e', create_file now dir_size f' dest path h = Ok e' /\ timeless e = timeless e'.
Proof.
  intros H. pose proof (alike_dir T f f' H) as [Hd _]. unfold create_file, lookup_path. rewrite <- !Hd.
  set (p := path_elems path).
  destruct (alike_cases _ _ _ p H) as [[-> ->]|(a & b & -> & -> & Hab)].
  - destruct (alike_cases _ _ _ (path_elems (Join [dest; Linkname h])) H) as [[-> ->]|(a & b & -> & -> & Hab)].
    + intros He. exists e. by split.
    + destruct (Typeflag h); try (intros He; exists e; by split). destruct (is_dir_at f (parent_path p)); [|done].
      intros [= <-]. exists b. by split.
  - pose proof (timeless_same _ _ Hab) as (Ht & He & _ & _). assert (is_directory a = is_directory b) as Hdd by (unfold is_directory; by rewrite Ht).
    destruct (Typeflag h); try done.
    + rewrite <- Ht. destruct (Z.eqb_spec (file_type a) S_IFREG) as [Hr|]; [|done]. rewrite <- He by (unfold is_directory; by rewrite Hr).
      intros [= <-]. by eexists.
    + rewrite <- Ht. destruct (Z.eqb_spec (file_type a) S_IFREG) as [Hr|]; [|done]. rewrite <- He by (unfold is_directory; by rewrite Hr).
      intros [= <-]. by eexists.
    + by destruct (f !! path_elems (Join [dest; Linkname h])).
    + rewrite <- Hdd. destruct (is_directory a); [|done]. intros [= <-]. by exists b.
Qed.

(** The directory a header touches. *)
Definition touched (hdr : Header) : list string :=
  let path := Join [abs_path ds; Clean (h_Name hdr)] in
  parent_path (path_elems (if has_prefix wh (Base path) then Join [Dir path; drop_str 4 (Base path)] else path)).
Definition match_states (T : list (list string)) (s r : Layering) : Prop :=
  alike T (files s) (files r) /\ aufsHardlinks r = aufsHardlinks s /\ dirs r = dirs s.

Lemma apply_header_alike T s r hdr s' : match_states T s r -> checked_header now dir_size ds s hdr = Ok s' ->
  exists r', apply_header now dir_size noted (abs_path ds) r hdr = Ok r' /\ match_states (touched hdr :: T) s' r'.
Proof.
  intros (Ha & Hl & Hd). unfold checked_header, apply_header, parent_missing. set (name := Clean (h_Name hdr)). cbn [with_Name h_Name Typeflag].
  pose proof (alike_dir _ _ _ Ha) as [_ Hne].
  destruct (negb (has_suffix "/" name) && not_exist (files s) (path_elems (Join [abs_path ds; Dir name]))) eqn:Hpar; [done|].
  assert (forall nt f, (forall p, not_exist (files s) p = not_exist f p) -> ensure_parent now dir_size nt (abs_path ds) name f = Ok f) as Hens.
  { intros nt f Hf. unfold ensure_parent. destruct (negb _); [|done]. simpl in Hpar. by rewrite <- Hf, Hpar. }
  clear Hpar.
  rewrite !Hens by done. cbn [mbind result_bind files aufsHardlinks dirs]. rewrite Hl, Hd.
  assert (forall p x y, alike T x y -> alike (p :: T) x y) as Hmore by (intros p x y; apply alike_sub; intros q; by right).
  destruct (has_prefix ".wh..wh." name).
  { destruct (has_prefix ".wh..wh.plnk" name && _); intros [= <-]; eexists; (split; [done|]); (split; [by apply Hmore|done]). }
  unfold touched. fold name. set (path := Join [abs_path ds; name]). destruct (has_prefix wh (Base path)).
  { intros [= <-]. eexists. split; [done|]. split; [|done]. rewrite remove_still. cbn [files]. by apply alike_remove. }
  set (p := path_elems path). unfold lookup_path. fold p.
  set (f1 := match files s !! p with Some _ => _ | None => _ end). set (f2 := match files r !! p with Some _ => _ | None => _ end).
  assert (alike (parent_path p :: T) f1 f2) as H12.
  { unfold f1, f2. destruct (alike_cases _ _ _ p Ha) as [[-> ->]|(a & b & -> & -> & Hab)]; [by apply Hmore|].
    pose proof (timeless_same _ _ Hab) as (Ht & _). unfold is_directory. rewrite Ht, remove_still.
    destruct (negb _); [by apply alike_remove|by apply Hmore]. }
  destruct (retarget (aufsHardlinks s) _) as [h|]; [|done]. cbn [mbind result_bind].
  destruct (createTarFile now dir_size still f1 path (abs_path ds) h) as [f1'|] eqn:Hc; [|done]. cbn [mbind result_bind]. intros [= <-].
  assert (exists f2', createTarFile now dir_size noted f2 path (abs_path ds) h = Ok f2' /\ alike (parent_path p :: T) f1' f2') as (f2' & -> & Hf).
  { unfold createTarFile in *. fold p in Hc |- *. destruct (Typeflag h); try (injection Hc as <-; by exists f2).
    all: destruct (create_file now dir_size f1 (abs_path ds) path h) as [e|] eqn:Hcr; [|done];
      destruct (alike_create _ _ _ _ _ _ _ H12 Hcr) as (e' & -> & He); cbn [mbind result_bind] in *; injection Hc as <-;
      rewrite touch_still; eexists; (split; [done|]);
      replace (set_metadata h e') with (set_metadata h e) by (by apply timeless_same);
      apply alike_insert; destruct (alike_cases _ _ _ p H12) as [[-> ->]|(a & b & -> & -> & _)]; [|done];
      (eapply alike_sub; [|by apply alike_touch]); intros q; rewrite !elem_of_cons; tauto. }
  cbn [mbind result_bind]. eexists. split; [done|]. split; [exact Hf|done].
Qed.

Lemma run_alike hs : forall T s r s', match_states T s r -> result_foldl (checked_header now dir_size ds) s hs = Ok s' ->
  exists r', result_foldl (apply_header now dir_size noted (abs_path ds)) r hs = Ok r' /\ match_states (rev (touched <$> hs) ++ T) s' r'.
Proof.
  induction hs as [|h hs IH]; intros T s r s' Hm Hr; [injection Hr as <-; by exists r|]. cbn [result_foldl] in *.
  destruct (checked_header now dir_size ds s h) as [s1|] eqn:Hs; [|done]. destruct (apply_header_alike T s r h s1 Hm Hs) as (r1 & -> & Hm1).
  cbn [mbind result_bind] in *. destruct (IH _ _ _ _ Hm1 Hr) as (r' & -> & Hm'). exists r'. split; [done|].
  cbn [fmap list_fmap rev]. by rewrite <- app_assoc.
Qed.

(** The times the last loop sets. *)
Lemma set_dir_times dest hs : forall T f r, alike T f r ->
  (forall h, h ∈ hs -> exists e, f !! path_elems (Join [dest; h_Name h]) = Some e /\ mtime (stat e) = {| Sec := ModTime h; Nsec := 0 |}) ->
  exists r', result_foldl (set_dir_time dest) r hs = Ok r' /\ alike T f r' /\
    forall p, r !! p = f !! p \/ (exists h, h ∈ hs /\ p = path_elems (Join [dest; h_Name h])) -> r' !! p = f !! p.
Proof.
  induction hs as [|h hs IH]; intros T f r Ha H; [exists r; split; [done|]; split; [done|]; by intros p [?|(h & []%not_elem_of_nil & _)]|].
  cbn [result_foldl]. set (p := path_elems (Join [dest; h_Name h])).
  destruct (H h ltac:(by left)) as (e & He & Hm). fold p in He.
  destruct (alike_cases _ _ _ p Ha) as [[Hn _]|(a & b & Hfa & Hrb & Hab)]; [congruence|]. assert (a = e) as -> by congruence.
  assert (set_dir_time dest r h = Ok (<[p := at_time b {| Sec := ModTime h; Nsec := 0 |}]> r)) as -> by (unfold set_dir_time; fold p; by rewrite Hrb).
  cbn [mbind result_bind]. replace (at_time b {| Sec := ModTime h; Nsec := 0 |}) with e.
  2: { transitivity (at_time e (mtime (stat e))); [by destruct e as [[] ? ?]|]. rewrite Hm. by apply timeless_same. }
  destruct (IH T f (<[p := e]> r)) as (r' & Hr' & Ha' & Hp).
  - intros q. destruct (decide (q = p)) as [->|Hq]; [by rewrite lookup_insert_eq, He|]. rewrite lookup_insert_ne by done. apply Ha.
  - intros h' Hin. apply H. by right.
  - exists r'. split; [done|]. split; [done|]. intros q Hq. apply Hp. destruct (decide (q = p)) as [->|Hne]; [left; by rewrite lookup_insert_eq|].
    destruct Hq as [Hq|(h' & [->|Hin]%elem_of_cons & ->)]; [left; by rewrite lookup_insert_ne|done|right; by exists h'].
Qed.
End Kernel.

(** *** The theorem *)

(** The files of a tree below a directory. *)
Fixpoint flat (p : list string) (i : FileInfo) : list (list string * Entry) :=
  match i with
  | Info _ ch => flat_map (fun x => match x with (n, c) => (p ++ [n], info_entry c) :: flat (p ++ [n]) c end) ch
  end.

Lemma elem_of_flat i : tree_ok i -> forall p k e, (k, e) ∈ flat p i <-> exists q, q <> [] /\ k = p ++ q /\ lookup_tree i q = Some e.
Proof.
  induction i as [re ch IH] using FileInfo_children_ind. intros Hok p k e. cbn [flat]. rewrite list_elem_of_In, in_flat_map. split.
  - intros ([n c] & Hin & Hk). apply list_elem_of_In in Hin. pose proof (tree_ok_child _ _ _ _ Hok Hin) as (_ & _ & _ & Hc).
    assert (assoc n ch = Some c) as Ha by (apply assoc_NoDup; [by eapply tree_ok_NoDup|done]). destruct Hk as [[= <- <-]|Hk].
    + exists [n]. split; [done|]. split; [done|]. simpl. by rewrite Ha.
    + apply list_elem_of_In, (IH (n, c) Hin Hc) in Hk as (q & Hq & -> & Hl). exists (n :: q). split; [done|].
      split; [by rewrite <- app_assoc|]. simpl. by rewrite Ha.
  - intros (q & Hq & -> & Hl). destruct q as [|n q]; [done|]. cbn [lookup_tree info_children] in Hl.
    destruct (assoc n ch) as [c|] eqn:Ha; [|done]. pose proof (assoc_Some _ _ _ Ha) as Hin. exists (n, c). split; [by apply list_elem_of_In|].
    pose proof (tree_ok_child _ _ _ _ Hok Hin) as (_ & _ & _ & Hc). destruct q as [|m q]; [left; by injection Hl as <-|right].
    apply list_elem_of_In, (IH (n, c) Hin Hc). exists (m :: q). split; [done|]. split; [by rewrite <- app_assoc|done].
Qed.

Definition fs_of (p : list string) (i : FileInfo) : fs := list_to_map (flat p i).

Lemma fs_of_lookup p i q : tree_ok i -> q <> [] -> fs_of p i !! (p ++ q) = lookup_tree i q.
Proof.
  intros Hok Hq. unfold fs_of. destruct (lookup_tree i q) as [e|] eqn:E.
  - apply elem_of_list_to_map_1'.
    + intros e' (q' & Hq' & Heq & He')%elem_of_flat; [|done]. apply app_inv_head in Heq as <-. congruence.
    + apply elem_of_flat; [done|]. by exists q.
  - apply not_elem_of_list_to_map_1. intros Hin. apply list_elem_of_fmap in Hin as ([k e] & Hk & Hin). simpl in Hk. subst k.
    apply elem_of_flat in Hin as (q' & Hq' & Heq & He'); [|done]. apply app_inv_head in Heq as <-. congruence.
Qed.

Lemma lookup_tree_ok t q e : tree_ok t -> q <> [] -> lookup_tree t q = Some e -> entry_ok e.
Proof.
  revert t. induction q as [|n q IH]; intros [re ch] Ht Hq Hl; [done|]. simpl in Hl. destruct (assoc n ch) as [c|] eqn:Ha; [|done].
  destruct (tree_ok_child _ _ _ _ Ht (assoc_Some _ _ _ Ha)) as (_ & Hc & _ & Hct). destruct q as [|m q]; [by injection Hl as <-|by apply (IH c)].
Qed.

Lemma lookup_tree_names t q e : tree_ok t -> lookup_tree t q = Some e -> plain q.
Proof.
  revert t. induction q as [|n q IH]; intros [re ch] Ht Hl; [constructor|]. simpl in Hl. destruct (assoc n ch) as [c|] eqn:Ha; [|done].
  destruct (tree_ok_child _ _ _ _ Ht (assoc_Some _ _ _ Ha)) as ([Hn _] & _ & _ & Hct). constructor; [done|by apply (IH c)].
Qed.

Lemma timeless_equiv a b : a ≡ b -> timeless a ≡ timeless b.
Proof.
  intros (H1 & H2 & H3 & H4 & H5 & H6 & H7). assert (is_directory a = is_directory b) as Hd by (unfold is_directory, file_type; by rewrite H1).
  unfold timeless. rewrite <- Hd. destruct (is_directory a) eqn:E; (split; [exact H1|]); split_and!; try done; [|by intros _; apply H7].
  intros Hf. unfold is_directory in *. rewrite at_time_type in Hf. congruence.
Qed.

(** The round trip when the kernel leaves the times of directories alone. *)
Lemma still_roundtrip (now : Timespec) (dir_size tnow : Z) (ds nd : list string) (old new : FileInfo) (f g : fs) :
  plain ds -> plain nd -> tree_ok old -> tree_ok new -> faithful old new -> is_dir_at f ds = true ->
  (forall q, q <> [] -> f !! (ds ++ q) = lookup_tree old q) ->
  (forall q, q <> [] -> g !! (nd ++ q) = lookup_tree new q) ->
  exists s, result_foldl (checked_header now dir_size ds) {| files := f; aufsHardlinks := ∅; dirs := [] |}
      (ExportChanges tnow g (abs_path nd) (FileInfo_Changes new old)) = Ok s /\
    (forall h, h ∈ dirs s -> exists e, files s !! path_elems (Join [abs_path ds; h_Name h]) = Some e /\ mtime (stat e) = {| Sec := ModTime h; Nsec := 0 |}) /\
    (forall q, q <> [] -> files s !! (ds ++ q) ≡ lookup_tree new q) /\
    (forall p, ~ (exists q, q <> [] /\ p = ds ++ q) -> files s !! p = f !! p).
Proof.
  intros Hds Hnd Hold Hnew Hfaith Hdir Hf Hg. destruct old as [eo cho], new as [en ch].
  assert (names_ok []) as Hnil by constructor.
  destruct (run_directory now dir_size tnow ds nd g Hds [] ch cho {| files := f; aufsHardlinks := ∅; dirs := [] |} Hnil)
    as (s & R & (A & F & hs & D & Hhs) & P).
  - by eapply tree_ok_entry.
  - intros x _. by apply node_spec_all.
  - by eapply tree_ok_entry.
  - intros n c Hin. destruct (assoc n cho) as [o|] eqn:Eo; [|done]. destruct (tree_ok_child _ _ _ _ Hold (assoc_Some _ _ _ Eo)) as (_ & ? & ? & ?).
    split_and!; try done. eapply faithful_child; [exact Hfaith|exact Eo|]. apply assoc_NoDup; [by eapply tree_ok_NoDup|done].
  - left. cbn [files]. by rewrite app_nil_r.
  - cbn [files]. rewrite app_nil_r. unfold is_dir_at in Hdir. destruct ds as [|d l]; [by left|right]. by destruct (f !! (d :: l)).
  - left. intros n q. cbn [files app]. rewrite <- app_assoc. rewrite Hf by done. simpl. by destruct (assoc n cho).
  - intros n c Hin q. cbn [app]. rewrite <- app_assoc, Hg by done. simpl. by rewrite (assoc_NoDup n ch c) by (try done; by eapply tree_ok_NoDup).
  - exists s. cbn [app] in *. split; [|split; [|split]].
    + unfold FileInfo_Changes. change "/" with (abs_path []) at 1. rewrite addChanges_eq; [done|done| |].
      * intros n c Hin. by apply (tree_ok_child _ _ _ _ Hnew Hin).
      * cbn [isDir orb info_children]. intros n c Hin. by apply (tree_ok_child _ _ _ _ Hold Hin).
    + intros h Hin. rewrite D in Hin. cbn [app dirs] in Hin. destruct (Hhs h Hin) as (p & e & -> & _ & He & Hm). by exists e.
    + intros [|n q] Hq; [done|]. apply P.
    + intros p Hp. rewrite F; [done|]. intros (n & r & Hr). apply Hp. exists (n :: r). split; [done|]. by rewrite Hr, <- app_assoc.
Qed.

(** Every change is at a path of names, below the directory. *)
Lemma addChanges_paths t : forall root ns old c, tree_ok t -> names_ok ns ->
  match old with Some o => tree_ok o | None => True end -> c ∈ addChanges root (abs_path ns) t old ->
  exists q, names_ok (ns ++ q) /\ Path c = abs_path (ns ++ q) /\ (is_Some old -> q <> []) /\ (Kind c = ChangeDelete -> q <> []) /\
    (Kind c <> ChangeDelete -> is_Some (lookup_tree t q)).
Proof.
  induction t as [e ch IH] using FileInfo_children_ind. intros root ns old c Ht Hns Hold.
  set (oldCh := match old with Some o => if isDir root e then info_children o else [] | None => [] end).
  assert (forall n o, (n, o) ∈ oldCh -> name_ok n /\ tree_ok o) as Hoc.
  { intros n o Hin. unfold oldCh in Hin. destruct old as [[eo cho]|]; [|by apply not_elem_of_nil in Hin].
    destruct (isDir root e); [|by apply not_elem_of_nil in Hin]. by destruct (tree_ok_child _ _ _ _ Hold Hin) as (? & _ & _ & ?). }
  rewrite addChanges_eq; [|done|intros n x Hin; by apply (tree_ok_child _ _ _ _ Ht Hin)|intros n x Hin; by apply (Hoc n x)]. fold oldCh.
  intros [Hc|[Hc|Hc]%elem_of_app]%elem_of_app.
  - destruct old as [o|]; [by apply not_elem_of_nil in Hc|]. apply list_elem_of_singleton in Hc as ->. exists []. rewrite app_nil_r.
    split; [done|]. split; [done|]. split; [by intros [? [=]]|]. split; [done|]. by eexists.
  - apply list_elem_of_In, in_flat_map in Hc as ([n x] & Hin%list_elem_of_In & Hc%list_elem_of_In).
    destruct (tree_ok_child _ _ _ _ Ht Hin) as (Hn & _ & _ & Hx).
    assert (names_ok (ns ++ [n])) as Hnn by (apply names_ok_app; split; [done|by apply Forall_singleton]).
    assert (assoc n ch = Some x) as Ha by (apply assoc_NoDup; [by eapply tree_ok_NoDup|done]).
    unfold child_changes in Hc. cbn [fst snd] in Hc. apply elem_of_app in Hc as [Hc|Hc].
    + exists [n]. destruct (assoc n oldCh) as [o|]; [|by apply not_elem_of_nil in Hc]. destruct (changed _ _); [|by apply not_elem_of_nil in Hc].
      apply list_elem_of_singleton in Hc as ->. split; [done|]. split; [done|]. split; [done|]. split; [done|]. intros _. simpl. rewrite Ha. by eexists.
    + destruct (IH (n, x) Hin false (ns ++ [n]) (assoc n oldCh) c Hx Hnn) as (q & Hq & Hp & _ & _ & Hl); [|done|].
      * destruct (assoc n oldCh) as [o|] eqn:Eo; [|done]. by apply (Hoc n o), assoc_Some.
      * exists (n :: q). rewrite <- app_assoc in Hq, Hp. split; [done|]. split; [done|]. split; [done|]. split; [done|]. simpl. by rewrite Ha.
  - unfold deletions in Hc. apply list_elem_of_fmap in Hc as (n & -> & Hin). unfold gone in Hin.
    apply list_elem_of_In, List.filter_In in Hin as [Hin%list_elem_of_In _]. apply list_elem_of_fmap in Hin as ([m o] & -> & Hin).
    exists [m]. split; [apply names_ok_app; split; [done|by apply Forall_singleton, (Hoc m o)]|]. split; [done|]. split; [done|]. by split.
Qed.

(** A change at a path below the directory. *)
Definition change_at (cs : list Change) (q : list string) : Prop := exists k, {| Path := abs_path q; Kind := k |} ∈ cs.

(** The directory is an entry of the layer. *)
Definition listed (cs : list Change) (q : list string) : Prop := exists k, k <> ChangeDelete /\ {| Path := abs_path q; Kind := k |} ∈ cs.

Section Headers.
Context (now : Timespec) (dir_size tnow : Z) (ds nd : list string) (g : fs) (Hds : plain ds) (Hnd : plain nd).

Lemma target_path ns n : names_ok (ns ++ [n]) ->
  parent_path (path_elems (Join [abs_path ds; join "/" (ns ++ [n])])) = ds ++ ns /\ Base (Join [abs_path ds; join "/" (ns ++ [n])]) = n.
Proof.
  intros Hn. pose proof (names_plain _ Hn) as Hp. rewrite Join_abs_rel by (try done; by destruct ns).
  rewrite path_elems_abs by (by apply plain_app). rewrite app_assoc, parent_snoc. split; [done|]. apply Base_abs. by apply plain_app in Hp as [_ ?%plain_one].
Qed.

(** What a change touches is the directory of its path. *)
Lemma touched_export ns n k h : names_ok (ns ++ [n]) -> (forall e, g !! (nd ++ ns ++ [n]) = Some e -> entry_ok e) ->
  h ∈ ExportChanges tnow g (abs_path nd) [{| Path := abs_path (ns ++ [n]); Kind := k |}] -> touched ds h = ds ++ ns.
Proof.
  intros Hn Hg Hh. pose proof (names_plain _ Hn) as Hp. pose proof Hp as [Hns Hn1%plain_one]%plain_app.
  assert (k <> ChangeDelete -> touched ds h = ds ++ ns) as Hadd.
  { intros Hk. unfold ExportChanges in Hh. cbn [flat_map Kind Path] in Hh. rewrite app_nil_r in Hh.
    assert (h ∈ match addTarFile g (Join [abs_path nd; abs_path (ns ++ [n])]) (drop_str 1 (abs_path (ns ++ [n]))) with Some h => [h] | None => [] end) as Hin by (by destruct k).
    destruct (g !! (nd ++ ns ++ [n])) as [e|] eqn:Ee.
    - rewrite (addTarFile_ok g nd (ns ++ [n]) e) in Hin by (done || by apply Hg). apply list_elem_of_singleton in Hin as ->.
      unfold touched. rewrite header_of_Clean by (done || by destruct ns). destruct (target_path ns n Hn) as [H1 ->].
      assert (has_prefix wh n = false) as -> by (apply names_ok_app in Hn as [_ Hn]; by inversion Hn as [|? ? [? ?]]). done.
    - unfold addTarFile, lookup_path in Hin. rewrite Join_abs_abs, path_elems_abs, Ee in Hin by (try done; by apply plain_app).
      by apply not_elem_of_nil in Hin. }
  destruct k; [by apply Hadd|by apply Hadd|]. unfold ExportChanges in Hh. cbn [flat_map Kind app] in Hh. apply list_elem_of_singleton in Hh as ->.
  unfold touched. rewrite whiteout_Clean by done.
  assert (plain (ns ++ [wh +:+ n])) as Hw by (apply plain_app; split; [done|]; by apply plain_one, wh_plain).
  rewrite Join_abs_rel by (try done; by destruct ns). rewrite app_assoc, Base_abs by (by apply wh_plain).
  rewrite has_prefix_app, Dir_abs by (first [by apply plain_app | by apply wh_plain]).
  rewrite (drop_app_str wh n : drop_str 4 (wh +:+ n) = n), Join_abs_one by (first [by apply plain_app | done]).
  rewrite path_elems_abs by (rewrite <- app_assoc; by apply plain_app). by rewrite parent_snoc.
Qed.

Lemma in_export h cs : h ∈ ExportChanges tnow g (abs_path nd) cs -> exists c, c ∈ cs /\ h ∈ ExportChanges tnow g (abs_path nd) [c].
Proof.
  unfold ExportChanges. rewrite list_elem_of_In, in_flat_map. intros (c & Hc%list_elem_of_In & Hh). exists c. split; [done|].
  cbn [flat_map]. rewrite app_nil_r. by apply list_elem_of_In.
Qed.

(** Directories of the layer are in the list of the last loop. *)
Lemma run_lists_dirs hs : forall s s' h, result_foldl (checked_header now dir_size ds) s hs = Ok s' -> h ∈ hs -> Typeflag h = TypeDir ->
  has_prefix ".wh..wh." (Clean (h_Name h)) = false -> has_prefix wh (Base (Join [abs_path ds; Clean (h_Name h)])) = false ->
  with_Name h (Clean (h_Name h)) ∈ dirs s'.
Proof.
  assert (forall s h s', checked_header now dir_size ds s h = Ok s' -> (forall d, d ∈ dirs s -> d ∈ dirs s') /\
    (Typeflag h = TypeDir -> has_prefix ".wh..wh." (Clean (h_Name h)) = false -> has_prefix wh (Base (Join [abs_path ds; Clean (h_Name h)])) = false ->
     with_Name h (Clean (h_Name h)) ∈ dirs s')) as Hstep.
  { intros s h s'. unfold checked_header. destruct (parent_missing _ _ _); [done|]. unfold apply_header. cbn [with_Name h_Name Typeflag].
    destruct (ensure_parent _ _ _ _ _ _) as [f|]; [|done]. cbn [mbind result_bind files aufsHardlinks dirs].
    destruct (has_prefix ".wh..wh." (Clean (h_Name h))) eqn:Ew; [by destruct (has_prefix _ _ && _); intros [= <-]|].
    destruct (has_prefix wh _) eqn:Eb; [by intros [= <-]|].
    destruct (retarget _ _); [|done]. cbn [mbind result_bind]. destruct (createTarFile _ _ _ _ _ _ _); [|done]. cbn [mbind result_bind]. intros [= <-]. cbn [dirs].
    split; [intros d Hd; destruct (bool_decide _); [apply elem_of_app; by left|done]|].
    intros Ht _ _. rewrite bool_decide_eq_true_2 by done. apply elem_of_app. right. by apply list_elem_of_singleton. }
  assert (forall hs s s' d, result_foldl (checked_header now dir_size ds) s hs = Ok s' -> d ∈ dirs s -> d ∈ dirs s') as Hkeep.
  { clear hs. induction hs as [|h hs IH]; intros s s' d Hr Hd; [by injection Hr as <-|]. cbn [result_foldl] in Hr.
    destruct (checked_header now dir_size ds s h) as [s1|] eqn:E; [|done]. apply (IH s1 s' d Hr). by apply (Hstep s h s1 E). }
  induction hs as [|h0 hs IH]; intros s s' h Hr Hin; [by apply not_elem_of_nil in Hin|]. cbn [result_foldl] in Hr.
  destruct (checked_header now dir_size ds s h0) as [s1|] eqn:E; [|done]. intros Ht H1 H2. apply elem_of_cons in Hin as [->|Hin].
  - apply (Hkeep hs s1 s' _ Hr). by apply (Hstep s h0 s1 E).
  - by apply (IH s1 s' h Hr).
Qed.
End Headers.

(** C17. Layers: the changes from an old to a new tree, exported as a layer
    and applied to a directory that holds the old tree, make it the new one
    - entry by entry, up to what a layer does not record - and touch nothing
    outside that directory.  Whatever the kernel makes of the time of a
    directory when its entries come and go, the directories of the layer
    have the times of the new tree at the end, and so have those in which
    nothing changes; only a directory that is not in the layer, with an entry
    that is, keeps the time of the extraction ([replaced_file_touches]).  The
    trees have plain names that do not begin with [.wh.], no sockets, and no
    file whose content changed without a change of its recorded attributes. *)
Theorem Changes_ApplyLayer (now : Timespec) (dir_size : Z) (noted : Timespec -> Timespec) (tnow : Z) (ds nd : list string) (old new : FileInfo) (f g : fs) :
  plain ds -> plain nd -> tree_ok old -> tree_ok new -> faithful old new -> is_dir_at f ds = true ->
  (forall q, q <> [] -> f !! (ds ++ q) = lookup_tree old q) ->
  (forall q, q <> [] -> g !! (nd ++ q) = lookup_tree new q) ->
  let changes := FileInfo_Changes new old in
  exists f', ApplyLayer now dir_size noted (abs_path ds) (ExportChanges tnow g (abs_path nd) changes) f = Ok f' /\
    (forall q, q <> [] -> timeless <$> f' !! (ds ++ q) ≡ timeless <$> lookup_tree new q) /\
    (forall q, q <> [] -> listed changes q \/ ~ (exists n, change_at changes (q ++ [n])) -> f' !! (ds ++ q) ≡ lookup_tree new q) /\
    (forall p, ~ (exists q, p = ds ++ q) -> f' !! p = f !! p) /\
    timeless <$> f' !! ds = timeless <$> f !! ds /\ (~ (exists n, change_at changes [n]) -> f' !! ds = f !! ds).
Proof.
  intros Hds Hnd Hold Hnew Hfaith Hdir Hf Hg changes.
  assert (names_ok []) as Hnil by constructor.
  destruct (still_roundtrip now dir_size tnow ds nd old new f g) as (s & R & D & P & F); try done. fold changes in R.
  set (layer := ExportChanges tnow g (abs_path nd) changes) in *.
  destruct (run_alike now dir_size noted ds layer [] {| files := f; aufsHardlinks := ∅; dirs := [] |} {| files := f; aufsHardlinks := ∅; dirs := [] |} s)
    as (r & Hr & Ha & _ & Hdr); [by split_and!|done|]. rewrite app_nil_r in Ha.
  destruct (set_dir_times (abs_path ds) (dirs s) _ _ _ Ha D) as (f' & Hf' & Ha' & Htimes).
  exists f'. split; [unfold ApplyLayer; rewrite Hr; cbn [mbind result_bind]; by rewrite Hdr|].
  assert (forall q, ~ (exists n, change_at changes (q ++ [n])) -> f' !! (ds ++ q) = files s !! (ds ++ q)) as Huntouched.
  { intros q Hq. apply Htimes. left. destruct (Ha (ds ++ q)) as [_ Hsame]. symmetry. apply Hsame.
    rewrite list_elem_of_In, <- List.in_rev, <- list_elem_of_In. intros (h & Hh & (c & Hc & Hin)%in_export)%list_elem_of_fmap. apply Hq.
    destruct (addChanges_paths new true [] (Some old) c Hnew Hnil Hold Hc) as (q' & Hn & Hp & Hne & _). cbn [app] in Hn. specialize (Hne ltac:(by eexists)).
    destruct (exists_last Hne) as (ns & n & ->). exists n. destruct c as [pc kc]. simpl in *. subst pc.
    assert (ds ++ q = ds ++ ns) as ->%app_inv_head.
    { rewrite Hh. apply (touched_export tnow ds nd g Hds Hnd ns n kc h Hn); [|done]. intros e He.
      rewrite Hg in He by (by destruct ns). by eapply lookup_tree_ok, He. }
    by exists kc. }
  split; [|split; [|split; [|split]]].
  - intros q Hq. destruct (Ha' (ds ++ q)) as [Ht _]. rewrite <- Ht. specialize (P q Hq).
    destruct (files s !! (ds ++ q)), (lookup_tree new q); inversion P; subst; simpl; constructor. by apply timeless_equiv.
  - intros q Hq [Hl|Hu]; [|rewrite Huntouched; [by apply P|done]]. destruct (lookup_tree new q) as [e|] eqn:El.
    2: { destruct (Ha' (ds ++ q)) as [Ht _]. specialize (P q Hq). rewrite El in P. destruct (files s !! (ds ++ q)); [inversion P|].
         simpl in Ht. by destruct (f' !! (ds ++ q)). }
    assert (f' !! (ds ++ q) = files s !! (ds ++ q)) as ->; [|specialize (P q Hq); by rewrite El in P].
    destruct (is_directory e) eqn:Ed.
    + apply Htimes. right. destruct Hl as (k & Hk & Hin).
      destruct (addChanges_paths new true [] (Some old) _ Hnew Hnil Hold Hin) as (q' & Hn & Hp & Hne & _). cbn [app Path] in Hn, Hp. specialize (Hne ltac:(by eexists)).
      assert (q = q') as <-.
      { apply (f_equal path_elems) in Hp. rewrite !path_elems_abs in Hp; [done|by apply names_plain|by apply (lookup_tree_names new q e)]. }
      pose proof (names_plain _ Hn) as Hpl. assert (entry_ok e) as Heok by (eapply (lookup_tree_ok new q); done).
      exists (with_Name (header_of e (join "/" q)) (Clean (h_Name (header_of e (join "/" q))))). rewrite header_of_Clean by done. cbn [with_Name h_Name].
      rewrite Join_abs_rel, path_elems_abs by (first [done | by apply plain_app]). split; [|done].
      rewrite <- (header_of_Clean e q) by done. apply (run_lists_dirs now dir_size ds layer _ s (header_of e (join "/" q)) R).
      * unfold layer, ExportChanges. apply list_elem_of_In, in_flat_map. exists {| Path := abs_path q; Kind := k |}. split; [by apply list_elem_of_In|].
        cbn [Kind Path]. rewrite (addTarFile_ok g nd q e) by (try done; by rewrite Hg). destruct k; [by left|by left|done].
      * destruct (type_dir e Heok) as [Ht _]. rewrite Ed in Ht. by apply bool_decide_eq_true in Ht.
      * rewrite header_of_Clean by done. destruct q as [|m l]; [done|]. rewrite has_prefix_join by done. apply (has_prefix_wider ".wh." ".wh.").
        by inversion Hn as [|? ? [? ?]].
      * rewrite header_of_Clean by done. destruct (exists_last Hne) as (ns & n & ->). destruct (target_path ds Hds ns n Hn) as [_ ->].
        apply names_ok_app in Hn as [_ Hn]. by inversion Hn as [|? ? [? ?]].
    + destruct (alike_cases _ _ _ (ds ++ q) Ha') as [[-> ->]|(a & b & Hfa & Hfb & Hab)]; [done|]. rewrite Hfa, Hfb. f_equal. symmetry.
      apply (timeless_same a b Hab). specialize (P q Hq). rewrite El, Hfa in P. inversion P as [? ? Heq|]; subst.
      unfold is_directory, file_type in *. destruct Heq as [Hm _]. by rewrite Hm.
  - intros p Hp. rewrite <- F by (intros (q & _ & ->); apply Hp; by exists q). apply Htimes. left. destruct (Ha p) as [_ Hsame]. symmetry. apply Hsame.
    rewrite list_elem_of_In, <- List.in_rev, <- list_elem_of_In. intros (h & Hh & (c & Hc & Hin)%in_export)%list_elem_of_fmap. apply Hp.
    destruct (addChanges_paths new true [] (Some old) c Hnew Hnil Hold Hc) as (q' & Hn & Hpc & Hne & _). cbn [app] in Hn. specialize (Hne ltac:(by eexists)).
    destruct (exists_last Hne) as (ns & n & ->). exists ns. destruct c as [pc kc]. simpl in *. subst pc. rewrite Hh.
    apply (touched_export tnow ds nd g Hds Hnd ns n kc h Hn); [|done]. intros e He. rewrite Hg in He by (by destruct ns). by eapply lookup_tree_ok, He.
  - destruct (Ha' ds) as [Ht _]. rewrite <- Ht, F; [done|]. intros (q & Hq & E). apply Hq. rewrite <- (app_nil_r ds) in E at 1. by apply app_inv_head in E as <-.
  - intros Hn. specialize (Huntouched [] Hn). rewrite app_nil_r in Huntouched. rewrite Huntouched, F; [done|].
    intros (q & Hq & E). apply Hq. rewrite <- (app_nil_r ds) in E at 1. by apply app_inv_head in E as <-.
Qed.

Lemma tree_ok_Forall e ch : NoDup (fst <$> ch) ->
  Forall (fun x => name_ok (fst x) /\ entry_ok (info_entry (snd x)) /\
    (is_directory (info_entry (snd x)) = false -> info_children (snd x) = []) /\ tree_ok (snd x)) ch -> tree_ok (Info e ch).
Proof. intros Hn Hf. rewrite Forall_forall in Hf. constructor; [done|..]; intros n c Hin; by destruct (Hf (n, c) Hin) as (? & ? & ? & ?). Qed.

(** Checking a pair of concrete trees for hidden changes. *)
Lemma faithful_flat o n : tree_ok o -> tree_ok n -> data (info_entry o) = data (info_entry n) ->
  forallb (fun x => forallb (fun y => negb (bool_decide (fst x = fst y)) || changed (snd x) (snd y) || String.eqb (data (snd x)) (data (snd y)))
    (flat [] n)) (flat [] o) = true -> faithful o n.
Proof.
  intros Ho Hn Hroot H q eo en Heo Hen Hc. destruct q as [|m q]; [injection Heo as <-; by injection Hen as <-|].
  rewrite forallb_forall in H. specialize (H (m :: q, eo)). rewrite forallb_forall in H.
  assert (In (m :: q, eo) (flat [] o)) as H1 by (apply list_elem_of_In, elem_of_flat; [done|by exists (m :: q)]).
  assert (In (m :: q, en) (flat [] n)) as H2 by (apply list_elem_of_In, elem_of_flat; [done|by exists (m :: q)]).
  specialize (H H1 _ H2). cbn [fst snd] in H. rewrite bool_decide_eq_true_2, Hc in H by done. by apply String.eqb_eq.
Qed.

Definition example_entry (type perm seconds : Z) (text : string) : Entry :=
  {| stat := {| Mode := Z.lor type perm; Uid := 0; Gid := 0; Rdev := 0; Size := Z.of_nat (String.length text); mtime := {| Sec := seconds; Nsec := 7 |} |};
     capability := None; data := text |}.

Definition old_tree : FileInfo := Info (info_entry newRootFileInfo)
  [("etc", Info (example_entry S_IFDIR 493 10 "") [("a", Info (example_entry S_IFREG 420 10 "one") []); ("b", Info (example_entry S_IFREG 420 10 "two") [])]);
   ("x", Info (example_entry S_IFREG 420 10 "file") [])].

Definition new_tree : FileInfo := Info (info_entry newRootFileInfo)
  [("x", Info (example_entry S_IFDIR 493 30 "") [("y", Info (example_entry S_IFLNK 511 30 "../etc/a") [])]);
   ("etc", Info (example_entry S_IFDIR 493 20 "") [("a", Info (example_entry S_IFREG 420 20 "three") [])])].

Example FileInfo_Changes_test :
  Change_String <$> FileInfo_Changes new_tree old_tree = ["C /x"; "A /x/y"; "C /etc"; "C /etc/a"; "D /etc/b"].
Proof. vm_compute. reflexivity. Qed.

Definition destination : fs := <[["d"] := example_entry S_IFDIR 493 1 ""]> (fs_of ["d"] old_tree).

Ltac check_tree :=
  repeat match goal with
  | |- tree_ok _ => apply tree_ok_Forall
  | |- NoDup _ => apply (bool_decide_unpack _); vm_compute; exact I
  | |- Forall _ _ => constructor
  | |- _ /\ _ => split
  | |- name_ok _ => split; [by repeat split|reflexivity]
  | |- entry_ok _ => unfold entry_ok, type_bits; split_and!; [apply (bool_decide_unpack _); vm_compute; exact I|vm_compute; intros [=]|vm_compute; reflexivity|..]; done
  | |- _ -> _ => done
  end.

(** The clock of the kernel stands at 99: the directory [etc], in which a file
    is removed and one made again, has its own time at the end. *)
Definition clock : Timespec := {| Sec := 99; Nsec := 0 |}.

Lemma Changes_ApplyLayer_witness :
  exists f', ApplyLayer clock 4096 (fun _ => clock) "/d" (ExportChanges 99 (fs_of ["n"] new_tree) "/n" (FileInfo_Changes new_tree old_tree)) destination = Ok f' /\
    f' !! ["d"; "etc"; "b"] ≡ None /\ f' !! ["d"; "etc"] ≡ Some (example_entry S_IFDIR 493 20 "").
Proof.
  assert (tree_ok old_tree) as Ho by check_tree. assert (tree_ok new_tree) as Hn by check_tree.
  assert (faithful old_tree new_tree) as Hf by (apply faithful_flat; [exact Ho|exact Hn|reflexivity|vm_compute; reflexivity]).
  assert (plain ["d"] /\ plain ["n"]) as [Hd Hn'] by (split; apply plain_one; by repeat split).
  destruct (Changes_ApplyLayer clock 4096 (fun _ => clock) 99 ["d"] ["n"] old_tree new_tree destination (fs_of ["n"] new_tree) Hd Hn' Ho Hn Hf)
    as (f' & H1 & _ & H2 & _).
  - reflexivity.
  - intros q Hq. unfold destination. rewrite lookup_insert_ne by (by destruct q). by apply fs_of_lookup.
  - intros q Hq. by apply fs_of_lookup.
  - assert (listed (FileInfo_Changes new_tree old_tree) ["etc"; "b"] \/ ~ (exists n, change_at (FileInfo_Changes new_tree old_tree) (["etc"; "b"] ++ [n]))) as Hb.
    { right. intros (n & k & Hin). assert (Path <$> FileInfo_Changes new_tree old_tree = ["/x"; "/x/y"; "/etc"; "/etc/a"; "/etc/b"]) as E by (vm_compute; reflexivity).
      assert (abs_path (["etc"; "b"] ++ [n]) ∈ Path <$> FileInfo_Changes new_tree old_tree) as Hp by exact (list_elem_of_fmap_2 Path _ _ Hin).
      rewrite E, !elem_of_cons, elem_of_nil in Hp. clear -Hp. cbn in Hp. destruct Hp as [H|[H|[H|[H|[H|[]]]]]]; discriminate H. }
    exists f'. split; [exact H1|]. split; [exact (H2 ["etc"; "b"] ltac:(done) Hb)|]. apply (H2 ["etc"] ltac:(done)).
    left. exists ChangeModify. split; [discriminate|]. vm_compute. do 2 right. left.
Defined.

(** A file whose content is changed does not change the time of its
    directory, so the layer has the file only; applying it removes the file
    and makes it again, and the directory keeps the time of the extraction. *)
Lemma replaced_file_touches :
  let tree size t text := Info (info_entry newRootFileInfo) [("etc", Info (example_entry S_IFDIR 493 10 "") [("a", Info (example_entry S_IFREG 420 t text) [])])] in
  let old := tree 3 10 "one" in let new := tree 5 20 "three" in
  Change_String <$> FileInfo_Changes new old = ["C /etc/a"] /\
  exists f', ApplyLayer clock 4096 (fun _ => clock) "/d" (ExportChanges 99 (fs_of ["n"] new) "/n" (FileInfo_Changes new old))
      (<[["d"] := example_entry S_IFDIR 493 1 ""]> (fs_of ["d"] old)) = Ok f' /\
    (mtime ∘ stat) <$> f' !! ["d"; "etc"] = Some clock.
Proof. split; [vm_compute; reflexivity|]. eexists. split; [vm_compute; reflexivity|]. vm_compute. reflexivity. Qed.

(** ** Names that leave the directory *)

Lemma elems_dotdot ds d b l ns : plain (ds ++ [d]) -> split "/" b = ".." :: l -> Forall (fun c => dropped c = true \/ plain_elem c) l ->
  List.filter (fun c => negb (dropped c)) l = ns -> Join [abs_path (ds ++ [d]); b] = abs_path (ds ++ ns).
Proof.
  intros Hd Hs Hl <-. assert (b <> "") as Hb by by intros ->.
  unfold Join. change (List.filter (fun e => negb (String.eqb e "")) [abs_path (ds ++ [d]); b]) with
    (abs_path (ds ++ [d]) :: if negb (String.eqb b "") then [b] else []).
  destruct (String.eqb_spec b ""); [done|]. cbn [negb]. cbv iota beta. apply Clean_of_elems; [apply IsAbs_cons|].
  cbn [join]. change (abs_path (ds ++ [d]) +:+ "/" +:+ b) with (abs_path (ds ++ [d]) +:+ String "/" b).
  unfold path_elems. rewrite split_app_gen, Hs.
  pose proof (path_elems_abs _ Hd) as He. unfold path_elems, clean_elems in *. rewrite foldl_app.
  assert (foldl (clean_push true) [] (split "/" (abs_path (ds ++ [d]))) = d :: rev ds) as ->.
  { rewrite <- (rev_involutive (foldl _ _ _)), He, rev_app_distr. done. }
  cbn [foldl]. apply plain_app in Hd as [Hds Hd%plain_one]. destruct Hd as (_ & _ & _ & Hd).
  assert (clean_push true (d :: rev ds) ".." = rev ds) as ->.
  { unfold clean_push. change (String.eqb ".." "" || String.eqb ".." ".") with false. change (String.eqb ".." "..") with true. cbv iota.
    by destruct (String.eqb_spec d ".."). }
  pose proof (clean_elems_filter true _ (ltac:(apply Forall_app; split; [apply plain_kept, Hds|exact Hl]) :
    Forall (fun c => dropped c = true \/ plain_elem c) (ds ++ l))) as Hc.
  unfold clean_elems in Hc. rewrite foldl_app, List.filter_app, filter_plain in Hc by done. rewrite <- Hc. do 2 f_equal.
  pose proof (clean_elems_filter true ds (plain_kept _ Hds)) as Hc2. unfold clean_elems in Hc2. rewrite filter_plain in Hc2 by done.
  by rewrite <- Hc2, rev_involutive at 1.
Qed.

Section Escapes.
Context (now : Timespec) (dir_size : Z) (noted : Timespec -> Timespec) (ds : list string) (d : string) (Hd : plain (ds ++ [d])).

Lemma apply_one_whiteout h f name : h_Name h = wh +:+ name -> plain_elem (wh +:+ name) -> has_prefix ".wh..wh." (wh +:+ name) = false ->
  is_Some (f !! (ds ++ [d])) ->
  ApplyLayer now dir_size noted (abs_path (ds ++ [d])) [h] f = Ok (remove noted f (path_elems (Join [abs_path (ds ++ [d]); name]))).
Proof.
  intros Hh Hp Hw Hf. unfold ApplyLayer. cbn [result_foldl]. unfold apply_header. rewrite Hh.
  assert (Clean (wh +:+ name) = wh +:+ name) as -> by (apply (Clean_rel [wh +:+ name]); [by apply plain_one|done]).
  cbn [with_Name h_Name files aufsHardlinks dirs].
  rewrite (ensure_parent_there now dir_size (ds ++ [d]) Hd noted [] (wh +:+ name)) by (first [by apply plain_one | right; by rewrite app_nil_r]).
  cbn [mbind result_bind]. rewrite Hw. rewrite Join_abs_one, Base_abs by done. rewrite has_prefix_app, Dir_abs by (first [done | apply Hp]).
  rewrite (drop_app_str wh name : drop_str 4 (wh +:+ name) = name). reflexivity.
Qed.

(** The entries of a layer are not confined to the directory the layer is
    applied to: a whiteout without a name removes that directory itself, one
    for two dots removes the directory that holds it with all there is in it,
    and a file can be written next to it. *)
Theorem ApplyLayer_escapes (h : Header) (f : fs) (e : Entry) :
  f !! (ds ++ [d]) = Some e -> is_dir_at f ds = true ->
  (h_Name h = ".wh." -> ApplyLayer now dir_size noted (abs_path (ds ++ [d])) [h] f = Ok (remove noted f (ds ++ [d]))) /\
  (h_Name h = ".wh..." -> ApplyLayer now dir_size noted (abs_path (ds ++ [d])) [h] f = Ok (remove noted f ds)) /\
  (forall n, name_ok n -> h_Name h = "../" +:+ n -> Typeflag h = TypeReg -> f !! (ds ++ [n]) = None ->
     exists e', ApplyLayer now dir_size noted (abs_path (ds ++ [d])) [h] f = Ok (<[ds ++ [n] := e']> (touch noted (ds ++ [n]) f)) /\ data e' = content h).
Proof.
  intros Hf Hdir. split; [|split].
  - intros Hh. rewrite (apply_one_whiteout h f ""); [|done|by repeat split|done|by rewrite Hf].
    assert (Join [abs_path (ds ++ [d]); ""] = abs_path (ds ++ [d])) as ->; [|by rewrite path_elems_abs].
    unfold Join. change (List.filter (fun e => negb (String.eqb e "")) [abs_path (ds ++ [d]); ""]) with [abs_path (ds ++ [d])].
    cbn [join]. apply Clean_of_elems; [apply IsAbs_cons|by apply path_elems_abs].
  - intros Hh. rewrite (apply_one_whiteout h f ".."); [|done|by repeat split|done|by rewrite Hf].
    rewrite (elems_dotdot ds d ".." [] []), app_nil_r by done. rewrite path_elems_abs; [done|]. by apply plain_app in Hd as [? _].
  - intros n [Hn Hw] Hh Ht Hfree. pose proof Hd as [Hds _]%plain_app. pose proof Hn as (Hc & Hn1 & Hn2 & Hn3).
    assert (Clean (h_Name h) = "../" +:+ n) as Hclean.
    { rewrite Hh. unfold Clean. assert (IsAbs ("../" +:+ n) = false) as -> by done.
      assert (split "/" ("../" +:+ n) = [".."; n]) as ->.
      { change ("../" +:+ n) with (".." +:+ String "/" n). by rewrite split_app, split_no_sep. }
      unfold clean_elems. cbn [foldl]. change (clean_push false [] "..") with [".."]. by rewrite clean_push_plain. }
    assert (Join [abs_path (ds ++ [d]); "../" +:+ n] = abs_path (ds ++ [n])) as HJ.
    { apply (elems_dotdot ds d _ [n]); [done| |constructor; [by right|apply List.Forall_nil]|apply filter_plain; by apply plain_one].
      change ("../" +:+ n) with (".." +:+ String "/" n). by rewrite split_app, split_no_sep. }
    assert (Dir ("../" +:+ n) = "..") as HD.
    { change ("../" +:+ n) with (".." +:+ String "/" n). unfold Dir. by rewrite Split_app. }
    assert (path_elems (Join [abs_path (ds ++ [d]); ".."]) = ds) as HP.
    { rewrite (elems_dotdot ds d ".." [] []), app_nil_r by done. by apply path_elems_abs. }
    assert (plain (ds ++ [n])) as Hpn by (apply plain_app; split; [done|by apply plain_one]).
    eexists. unfold ApplyLayer. cbn [result_foldl]. unfold apply_header. rewrite Hclean. cbn [with_Name h_Name files aufsHardlinks dirs].
    unfold ensure_parent. rewrite HD, HP, not_exist_false.
    2: { unfold is_dir_at in Hdir. destruct ds as [|x l]; [by left|right]. by destruct (f !! (x :: l)). }
    assert ((if negb (has_suffix "/" ("../" +:+ n)) then Ok f else Ok f) = @Ok string fs f) as -> by by destruct (negb _).
    cbn [mbind result_bind]. change (has_prefix ".wh..wh." ("../" +:+ n)) with false. cbv iota.
    rewrite HJ, Base_abs, Hw by done. unfold lookup_path. rewrite path_elems_abs, Hfree by done.
    unfold retarget. cbn [with_Name Typeflag Linkname]. rewrite Ht. cbn [bool_decide]. rewrite (bool_decide_eq_false_2 (TypeReg = TypeLink)) by done. cbn [andb mbind result_bind].
    unfold createTarFile. cbn [with_Name Typeflag]. rewrite Ht. unfold create_file. cbn [with_Name Typeflag]. rewrite Ht, path_elems_abs, Hfree by done.
    rewrite parent_snoc, Hdir. cbn [mbind result_bind]. rewrite (bool_decide_eq_false_2 (TypeReg = TypeDir)) by done. cbn [mbind result_bind dirs result_foldl files]. split; done.
Qed.
End Escapes.

Lemma ApplyLayer_escapes_witness :
  ApplyLayer clock 4096 (fun _ => clock) "/d" [{| h_Name := ".wh..."; Typeflag := TypeRegA; h_Mode := 0; h_Uid := 0; h_Gid := 0; ModTime := 0;
    Devmajor := 0; Devminor := 0; Linkname := ""; Xattr := None; content := "" |}] destination = Ok (remove (fun _ => clock) destination []).
Proof.
  assert (plain ([] ++ ["d"])) as Hd by (apply plain_one; by repeat split).
  assert (exists e, destination !! ([] ++ ["d"]) = Some e) as [e He] by (eexists; reflexivity).
  refine (proj1 (proj2 (ApplyLayer_escapes clock 4096 (fun _ => clock) [] "d" Hd _ destination e He eq_refl)) _). reflexivity.
Defined.
