(* ===== verification/Utf8.v ===== *)
(** * Go's runes: UTF-8 texts

    [encode_rune] is the encoding of a code point, [runes] what a [range] over
    a string, or utf8.DecodeRuneInString, takes from it: runes, and bytes that
    are no UTF-8.  [Explode] is [strings.Split] with an empty separator. *)

From stdpp Require Import base list strings.
From Stdlib Require Import ZArith Lia Ascii.
From S2P Require Import Prelude GoStrings.

Local Open Scope Z_scope.

Definition code (c : ascii) : Z := Z.of_nat (nat_of_ascii c).
Definition byte (n : Z) : ascii := ascii_of_nat (Z.to_nat n).

(** ** Encoding *)

Definition encode_rune (r : Z) : string :=
  if r <? 128 then String (byte r) ""
  else if r <? 2048 then String (byte (192 + r / 64)) (String (byte (128 + r mod 64)) "")
  else if r <? 65536 then String (byte (224 + r / 4096)) (String (byte (128 + r / 64 mod 64)) (String (byte (128 + r mod 64)) ""))
  else String (byte (240 + r / 262144)) (String (byte (128 + r / 4096 mod 64)) (String (byte (128 + r / 64 mod 64)) (String (byte (128 + r mod 64)) ""))).

Definition rune_error : string := encode_rune 65533.

Definition between (a b : Z) (c : ascii) : bool := (a <=? code c) && (code c <=? b).
Definition is_cont (c : ascii) : bool := between 128 191 c.

(** The second byte after a first one of three or four. *)
Definition second_ok (c1 c2 : ascii) : bool :=
  between (if code c1 =? 224 then 160 else if code c1 =? 240 then 144 else 128)
          (if code c1 =? 237 then 159 else if code c1 =? 244 then 143 else 191) c2.

Lemma between_code a b c : between a b c = true -> a <= code c <= b.
Proof. unfold between. rewrite andb_true_iff, !Z.leb_le. lia. Qed.

Lemma between_not a b c : code c < a \/ b < code c -> between a b c = false.
Proof. intros H. unfold between. apply andb_false_iff. destruct H; [left|right]; apply Z.leb_gt; lia. Qed.

Lemma second_high c1 c2 : second_ok c1 c2 = true -> 128 <= code c2.
Proof. unfold second_ok. intros H%between_code. destruct (code c1 =? 224), (code c1 =? 240); lia. Qed.

Lemma cont_high c : is_cont c = true -> 128 <= code c.
Proof. intros H%between_code. lia. Qed.

(** ** Runes *)

(** A rune by its bytes, or a byte that is none. *)
Inductive rune := Rune (bytes : string) | BadByte (c : ascii).

Fixpoint runes (s : string) : list rune :=
  match s with
  | "" => []
  | String c1 r1 =>
      if code c1 <? 128 then Rune (String c1 "") :: runes r1
      else
        match r1 with
        | String c2 r2 =>
            if between 194 223 c1 && is_cont c2 then Rune (String c1 (String c2 "")) :: runes r2
            else
              match r2 with
              | String c3 r3 =>
                  if between 224 239 c1 && second_ok c1 c2 && is_cont c3 then Rune (String c1 (String c2 (String c3 ""))) :: runes r3
                  else
                    match r3 with
                    | String c4 r4 =>
                        if between 240 244 c1 && second_ok c1 c2 && is_cont c3 && is_cont c4
                        then Rune (String c1 (String c2 (String c3 (String c4 "")))) :: runes r4
                        else BadByte c1 :: runes r1
                    | _ => BadByte c1 :: runes r1
                    end
              | _ => BadByte c1 :: runes r1
              end
        | _ => BadByte c1 :: runes r1
        end
  end.

Definition rune_text (r : rune) : string := match r with Rune b => b | BadByte _ => rune_error end.

(** A rune as [runes] makes it. *)
Definition rune_ok (r : rune) : Prop :=
  match r with
  | Rune (String c1 "") => code c1 < 128
  | Rune (String c1 (String c2 "")) => between 194 223 c1 && is_cont c2 = true
  | Rune (String c1 (String c2 (String c3 ""))) => between 224 239 c1 && second_ok c1 c2 && is_cont c3 = true
  | Rune (String c1 (String c2 (String c3 (String c4 "")))) => between 240 244 c1 && second_ok c1 c2 && is_cont c3 && is_cont c4 = true
  | Rune _ => False
  | BadByte _ => True
  end.

Lemma runes_ok n : forall s, (String.length s <= n)%nat -> Forall rune_ok (runes s).
Proof.
  induction n as [|n IH]; intros s Hn; [destruct s; [constructor|simpl in Hn; lia]|].
  destruct s as [|c1 r1]; [constructor|]. simpl in Hn. cbn [runes].
  destruct (Z.ltb_spec (code c1) 128); [constructor; [done|apply IH; lia]|].
  destruct r1 as [|c2 r2]; [constructor; [done|apply IH; simpl; lia]|]. simpl in Hn.
  destruct (between 194 223 c1 && is_cont c2) eqn:E2; [constructor; [done|apply IH; lia]|].
  destruct r2 as [|c3 r3]; [constructor; [done|apply IH; simpl; lia]|]. simpl in Hn.
  destruct (between 224 239 c1 && second_ok c1 c2 && is_cont c3) eqn:E3; [constructor; [done|apply IH; lia]|].
  destruct r3 as [|c4 r4]; [constructor; [done|apply IH; simpl; lia]|]. simpl in Hn.
  destruct (between 240 244 c1 && second_ok c1 c2 && is_cont c3 && is_cont c4) eqn:E4; [constructor; [done|apply IH; lia]|].
  constructor; [done|apply IH; simpl; lia].
Qed.

Lemma concat_cons a l : String.concat "" (a :: l) = a +:+ String.concat "" l.
Proof. destruct l as [|b l]; [by rewrite string_app_nil_r|done]. Qed.

Lemma concat_app l k : String.concat "" (l ++ k) = String.concat "" l +:+ String.concat "" k.
Proof. induction l as [|a l IH]; [done|]. change ((a :: l) ++ k) with (a :: l ++ k). by rewrite !concat_cons, IH, string_app_assoc. Qed.

(** ** Split *)

Definition rune_bytes (r : rune) : string := match r with Rune b => b | BadByte c => String c "" end.

(** [strings.Split(s, "")]: a byte that is no UTF-8 becomes U+FFFD, but the
    last piece is what is left of the text. *)
Fixpoint pieces (l : list rune) : list string :=
  match l with [] => [] | [r] => [rune_bytes r] | r :: l' => rune_text r :: pieces l' end.

Definition Explode (s : string) : list string := pieces (runes s).

Example Explode_test :
  Explode "it" = ["i"; "t"] /\ Explode (String "195" (String "169" "x")) = [String "195" (String "169" ""); "x"] /\
  Explode (String "195" (String "195" "")) = [rune_error; String "195" ""] /\ Explode "" = [].
Proof. vm_compute. repeat split. Qed.

(** A text that is one rune. *)
Definition one_rune (s : string) : Prop := rune_ok (Rune s).

Lemma runes_cons b s : one_rune b -> runes (b +:+ s) = Rune b :: runes s.
Proof.
  unfold one_rune. destruct b as [|c1 [|c2 [|c3 [|c4 [|c5 b]]]]]; try done; cbn [rune_ok]; intros H.
  - apply Z.ltb_lt in H. change (String c1 "" +:+ s) with (String c1 s). cbn [runes]. by rewrite H.
  - pose proof H as [H1%between_code _]%andb_true_iff. change (String c1 (String c2 "") +:+ s) with (String c1 (String c2 s)). cbn [runes].
    rewrite (proj2 (Z.ltb_ge _ _)) by lia. by rewrite H.
  - pose proof H as [[H1%between_code _]%andb_true_iff _]%andb_true_iff.
    change (String c1 (String c2 (String c3 "")) +:+ s) with (String c1 (String c2 (String c3 s))). cbn [runes].
    rewrite (proj2 (Z.ltb_ge _ _)), (between_not 194 223 c1) by lia. cbn [andb]. by rewrite H.
  - pose proof H as [[[H1%between_code _]%andb_true_iff _]%andb_true_iff _]%andb_true_iff.
    change (String c1 (String c2 (String c3 (String c4 ""))) +:+ s) with (String c1 (String c2 (String c3 (String c4 s)))). cbn [runes].
    rewrite (proj2 (Z.ltb_ge _ _)), (between_not 194 223 c1), (between_not 224 239 c1) by lia. cbn [andb]. by rewrite H.
Qed.

Lemma Explode_cons b s : one_rune b -> Explode (b +:+ s) = b :: Explode s.
Proof. intros Hb. unfold Explode. rewrite runes_cons by done. cbn [pieces]. by destruct (runes s). Qed.

Lemma Explode_runes l : Forall one_rune l -> Explode (String.concat "" l) = l.
Proof. induction 1 as [|b l Hb _ IH]; [done|]. by rewrite concat_cons, Explode_cons, IH. Qed.

Lemma high_not c d : code d < 128 -> 128 <= code c -> Ascii.eqb d c = false.
Proof. intros Hd Hc. apply Ascii.eqb_neq. intros ->. lia. Qed.

(** A rune holds an ASCII character only when it is that character. *)
Lemma one_rune_char d b : one_rune b -> code d < 128 -> b <> String d "" -> contains_char d b = false.
Proof.
  unfold one_rune. intros Hb Hd Hne. destruct b as [|c1 [|c2 [|c3 [|c4 [|c5 b]]]]]; try done; cbn [rune_ok] in Hb; cbn [contains_char];
    repeat match goal with H : andb _ _ = true |- _ => apply andb_true_iff in H as [? ?] end;
    repeat match goal with H : between _ _ _ = true |- _ => apply between_code in H | H : is_cont _ = true |- _ => apply cont_high in H | H : second_ok _ _ = true |- _ => apply second_high in H end;
    [|by rewrite ?(Ascii.eqb_sym _ d), !high_not by lia..].
  rewrite orb_false_r. apply Ascii.eqb_neq. congruence.
Qed.

Lemma one_rune_nonempty b : one_rune b -> b <> "".
Proof. by intros Hb ->. Qed.

(** The bytes of a text stand in its pieces. *)
Lemma runes_char n d : forall s, (String.length s <= n)%nat -> contains_char d s = false -> Forall (fun r => contains_char d (rune_bytes r) = false) (runes s).
Proof.
  induction n as [|n IH]; intros s Hn Hd; [destruct s; [constructor|simpl in Hn; lia]|].
  destruct s as [|c1 r1]; [constructor|]. simpl in Hn. cbn [contains_char] in Hd. apply orb_false_iff in Hd as [Hc1 Hd]. cbn [runes].
  assert (forall l, Forall (fun r => contains_char d (rune_bytes r) = false) l -> Forall (fun r => contains_char d (rune_bytes r) = false) (BadByte c1 :: l)) as Hbad.
  { intros l Hl. constructor; [|done]. simpl. by rewrite Hc1. }
  assert (Forall (fun r => contains_char d (rune_bytes r) = false) (runes r1)) as H1 by (apply IH; [lia|done]).
  destruct (code c1 <? 128); [constructor; [simpl; by rewrite Hc1|done]|].
  destruct r1 as [|c2 r2]; [by apply Hbad|]. simpl in Hn. cbn [contains_char] in Hd. apply orb_false_iff in Hd as [Hc2 Hd].
  destruct (between 194 223 c1 && is_cont c2); [constructor; [simpl; by rewrite Hc1, Hc2|apply IH; [lia|done]]|].
  destruct r2 as [|c3 r3]; [by apply Hbad|]. simpl in Hn. cbn [contains_char] in Hd. apply orb_false_iff in Hd as [Hc3 Hd].
  destruct (between 224 239 c1 && second_ok c1 c2 && is_cont c3); [constructor; [simpl; by rewrite Hc1, Hc2, Hc3|apply IH; [lia|done]]|].
  destruct r3 as [|c4 r4]; [by apply Hbad|]. simpl in Hn. cbn [contains_char] in Hd. apply orb_false_iff in Hd as [Hc4 Hd].
  destruct (between 240 244 c1 && second_ok c1 c2 && is_cont c3 && is_cont c4); [constructor; [simpl; by rewrite Hc1, Hc2, Hc3, Hc4|apply IH; [lia|done]]|].
  by apply Hbad.
Qed.

Lemma pieces_char d l : code d < 128 -> Forall rune_ok l -> Forall (fun r => contains_char d (rune_bytes r) = false) l ->
  Forall (fun p => p <> "" /\ contains_char d p = false) (pieces l).
Proof.
  intros Hd. induction l as [|r l IH]; [constructor|]. intros [Hok Hl]%Forall_cons [Hc Hr]%Forall_cons. specialize (IH Hl Hr).
  assert (rune_bytes r <> "") as Hne by (destruct r as [b|c]; [by apply one_rune_nonempty|done]).
  destruct l as [|r' l]; [by repeat constructor|]. change (pieces (r :: r' :: l)) with (rune_text r :: pieces (r' :: l)).
  constructor; [|done]. destruct r as [b|c]; [done|]. split; [done|].
  apply (one_rune_char d rune_error); [by vm_compute|done|]. intros E. apply (f_equal String.length) in E. vm_compute in E. done.
Qed.

Lemma Explode_char d s : code d < 128 -> contains_char d s = false -> Forall (fun p => p <> "" /\ contains_char d p = false) (Explode s).
Proof. intros Hd Hs. apply pieces_char; [done|by apply (runes_ok (String.length s))|by apply (runes_char (String.length s))]. Qed.
