(* ===== verification/Flags.v ===== *)
(** * pkg/mflag: command-line flags

    A flag set holds flags that have several names.  The flags are objects
    that [formal] and [actual] share: a flag is a position of the store
    [flags], so a value set under one name is seen under every other, and a
    pointer that [Bool], [Int], ... return is that position.  What is written
    to the output is the list of messages.  [float64Value] and
    [durationValue], whose texts strconv and time parse, and the layout of
    the usage text are left out. *)

From stdpp Require Import base gmap sets list strings pretty.
From Stdlib Require Import ZArith Lia Ascii Sorting.
From S2P Require Import Prelude GoStrings GoSort Utf8.

Local Open Scope Z_scope.

(** ** Values *)

(** The interface [Value], with [boolFlag]'s method. *)
Class FlagValue (V : Type) := {
  Value_String : V -> string;
  Value_Set : V -> string -> V * option num_error;
  IsBoolFlag : V -> bool;
  IsBoolFlag_Set : forall v s, IsBoolFlag (fst (Value_Set v s)) = IsBoolFlag v }.

(** [strconv.ParseBool] *)
Definition ParseBool (s : string) : option bool :=
  if bool_decide (s ∈ ["1"; "t"; "T"; "true"; "TRUE"; "True"]) then Some true
  else if bool_decide (s ∈ ["0"; "f"; "F"; "false"; "FALSE"; "False"]) then Some false
  else None.

(** The digits of [strconv.ParseUint] in base [base] at most 16. *)
Definition base_digit (base : Z) (c : ascii) : option Z :=
  let n := Z.of_nat (nat_of_ascii c) in
  let v := if (48 <=? n) && (n <=? 57) then Some (n - 48)
           else if (97 <=? n) && (n <=? 122) then Some (n - 87)
           else if (65 <=? n) && (n <=? 90) then Some (n - 55) else None in
  match v with Some v => if base <=? v then None else Some v | None => None end.

(** The value that comes with an error is 0 for the syntax and the largest one for the range. *)
Fixpoint base_digits (base max n : Z) (s : string) : Z * option num_error :=
  match s with
  | EmptyString => (n, None)
  | String c s' =>
      match base_digit base c with
      | None => (0, Some ErrSyntax)
      | Some v => if max <? n * base + v then (max, Some ErrRange) else base_digits base max (n * base + v) s'
      end
  end.

(** [strconv.ParseUint(s, 0, 64)] *)
Definition ParseUint0 (s : string) : Z * option num_error :=
  match s with
  | EmptyString => (0, Some ErrSyntax)
  | String "0" (String x s') =>
      if Ascii.eqb x "x" || Ascii.eqb x "X" then
        if String.eqb s' "" then (0, Some ErrSyntax) else base_digits 16 (2 ^ 64 - 1) 0 s'
      else base_digits 8 (2 ^ 64 - 1) 0 s
  | _ => base_digits (if has_prefix "0" s then 8 else 10) (2 ^ 64 - 1) 0 s
  end.

(** [strconv.ParseInt(s, 0, 64)] *)
Definition ParseInt0 (s : string) : Z * option num_error :=
  match s with
  | EmptyString => (0, Some ErrSyntax)
  | String c s' =>
      let neg := Ascii.eqb c "-" in
      match ParseUint0 (if Ascii.eqb c "+" || neg then s' else s) with
      | (_, Some ErrSyntax) => (0, Some ErrSyntax)
      | (un, _) =>
          if negb neg && (2 ^ 63 <=? un) then (2 ^ 63 - 1, Some ErrRange)
          else if neg && (2 ^ 63 <? un) then (- 2 ^ 63, Some ErrRange)
          else (if neg then - un else un, None)
      end
  end.

Inductive value :=
| boolValue (b : bool) | intValue (i : Z) | int64Value (i : Z)
| uintValue (i : Z) | uint64Value (i : Z) | stringValue (s : string).

Definition value_Set (v : value) (s : string) : value * option num_error :=
  match v with
  | boolValue _ => match ParseBool s with Some b => (boolValue b, None) | None => (boolValue false, Some ErrSyntax) end
  | intValue _ => let '(i, err) := ParseInt0 s in (intValue i, err)
  | int64Value _ => let '(i, err) := ParseInt0 s in (int64Value i, err)
  | uintValue _ => let '(i, err) := ParseUint0 s in (uintValue i, err)
  | uint64Value _ => let '(i, err) := ParseUint0 s in (uint64Value i, err)
  | stringValue _ => (stringValue s, None)
  end.

Definition value_String (v : value) : string :=
  match v with
  | boolValue b => if b then "true" else "false"
  | intValue i | int64Value i | uintValue i | uint64Value i => itoa i
  | stringValue s => s
  end.

Definition value_IsBoolFlag (v : value) : bool := match v with boolValue _ => true | _ => false end.

#[export, refine] Instance builtin_values : FlagValue value :=
  {| Value_String := value_String; Value_Set := value_Set; IsBoolFlag := value_IsBoolFlag |}.
Proof.
  intros [b|i|i|i|i|t] s; simpl; [by destruct (ParseBool s)|..]; try by destruct (ParseInt0 s).
  all: by destruct (ParseUint0 s).
Defined.

(** ** Flag sets *)

Inductive flag_error :=
| NoSuchFlag (name : string) | BadSyntax (s : string) | NotDefined (name : string)
| InvalidBoolean (value name : string) (err : num_error) | NeedsArgument (name : string)
| InvalidValue (value name : string) (err : num_error) | ErrHelp.

(** What [failf] and [parseOne] print. *)
Inductive message := Failure (e : flag_error) | Usage | Deprecated (name replacement : string) | Redefined (set name : string).

Inductive ErrorHandling := ContinueOnError | ExitOnError | PanicOnError.

Section FlagSets.
Context {V : Type} {HV : FlagValue V}.

Record Flag := { Names : list string; flag_Usage : string; Value : V; DefValue : string }.

Record FlagSet := {
  name : string; parsed : bool; actual : gmap string nat; formal : gmap string nat;
  args : list string; errorHandling : ErrorHandling; output : list message; flags : list Flag }.

Definition NewFlagSet (name : string) (errorHandling : ErrorHandling) : FlagSet :=
  {| name := name; parsed := false; actual := ∅; formal := ∅; args := []; errorHandling := errorHandling; output := []; flags := [] |}.

Definition Init (f : FlagSet) (name : string) (errorHandling : ErrorHandling) : FlagSet :=
  {| name := name; parsed := parsed f; actual := actual f; formal := formal f; args := args f;
     errorHandling := errorHandling; output := output f; flags := flags f |}.

Definition with_args (f : FlagSet) (a : list string) : FlagSet :=
  {| name := name f; parsed := parsed f; actual := actual f; formal := formal f; args := a;
     errorHandling := errorHandling f; output := output f; flags := flags f |}.

Definition with_output (f : FlagSet) (m : list message) : FlagSet :=
  {| name := name f; parsed := parsed f; actual := actual f; formal := formal f; args := args f;
     errorHandling := errorHandling f; output := output f ++ m; flags := flags f |}.

Definition with_formal (f : FlagSet) (n : string) (id : nat) : FlagSet :=
  {| name := name f; parsed := parsed f; actual := actual f; formal := <[n := id]> (formal f); args := args f;
     errorHandling := errorHandling f; output := output f; flags := flags f |}.

Definition with_actual (f : FlagSet) (n : string) (id : nat) : FlagSet :=
  {| name := name f; parsed := parsed f; actual := <[n := id]> (actual f); formal := formal f; args := args f;
     errorHandling := errorHandling f; output := output f; flags := flags f |}.

Definition with_flags (f : FlagSet) (l : list Flag) : FlagSet :=
  {| name := name f; parsed := parsed f; actual := actual f; formal := formal f; args := args f;
     errorHandling := errorHandling f; output := output f; flags := l |}.

Definition with_value (g : Flag) (v : V) : Flag :=
  {| Names := Names g; flag_Usage := flag_Usage g; Value := v; DefValue := DefValue g |}.

(** [flag.Value.Set(value)] on the shared flag. *)
Definition set_value (f : FlagSet) (id : nat) (g : Flag) (s : string) : FlagSet * option num_error :=
  let '(v, err) := Value_Set (Value g) s in (with_flags f (<[id := with_value g v]> (flags f)), err).

Definition failf (f : FlagSet) (e : flag_error) : FlagSet := with_output f [Failure e; Usage].

Definition Lookup (f : FlagSet) (n : string) : option nat := formal f !! n.
Definition NFlag (f : FlagSet) : nat := size (actual f).
Definition NArg (f : FlagSet) : nat := length (args f).
Definition Args (f : FlagSet) : list string := args f.
Definition Arg (f : FlagSet) (i : Z) : string :=
  if (i <? 0) || (Z.of_nat (length (args f)) <=? i) then "" else default "" (args f !! Z.to_nat i).
Definition Parsed (f : FlagSet) : bool := parsed f.

Fixpoint Var_names (f : FlagSet) (id : nat) (names : list string) : outcome FlagSet :=
  match names with
  | [] => Return f
  | n :: names' =>
      let n := trim_prefix "#" n in
      match formal f !! n with
      | Some _ => Panic
      | None => Var_names (with_formal f n id) id names'
      end
  end.

(** The flag and, as the pointer to its value, its place. *)
Definition Var (f : FlagSet) (v : V) (names : list string) (usage : string) : outcome (FlagSet * nat) :=
  let id := length (flags f) in
  let g := {| Names := names; flag_Usage := usage; Value := v; DefValue := Value_String v |} in
  f ← Var_names (with_flags f (flags f ++ [g])) id names; Return (f, id).

Definition Set_ (f : FlagSet) (n s : string) : outcome (FlagSet * option flag_error) :=
  match formal f !! n with
  | None => Return (f, Some (NoSuchFlag n))
  | Some id =>
      g ← or_panic (flags f !! id);
      match set_value f id g s with
      | (f, Some err) => Return (f, Some (InvalidValue s n err))
      | (f, None) => Return (with_actual f n id, None)
      end
  end.

(** ** Parsing *)

(** The slice [str[1:len(str)-1]] of one quote is out of range. *)
Definition trimQuotes (s : string) : outcome string :=
  match s with
  | EmptyString => Return s
  | String c s' =>
      let last := String.get (String.length s - 1) s in
      if (Ascii.eqb c "034" || Ascii.eqb c "'") && bool_decide (last = Some c) then
        if String.eqb s' "" then Panic else Return (take_str (String.length s - 2) s')
      else Return s
  end.

(** The first name from [names] on that is not marked with [#]. *)
Fixpoint replacement_of (names : list string) : outcome string :=
  match names with
  | [] => Return ""
  | n :: names' => match n with
                   | EmptyString => Panic
                   | String c _ => if Ascii.eqb c "#" then replacement_of names' else Return n
                   end
  end.

Fixpoint deprecations (name : string) (names : list string) : outcome (list message) :=
  match names with
  | [] => Return []
  | n :: names' =>
      if String.eqb n ("#" +:+ name) then
        r ← replacement_of names; ms ← deprecations name names'; Return (Deprecated name r :: ms)
      else deprecations name names'
  end.

(** [(true, "", nil)], [(false, "", nil)], [(false, name, ErrRetry)] and [(false, "", err)] *)
Inductive one := Seen | NotSeen | Retry (name : string) | Failed (e : flag_error).

Definition parse_flag (f : FlagSet) (id : nat) (name value : string) (has_value : bool) : outcome (FlagSet * one) :=
  g ← or_panic (flags f !! id);
  let finish (f : FlagSet) :=
    ms ← deprecations name (Names g); Return (with_output (with_actual f name id) ms, Seen) in
  if IsBoolFlag (Value g) then
    if has_value then
      match set_value f id g value with
      | (f, Some err) => let e := InvalidBoolean value name err in Return (failf f e, Failed e)
      | (f, None) => finish f
      end
    else finish (fst (set_value f id g "true"))
  else
    let '(f, value, has_value) :=
      match args f with
      | a :: rest => if negb has_value then (with_args f rest, a, true) else (f, value, has_value)
      | [] => (f, value, has_value)
      end in
    if negb has_value then let e := NeedsArgument name in Return (failf f e, Failed e)
    else match set_value f id g value with
         | (f, Some err) => let e := InvalidValue value name err in Return (failf f e, Failed e)
         | (f, None) => finish f
         end.

(** The name, the value and whether there is one. *)
Definition cut_value (name : string) : outcome (string * string * bool) :=
  match index_char "=" name with
  | Some i => value ← trimQuotes (drop_str (S i) name); Return (take_str i name, value, true)
  | None => Return (name, "", false)
  end.

Definition parseOne (f : FlagSet) : outcome (FlagSet * one) :=
  match args f with
  | [] => Return (f, NotSeen)
  | s :: rest =>
      match s with
      | String "-" (String c _ as name) =>
          if String.eqb s "--" then Return (with_args f rest, NotSeen)
          else if Ascii.eqb c "=" then let e := BadSyntax s in Return (failf f e, Failed e)
          else
            let f := with_args f rest in
            '(name, value, has_value) ← cut_value name;
            match formal f !! name with
            | Some id => parse_flag f id name value has_value
            | None =>
                if bool_decide (name ∈ ["-help"; "help"; "h"]) then Return (with_output f [Usage], Failed ErrHelp)
                else if has_prefix "-" name then let e := NotDefined name in Return (failf f e, Failed e)
                else Return (f, Retry name)
            end
      | _ => Return (f, NotSeen)
      end
  end.

(** [strings.Split(name, "")] *)
Definition letters (s : string) : list string := Explode s.

(** The letters of [name], one by one; [true] for an error. *)
Fixpoint parse_letters (f : FlagSet) (ls : list string) : outcome (FlagSet * bool) :=
  match ls with
  | [] => Return (f, false)
  | letter :: ls' =>
      '(f, r) ← parseOne (with_args f (("-" +:+ letter) :: args f));
      match r with
      | Seen | NotSeen => parse_letters f ls'
      | Retry _ | Failed _ => Return (f, true)
      end
  end.

(** [ExitOnError] ends the process. *)
Inductive parse_result := Success | Error (e : flag_error) | Exit2.

Definition handle (f : FlagSet) (e : flag_error) : outcome (FlagSet * parse_result) :=
  match errorHandling f with
  | ContinueOnError => Return (f, Error e)
  | ExitOnError => Return (f, Exit2)
  | PanicOnError => Panic
  end.

Fixpoint Parse_loop (fuel : nat) (f : FlagSet) : outcome (FlagSet * parse_result) :=
  match fuel with
  | O => OutOfFuel
  | S fuel =>
      '(f, r) ← parseOne f;
      match r with
      | Seen => Parse_loop fuel f
      | NotSeen => Return (f, Success)
      | Failed e => handle f e
      | Retry name =>
          if (1 <? String.length name)%nat then
            '(f, failed) ← parse_letters f (letters name);
            if failed : bool then let e := NotDefined name in handle (failf f e) e
            else Parse_loop fuel f
          else let e := NotDefined name in handle (failf f e) e
      end
  end.

Definition Parse_start (f : FlagSet) (arguments : list string) : FlagSet :=
  {| name := name f; parsed := true; actual := actual f; formal := formal f; args := arguments;
     errorHandling := errorHandling f; output := output f; flags := flags f |}.

Definition Parse (f : FlagSet) (arguments : list string) : outcome (FlagSet * parse_result) :=
  Parse_loop (S (length arguments)) (Parse_start f arguments).

(** ** Visiting *)

Context {HS : GoSort}.

Definition flag_less (p q : string) : bool :=
  let pi := trim_prefix "-" p in let pj := trim_prefix "-" q in
  let lpi := to_lower pi in let lpj := to_lower pj in
  if negb (String.eqb lpi lpj) then String.ltb lpi lpj else String.ltb pi pj.

Definition first_name (g : Flag) : outcome string :=
  match Names g with [] => Panic | n :: _ => Return (trim_prefix "#" n) end.

(** [order] is the order in which the map is read. *)
Fixpoint visit_names (f : FlagSet) (order : list (string * nat)) (l : list string) : outcome (list string) :=
  match order with
  | [] => Return l
  | (_, id) :: order' =>
      g ← or_panic (flags f !! id); fName ← first_name g;
      visit_names f order'
        (if Nat.eqb (length (Names g)) 1 then l ++ [fName] else if bool_decide (fName ∈ l) then l else l ++ [fName])
  end.

(** The flags in order; [None] is a nil pointer. *)
Definition sortFlags (f : FlagSet) (m : gmap string nat) (order : list (string * nat)) : outcome (list (option nat)) :=
  l ← visit_names f order []; Return ((fun n => m !! n) <$> Sort l flag_less).

Definition VisitAll (f : FlagSet) := sortFlags f (formal f).
Definition Visit (f : FlagSet) := sortFlags f (actual f).
End FlagSets.

Arguments Flag : clear implicits.
Arguments FlagSet : clear implicits.

(** The pointers to values of the types built in. *)
Section Builtin.
Context (f : FlagSet value) (names : list string) (usage : string).
Definition Bool (v : bool) := Var f (boolValue v) names usage.
Definition Int (v : Z) := Var f (intValue v) names usage.
Definition Int64 (v : Z) := Var f (int64Value v) names usage.
Definition Uint (v : Z) := Var f (uintValue v) names usage.
Definition Uint64 (v : Z) := Var f (uint64Value v) names usage.
Definition String_ (v : string) := Var f (stringValue v) names usage.
End Builtin.

(** ** Reading an argument *)

Section Reading.
Context {V : Type} {HV : FlagValue V}.
Implicit Type f : FlagSet V.

(** What a setting does to the flag set: the flag named [n] gets the text [s]. *)
Definition assign f (n s : string) : option (FlagSet V) :=
  id ← formal f !! n; g ← flags f !! id;
  match set_value f id g s, deprecations n (Names g) with
  | (f, None), Return ms => Some (with_output (with_actual f n id) ms)
  | _, _ => None
  end.

(** Whether the flag named [n] is a switch. *)
Definition bool_named f (n : string) : option bool :=
  id ← formal f !! n; g ← flags f !! id; Some (IsBoolFlag (Value g)).

Lemma with_args_args f a b : with_args (with_args f a) b = with_args f b.
Proof. done. Qed.

Lemma with_args_same f : with_args f (args f) = f.
Proof. by destruct f. Qed.

Lemma assign_args f f' n s a : assign f n s = Some f' -> assign (with_args f a) n s = Some (with_args f' a).
Proof.
  unfold assign, set_value. cbn [formal flags with_args]. destruct (formal f !! n) as [id|]; [|done]. simpl.
  destruct (flags f !! id) as [g|]; [|done]. simpl. destruct (Value_Set (Value g) s) as [v [e|]]; [done|].
  destruct (deprecations n (Names g)); by intros [= <-].
Qed.

Lemma assign_same f f' n s : assign f n s = Some f' ->
  args f' = args f /\ formal f' = formal f /\ errorHandling f' = errorHandling f /\ forall m, bool_named f' m = bool_named f m.
Proof.
  unfold assign, set_value. destruct (formal f !! n) as [id|]; [|done]. simpl.
  destruct (flags f !! id) as [g|] eqn:Hg; [|done]. simpl. destruct (Value_Set (Value g) s) as [v [e|]] eqn:Ev; [done|].
  destruct (deprecations n (Names g)) as [ms| |]; [|done..]. intros [= <-]. repeat split.
  intros m. unfold bool_named. cbn [formal flags with_actual with_output with_flags].
  destruct (formal f !! m) as [k|]; [|done]. simpl. destruct (decide (k = id)) as [->|Hne].
  - rewrite list_lookup_insert_eq by by eapply lookup_lt_Some. rewrite Hg. simpl. f_equal.
    pose proof (IsBoolFlag_Set (Value g) s) as Hb. by rewrite Ev in Hb.
  - by rewrite list_lookup_insert_ne.
Qed.

(** *** The words of a flag *)

Lemma parse_flag_value f f' id n s : formal f !! n = Some id -> bool_named f n = Some false ->
  assign f n s = Some f' -> parse_flag f id n s true = Return (f', Seen).
Proof.
  intros Hn. unfold bool_named, assign, parse_flag. rewrite Hn. simpl. destruct (flags f !! id) as [g|]; [|done]. simpl.
  intros [= ->]. destruct (set_value f id g s) as [f1 [e|]] eqn:E; [done|].
  destruct (deprecations n (Names g)) as [ms| |]; [|done..]. intros [= <-]. destruct (args f); simpl; by rewrite E.
Qed.

Lemma parse_flag_switch f f' id n has : formal f !! n = Some id -> bool_named f n = Some true ->
  assign f n "true" = Some f' -> parse_flag f id n (if has : bool then "true" else "") has = Return (f', Seen).
Proof.
  intros Hn. unfold bool_named, assign, parse_flag. rewrite Hn. simpl. destruct (flags f !! id) as [g|]; [|done]. simpl.
  intros [= ->]. destruct (set_value f id g "true") as [f1 [e|]] eqn:E; [done|].
  destruct (deprecations n (Names g)) as [ms| |]; [|done..]. intros [= <-]. destruct has; rewrite ?E; done.
Qed.

(** A name as it stands between the dash and the value. *)
Definition flag_name (n : string) : Prop := n <> "" /\ contains_char "=" n = false.

Lemma cut_joined n v u : contains_char "=" n = false -> trimQuotes v = Return u -> cut_value (n +:+ String "=" v) = Return (n, u, true).
Proof.
  intros Hn Hv. unfold cut_value. rewrite index_char_app_sep by done.
  rewrite take_app_str. replace (S (String.length n)) with (String.length (n +:+ "=")) by (rewrite string_length_app; simpl; lia).
  replace (n +:+ String "=" v) with ((n +:+ "=") +:+ v) by by rewrite string_app_assoc. rewrite drop_app_str, Hv. done.
Qed.

Lemma cut_plain n : contains_char "=" n = false -> cut_value n = Return (n, "", false).
Proof. intros Hn%index_char_None. unfold cut_value. by rewrite Hn. Qed.

(** What [parseOne] makes of a word whose name is defined. *)
Lemma parseOne_defined f w n v has rest id : args f = ("-" +:+ w) :: rest -> w <> "-" -> flag_name n -> has_prefix n w = true ->
  cut_value w = Return (n, v, has) -> formal f !! n = Some id -> parseOne f = parse_flag (with_args f rest) id n v has.
Proof.
  intros Ha Hw [Hn Hc] Hp Hcut Hf. destruct w as [|c w].
  { destruct n; [done|]. by destruct (has_prefix_inv _ _ Hp). }
  change ("-" +:+ String c w) with (String "-" (String c w)) in Ha. unfold parseOne. rewrite Ha. cbv iota beta zeta.
  assert (String.eqb (String "-" (String c w)) "--" = false) as ->.
  { apply String.eqb_neq. intros [= -> ->]. done. }
  assert (Ascii.eqb c "=" = false) as ->.
  { destruct n as [|d n]; [done|]. apply has_prefix_inv in Hp as [r [= -> ->]]. simpl in Hc. by apply orb_false_iff in Hc as [? _]. }
  rewrite Hcut. cbn [mbind outcome_bind formal with_args]. by rewrite Hf.
Qed.

Lemma bool_named_id f n b : bool_named f n = Some b -> exists id, formal f !! n = Some id.
Proof. unfold bool_named. destruct (formal f !! n); [eauto|done]. Qed.

Lemma joined_word n v : flag_name n -> n +:+ "=" +:+ v <> "-".
Proof.
  intros [Hn _] H. destruct n as [|c n]; [done|]. injection H as -> H.
  apply (f_equal String.length) in H. rewrite string_length_app in H. simpl in H. lia.
Qed.

Lemma parseOne_joined f f' n v u rest : flag_name n -> trimQuotes v = Return u -> is_Some (bool_named f n) ->
  args f = ("-" +:+ n +:+ "=" +:+ v) :: rest -> assign f n u = Some f' -> parseOne f = Return (with_args f' rest, Seen).
Proof.
  intros Hn Hv [b Hb] Ha Hs. destruct (bool_named_id _ _ _ Hb) as [id Hid].
  rewrite (parseOne_defined f _ n u true rest id Ha); [|by apply joined_word|done|apply has_prefix_app|by apply cut_joined; [apply Hn|]|done].
  apply (assign_args _ _ _ _ rest) in Hs. destruct b.
  - revert Hs. unfold assign, parse_flag. cbn [formal flags with_args]. rewrite Hid. unfold bool_named in Hb. rewrite Hid in Hb. simpl in *.
    destruct (flags f !! id) as [g|]; [|done]. simpl in *. injection Hb as ->.
    destruct (set_value (with_args f rest) id g u) as [f1 [e|]]; [done|].
    destruct (deprecations n (Names g)); [|done..]. intros Hs%(inj Some). by rewrite <- Hs.
  - by apply parse_flag_value.
Qed.

Lemma parseOne_switch f f' n rest : flag_name n -> n <> "-" -> bool_named f n = Some true ->
  args f = ("-" +:+ n) :: rest -> assign f n "true" = Some f' -> parseOne f = Return (with_args f' rest, Seen).
Proof.
  intros Hn Hd Hb Ha Hs. destruct (bool_named_id _ _ _ Hb) as [id Hid].
  rewrite (parseOne_defined f _ n "" false rest id Ha); [|done..|apply has_prefix_refl|apply cut_plain, Hn|done].
  apply (assign_args _ _ _ _ rest) in Hs. by apply (parse_flag_switch _ _ id n false).
Qed.

Lemma parseOne_spaced f f' n v rest : flag_name n -> n <> "-" -> bool_named f n = Some false ->
  args f = ("-" +:+ n) :: v :: rest -> assign f n v = Some f' -> parseOne f = Return (with_args f' rest, Seen).
Proof.
  intros Hn Hd Hb Ha Hs. destruct (bool_named_id _ _ _ Hb) as [id Hid].
  rewrite (parseOne_defined f _ n "" false (v :: rest) id Ha); [|done..|apply has_prefix_refl|apply cut_plain, Hn|done].
  apply (assign_args _ _ _ _ rest) in Hs. pose proof (parse_flag_value (with_args f rest) _ id n v Hid Hb Hs) as H.
  revert H. unfold parse_flag. cbn [flags args with_args]. destruct (flags f !! id) as [g|] eqn:Hg; [|done]. simpl.
  unfold bool_named in Hb. rewrite Hid in Hb. simpl in Hb. rewrite Hg in Hb. simpl in Hb. injection Hb as ->.
  intros H. destruct rest; exact H.
Qed.
End Reading.

(** ** Command lines *)

(** How a line names flags: [-name=value], [-name value], [-name] for a
    switch, and letters (runes) together, each a switch or taking the next
    word; a value joined to such letters is not used. *)
Inductive setting :=
| Joined (n v : string) | Spaced (n v : string) | Switch (n : string)
| Cluster (ls : list (string * option string)) (lost : option string).

Definition cluster_name (ls : list (string * option string)) : string := String.concat "" (fst <$> ls).

Definition render (s : setting) : list string :=
  match s with
  | Joined n v => ["-" +:+ n +:+ "=" +:+ v]
  | Spaced n v => ["-" +:+ n; v]
  | Switch n => ["-" +:+ n]
  | Cluster ls lost => ("-" +:+ (match lost with Some v => cluster_name ls +:+ "=" +:+ v | None => cluster_name ls end)) :: omap snd ls
  end.

Definition unquote (v : string) : string := match trimQuotes v with Return u => u | _ => v end.

(** The flags it sets, and their texts. *)
Definition effects (s : setting) : list (string * string) :=
  match s with
  | Joined n v => [(n, unquote v)]
  | Spaced n v => [(n, v)]
  | Switch n => [(n, "true")]
  | Cluster ls _ => (fun x => (fst x, default "true" (snd x))) <$> ls
  end.

(** A text that [trimQuotes] cuts outside of its bounds. *)
Definition lone_quote (v : string) : bool := String.eqb v "'" || String.eqb v (String "034" "").

Section Lines.
Context {V : Type} {HV : FlagValue V}.
Implicit Type f : FlagSet V.

Fixpoint assigns f (l : list (string * string)) : option (FlagSet V) :=
  match l with [] => Some f | (n, s) :: l' => f' ← assign f n s; assigns f' l' end.

(** Letters that name flags, each a switch or one that takes a word. *)
Definition letters_ok f (ls : list (string * option string)) : Prop :=
  Forall (fun x => one_rune (fst x) /\ fst x <> "=" /\ fst x <> "-" /\
    bool_named f (fst x) = Some (match snd x with None => true | Some _ => false end)) ls.

Definition setting_ok f (s : setting) : Prop :=
  match s with
  | Joined n v => flag_name n /\ lone_quote v = false /\ is_Some (bool_named f n)
  | Spaced n v => flag_name n /\ n <> "-" /\ bool_named f n = Some false
  | Switch n => flag_name n /\ n <> "-" /\ bool_named f n = Some true
  | Cluster ls lost =>
      (1 < length ls)%nat /\ formal f !! cluster_name ls = None /\ ~ (cluster_name ls ∈ ["-help"; "help"; "h"]) /\
      match lost with Some v => lone_quote v = false | None => True end /\ letters_ok f ls
  end.

(** The words at which flags end. *)
Definition ends_flags (tail rest : list string) : Prop :=
  tail = "--" :: rest \/
  (tail = rest /\ match rest with [] => True | w :: _ => w = "-" \/ has_prefix "-" w = false end).

Lemma trimQuotes_unquote v : lone_quote v = false -> trimQuotes v = Return (unquote v).
Proof.
  intros [H1 H2]%orb_false_iff. unfold unquote. destruct (trimQuotes v) as [u| |] eqn:E; [done|exfalso..].
  - unfold trimQuotes in E. destruct v as [|c v]; [done|].
    destruct (_ && _) eqn:Eq; [|done]. destruct (String.eqb_spec v "") as [->|]; [|done].
    apply andb_true_iff in Eq as [[->%Ascii.eqb_eq| ->%Ascii.eqb_eq]%orb_true_iff _]; done.
  - unfold trimQuotes in E. destruct v as [|c v]; [done|]. destruct (_ && _); [|done]. by destruct (String.eqb v "").
Qed.

Lemma assigns_same f f' l : assigns f l = Some f' ->
  args f' = args f /\ formal f' = formal f /\ errorHandling f' = errorHandling f /\ forall m, bool_named f' m = bool_named f m.
Proof.
  revert f. induction l as [|[n s] l IH]; intros f; simpl; [by intros [= ->]|].
  destruct (assign f n s) as [f1|] eqn:E; [|done]. simpl. intros (-> & -> & -> & Hb)%IH.
  apply assign_same in E as (-> & -> & -> & Hb1). repeat split. intros m. by rewrite Hb, Hb1.
Qed.

Lemma assigns_args f f' l a : assigns f l = Some f' -> assigns (with_args f a) l = Some (with_args f' a).
Proof.
  revert f. induction l as [|[n s] l IH]; intros f; simpl; [intros H%(inj Some); by rewrite H|].
  destruct (assign f n s) as [f1|] eqn:E; [|done]. apply (assign_args _ _ _ _ a) in E. rewrite E. simpl. apply IH.
Qed.

Lemma assigns_app f l k : assigns f (l ++ k) = (f' ← assigns f l; assigns f' k).
Proof. revert f. induction l as [|[n s] l IH]; intros f; simpl; [done|]. destruct (assign f n s); simpl; [apply IH|done]. Qed.

Lemma setting_ok_same f f' s : formal f' = formal f -> (forall m, bool_named f' m = bool_named f m) -> setting_ok f s -> setting_ok f' s.
Proof.
  intros Hf Hb. destruct s as [n v|n v|n|ls lost]; simpl; rewrite ?Hb; [done..|]. rewrite Hf. intros (?&?&?&?&Hl). repeat split; [done..|].
  eapply Forall_impl; [exact Hl|]. intros x (?&?&?&?). by rewrite Hb.
Qed.

(** A rune as a name. *)
Lemma rune_name l : one_rune l -> l <> "=" -> flag_name l.
Proof. intros Hl He. split; [by apply one_rune_nonempty|by apply one_rune_char]. Qed.

Lemma rune_dash l : one_rune l -> l <> "-" -> has_prefix "-" l = false.
Proof.
  intros Hl Hd. destruct (has_prefix "-" l) eqn:E; [|done]. apply has_prefix_inv in E as [r ->].
  assert (contains_char "-" ("-" +:+ r) = false) as H by by apply one_rune_char. done.
Qed.

Lemma parse_letters_ok ls k : forall f f' rest, letters_ok f ls ->
  assigns f ((fun x => (fst x, default "true" (snd x))) <$> ls) = Some f' ->
  parse_letters (with_args f (omap snd ls ++ rest)) ((fst <$> ls) ++ k) = parse_letters (with_args f' rest) k.
Proof.
  induction ls as [|[c o] ls IH]; intros f f' rest Hok; [by intros [= ->]|].
  apply Forall_cons in Hok as [(Hr & Hc1 & Hd & Hb) Hok]. cbn [fst snd fmap list_fmap assigns] in *.
  destruct (assign f c (default "true" o)) as [f1|] eqn:E; [|done]. cbn [mbind option_bind]. intros Ha.
  pose proof (assign_same _ _ _ _ E) as (_ & _ & _ & Hb1). pose proof (rune_name c Hr Hc1) as Hn.
  cbn [parse_letters app].
  apply (assign_args _ _ _ _ (("-" +:+ c) :: omap snd ((c, o) :: ls) ++ rest)) in E.
  assert (parseOne (with_args f (("-" +:+ c) :: omap snd ((c, o) :: ls) ++ rest)) = Return (with_args f1 (omap snd ls ++ rest), Seen)) as HP.
  { destruct o as [v|]; [eapply parseOne_spaced in E|eapply parseOne_switch in E]; try done; exact E. }
  cbn [args with_args]. rewrite with_args_args, HP. cbn [mbind outcome_bind]. apply (IH f1); [|done].
  eapply Forall_impl; [exact Hok|]. intros x (?&?&?&?). by rewrite Hb1.
Qed.

Lemma Parse_loop_seen fuel f f' : parseOne f = Return (f', Seen) -> Parse_loop (S fuel) f = Parse_loop fuel f'.
Proof. intros H. simpl. by rewrite H. Qed.

Lemma letters_runes f ls : letters_ok f ls -> Forall one_rune (fst <$> ls).
Proof. intros H. apply Forall_fmap. eapply Forall_impl; [exact H|]. by intros x (?&_). Qed.

Lemma letters_cluster f ls : letters_ok f ls -> letters (cluster_name ls) = fst <$> ls.
Proof. intros H. by apply Explode_runes, (letters_runes f). Qed.

Lemma cluster_cons x ls : cluster_name (x :: ls) = fst x +:+ cluster_name ls.
Proof. unfold cluster_name. by rewrite fmap_cons, concat_cons. Qed.

Lemma cluster_chars f ls : letters_ok f ls -> contains_char "=" (cluster_name ls) = false.
Proof.
  induction 1 as [|x ls (Hr & He & _) _ IH]; [done|]. rewrite cluster_cons, contains_char_app, IH, orb_false_r. by apply rune_name.
Qed.

Lemma cluster_length f ls : letters_ok f ls -> (length ls <= String.length (cluster_name ls))%nat.
Proof.
  induction 1 as [|x ls (Hr & _) _ IH]; [simpl; lia|]. rewrite cluster_cons, string_length_app. cbn [length].
  apply one_rune_nonempty in Hr. destruct (fst x); [done|]. simpl. lia.
Qed.

(** What [parseOne] makes of a word whose name is not defined. *)
Lemma parseOne_undefined f w n v has rest : args f = ("-" +:+ w) :: rest -> w <> "-" -> flag_name n -> has_prefix n w = true ->
  cut_value w = Return (n, v, has) -> formal f !! n = None -> ~ (n ∈ ["-help"; "help"; "h"]) -> has_prefix "-" n = false ->
  parseOne f = Return (with_args f rest, Retry n).
Proof.
  intros Ha Hw [Hn Hc] Hp Hcut Hf Hh Hd. destruct w as [|c w].
  { destruct n; [done|]. by destruct (has_prefix_inv _ _ Hp). }
  change ("-" +:+ String c w) with (String "-" (String c w)) in Ha. unfold parseOne. rewrite Ha. cbv iota beta zeta.
  assert (String.eqb (String "-" (String c w)) "--" = false) as ->.
  { apply String.eqb_neq. intros [= -> ->]. done. }
  assert (Ascii.eqb c "=" = false) as ->.
  { destruct n as [|d n]; [done|]. apply has_prefix_inv in Hp as [r [= -> ->]]. simpl in Hc. by apply orb_false_iff in Hc as [? _]. }
  rewrite Hcut. cbn [mbind outcome_bind formal with_args]. rewrite Hf, bool_decide_eq_false_2, Hd by done. done.
Qed.

Lemma cluster_step f f' ls lost rest fuel : setting_ok f (Cluster ls lost) -> assigns f (effects (Cluster ls lost)) = Some f' ->
  args f = render (Cluster ls lost) ++ rest -> Parse_loop (S fuel) f = Parse_loop fuel (with_args f' rest).
Proof.
  intros (Hlen & Hnew & Hhelp & Hlost & Hok) Hs Ha. pose proof (cluster_chars f ls Hok) as Hc. pose proof (cluster_length f ls Hok) as Hlen'.
  assert (parseOne f = Return (with_args f (omap snd ls ++ rest), Retry (cluster_name ls))) as HP.
  { assert (flag_name (cluster_name ls)) as Hn by (split; [intros E; rewrite E in Hlen'; simpl in Hlen'; lia|exact Hc]).
    assert (has_prefix "-" (cluster_name ls) = false) as Hm.
    { destruct ls as [|x ls']; [simpl in Hlen; lia|]. apply Forall_cons in Hok as [(Hr & _ & Hd & _) _].
      pose proof (rune_dash _ Hr Hd) as Hm. apply one_rune_nonempty in Hr. rewrite cluster_cons. destruct (fst x) as [|c t]; [done|].
      by rewrite string_app_cons, !has_prefix_char in *. }
    destruct lost as [v|].
    - eapply (parseOne_undefined f _ _ (unquote v) true _ Ha); try done; [by apply joined_word|apply has_prefix_app|].
      apply cut_joined; [exact Hc|by apply trimQuotes_unquote].
    - eapply (parseOne_undefined f _ _ "" false _ Ha); try done; [|apply has_prefix_refl|by apply cut_plain].
      intros E. by rewrite E in Hm. }
  cbn [Parse_loop]. rewrite HP. cbn [mbind outcome_bind]. rewrite (proj2 (Nat.ltb_lt 1 _)) by lia. rewrite (letters_cluster f) by done.
  pose proof (parse_letters_ok ls [] f f' rest Hok Hs) as HL. rewrite app_nil_r in HL. by rewrite HL.
Qed.

Lemma setting_step f f' s rest fuel : setting_ok f s -> assigns f (effects s) = Some f' -> args f = render s ++ rest ->
  Parse_loop (S fuel) f = Parse_loop fuel (with_args f' rest).
Proof.
  destruct s as [n v|n v|n|ls lost]; [| | |by apply cluster_step]; cbn [setting_ok effects assigns]; intros Hok Hs Ha;
    destruct (assign f n _) as [f1|] eqn:E in Hs; try done; cbn in Hs; apply (inj Some) in Hs as <-; apply Parse_loop_seen.
  - destruct Hok as (Hn & Hq & Hb). eapply parseOne_joined; [done|by apply trimQuotes_unquote|done|exact Ha|done].
  - destruct Hok as (Hn & Hd & Hb). by apply (parseOne_spaced f f1 n v rest).
  - destruct Hok as (Hn & Hd & Hb). by apply (parseOne_switch f f1 n rest).
Qed.

Lemma settings_run l : forall f f' rest fuel, Forall (setting_ok f) l -> assigns f (l ≫= effects) = Some f' -> args f = (l ≫= render) ++ rest ->
  Parse_loop (length l + fuel) f = Parse_loop fuel (with_args f' rest).
Proof.
  induction l as [|s l IH]; intros f f' rest fuel Hok Hs Ha.
  - injection Hs as ->. simpl in Ha. by rewrite <- Ha, with_args_same.
  - apply Forall_cons in Hok as [Hs1 Hok]. cbn [mbind list_bind] in Hs, Ha. rewrite <- app_assoc in Ha.
    rewrite assigns_app in Hs. destruct (assigns f (effects s)) as [f1|] eqn:E; [|done]. cbn [mbind option_bind] in Hs.
    cbn [length Nat.add]. rewrite (setting_step f f1 s _ _ Hs1 E Ha).
    pose proof (assigns_same _ _ _ E) as (_ & Hf & _ & Hb).
    apply (assigns_args _ _ _ ((l ≫= render) ++ rest)) in Hs. rewrite (IH _ _ rest fuel (Forall_impl _ _ _ Hok (fun s => setting_ok_same f (with_args f1 ((l ≫= render) ++ rest)) s Hf Hb)) Hs eq_refl).
    by rewrite with_args_args.
Qed.

Lemma render_length l : (length l <= length (l ≫= render))%nat.
Proof.
  induction l as [|s l IH]; [done|]. cbn [mbind list_bind]. rewrite length_app. cbn [length].
  assert (1 <= length (render s))%nat by (destruct s; simpl; lia). lia.
Qed.

Lemma parseOne_end f tail rest : args f = tail -> ends_flags tail rest -> parseOne f = Return (with_args f rest, NotSeen).
Proof.
  intros Ha [->|[-> Hr]]; [unfold parseOne; by rewrite Ha|].
  assert (with_args f rest = f) as -> by (rewrite <- Ha; apply with_args_same).
  unfold parseOne. rewrite Ha. destruct rest as [|w r]; [done|].
  destruct Hr as [->|Hw]; [done|]. destruct w as [|c w]; [done|].
  rewrite has_prefix_char in Hw.
  by destruct c as [[] [] [] [] [] [] [] []].
Qed.

Lemma assigns_start f f' l a : assigns f l = Some f' -> assigns (Parse_start f a) l = Some (Parse_start f' a).
Proof.
  revert f. induction l as [|[n s] k IH]; intros f Hs; [injection Hs as ->; done|].
  simpl in *. unfold assign, set_value in *. cbn [formal flags Parse_start] in *. destruct (formal f !! n) as [id|]; [|done]. simpl in *.
  destruct (flags f !! id) as [g|]; [|done]. simpl in *. destruct (Value_Set (Value g) s) as [v [e|]]; [done|].
  destruct (deprecations n (Names g)); [|done..]. simpl in *. by apply IH in Hs.
Qed.

(** C18. Parsing undoes writing: the words of any settings - values joined or
    apart, switches, letters together - set exactly those flags, in order, to
    those texts, and leave what follows the flags.  A value joined to letters
    is dropped without a word. *)
Theorem Parse_render (f f' : FlagSet V) (l : list setting) (tail rest : list string) :
  Forall (setting_ok f) l -> assigns f (l ≫= effects) = Some f' -> ends_flags tail rest ->
  Parse f ((l ≫= render) ++ tail) = Return (with_args (Parse_start f' []) rest, Success).
Proof.
  intros Hok Hs Hend. unfold Parse. set (a := (l ≫= render) ++ tail).
  pose proof (render_length l) as Hlen.
  replace (S (length a)) with (length l + S (length a - length l))%nat by (unfold a; rewrite length_app; lia).
  rewrite (settings_run l (Parse_start f a) (Parse_start f' a) tail); [|done|by apply assigns_start|done].
  cbn [Parse_loop]. rewrite (parseOne_end _ tail rest); [done|done|done].
Qed.

(** *** Errors *)

(** How a word names the flag [n]: alone, or with a text joined to it. *)
Inductive spells (n : string) : string -> option string -> Prop :=
| alone : n <> "-" -> spells n n None
| joined v : lone_quote v = false -> spells n (n +:+ "=" +:+ v) (Some (unquote v)).

(** Words at which a flag fails, with the error: a bare [-=], a flag that is
    not defined or calls for help, one without its argument, and a value that
    the flag rejects, joined to it or in the next word. *)
Inductive bad_flag f : list string -> flag_error -> Prop :=
| bad_syntax w rest : bad_flag f (("-=" +:+ w) :: rest) (BadSyntax ("-=" +:+ w))
| undefined n w o rest : flag_name n -> spells n w o -> formal f !! n = None -> ~ (n ∈ ["-help"; "help"; "h"]) ->
    bad_flag f (("-" +:+ w) :: rest) (NotDefined n)
| help n w o rest : flag_name n -> spells n w o -> formal f !! n = None -> n ∈ ["-help"; "help"; "h"] -> bad_flag f (("-" +:+ w) :: rest) ErrHelp
| no_argument n : flag_name n -> n <> "-" -> bool_named f n = Some false -> bad_flag f ["-" +:+ n] (NeedsArgument n)
| bad_value n v rest id g v' e : flag_name n -> lone_quote v = false -> formal f !! n = Some id -> flags f !! id = Some g ->
    Value_Set (Value g) (unquote v) = (v', Some e) ->
    bad_flag f (("-" +:+ n +:+ "=" +:+ v) :: rest) ((if IsBoolFlag (Value g) then InvalidBoolean else InvalidValue) (unquote v) n e)
| bad_next n v rest id g v' e : flag_name n -> n <> "-" -> formal f !! n = Some id -> flags f !! id = Some g -> IsBoolFlag (Value g) = false ->
    Value_Set (Value g) v = (v', Some e) -> bad_flag f (("-" +:+ n) :: v :: rest) (InvalidValue v n e).

(** Words that the flag set does not accept: a flag that fails, when it is not
    a word to be read letter by letter, and letters of which one fails, in
    whatever way, after others that did not. *)
Inductive bad_word f : list string -> flag_error -> Prop :=
| bad_alone w e : bad_flag f w e -> (forall n, e = NotDefined n -> has_prefix "-" n = true \/ String.length n = 1%nat) -> bad_word f w e
| bad_letter n w o ls l more rest f' e : flag_name n -> spells n w o -> formal f !! n = None -> ~ (n ∈ ["-help"; "help"; "h"]) ->
    has_prefix "-" n = false -> (1 < String.length n)%nat -> letters n = (fst <$> ls) ++ l :: more -> letters_ok f ls ->
    assigns f (effects (Cluster ls None)) = Some f' -> bad_flag f' (("-" +:+ l) :: rest) e ->
    bad_word f (("-" +:+ w) :: omap snd ls ++ rest) (NotDefined n).

Definition kept f f' : Prop := errorHandling f' = errorHandling f /\ forall n, is_Some (actual f !! n) -> is_Some (actual f' !! n).

Lemma assign_kept f f' n s : assign f n s = Some f' -> kept f f'.
Proof.
  unfold assign, set_value. destruct (formal f !! n) as [id|]; [|done]. simpl. destruct (flags f !! id) as [g|]; [|done]. simpl.
  destruct (Value_Set (Value g) s) as [v [e|]]; [done|]. destruct (deprecations n (Names g)) as [ms| |]; [|done..]. intros [= <-].
  split; [done|]. intros m Hm. cbn [actual with_output with_actual with_flags]. destruct (decide (m = n)) as [->|Hne].
  - by rewrite lookup_insert_eq.
  - by rewrite lookup_insert_ne.
Qed.

Lemma assigns_kept f f' l : assigns f l = Some f' -> kept f f'.
Proof.
  revert f. induction l as [|[n s] l IH]; intros f; simpl; [by intros [= ->]|].
  destruct (assign f n s) as [f1|] eqn:E; [|done]. simpl. intros [H1 H2]%IH. apply assign_kept in E as [H3 H4].
  split; [congruence|auto].
Qed.

Lemma kept_trans f f1 f2 : kept f f1 -> kept f1 f2 -> kept f f2.
Proof. intros [H1 H2] [H3 H4]. split; [congruence|auto]. Qed.

Lemma spells_cut n w o : flag_name n -> spells n w o ->
  w <> "-" /\ has_prefix n w = true /\ cut_value w = Return (n, default "" o, bool_decide (is_Some o)).
Proof.
  intros Hn [Hd|v Hv]; (split; [|split]); [done|apply has_prefix_refl|by apply cut_plain; apply Hn|by apply joined_word|apply has_prefix_app|].
  apply cut_joined; [apply Hn|by apply trimQuotes_unquote].
Qed.

(** The words of a flag that is not defined. *)
Lemma parseOne_missing f n w o rest : flag_name n -> spells n w o -> formal f !! n = None -> args f = ("-" +:+ w) :: rest ->
  parseOne f =
    if bool_decide (n ∈ ["-help"; "help"; "h"]) then Return (with_output (with_args f rest) [Usage], Failed ErrHelp)
    else if has_prefix "-" n then Return (failf (with_args f rest) (NotDefined n), Failed (NotDefined n))
    else Return (with_args f rest, Retry n).
Proof.
  intros Hn Hw Hf Ha. destruct (spells_cut n w o Hn Hw) as (Hd & Hp & Hcut). destruct w as [|c w].
  { destruct n; [by destruct Hn|by destruct (has_prefix_inv _ _ Hp)]. }
  change ("-" +:+ String c w) with (String "-" (String c w)) in Ha. unfold parseOne. rewrite Ha. cbv iota beta zeta.
  assert (String.eqb (String "-" (String c w)) "--" = false) as ->.
  { apply String.eqb_neq. intros [= -> ->]. done. }
  assert (Ascii.eqb c "=" = false) as ->.
  { destruct Hn as [Hn Hc]. destruct n as [|d n]; [done|]. apply has_prefix_inv in Hp as [r [= -> ->]]. simpl in Hc. by apply orb_false_iff in Hc as [? _]. }
  rewrite Hcut. cbn [mbind outcome_bind formal with_args]. by rewrite Hf.
Qed.

Lemma bad_flag_fails f w e : bad_flag f w e -> args f = w -> exists f1 r, parseOne f = Return (f1, r) /\ kept f f1 /\
  (r = Failed e \/ exists n, r = Retry n /\ e = NotDefined n /\ has_prefix "-" n = false).
Proof.
  intros Hb Ha. destruct Hb as [w rest|n w o rest Hn Hw Hf Hh|n w o rest Hn Hw Hf Hh|n Hn Hd Hbool|n v rest id g v' e Hn Hq Hid Hg Hv|n v rest id g v' e Hn Hd Hid Hg Hb Hv].
  - unfold parseOne. rewrite Ha. do 2 eexists. split; [done|]. split; [done|by left].
  - rewrite (parseOne_missing f n w o rest), bool_decide_eq_false_2 by done.
    destruct (has_prefix "-" n) eqn:Hp; (do 2 eexists; split; [done|]; split; [done|]); [by left|right; eauto].
  - rewrite (parseOne_missing f n w o rest), bool_decide_eq_true_2 by done. do 2 eexists. split; [done|]. split; [done|by left].
  - destruct (bool_named_id _ _ _ Hbool) as [id Hid].
    rewrite (parseOne_defined f n n "" false [] id Ha); [|done..|apply has_prefix_refl|by apply cut_plain; apply Hn|done].
    unfold bool_named in Hbool. rewrite Hid in Hbool. simpl in Hbool. unfold parse_flag. cbn [flags args with_args].
    destruct (flags f !! id) as [g|]; [|done]. simpl in *. injection Hbool as ->. simpl. do 2 eexists. split; [done|]. split; [done|by left].
  - rewrite (parseOne_defined f _ n (unquote v) true rest id Ha); [|by apply joined_word|done|apply has_prefix_app|by apply cut_joined; [apply Hn|by apply trimQuotes_unquote]|done].
    unfold parse_flag, set_value. cbn [flags args with_args]. rewrite Hg. simpl.
    destruct (IsBoolFlag (Value g)); [rewrite Hv|destruct rest; simpl; rewrite Hv]; (do 2 eexists; split; [done|]; split; [done|by left]).
  - rewrite (parseOne_defined f n n "" false (v :: rest) id Ha); [|done..|apply has_prefix_refl|by apply cut_plain; apply Hn|done].
    unfold parse_flag, set_value. cbn [flags args with_args]. rewrite Hg. simpl. rewrite Hb. simpl. rewrite Hg || idtac. simpl. rewrite Hv.
    do 2 eexists. split; [done|]. split; [done|by left].
Qed.

Lemma bad_word_fails f w e fuel : bad_word f w e -> args f = w ->
  exists f1, Parse_loop (S fuel) f = handle f1 e /\ kept f f1.
Proof.
  intros Hb Ha. destruct Hb as [w e Hb Hone|n w o ls l more rest f' e Hn Hw Hf Hh Hp Hlen Hl Hok Hs Hb]; cbn [Parse_loop].
  - destruct (bad_flag_fails f w e Hb Ha) as (f1 & r & -> & Hk & [->|(n & -> & -> & Hp)]); cbn [mbind outcome_bind]; [by exists f1|].
    destruct (Hone n eq_refl) as [|Hlen]; [congruence|]. rewrite Hlen. by eexists.
  - rewrite (parseOne_missing f n w o (omap snd ls ++ rest)), bool_decide_eq_false_2, Hp by done.
    cbn [mbind outcome_bind]. rewrite (proj2 (Nat.ltb_lt _ _) Hlen), Hl, (parse_letters_ok ls _ f f' rest Hok Hs).
    cbn [parse_letters args with_args]. rewrite with_args_args.
    assert (bad_flag (with_args f' (("-" +:+ l) :: rest)) (("-" +:+ l) :: rest) e) as Hb'.
    { apply assigns_kept in Hs as _. by destruct Hb; econstructor. }
    destruct (bad_flag_fails _ _ _ Hb' eq_refl) as (f2 & r & -> & Hk2 & Hr). cbn [mbind outcome_bind].
    assert (kept f f2) as Hk by (eapply kept_trans; [by eapply assigns_kept|exact Hk2]).
    destruct Hr as [->|(m & -> & _)]; cbn [mbind outcome_bind]; (eexists; split; [reflexivity|exact Hk]).
Qed.

Lemma bad_flag_start f w e a t : bad_flag f w e -> bad_flag (with_args (Parse_start f a) t) w e.
Proof. intros Hb. destruct Hb; econstructor; done. Qed.

Lemma bad_word_start f w e a t : bad_word f w e -> bad_word (with_args (Parse_start f a) t) w e.
Proof.
  intros [? ? Hb ?|n w' o ls l more rest f' e' ? ? ? ? ? ? ? ? Hs Hb]; [by apply bad_alone; [apply bad_flag_start|]|].
  eapply (bad_letter _ n w' o ls l more rest (with_args (Parse_start f' a) t) e'); try done; [by apply assigns_args, assigns_start|].
  by apply bad_flag_start.
Qed.

(** C19. Where parsing stops at an error: after any settings a bare [-=], a
    flag that is not defined, a call for help, a flag without its argument and
    a value that is rejected - joined to its flag or in the next word - end it
    with their own error, and letters of which one fails in any of these ways
    with the error that their word is not defined; the error is handled as the
    set says, and every flag set by then stays set.  A name counts with its
    dashes: [--x] is not defined where only [x] is. *)
Theorem Parse_errors (f f' : FlagSet V) (l : list setting) (w : list string) (e : flag_error) :
  Forall (setting_ok f) l -> assigns f (l ≫= effects) = Some f' -> bad_word f' w e ->
  exists f1, Parse f ((l ≫= render) ++ w) = handle f1 e /\ kept f' f1.
Proof.
  intros Hok Hs Hbad. unfold Parse. set (a := (l ≫= render) ++ w).
  pose proof (render_length l) as Hlen.
  replace (S (length a)) with (length l + S (length a - length l))%nat by (unfold a; rewrite length_app; lia).
  rewrite (settings_run l (Parse_start f a) (Parse_start f' a) w); [|done|by apply assigns_start|done].
  destruct (bad_word_fails (with_args (Parse_start f' a) w) w e (length a - length l)) as (f1 & HP & [Hk1 Hk2]).
  - by apply bad_word_start.
  - done.
  - exists f1. split; [exact HP|]. split; [exact Hk1|exact Hk2].
Qed.
End Lines.

(** ** Invariants *)

Section Invariants.
Context {V : Type} {HV : FlagValue V}.
Implicit Type f : FlagSet V.

Record wf f : Prop := {
  formal_flag : forall n id, formal f !! n = Some id -> exists g, flags f !! id = Some g /\ n ∈ (trim_prefix "#" <$> Names g);
  flag_formal : forall id g n, flags f !! id = Some g -> n ∈ Names g -> formal f !! trim_prefix "#" n = Some id;
  names_nonempty : forall id g, flags f !! id = Some g -> Forall (fun n => n <> "") (Names g);
  actual_formal : actual f ⊆ formal f }.

(** Only [Set] changes the value of a flag, and nothing else of it changes. *)
Definition value_steps : V -> V -> Prop := rtc (fun v v' => exists s, v' = fst (Value_Set v s)).

Definition evolves f f' : Prop := forall id g, flags f !! id = Some g ->
  exists v, flags f' !! id = Some (with_value g v) /\ value_steps (Value g) v.

Definition runs f f' : Prop :=
  wf f' /\ formal f' = formal f /\ length (flags f') = length (flags f) /\ evolves f f' /\ errorHandling f' = errorHandling f.

Lemma with_value_same (g : Flag V) : with_value g (Value g) = g.
Proof. by destruct g. Qed.

Lemma evolves_refl f f' : flags f' = flags f -> evolves f f'.
Proof. intros Hf id g Hg. exists (Value g). rewrite Hf, with_value_same. split; [done|apply rtc_refl]. Qed.

Lemma evolves_trans f f1 f' : evolves f f1 -> evolves f1 f' -> evolves f f'.
Proof.
  intros H1 H2 id g Hg. apply H1 in Hg as (v & Hg & Hv). apply H2 in Hg as (v' & Hg & Hv'). exists v'. split; [done|].
  by etrans.
Qed.

Lemma runs_refl f : wf f -> runs f f.
Proof. intros Hf. repeat split; try apply Hf. by apply evolves_refl. Qed.

Lemma runs_trans f f1 f' : runs f f1 -> runs f1 f' -> runs f f'.
Proof.
  intros (_ & H1 & H2 & H3 & H4) (Hw & H5 & H6 & H7 & H8). split; [done|]. repeat split; try congruence. by eapply evolves_trans.
Qed.

Lemma set_value_runs f f1 id g s o : wf f -> flags f !! id = Some g -> set_value f id g s = (f1, o) ->
  runs f f1 /\ actual f1 = actual f /\ args f1 = args f.
Proof.
  intros Hf Hg. unfold set_value. destruct (Value_Set (Value g) s) as [v e] eqn:Ev. intros [= <- <-].
  assert (forall k h, <[id := with_value g v]> (flags f) !! k = Some h -> exists h', flags f !! k = Some h' /\ Names h = Names h') as Hn.
  { intros k h. destruct (decide (k = id)) as [->|Hne].
    - rewrite list_lookup_insert_eq by by eapply lookup_lt_Some. intros [= <-]. by exists g.
    - rewrite list_lookup_insert_ne by done. eauto. }
  split; [|done]. split; [|split; [done|split; [apply length_insert|split; [|done]]]].
  - split; cbn [flags formal actual with_flags].
    + intros n k Hk. apply (formal_flag _ Hf) in Hk as (h & Hh & Hin). destruct (decide (k = id)) as [->|Hne].
      * rewrite list_lookup_insert_eq by by eapply lookup_lt_Some. eexists. split; [done|]. cbn. congruence.
      * rewrite list_lookup_insert_ne by done. eauto.
    + intros k h n (h' & Hh & ->)%Hn. by apply (flag_formal _ Hf).
    + intros k h (h' & Hh & ->)%Hn. by apply (names_nonempty _ Hf k).
    + apply (actual_formal _ Hf).
  - intros k h Hk. cbn [flags with_flags]. destruct (decide (k = id)) as [->|Hne].
    + rewrite list_lookup_insert_eq by by eapply lookup_lt_Some. assert (h = g) as -> by congruence. exists v. split; [done|].
      apply rtc_once. exists s. by rewrite Ev.
    + rewrite list_lookup_insert_ne by done. exists (Value h). rewrite with_value_same. split; [done|apply rtc_refl].
Qed.

Lemma same_runs f f1 : wf f -> flags f1 = flags f -> formal f1 = formal f -> actual f1 ⊆ formal f -> errorHandling f1 = errorHandling f -> runs f f1.
Proof.
  intros Hf H1 H2 H3 H4. split; [|repeat split; try congruence; by apply evolves_refl].
  split; rewrite ?H1, ?H2; apply Hf || done.
Qed.

Lemma replacement_total names : Forall (fun n => n <> "") names -> exists r, replacement_of names = Return r.
Proof.
  induction 1 as [|n names Hn _ [r IH]]; [by eexists|]. simpl. destruct n as [|c n]; [done|]. destruct (Ascii.eqb c "#"); eauto.
Qed.

Lemma deprecations_total n names : Forall (fun n => n <> "") names -> exists ms, deprecations n names = Return ms.
Proof.
  induction names as [|m names IH]; intros Hn; [by eexists|]. pose proof Hn as [_ Hn']%Forall_cons. destruct (IH Hn') as [ms Hms].
  cbn [deprecations]. destruct (String.eqb m _); [|by rewrite Hms; eauto].
  destruct (replacement_total _ Hn) as [r ->]. cbn [mbind outcome_bind]. rewrite Hms. by eexists.
Qed.

(** One turn of [parseOne] that starts in [f] with the arguments [a]. *)
Definition turn f (a : list string) f' (r : one) : Prop :=
  runs f f' /\ args f' `suffix_of` a /\
  match r with
  | Seen | Retry _ => (length (args f') < length a)%nat
  | _ => True
  end.

Lemma output_runs f f' m : runs f f' -> runs f (with_output f' m).
Proof. intros H. apply (runs_trans _ _ _ H). apply same_runs; try done; apply H. Qed.

Lemma args_runs f f' a : runs f f' -> runs f (with_args f' a).
Proof. intros H. apply (runs_trans _ _ _ H). apply same_runs; try done; apply H. Qed.

Lemma finish_runs f f' id n m : runs f f' -> formal f !! n = Some id -> runs f (with_output (with_actual f' n id) m).
Proof.
  intros H Hn. apply output_runs, (runs_trans _ _ _ H). pose proof H as (Hw & Hf & _).
  apply same_runs; try done. cbn [actual with_actual]. apply insert_subseteq_l; [by rewrite Hf|apply Hw].
Qed.

Lemma try_set f f1 f2 id g n s e ms : runs f f1 -> formal f !! n = Some id -> flags f1 !! id = Some g -> set_value f1 id g s = (f2, e) ->
  args f2 = args f1 /\ runs f f2 /\ runs f (with_output (with_actual f2 n id) ms).
Proof.
  intros H1 Hn Hg Hs. destruct (set_value_runs f1 f2 id g s e) as (H2 & _ & Ha); [apply H1|done..|].
  assert (runs f f2) by by eapply runs_trans. split; [done|]. split; [done|]. by apply finish_runs.
Qed.

Lemma parse_flag_turn f id n v has : wf f -> formal f !! n = Some id ->
  exists f' r, parse_flag f id n v has = Return (f', r) /\ runs f f' /\ args f' `suffix_of` args f /\ r <> NotSeen /\ forall m, r <> Retry m.
Proof.
  intros Hf Hn. destruct (formal_flag _ Hf _ _ Hn) as (g & Hg & _).
  destruct (deprecations_total n (Names g)) as [ms Hms]; [by apply (names_nonempty _ Hf id)|].
  pose proof (runs_refl f Hf) as H0. unfold parse_flag. rewrite Hg. cbn [or_panic mbind outcome_bind]. rewrite Hms. cbn [mbind outcome_bind].
  destruct (IsBoolFlag (Value g)); [destruct has|].
  - destruct (set_value f id g v) as [f2 e] eqn:E. destruct (try_set f f f2 id g n v e ms H0 Hn Hg E) as (Ha & H2 & H3).
    destruct e; (do 2 eexists; split; [done|]; cbn; rewrite Ha; split; [|done]); [by apply output_runs|done].
  - destruct (set_value f id g "true") as [f2 e] eqn:E. destruct (try_set f f f2 id g n "true" e ms H0 Hn Hg E) as (Ha & H2 & H3).
    do 2 eexists. split; [done|]. cbn. by rewrite Ha.
  - assert (exists f1 v1 has1, (match args f with a :: rest => if negb has then (with_args f rest, a, true) else (f, v, has) | [] => (f, v, has) end) = (f1, v1, has1) /\
      runs f f1 /\ flags f1 = flags f /\ args f1 `suffix_of` args f) as (f1 & v1 & has1 & -> & H1 & Hg1 & Hs).
    { destruct (args f) as [|a rest] eqn:Ha; [|destruct (negb has)]; (do 3 eexists; split; [done|]); rewrite ?Ha; repeat split; try done; try apply H0.
      by exists [a]. }
    destruct (negb has1); [do 2 eexists; split; [done|]; cbn; by split; [apply output_runs|]|].
    rewrite <- Hg1 in Hg. destruct (set_value f1 id g v1) as [f2 e] eqn:E. destruct (try_set f f1 f2 id g n v1 e ms H1 Hn Hg E) as (Ha & H2 & H3).
    destruct e; (do 2 eexists; split; [done|]; cbn; rewrite Ha; split; [|done]); [by apply output_runs|done].
Qed.

(** Whether cutting the value off the word is out of bounds. *)
Definition crashes (w : string) : bool :=
  match index_char "=" w with Some i => lone_quote (drop_str (S i) w) | None => false end.

Lemma cut_value_total w : crashes (String "-" w) = false -> exists n v has, cut_value w = Return (n, v, has) /\ contains_char "=" n = false.
Proof.
  unfold crashes, cut_value. simpl. destruct (index_char "=" w) as [i|] eqn:Ei; simpl; intros Hq.
  - rewrite (trimQuotes_unquote _ Hq). do 3 eexists. split; [done|by apply index_char_take].
  - do 3 eexists. split; [done|by apply index_char_None].
Qed.

(** Words that are left where they are. *)
Definition stops (w : string) : bool :=
  match w with String "-" (String c _) => Ascii.eqb c "=" | _ => true end.

Lemma parseOne_turn f : wf f -> match args f with w :: _ => stops w = false -> crashes w = false | [] => True end ->
  exists f' r, parseOne f = Return (f', r) /\ runs f f' /\
    match args f with
    | [] => args f' = [] /\ r = NotSeen
    | w :: rest => (stops w = true /\ args f' = args f /\ r <> Seen /\ forall n, r <> Retry n) \/ args f' `suffix_of` rest
    end /\ forall n, r = Retry n -> contains_char "=" n = false.
Proof.
  intros Hf Hc. pose proof (runs_refl f Hf) as H0. unfold parseOne. destruct (args f) as [|w rest] eqn:Ha; [by do 2 eexists; repeat split; try apply H0|].
  destruct w as [|d [|c w]].
  1-2: do 2 eexists; split; [by try destruct d as [[] [] [] [] [] [] [] []]|]; split; [done|]; (split; [|done]); left; by try destruct d as [[] [] [] [] [] [] [] []].
  destruct (ascii_dec d "-") as [->|Hd].
  2: { do 2 eexists. split; [by destruct d as [[] [] [] [] [] [] [] []]|]. split; [done|]. split; [|done]. left.
       by destruct d as [[] [] [] [] [] [] [] []]. }
  destruct (String.eqb (String "-" (String c w)) "--").
  { do 2 eexists. split; [done|]. split; [by apply args_runs|]. split; [by right|done]. }
  destruct (Ascii.eqb_spec c "=") as [->|Hce].
  { do 2 eexists. split; [done|]. split; [by apply output_runs|]. split; [by left|done]. }
  specialize (Hc (proj2 (Ascii.eqb_neq _ _) Hce)). destruct (cut_value_total _ Hc) as (n & v & has & -> & Hne). cbn [mbind outcome_bind].
  change (formal (with_args f rest)) with (formal f). destruct (formal f !! n) as [id|] eqn:Hn.
  - assert (wf (with_args f rest)) as Hf1 by (destruct Hf; by split).
    destruct (parse_flag_turn (with_args f rest) id n v has Hf1 Hn) as (f' & r & HP & Hr & Hs & Hr1 & Hr2).
    do 2 eexists. split; [exact HP|]. split; [apply (runs_trans _ _ _ (args_runs _ _ rest H0) Hr)|]. split; [by right|]. intros m ->. by destruct (Hr2 m).
  - destruct (bool_decide _); [|destruct (has_prefix "-" n)]; (do 2 eexists; split; [done|]; split; [by repeat (apply output_runs || apply args_runs)|]; split; [by right|by intros ? [= <-]]).
Qed.

Lemma parse_letters_turn ls : forall f, wf f -> Forall (fun l => l <> "" /\ contains_char "=" l = false) ls ->
  exists f' b, parse_letters f ls = Return (f', b) /\ runs f f' /\ args f' `suffix_of` args f.
Proof.
  induction ls as [|l ls IH]; intros f Hf Hls; [do 2 eexists; by split; [|split; [apply runs_refl|]]|].
  apply Forall_cons in Hls as [(Hne & Hc) Hls]. cbn [parse_letters].
  set (f0 := with_args f (("-" +:+ l) :: args f)).
  assert (runs f f0) as H0 by by apply args_runs, runs_refl. destruct l as [|c l]; [done|].
  pose proof Hc as [Hce _]%orb_false_iff.
  destruct (parseOne_turn f0) as (f1 & r & -> & H1 & Hr & _); [apply H0|..].
  { intros _. change (crashes (String "-" (String c l)) = false). unfold crashes.
    by rewrite (proj2 (index_char_None "=" (String "-" (String c l)))). }
  cbn [args f0 with_args] in Hr. destruct Hr as [(Hs & _)|Hr].
  { change (Ascii.eqb c "=" = true) in Hs. congruence. }
  pose proof (runs_trans _ _ _ H0 H1) as H2. cbn [mbind outcome_bind].
  destruct (IH f1) as (f2 & b & HP & H3 & Hs2); [apply H1|done|].
  destruct r; [| |by do 2 eexists..]; (do 2 eexists; split; [exact HP|]; split; [exact (runs_trans _ _ _ H2 H3)|by etrans]).
Qed.

Lemma crash_panics f w rest : args f = w :: rest -> stops w = false -> crashes w = true -> parseOne f = Panic.
Proof.
  intros Ha Hs Hc. destruct w as [|d [|c w]]; [done|by destruct d as [[] [] [] [] [] [] [] []]|].
  destruct (ascii_dec d "-") as [->|Hd]; [|by destruct d as [[] [] [] [] [] [] [] []]].
  unfold parseOne. rewrite Ha. cbv iota beta zeta. change (Ascii.eqb c "=" = false) in Hs. rewrite Hs.
  destruct (String.eqb_spec (String "-" (String c w)) "--") as [E|_]; [by rewrite E in Hc|].
  revert Hc. unfold crashes, cut_value. simpl. rewrite Hs. destruct (index_char "=" w) as [i|]; [|done]. simpl.
  by intros [->%String.eqb_eq| ->%String.eqb_eq]%orb_true_iff.
Qed.

Lemma Parse_loop_runs fuel : forall f, wf f ->
  (forall f' r, Parse_loop fuel f = Return (f', r) -> runs f f' /\ args f' `suffix_of` args f) /\
  (Forall (fun w => crashes w = false) (args f) -> errorHandling f <> PanicOnError -> (length (args f) < fuel)%nat ->
   exists f' r, Parse_loop fuel f = Return (f', r)).
Proof.
  induction fuel as [|fuel IH]; intros f Hf; [by split; [|lia]|].
  assert (forall f1 e, runs f f1 -> args f1 `suffix_of` args f ->
    (forall f' r, handle f1 e = Return (f', r) -> runs f f' /\ args f' `suffix_of` args f) /\
    (errorHandling f <> PanicOnError -> exists f' r, handle f1 e = Return (f', r))) as Hh.
  { intros f1 e Hr Hs. unfold handle. pose proof Hr as (_ & _ & _ & _ & Hh). rewrite Hh.
    destruct (errorHandling f); (split; [by intros ? ? [= <- <-]|try done; eauto]). }
  assert (forall f1, runs f f1 -> args f1 `suffix_of` args f -> (length (args f1) < length (args f))%nat ->
    (forall f' r, Parse_loop fuel f1 = Return (f', r) -> runs f f' /\ args f' `suffix_of` args f) /\
    (Forall (fun w => crashes w = false) (args f) -> errorHandling f <> PanicOnError -> (length (args f) < S fuel)%nat ->
       exists f' r, Parse_loop fuel f1 = Return (f', r))) as Hgo.
  { intros f1 H1 Hs Hl. destruct (IH f1) as [HA HB]; [apply H1|]. split.
    - intros f' r [H2 H3]%HA. split; [by eapply runs_trans|by etrans].
    - intros Hc He Hlt. apply HB; [|pose proof H1 as (_&_&_&_&->)|lia]; try done.
      destruct Hs as [k Hk]. rewrite Hk in Hc. by apply Forall_app in Hc as [_ Hc]. }
  cbn [Parse_loop].
  assert ((match args f with w :: _ => stops w = false -> crashes w = false | [] => True end) \/
    exists w rest, args f = w :: rest /\ stops w = false /\ crashes w = true) as [Hc|(w & rest & Ha & H1 & H2)].
  { destruct (args f) as [|w rest]; [by left|]. destruct (stops w) eqn:E1, (crashes w) eqn:E2; (left; congruence) || (right; by exists w, rest). }
  2: { rewrite (crash_panics f w rest Ha H1 H2), Ha. split; [done|]. intros [Hw _]%Forall_cons. congruence. }
  destruct (parseOne_turn f Hf Hc) as (f1 & r & -> & H1 & Hr & Hchars). cbn [mbind outcome_bind].
  assert (args f1 `suffix_of` args f) as Hs.
  { destruct (args f) as [|w rest]; [by destruct Hr as [-> _]|]. destruct Hr as [(_ & -> & _)|Hr]; [done|]. etrans; [exact Hr|by exists [w]]. }
  assert (r = Seen \/ (exists n, r = Retry n) -> (length (args f1) < length (args f))%nat) as Hl.
  { intros Hr1. destruct (args f) as [|w rest]; [by destruct Hr as [_ ->], Hr1 as [|[]]|].
    destruct Hr as [(_ & _ & H2 & H3)|Hr]; [destruct Hr1 as [|[n ->]]; [done|by destruct (H3 n)]|].
    apply suffix_length in Hr. simpl. lia. }
  destruct r as [| |n|e].
  - apply Hgo; auto.
  - split; [by intros ? ? [= <- <-]|eauto].
  - destruct (1 <? String.length n)%nat.
    + destruct (parse_letters_turn (letters n) f1) as (f2 & b & -> & H2 & Hs2); [apply H1|by apply Explode_char, Hchars|].
      cbn [mbind outcome_bind]. pose proof (runs_trans _ _ _ H1 H2) as H3. destruct b.
      * destruct (Hh (failf f2 (NotDefined n)) (NotDefined n)); [by apply output_runs|cbn; by etrans|]. split; auto.
      * apply Hgo; [done|by etrans|]. apply suffix_length in Hs2. assert (length (args f1) < length (args f))%nat by (apply Hl; eauto). lia.
    + destruct (Hh (failf f1 (NotDefined n)) (NotDefined n)); [by apply output_runs|done|]. split; auto.
  - destruct (Hh f1 e); [done..|]. split; auto.
Qed.

Lemma NewFlagSet_wf n e : wf (NewFlagSet n e).
Proof. by split. Qed.

Lemma Init_runs f n e : wf f -> wf (Init f n e) /\ evolves f (Init f n e).
Proof. intros Hf. split; [by destruct Hf; split|by apply evolves_refl]. Qed.

Lemma Var_names_spec id names : forall f f', Var_names f id names = Return f' ->
  flags f' = flags f /\ actual f' = actual f /\ errorHandling f' = errorHandling f /\ formal f ⊆ formal f' /\
  forall n k, formal f' !! n = Some k <-> formal f !! n = Some k \/ (k = id /\ n ∈ (trim_prefix "#" <$> names)).
Proof.
  induction names as [|m names IH]; intros f f'; cbn [Var_names].
  - intros H. assert (f' = f) as -> by congruence. split_and!; [done..|]. intros n k. split; [by left|]. intros [|[_ Hn]]; [done|by apply not_elem_of_nil in Hn].
  - destruct (formal f !! trim_prefix "#" m) as [|] eqn:Hm; [done|]. intros (H1 & H2 & H3 & H4 & H5)%IH.
    cbn [flags actual formal errorHandling with_formal] in *. split; [done|]. split; [done|]. split; [done|]. split.
    + etrans; [|exact H4]. by apply insert_subseteq.
    + intros n k. rewrite H5, fmap_cons, elem_of_cons, lookup_insert_Some. split.
      * intros [[[<- <-]|[_ ?]]|[-> ?]]; auto.
      * intros [Hk|[-> [->|Hn]]]; [|by left; left|by right]. left. right. split; [|done]. intros <-. congruence.
Qed.

Lemma Var_spec f f' v names usage id : wf f -> Forall (fun n => n <> "") names -> Var f v names usage = Return (f', id) ->
  wf f' /\ evolves f f' /\ id = length (flags f) /\
  flags f' = flags f ++ [{| Names := names; flag_Usage := usage; Value := v; DefValue := Value_String v |}].
Proof.
  intros Hf Hn. unfold Var. set (g := {| Names := names; flag_Usage := usage; Value := v; DefValue := Value_String v |}).
  destruct (Var_names _ _ _) as [f1| |] eqn:E; [|done..]. intros [= <- <-].
  apply Var_names_spec in E as (H1 & H2 & _ & H4 & H5). cbn [flags actual formal with_flags] in *.
  assert (forall k h, flags f1 !! k = Some h -> flags f !! k = Some h \/ (k = length (flags f) /\ h = g)) as Hl.
  { intros k h. rewrite H1. intros [|[Hk [Hi ->]%list_lookup_singleton_Some]]%lookup_app_Some; [by left|right]. split; [lia|done]. }
  assert (forall k h, flags f !! k = Some h -> flags f1 !! k = Some h) as Hl' by (intros k h; rewrite H1; apply lookup_app_l_Some).
  split; [|split; [|by split]].
  - split.
    + intros n k [Hk|[-> Hin]]%H5; [destruct (formal_flag _ Hf _ _ Hk) as (h & Hh & Hin); eauto|].
      exists g. split; [rewrite H1; by apply list_lookup_middle|done].
    + intros k h n [Hk|[-> ->]]%Hl Hin; apply H5; [left; by apply (flag_formal _ Hf _ h)|right].
      split; [done|]. apply list_elem_of_fmap. eauto.
    + intros k h [Hk|[-> ->]]%Hl; [by apply (names_nonempty _ Hf k)|done].
    + rewrite H2. etrans; [apply Hf|done].
  - intros k h Hk. exists (Value h). rewrite with_value_same. split; [auto|apply rtc_refl].
Qed.

Lemma Set_runs f f' n s e : wf f -> Set_ f n s = Return (f', e) -> runs f f'.
Proof.
  intros Hf. unfold Set_. destruct (formal f !! n) as [id|] eqn:Hn; [|by intros [= <- _]; apply runs_refl].
  destruct (formal_flag _ Hf _ _ Hn) as (g & Hg & _). rewrite Hg. cbn [or_panic mbind outcome_bind].
  destruct (set_value f id g s) as [f1 o] eqn:E. destruct (try_set f f f1 id g n s o [] (runs_refl f Hf) Hn Hg E) as (_ & H1 & H2).
  destruct o; intros H; injection H as <- _; [done|]. apply (runs_trans _ _ _ H1). pose proof H1 as (Hw & Hff & _).
  apply same_runs; try done. cbn [actual with_actual]. apply insert_subseteq_l; [by rewrite Hff|apply Hw].
Qed.

Lemma start_runs f l : wf f -> runs f (Parse_start f l).
Proof. intros Hf. apply same_runs; try done. apply Hf. Qed.

Lemma Parse_runs f l f' r : wf f -> Parse f l = Return (f', r) -> runs f f' /\ args f' `suffix_of` l.
Proof.
  intros Hf HP. pose proof (start_runs f l Hf) as H1. destruct (Parse_loop_runs (S (length l)) (Parse_start f l)) as [HA _]; [apply H1|].
  apply HA in HP as [H2 Hs]. split; [by eapply runs_trans|done].
Qed.

(** What a program does with a flag set. *)
Inductive flag_step : FlagSet V -> FlagSet V -> Prop :=
| step_init f n e : flag_step f (Init f n e)
| step_var f v names usage f' id : Forall (fun n => n <> "") names -> Var f v names usage = Return (f', id) -> flag_step f f'
| step_set f n s f' e : Set_ f n s = Return (f', e) -> flag_step f f'
| step_parse f l f' r : Parse f l = Return (f', r) -> flag_step f f'.

Lemma step_wf f f' : wf f -> flag_step f f' -> wf f' /\ evolves f f'.
Proof.
  intros Hf Hstep. revert Hf. destruct Hstep as [f n e|f v names usage f1 id Hn Hv|f n s f1 e Hs|f l f1 r HP]; intros Hf.
  - by apply Init_runs.
  - destruct (Var_spec _ _ _ _ _ _ Hf Hn Hv) as (?&?&_); done.
  - destruct (Set_runs _ _ _ _ _ Hf Hs) as (?&_&_&?&_); done.
  - destruct (Parse_runs _ _ _ _ Hf HP) as [(?&_&_&?&_) _]; done.
Qed.

Definition reachable f : Prop := exists n e, rtc flag_step (NewFlagSet n e) f.

Lemma reachable_wf f : reachable f -> wf f.
Proof.
  intros (n & e & H). pose proof (NewFlagSet_wf n e) as Hf. revert Hf.
  induction H as [|f1 f2 f3 Hs _ IH]; [done|]. intros Hf. apply IH. by apply (step_wf f1 f2 Hf Hs).
Qed.

(** Parsing always ends, in one turn per argument at most: in a set that
    was built by definitions, any arguments are read - to the end, to an
    error or to the end of the process - unless one of them has a lone quote
    as its value, and then the program crashes.  Words are only taken from
    the front, and every flag that was set is defined. *)
Theorem Parse_ends (f : FlagSet V) (arguments : list string) :
  reachable f -> errorHandling f <> PanicOnError ->
  (Forall (fun w => crashes w = false) arguments ->
   exists f' r, Parse f arguments = Return (f', r) /\ args f' `suffix_of` arguments /\ actual f' ⊆ formal f) /\
  (forall n q rest, flag_name n -> lone_quote q = true -> arguments = ("-" +:+ n +:+ "=" +:+ q) :: rest -> Parse f arguments = Panic).
Proof.
  intros Hr He. apply reachable_wf in Hr. split.
  - intros Hc. pose proof (start_runs f arguments Hr) as (H1 & H2 & _).
    destruct (Parse_loop_runs (S (length arguments)) (Parse_start f arguments) H1) as [_ HB].
    destruct HB as (f' & r & HP); [done|done|cbn; lia|]. exists f', r. split; [exact HP|].
    apply (Parse_runs f arguments f' r Hr) in HP as [(Hw & Hf & _) Hs]. split; [done|]. rewrite <- Hf. apply Hw.
  - intros n q rest [Hn Hc] Hq ->. unfold Parse. cbn [length Parse_loop].
    rewrite (crash_panics _ ("-" +:+ n +:+ "=" +:+ q) rest); [done|done|..].
    + destruct n as [|c n]; [done|]. simpl in Hc. by apply orb_false_iff in Hc as [Hc _].
    + unfold crashes. change ("-" +:+ n +:+ "=" +:+ q) with (("-" +:+ n) +:+ String "=" q).
      rewrite index_char_app_sep by done.
      replace (S (String.length ("-" +:+ n))) with (String.length (("-" +:+ n) +:+ "=")) by (rewrite string_length_app; simpl; lia).
      replace (("-" +:+ n) +:+ String "=" q) with ((("-" +:+ n) +:+ "=") +:+ q) by by rewrite string_app_assoc. by rewrite drop_app_str.
Qed.
End Invariants.

(** ** Types of values *)

Definition value_ok (v : value) : Prop :=
  match v with
  | intValue i | int64Value i => - 2 ^ 63 <= i < 2 ^ 63
  | uintValue i | uint64Value i => 0 <= i < 2 ^ 64
  | _ => True
  end.

Definition same_type (v w : value) : Prop :=
  match v, w with
  | boolValue _, boolValue _ | intValue _, intValue _ | int64Value _, int64Value _
  | uintValue _, uintValue _ | uint64Value _, uint64Value _ | stringValue _, stringValue _ => True
  | _, _ => False
  end.

Lemma base_digits_range base max s : 0 <= base -> forall n, 0 <= n <= max -> 0 <= fst (base_digits base max n s) <= max.
Proof.
  intros Hb. induction s as [|c s IH]; intros n Hn; [done|]. simpl. destruct (base_digit base c) as [v|] eqn:E; [|simpl; lia].
  assert (0 <= v) as Hv.
  { unfold base_digit in E. destruct (_ && _) eqn:E1 in E; [|destruct (_ && _) eqn:E2 in E; [|destruct (_ && _) eqn:E3 in E; [|done]]];
      destruct (base <=? _); try done; injection E as <-; reflect_bools; lia. }
  destruct (Z.ltb_spec max (n * base + v)); [simpl; lia|]. apply IH. nia.
Qed.

Lemma ParseUint0_range s : 0 <= fst (ParseUint0 s) < 2 ^ 64.
Proof.
  assert (forall base t, 0 <= base -> 0 <= fst (base_digits base (2 ^ 64 - 1) 0 t) < 2 ^ 64) as H.
  { intros base t Hb. pose proof (base_digits_range base (2 ^ 64 - 1) t Hb 0 ltac:(lia)). lia. }
  unfold ParseUint0. destruct s as [|c s]; [done|].
  destruct c as [[] [] [] [] [] [] [] []]; try (apply H; by destruct (has_prefix _ _)).
  destruct s as [|x s]; [apply H; by destruct (has_prefix _ _)|].
  destruct (_ || _); [|by apply H]. destruct (String.eqb s ""); [done|by apply H].
Qed.

Lemma ParseInt0_range s : - 2 ^ 63 <= fst (ParseInt0 s) < 2 ^ 63.
Proof.
  unfold ParseInt0. destruct s as [|c s]; [done|]. set (t := if _ : bool then s else String c s).
  pose proof (ParseUint0_range t) as Hr. destruct (ParseUint0 t) as [un [[]|]]; simpl in *; [done|..];
    destruct (Ascii.eqb c "-"); simpl; repeat case_goal; simpl; reflect_bools; lia.
Qed.

Lemma value_Set_ok v s : same_type v (fst (value_Set v s)) /\ value_ok (fst (value_Set v s)).
Proof.
  pose proof (ParseInt0_range s). pose proof (ParseUint0_range s).
  destruct v as [b|i|i|i|i|t]; simpl; [by destruct (ParseBool s)|..|done];
    destruct (ParseInt0 s), (ParseUint0 s); by split.
Qed.

Lemma same_type_trans u v w : same_type u v -> same_type v w -> same_type u w.
Proof. by destruct u, v, w. Qed.

Lemma value_steps_type v w : value_steps v w -> same_type v w /\ (value_ok v -> value_ok w).
Proof.
  intros H. induction H as [v|v w u [s ->] _ [IH1 IH2]]; [by destruct v|].
  destruct (value_Set_ok v s) as [H1 H2]. split; [by eapply same_type_trans|auto].
Qed.

(** C20. The types of flags: whatever is defined, set and parsed, every name
    leads to its flag, integers keep to their 64 bits, and a flag that exists
    keeps its names, its default and the type of its value. *)
Theorem FlagSet_types (f f' : FlagSet value) :
  reachable f -> flag_step f f' ->
  (forall id g n, flags f' !! id = Some g -> n ∈ Names g -> formal f' !! trim_prefix "#" n = Some id) /\ actual f' ⊆ formal f' /\
  forall id g, flags f !! id = Some g -> exists g', flags f' !! id = Some g' /\ Names g' = Names g /\ DefValue g' = DefValue g /\
    same_type (Value g) (Value g') /\ (value_ok (Value g) -> value_ok (Value g')).
Proof.
  intros Hr%reachable_wf Hs. destruct (step_wf f f' Hr Hs) as [Hw He]. split; [apply Hw|]. split; [apply Hw|].
  intros id g Hg. destruct (He id g Hg) as (v & Hv & Ht). exists (with_value g v). split; [done|]. split; [done|]. split; [done|].
  by apply value_steps_type.
Qed.

(** ** A flag set *)

Fixpoint define (f : FlagSet value) (l : list (value * list string)) : outcome (FlagSet value) :=
  match l with [] => Return f | (v, names) :: l' => '(f, _) ← Var f v names ""; define f l' end.

Lemma define_steps l : forall f f', Forall (fun x => Forall (fun n => n <> "") (snd x)) l -> define f l = Return f' -> rtc flag_step f f'.
Proof.
  induction l as [|[v names] l IH]; intros f f' Hn; simpl; [intros H; assert (f' = f) as -> by congruence; apply rtc_refl|].
  apply Forall_cons in Hn as [Hn Hl]. destruct (Var f v names "") as [[f1 id]| |] eqn:E; [|done..]. simpl. intros H.
  apply rtc_l with f1; [by apply (step_var f v names "" f1 id)|by apply IH].
Qed.

Definition run_flags : list (value * list string) :=
  [(boolValue false, ["d"; "-detach"]); (boolValue false, ["i"; "-interactive"]); (boolValue false, ["t"; "-tty"]);
   (stringValue "", ["#name"; "-name"]); (intValue 0, ["c"; "-cpu-shares"]); (stringValue "", ["e"; "-env"])].

Definition run_set : FlagSet value :=
  match define (NewFlagSet "run" ContinueOnError) run_flags with Return f => f | _ => NewFlagSet "run" ContinueOnError end.

Lemma run_set_reachable : reachable run_set.
Proof.
  exists "run", ContinueOnError. assert (is_Some (match define (NewFlagSet "run" ContinueOnError) run_flags with Return _ => Some () | _ => None end)) as Hr by (vm_compute; eauto).
  apply (define_steps run_flags); [by repeat constructor|]. unfold run_set. destruct (define _ _); [done|by destruct Hr..].
Qed.

Definition run_line : list setting :=
  [Joined "-name" "'web 1'"; Spaced "-cpu-shares" "0x10"; Cluster [("i", None); ("t", None); ("e", Some "A=1")] (Some "false"); Switch "d"].

Lemma run_line_ok : Forall (setting_ok run_set) run_line.
Proof.
  repeat constructor; try done; try lia.
  intros H. repeat (apply elem_of_cons in H as [H|H]; [done|]). by apply not_elem_of_nil in H.
Qed.

Definition flag_texts (f : FlagSet value) (names : list string) : list (option string) :=
  (fun n => id ← formal f !! n; g ← flags f !! id; Some (value_String (Value g))) <$> names.

Lemma Parse_render_witness :
  exists f', Parse run_set ((run_line ≫= render) ++ ["--"; "ubuntu"; "-x"]) = Return (f', Success) /\ args f' = ["ubuntu"; "-x"] /\
    flag_texts f' ["name"; "c"; "-interactive"; "-tty"; "-env"; "-detach"] = [Some "web 1"; Some "16"; Some "true"; Some "true"; Some "A=1"; Some "true"].
Proof.
  assert (match assigns run_set (run_line ≫= effects) with
          | Some f' => flag_texts f' ["name"; "c"; "-interactive"; "-tty"; "-env"; "-detach"] =
              [Some "web 1"; Some "16"; Some "true"; Some "true"; Some "A=1"; Some "true"]
          | None => False end) as Ht by (vm_compute; reflexivity).
  apply some_such in Ht as (f' & Hf & Ht).
  eexists. split; [apply (Parse_render run_set f' run_line ["--"; "ubuntu"; "-x"] ["ubuntu"; "-x"] run_line_ok Hf); by left|].
  split; [reflexivity|exact Ht].
Defined.

Lemma Parse_errors_witness :
  (exists f1, Parse run_set ((run_line ≫= render) ++ ["-c"; "ten"; "ubuntu"]) = handle f1 (InvalidValue "ten" "c" ErrSyntax) /\
     is_Some (actual f1 !! "-name")) /\
  (exists f1, Parse run_set ["-ic"; "ten"] = handle f1 (NotDefined "ic")) /\
  (exists f1, Parse run_set ["--d"] = handle f1 (NotDefined "-d")).
Proof.
  split; [|split].
  - assert (match assigns run_set (run_line ≫= effects) with
          | Some f' => is_Some (actual f' !! "-name") /\ formal f' !! "c" = Some 4%nat /\ (Value <$> flags f' !! 4%nat) = Some (intValue 16)
          | None => False end) as Ht by (vm_compute; eauto).
    apply some_such in Ht as (f' & Hf & Hname & Hid & Hg).
    destruct (flags f' !! 4%nat) as [g|] eqn:Hg'; [|done]. simpl in Hg.
    assert (Value g = intValue 16) as Hv by congruence.
    assert (bad_word f' ["-c"; "ten"; "ubuntu"] (InvalidValue "ten" "c" ErrSyntax)) as Hb.
    { apply bad_alone; [|done]. apply (bad_next f' "c" "ten" ["ubuntu"] 4 g (intValue 0)); [by split|done|done|done|by rewrite Hv|by rewrite Hv]. }
    destruct (Parse_errors run_set f' run_line _ _ run_line_ok Hf Hb) as (f1 & HP & [_ Hk]).
    exists f1. split; [exact HP|by apply Hk].
  - assert (match assigns run_set (effects (Cluster [("i", None)] None)) with
          | Some f' => is_Some (actual f' !! "i") /\ formal f' !! "c" = Some 4%nat /\ (Value <$> flags f' !! 4%nat) = Some (intValue 0)
          | None => False end) as Ht by (vm_compute; eauto).
    apply some_such in Ht as (f' & Hf & Hname & Hid & Hg).
    destruct (flags f' !! 4%nat) as [g|] eqn:Hg'; [|done]. simpl in Hg.
    assert (Value g = intValue 0) as Hv by congruence.
    destruct (Parse_errors run_set run_set [] ["-ic"; "ten"] (NotDefined "ic")) as (f1 & HP & _); [constructor|done| |].
    { apply (bad_letter run_set "ic" "ic" None [("i", None)] "c" [] ["ten"] f' (InvalidValue "ten" "c" ErrSyntax)); [by split|by apply alone|done| |done| |done| |done|].
      - apply (bool_decide_eq_false_1 ("ic" ∈ ["-help"; "help"; "h"])). by vm_compute.
      - vm_compute. lia.
      - by repeat constructor.
      - apply (bad_next f' "c" "ten" [] 4 g (intValue 0)); [by split|done|done|done|by rewrite Hv|by rewrite Hv]. }
    exists f1. exact HP.
  - destruct (Parse_errors run_set run_set [] ["--d"] (NotDefined "-d")) as (f1 & HP & _); [constructor|done| |by exists f1].
    apply bad_alone; [|intros n [= <-]; by left]. apply (undefined run_set "-d" "-d" None []); [by split|by apply alone|done|].
    apply (bool_decide_eq_false_1 ("-d" ∈ ["-help"; "help"; "h"])). by vm_compute.
Defined.

Lemma Parse_ends_witness :
  (exists f' r, Parse run_set ["-it"; "-x"; "ubuntu"] = Return (f', r)) /\ Parse run_set ["-e='"; "ubuntu"] = Panic.
Proof.
  split.
  - destruct (proj1 (Parse_ends run_set ["-it"; "-x"; "ubuntu"] run_set_reachable ltac:(vm_compute; done))) as (f' & r & HP & _).
    + by repeat constructor.
    + by exists f', r.
  - by apply (proj2 (Parse_ends run_set ["-e='"; "ubuntu"] run_set_reachable ltac:(vm_compute; done)) "e" "'" ["ubuntu"]).
Defined.

Lemma FlagSet_types_witness :
  exists f', (exists r, Parse run_set ["-c"; "-077"; "ubuntu"] = Return (f', r)) /\
    exists g, flags f' !! 4%nat = Some g /\ same_type (intValue 0) (Value g) /\ value_ok (Value g).
Proof.
  assert (match Parse run_set ["-c"; "-077"; "ubuntu"] with Return _ => True | _ => False end) as Ht by (vm_compute; done).
  apply returned in Ht as [[f' r] HP].
  assert ((Value <$> flags run_set !! 4%nat) = Some (intValue 0)) as Hg by (vm_compute; done).
  destruct (flags run_set !! 4%nat) as [g|] eqn:Hf; [|done]. simpl in Hg. assert (Value g = intValue 0) as Hv by congruence.
  destruct (FlagSet_types run_set f' run_set_reachable (step_parse _ _ _ r HP)) as (_ & _ & Ht').
  destruct (Ht' 4%nat g Hf) as (g' & Hg' & _ & _ & H1 & H2). exists f'. split; [by exists r|]. exists g'. split; [done|].
  split; [|rewrite Hv in H1, H2; apply H2; done]. rewrite Hv in H1. exact H1.
Defined.

(** ** Visiting flags *)

Section Visiting.
Context {V : Type} {HV : FlagValue V} {HS : GoSort}.
Implicit Type f : FlagSet V.

(** The flag [id] goes by [n] in lists. *)
Definition goes_by f (id : nat) (n : string) : Prop :=
  exists g m names, flags f !! id = Some g /\ Names g = m :: names /\ n = trim_prefix "#" m.

Lemma goes_by_formal f id n : wf f -> goes_by f id n -> formal f !! n = Some id.
Proof. intros Hf (g & m & names & Hg & Hn & ->). apply (flag_formal _ Hf id g m Hg). rewrite Hn. by left. Qed.

Lemma formal_goes_by f n id : wf f -> formal f !! n = Some id -> exists g m names, flags f !! id = Some g /\ Names g = m :: names /\
  n ∈ (trim_prefix "#" <$> Names g).
Proof.
  intros Hf (g & Hg & Hn)%(formal_flag _ Hf). destruct (Names g) as [|m names] eqn:E; [by apply not_elem_of_nil in Hn|].
  exists g, m, names. by rewrite E.
Qed.

Lemma visit_names_spec f order : wf f -> NoDup order -> (forall n id, (n, id) ∈ order -> formal f !! n = Some id) ->
  forall l seen, NoDup l -> (forall n, n ∈ l <-> exists k id, (k, id) ∈ seen /\ goes_by f id n) -> (forall x, x ∈ seen -> x ∉ order) ->
  (forall k id, (k, id) ∈ seen -> formal f !! k = Some id) ->
  exists l', visit_names f order l = Return l' /\ NoDup l' /\ forall n, n ∈ l' <-> exists k id, (k, id) ∈ seen ++ order /\ goes_by f id n.
Proof.
  intros Hf. induction order as [|[k id] order IH]; intros Hnd Hord l seen Hl Hspec Hdis Hseen.
  { exists l. rewrite app_nil_r. done. }
  apply NoDup_cons in Hnd as [Hk Hnd]. cbn [visit_names].
  assert (formal f !! k = Some id) as Hid by (apply Hord; left).
  destruct (formal_goes_by f k id Hf Hid) as (g & m & names & Hg & Hn & Hin). rewrite Hg. cbn [or_panic mbind outcome_bind]. unfold first_name. rewrite Hn.
  cbn [mbind outcome_bind]. set (l1 := if (_ =? _)%nat then _ else _).
  assert (goes_by f id (trim_prefix "#" m)) as Hby by by exists g, m, names.
  assert (forall n, goes_by f id n -> n = trim_prefix "#" m) as Huniq.
  { intros n (g' & m' & names' & Hg' & Hn' & ->). assert (g' = g) as -> by congruence. congruence. }
  assert (l1 = if bool_decide (trim_prefix "#" m ∈ l) then l else l ++ [trim_prefix "#" m]) as El1.
  { unfold l1. destruct (Nat.eqb_spec (length (m :: names)) 1) as [Hlen|]; [|done]. destruct names; [|done]. rewrite bool_decide_eq_false_2; [done|].
    intros (k' & id' & Hin' & Hby')%Hspec. apply (goes_by_formal _ _ _ Hf) in Hby', Hby. assert (id' = id) as -> by congruence.
    pose proof (Hseen _ _ Hin') as Hk'. apply (formal_flag _ Hf) in Hk' as (g' & Hg' & Hin1). assert (g' = g) as -> by congruence.
    rewrite Hn in Hin, Hin1. apply list_elem_of_singleton in Hin, Hin1. subst. apply (Hdis _ Hin'). left. }
  destruct (IH Hnd ltac:(intros; apply Hord; by right) l1 (seen ++ [(k, id)])) as (l' & -> & H1 & H2).
  - rewrite El1. case_bool_decide; [done|]. apply NoDup_app. split; [done|]. split; [set_solver|apply NoDup_singleton].
  - intros n. rewrite El1. assert (n ∈ l1 <-> n ∈ l \/ n = trim_prefix "#" m) as E1.
    { rewrite El1. case_bool_decide; set_solver. }
    rewrite <- El1, E1, Hspec. setoid_rewrite elem_of_app. setoid_rewrite list_elem_of_singleton. split.
    + intros [(k' & id' & ? & ?)| ->]; [exists k', id'; auto|exists k, id; auto].
    + intros (k' & id' & [?|[= -> ->]] & Hb); [left; eauto|right; by apply Huniq].
  - intros x [Hx|Hx%list_elem_of_singleton]%elem_of_app Ho; [apply (Hdis _ Hx); by right|by subst].
  - intros k' id' [Hx|[= -> ->]%list_elem_of_singleton]%elem_of_app; [by apply Hseen|done].
  - exists l'. split; [done|]. split; [done|]. intros n. rewrite H2, <- app_assoc. done.
Qed.

(** [VisitAll] visits every flag that has a name exactly once, under
    however many names it goes and in whatever order the map is read. *)
Theorem VisitAll_once (f : FlagSet V) (order : list (string * nat)) : reachable f -> order ≡ₚ map_to_list (formal f) ->
  exists ids, VisitAll f order = Return (Some <$> ids) /\ NoDup ids /\
    forall id, id ∈ ids <-> exists g, flags f !! id = Some g /\ Names g <> [].
Proof.
  intros Hf%reachable_wf Ho. unfold VisitAll, sortFlags.
  assert (forall n id, (n, id) ∈ order <-> formal f !! n = Some id) as Hin by (intros; rewrite Ho; apply elem_of_map_to_list).
  destruct (visit_names_spec f order Hf) with (l := @nil string) (seen := @nil (string * nat)) as (l & -> & Hl & Hspec).
  { rewrite Ho. apply NoDup_map_to_list. } { intros n id. apply Hin. } { constructor. }
  { intros n. split; [intros H; by apply not_elem_of_nil in H|intros (? & ? & H & _); by apply not_elem_of_nil in H]. }
  { intros x Hx. by apply not_elem_of_nil in Hx. } { intros ? ? Hx. by apply not_elem_of_nil in Hx. }
  cbn [mbind outcome_bind]. set (s := Sort l flag_less). pose proof (Sort_perm l flag_less) as Hp. fold s in Hp.
  assert (forall n, n ∈ s -> exists id, formal f !! n = Some id /\ goes_by f id n) as Hs.
  { intros n. rewrite Hp, Hspec. intros (k & id & _ & Hb). exists id. split; [by apply goes_by_formal|done]. }
  exists ((fun n => default 0%nat (formal f !! n)) <$> s). split; [f_equal; rewrite <- list_fmap_compose; apply list_fmap_ext; intros i n Hn|split].
  - apply list_elem_of_lookup_2, Hs in Hn as (id & Hn & _). cbn. by rewrite Hn.
  - apply NoDup_fmap_2_strong; [|by rewrite Hp]. intros n1 n2 H1 H2. destruct (Hs _ H1) as (id1 & -> & (g & m & ns & Hg & Hn & ->)).
    destruct (Hs _ H2) as (id2 & -> & (g' & m' & ns' & Hg' & Hn' & ->)). simpl. intros ->. congruence.
  - intros id. rewrite list_elem_of_fmap. split.
    + intros (n & -> & (id' & -> & (g & m & ns & Hg & Hn & _))%Hs). exists g. split; [done|]. by rewrite Hn.
    + intros (g & Hg & Hne). destruct (Names g) as [|m ns] eqn:Hn; [done|]. exists (trim_prefix "#" m).
      assert (goes_by f id (trim_prefix "#" m)) as Hb by by exists g, m, ns. pose proof (goes_by_formal _ _ _ Hf Hb) as Hfn. rewrite Hfn. split; [done|].
      rewrite Hp. apply Hspec. exists (trim_prefix "#" m), id. split; [by apply Hin|done].
Qed.
End Visiting.

(** [Visit] looks the flags up under their first names only: one that was set
    under another name is a nil pointer. *)
Theorem Visit_nil : exists f' order, Parse run_set ["--detach"] = Return (f', Success) /\
  order ≡ₚ map_to_list (actual f') /\ Visit f' order = Return [None].
Proof.
  assert (match Parse run_set ["--detach"] with Return (f', Success) => Visit f' (map_to_list (actual f')) = Return [None] | _ => False end) as H by (vm_compute; done).
  destruct (Parse run_set ["--detach"]) as [[f' []]| |]; try done. by exists f', (map_to_list (actual f')).
Qed.

Lemma VisitAll_once_witness : exists ids, VisitAll run_set (map_to_list (formal run_set)) = Return (Some <$> ids) /\ NoDup ids /\
  forall id, id ∈ ids <-> exists g, flags run_set !! id = Some g /\ Names g <> [].
Proof. apply (VisitAll_once run_set); [apply run_set_reachable|done]. Defined.
