(* ===== verification/Images.v ===== *)
(** * graph and image: the store of images

    graph/graph.go keeps every image in a directory of the graph's root, named
    by its identifier, the identifiers in an index by unique prefix (Tags.v),
    and the layers with a storage driver ([GraphDriver], which
    daemon/graphdriver/vfs implements).  The directories are a map from paths,
    so that an identifier that leads out of the root does so here.  An image's
    raw JSON is what it parses to.  The size [Get] computes for an image
    stored without one is not saved.  What disk operations fail with is an
    argument. *)

From stdpp Require Import base gmap sets list strings.
From Stdlib Require Import ZArith Lia Ascii.
From S2P Require Import Prelude GoStrings GoPath RunConfig Tags.

Local Open Scope Z_scope.

(** ** Images *)

Definition MaxImageDepth : Z := 127.

Record Image := {
  ID : string; Parent : string; Comment : string; Created : Z; Container : string;
  ContainerConfig : Config; Author : string; Config_ : option Config; Size : Z }.

Definition with_Size (img : Image) (n : Z) : Image :=
  {| ID := ID img; Parent := Parent img; Comment := Comment img; Created := Created img; Container := Container img;
     ContainerConfig := ContainerConfig img; Author := Author img; Config_ := Config_ img; Size := n |}.

(** [utils.ValidateID] *)
Definition ValidateID (id : string) : result string () :=
  if String.eqb id "" then Err "Id can't be empty"
  else if contains_char ":" id then Err "Invalid character in id: ':'" else Ok ().

(** ** Storage drivers *)

(** The layers of type [L] that a driver of state [D] keeps; identifiers are
    names of files. *)
Class GraphDriver (D L : Type) := {
  layer_of : D -> string -> option L;
  empty_layer : L;
  Driver_Create : D -> string -> string -> D * option string;
  Driver_Remove : D -> string -> D;
  Driver_Write : D -> string -> L -> D;
  Driver_Create_spec : forall d id parent, plain_elem id -> (parent = "" \/ plain_elem parent) ->
    match (if String.eqb parent "" then Some empty_layer else layer_of d parent), layer_of d id with
    | Some l, None => parent <> id -> (Driver_Create d id parent).2 = None /\ layer_of (Driver_Create d id parent).1 id = Some l
    | _, Some _ => is_Some (Driver_Create d id parent).2
    | None, None => parent <> id -> is_Some (Driver_Create d id parent).2
    end /\ forall x, plain_elem x -> x <> id -> layer_of (Driver_Create d id parent).1 x = layer_of d x;
  Driver_Remove_spec : forall d id x, plain_elem id -> plain_elem x ->
    layer_of (Driver_Remove d id) x = if decide (x = id) then None else layer_of d x;
  Driver_Write_spec : forall d id l x, plain_elem id -> plain_elem x ->
    layer_of (Driver_Write d id l) x = if decide (x = id) then Some l else layer_of d x }.

(** daemon/graphdriver/vfs: the directories below [home/dir]; [cp] copies the
    parent's. *)
Section Vfs.
Context {L : Type} (empty : L).

Definition vfs_Get (d : gmap string L) (id : string) : option L := d !! Base id.

Definition vfs_Create (d : gmap string L) (id parent : string) : gmap string L * option string :=
  match d !! Base id with
  | Some _ => (d, Some "file exists")
  | None =>
      let d := <[Base id := empty]> d in
      if String.eqb parent "" then (d, None)
      else match vfs_Get d parent with
           | None => (d, Some (parent +:+ ": no such file or directory"))
           | Some l => (<[Base id := l]> d, None)
           end
  end.

Definition vfs_Remove (d : gmap string L) (id : string) : gmap string L := delete (Base id) d.

Definition vfs_Exists (d : gmap string L) (id : string) : bool := bool_decide (is_Some (d !! Base id)).
End Vfs.

Lemma Base_plain id : plain_elem id -> Base id = id.
Proof.
  intros (Hc & Hne & _). unfold Base. destruct (String.eqb_spec id ""); [done|].
  assert (strip_slashes id = id) as ->.
  { unfold strip_slashes. apply trim_right_id. clear Hne. clear n. induction id as [|c id IH]; [done|]. simpl in *.
    apply orb_false_iff in Hc as [-> Hc]. by apply IH. }
  unfold Split. rewrite last_index_char_None by done. simpl. by destruct (String.eqb_spec id "").
Qed.

#[export, refine] Instance vfs {L : Type} (empty : L) : GraphDriver (gmap string L) L :=
  {| layer_of := vfs_Get; empty_layer := empty; Driver_Create := vfs_Create empty; Driver_Remove := vfs_Remove;
     Driver_Write := fun d id l => <[Base id := l]> d |}.
Proof.
  - intros d id parent Hid Hp. unfold vfs_Create, vfs_Get. rewrite (Base_plain id Hid). split.
    + destruct (d !! id) as [l|] eqn:Hd; [by destruct (if String.eqb parent "" then _ else _)|].
      destruct (String.eqb_spec parent "") as [->|Hne]; [intros _; split; [done|apply lookup_insert_eq]|].
      destruct Hp as [|Hp]; [done|]. rewrite (Base_plain parent Hp).
      destruct (d !! parent) as [l|] eqn:Hl; intros Hpi; rewrite lookup_insert_ne, Hl by done; [|done].
      split; [done|apply lookup_insert_eq].
    + intros x Hx Hne. rewrite (Base_plain x Hx). destruct (d !! id); [done|].
      destruct (String.eqb_spec parent "") as [->|Hpe]; [by apply lookup_insert_ne|].
      destruct (<[id := empty]> d !! Base parent); simpl; by rewrite ?lookup_insert_ne.
  - intros d id x Hid Hx. unfold vfs_Get, vfs_Remove. rewrite !Base_plain by done. case_decide as Hd; [subst; apply lookup_delete_eq|by apply lookup_delete_ne].
  - intros d id l x Hid Hx. unfold vfs_Get. rewrite !Base_plain by done. case_decide as Hd; [subst; apply lookup_insert_eq|by apply lookup_insert_ne].
Defined.

(** ** The graph *)

(** What the disk operations of [Register] and [Delete] fail with. *)
Record Disk_io := { mktemp_err : option string; store_err : option string; rename_err : option string }.
Definition disk_ok : Disk_io := {| mktemp_err := None; store_err := None; rename_err := None |}.

Record Graph (T D : Type) := {
  roots : gmap (list string) (result string Image);
  idIndex : TruncIndex T;
  driver : D }.
Arguments roots {T D} _.
Arguments idIndex {T D} _.
Arguments driver {T D} _.

Section Graph.
Context {T D L : Type} {HT : Trie T} {HD : GraphDriver D L}.
(** The root directory, what [utils.TreeSize] and [archive.ChangesSize] count
    in a layer, alone or over its parent's, and what unpacking a layer does. *)
Context (Root : list string) (layer_size : L -> option L -> Z) {Data : Type} (unpack : L -> Data -> result string L).
Implicit Type g : Graph T D.

Definition with_driver g (d : D) : Graph T D := {| roots := roots g; idIndex := idIndex g; driver := d |}.
Definition with_roots g r : Graph T D := {| roots := r; idIndex := idIndex g; driver := driver g |}.
Definition with_index g i : Graph T D := {| roots := roots g; idIndex := i; driver := driver g |}.

Definition ImageRoot (id : string) : list string := path_elems (Join [abs_path Root; id]).

Definition Driver_Exists g (id : string) : bool := bool_decide (is_Some (layer_of (driver g) id)).

(** [restore] keeps the directories whose layer the driver has. *)
Definition restore g (dir : list string) : Graph T D :=
  with_index g (NewTruncIndex (List.filter (Driver_Exists g) dir)).

Definition NewGraph (r : gmap (list string) (result string Image)) (d : D) (dir : list string) : Graph T D :=
  restore {| roots := r; idIndex := NewTruncIndex []; driver := d |} dir.

Definition IsNotExist (err : option string) : bool :=
  match err with Some e => contains "does not exist" e || contains "No such" e | None => false end.

(** [image.LoadImage] *)
Definition LoadImage g (root : list string) : result string Image :=
  match roots g !! root with
  | None => Err "no such file or directory"
  | Some (Err e) => Err e
  | Some (Ok img) => match ValidateID (ID img) with Err e => Err e | Ok _ => Ok img end
  end.

Definition compute_size g (img : Image) : result string Z :=
  match layer_of (driver g) (ID img) with
  | None => Err ("Driver failed to get image rootfs " +:+ ID img)
  | Some l =>
      if String.eqb (Parent img) "" then Ok (layer_size l None)
      else match layer_of (driver g) (Parent img) with
           | None => Err "no such file or directory"
           | Some p => Ok (layer_size l (Some p))
           end
  end.

Definition Get g (name : string) : result string Image :=
  match Get_id name (idIndex g) with
  | Err e => Err e
  | Ok id =>
      match LoadImage g (ImageRoot id) with
      | Err e => Err e
      | Ok img =>
          if negb (String.eqb (ID img) id) then Err ("Image stored at '" +:+ id +:+ "' has wrong id '" +:+ ID img +:+ "'")
          else if Size img <? 0 then n ← compute_size g img; Ok (with_Size img n)
          else Ok img
      end
  end.

Definition Exists g (id : string) : bool := is_ok (Get g id).

(** [image.StoreImage]: the layer, and the image as it will be loaded. *)
Definition StoreImage g (io : Disk_io) (jsonData : option Image) (layerData : option Data) (img : Image) : result string (L * Image) :=
  match layer_of (driver g) (ID img) with
  | None => Err ("Driver failed to get image rootfs " +:+ ID img)
  | Some l =>
      '(l, size) ← match layerData with
                   | None => Ok (l, 0)
                   | Some data =>
                       l ← unpack l data;
                       if String.eqb (Parent img) "" then Ok (l, layer_size l None)
                       else match layer_of (driver g) (Parent img) with
                            | None => Err "no such file or directory"
                            | Some p => Ok (l, layer_size l (Some p))
                            end
                   end;
      match store_err io with
      | Some e => Err e
      | None => Ok (l, with_Size (default img jsonData) size)
      end
  end.

(** [tmp] is the directory [Mktemp] made below the root. *)
Definition Rename g (io : Disk_io) (tmp to : list string) (img : result string Image) : result string (Graph T D) :=
  match rename_err io with
  | Some e => Err e
  | None => if bool_decide (to `prefix_of` tmp) then Err "invalid argument" else Ok (with_roots g (<[to := img]> (roots g)))
  end.

Definition RemoveAll g (p : list string) : Graph T D := with_roots g (filter (fun x => ~ p `prefix_of` fst x) (roots g)).

(** The deferred call removes the layer after every error. *)
Definition Register g (io : Disk_io) (random : string) (jsonData : option Image) (layerData : option Data) (img : Image) :
    Graph T D * result string () :=
  let fail g e := (with_driver g (Driver_Remove (driver g) (ID img)), Err e) in
  match ValidateID (ID img) with
  | Err e => fail g e
  | Ok _ =>
      if Exists g (ID img) then fail g ("Image " +:+ ID img +:+ " already exists")
      else
        let g := RemoveAll g (ImageRoot (ID img)) in
        let g := with_driver g (Driver_Remove (driver g) (ID img)) in
        match mktemp_err io with
        | Some e => fail g ("Mktemp failed: " +:+ e)
        | None =>
            let '(d, err) := Driver_Create (driver g) (ID img) (Parent img) in
            let g := with_driver g d in
            match err with
            | Some e => fail g ("Driver failed to create image rootfs " +:+ ID img +:+ ": " +:+ e)
            | None =>
                match StoreImage g io jsonData layerData img with
                | Err e => fail g e
                | Ok (l, stored) =>
                    let g := with_driver g (Driver_Write (driver g) (ID img) l) in
                    match Rename g io (Root ++ ["_tmp"; random]) (ImageRoot (ID img)) (Ok stored) with
                    | Err e => fail g e
                    | Ok g => (with_index g (fst (Add (ID img) (idIndex g))), Ok ())
                    end
                end
            end
        end
  end.

(** [id] is what [utils.GenerateRandomID] draws. *)
Definition Create g (io : Disk_io) (id random : string) (now : Z) (layerData : option Data) (containerID containerImage comment author : string)
    (containerConfig : Config) (config : option Config) : Graph T D * result string Image :=
  let no_config := {| Hostname := ""; Domainname := ""; User := ""; Memory := 0; MemorySwap := 0; CpuShares := 0; Cpuset := "";
    AttachStdin := false; AttachStdout := false; AttachStderr := false; PortSpecs := []; ExposedPorts := None; Tty := false;
    OpenStdin := false; StdinOnce := false; Env := []; Cmd := []; RunConfig.Image := ""; Volumes := ∅; WorkingDir := ""; Entrypoint := [];
    NetworkDisabled := false; OnBuild := [] |} in
  let img := {| ID := id; Parent := if String.eqb containerID "" then "" else containerImage; Comment := comment; Created := now;
                Container := containerID; ContainerConfig := if String.eqb containerID "" then no_config else containerConfig;
                Author := author; Config_ := config; Size := 0 |} in
  match Register g io random None layerData img with
  | (g, Err e) => (g, Err e)
  | (g, Ok _) => (g, Ok img)
  end.

Definition Delete g (io : Disk_io) (name : string) : Graph T D * result string () :=
  match Get_id name (idIndex g) with
  | Err e => (g, Err e)
  | Ok id =>
      match mktemp_err io with
      | Some e => (g, Err e)
      | None =>
          let g := with_index g (fst (Delete_id id (idIndex g))) in
          match rename_err io, roots g !! ImageRoot id with
          | Some e, _ => (g, Err e)
          | None, None => (g, Err "no such file or directory")
          | None, Some _ =>
              let g := RemoveAll g (ImageRoot id) in
              (with_driver g (Driver_Remove (driver g) id), Ok ())
          end
      end
  end.

(** The graph behind the names of images. *)
Definition graph_store g : ImageGraph Image := {| image_ID := ID; graph_Get := Get g |}.

(** ** Walking the graph *)

(** [dir] is the directory as it is read. *)
Definition walkAll g (dir : list string) : list Image :=
  omap (fun name => match Get g name with Ok img => Some img | Err _ => None end) dir.

Definition Map g (dir : list string) : gmap string Image := foldl (fun m img => <[ID img := img]> m) ∅ (walkAll g dir).

Definition ByParent_step g (m : gmap string (list Image)) (img : Image) : gmap string (list Image) :=
  match Get g (Parent img) with
  | Err _ => m
  | Ok parent => <[ID parent := default [] (m !! ID parent) ++ [img]]> m
  end.

Definition ByParent g (dir : list string) : gmap string (list Image) := foldl (ByParent_step g) ∅ (walkAll g dir).

Definition Heads g (dir : list string) : gmap string Image :=
  let byParent := ByParent g dir in
  foldl (fun m img => match byParent !! ID img with None => <[ID img := img]> m | Some _ => m end) ∅ (walkAll g dir).

(** ** The ancestors of an image *)

Definition GetParent g (img : Image) : result string (option Image) :=
  if String.eqb (Parent img) "" then Ok None
  else match Get g (Parent img) with Err e => Err e | Ok p => Ok (Some p) end.

Fixpoint WalkHistory {S : Type} (handler : S -> Image -> result string S) (fuel : nat) g (img : Image) (s : S) : outcome (result string S) :=
  match fuel with
  | O => OutOfFuel
  | Datatypes.S fuel =>
      match handler s img with
      | Err e => Return (Err e)
      | Ok s =>
          match GetParent g img with
          | Err e => Return (Err ("Error while getting parent image: " +:+ e))
          | Ok None => Return (Ok s)
          | Ok (Some p) => WalkHistory handler fuel g p s
          end
      end
  end.

Definition History (fuel : nat) g (img : Image) : outcome (result string (list Image)) :=
  WalkHistory (fun l i => Ok (l ++ [i])) fuel g img [].

Fixpoint GetParentsSize (fuel : nat) g (img : Image) (size : Z) : outcome Z :=
  match fuel with
  | O => OutOfFuel
  | Datatypes.S fuel =>
      match GetParent g img with
      | Err _ | Ok None => Return size
      | Ok (Some p) => GetParentsSize fuel g p (size + Size p)
      end
  end.

Fixpoint Depth_loop (fuel : nat) g (img : Image) (count : Z) : outcome (result string Z) :=
  match fuel with
  | O => OutOfFuel
  | Datatypes.S fuel =>
      match GetParent g img with
      | Err e => Return (Err e)
      | Ok None => Return (Ok (count + 1))
      | Ok (Some p) => Depth_loop fuel g p (count + 1)
      end
  end.

Definition Depth (fuel : nat) g (img : Image) : outcome (result string Z) := Depth_loop fuel g img 0.

Definition CheckDepth (fuel : nat) g (img : Image) : outcome (result string ()) :=
  r ← Depth fuel g img;
  Return (match r with
          | Err e => Err e
          | Ok depth => if MaxImageDepth <=? depth + 2 then Err "Cannot create container with more than 127 parents" else Ok ()
          end).

(** ** Images made before *)

(** [daemon.ImageGetCached]: among the children of the image that were made
    with the same configuration, the latest; [children] ranges over a set. *)
Definition cached_step g (config : Config) (match_ : option Image) (elem : string) : result string (option Image) :=
  img ← Get g elem;
  Ok (if Compare (Some (ContainerConfig img)) (Some config) then
        match match_ with
        | None => Some img
        | Some m => if Created m <? Created img then Some img else match_
        end
      else match_).

Definition children_ids g (dir : list string) (imgID : string) : gset string :=
  list_to_set (ID <$> List.filter (fun img => String.eqb (Parent img) imgID) (snd <$> map_to_list (Map g dir))).

Definition ImageGetCached g (dir : list string) (range : gset string -> list string) (imgID : string) (config : Config) : result string (option Image) :=
  result_foldl (cached_step g config) None (range (children_ids g dir imgID)).

(** ** Loading an archive *)

(** An archive of images: the JSON and the layer of each.  [image_get] is the
    job of that name. *)
Fixpoint recursiveLoad (fuel : nat) (image_get : Graph T D -> string -> bool) (json : string -> result string Image)
    (layer : string -> result string Data) (io : Disk_io) (random : string) (address : string) g : outcome (Graph T D * result string ()) :=
  match fuel with
  | O => OutOfFuel
  | S fuel =>
      if image_get g address then Return (g, Ok ())
      else
        match json address, layer address with
        | Err e, _ | Ok _, Err e => Return (g, Err e)
        | Ok img, Ok data =>
            '(g, r) ← if negb (String.eqb (Parent img) "") && negb (Exists g (Parent img))
                      then recursiveLoad fuel image_get json layer io random (Parent img) g
                      else Return (g, Ok ());
            match r with
            | Err e => Return (g, Err e)
            | Ok _ => Return (Register g io random (Some img) (Some data) img)
            end
        end
  end.
End Graph.

(** ** The images of a graph *)

(** Identifiers as [utils.GenerateRandomID] draws them: 64 hexadecimal
    digits, so none begins with another. *)
Definition is_hex (c : ascii) : bool :=
  let n := nat_of_ascii c in ((48 <=? n) && (n <=? 57) || (97 <=? n) && (n <=? 102))%nat.

Definition id_ok (id : string) : Prop := forall_str is_hex id = true /\ String.length id = 64%nat.

Lemma id_ok_plain id : id_ok id -> plain_elem id /\ contains_char ":" id = false /\ contains_char " " id = false.
Proof.
  intros [Hh Hl]. split; [split; [by apply (forall_str_no_char is_hex)|]|split; by apply (forall_str_no_char is_hex)].
  repeat split; by intros ->.
Qed.

Lemma id_ok_prefix a b : id_ok a -> id_ok b -> has_prefix a b = true -> a = b.
Proof.
  intros [_ Ha] [_ Hb] [r ->]%has_prefix_inv. rewrite string_length_app, Ha in Hb.
  destruct r; [by rewrite string_app_nil_r|]. simpl in Hb. lia.
Qed.

Lemma ValidateID_ok id : id_ok id -> ValidateID id = Ok ().
Proof. intros ((_ & Hne & _) & Hc & _)%id_ok_plain. unfold ValidateID. rewrite Hc. by destruct (String.eqb_spec id ""). Qed.

Section GraphLemmas.
Context {T D L : Type} {HT : Trie T} {HD : GraphDriver D L}.
Context (Root : list string) (layer_size : L -> option L -> Z) {Data : Type} (unpack : L -> Data -> result string L).
Context (root_plain : plain Root) (layer_size_nonneg : forall l p, 0 <= layer_size l p).
Implicit Type g : Graph T D.

Lemma ImageRoot_plain id : plain_elem id -> ImageRoot Root id = Root ++ [id].
Proof.
  intros Hid. unfold ImageRoot. rewrite Join_abs_one by done. apply path_elems_abs, plain_app. split; [done|by apply plain_one].
Qed.

Definition stored g (id : string) (img : Image) : Prop := roots g !! (Root ++ [id]) = Some (Ok img).

(** The index and the directories agree. *)
Record consistent g : Prop := {
  index_wf : idx_wf (idIndex g);
  index_ok : forall id, id ∈ ids (idIndex g) -> id_ok id;
  index_stored : forall id, id ∈ ids (idIndex g) -> exists img, stored g id img /\ ID img = id /\ 0 <= Size img;
  stored_index : forall id, id_ok id -> is_Some (roots g !! (Root ++ [id])) -> id ∈ ids (idIndex g) }.

Lemma LoadImage_stored g id : consistent g -> id ∈ ids (idIndex g) ->
  exists img, stored g id img /\ ID img = id /\ 0 <= Size img /\ LoadImage g (ImageRoot Root id) = Ok img.
Proof.
  intros Hc Hid. destruct (index_stored _ Hc id Hid) as (img & Hs & He & Hz). exists img. split_and!; [done..|].
  pose proof (index_ok _ Hc id Hid) as Hok. unfold LoadImage. rewrite ImageRoot_plain by apply id_ok_plain, Hok. rewrite Hs, He, ValidateID_ok by done. done.
Qed.

(** [Get] finds the one image whose identifier begins with the name. *)
Lemma Get_spec g name img : consistent g ->
  Get Root layer_size g name = Ok img <->
  name <> "" /\ stored g (ID img) img /\ ID img ∈ ids (idIndex g) /\ has_prefix name (ID img) = true /\
  forall id, id ∈ ids (idIndex g) -> has_prefix name id = true -> id = ID img.
Proof.
  intros Hc. unfold Get. split.
  - destruct (Get_id name (idIndex g)) as [id|e] eqn:Hg; [|done]. apply (Get_id_spec _ _ _ (index_wf _ Hc)) in Hg as (Hn & Hin & Hp & Hu).
    destruct (LoadImage_stored g id Hc Hin) as (i & Hs & He & Hz & ->). rewrite He, String.eqb_refl. cbn [negb].
    destruct (Z.ltb_spec (Size i) 0); [lia|]. intros [= <-]. by rewrite He.
  - intros (Hn & Hs & Hin & Hp & Hu).
    assert (Get_id name (idIndex g) = Ok (ID img)) as -> by by apply (Get_id_spec _ _ _ (index_wf _ Hc)).
    destruct (LoadImage_stored g _ Hc Hin) as (i & Hs' & He & Hz & ->). assert (i = img) as -> by (unfold stored in *; congruence).
    rewrite String.eqb_refl. cbn [negb]. destruct (Z.ltb_spec (Size img) 0); [lia|done].
Qed.

Lemma Get_whole g id img : consistent g -> id ∈ ids (idIndex g) -> stored g id img -> Get Root layer_size g id = Ok img.
Proof.
  intros Hc Hin Hs. destruct (index_stored _ Hc id Hin) as (i & Hs' & He & Hz). assert (i = img) as -> by (unfold stored in *; congruence).
  pose proof (index_ok _ Hc _ Hin) as Hok.
  apply Get_spec; [done|]. rewrite He. split_and!; [by intros ->; destruct Hok as [_ ?]|done..|apply has_prefix_refl|].
  intros x Hx Hp. symmetry. apply id_ok_prefix; [done| |done]. by apply (index_ok _ Hc).
Qed.

Lemma Get_id_ok g id img : consistent g -> id_ok id -> Get Root layer_size g id = Ok img -> ID img = id.
Proof.
  intros Hc Hid (_ & _ & Hin & Hp & _)%(Get_spec _ _ _ Hc). symmetry. apply id_ok_prefix; [done| |done]. by apply (index_ok _ Hc).
Qed.

Lemma Exists_spec g id : consistent g -> id_ok id -> Exists Root layer_size g id = bool_decide (id ∈ ids (idIndex g)).
Proof.
  intros Hc Hid. unfold Exists. case_bool_decide as Hin.
  - destruct (index_stored _ Hc id Hin) as (i & Hs & He & Hz). by rewrite (Get_whole g id i).
  - destruct (Get Root layer_size g id) as [i|] eqn:Hg; [|done]. exfalso. apply Hin.
    rewrite <- (Get_id_ok g id i Hc Hid Hg). by apply (Get_spec _ _ _ Hc) in Hg as (_ & _ & ? & _).
Qed.

(** *** Register *)

Lemma RemoveAll_root g id x : plain_elem id -> plain_elem x ->
  roots (RemoveAll g (ImageRoot Root id)) !! (Root ++ [x]) = if decide (x = id) then None else roots g !! (Root ++ [x]).
Proof.
  intros Hid Hx. rewrite ImageRoot_plain by done. cbn [roots RemoveAll with_roots]. case_decide as Hd.
  - subst. apply map_lookup_filter_None. right. intros r _. simpl. intros Hn. by apply Hn.
  - destruct (roots g !! (Root ++ [x])) as [r|] eqn:Hr.
    + apply map_lookup_filter_Some. split; [done|]. simpl. intros [k Hk]. rewrite <- app_assoc in Hk. apply app_inv_head in Hk. by injection Hk as ->.
    + apply map_lookup_filter_None. by left.
Qed.

(** What a successful [Register] leaves: the image, with its layer made from
    its parent's. *)
Definition registered g g' (data : option Data) (img : Image) : Prop :=
  let id := ID img in
  exists p l size,
    (if String.eqb (Parent img) "" then Some empty_layer else layer_of (driver g) (Parent img)) = Some p /\
    match data with None => l = p | Some d => unpack p d = Ok l end /\
    0 <= size /\ stored g' id (with_Size img size) /\ layer_of (driver g') id = Some l /\ ids (idIndex g') = {[id]} ∪ ids (idIndex g).

Definition unchanged_but g g' (id : string) : Prop :=
  forall x, plain_elem x -> x <> id -> roots g' !! (Root ++ [x]) = roots g !! (Root ++ [x]) /\ layer_of (driver g') x = layer_of (driver g) x.

Lemma Register_cases g io random json data img g' r :
  consistent g -> id_ok (ID img) -> (Parent img = "" \/ plain_elem (Parent img)) -> Parent img <> ID img -> default img json = img ->
  Register Root layer_size unpack g io random json data img = (g', r) ->
  unchanged_but g g' (ID img) /\
  if Exists Root layer_size g (ID img)
  then r = Err ("Image " +:+ ID img +:+ " already exists") /\ idIndex g' = idIndex g /\ roots g' = roots g /\ layer_of (driver g') (ID img) = None
  else match r with
       | Ok _ => registered g g' data img /\ idx_wf (idIndex g')
       | Err _ => idIndex g' = idIndex g /\ roots g' !! (Root ++ [ID img]) = None /\ layer_of (driver g') (ID img) = None
       end.
Proof.
  intros Hc Hid Hp Hne Hj. unfold Register. rewrite ValidateID_ok by done. pose proof (id_ok_plain _ Hid) as (Hpl & _ & Hsp).
  destruct (Exists Root layer_size g (ID img)) eqn:Hex.
  { intros [= <- <-]. cbn [driver roots idIndex with_driver]. split; [|by rewrite Driver_Remove_spec, decide_True].
    intros x Hx Hxn. cbn [driver roots with_driver]. by rewrite Driver_Remove_spec, decide_False. }
  set (g1 := RemoveAll g (ImageRoot Root (ID img))). set (g2 := with_driver g1 (Driver_Remove (driver g1) (ID img))).
  assert (forall x, plain_elem x -> roots g2 !! (Root ++ [x]) = if decide (x = ID img) then None else roots g !! (Root ++ [x])) as Hr by (intros; by apply RemoveAll_root).
  assert (forall x, plain_elem x -> layer_of (driver g2) x = if decide (x = ID img) then None else layer_of (driver g) x) as Hl by (intros; by apply Driver_Remove_spec).
  assert (forall d e, (forall x, plain_elem x -> x <> ID img -> layer_of d x = layer_of (driver g) x) ->
    (with_driver g2 (Driver_Remove d (ID img)), @Err string () e) = (g', r) ->
    unchanged_but g g' (ID img) /\ match r with Ok _ => False | Err _ => idIndex g' = idIndex g /\ roots g' !! (Root ++ [ID img]) = None /\ layer_of (driver g') (ID img) = None end) as Hfail.
  { intros d e Hd [= <- <-]. split.
    - intros x Hx Hxn. cbn [roots driver with_driver]. rewrite Driver_Remove_spec, Hr, decide_False, Hd by done. by rewrite decide_False.
    - cbn [roots driver idIndex with_driver]. rewrite Driver_Remove_spec, Hr, !decide_True by done. done. }
  destruct (mktemp_err io).
  { intros H. destruct (Hfail (driver g2) _ ltac:(intros; rewrite Hl by done; by rewrite decide_False) H). by destruct r. }
  destruct (Driver_Create_spec (driver g2) (ID img) (Parent img) Hpl Hp) as [Hcr Hco].
  rewrite (Hl (ID img)), decide_True in Hcr by done.
  destruct (Driver_Create (driver g2) (ID img) (Parent img)) as [d err]. simpl in Hcr, Hco.
  assert (forall x, plain_elem x -> x <> ID img -> layer_of d x = layer_of (driver g) x) as Hd.
  { intros x Hx Hxn. rewrite Hco, Hl, decide_False by done. done. }
  destruct err as [e|].
  { intros H. destruct (Hfail d _ Hd H). by destruct r. }
  assert (exists p, (if String.eqb (Parent img) "" then Some empty_layer else layer_of (driver g) (Parent img)) = Some p /\ layer_of d (ID img) = Some p) as (p & Hpp & Hpl').
  { destruct (String.eqb_spec (Parent img) "") as [He|He]; [exists empty_layer; split; [done|by apply Hcr]|].
    destruct Hp as [|Hp]; [done|]. rewrite Hl, decide_False in Hcr by done.
    destruct (layer_of (driver g) (Parent img)) as [p|]; [exists p; split; [done|by apply Hcr]|by destruct (Hcr Hne)]. }
  unfold StoreImage. cbn [driver with_driver]. rewrite Hpl'.
  destruct (match data with None => Ok (p, 0) | Some _ => _ end) as [[l size]|e] eqn:Hst; cbn [mbind result_bind];
    [|intros H; destruct (Hfail d e Hd H); by destruct r].
  assert (0 <= size /\ match data with None => l = p | Some dd => unpack p dd = Ok l end) as [Hsz Hun].
  { destruct data as [dd|]; [|by injection Hst as <- <-]. destruct (unpack p dd) as [l1|]; [|done]. cbn [mbind result_bind] in Hst.
    destruct (String.eqb (Parent img) ""); [by injection Hst as <- <-|]. destruct (layer_of d (Parent img)); [|done]. by injection Hst as <- <-. }
  destruct (store_err io) as [e|]; [intros H; destruct (Hfail d e Hd H); by destruct r|].
  assert (forall x, plain_elem x -> x <> ID img -> layer_of (Driver_Write d (ID img) l) x = layer_of (driver g) x) as Hd2.
  { intros x Hx Hxn. rewrite Driver_Write_spec, decide_False, Hd by done. done. }
  unfold Rename. destruct (rename_err io) as [e|]; [intros H; destruct (Hfail _ e Hd2 H); by destruct r|].
  case_bool_decide; [intros H1; destruct (Hfail _ _ Hd2 H1); by destruct r|].
  rewrite ImageRoot_plain by done. intros [= <- <-]. rewrite Hj. split.
  - intros x Hx Hxn. cbn [roots driver with_index with_roots with_driver]. split; [|by apply Hd2].
    rewrite lookup_insert_ne by (intros Hk; apply app_inv_head in Hk; congruence). rewrite Hr, decide_False by done. done.
  - pose proof (addId_spec (ID img) (idIndex g) (index_wf _ Hc)) as (Hw & Hok & Hi). split; [|exact Hw].
    exists p, l, size. split_and!; try done.
    + apply lookup_insert_eq.
    + cbn [driver with_index with_roots with_driver]. by rewrite Driver_Write_spec, decide_True.
    + rewrite (Exists_spec g _ Hc Hid) in Hex. apply bool_decide_eq_false in Hex.
      assert (is_ok (addId (ID img) (idIndex g)).2 = true) as Ho by (apply Hok; destruct Hpl as (_ & ? & _); done).
      change (ids (addId (ID img) (idIndex g)).1 = {[ID img]} ∪ ids (idIndex g)). by rewrite Hi, Ho.
Qed.

(** *** Delete *)

Lemma Delete_cases g io name g' r : consistent g -> Delete Root g io name = (g', r) ->
  match r with
  | Ok _ => exists id, id ∈ ids (idIndex g) /\ has_prefix name id = true /\ unchanged_but g g' id /\ idx_wf (idIndex g') /\
      ids (idIndex g') = ids (idIndex g) ∖ {[id]} /\ roots g' !! (Root ++ [id]) = None /\ layer_of (driver g') id = None
  | Err _ => rename_err io = None -> g' = g
  end.
Proof.
  intros Hc. unfold Delete. destruct (Get_id name (idIndex g)) as [id|e] eqn:Hg; [|by intros [= <- <-]].
  destruct (mktemp_err io); [by intros [= <- <-]|].
  apply (Get_id_spec _ _ _ (index_wf _ Hc)) in Hg as (_ & Hin & Hp & _).
  destruct (index_stored _ Hc id Hin) as (img & Hs & _). pose proof (id_ok_plain _ (index_ok _ Hc id Hin)) as [Hpl _].
  destruct (rename_err io); [by intros [= <- <-]|]. cbn [roots with_index]. rewrite ImageRoot_plain by done. rewrite Hs. intros [= <- <-].
  pose proof (Delete_id_spec id (idIndex g) (index_wf _ Hc)) as (Hw & _ & Hi).
  exists id. split; [done|]. split; [done|].
  assert (forall x, plain_elem x -> roots (RemoveAll (with_index g (Delete_id id (idIndex g)).1) (Root ++ [id])) !! (Root ++ [x]) =
    if decide (x = id) then None else roots g !! (Root ++ [x])) as Hr.
  { intros x Hx. pose proof (RemoveAll_root (with_index g (Delete_id id (idIndex g)).1) id x Hpl Hx) as H. by rewrite ImageRoot_plain in H. }
  split; [|split; [exact Hw|split; [exact Hi|split]]].
  - intros x Hx Hxn. cbn [roots driver with_driver]. rewrite Hr, Driver_Remove_spec, !decide_False by done. done.
  - cbn [roots with_driver]. by rewrite Hr, decide_True.
  - cbn [driver with_driver]. by rewrite Driver_Remove_spec, decide_True.
Qed.

(** *** Ancestors *)

(** [p] is the parent of [c]. *)
Definition parent_of g (p c : string) : Prop := exists img, c ∈ ids (idIndex g) /\ stored g c img /\ Parent img = p /\ p <> "".

(** What the daemon keeps of its graph: the directories and the index agree,
    the layers are there, parents are there, and no image descends from itself. *)
Record good g : Prop := {
  good_consistent : consistent g;
  good_layers : forall id, id ∈ ids (idIndex g) -> is_Some (layer_of (driver g) id);
  good_parents : forall p c, parent_of g p c -> p ∈ ids (idIndex g);
  good_ancestors : forall id, Acc (parent_of g) id }.

Lemma consistent_by g g' : consistent g -> idx_wf (idIndex g') ->
  (forall id, id ∈ ids (idIndex g') -> id_ok id /\ exists img, stored g' id img /\ ID img = id /\ 0 <= Size img) ->
  (forall id, id_ok id -> is_Some (roots g' !! (Root ++ [id])) -> id ∈ ids (idIndex g')) -> consistent g'.
Proof. intros Hc Hw Hi Hs. split; [done|intros id Hid; by apply Hi|intros id Hid; by apply Hi|done]. Qed.

(** An image that is not there yet, over a parent that is. *)
Definition new_image g (img : Image) : Prop :=
  id_ok (ID img) /\ Exists Root layer_size g (ID img) = false /\
  (Parent img = "" \/ id_ok (Parent img) /\ Exists Root layer_size g (Parent img) = true).

Lemma Register_good g io random json data img g' r : good g -> new_image g img -> default img json = img ->
  Register Root layer_size unpack g io random json data img = (g', r) ->
  good g' /\ unchanged_but g g' (ID img) /\
  match r with Ok _ => registered g g' data img | Err _ => idIndex g' = idIndex g end.
Proof.
  intros [Hc Hlay Hpar Hacc] (Hid & Hex & Hp) Hj HR. pose proof (id_ok_plain _ Hid) as [Hpl _].
  assert (ID img ∉ ids (idIndex g)) as Hni by (rewrite (Exists_spec g _ Hc Hid) in Hex; by apply bool_decide_eq_false in Hex).
  assert (Parent img = "" \/ (id_ok (Parent img) /\ Parent img ∈ ids (idIndex g))) as Hp'.
  { destruct Hp as [|[Hp1 Hp2]]; [by left|right]. rewrite (Exists_spec g _ Hc Hp1) in Hp2. by apply bool_decide_eq_true in Hp2. }
  assert (Parent img <> ID img) as Hne.
  { intros He. destruct Hp' as [Hp'|[_ Hp']]; [|congruence]. destruct Hpl as (_ & Hpl & _). congruence. }
  assert (Parent img = "" \/ plain_elem (Parent img)) as Hp1.
  { destruct Hp' as [|[Hp' _]]; [by left|right]. by apply id_ok_plain. }
  destruct (Register_cases g io random json data img g' r Hc Hid Hp1 Hne Hj HR) as [Hu Hr].
  rewrite Hex in Hr.
  assert (match r with Ok _ => registered g g' data img | Err _ => idIndex g' = idIndex g end) as Hres.
  { destruct r as [u|e]; [exact (proj1 Hr)|exact (proj1 Hr)]. }
  split; [|split; [exact Hu|exact Hres]]. clear Hres.
  assert (forall x, id_ok x -> x <> ID img -> roots g' !! (Root ++ [x]) = roots g !! (Root ++ [x]) /\ layer_of (driver g') x = layer_of (driver g) x) as Hu'.
  { intros x Hx Hxn. apply Hu; [by apply id_ok_plain|done]. }
  destruct r as [u|e].
  - destruct Hr as [(p & l & size & _ & _ & Hsz & Hst & Hl & Hids) Hw].
    assert (consistent g') as Hc'.
    { apply (consistent_by g); [done|done|..].
      - intros id. rewrite Hids, elem_of_union, elem_of_singleton. intros [->|Hin].
        + split; [done|]. eauto.
        + split; [by apply (index_ok _ Hc)|]. destruct (index_stored _ Hc id Hin) as (i & Hi & He).
          exists i. split; [|done]. unfold stored. destruct (Hu' id) as [-> _]; [by apply (index_ok _ Hc)|by intros ->|done].
      - intros id Hok Hs. rewrite Hids, elem_of_union, elem_of_singleton. destruct (decide (id = ID img)); [by left|right].
        destruct (Hu' id Hok n) as [He _]. rewrite He in Hs. by apply (stored_index _ Hc). }
    assert (forall q c, c <> ID img -> parent_of g' q c -> parent_of g q c) as Hold.
    { intros q c Hcn (i & Hin & Hs & He). rewrite Hids in Hin. assert (c ∈ ids (idIndex g)) as Hin' by set_solver. exists i. split; [done|].
      unfold stored in Hs. destruct (Hu' c) as [He' _]; [by apply (index_ok _ Hc)|done|]. by rewrite He' in Hs. }
    assert (forall q, parent_of g' q (ID img) -> q = Parent img /\ q <> "") as Hnew.
    { intros q (i & _ & Hs & <- & Hq). unfold stored in Hs, Hst. rewrite Hst in Hs. by injection Hs as <-. }
    assert (forall x, x <> ID img -> Acc (parent_of g') x) as Hacc'.
    { intros x Hx. specialize (Hacc x). revert Hx. induction Hacc as [x _ IH]. intros Hx. constructor. intros q Hq. apply Hold in Hq; [|done].
      apply IH; [done|]. intros ->. by apply Hpar in Hq. }
    split; [done|..].
    + intros id. rewrite Hids, elem_of_union, elem_of_singleton. intros [->|Hin]; [by rewrite Hl|].
      destruct (Hu' id) as [_ ->]; [by apply (index_ok _ Hc)|by intros ->|by apply Hlay].
    + intros q c Hq. rewrite Hids. destruct (decide (c = ID img)) as [->|Hcn].
      * apply Hnew in Hq as [-> Hq]. destruct Hp' as [|[_ ?]]; [done|set_solver].
      * apply Hold, Hpar in Hq; [|done]. set_solver.
    + intros id. destruct (decide (id = ID img)) as [->|Hn]; [|by apply Hacc']. constructor. intros q [-> _]%Hnew. by apply Hacc'.
  - destruct Hr as (Hi & Hro & Hla).
    assert (forall id, id ∈ ids (idIndex g) -> roots g' !! (Root ++ [id]) = roots g !! (Root ++ [id]) /\ layer_of (driver g') id = layer_of (driver g) id) as Hu''.
    { intros id Hin. apply Hu'; [by apply (index_ok _ Hc)|by intros ->]. }
    assert (forall q c, parent_of g' q c <-> parent_of g q c) as Hpp.
    { intros q c. unfold parent_of, stored. rewrite Hi. split; intros (i & Hin & H); exists i; (split; [done|]); destruct (Hu'' c Hin) as [He _]; by rewrite He in *. }
    split.
    + apply (consistent_by g); [done|by rewrite Hi; apply Hc|..].
      * intros id. rewrite Hi. intros Hin. split; [by apply (index_ok _ Hc)|]. destruct (index_stored _ Hc id Hin) as (i & Hs & H).
        exists i. split; [|done]. unfold stored. by destruct (Hu'' id Hin) as [-> _].
      * intros id Hok Hs. rewrite Hi. destruct (decide (id = ID img)) as [->|Hn]; [rewrite Hro in Hs; by destruct Hs|].
        apply (stored_index _ Hc); [done|]. by destruct (Hu' id Hok Hn) as [<- _].
    + intros id. rewrite Hi. intros Hin. destruct (Hu'' id Hin) as [_ ->]. by apply Hlay.
    + intros q c. rewrite Hpp, Hi. apply Hpar.
    + intros id. specialize (Hacc id). induction Hacc as [id _ IH]. constructor. intros q. rewrite Hpp. apply IH.
Qed.

Lemma Delete_good g io img g' r : good g -> rename_err io = None -> ID img ∈ ids (idIndex g) ->
  (forall c, ~ parent_of g (ID img) c) -> Delete Root g io (ID img) = (g', r) ->
  good g' /\ unchanged_but g g' (ID img) /\
  match r with Ok _ => ids (idIndex g') = ids (idIndex g) ∖ {[ID img]} | Err _ => g' = g end.
Proof.
  intros Hgood Hio Hin Hch HD'. pose proof Hgood as [Hc Hlay Hpar Hacc]. apply (Delete_cases g io _ g' r Hc) in HD'. destruct r as [u|e].
  2: { rewrite HD' by done. split; [done|]. by split. }
  destruct HD' as (id & Hid & Hp & Hu & Hw & Hids & Hro & Hla).
  assert (id = ID img) as -> by (symmetry; apply id_ok_prefix; [by apply (index_ok _ Hc)..|done]).
  assert (forall x, id_ok x -> x <> ID img -> roots g' !! (Root ++ [x]) = roots g !! (Root ++ [x]) /\ layer_of (driver g') x = layer_of (driver g) x) as Hu'.
  { intros x Hx Hxn. apply Hu; [by apply id_ok_plain|done]. }
  assert (forall q c, parent_of g' q c -> parent_of g q c /\ c <> ID img) as Hpp.
  { intros q c (i & Hi & Hs & H). rewrite Hids in Hi. assert (c ∈ ids (idIndex g) /\ c <> ID img) as [Hi1 Hi2] by set_solver. split; [|done].
    exists i. split; [done|]. unfold stored in *. destruct (Hu' c) as [He _]; [by apply (index_ok _ Hc)|done|]. by rewrite He in Hs. }
  split; [|done]. split.
  - apply (consistent_by g); [done|done|..].
    + intros id. rewrite Hids. intros [Hi1 Hi2]%elem_of_difference. assert (id <> ID img) as Hn by set_solver. split; [by apply (index_ok _ Hc)|].
      destruct (index_stored _ Hc id Hi1) as (i & Hs & H). exists i. split; [|done]. unfold stored.
      by destruct (Hu' id) as [-> _]; [by apply (index_ok _ Hc)| |].
    + intros id Hok Hs. rewrite Hids. destruct (decide (id = ID img)) as [->|Hn]; [rewrite Hro in Hs; by destruct Hs|].
      apply elem_of_difference. split; [|set_solver]. apply (stored_index _ Hc); [done|]. by destruct (Hu' id Hok Hn) as [<- _].
  - intros id. rewrite Hids. intros [Hi1 Hi2]%elem_of_difference. destruct (Hu' id) as [_ ->]; [by apply (index_ok _ Hc)|set_solver|by apply Hlay].
  - intros q c [Hq Hcn]%Hpp. rewrite Hids. apply elem_of_difference. split; [by eapply Hpar|]. intros ->%elem_of_singleton. by apply (Hch c).
  - intros id. specialize (Hacc id). induction Hacc as [id _ IH]. constructor. intros q [Hq _]%Hpp. by apply IH.
Qed.

(** *** Histories *)

(** The images from [img] down to the one without a parent. *)
Inductive lineage g : Image -> list Image -> Prop :=
| lineage_base img : Parent img = "" -> lineage g img [img]
| lineage_step img p l : Parent img <> "" -> Get Root layer_size g (Parent img) = Ok p -> lineage g p l -> lineage g img (img :: l).

Lemma lineage_exists g id img : good g -> id ∈ ids (idIndex g) -> stored g id img -> exists l, lineage g img l.
Proof.
  intros [Hc Hlay Hpar Hacc] Hin Hs. specialize (Hacc id). revert img Hin Hs. induction Hacc as [id _ IH]. intros img Hin Hs.
  destruct (String.eqb_spec (Parent img) "") as [He|He]; [exists [img]; by constructor|].
  assert (parent_of g (Parent img) id) as Hp by by exists img. pose proof (Hpar _ _ Hp) as Hpin.
  destruct (index_stored _ Hc _ Hpin) as (p & Hps & Hpe & _). destruct (IH _ Hp p Hpin Hps) as [l Hl].
  exists (img :: l). apply lineage_step with p; [done|by apply Get_whole|done].
Qed.

Lemma tc_last {A} (R : A -> A -> Prop) x z : tc R x z -> exists y, rtc R x y /\ R y z.
Proof.
  induction 1 as [x z Hxz|x y z Hxy _ (w & Hw & Hwz)]; [by exists x; split; [apply rtc_refl|]|].
  exists w. split; [by apply rtc_l with y|done].
Qed.

Lemma acc_irreflexive {A} (R : A -> A -> Prop) x : Acc R x -> ~ tc R x x.
Proof.
  induction 1 as [x _ IH]. intros (y & Hxy & Hyx)%tc_last. apply (IH y Hyx). apply tc_rtc_r with x; [by apply tc_once|done].
Qed.

Lemma lineage_ids g id img l : good g -> id ∈ ids (idIndex g) -> stored g id img -> lineage g img l ->
  NoDup (ID <$> l) /\ (forall x, x ∈ ID <$> l -> x ∈ ids (idIndex g)) /\
  (forall x, x ∈ ID <$> l -> x = id \/ tc (parent_of g) x id).
Proof.
  intros Hg Hin Hs Hl. revert id Hin Hs. induction Hl as [img He|img p l Hne Hget _ IH]; intros id Hin Hs;
    (destruct (index_stored _ (good_consistent _ Hg) id Hin) as (i & Hs' & He' & _); assert (i = img) as -> by (unfold stored in *; congruence)).
  - cbn [fmap list_fmap]. rewrite He'. split_and!; [apply NoDup_singleton|..]; intros x ->%list_elem_of_singleton; [done|by left].
  - apply (Get_spec _ _ _ (good_consistent _ Hg)) in Hget as (_ & Hps & Hpin & Hpre & _).
    assert (parent_of g (Parent img) id) as Hp by by exists img.
    pose proof (good_parents _ Hg _ _ Hp) as Hpi. assert (Parent img = ID p) as Hpe.
    { apply id_ok_prefix; [by apply (index_ok _ (good_consistent _ Hg))..|done]. }
    rewrite Hpe in Hp. destruct (IH _ Hpin Hps) as (Hn & Hi & Ht). cbn [fmap list_fmap]. rewrite He'.
    assert (forall x, x ∈ ID <$> l -> tc (parent_of g) x id) as Ht'.
    { intros x [->|Hx]%Ht; [by apply tc_once|]. by apply tc_r with (ID p). }
    split_and!.
    + apply NoDup_cons. split; [|done]. intros Hx%Ht'. by apply (acc_irreflexive _ _ (good_ancestors _ Hg id)).
    + intros x [->|Hx]%elem_of_cons; auto.
    + intros x [->|Hx]%elem_of_cons; auto.
Qed.

Lemma lineage_length g id img l : good g -> id ∈ ids (idIndex g) -> stored g id img -> lineage g img l -> (length l <= size (ids (idIndex g)))%nat.
Proof.
  intros Hg Hin Hs Hl. destruct (lineage_ids g id img l Hg Hin Hs Hl) as (Hn & Hi & _).
  rewrite <- (length_fmap ID), <- (size_list_to_set (C := gset string)) by done. apply subseteq_size. intros x. rewrite elem_of_list_to_set. apply Hi.
Qed.

Lemma WalkHistory_lineage {S} (h : S -> Image -> result string S) g img l : lineage g img l -> forall n s, (length l <= n)%nat ->
  WalkHistory Root layer_size h n g img s = Return (result_foldl h s l).
Proof.
  induction 1 as [img He|img p l Hne Hget _ IH]; intros n s Hn; (destruct n as [|n]; [simpl in Hn; lia|]); simpl; destruct (h s img) as [s'|e]; try done;
    unfold GetParent; (destruct (String.eqb_spec (Parent img) ""); [try done|]); try done.
  rewrite Hget. apply IH. simpl in Hn. lia.
Qed.

Lemma Depth_lineage g img l : lineage g img l -> forall n c, (length l <= n)%nat ->
  Depth_loop Root layer_size n g img c = Return (Ok (c + Z.of_nat (length l))).
Proof.
  induction 1 as [img He|img p l Hne Hget _ IH]; intros n c Hn; (destruct n as [|n]; [simpl in Hn; lia|]); simpl; unfold GetParent;
    (destruct (String.eqb_spec (Parent img) ""); [try done|]); try done.
  rewrite Hget, IH by (simpl in Hn; lia). do 2 f_equal. lia.
Qed.

Lemma result_foldl_snoc (l k : list Image) : result_foldl (fun l i => @Ok string _ (l ++ [i])) k l = Ok (k ++ l).
Proof. revert k. induction l as [|x l IH]; intros k; simpl; [by rewrite app_nil_r|]. by rewrite IH, <- app_assoc. Qed.

(** *** The directory *)

(** What reading the root lists: the images, and names that are no
    identifiers, as [_tmp]. *)
Definition lists g (dir : list string) : Prop :=
  (forall id, id_ok id -> id ∈ dir <-> is_Some (roots g !! (Root ++ [id]))) /\
  forall n, n ∈ dir -> id_ok n \/ forall_str is_hex n = false /\ layer_of (driver g) n = None.

Lemma hex_prefix n id : has_prefix n id = true -> forall_str is_hex id = true -> forall_str is_hex n = true.
Proof. intros [r ->]%has_prefix_inv. rewrite forall_str_app. by intros [? _]%andb_true_iff. Qed.

Lemma walkAll_spec g dir img : consistent g -> lists g dir -> img ∈ walkAll Root layer_size g dir <-> ID img ∈ ids (idIndex g) /\ stored g (ID img) img.
Proof.
  intros Hc [Hd Hn]. unfold walkAll. rewrite list_elem_of_omap. split.
  - intros (n & Hin & Hg). destruct (Get Root layer_size g n) as [i|] eqn:E; [|done]. injection Hg as ->.
    by apply (Get_spec _ _ _ Hc) in E as (_ & ? & ? & _).
  - intros [Hin Hs]. exists (ID img). split; [apply Hd; [by apply (index_ok _ Hc)|by eexists]|]. by rewrite (Get_whole g (ID img) img).
Qed.

Lemma Get_parent g c : good g -> ID c ∈ ids (idIndex g) -> stored g (ID c) c ->
  match Get Root layer_size g (Parent c) with
  | Ok p => ID p = Parent c /\ parent_of g (ID p) (ID c)
  | Err _ => Parent c = "" /\ forall p, ~ parent_of g p (ID c)
  end.
Proof.
  intros Hg Hin Hs. pose proof (good_consistent _ Hg) as Hc. destruct (String.eqb_spec (Parent c) "") as [He|He].
  - rewrite He. unfold Get, Get_id. simpl. split; [done|]. intros p (i & _ & Hi & Hpi & Hp). assert (i = c) as -> by (unfold stored in *; congruence). congruence.
  - assert (parent_of g (Parent c) (ID c)) as Hp by by exists c. pose proof (good_parents _ Hg _ _ Hp) as Hpi.
    destruct (index_stored _ Hc _ Hpi) as (p & Hps & Hpe & _). rewrite (Get_whole g _ p) by done. split; [done|]. by rewrite Hpe.
Qed.

(** [ByParent] is the children of each image, and nothing for the others. *)
Lemma ByParent_children g dir p : good g -> lists g dir ->
  match ByParent Root layer_size g dir !! p with
  | Some l => l <> [] /\ forall c, c ∈ l <-> stored g (ID c) c /\ parent_of g p (ID c)
  | None => forall c, ~ parent_of g p c
  end.
Proof.
  intros Hg Hd. pose proof (good_consistent _ Hg) as Hc. unfold ByParent.
  assert (forall l m (seen : list Image), (forall c, c ∈ l -> ID c ∈ ids (idIndex g) /\ stored g (ID c) c) ->
    match m !! p with Some k => k <> [] /\ forall c, c ∈ k <-> c ∈ seen /\ parent_of g p (ID c) | None => forall c, c ∈ seen -> ~ parent_of g p (ID c) end ->
    match foldl (ByParent_step Root layer_size g) m l !! p with
    | Some k => k <> [] /\ forall c, c ∈ k <-> c ∈ seen ++ l /\ parent_of g p (ID c)
    | None => forall c, c ∈ seen ++ l -> ~ parent_of g p (ID c) end) as Hfold.
  { induction l as [|c l IH]; intros m seen Hl Hm; [by rewrite app_nil_r|].
    assert (seen ++ c :: l = (seen ++ [c]) ++ l) as -> by by rewrite <- app_assoc.
    simpl. apply IH; [intros; apply Hl; by right|]. destruct (Hl c) as [Hin Hs]; [by left|]. unfold ByParent_step.
    pose proof (Get_parent g c Hg Hin Hs) as Hp. destruct (Get Root layer_size g (Parent c)) as [q|].
    - destruct Hp as [He Hpc]. destruct (decide (ID q = p)) as [Hq|Hq].
      + rewrite Hq, lookup_insert_eq. rewrite Hq in Hpc. split; [by destruct (default [] (m !! p))|].
        intros d. rewrite !elem_of_app, list_elem_of_singleton. destruct (m !! p) as [k|]; simpl.
        * destruct Hm as [_ Hm]. rewrite Hm. split; [intros [[? ?]|[= ->]]; auto|intros [[?|[= ->]] ?]; auto].
        * split; [intros [H|[= ->]]; [by apply not_elem_of_nil in H|auto]|intros [[?|[= ->]] ?]; [exfalso; by eapply Hm|by right]].
      + rewrite lookup_insert_ne by done.
        assert (~ parent_of g p (ID c)) as Hno.
        { intros (i & _ & Hi & Hpi & _). assert (i = c) as -> by (unfold stored in *; congruence). congruence. }
        destruct (m !! p) as [k|]; [destruct Hm as [Hk Hm]; split; [done|]; intros d; rewrite Hm, elem_of_app, list_elem_of_singleton; naive_solver|].
        intros d [Hd'|Hd']%elem_of_app; [by apply Hm|apply list_elem_of_singleton in Hd' as ->; done].
    - destruct Hp as [_ Hp].
      destruct (m !! p) as [k|]; [destruct Hm as [Hk Hm]; split; [done|]; intros d; rewrite Hm, elem_of_app, list_elem_of_singleton; naive_solver|].
      intros d [Hd'|Hd']%elem_of_app; [by apply Hm|apply list_elem_of_singleton in Hd' as ->; apply Hp]. }
  specialize (Hfold (walkAll Root layer_size g dir) ∅ []).
  rewrite lookup_empty in Hfold. simpl in Hfold. specialize (Hfold ltac:(intros c Hcin; by apply (walkAll_spec g dir c Hc Hd)) ltac:(intros c Hn; by apply not_elem_of_nil in Hn)).
  destruct (foldl _ ∅ _ !! p) as [k|].
  - destruct Hfold as [Hk Hf]. split; [done|]. intros c. rewrite Hf, (walkAll_spec g dir c Hc Hd). split; [intros [[? ?] ?]; done|].
    intros [Hs Hp]. split; [|done]. split; [by destruct Hp as (? & ? & _)|done].
  - intros c Hp. pose proof Hp as (i & Hin & Hs & _). destruct (index_stored _ Hc c Hin) as (i' & Hs' & He & _).
    assert (i' = i) as -> by (unfold stored in *; congruence). apply (Hfold i); [|by rewrite He].
    apply (walkAll_spec g dir i Hc Hd). by rewrite He.
Qed.

Lemma fold_insert_spec (P : Image -> bool) l : forall (m : gmap string Image) id,
  (forall a b, a ∈ l -> b ∈ l -> ID a = ID b -> a = b) ->
  (forall a, a ∈ l -> m !! ID a = None \/ m !! ID a = Some a) ->
  foldl (fun m i => if P i then <[ID i := i]> m else m) m l !! id =
  match m !! id with Some i => Some i | None => List.find (fun i => P i && String.eqb (ID i) id) l end.
Proof.
  induction l as [|i l IH]; intros m id Hu Hm; simpl; [by destruct (m !! id)|].
  assert (forall a b, a ∈ l -> b ∈ l -> ID a = ID b -> a = b) as Hu' by (intros; apply Hu; [by right..|done]).
  destruct (P i) eqn:HP; simpl; [|apply IH; [done|intros; apply Hm; by right]].
  rewrite IH; [|done|].
  - destruct (String.eqb_spec (ID i) id) as [<-|Hne]; [rewrite lookup_insert_eq|by rewrite lookup_insert_ne].
    destruct (Hm i) as [->| ->]; [by left|done..].
  - intros a Ha. destruct (decide (ID a = ID i)) as [He|Hne].
    + right. rewrite He, lookup_insert_eq. f_equal. symmetry. apply Hu; [by right|by left|done].
    + rewrite lookup_insert_ne by done. apply Hm. by right.
Qed.

Lemma stored_unique g dir a b : consistent g -> lists g dir -> a ∈ walkAll Root layer_size g dir -> b ∈ walkAll Root layer_size g dir -> ID a = ID b -> a = b.
Proof.
  intros Hc Hd [_ Ha]%(walkAll_spec _ _ _ Hc Hd) [_ Hb]%(walkAll_spec _ _ _ Hc Hd) He. unfold stored in *. rewrite He in Ha. congruence.
Qed.

Lemma Heads_children g dir id img : good g -> lists g dir ->
  Heads Root layer_size g dir !! id = Some img <-> id ∈ ids (idIndex g) /\ stored g id img /\ forall c, ~ parent_of g id c.
Proof.
  intros Hg Hd. pose proof (good_consistent _ Hg) as Hc. unfold Heads.
  set (P := fun i : Image => match ByParent Root layer_size g dir !! ID i with None => true | Some _ => false end).
  assert (forall l m, foldl (fun m i => match ByParent Root layer_size g dir !! ID i with None => <[ID i := i]> m | Some _ => m end) m l =
    foldl (fun m i => if P i then <[ID i := i]> m else m) m l) as ->.
  { induction l as [|i l IH]; intros m; [done|]. simpl. rewrite IH. unfold P. by destruct (ByParent Root layer_size g dir !! ID i). }
  rewrite fold_insert_spec; [|intros a b; by apply (stored_unique g dir)|intros; left; apply lookup_empty]. rewrite lookup_empty.
  split.
  - intros [Hin HP]%List.find_some. apply list_elem_of_In, (walkAll_spec _ _ _ Hc Hd) in Hin as [Hin Hs].
    apply andb_true_iff in HP as [HP He%String.eqb_eq]. subst id. split; [done|]. split; [done|].
    pose proof (ByParent_children g dir (ID img) Hg Hd) as Hch. unfold P in HP. by destruct (ByParent Root layer_size g dir !! ID img).
  - intros (Hin & Hs & Hno). destruct (index_stored _ Hc id Hin) as (i & Hs' & He & _). assert (i = img) as -> by (unfold stored in *; congruence).
    assert (img ∈ walkAll Root layer_size g dir) as Hw by (apply (walkAll_spec _ _ _ Hc Hd); by rewrite He).
    assert (P img = true) as HP.
    { unfold P. rewrite He. pose proof (ByParent_children g dir id Hg Hd) as Hch. destruct (ByParent Root layer_size g dir !! id) as [k|]; [|done].
      destruct Hch as [Hk Hch]. destruct k as [|c k]; [done|]. destruct (Hch c) as [[_ Hp] _]; [by left|]. by destruct (Hno (ID c)). }
    destruct (List.find _ _) as [j|] eqn:Hf.
    + apply List.find_some in Hf as [Hj HPj]. apply andb_true_iff in HPj as [_ Hej%String.eqb_eq]. f_equal.
      apply (stored_unique g dir); [done..|by apply list_elem_of_In|done|congruence].
    + pose proof (List.find_none _ _ Hf img (proj1 (list_elem_of_In _ _) Hw)) as Hx. simpl in Hx. by rewrite HP, He, String.eqb_refl in Hx.
Qed.

(** *** Restarts *)

Lemma NewTruncIndex_ids l : Forall id_ok l -> idx_wf (NewTruncIndex (T := T) l) /\ forall id, id ∈ ids (NewTruncIndex (T := T) l) <-> id ∈ l.
Proof.
  assert (forall l i, idx_wf i -> Forall id_ok l -> idx_wf (foldl (fun idx id => fst (addId (T := T) id idx)) i l) /\
    forall id, id ∈ ids (foldl (fun idx id => fst (addId id idx)) i l) <-> id ∈ ids i \/ id ∈ l) as H.
  { clear l. induction l as [|x l IH]; intros i Hi Hl; [split; [done|]; intros id; simpl; split; [by left|intros [?|Hn]; [done|by apply not_elem_of_nil in Hn]]|].
    apply Forall_cons in Hl as [Hx Hl]. destruct (addId_spec x i Hi) as (Hw & Hok & Hids). simpl. destruct (IH (addId x i).1 Hw Hl) as [Hw' Hin]. split; [done|].
    intros id. rewrite Hin, Hids, elem_of_cons. destruct (is_ok (addId x i).2) eqn:Eok; [set_solver|].
    assert (x ∈ ids i) as Hxi; [|set_solver]. destruct (decide (x ∈ ids i)) as [|Hn]; [done|]. exfalso.
    assert (false = true) as [=]. apply Hok. pose proof (id_ok_plain _ Hx) as ((_ & ? & _) & _ & ?). done. }
  intros Hl. assert (idx_wf {| ids := ∅; trie := trie_new |}) as Hs by (split; simpl; [apply trie_new_keys|set_solver]).
  destruct (H l _ Hs Hl) as [Hw Hin]. split; [done|]. intros id. unfold NewTruncIndex. rewrite Hin. simpl. set_solver.
Qed.

Lemma restart_good g dir : good g -> lists g dir -> good (NewGraph (roots g) (driver g) dir) /\
  ids (idIndex (NewGraph (roots g) (driver g) dir)) = ids (idIndex g).
Proof.
  intros Hg Hd. pose proof Hg as [Hc Hlay Hpar Hacc]. pose proof Hd as [Hd1 Hd2]. unfold NewGraph, restore. cbn [roots driver with_index].
  set (g0 := {| roots := roots g; idIndex := NewTruncIndex []; driver := driver g |}).
  assert (forall n, n ∈ List.filter (Driver_Exists g0) dir <-> n ∈ dir /\ is_Some (layer_of (driver g) n)) as Hf.
  { intros n. rewrite list_elem_of_In, List.filter_In, <- list_elem_of_In. unfold Driver_Exists. by rewrite bool_decide_eq_true. }
  assert (Forall id_ok (List.filter (Driver_Exists g0) dir)) as Hall.
  { apply Forall_forall. intros n [Hn [l Hl]]%Hf. apply Hd2 in Hn as [?|[_ Hn]]; [done|congruence]. }
  destruct (NewTruncIndex_ids _ Hall) as [Hw Hids]. set (g' := with_index g0 _).
  assert (forall id, id ∈ ids (idIndex g') <-> id ∈ ids (idIndex g)) as Hsame.
  { intros id. cbn [idIndex g' with_index]. rewrite Hids, Hf. split.
    - intros [Hin [l Hl]]. destruct (Hd2 id Hin) as [Hok|[_ Hn]]; [|congruence]. apply (stored_index _ Hc); [done|]. by apply Hd1.
    - intros Hin. pose proof (index_ok _ Hc id Hin). destruct (index_stored _ Hc id Hin) as (i & Hs & _). split; [apply Hd1; [done|by eexists]|by apply Hlay]. }
  assert (forall p c, parent_of g' p c <-> parent_of g p c) as Hpp.
  { intros p c. unfold parent_of. by setoid_rewrite Hsame. }
  split; [|apply set_eq, Hsame]. split.
  - apply (consistent_by g); [done|done|..].
    + intros id Hin. apply Hsame in Hin. split; [by apply (index_ok _ Hc)|by apply (index_stored _ Hc)].
    + intros id Hok Hs. apply Hsame. by apply (stored_index _ Hc).
  - intros id Hin. apply Hsame in Hin. by apply Hlay.
  - intros p c. rewrite Hpp, Hsame. apply Hpar.
  - intros id. specialize (Hacc id). induction Hacc as [id _ IH]. constructor. intros q. rewrite Hpp. apply IH.
Qed.

(** ** What the daemon does with the graph *)

(** It registers new images over parents that are there, deletes images
    without children, and restarts. *)
Inductive graph_step g : Graph T D -> Prop :=
| step_register io random json layer img g' r : new_image g img -> default img json = img ->
    Register Root layer_size unpack g io random json layer img = (g', r) -> graph_step g g'
| step_delete io dir img g' r : lists g dir -> Get Root layer_size g (ID img) = Ok img -> ByParent Root layer_size g dir !! ID img = None ->
    rename_err io = None -> Delete Root g io (ID img) = (g', r) -> graph_step g g'
| step_restart dir : lists g dir -> graph_step g (NewGraph (roots g) (driver g) dir).

Lemma childless g dir img : good g -> lists g dir -> ByParent Root layer_size g dir !! ID img = None -> forall c, ~ parent_of g (ID img) c.
Proof. intros Hg Hd Hb. pose proof (ByParent_children g dir (ID img) Hg Hd) as H. by rewrite Hb in H. Qed.

Lemma step_good g g' : good g -> graph_step g g' -> good g'.
Proof.
  intros Hg [io random json layer img g1 r Hnew Hj HR|io dir img g1 r Hd Hget Hb Hio HR|dir Hd].
  - by destruct (Register_good g io random json layer img g1 r Hg Hnew Hj HR) as [? _].
  - apply (Get_spec _ _ _ (good_consistent _ Hg)) in Hget as (_ & _ & Hin & _).
    destruct (Delete_good g io img g1 r Hg Hio Hin) as [? _]; [by apply (childless g dir)|done..].
  - by destruct (restart_good g dir Hg Hd) as [? _].
Qed.

Definition empty_graph (d : D) : Graph T D := NewGraph ∅ d [].

Lemma empty_good d : good (empty_graph d).
Proof.
  assert (forall id, id ∉ ids (idIndex (empty_graph d))) as Hno by (intros id; simpl; set_solver).
  split.
  - split; [split; simpl; [apply trie_new_keys|set_solver]|intros id Hin; by destruct (Hno id)..|]. intros id _ [r Hr]. simpl in Hr. by rewrite lookup_empty in Hr.
  - intros id Hin. by destruct (Hno id).
  - intros p c (i & Hin & _). by destruct (Hno c).
  - intros id. constructor. intros p (i & Hin & _). by destruct (Hno id).
Qed.

Definition reachable_graph g : Prop := exists d, rtc graph_step (empty_graph d) g.

Lemma reachable_good g : reachable_graph g -> good g.
Proof.
  intros [d H]. pose proof (empty_good d) as Hg. revert Hg. induction H as [|g1 g2 g3 Hs _ IH]; [done|].
  intros Hg. apply IH. by apply (step_good g1).
Qed.

(** The images that name [p] as their parent, as [Get] hands them out. *)
Lemma child_by_parent g p c : good g -> stored g (ID c) c /\ parent_of g p (ID c) <-> Get Root layer_size g (ID c) = Ok c /\ Parent c = p /\ p <> "".
Proof.
  intros Hg. pose proof (good_consistent _ Hg) as Hc. split.
  - intros [Hs (i & Hin & Hs' & Hp & Hne)]. assert (i = c) as -> by (unfold stored in *; congruence). split; [by apply Get_whole|done].
  - intros (Hget & Hp & Hne). apply (Get_spec _ _ _ Hc) in Hget as (_ & Hs & Hin & _). split; [done|by exists c].
Qed.

(** C21. What the graph of images keeps through registrations of new images
    over parents that are there, with whatever the disk fails, deletions of
    images without children whose renaming does not fail, and restarts: every
    identifier finds its own image and its layer, a parent is there as long
    as a child is, [ByParent] holds exactly the children and [Heads] exactly
    the images without any.  [rename_orphans] shows what a deletion whose
    renaming fails does to it. *)
Theorem graph_images g dir : reachable_graph g -> lists g dir ->
  (forall id, id ∈ ids (idIndex g) -> exists img, Get Root layer_size g id = Ok img /\ ID img = id /\ is_Some (layer_of (driver g) id) /\
     (Parent img <> "" -> exists p, Get Root layer_size g (Parent img) = Ok p /\ ID p = Parent img)) /\
  (forall p, let children img := Get Root layer_size g (ID img) = Ok img /\ Parent img = p /\ p <> "" in
     match ByParent Root layer_size g dir !! p with
     | Some l => l <> [] /\ forall img, img ∈ l <-> children img
     | None => forall img, ~ children img
     end) /\
  forall id img, Heads Root layer_size g dir !! id = Some img <->
    Get Root layer_size g id = Ok img /\ ID img = id /\ ByParent Root layer_size g dir !! id = None.
Proof.
  intros Hr Hd. apply reachable_good in Hr as Hg. pose proof Hg as [Hc Hlay Hpar Hacc]. split_and!.
  - intros id Hin. destruct (index_stored _ Hc id Hin) as (img & Hs & He & _). exists img. split; [by apply Get_whole|]. split; [done|]. split; [by apply Hlay|].
    intros Hp. assert (parent_of g (Parent img) id) as Hpo by by exists img. pose proof (Hpar _ _ Hpo) as Hpin.
    destruct (index_stored _ Hc _ Hpin) as (p & Hps & Hpe & _). exists p. split; [by apply Get_whole|done].
  - intros p children. pose proof (ByParent_children g dir p Hg Hd) as Hch. destruct (ByParent Root layer_size g dir !! p) as [l|].
    + destruct Hch as [Hl Hch]. split; [done|]. intros img. rewrite Hch. by apply child_by_parent.
    + intros img [_ Himg]%(child_by_parent g p img Hg). by apply (Hch (ID img)).
  - intros id img. rewrite (Heads_children g dir id img Hg Hd). split.
    + intros (Hin & Hs & Hno). destruct (index_stored _ Hc id Hin) as (i & Hs' & He & _). assert (i = img) as -> by (unfold stored in *; congruence).
      split; [by apply Get_whole|]. split; [done|]. pose proof (ByParent_children g dir id Hg Hd) as Hch.
      destruct (ByParent Root layer_size g dir !! id) as [[|c k]|]; [by destruct Hch|destruct Hch as [_ Hch]; destruct (Hch c) as [[_ Hp] _]; [by left|by destruct (Hno (ID c))]|done].
    + intros (Hget & <- & Hb). apply (Get_spec _ _ _ Hc) in Hget as (_ & Hs & Hin & _). split; [done|]. split; [done|].
      by apply (childless g dir).
Qed.

(** A deletion whose renaming fails has taken the identifier from the index:
    the image is there, with its layer, and is not found. *)
Lemma Delete_rename_fails g io id e : consistent g -> id ∈ ids (idIndex g) -> mktemp_err io = None -> rename_err io = Some e ->
  exists g', Delete Root g io id = (g', Err e) /\ ids (idIndex g') = ids (idIndex g) ∖ {[id]} /\ roots g' = roots g /\ driver g' = driver g /\
    is_ok (Get Root layer_size g' id) = false.
Proof.
  intros Hc Hin Hm Hr. destruct (index_stored _ Hc id Hin) as (i & Hs & He & _).
  pose proof (Get_whole g id i Hc Hin Hs) as Hg. unfold Get in Hg. destruct (Get_id id (idIndex g)) as [x|] eqn:Hx; [|done].
  apply (Get_id_spec _ _ _ (index_wf _ Hc)) in Hx as Hx'. destruct Hx' as (_ & Hxi & Hp & _).
  assert (x = id) as -> by (symmetry; apply id_ok_prefix; [by apply (index_ok _ Hc)..|done]).
  pose proof (Delete_id_spec id (idIndex g) (index_wf _ Hc)) as (Hw & _ & Hi).
  unfold Delete. rewrite Hx, Hm, Hr. eexists. split; [done|]. split; [exact Hi|]. split; [done|]. split; [done|].
  unfold Get. cbn [idIndex with_index]. destruct (Get_id id (Delete_id id (idIndex g)).1) as [x|] eqn:Ex; [|done].
  apply (Get_id_spec _ _ _ Hw) in Ex as (_ & Hxi' & Hp' & _). rewrite Hi in Hxi'. apply elem_of_difference in Hxi' as [Hxi' Hne].
  assert (id = x) as -> by (apply id_ok_prefix; [by apply (index_ok _ Hc)..|done]). by destruct Hne; apply elem_of_singleton.
Qed.

(** Histories end: in every such graph the ancestors of an image are
    finitely many different images, the last of which has no parent; walking
    them, counting them and summing their sizes returns, with no more steps
    than there are images, and the depth check refuses exactly 125 images or
    more. *)
Theorem History_ends g id img : reachable_graph g -> Get Root layer_size g id = Ok img ->
  let fuel := size (ids (idIndex g)) in
  exists l, lineage g img l /\ NoDup (ID <$> l) /\ History Root layer_size fuel g img = Return (Ok l) /\
    Depth Root layer_size fuel g img = Return (Ok (Z.of_nat (length l))) /\
    CheckDepth Root layer_size fuel g img =
      Return (if decide (length l < 125)%nat then Ok () else Err "Cannot create container with more than 127 parents").
Proof.
  intros Hr Hget fuel. apply reachable_good in Hr as Hg. apply (Get_spec _ _ _ (good_consistent _ Hg)) in Hget as (_ & Hs & Hin & _).
  destruct (lineage_exists g (ID img) img Hg Hin Hs) as [l Hl]. exists l. split; [done|].
  destruct (lineage_ids g _ img l Hg Hin Hs Hl) as [Hn _]. split; [done|].
  pose proof (lineage_length g _ img l Hg Hin Hs Hl) as Hlen.
  assert (Depth Root layer_size fuel g img = Return (Ok (Z.of_nat (length l)))) as Hdep by (by apply (Depth_lineage g img l)).
  split; [unfold History; rewrite (WalkHistory_lineage _ g img l) by done; by rewrite result_foldl_snoc|]. split; [done|].
  unfold CheckDepth. rewrite Hdep. cbn [mbind outcome_bind]. unfold MaxImageDepth.
  case_decide; destruct (Z.leb_spec 127 (Z.of_nat (length l) + 2)); done || lia.
Qed.

(** [Register] of an image whose identifier is new makes it findable with
    a layer made from its parent's, or fails and leaves no trace; every other
    image keeps its directory and layer.  For an identifier that is there it
    fails as well - and removes the layer of the image that is there. *)
Theorem Register_spec g io random json data img g' r :
  reachable_graph g -> id_ok (ID img) -> (Parent img = "" \/ plain_elem (Parent img)) -> Parent img <> ID img -> default img json = img ->
  Register Root layer_size unpack g io random json data img = (g', r) ->
  (forall x, plain_elem x -> x <> ID img -> roots g' !! (Root ++ [x]) = roots g !! (Root ++ [x]) /\ layer_of (driver g') x = layer_of (driver g) x) /\
  if decide (ID img ∈ ids (idIndex g))
  then r = Err ("Image " +:+ ID img +:+ " already exists") /\ ids (idIndex g') = ids (idIndex g) /\ roots g' = roots g /\
       is_Some (layer_of (driver g) (ID img)) /\ layer_of (driver g') (ID img) = None
  else match r with
       | Ok _ => ids (idIndex g') = {[ID img]} ∪ ids (idIndex g) /\
           exists p l size, (if String.eqb (Parent img) "" then Some empty_layer else layer_of (driver g) (Parent img)) = Some p /\
             match data with None => l = p | Some d => unpack p d = Ok l end /\
             stored g' (ID img) (with_Size img size) /\ layer_of (driver g') (ID img) = Some l
       | Err _ => ids (idIndex g') = ids (idIndex g) /\ roots g' !! (Root ++ [ID img]) = None /\ layer_of (driver g') (ID img) = None
       end.
Proof.
  intros Hr Hid Hp Hne Hj HR. apply reachable_good in Hr as Hg. pose proof Hg as [Hc Hlay _ _].
  destruct (Register_cases g io random json data img g' r Hc Hid Hp Hne Hj HR) as [Hu Hres]. split; [done|].
  rewrite (Exists_spec g _ Hc Hid) in Hres. destruct (decide (ID img ∈ ids (idIndex g))) as [Hin|Hni].
  - rewrite bool_decide_eq_true_2 in Hres by done. destruct Hres as (-> & -> & -> & Hl). split_and!; [done..|by apply Hlay|done].
  - rewrite bool_decide_eq_false_2 in Hres by done. destruct r as [u|e].
    + destruct Hres as [(p & l & sz & H1 & H2 & H3 & H4 & H5 & H6) _]. split; [done|]. by exists p, l, sz.
    + destruct Hres as (-> & H). done.
Qed.

Lemma ImageRoot_dotdot R n : Root = R ++ [n] -> ImageRoot Root ".." = R.
Proof.
  intros HR. unfold ImageRoot, Join. change (List.filter _ [abs_path Root; ".."]) with [abs_path Root; ".."]. cbv iota beta.
  assert (plain R /\ plain_elem n) as [HpR Hpn] by (rewrite HR in root_plain; by apply plain_app in root_plain as [? ?%plain_one]).
  assert (path_elems (abs_path Root +:+ String "/" "..") = R) as E.
  { unfold path_elems. rewrite split_app_gen, split_abs by done. rewrite HR. unfold clean_elems.
    assert (match R ++ [n] with [] => [""] | _ => R ++ [n] end = R ++ [n]) as -> by by destruct R.
    rewrite foldl_app. cbn [foldl]. change (clean_push true [] "") with (@nil string).
    pose proof (clean_foldl_id true (n :: rev R)) as Hf. cbn [rev] in Hf. rewrite rev_involutive in Hf. rewrite Hf.
    - change (split "/" "..") with [".."]. cbn [foldl]. unfold clean_push. simpl. destruct Hpn as (_ & _ & _ & Hd).
      destruct (String.eqb_spec n ".."); [done|]. by rewrite rev_involutive.
    - exists (n :: rev R), 0%nat. split; [by rewrite app_nil_r|]. split; [|done]. constructor; [done|]. by apply List.Forall_rev. }
  change (join "/" [abs_path Root; ".."]) with (abs_path Root +:+ String "/" "..").
  rewrite (Clean_of_elems _ R); [by apply path_elems_abs|apply IsAbs_cons|done].
Qed.

(** The identifiers of images that are loaded are not confined to the
    root: registering the image [..], which [ValidateID] lets pass, fails at
    the last step and has by then removed everything below the directory that
    holds the root, so every image. *)
Theorem Register_escapes g io random json data img R n : reachable_graph g -> Root = R ++ [n] -> ID img = ".." ->
  exists g' e, Register Root layer_size unpack g io random json data img = (g', Err e) /\
    (forall p, R `prefix_of` p -> roots g' !! p = None) /\ ids (idIndex g') = ids (idIndex g) /\
    forall id, id ∈ ids (idIndex g) -> is_ok (Get Root layer_size g id) = true /\ is_ok (Get Root layer_size g' id) = false.
Proof.
  intros Hr HR He. apply reachable_good in Hr as [Hc _ _ _].
  assert (exists g' e, Register Root layer_size unpack g io random json data img = (g', Err e) /\ roots g' = roots (RemoveAll g R) /\ idIndex g' = idIndex g) as (g' & e & HE & Hro & Hix).
  { unfold Register. rewrite He. change (ValidateID "..") with (@Ok string () ()). cbv iota beta.
    assert (Exists Root layer_size g ".." = false) as ->.
    { unfold Exists. destruct (Get Root layer_size g "..") as [i|] eqn:Hg; [|done]. exfalso.
      apply (Get_spec _ _ _ Hc) in Hg as (_ & _ & Hin & Hp & _). apply (index_ok _ Hc) in Hin as [Hh _].
      by pose proof (hex_prefix _ _ Hp Hh). }
    rewrite (ImageRoot_dotdot R n) by done. destruct (mktemp_err io); [by eexists _, _|]. destruct (Driver_Create _ ".." _) as [d [e|]]; [by eexists _, _|].
    destruct (StoreImage _ _ _ _ _ _) as [[l st]|e]; [|by eexists _, _].
    unfold Rename. destruct (rename_err io); [by eexists _, _|]. rewrite bool_decide_eq_true_2 by (exists ([n] ++ ["_tmp"; random]); by rewrite HR, <- !app_assoc).
    by eexists _, _. }
  exists g', e. split; [done|]. split_and!; [|by rewrite Hix|].
  - intros p Hp. rewrite Hro. apply map_lookup_filter_None. right. intros x _. simpl. by intros Hn.
  - intros id Hin. destruct (index_stored _ Hc id Hin) as (i & Hs & _). rewrite (Get_whole g id i) by done. split; [done|].
    unfold Get. rewrite Hix. assert (Get_id id (idIndex g) = Ok id) as ->.
    { pose proof (Get_whole g id i Hc Hin Hs) as Hg. unfold Get in Hg. destruct (Get_id id (idIndex g)) as [x|] eqn:Hx; [|done].
      apply (Get_id_spec _ _ _ (index_wf _ Hc)) in Hx as (_ & Hxi & Hp & _). f_equal. symmetry. apply id_ok_prefix; [by apply (index_ok _ Hc)..|done]. }
    unfold LoadImage. rewrite ImageRoot_plain by apply id_ok_plain, (index_ok _ Hc _ Hin).
    assert (roots g' !! (Root ++ [id]) = None) as ->; [|done]. rewrite Hro. apply map_lookup_filter_None. right. intros x _. simpl. intros Hn. apply Hn.
    exists ([n] ++ [id]). by rewrite HR, <- app_assoc.
Qed.
End GraphLemmas.

(** ** A graph of two images *)

Module Demo.
Definition digits (c : string) : string := String.concat "" (repeat c 64).
Definition no_config : Config :=
  {| Hostname := ""; Domainname := ""; User := ""; Memory := 0; MemorySwap := 0; CpuShares := 0; Cpuset := "";
     AttachStdin := false; AttachStdout := false; AttachStderr := false; PortSpecs := []; ExposedPorts := None; Tty := false;
     OpenStdin := false; StdinOnce := false; Env := []; Cmd := []; RunConfig.Image := ""; Volumes := ∅; WorkingDir := ""; Entrypoint := [];
     NetworkDisabled := false; OnBuild := [] |}.
Definition image (id parent : string) : Image :=
  {| ID := id; Parent := parent; Comment := ""; Created := 0; Container := ""; ContainerConfig := no_config; Author := ""; Config_ := None; Size := 0 |}.
Definition base : Image := image (digits "a") "".
Definition child : Image := image (digits "b") (digits "a").

Definition Root : list string := ["graph"].
Definition size (l : list string) (p : option (list string)) : Z := Z.of_nat (length l - match p with Some p => length p | None => 0 end).
Definition unpack (l : list string) (d : string) : result string (list string) := if String.eqb d "bad" then Err "unexpected EOF" else Ok (d :: l).

#[global] Instance driver : GraphDriver (gmap string (list string)) (list string) := vfs [].

Definition G0 : Graph (list string) (gmap string (list string)) := empty_graph ∅.
Definition register (g : Graph (list string) (gmap string (list string))) (img : Image) (data : option string) : Graph (list string) (gmap string (list string)) * result string () :=
  Register Root size unpack g disk_ok "r" None data img.
Definition G1 : Graph (list string) (gmap string (list string)) := (register G0 base (Some "files")).1.
Definition G2 : Graph (list string) (gmap string (list string)) := (register G1 child (Some "more")).1.

Lemma digits_ok : id_ok (digits "a") /\ id_ok (digits "b").
Proof. repeat split. Qed.

Lemma root_plain : plain Root.
Proof. apply plain_one. repeat split; done. Qed.

Lemma size_nonneg l p : 0 <= size l p.
Proof. unfold size. lia. Qed.

Lemma G2_reachable : reachable_graph Root size unpack G2.
Proof.
  exists ∅. apply (rtc_l _ _ G1).
  - apply (step_register _ _ _ _ disk_ok "r" None (Some "files") base _ (register G0 base (Some "files")).2); [|done|apply surjective_pairing].
    split; [apply digits_ok|]. split; [by vm_compute|by left].
  - apply rtc_once. apply (step_register _ _ _ _ disk_ok "r" None (Some "more") child _ (register G1 child (Some "more")).2); [|done|apply surjective_pairing].
    split; [apply digits_ok|]. split; [by vm_compute|right]. split; [apply digits_ok|by vm_compute].
Qed.

Lemma G2_lists : lists Root G2 [digits "a"; "_tmp"; digits "b"].
Proof.
  assert (bool_decide (dom (roots G2) = ({[ ["graph"; digits "a"]; ["graph"; digits "b"] ]} : gset (list string))) = true) as Hd by (vm_compute; reflexivity).
  apply bool_decide_eq_true_1 in Hd.
  split.
  - intros id Hid. rewrite <- elem_of_dom, Hd. unfold Root. cbn [app]. rewrite elem_of_union, !elem_of_singleton, !elem_of_cons, elem_of_nil.
    split; [intros [->|[->|[->|[]]]]; [by left|by destruct Hid|by right]|intros [[= ->]|[= ->]]; [by left|by right; right; left]].
  - intros n [->|[->|[->|[]%not_elem_of_nil]%elem_of_cons]%elem_of_cons]%elem_of_cons; [left; apply digits_ok|right|left; apply digits_ok].
    split; by vm_compute.
Qed.

Lemma G2_child : Get Root size G2 (digits "b") = Ok (with_Size child 1).
Proof. vm_compute. reflexivity. Qed.
End Demo.

Lemma graph_images_witness :
  reachable_graph Demo.Root Demo.size Demo.unpack Demo.G2 /\
  (exists l, ByParent Demo.Root Demo.size Demo.G2 [Demo.digits "a"; "_tmp"; Demo.digits "b"] !! Demo.digits "a" = Some l /\ with_Size Demo.child 1 ∈ l) /\
  (exists p, Get Demo.Root Demo.size Demo.G2 (Demo.digits "a") = Ok p /\ ID p = Demo.digits "a").
Proof.
  destruct (graph_images Demo.Root Demo.size Demo.unpack Demo.root_plain Demo.size_nonneg Demo.G2 _ Demo.G2_reachable Demo.G2_lists) as (H1 & H2 & _).
  split; [apply Demo.G2_reachable|]. split.
  - specialize (H2 (Demo.digits "a")). cbv zeta in H2. destruct (ByParent _ _ _ _ !! _) as [l|].
    + exists l. split; [done|]. apply (proj2 H2). split; [exact Demo.G2_child|]. split; [reflexivity|discriminate].
    + destruct (H2 (with_Size Demo.child 1)). split; [exact Demo.G2_child|]. split; [reflexivity|discriminate].
  - destruct (H1 (Demo.digits "b")) as (img & Hg & _ & _ & Hp).
    + apply (bool_decide_eq_true_1 (Demo.digits "b" ∈ ids (idIndex Demo.G2))). vm_compute. reflexivity.
    + rewrite Demo.G2_child in Hg. injection Hg as <-. apply Hp. discriminate.
Defined.

(** An image whose deletion failed so is back after a restart, without its
    parent when that was deleted in the meantime. *)
Lemma rename_orphans :
  let failing := {| mktemp_err := None; store_err := None; rename_err := Some "device or resource busy" |} in
  let g1 := (Delete Demo.Root Demo.G2 failing (Demo.digits "b")).1 in
  let g2 := (Delete Demo.Root g1 disk_ok (Demo.digits "a")).1 in
  let g3 := NewGraph (roots g2) (Images.driver g2) [Demo.digits "b"] in
  ByParent Demo.Root Demo.size g1 [Demo.digits "a"; Demo.digits "b"] !! Demo.digits "a" = None /\
  Exists Demo.Root Demo.size g3 (Demo.digits "b") = true /\ Parent Demo.child = Demo.digits "a" /\
  Exists Demo.Root Demo.size g3 (Demo.digits "a") = false.
Proof. vm_compute. repeat split. Qed.

Lemma History_ends_witness :
  exists l, NoDup (ID <$> l) /\ History Demo.Root Demo.size 2 Demo.G2 (with_Size Demo.child 1) = Return (Ok l) /\ length l = 2%nat.
Proof.
  pose proof (History_ends Demo.Root Demo.size Demo.unpack Demo.root_plain Demo.size_nonneg Demo.G2 _ _ Demo.G2_reachable Demo.G2_child) as H.
  assert (size (ids (idIndex Demo.G2)) = 2%nat) as Hs by (vm_compute; reflexivity). rewrite Hs in H.
  destruct H as (l & _ & Hn & Hh & Hd & _). exists l. split; [exact Hn|]. split; [exact Hh|].
  assert (Depth Demo.Root Demo.size 2 Demo.G2 (with_Size Demo.child 1) = Return (Ok 2)) as E by (vm_compute; reflexivity).
  rewrite E in Hd. injection Hd as Hd. lia.
Defined.

Lemma Register_spec_witness :
  is_Some (layer_of (driver Demo.G2) (Demo.digits "a")) /\
  (Demo.register Demo.G2 Demo.base None).2 = Err ("Image " +:+ Demo.digits "a" +:+ " already exists") /\
  layer_of (driver (Demo.register Demo.G2 Demo.base None).1) (Demo.digits "a") = None.
Proof.
  pose proof (Register_spec Demo.Root Demo.size Demo.unpack Demo.root_plain Demo.size_nonneg Demo.G2 disk_ok "r" None None Demo.base
    (Demo.register Demo.G2 Demo.base None).1 (Demo.register Demo.G2 Demo.base None).2 Demo.G2_reachable) as H.
  destruct H as [_ H]; [apply Demo.digits_ok|by left|discriminate|reflexivity|apply surjective_pairing|].
  rewrite decide_True in H by (apply (bool_decide_eq_true_1 (ID Demo.base ∈ ids (idIndex Demo.G2))); vm_compute; reflexivity).
  destruct H as (Hr & _ & _ & Hl & Hn). split; [exact Hl|]. split; [exact Hr|exact Hn].
Defined.

Lemma Register_escapes_witness :
  exists g' e, Demo.register Demo.G2 (Demo.image ".." "") None = (g', Err e) /\ is_ok (Get Demo.Root Demo.size g' (Demo.digits "a")) = false.
Proof.
  destruct (Register_escapes Demo.Root Demo.size Demo.unpack Demo.root_plain Demo.size_nonneg Demo.G2 disk_ok "r" None None (Demo.image ".." "") [] "graph" Demo.G2_reachable eq_refl eq_refl)
    as (g' & e & HR & _ & _ & H).
  exists g', e. split; [exact HR|]. apply H. apply (bool_decide_eq_true_1 (Demo.digits "a" ∈ ids (idIndex Demo.G2))). vm_compute. reflexivity.
Defined.
