(* ===== verification/ImageDelete.v ===== *)
(** * daemon/image_delete.go: deleting images

    The job untags an image, deletes it from the graph (Images.v) when no name
    (Tags.v), no child and no container (Names.v) needs it any more, and goes on
    with its parent, which it prunes under the same conditions.  The rows of
    the answer and the events are lists; the containers are a list in the order
    of [daemon.List], [readdir] reads the directory of the graph, and [history]
    bounds the walks through the ancestors of an image. *)

From stdpp Require Import base gmap sets list strings.
From Stdlib Require Import ZArith Lia Ascii.
From S2P Require Import Prelude GoStrings GoPath Parsers RunConfig State Names Tags Images.

Local Open Scope Z_scope.

Record World (T D : Type) := {
  graph : Graph T D;
  store : TagStore;
  imgs : list (string * string);
  events : list (string * string) }.
Arguments graph {T D} _.
Arguments store {T D} _.
Arguments imgs {T D} _.
Arguments events {T D} _.

Section ImageDelete.
Context {T D L : Type} {HT : Trie T} {HD : GraphDriver D L}.
Context (Root : list string) (layer_size : L -> option L -> Z).
Context (order : forall V, gmap string V -> list (string * V)) (readdir : Graph T D -> list string) (history : nat).
Implicit Types (w : World T D) (g : Graph T D).

Definition with_graph w g : World T D := {| graph := g; store := store w; imgs := imgs w; events := events w |}.
Definition with_store w s : World T D := {| graph := graph w; store := s; imgs := imgs w; events := events w |}.
Definition report w (key value : string) (event : string * string) : World T D :=
  {| graph := graph w; store := store w; imgs := imgs w ++ [(key, value)]; events := events w ++ [event] |}.

(** [daemon.Repositories().LookupImage] *)
Definition lookup_image w (name : string) : World T D * result string Image :=
  let '(s, r) := Tags.LookupImage (H := graph_store Root layer_size (graph w)) order name (store w) in (with_store w s, r).

Definition container_conflict (imgID : string) (force : bool) (message : string) (c : Names.Container) (_ : ()) (p : Image) : result string () :=
  if String.eqb imgID (ID p) then
    if State.IsRunning (Names.state c) then
      if force then Err ("Conflict, cannot force delete " +:+ TruncateID imgID +:+ " because the running container " +:+ TruncateID (Names.ID c) +:+ " is using it" +:+ message +:+ ", stop it and retry")
      else Err ("Conflict, cannot delete " +:+ TruncateID imgID +:+ " because the running container " +:+ TruncateID (Names.ID c) +:+ " is using it" +:+ message +:+ ", stop it and use -f to force")
    else if negb force then Err ("Conflict, cannot delete " +:+ TruncateID imgID +:+ " because the container " +:+ TruncateID (Names.ID c) +:+ " is using it" +:+ message +:+ ", use -f to force")
    else Ok ()
  else Ok ().

Fixpoint canDeleteImage_loop (imgID : string) (force : bool) (message : string) (containers : list Names.Container) w : outcome (World T D * result string ()) :=
  match containers with
  | [] => Return (w, Ok ())
  | container :: rest =>
      let '(w, parent) := lookup_image w (Names.Image container) in
      match parent with
      | Err e => Return (w, Err e)
      | Ok parent =>
          r ← WalkHistory Root layer_size (container_conflict imgID force message container) history (graph w) parent ();
          match r with
          | Err e => Return (w, Err e)
          | Ok _ => canDeleteImage_loop imgID force message rest w
          end
      end
  end.

Definition canDeleteImage (containers : list Names.Container) w (imgID : string) (force untagged : bool) : outcome (World T D * result string ()) :=
  canDeleteImage_loop imgID force (if untagged then " (docker untagged the image)" else "") containers w.

(** The tags of an image that is deleted by its identifier, all of one
    repository unless forced. *)
Fixpoint repo_tags (name : string) (force : bool) (names : list string) (repoName : string) (tags : list string) : result string (string * list string) :=
  match names with
  | [] => Ok (repoName, tags)
  | repoAndTag :: names =>
      let '(parsedRepo, parsedTag) := ParseRepositoryTag repoAndTag in
      if String.eqb repoName "" || String.eqb repoName parsedRepo then
        repo_tags name force names parsedRepo (if String.eqb parsedTag "" then tags else tags ++ [parsedTag])
      else if negb force then Err ("Conflict, cannot delete image " +:+ name +:+ " because it is tagged in multiple repositories, use -f to force")
      else repo_tags name force names repoName tags
  end.

Fixpoint untag (repoName : string) (imgID : string) (tags : list string) (tagDeleted : bool) w : World T D * result string bool :=
  match tags with
  | [] => (w, Ok tagDeleted)
  | tag :: tags =>
      let '(s, r) := Tags.Delete repoName tag (store w) in
      let w := with_store w s in
      match r with
      | Err e => (w, Err e)
      | Ok tagDeleted =>
          untag repoName imgID tags tagDeleted (if tagDeleted then report w "Untagged" (repoName +:+ ":" +:+ tag) ("untag", imgID) else w)
      end
  end.

Definition names_of_image w (id : string) : list string := default [] (ByID order (store w) !! id).

Definition no_such_image w (name repoName tag : string) : World T D * result string () :=
  let '(s, r) := Tags.Get repoName (store w) in
  (with_store w s, match r with
                   | Ok (Some _) => Err ("No such image: " +:+ repoName +:+ ":" +:+ tag)
                   | _ => Err ("No such image: " +:+ name)
                   end).

(** [io] is what the disk does while the graph deletes. *)
Fixpoint DeleteImage (fuel : nat) (io : Disk_io) (containers : list Names.Container) (name : string) (first force noprune : bool) w : outcome (World T D * result string ()) :=
  match fuel with
  | O => OutOfFuel
  | S fuel =>
      let '(repoName, tag) := ParseRepositoryTag name in
      let tag := if String.eqb tag "" then DEFAULTTAG else tag in
      let '(w, img) := lookup_image w name in
      match img with
      | Err _ => Return (no_such_image w name repoName tag)
      | Ok img =>
          let repoName := if contains name (ID img) then "" else repoName in
          let byParents := ByParent Root layer_size (graph w) (readdir (graph w)) in
          match (if String.eqb repoName "" then repo_tags name force (names_of_image w (ID img)) "" [] else Ok (repoName, [tag])) with
          | Err e => Return (w, Err e)
          | Ok (repoName, tags) =>
              if negb first && negb (bool_decide (tags = [])) then Return (w, Ok ())
              else
                let '(w, tagDeleted) := untag repoName (ID img) tags false w in
                match tagDeleted with
                | Err e => Return (w, Err e)
                | Ok tagDeleted =>
                    let names := names_of_image w (ID img) in
                    if (bool_decide (length names <= 1)%nat && String.eqb repoName "" || bool_decide (names = [])) &&
                       bool_decide (default [] (byParents !! ID img) = []) then
                      '(w, r) ← canDeleteImage containers w (ID img) force tagDeleted;
                      match r with
                      | Err e => Return (w, Err e)
                      | Ok _ =>
                          let '(s, r) := DeleteAll order (ID img) (store w) in
                          let w := with_store w s in
                          match r with
                          | Err e => Return (w, Err e)
                          | Ok _ =>
                              let '(g, r) := Images.Delete Root (graph w) io (ID img) in
                              let w := with_graph w g in
                              match r with
                              | Err e => Return (w, Err e)
                              | Ok _ =>
                                  let w := report w "Deleted" (ID img) ("delete", ID img) in
                                  if negb (String.eqb (Parent img) "") && negb noprune then
                                    '(w, r) ← DeleteImage fuel io containers (Parent img) false force noprune w;
                                    Return (w, if first then r else Ok ())
                                  else Return (w, Ok ())
                              end
                          end
                      end
                    else Return (w, Ok ())
                end
          end
      end
  end.

(** The job, which answers with the rows. *)
Definition ImageDelete (fuel : nat) (io : Disk_io) (containers : list Names.Container) (args : list string) (force noprune : bool) w :
    outcome (World T D * result string (list (string * string))) :=
  match args with
  | [name] =>
      let w := {| graph := graph w; store := store w; imgs := []; events := events w |} in
      '(w, r) ← DeleteImage fuel io containers name true force noprune w;
      Return (w, match r with
                 | Err e => Err e
                 | Ok _ => if bool_decide (imgs w = []) then Err ("Conflict, " +:+ name +:+ " wasn't deleted") else Ok (imgs w)
                 end)
  | _ => Return (w, Err "Usage: image_delete IMAGE")
  end.
End ImageDelete.

(** ** Names *)

(** What deleting tags leaves: the tags that are not among the names [u]. *)
Definition untagged (u : list string) (s s' : TagStore) : Prop :=
  synced s' /\ (forall r, Repositories s !! r = None -> Repositories s' !! r = None) /\
  forall r t, tag_of s' r t = if decide (r +:+ ":" +:+ t ∈ u) then None else tag_of s r t.

(** Names as [Set_] accepts them. *)
Definition names_wf (s : TagStore) : Prop :=
  forall r t id, tag_of s r t = Some id -> r <> "" /\ is_ok (validateTagName t) = true.

Lemma untagged_nil s : synced s -> untagged [] s s.
Proof. intros Hs. split; [done|]. split; [done|]. intros r t. by rewrite decide_False by apply not_elem_of_nil. Qed.

Lemma untagged_app u v s s1 s2 : untagged u s s1 -> untagged v s1 s2 -> untagged (u ++ v) s s2.
Proof.
  intros (_ & H1 & H2) (Hs & H3 & H4). split; [done|]. split; [auto|]. intros r t. rewrite H4, H2.
  destruct (decide (r +:+ ":" +:+ t ∈ v)); [by rewrite decide_True by (apply elem_of_app; by right)|].
  destruct (decide (r +:+ ":" +:+ t ∈ u)); [by rewrite decide_True by (apply elem_of_app; by left)|].
  rewrite decide_False; [done|]. by intros [?|?]%elem_of_app.
Qed.

Lemma untagged_wf u s s' : untagged u s s' -> names_wf s -> names_wf s'.
Proof. intros (_ & _ & H) Hw r t id. rewrite H. case_decide; [done|]. apply Hw. Qed.

Lemma valid_tag_colon t : is_ok (validateTagName t) = true -> t <> "" /\ contains_char "/" t = false /\ contains_char ":" t = false.
Proof. apply validateTagName_ok. Qed.

(** A name of an image, taken apart. *)
Lemma parse_name r t : is_ok (validateTagName t) = true -> ParseRepositoryTag (r +:+ ":" +:+ t) = (r, t).
Proof. intros (_ & Hsl & Hco)%valid_tag_colon. change (r +:+ ":" +:+ t) with (r +:+ String ":" t). by rewrite ParseRepositoryTag_cut, Hsl. Qed.

Lemma Delete_untagged s r t : synced s -> names_wf s -> t <> "" ->
  match Tags.Delete r t s with
  | (s', Ok b) => b = true /\ untagged [r +:+ ":" +:+ t] s s'
  | (s', Err _) => s' = s
  end.
Proof.
  intros Hs Hw Hne. pose proof (Delete_synced s r t Hs Hne) as Hd. destruct (tag_of s r t) as [id|] eqn:Ht; [|by rewrite Hd].
  destruct Hd as (s' & HD & Hs' & _ & Hr). rewrite HD. split; [done|]. split; [done|]. split.
  - intros r'. unfold Tags.Delete in HD. rewrite reload_synced in HD by done. unfold tag_of in Ht.
    destruct (Repositories s !! r) as [rep|] eqn:Hrep; [|done]. simpl in Ht. rewrite Ht in HD. destruct (String.eqb_spec t ""); [done|]. cbn [negb] in HD.
    destruct (save_synced s (if bool_decide (delete t rep = ∅) then delete r (Repositories s) else <[r := delete t rep]> (Repositories s)) Hs) as (s1 & Hsv & _ & HR & _).
    rewrite Hsv in HD. injection HD as ->. rewrite HR. intros Hn. assert (r' <> r) by congruence. case_bool_decide; by rewrite ?lookup_delete_ne, ?lookup_insert_ne.
  - intros r' t'. rewrite Hr. destruct (decide (r' = r /\ t' = t)) as [[-> ->]|Hn]; [by rewrite decide_True by by left|].
    case_decide as Hin; [|done]. apply list_elem_of_singleton in Hin. destruct (tag_of s r' t') as [i|] eqn:Hi; [|done].
    exfalso. apply Hn. pose proof (Hw _ _ _ Hi) as [_ Hv']. pose proof (Hw _ _ _ Ht) as [_ Hv].
    apply (f_equal ParseRepositoryTag) in Hin. rewrite !parse_name in Hin by done. by injection Hin as -> ->.
Qed.

(** What [repo_tags] answers for the names of an image. *)
Lemma repo_tags_spec name force names : forall repo tags repo' tags',
  (forall n, n ∈ names -> exists r t, n = r +:+ ":" +:+ t /\ r <> "" /\ is_ok (validateTagName t) = true) ->
  repo_tags name force names repo tags = Ok (repo', tags') ->
  (forall t, t ∈ tags' -> t ∈ tags \/ t <> "") /\ (length tags <= length tags')%nat /\
  (repo <> "" -> repo' = repo) /\ (repo = "" -> names <> [] -> repo' <> "" /\ tags' <> []) /\ (names = [] -> repo' = repo /\ tags' = tags).
Proof.
  induction names as [|n names IH]; intros repo tags repo' tags' Hn; cbn [repo_tags].
  { intros [= -> ->]. by split_and!; auto. }
  destruct (Hn n) as (r & t & -> & Hr & Hv); [by left|]. rewrite parse_name by done.
  assert (forall n, n ∈ names -> exists r t, n = r +:+ ":" +:+ t /\ r <> "" /\ is_ok (validateTagName t) = true) as Hn' by (intros m Hm; apply Hn; by right).
  pose proof (valid_tag_colon t Hv) as (Hne & _). destruct (String.eqb_spec t ""); [done|].
  destruct (String.eqb repo "" || String.eqb repo r) eqn:E; [|destruct (negb force); [done|]; intros H].
  - intros H. destruct (IH _ _ _ _ Hn' H) as (H1 & H2 & H3 & _ & _). rewrite length_app in H2. simpl in H2. split_and!; [|lia|..|done].
    + intros x [[? | ->%list_elem_of_singleton]%elem_of_app|?]%H1; auto.
    + intros Hrepo. apply orb_true_iff in E as [E%String.eqb_eq| ->%String.eqb_eq]; [done|by apply H3].
    + intros _ _. rewrite (H3 Hr). split; [done|]. intros ->. simpl in H2. lia.
  - apply orb_false_iff in E as [E1%String.eqb_neq _]. destruct (IH _ _ _ _ Hn' H) as (H1 & H2 & H3 & _ & _). by split_and!.
Qed.

Section ImageDeleteLemmas.
Context {T D L : Type} {HT : Trie T} {HD : GraphDriver D L}.
Context (Root : list string) (layer_size : L -> option L -> Z).
Context (order : forall V, gmap string V -> list (string * V)) (readdir : Graph T D -> list string) (history : nat).
Context (root_plain : plain Root) (layer_size_nonneg : forall l p, 0 <= layer_size l p) (order_perm : forall V (m : gmap string V), order V m ≡ₚ map_to_list m).
Context (readdir_lists : forall g, good Root g -> lists Root g (readdir g)).
Implicit Types (w : World T D) (g : Graph T D).

#[local] Abbreviation get := (Images.Get Root layer_size).
#[local] Abbreviation lineage_of := (lineage Root layer_size).

Lemma untag_spec repo id tags : forall b w w' r, synced (store w) -> names_wf (store w) -> (forall t, t ∈ tags -> t <> "") ->
  untag repo id tags b w = (w', r) ->
  exists u, graph w' = graph w /\ untagged u (store w) (store w') /\
    imgs w' = imgs w ++ (pair "Untagged" <$> u) /\ events w' = events w ++ ((fun _ => ("untag", id)) <$> u) /\ (tags = [] -> u = []).
Proof.
  induction tags as [|t tags IH]; intros b w w' r Hs Hw Hne; cbn [untag].
  { intros [= <- <-]. exists []. cbn. rewrite !app_nil_r. split; [done|]. split; [by apply untagged_nil|]. done. }
  pose proof (Delete_untagged (store w) repo t Hs Hw ltac:(apply Hne; by left)) as Hd.
  destruct (Tags.Delete repo t (store w)) as [s [b'|e]].
  - destruct Hd as [-> Hu]. pose proof Hu as [Hs' _]. intros H.
    destruct (IH _ (report (with_store w s) "Untagged" (repo +:+ ":" +:+ t) ("untag", id)) w' r Hs' (untagged_wf _ _ _ Hu Hw) ltac:(intros x Hx; apply Hne; by right) H)
      as (u & Hg & Hu2 & Hi & He & _).
    exists ((repo +:+ ":" +:+ t) :: u). split; [by rewrite Hg|]. split; [by apply (untagged_app [_] u _ s)|]. split; [|split; [|done]].
    + rewrite Hi. cbn. by rewrite <- app_assoc.
    + rewrite He. cbn. by rewrite <- app_assoc.
  - subst s. intros [= <- <-]. exists []. cbn. rewrite !app_nil_r. split; [done|]. split; [by apply untagged_nil|]. done.
Qed.

(** *** Finding images *)

Lemma with_store_same w : with_store w (store w) = w.
Proof. by destruct w. Qed.

Lemma lookup_image_synced w name : synced (store w) -> (lookup_image Root layer_size order w name).1 = w.
Proof.
  intros Hs. unfold lookup_image. pose proof (LookupImage_synced (H := graph_store Root layer_size (graph w)) order (store w) name Hs) as H.
  destruct (Tags.LookupImage _ _ _) as [s r]. simpl in *. subst s. apply with_store_same.
Qed.

(** Whatever is found is in the graph. *)
Lemma lookup_image_found w name img : good Root (graph w) -> synced (store w) -> (lookup_image Root layer_size order w name).2 = Ok img ->
  ID img ∈ ids (idIndex (graph w)) /\ stored Root (graph w) (ID img) img /\ get (graph w) (ID img) = Ok img.
Proof.
  intros Hg Hs. pose proof (good_consistent _ _ Hg) as Hc.
  assert (forall n, get (graph w) n = Ok img -> ID img ∈ ids (idIndex (graph w)) /\ stored Root (graph w) (ID img) img /\ get (graph w) (ID img) = Ok img) as Hget.
  { intros n (_ & H1 & H2 & _)%(Get_spec _ _ root_plain _ _ _ Hc). split; [done|]. split; [done|]. by apply (Get_whole _ _ root_plain). }
  unfold lookup_image, Tags.LookupImage. destruct (ParseRepositoryTag name) as [repo tag]. rewrite GetImage_synced by done. cbn [snd].
  destruct (Repositories (store w) !! repo) as [rep|]; [|apply Hget].
  destruct (rep !! _) as [id|].
  - cbn. destruct (get (graph w) id) as [i|] eqn:E; [|done]. cbn. intros [= ->]. by apply (Hget id).
  - destruct (find_revision _ _ _) as [id|]; [|apply Hget]. cbn. destruct (get (graph w) id) as [i|] eqn:E; [|done]. cbn. intros [= ->]. by apply (Hget id).
Qed.

(** An identifier that is no name of a repository is looked up in the graph. *)
Lemma lookup_image_id w id : synced (store w) -> id_ok id -> Repositories (store w) !! id = None ->
  lookup_image Root layer_size order w id = (w, get (graph w) id).
Proof.
  intros Hs Hid Hn. pose proof (id_ok_plain _ Hid) as (_ & Hco & _).
  unfold lookup_image, Tags.LookupImage. rewrite ParseRepositoryTag_plain, GetImage_synced, Hn by done. cbn. by rewrite with_store_same.
Qed.

Lemma names_of_image_spec w id n : n ∈ names_of_image order w id <-> exists r t, n = r +:+ ":" +:+ t /\ tag_of (store w) r t = Some id.
Proof. apply (ByID_spec order order_perm). Qed.

Lemma DeleteAll_unnamed w id : names_of_image order w id = [] -> DeleteAll order id (store w) = (store w, Ok ()).
Proof. unfold names_of_image, DeleteAll. destruct (ByID order (store w) !! id) as [l|]; [|done]. cbn. by intros ->. Qed.

(** *** Containers *)

(** The container keeps the image: it uses it or a descendant of it, and runs
    or the deletion is not forced - or its own image is gone. *)
Definition keeps g (force : bool) (id : string) (c : Names.Container) : Prop :=
  match get g (Names.Image c) with
  | Err _ => True
  | Ok img => exists l, lineage_of g img l /\ id ∈ ID <$> l /\ (IsRunning (Names.state c) = true \/ force = false)
  end.

(** Containers name their image by its identifier, as they are created with. *)
Definition containers_ok (s : TagStore) (cs : list Names.Container) : Prop :=
  forall c, c ∈ cs -> id_ok (Names.Image c) /\ Repositories s !! Names.Image c = None.

Lemma conflict_step id force m c u p :
  is_ok (container_conflict id force m c u p) = negb (String.eqb id (ID p) && (IsRunning (Names.state c) || negb force)).
Proof. unfold container_conflict. by destruct (String.eqb id (ID p)), (IsRunning (Names.state c)), force. Qed.

Lemma conflict_fold id force m c l :
  let used := id ∈ ID <$> l /\ (IsRunning (Names.state c) = true \/ force = false) in
  match result_foldl (container_conflict id force m c) () l with Ok _ => ~ used | Err _ => used end.
Proof.
  cbv zeta. induction l as [|p l IH]; [simpl; by intros [[]%not_elem_of_nil _]|]. cbn [result_foldl fmap list_fmap].
  pose proof (conflict_step id force m c () p) as Hs.
  destruct (container_conflict id force m c () p) as [[]|e]; cbn [mbind result_bind is_ok] in *.
  - destruct (result_foldl _ _ l); rewrite elem_of_cons; destruct (String.eqb_spec id (ID p)), (IsRunning (Names.state c)), force; simpl in Hs; naive_solver.
  - rewrite elem_of_cons. destruct (String.eqb_spec id (ID p)), (IsRunning (Names.state c)), force; simpl in Hs; naive_solver.
Qed.

Lemma lineage_unique g img l : lineage_of g img l -> forall k, lineage_of g img k -> k = l.
Proof.
  induction 1 as [img He|img p l Hne Hget _ IH]; intros k Hk; inversion Hk as [|? p' k' Hne' Hget' Hk']; subst; try done. f_equal. apply IH.
  rewrite Hget in Hget'. by injection Hget' as ->.
Qed.

Lemma canDeleteImage_spec cs id force b w : good Root (graph w) -> synced (store w) -> containers_ok (store w) cs ->
  (size (ids (idIndex (graph w))) <= history)%nat ->
  exists r, canDeleteImage Root layer_size order history cs w id force b = Return (w, r) /\
    match r with Ok _ => forall c, c ∈ cs -> ~ keeps (graph w) force id c | Err _ => exists c, c ∈ cs /\ keeps (graph w) force id c end.
Proof.
  intros Hg Hs Hcs Hh. unfold canDeleteImage. generalize (if b then " (docker untagged the image)" else ""). intros m.
  induction cs as [|c cs IH]; [exists (Ok ()); split; [done|]; by intros c []%not_elem_of_nil|].
  cbn [canDeleteImage_loop]. destruct (Hcs c ltac:(by left)) as [Hid Hn]. rewrite lookup_image_id by done.
  assert (containers_ok (store w) cs) as Hcs' by (intros c' Hc'; apply Hcs; by right).
  destruct (get (graph w) (Names.Image c)) as [img|e] eqn:E.
  - pose proof (good_consistent _ _ Hg) as Hc. pose proof E as (_ & H1 & H2 & _)%(Get_spec _ _ root_plain _ _ _ Hc).
    destruct (lineage_exists Root layer_size root_plain (graph w) (ID img) img Hg H2 H1) as [l Hl].
    pose proof (lineage_length Root layer_size root_plain _ _ _ _ Hg H2 H1 Hl) as Hlen.
    rewrite (WalkHistory_lineage Root layer_size _ _ _ _ Hl) by lia. cbn [mbind outcome_bind].
    pose proof (conflict_fold id force m c l) as Hcf.
    assert (keeps (graph w) force id c <-> id ∈ ID <$> l /\ (IsRunning (Names.state c) = true \/ force = false)) as Hk.
    { unfold keeps. rewrite E. split; [intros (k & Hk & H); by rewrite <- (lineage_unique _ _ _ Hl _ Hk)|intros H; by exists l]. }
    destruct (result_foldl _ _ _) as [u|e]; cbv zeta in Hcf; rewrite <- Hk in Hcf.
    + destruct (IH Hcs') as (r & -> & Hr). exists r. split; [done|]. destruct r as [[]|e].
      * by intros c' [->|Hc']%elem_of_cons; [|apply Hr].
      * destruct Hr as (c' & Hc' & H). exists c'. split; [by right|done].
    + exists (Err e). split; [done|]. exists c. split; [by left|done].
  - exists (Err e). split; [done|]. exists c. split; [by left|]. unfold keeps. by rewrite E.
Qed.

(** *** One image *)

Record ready w (cs : list Names.Container) : Prop := {
  ready_graph : good Root (graph w);
  ready_store : synced (store w);
  ready_names : names_wf (store w);
  ready_ids : forall id, id ∈ ids (idIndex (graph w)) -> Repositories (store w) !! id = None;
  ready_containers : containers_ok (store w) cs }.

(** Why an image stays. *)
Definition needed (cs : list Names.Container) (force : bool) (io : Disk_io) g (s : TagStore) (id : string) : Prop :=
  (exists r t, tag_of s r t = Some id) \/ (exists c, parent_of Root g id c) \/ (exists c, c ∈ cs /\ keeps g force id c) \/ is_Some (mktemp_err io).

Definition untags w w' (u : list string) (id : string) : Prop :=
  graph w' = graph w /\ untagged u (store w) (store w') /\
  imgs w' = imgs w ++ (pair "Untagged" <$> u) /\ events w' = events w ++ ((fun _ => ("untag", id)) <$> u).

Lemma untags_nil w id : synced (store w) -> untags w w [] id.
Proof. intros Hs. split; [done|]. split; [by apply untagged_nil|]. cbn. by rewrite !app_nil_r. Qed.

Lemma no_such_image_spec w name repo tag : synced (store w) -> exists e, no_such_image w name repo tag = (w, Err e).
Proof.
  intros Hs. unfold no_such_image, Tags.Get. rewrite reload_synced by done. rewrite with_store_same.
  destruct (Repositories (store w) !! repo); by eexists.
Qed.

Lemma names_of_image_wf w id n : names_wf (store w) -> n ∈ names_of_image order w id -> exists r t, n = r +:+ ":" +:+ t /\ r <> "" /\ is_ok (validateTagName t) = true.
Proof. intros Hw (r & t & -> & Ht)%names_of_image_spec. exists r, t. split; [done|]. by apply (Hw r t id). Qed.

(** Deleting the tags the call chose. *)
Lemma choose_tags cs force name first w img repo tag :
  ready w cs -> tag <> "" ->
  match (if String.eqb repo "" then repo_tags name force (names_of_image order w (ID img)) "" [] else Ok (repo, [tag])) with
  | Err e => first = false -> exists r t, tag_of (store w) r t = Some (ID img)
  | Ok (repo', tags) => (forall t, t ∈ tags -> t <> "") /\ (repo' = "" -> names_of_image order w (ID img) = []) /\
      (tags <> [] -> repo = "" -> exists r t, tag_of (store w) r t = Some (ID img)) /\ (repo <> "" -> tags = [tag])
  end.
Proof.
  intros Hr Htag. assert (names_of_image order w (ID img) <> [] -> exists r t, tag_of (store w) r t = Some (ID img)) as Hnm.
  { destruct (names_of_image order w (ID img)) as [|n l] eqn:E; [done|]. intros _.
    destruct (proj1 (names_of_image_spec w (ID img) n) ltac:(rewrite E; by left)) as (r & t & _ & H). by exists r, t. }
  destruct (String.eqb_spec repo "") as [->|Hne].
  - destruct (repo_tags _ _ _ _ _) as [[repo' tags]|e] eqn:E.
    + destruct (repo_tags_spec _ _ _ _ _ _ _ (fun n Hn => names_of_image_wf w _ n (ready_names _ _ Hr) Hn) E) as (H1 & _ & _ & H4 & H5). split_and!.
      * intros t [[]%not_elem_of_nil|?]%H1. done.
      * intros ->. destruct (names_of_image order w (ID img)); [done|]. by destruct H4.
      * intros Ht _. apply Hnm. intros H. by destruct (H5 H) as [_ ->].
      * done.
    + intros _. apply Hnm. by intros H; rewrite H in E.
  - split_and!; [by intros t ->%list_elem_of_singleton|done..|]. done.
Qed.
Lemma contains_refl x : contains x x = true.
Proof. destruct x; [done|]. cbn [contains]. by rewrite has_prefix_refl. Qed.

Lemma childless_byParents g id : good Root g ->
  match default [] (ByParent Root layer_size g (readdir g) !! id) with [] => forall c, ~ parent_of Root g id c | _ => exists c, parent_of Root g id c end.
Proof.
  intros Hg. pose proof (ByParent_children Root layer_size root_plain g (readdir g) id Hg (readdir_lists g Hg)) as H.
  destruct (ByParent _ _ _ _ !! id) as [[|c l]|]; simpl; [by destruct H|destruct H as [_ H]; exists (ID c); by apply H; left|done].
Qed.

Lemma Delete_works g io id img : good Root g -> id ∈ ids (idIndex g) -> stored Root g id img -> rename_err io = None -> mktemp_err io = None ->
  Images.Delete Root g io id = ((Images.Delete Root g io id).1, Ok ()).
Proof.
  intros Hg Hin Hs Hr Hm. pose proof (good_consistent _ _ Hg) as Hc. pose proof (index_ok _ _ Hc _ Hin) as Hid.
  unfold Images.Delete. assert (Get_id id (idIndex g) = Ok id) as ->.
  { apply (Get_id_spec _ _ _ (index_wf _ _ Hc)). split_and!; [by intros ->; destruct Hid|done|apply has_prefix_refl|].
    intros x Hx Hp. symmetry. apply id_ok_prefix; [done| |done]. by apply (index_ok _ _ Hc). }
  rewrite Hm, Hr. cbn [roots with_index]. rewrite ImageRoot_plain by (done || apply id_ok_plain, Hid). unfold stored in Hs. by rewrite Hs.
Qed.

(** What follows once an image is deleted. *)
Definition prune (fuel : nat) io cs (first force noprune : bool) (img : Image) w : outcome (World T D * result string ()) :=
  if negb (String.eqb (Parent img) "") && negb noprune then
    '(w, r) ← DeleteImage Root layer_size order readdir history fuel io cs (Parent img) false force noprune w;
    Return (w, if first then r else Ok ())
  else Return (w, Ok ()).

Definition delete_report w g1 (id : string) : World T D := report (with_graph w g1) "Deleted" id ("delete", id).

Lemma DeleteImage_head n io cs name first force noprune w :
  ready w cs -> (size (ids (idIndex (graph w))) <= history)%nat -> rename_err io = None -> (first = true \/ name ∈ ids (idIndex (graph w))) ->
  match (lookup_image Root layer_size order w name).2 with
  | Err _ => exists e, DeleteImage Root layer_size order readdir history (S n) io cs name first force noprune w = Return (w, Err e)
  | Ok img => exists u w1, untags w w1 u (ID img) /\ (first = false -> u = []) /\
      ((exists r, DeleteImage Root layer_size order readdir history (S n) io cs name first force noprune w = Return (w1, r) /\
          (first = true /\ is_ok r = false \/ needed cs force io (graph w) (store w1) (ID img))) \/
       (exists g1, Images.Delete Root (graph w) io (ID img) = (g1, Ok ()) /\ (forall c, ~ parent_of Root (graph w) (ID img) c) /\
          (forall r t, tag_of (store w1) r t <> Some (ID img)) /\ (forall c, c ∈ cs -> ~ keeps (graph w) force (ID img) c) /\
          DeleteImage Root layer_size order readdir history (S n) io cs name first force noprune w =
            prune n io cs first force noprune img (delete_report w1 g1 (ID img))))
  end.
Proof.
  intros Hr Hh Hio Hname. pose proof Hr as [Hg Hs Hw Hids Hcs]. cbn [DeleteImage].
  pose proof (lookup_image_synced w name Hs) as Hl1. pose proof (fun i => lookup_image_found w name i Hg Hs) as Hl2.
  assert (first = true \/ forall i, (lookup_image Root layer_size order w name).2 = Ok i -> contains name (ID i) = true) as Hcont.
  { destruct Hname as [|Hin]; [by left|]. right. intros i Hi. pose proof (index_ok _ _ (good_consistent _ _ Hg) _ Hin) as Hid.
    rewrite lookup_image_id in Hi by auto. apply (Get_id_ok Root layer_size root_plain _ _ _ (good_consistent _ _ Hg) Hid) in Hi as ->. apply contains_refl. }
  destruct (ParseRepositoryTag name) as [repo tag]. set (tag' := if String.eqb tag "" then DEFAULTTAG else tag).
  assert (tag' <> "") as Htag by (unfold tag'; by destruct (String.eqb_spec tag "")).
  destruct (lookup_image Root layer_size order w name) as [w0 [img|e]]; simpl in Hl1; subst w0; cbn [snd] in *.
  2: { destruct (no_such_image_spec w name repo tag' Hs) as [e' ->]. by exists e'. }
  destruct (Hl2 img eq_refl) as (Hin & Hst & Hget). clear Hl2.
  set (repo0 := if contains name (ID img) then "" else repo).
  assert (first = true \/ repo0 = "") as Hrepo0.
  { destruct Hcont as [|Hc]; [by left|]. right. unfold repo0. by rewrite (Hc img). }
  pose proof (choose_tags cs force name first w img repo0 tag' Hr Htag) as Hch.
  destruct (if String.eqb repo0 "" then _ else _) as [[repo' tags]|e].
  2: { exists [], w. split; [by apply untags_nil|]. split; [done|]. left. exists (Err e). split; [done|].
       destruct first; [by left|]. right. by left; apply Hch. }
  destruct Hch as (Hne & Hnm & Htags & Hr0).
  destruct (negb first && negb (bool_decide (tags = []))) eqn:Hf.
  { apply andb_true_iff in Hf as [Hf Ht]. destruct first; [done|]. apply negb_true_iff, bool_decide_eq_false in Ht.
    exists [], w. split; [by apply untags_nil|]. split; [done|]. left. exists (Ok ()). split; [done|]. right. left. apply Htags; [done|]. by destruct Hrepo0. }
  destruct (untag repo' (ID img) tags false w) as [w1 b] eqn:Hu.
  destruct (untag_spec _ _ _ _ _ _ _ Hs Hw Hne Hu) as (u & Hgw & Hun & Hi & He & Hnil). exists u, w1. split; [done|]. split.
  { intros ->. simpl in Hf. apply negb_false_iff, bool_decide_eq_true in Hf. by apply Hnil. }
  destruct b as [b|e]; [|left; exists (Err e); split; [done|]; left; split; [|done]; destruct first; [done|];
    simpl in Hf; apply negb_false_iff, bool_decide_eq_true in Hf as ->; by injection Hu].
  assert (repo' = "" -> names_of_image order w1 (ID img) = []) as Hnm1.
  { intros H. destruct (names_of_image order w1 (ID img)) as [|n1 l1] eqn:E1; [done|]. exfalso.
    destruct (proj1 (names_of_image_spec w1 (ID img) n1) ltac:(rewrite E1; by left)) as (r & t & _ & Ht).
    destruct Hun as (_ & _ & Hun). rewrite Hun in Ht. case_decide; [done|].
    assert (r +:+ ":" +:+ t ∈ names_of_image order w (ID img)) as Hin' by (apply names_of_image_spec; by exists r, t). rewrite (Hnm H) in Hin'. by apply not_elem_of_nil in Hin'. }
  pose proof (childless_byParents (graph w) (ID img) Hg) as Hch. fold (names_of_image order w1 (ID img)).
  destruct (names_of_image order w1 (ID img)) as [|n1 l1] eqn:E1.
  2: { rewrite (bool_decide_eq_false_2 (n1 :: l1 = [])) by done. destruct (String.eqb_spec repo' "") as [H|_]; [specialize (Hnm1 H); congruence|].
       rewrite andb_false_r. left. exists (Ok ()). split; [done|]. right. left.
       destruct (proj1 (names_of_image_spec w1 (ID img) n1) ltac:(rewrite E1; by left)) as (r & t & _ & Ht). by exists r, t. }
  rewrite (bool_decide_eq_true_2 (@nil string = [])), orb_true_r by done.
  destruct (default [] (ByParent Root layer_size (graph w) (readdir (graph w)) !! ID img)) as [|c l].
  2: { rewrite bool_decide_eq_false_2 by done. left. exists (Ok ()). split; [done|]. right. right. by left. }
  rewrite bool_decide_eq_true_2 by done. cbn [andb].
  pose proof Hun as (Hs1 & Hnone & Htag1).
  assert (containers_ok (store w1) cs) as Hcs1 by (intros c Hc; destruct (Hcs c Hc) as [? ?]; auto).
  destruct (canDeleteImage_spec cs (ID img) force b w1) as (r & -> & Hcan); [by rewrite Hgw|done|done|by rewrite Hgw|].
  cbn [mbind outcome_bind]. destruct r as [[]|e].
  2: { left. exists (Err e). split; [done|]. right. right. right. left. rewrite Hgw in Hcan. done. }
  rewrite DeleteAll_unnamed, with_store_same by done. rewrite Hgw in Hcan |- *.
  destruct (Images.Delete Root (graph w) io (ID img)) as [g1 [[]|e]] eqn:HDel.
  - right. exists g1. split; [done|]. split; [done|]. split; [|by split].
    intros r t Ht. assert (r +:+ ":" +:+ t ∈ names_of_image order w1 (ID img)) as Hx by (apply names_of_image_spec; by exists r, t).
    rewrite E1 in Hx. by apply not_elem_of_nil in Hx.
  - left. exists (Err e). assert (with_graph w1 g1 = w1) as ->.
    { apply (Delete_cases Root root_plain _ _ _ _ _ (good_consistent _ _ Hg)) in HDel. rewrite HDel by done. rewrite <- Hgw. by destruct w1. }
    split; [done|]. right. right. right. right. destruct (mktemp_err io) eqn:Hm; [by eexists|].
    by rewrite (Delete_works _ _ _ _ Hg Hin Hst Hio Hm) in HDel.
Qed.
(** *** A line of images *)

(** [g'] is [g] without the images [del]; the other images have their
    directories, layers and ancestors, and so do containers that run, or all
    of them if nothing was forced. *)
Record deletes (cs : list Names.Container) (force : bool) g g' (del : list string) : Prop := {
  del_good : good Root g';
  del_ids : ids (idIndex g') = ids (idIndex g) ∖ list_to_set del;
  del_there : forall x, x ∈ del -> x ∈ ids (idIndex g);
  del_same : forall x, plain_elem x -> roots g' !! (Root ++ [x]) = (if decide (x ∈ del) then None else roots g !! (Root ++ [x])) /\
    layer_of (driver g') x = (if decide (x ∈ del) then None else layer_of (driver g) x);
  del_containers : forall c img l, c ∈ cs -> IsRunning (Names.state c) = true \/ force = false -> id_ok (Names.Image c) ->
    get g (Names.Image c) = Ok img -> lineage_of g img l -> get g' (Names.Image c) = Ok img /\ lineage_of g' img l }.

Lemma deletes_nil cs force g : good Root g -> deletes cs force g g [].
Proof.
  intros Hg. split; [done|set_solver|by intros x []%not_elem_of_nil|..|done].
  intros x _. by rewrite !decide_False by apply not_elem_of_nil.
Qed.

Lemma deletes_app cs force g g1 g2 d1 d2 : deletes cs force g g1 d1 -> deletes cs force g1 g2 d2 -> deletes cs force g g2 (d1 ++ d2).
Proof.
  intros [A1 A2 A3 A4 A5] [B1 B2 B3 B4 B5]. split; [done|rewrite B2, A2; set_solver|..].
  - intros x [?|H]%elem_of_app; [auto|]. apply B3 in H. rewrite A2 in H. set_solver.
  - intros x Hx. destruct (A4 x Hx) as [E1 E2], (B4 x Hx) as [F1 F2]. rewrite F1, F2, E1, E2.
    destruct (decide (x ∈ d2)); [by rewrite !decide_True by (apply elem_of_app; by right)|].
    destruct (decide (x ∈ d1)); [by rewrite !decide_True by (apply elem_of_app; by left)|].
    rewrite !decide_False by (by intros [?|?]%elem_of_app). done.
  - intros c img l Hc Hu Hi Hget Hl. destruct (A5 c img l Hc Hu Hi Hget Hl) as [Hget' Hl']. by apply (B5 c img l).
Qed.

(** Deleting one image keeps the others and their lines. *)
Lemma get_kept g g1 d x img : good Root g -> good Root g1 -> unchanged_but Root g g1 d -> ids (idIndex g1) = ids (idIndex g) ∖ {[d]} ->
  id_ok x -> x <> d -> get g x = Ok img -> get g1 x = Ok img.
Proof.
  intros Hg Hg1 Hu Hi Hx Hne Hget. pose proof (Get_id_ok Root layer_size root_plain _ _ _ (good_consistent _ _ Hg) Hx Hget) as He.
  apply (Get_spec _ _ root_plain _ _ _ (good_consistent _ _ Hg)) in Hget as (_ & Hs & Hin & _). rewrite He in *.
  apply (Get_whole _ _ root_plain); [by apply good_consistent|rewrite Hi; set_solver|]. unfold stored in *.
  by destruct (Hu x) as [-> _]; [by apply id_ok_plain| |].
Qed.

Lemma lineage_kept g g1 d img l : good Root g -> good Root g1 -> unchanged_but Root g g1 d -> ids (idIndex g1) = ids (idIndex g) ∖ {[d]} ->
  lineage_of g img l -> ID img ∈ ids (idIndex g) -> stored Root g (ID img) img -> d ∉ ID <$> l -> lineage_of g1 img l.
Proof.
  intros Hg Hg1 Hu Hi. induction 1 as [img He|img p l Hne Hget Hl IH]; intros Hin Hs Hd; [by constructor|].
  pose proof (Get_parent Root layer_size root_plain g img Hg Hin Hs) as Hp. rewrite Hget in Hp. destruct Hp as [Hpe Hpo].
  pose proof Hget as (_ & Hps & Hpin & _)%(Get_spec _ _ root_plain _ _ _ (good_consistent _ _ Hg)).
  cbn [fmap list_fmap] in Hd. apply not_elem_of_cons in Hd as [_ Hd].
  apply lineage_step with p; [done| |by apply IH]. apply (get_kept g g1 d); try done.
  - rewrite <- Hpe. by apply (index_ok _ _ (good_consistent _ _ Hg)).
  - rewrite <- Hpe. intros <-. apply Hd. inversion Hl; by left.
Qed.

Lemma deletes_one cs force io g g1 img : good Root g -> rename_err io = None -> ID img ∈ ids (idIndex g) ->
  (forall c, ~ parent_of Root g (ID img) c) -> (forall c, c ∈ cs -> ~ keeps g force (ID img) c) ->
  Images.Delete Root g io (ID img) = (g1, Ok ()) -> deletes cs force g g1 [ID img].
Proof.
  intros Hg Hio Hin Hch Hk HD'. destruct (Delete_good Root layer_size root_plain layer_size_nonneg g io img g1 _ Hg Hio Hin Hch HD') as (Hg1 & Hu & Hi).
  apply (Delete_cases Root root_plain g io _ _ _ (good_consistent _ _ Hg)) in HD' as (id & Hid & Hp & _ & _ & Hi' & Hro & Hla).
  assert (id = ID img) as -> by (symmetry; apply id_ok_prefix; [by apply (index_ok _ _ (good_consistent _ _ Hg))..|done]).
  split; [done|rewrite Hi; set_solver|by intros x ->%list_elem_of_singleton|..].
  - intros x Hx. destruct (decide (x = ID img)) as [->|Hne]; [by rewrite !decide_True by (by left)|].
    rewrite !decide_False by (by intros ?%list_elem_of_singleton). by apply Hu.
  - intros c i l Hc Hru Hok Hget Hl. assert (ID img ∉ ID <$> l) as Hni.
    { intros Hx. apply (Hk c Hc). unfold keeps. rewrite Hget. by exists l. }
    pose proof Hget as (_ & Hs & Hii & _)%(Get_spec _ _ root_plain _ _ _ (good_consistent _ _ Hg)).
    split; [|by apply (lineage_kept g g1 (ID img))]. apply (get_kept g g1 (ID img)); try done.
    pose proof (Get_id_ok Root layer_size root_plain _ _ _ (good_consistent _ _ Hg) Hok Hget) as He. intros E. apply Hni. rewrite <- E, <- He. inversion Hl; by left.
Qed.
Lemma ready_untagged w w1 u id cs : ready w cs -> untags w w1 u id -> ready w1 cs.
Proof.
  intros [Hg Hs Hw Hi Hc] (Hgr & Hu & _). pose proof Hu as (Hs1 & Hn & _). split; [by rewrite Hgr|done|by apply (untagged_wf u (store w))|..].
  - rewrite Hgr. auto.
  - intros c Hin. destruct (Hc c Hin). auto.
Qed.

Lemma ready_deleted w g1 id cs force del : ready w cs -> deletes cs force (graph w) g1 del -> ready (delete_report w g1 id) cs.
Proof.
  intros [Hg Hs Hw Hi Hc] Hd. split; [by apply (del_good _ _ _ _ _ Hd)|done|done|..|done].
  intros x. simpl. rewrite (del_ids _ _ _ _ _ Hd). intros [Hx _]%elem_of_difference. by apply Hi.
Qed.

(** Nothing keeps the images [del]: their children are among them, and no
    container needs them. *)
Definition unneeded (cs : list Names.Container) (force : bool) g (del : list string) : Prop :=
  forall id, id ∈ del -> (forall c, parent_of Root g id c -> c ∈ del) /\ forall c, c ∈ cs -> ~ keeps g force id c.

Lemma keeps_kept cs force g g1 d id c : good Root g -> good Root g1 -> deletes cs force g g1 [d] -> c ∈ cs -> id_ok (Names.Image c) ->
  keeps g force id c -> keeps g1 force id c.
Proof.
  intros Hg Hg1 Hd Hc Hok. unfold keeps. destruct (get g1 (Names.Image c)) as [i|] eqn:E1; [|done].
  pose proof (Get_id_ok Root layer_size root_plain _ _ _ (good_consistent _ _ Hg1) Hok E1) as He.
  apply (Get_spec _ _ root_plain _ _ _ (good_consistent _ _ Hg1)) in E1 as (_ & Hs & Hin & _). rewrite He in Hs, Hin.
  rewrite (del_ids _ _ _ _ _ Hd) in Hin. apply elem_of_difference in Hin as [Hin Hne].
  destruct (del_same _ _ _ _ _ Hd (Names.Image c)) as [Hro _]; [by apply id_ok_plain|]. rewrite decide_False in Hro by set_solver.
  assert (get g (Names.Image c) = Ok i) as E by (apply (Get_whole _ _ root_plain); [by apply good_consistent|done|unfold stored in *; by rewrite <- Hro]).
  rewrite E. intros (l & Hl & Hid & Hu). exists l. split; [|done].
  by destruct (del_containers _ _ _ _ _ Hd c i l Hc Hu Hok E Hl).
Qed.

Lemma unneeded_cons cs force g g1 d del : good Root g -> good Root g1 -> deletes cs force g g1 [d] -> (forall c, c ∈ cs -> id_ok (Names.Image c)) ->
  unneeded cs force g [d] -> unneeded cs force g1 del -> unneeded cs force g (d :: del).
Proof.
  intros Hg Hg1 Hd Hcs H1 H2 id [->|Hid]%elem_of_cons.
  - destruct (H1 d) as [Ha Hb]; [by left|]. split; [|done]. intros c Hc%Ha. set_solver.
  - destruct (H2 id Hid) as [Ha Hb]. split.
    + intros c (i & Hin & Hs & Hp). destruct (decide (c = d)) as [->|Hne]; [by left|]. right. apply Ha. exists i.
      destruct (del_same _ _ _ _ _ Hd c) as [Hro _]; [by apply id_ok_plain, (index_ok _ _ (good_consistent _ _ Hg))|].
      rewrite decide_False in Hro by set_solver. split; [rewrite (del_ids _ _ _ _ _ Hd); set_solver|]. split; [|done].
      unfold stored in *. by rewrite Hro.
    + intros c Hc Hk. apply (Hb c Hc). by apply (keeps_kept cs force g g1 d); auto.
Qed.

(** Where the line of deleted images ends. *)
Definition line_end (cs : list Names.Container) (first force noprune : bool) io w' (r : result string ()) (del k : list string) : Prop :=
  noprune = true /\ length del = 1%nat \/
  noprune = false /\ k = [] \/
  exists x k', k = x :: k' /\ (del = [] /\ first = true /\ is_ok r = false \/ (noprune = true -> del = []) /\ needed cs force io (graph w') (store w') x).

Definition delete_result io (cs : list Names.Container) (name : string) (first force noprune : bool) w w' (r : result string ()) (u del : list string) : Prop :=
  ready w' cs /\ deletes cs force (graph w) (graph w') del /\ untagged u (store w) (store w') /\ (first = false -> u = []) /\
  imgs w' = imgs w ++ (pair "Untagged" <$> u) ++ (pair "Deleted" <$> del) /\
  (forall id r t, id ∈ del -> tag_of (store w') r t <> Some id) /\ unneeded cs force (graph w) del /\
  match (lookup_image Root layer_size order w name).2 with
  | Err _ => w' = w /\ is_ok r = false /\ u = [] /\ del = []
  | Ok img => events w' = events w ++ ((fun _ => ("untag", ID img)) <$> u) ++ (pair "delete" <$> del) /\
      exists l k, lineage_of (graph w) img l /\ ID <$> l = del ++ k /\ line_end cs first force noprune io w' r del k
  end.
#[local] Abbreviation delete_image := (DeleteImage Root layer_size order readdir history).

Lemma lineage_parent g img p : good Root g -> ID img ∈ ids (idIndex g) -> stored Root g (ID img) img -> get g (Parent img) = Ok p ->
  Parent img = ID p /\ parent_of Root g (Parent img) (ID img) /\ id_ok (Parent img).
Proof.
  intros Hg Hin Hs Hget. pose proof (Get_parent Root layer_size root_plain g img Hg Hin Hs) as Hp. rewrite Hget in Hp. destruct Hp as [<- Hp].
  split; [done|]. split; [done|]. apply (index_ok _ _ (good_consistent _ _ Hg)). by apply (good_parents _ _ Hg _ _ Hp).
Qed.

Lemma unnamed_untagged u s s' id : untagged u s s' -> (forall r t, tag_of s r t <> Some id) -> forall r t, tag_of s' r t <> Some id.
Proof. intros (_ & _ & H) Hn r t. rewrite H. case_decide; [done|]. apply Hn. Qed.

(** An image that is deleted, and then its parent. *)
Lemma delete_result_cons io cs first force w w1 g1 img u name :
  rename_err io = None -> ready w cs -> untags w w1 u (ID img) -> (first = false -> u = []) ->
  (lookup_image Root layer_size order w name).2 = Ok img -> Images.Delete Root (graph w) io (ID img) = (g1, Ok ()) ->
  (forall c, ~ parent_of Root (graph w) (ID img) c) -> (forall r t, tag_of (store w1) r t <> Some (ID img)) ->
  (forall c, c ∈ cs -> ~ keeps (graph w) force (ID img) c) ->
  let w2 := delete_report w1 g1 (ID img) in
  ready w2 cs /\ (size (ids (idIndex g1)) < size (ids (idIndex (graph w))))%nat /\
  (forall noprune, Parent img = "" \/ noprune = true -> delete_result io cs name first force noprune w w2 (Ok ()) u [ID img]) /\
  (Parent img <> "" -> Parent img ∈ ids (idIndex g1) /\
    forall w' r r' del, delete_result io cs (Parent img) false force false w2 w' r [] del ->
      delete_result io cs name first force false w w' r' u (ID img :: del)).
Proof.
  intros Hio Hr Hu Hf Hlk Hdel Hch Htag Hkeep w2. pose proof (ready_graph _ _ Hr) as Hg.
  destruct (lookup_image_found w name img Hg (ready_store _ _ Hr) Hlk) as (Hin & Hst & Hget).
  pose proof (ready_untagged _ _ _ _ _ Hr Hu) as Hr1. pose proof Hu as (Hgw & Hun & Him & Hev).
  pose proof (deletes_one cs force io (graph w) g1 img Hg Hio Hin Hch Hkeep Hdel) as Hd1. pose proof Hd1 as [Hg1 Hids _ _ _].
  assert (unneeded cs force (graph w) [ID img]) as Hfree.
  { intros id ->%list_elem_of_singleton. split; [|done]. intros c Hc. by destruct (Hch c). }
  assert (ready w2 cs) as Hr2 by (apply (ready_deleted w1 g1 (ID img) cs force [ID img]); [done|by rewrite Hgw]).
  destruct (lineage_exists Root layer_size root_plain (graph w) (ID img) img Hg Hin Hst) as [l Hl].
  destruct (Delete_good Root layer_size root_plain layer_size_nonneg (graph w) io img g1 _ Hg Hio Hin Hch Hdel) as (_ & Hub & Hi1).
  split; [done|]. split; [rewrite Hi1; apply subset_size; set_solver|]. split.
  - intros noprune Hp. assert (untagged u (store w) (store w2)) by done. repeat (split; [done|]). split; [|split; [|split; [exact Hfree|]]].
    + simpl. by rewrite Him, <- app_assoc.
    + by intros id r t ->%list_elem_of_singleton.
    + rewrite Hlk. split; [simpl; by rewrite Hev, <- app_assoc|]. exists l, (ID <$> tail l).
      split; [done|]. split; [by inversion Hl|]. destruct Hp as [Hp| ->]; [|by left].
      destruct noprune; [by left|right; left]. split; [done|]. inversion Hl; subst; done.
  - intros Hne. inversion Hl as [|? p l' _ Hgp Hl']; subst; [done|].
    destruct (lineage_parent (graph w) img p Hg Hin Hst Hgp) as (Hpe & Hpo & Hpok).
    assert (Parent img <> ID img) as Hpn by (intros E; rewrite E in Hpo; by apply (Hch _ Hpo)).
    assert (Parent img ∈ ids (idIndex g1)) as Hpin by (rewrite Hi1; pose proof (good_parents _ _ Hg _ _ Hpo); set_solver).
    split; [done|]. intros w' r r' del (Hr' & Hd & Hun' & _ & Him' & Htg & Hfree' & Hlast).
    pose proof (get_kept _ _ _ _ _ Hg Hg1 Hub Hi1 Hpok Hpn Hgp) as Hgp1.
    rewrite (lookup_image_id w2 (Parent img) (ready_store _ _ Hr2) Hpok (ready_ids _ _ Hr2 _ Hpin)) in Hlast. cbn [snd] in Hlast. simpl in Hlast. rewrite Hgp1 in Hlast.
    destruct Hlast as (Hev' & l2 & k & Hl2 & Hk & He).
    pose proof Hgp as (_ & Hps & Hpii & _)%(Get_spec _ _ root_plain _ _ _ (good_consistent _ _ Hg)).
    assert (ID img ∉ ID <$> l') as Hni.
    { destruct (lineage_ids Root layer_size root_plain (graph w) (ID img) img _ Hg Hin Hst Hl) as [Hnd _]. cbn in Hnd. by apply NoDup_cons in Hnd as [? _]. }
    pose proof (lineage_kept _ _ _ _ _ Hg Hg1 Hub Hi1 Hl' Hpii Hps Hni) as Hl1.
    pose proof (lineage_unique _ _ _ Hl1 _ Hl2) as ->.
    split; [done|]. split; [by apply (deletes_app cs force (graph w) g1 _ [ID img])|].
    split; [rewrite <- (app_nil_r u); by apply (untagged_app u [] _ (store w2))|]. split; [done|]. split; [|split; [|split]].
    + rewrite Him'. simpl. rewrite Him, <- !app_assoc. done.
    + intros id r0 t [-> |Hid]%elem_of_cons; [|by apply Htg]. by apply (unnamed_untagged [] (store w2)).
    + apply (unneeded_cons cs force (graph w) g1); try done. intros c Hc. by apply (ready_containers _ _ Hr).
    + rewrite Hlk. split; [rewrite Hev'; simpl; by rewrite Hev, <- !app_assoc|].
      exists (img :: l'), k. split; [done|]. split; [by cbn; rewrite Hk|].
      destruct He as [[? _]|[[_ ->]|(x & k' & -> & [(_ & ? & _)|[_ Hn]])]]; [done|right; by left|done|].
      right. right. exists x, k'. split; [done|]. by right.
Qed.
Lemma DeleteImage_result io cs force noprune : rename_err io = None -> forall fuel w name first,
  ready w cs -> (size (ids (idIndex (graph w))) < fuel)%nat -> (size (ids (idIndex (graph w))) <= history)%nat ->
  (first = true \/ name ∈ ids (idIndex (graph w))) ->
  exists w' r u del, delete_image fuel io cs name first force noprune w = Return (w', r) /\
    delete_result io cs name first force noprune w w' r u del.
Proof.
  intros Hio. induction fuel as [|n IH]; intros w name first Hr Hn Hh Hname; [lia|].
  pose proof (DeleteImage_head n io cs name first force noprune w Hr Hh Hio Hname) as Hhead.
  destruct (lookup_image Root layer_size order w name).2 as [img|e] eqn:Hlk.
  2: { destruct Hhead as [e' ->]. exists w, (Err e'), [], []. split; [done|]. split; [done|]. split; [by apply deletes_nil, ready_graph with cs|].
       split; [by apply untagged_nil, ready_store with cs|]. split; [done|]. rewrite Hlk. cbn. rewrite app_nil_r. split; [done|]. split; [by intros id r t []%not_elem_of_nil|].
       split; [by intros id []%not_elem_of_nil|done]. }
  destruct Hhead as (u & w1 & Hu & Hf & [(r & -> & Hwhy)|(g1 & Hdel & Hch & Htag & Hkeep & ->)]).
  - exists w1, r, u, []. split; [done|]. pose proof Hu as (Hgw & Hun & Him & Hev). split; [by apply (ready_untagged w w1 u (ID img))|].
    split; [rewrite Hgw; by apply deletes_nil, ready_graph with cs|]. split; [done|]. split; [done|].
    split; [simpl; by rewrite app_nil_r|]. split; [by intros id r0 t []%not_elem_of_nil|]. split; [by intros id []%not_elem_of_nil|]. rewrite Hlk. split; [simpl; by rewrite app_nil_r|].
    destruct (lookup_image_found w name img (ready_graph _ _ Hr) (ready_store _ _ Hr) Hlk) as (Hin & Hst & _).
    destruct (lineage_exists Root layer_size root_plain (graph w) (ID img) img (ready_graph _ _ Hr) Hin Hst) as [l Hl].
    exists l, (ID <$> l). split; [done|]. split; [done|]. right. right. exists (ID img), (ID <$> tail l). split; [by inversion Hl|].
    rewrite Hgw. destruct Hwhy as [[? ?]|?]; [by left|by right].
  - destruct (delete_result_cons io cs first force w w1 g1 img u name Hio Hr Hu Hf Hlk Hdel Hch Htag Hkeep) as (Hr2 & Hsz & Hone & Hmore).
    unfold prune. destruct (String.eqb_spec (Parent img) "") as [He|He]; [eexists _, _, u, [ID img]; split; [done|]; apply Hone; by left|].
    destruct noprune; cbn [negb andb]; [eexists _, _, u, [ID img]; split; [done|]; apply Hone; by right|].
    destruct (Hmore He) as [Hpin Hstep].
    destruct (IH (delete_report w1 g1 (ID img)) (Parent img) false Hr2) as (w' & r & u' & del & -> & Hres); [simpl; lia|simpl; lia|by right|].
    assert (u' = []) as -> by (by apply Hres). cbn [mbind outcome_bind]. eexists _, _, u, (ID img :: del). split; [done|]. by apply Hstep with r.
Qed.



(** One container whose image is gone protects every image: with it,
    whatever is deleted by whatever name and force, the call deletes no image. *)
Theorem DeleteImage_missing io cs name force noprune w fuel w' r c :
  ready w cs -> rename_err io = None -> (size (ids (idIndex (graph w))) < fuel)%nat -> (size (ids (idIndex (graph w))) <= history)%nat ->
  c ∈ cs -> is_ok (get (graph w) (Names.Image c)) = false ->
  delete_image fuel io cs name true force noprune w = Return (w', r) -> graph w' = graph w.
Proof.
  intros Hr Hio Hf Hh Hc Hmiss HD'. destruct fuel as [|n]; [lia|].
  pose proof (DeleteImage_head n io cs name true force noprune w Hr Hh Hio ltac:(by left)) as Hhead.
  destruct (lookup_image Root layer_size order w name).2 as [img|e].
  - destruct Hhead as (u & w1 & (Hgw & _) & _ & [(r1 & HD2 & _)|(g1 & _ & _ & _ & Hk & _)]).
    + rewrite HD' in HD2. by injection HD2 as -> _.
    + exfalso. apply (Hk c Hc). unfold keeps. by destruct (get (graph w) (Names.Image c)).
  - destruct Hhead as [e' HD2]. rewrite HD' in HD2. by injection HD2 as -> _.
Qed.
End ImageDeleteLemmas.

(** ** Examples *)

Module DeleteDemo.
Definition a : string := Images.Demo.digits "a".
Definition b : string := Images.Demo.digits "b".

(** A container of the base image. *)
Definition container (running : bool) : Names.Container :=
  {| Names.ID := "c1"; Names.Name := "/c1"; Names.Image := a; Names.Created := 0;
     Names.state := {| Running := running; Paused := false; Restarting := false; Pid := 0; ExitCode := 0; StartedAt := 0; FinishedAt := 0; waitChan := 0 |};
     Names.Driver := ""; Names.Args := []; Names.Path := ""; Names.VolumePaths := []; Names.Binds := []; Names.RestartPolicyName := ""; Names.has_daemon := true |}.

Definition names (r : gmap string Repository) : TagStore :=
  {| Repositories := r; disk := {| file := Some r; read_err := None; write_err := None |};
     pullingPool := ∅; pushingPool := ∅; next_chan := 0; closed_chans := ∅ |}.
Definition tags_of (repo tag : string) : gmap string Repository := {[repo := {[tag := b]}]}.

Definition world (s : TagStore) : World (list string) (gmap string (list string)) :=
  {| graph := Images.Demo.G2; store := s; imgs := []; events := [] |}.

Definition readdir (g : Graph (list string) (gmap string (list string))) : list string := elements (ids (idIndex g)).

Lemma readdir_lists g : good Images.Demo.Root g -> lists Images.Demo.Root g (readdir g).
Proof.
  intros Hg. pose proof (good_consistent _ _ Hg) as Hc. unfold readdir. split.
  - intros id Hid. rewrite elem_of_elements. split; [|by apply (stored_index _ _ Hc)].
    intros Hin. destruct (index_stored _ _ Hc id Hin) as (img & Hs & _). by exists (Ok img).
  - intros n Hin%elem_of_elements. left. by apply (index_ok _ _ Hc).
Qed.

Definition remove (cs : list Names.Container) (name : string) (force : bool) (s : TagStore) :=
  DeleteImage Images.Demo.Root Images.Demo.size map_order readdir 3 4 disk_ok cs name true force false (world s).

Lemma ready_world running : ready Images.Demo.Root (world (names (tags_of "app" "latest"))) [container running].
Proof.
  split.
  - apply (reachable_good _ _ _ Images.Demo.root_plain Images.Demo.size_nonneg _ Images.Demo.G2_reachable).
  - reflexivity.
  - intros r t id H. unfold tag_of in H. change (Repositories _) with (tags_of "app" "latest") in H. unfold tags_of in H.
    destruct (decide (r = "app")) as [->|Hr]; [rewrite lookup_singleton_eq in H|by rewrite lookup_singleton_ne in H]. simpl in H.
    destruct (decide (t = "latest")) as [->|Ht]; [by split|by rewrite lookup_singleton_ne in H].
  - intros id Hin. change (Repositories _) with (tags_of "app" "latest"). apply lookup_singleton_ne. intros <-.
    apply (bool_decide_eq_false_1 ("app" ∈ ids (idIndex Images.Demo.G2))) in Hin; [done|]. vm_compute. reflexivity.
  - intros c ->%list_elem_of_singleton. split; [apply Images.Demo.digits_ok|]. change (Repositories _) with (tags_of "app" "latest"). by apply lookup_singleton_ne.
Qed.

Lemma size_G2 : size (ids (idIndex Images.Demo.G2)) = 2%nat.
Proof. vm_compute. reflexivity. Qed.
End DeleteDemo.



Lemma DeleteImage_missing_witness :
  let lost := {| Names.ID := "c2"; Names.Name := "/c2"; Names.Image := Images.Demo.digits "c"; Names.Created := 0; Names.state := Names.state (DeleteDemo.container false);
     Names.Driver := ""; Names.Args := []; Names.Path := ""; Names.VolumePaths := []; Names.Binds := []; Names.RestartPolicyName := ""; Names.has_daemon := true |} in
  exists w' r, DeleteDemo.remove [lost] "app:latest" true (DeleteDemo.names (DeleteDemo.tags_of "app" "latest")) = Return (w', r) /\ graph w' = Images.Demo.G2.
Proof.
  intros lost. assert (match DeleteDemo.remove [lost] "app:latest" true (DeleteDemo.names (DeleteDemo.tags_of "app" "latest")) with Return _ => True | _ => False end) as Hret by (vm_compute; exact I).
  destruct (DeleteDemo.remove [lost] "app:latest" true (DeleteDemo.names (DeleteDemo.tags_of "app" "latest"))) as [[w' r]| |] eqn:E; [clear Hret|destruct Hret..].
  exists w', r. split; [reflexivity|].
  assert (ready Images.Demo.Root (DeleteDemo.world (DeleteDemo.names (DeleteDemo.tags_of "app" "latest"))) [lost]) as Hr.
  { destruct (DeleteDemo.ready_world false) as [H1 H2 H3 H4 _]. split; [exact H1|exact H2|exact H3|exact H4|]. intros c ->%list_elem_of_singleton.
    split; [by repeat split|]. change (Repositories _) with (DeleteDemo.tags_of "app" "latest"). by apply lookup_singleton_ne. }
  apply (DeleteImage_missing Images.Demo.Root Images.Demo.size map_order DeleteDemo.readdir 3 Images.Demo.root_plain (fun V m => reflexivity _)
    DeleteDemo.readdir_lists disk_ok _ "app:latest" true false _ 4 w' r lost Hr eq_refl);
    [simpl; rewrite DeleteDemo.size_G2; lia|simpl; rewrite DeleteDemo.size_G2; lia|by left|vm_compute; reflexivity|exact E].
Defined.

(** A name that happens to be part of the identifier it denotes is taken for
    the identifier: removing the tag [b:latest] by [b] removes the other tags
    too, and with them the image and its parent. *)
Theorem name_in_identifier :
  match DeleteDemo.remove [] "b" false (DeleteDemo.names {["b" := {["latest" := DeleteDemo.b; "keep" := DeleteDemo.b]}]}) with
  | Return (w', Ok _) => imgs w' = [("Untagged", "b:keep"); ("Untagged", "b:latest"); ("Deleted", DeleteDemo.b); ("Deleted", DeleteDemo.a)]
  | _ => False
  end /\
  match DeleteDemo.remove [] "app" false (DeleteDemo.names {["app" := {["latest" := DeleteDemo.b; "keep" := DeleteDemo.b]}]}) with
  | Return (w', Ok _) => imgs w' = [("Untagged", "app:latest")]
  | _ => False
  end.
Proof. split; vm_compute; reflexivity. Qed.
