(* ===== verification/GoJSON.v ===== *)
(** * Go's encoding/json: decoding a list of strings

    What [json.Unmarshal] does with a text and a list of strings: the list,
    or an error for anything else.  [null] is the empty list, and the empty
    string as an element; escapes are UTF-16 code units, and bytes that are no
    UTF-8 become U+FFFD.  [render_strings] writes such a list. *)

From stdpp Require Import base list strings.
From Stdlib Require Import ZArith Lia Ascii.
From S2P Require Import Prelude GoStrings Utf8.

Local Open Scope Z_scope.

(** ** Strings *)

Definition hex_digit (c : ascii) : option Z :=
  if between 48 57 c then Some (code c - 48)
  else if between 97 102 c then Some (code c - 87)
  else if between 65 70 c then Some (code c - 55)
  else None.

Definition hex4 (a b c d : ascii) : option Z :=
  a ← hex_digit a; b ← hex_digit b; c ← hex_digit c; d ← hex_digit d;
  Some (4096 * a + 256 * b + 16 * c + d).

Definition is_surrogate (r : Z) : bool := (55296 <=? r) && (r <? 57344).
Definition decode_pair (r1 r2 : Z) : option Z :=
  if (55296 <=? r1) && (r1 <? 56320) && (56320 <=? r2) && (r2 <? 57344) then Some (65536 + (r1 - 55296) * 1024 + (r2 - 56320)) else None.

Definition escaped (c : ascii) : option ascii :=
  match c with
  | "034" | "/" | "\" => Some c
  | "b" => Some "008" | "f" => Some "012" | "n" => Some "010" | "r" => Some "013" | "t" => Some "009"
  | _ => None
  end%char.

(** The string up to the closing quote, and what follows it. *)
Fixpoint unquote (s : string) : option (string * string) :=
  let put (p : string) (r : option (string * string)) := '(a, rest) ← r; Some (p +:+ a, rest) in
  match s with
  | "" => None
  | String "034" r => Some ("", r)
  | String "\" (String "u" (String a (String b (String c (String d r))))) =>
      match hex4 a b c d with
      | None => None
      | Some u =>
          if is_surrogate u then
            match r with
            | String "\" (String "u" (String a' (String b' (String c' (String d' r'))))) =>
                match u' ← hex4 a' b' c' d'; decode_pair u u' with
                | Some n => put (encode_rune n) (unquote r')
                | None => put rune_error (unquote r)
                end
            | _ => put rune_error (unquote r)
            end
          else put (encode_rune u) (unquote r)
      end
  | String "\" (String c r) => match escaped c with Some c => put (String c "") (unquote r) | None => None end
  | String c1 r1 =>
      if code c1 <? 32 then None
      else if code c1 <? 128 then put (String c1 "") (unquote r1)
      else
        match r1 with
        | String c2 r2 =>
            if between 194 223 c1 && is_cont c2 then put (String c1 (String c2 "")) (unquote r2)
            else
              match r2 with
              | String c3 r3 =>
                  if between 224 239 c1 && second_ok c1 c2 && is_cont c3 then put (String c1 (String c2 (String c3 ""))) (unquote r3)
                  else
                    match r3 with
                    | String c4 r4 =>
                        if between 240 244 c1 && second_ok c1 c2 && is_cont c3 && is_cont c4
                        then put (String c1 (String c2 (String c3 (String c4 "")))) (unquote r4)
                        else put rune_error (unquote r1)
                    | _ => put rune_error (unquote r1)
                    end
              | _ => put rune_error (unquote r1)
              end
        | _ => put rune_error (unquote r1)
        end
  end.

(** ** Lists *)

Definition is_json_space (c : ascii) : bool := Ascii.eqb c " " || Ascii.eqb c "009" || Ascii.eqb c "010" || Ascii.eqb c "013".
Definition skip_space (s : string) : string := trim_left is_json_space s.

(** An element and what follows it. *)
Definition element (s : string) : option (string * string) :=
  match s with
  | String "034" r => unquote r
  | String "n" (String "u" (String "l" (String "l" r))) => Some ("", r)
  | _ => None
  end.

Fixpoint elements (fuel : nat) (s : string) : option (list string * string) :=
  match fuel with
  | O => None
  | S fuel =>
      '(e, s) ← element (skip_space s);
      match skip_space s with
      | String "]" r => Some ([e], r)
      | String "," r => '(l, r) ← elements fuel r; Some (e :: l, r)
      | _ => None
      end
  end.

Definition json_array (s : string) : option (list string * string) :=
  match skip_space s with
  | String "]" r => Some ([], r)
  | _ => elements (S (String.length s)) s
  end.

Definition json_strings (s : string) : option (list string) :=
  '(l, rest) ← match skip_space s with
               | String "[" r => json_array r
               | String "n" (String "u" (String "l" (String "l" r))) => Some ([], r)
               | _ => None
               end;
  if String.eqb (skip_space rest) "" then Some l else None.

(** ** Writing a list *)

Definition hex_char (n : Z) : ascii := byte (if n <? 10 then 48 + n else 87 + n).

Definition quote_char (c : ascii) : string :=
  if Ascii.eqb c "034" || Ascii.eqb c "\" then String "\" (String c "")
  else if code c <? 32 then "\u00" +:+ String (hex_char (code c / 16)) (String (hex_char (code c mod 16)) "")
  else String c "".

Fixpoint quote_body (s : string) : string :=
  match s with "" => String "034" "" | String c s => quote_char c +:+ quote_body s end.

Definition render_string (s : string) : string := String "034" (quote_body s).

Definition render_strings (l : list string) : string := "[" +:+ join ", " (render_string <$> l) +:+ "]".

Definition is_ascii (s : string) : bool := forall_str (fun c => code c <? 128) s.

Example render_test :
  let l := [String "034" "a\"; String "010" ""; ""; "b c"] in
  json_strings (" " +:+ render_strings l +:+ String "010" "") = Some l /\
  json_strings "null" = Some [] /\ json_strings "[1]" = None /\ json_strings "[" = None /\ json_strings "echo [a]" = None.
Proof. repeat split. Qed.

Lemma unquote_char c s a rest : code c < 128 -> unquote s = Some (a, rest) -> unquote (quote_char c +:+ s) = Some (String c a, rest).
Proof.
  intros Hc Hs. destruct c as [b0 b1 b2 b3 b4 b5 b6 b7]. destruct b7; [exfalso; revert Hc; by destruct b0, b1, b2, b3, b4, b5, b6|]. clear Hc.
  destruct b0, b1, b2, b3, b4, b5, b6; simpl; change ("" +:+ s) with s; rewrite Hs; reflexivity.
Qed.

Lemma unquote_quote s rest : is_ascii s = true -> unquote (quote_body s +:+ rest) = Some (s, rest).
Proof.
  induction s as [|c s IH]; intros H; [done|]. cbn in H. apply andb_true_iff in H as [Hc Hs]. apply Z.ltb_lt in Hc.
  cbn [quote_body]. rewrite string_app_assoc. apply unquote_char; [done|]. by apply IH.
Qed.

Lemma element_render s rest : is_ascii s = true -> element (skip_space (render_string s +:+ rest)) = Some (s, rest).
Proof. intros H. by apply unquote_quote. Qed.

Lemma elements_render e l rest : forall fuel, (length l < fuel)%nat -> Forall (fun s => is_ascii s = true) (e :: l) ->
  elements fuel (join ", " (render_string <$> e :: l) +:+ String "]" rest) = Some (e :: l, rest).
Proof.
  revert e. induction l as [|x l IH]; intros e fuel Hf Ha; (destruct fuel as [|fuel]; [simpl in Hf; lia|]); inversion Ha as [|? ? He Hl]; subst.
  - cbn [fmap list_fmap join elements]. rewrite element_render by done. done.
  - assert (join ", " (render_string <$> e :: x :: l) = render_string e +:+ ", " +:+ join ", " (render_string <$> x :: l)) as -> by done.
    rewrite !string_app_assoc. cbn [elements]. rewrite element_render by done. cbn [mbind option_bind].
    change (skip_space (", " +:+ join ", " (render_string <$> x :: l) +:+ String "]" rest)) with (String "," (String " " (join ", " (render_string <$> x :: l) +:+ String "]" rest))).
    cbv iota beta. destruct fuel as [|fuel]; [simpl in Hf; lia|].
    change (elements (S fuel) (String " " ?y)) with (elements (S fuel) y). rewrite IH by (done || simpl in *; lia). done.
Qed.

Lemma strings_length l : (length l <= String.length (join ", " (render_string <$> l)))%nat.
Proof.
  induction l as [|e l IH]; [done|]. destruct l as [|x l]; [simpl; lia|].
  change (join ", " (render_string <$> e :: x :: l)) with (render_string e +:+ ", " +:+ join ", " (render_string <$> x :: l)).
  rewrite !string_length_app. change (length (e :: x :: l)) with (S (length (x :: l))). cbn [render_string String.length]. lia.
Qed.

(** A list that is written is read back. *)
Lemma json_strings_render l : Forall (fun s => is_ascii s = true) l -> json_strings (render_strings l) = Some l.
Proof.
  intros Ha. unfold json_strings, render_strings. change (skip_space ("[" +:+ join ", " (render_string <$> l) +:+ "]")) with (String "[" (join ", " (render_string <$> l) +:+ "]")).
  cbv iota beta. unfold json_array. destruct l as [|e l]; [done|].
  assert (forall x, skip_space (join ", " (render_string <$> e :: l) +:+ x) = join ", " (render_string <$> e :: l) +:+ x) as Hsk by (intros x; by destruct l).
  rewrite (Hsk "]"). assert (exists r, join ", " (render_string <$> e :: l) +:+ "]" = String "034" r) as [r Hr] by (destruct l; by eexists).
  assert (elements (S (String.length (join ", " (render_string <$> e :: l) +:+ "]"))) (join ", " (render_string <$> e :: l) +:+ "]") = Some (e :: l, "")) as E.
  { apply elements_render; [|done]. pose proof (strings_length (e :: l)) as H. rewrite string_length_app. simpl in *. lia. }
  rewrite Hr in E |- *. cbv iota beta. rewrite E. done.
Qed.
