(* ===== verification/Builder.v ===== *)
(** * daemon/build.go: the builder

    A Dockerfile is cut into steps and every step changes the builder's
    configuration, looks for an image made before in the same way, and
    otherwise runs a container and commits it.  The builder's state is a
    record; its methods are computations [M] with that state and the daemon's,
    which fail with an error or panic; what they changed before stays.  The
    daemon is the interface [BuildDaemon].  Texts written to the client are a
    list.  A trigger cannot have triggers, so [BuildStep] needs fuel 2. *)

From stdpp Require Import base gmap sets list strings sorting.
From Stdlib Require Import ZArith Lia Ascii.
From S2P Require Import Prelude GoStrings GoPath Utf8 GoJSON Parsers Opts RunConfig Tags.

Local Open Scope Z_scope.

(** ** The daemon *)

(** Operations of the daemon with state [W], in the order in which the builder
    comes upon them; [bd_create] changes the configuration it is given, and
    [bd_run] starts the container with a command and answers its output and
    exit code.  An image is its identifier and configuration. *)
Class BuildDaemon (W : Type) := {
  bd_lookup : W -> string -> W * result string (string * option Config);
  bd_not_exist : string -> bool;
  bd_pull : W -> string -> string -> W * result string ();
  bd_cached : W -> string -> Config -> result string (option string);
  bd_create : W -> Config -> W * Config * result string (string * list string);
  bd_mount : W -> string -> result string ();
  bd_run : W -> string -> list string -> W * result string (string * Z);
  bd_add : W -> string -> string -> string -> bool -> W * result string ();
  bd_get : W -> string -> bool;
  bd_commit : W -> string -> Config -> string -> Config -> W * result string string;
  bd_destroy : W -> string -> W * result string () }.

(** What is unpacked of the context: the checksums by file name, what a path
    is with its symbolic links followed, and whether it is a directory. *)
Record BuildContext := {
  sums : gmap string string;
  EvalSymlinks : string -> result (option string) string;
  IsDir : string -> result string bool }.

(** What a download leaves in the context: the file, its checksum, and the
    name at the end of the URL's path. *)
Record Remote := { remote_path : string; remoteHash : string; url_name : result string string }.

(** ** The builder *)

Record buildFile := {
  image : string;
  maintainer : string;
  config : Config;
  tmpContainers : gset string;
  tmpImages : gset string;
  cmdSet : bool;
  out : list string }.

Record BuildOptions := { verbose : bool; utilizeCache : bool; rm : bool; forceRm : bool }.

Definition with_config (b : buildFile) (c : Config) : buildFile :=
  {| image := image b; maintainer := maintainer b; config := c; tmpContainers := tmpContainers b; tmpImages := tmpImages b; cmdSet := cmdSet b; out := out b |}.
Definition with_image (b : buildFile) (i : string) : buildFile :=
  {| image := i; maintainer := maintainer b; config := config b; tmpContainers := tmpContainers b; tmpImages := tmpImages b; cmdSet := cmdSet b; out := out b |}.
Definition with_maintainer (b : buildFile) (m : string) : buildFile :=
  {| image := image b; maintainer := m; config := config b; tmpContainers := tmpContainers b; tmpImages := tmpImages b; cmdSet := cmdSet b; out := out b |}.
Definition with_tmp (b : buildFile) (cs imgs : gset string) : buildFile :=
  {| image := image b; maintainer := maintainer b; config := config b; tmpContainers := cs; tmpImages := imgs; cmdSet := cmdSet b; out := out b |}.
Definition with_cmdSet (b : buildFile) (s : bool) : buildFile :=
  {| image := image b; maintainer := maintainer b; config := config b; tmpContainers := tmpContainers b; tmpImages := tmpImages b; cmdSet := s; out := out b |}.
Definition with_out (b : buildFile) (s : string) : buildFile :=
  {| image := image b; maintainer := maintainer b; config := config b; tmpContainers := tmpContainers b; tmpImages := tmpImages b; cmdSet := cmdSet b; out := out b ++ [s] |}.

(** The fields of the configuration the builder sets. *)
Definition build_config (c : Config) (user : string) (ports : option PortSet) (specs env cmd : list string) (img : string) (volumes : gmap string unit)
    (dir : string) (entrypoint triggers : list string) : Config :=
  {| Hostname := Hostname c; Domainname := Domainname c; User := user; Memory := Memory c; MemorySwap := MemorySwap c; CpuShares := CpuShares c; Cpuset := Cpuset c;
     AttachStdin := AttachStdin c; AttachStdout := AttachStdout c; AttachStderr := AttachStderr c; PortSpecs := specs; ExposedPorts := ports; Tty := Tty c;
     OpenStdin := OpenStdin c; StdinOnce := StdinOnce c; Env := env; Cmd := cmd; Image := img; Volumes := volumes; WorkingDir := dir; Entrypoint := entrypoint;
     NetworkDisabled := NetworkDisabled c; OnBuild := triggers |}.

Definition set_User (x : string) (c : Config) : Config := build_config c x (ExposedPorts c) (PortSpecs c) (Env c) (Cmd c) (Image c) (Volumes c) (WorkingDir c) (Entrypoint c) (OnBuild c).
Definition set_ports (x : option PortSet) (specs : list string) (c : Config) : Config := build_config c (User c) x specs (Env c) (Cmd c) (Image c) (Volumes c) (WorkingDir c) (Entrypoint c) (OnBuild c).
Definition set_Env (x : list string) (c : Config) : Config := build_config c (User c) (ExposedPorts c) (PortSpecs c) x (Cmd c) (Image c) (Volumes c) (WorkingDir c) (Entrypoint c) (OnBuild c).
Definition set_Cmd (x : list string) (c : Config) : Config := build_config c (User c) (ExposedPorts c) (PortSpecs c) (Env c) x (Image c) (Volumes c) (WorkingDir c) (Entrypoint c) (OnBuild c).
Definition set_Image (x : string) (c : Config) : Config := build_config c (User c) (ExposedPorts c) (PortSpecs c) (Env c) (Cmd c) x (Volumes c) (WorkingDir c) (Entrypoint c) (OnBuild c).
Definition set_Volumes (x : gmap string unit) (c : Config) : Config := build_config c (User c) (ExposedPorts c) (PortSpecs c) (Env c) (Cmd c) (Image c) x (WorkingDir c) (Entrypoint c) (OnBuild c).
Definition set_WorkingDir (x : string) (c : Config) : Config := build_config c (User c) (ExposedPorts c) (PortSpecs c) (Env c) (Cmd c) (Image c) (Volumes c) x (Entrypoint c) (OnBuild c).
Definition set_Entrypoint (x : list string) (c : Config) : Config := build_config c (User c) (ExposedPorts c) (PortSpecs c) (Env c) (Cmd c) (Image c) (Volumes c) (WorkingDir c) x (OnBuild c).
Definition set_OnBuild (x : list string) (c : Config) : Config := build_config c (User c) (ExposedPorts c) (PortSpecs c) (Env c) (Cmd c) (Image c) (Volumes c) (WorkingDir c) (Entrypoint c) x.

(** ** Texts *)

Definition newline : ascii := "010".

Definition stripComments (raw : string) : string :=
  join (String newline "") (List.filter (fun l => match l with "" => false | String c _ => negb (Ascii.eqb c "#") end) (split newline raw)).

(** White space of regular expressions. *)
Definition is_re_space (c : ascii) : bool := existsb (Ascii.eqb c) ["009"; "010"; "012"; "013"; " "]%char.

(** [lineContinuation.ReplaceAllString]: a backslash with the white space that
    follows it, up to its last newline.  [pending] is what follows a backslash
    so far: all of it, and the part after the last newline. *)
Fixpoint join_lines (s : string) (pending : option (string * option string)) : string :=
  let flush (p : option (string * option string)) := match p with None => "" | Some (raw, None) => raw | Some (_, Some rest) => rest end in
  match s with
  | "" => flush pending
  | String c s =>
      match pending with
      | Some (raw, rest) =>
          if is_re_space c then
            join_lines s (Some (raw +:+ String c "", if Ascii.eqb c newline then Some "" else (fun r => r +:+ String c "") <$> rest))
          else if Ascii.eqb c "\" then flush pending +:+ join_lines s (Some ("\", None))
          else flush pending +:+ String c (join_lines s None)
      | None => if Ascii.eqb c "\" then join_lines s (Some ("\", None)) else String c (join_lines s None)
      end
  end.

Definition trim_step (line : string) : string :=
  trim (fun c => existsb (Ascii.eqb c) [" "; "009"; "013"; "010"]%char) (replace_char "009" " " line).

(** The steps of a Dockerfile. *)
Definition dockerfile_steps (fileBytes : string) : list string :=
  List.filter (fun l => negb (String.eqb l "")) (trim_step <$> split newline (join_lines (stripComments fileBytes) None)).

Example dockerfile_steps_test :
  dockerfile_steps (join (String newline "") ["# base"; "FROM scratch"; ""; "RUN a \ "; "# no comment"; "  b \x"; "	ENV A	1  "; "CMD x\"; ""; "  "; "y"]) =
  ["FROM scratch"; "RUN a   b \x"; "ENV A 1"; "CMD xy"].
Proof. reflexivity. Qed.

(** *** Variables *)

Definition is_alnum (c : ascii) : bool := between 48 57 c || between 65 90 c || between 97 122 c.
Definition is_word (c : ascii) : bool := is_alnum c || Ascii.eqb c "_".

(** The longest prefix of word characters. *)
Fixpoint word_prefix (s : string) : string :=
  match s with String c s => if is_word c then String c (word_prefix s) else "" | "" => "" end.

(** What follows the dollar sign in a match. *)
Definition var_tail (s : string) : option string :=
  let '(open, s) := match s with String "{" r => ("{", r) | _ => ("", s) end in
  let w := word_prefix s in
  if String.eqb w "" then None
  else Some (open +:+ w +:+ match drop_str (String.length w) s with String "}" _ => "}" | _ => "" end).

(** The matches of the expression of [ReplaceEnvMatches], from their first
    dollar sign.  [skip] counts the rest of a match, [prev] is the character
    before, [since] the same if it comes after the last match, [back] the
    number of backslashes before. *)
Fixpoint find_vars (s : string) (skip : nat) (prev since : option ascii) (back : nat) : list string :=
  match s with
  | "" => []
  | String c s' =>
      match skip with
      | S skip => find_vars s' skip (Some c) None 0
      | O =>
          let prefix :=
            if (2 <=? back)%nat then Some ""
            else match since with
                 | Some p => if Ascii.eqb p "\" then None else Some (if Ascii.eqb p "$" then "$" else "")
                 | None => match prev with None => Some "" | Some p => if is_word p then Some "" else None end
                 end in
          match (if Ascii.eqb c "$" then p ← prefix; t ← var_tail s'; Some (p, t) else None) with
          | Some (p, t) => (p +:+ String "$" t) :: find_vars s' (String.length t) (Some c) None 0
          | None => find_vars s' 0 (Some c) (Some c) (if Ascii.eqb c "\" then S back else 0)
          end
      end
  end.

Example find_vars_test :
  (find_vars "$A ${B}x\$C \\$D a$E" 0 None None 0, find_vars "${A}${B}$C$D" 0 None None 0, find_vars "$$A $ ${-}" 0 None None 0) =
  (["$A"; "${B}"; "$D"; "$E"], ["${A}"; "$C"; "$D"], ["$$A"]).
Proof. vm_compute. reflexivity. Qed.

(** [strings.Replace s old new (-1)]; [skip] counts the rest of an
    occurrence of [old], which is not empty. *)
Fixpoint replace_all (old new : string) (skip : nat) (s : string) : string :=
  match s with
  | "" => ""
  | String c s' =>
      match skip with
      | S skip => replace_all old new skip s'
      | O => if has_prefix old s then new +:+ replace_all old new (String.length old - 1) s' else String c (replace_all old new 0 s')
      end
  end.

(** The value of a variable; an entry without an equals sign panics. *)
Fixpoint env_value (env : list string) (key : string) : outcome (option string) :=
  match env with
  | [] => Return None
  | e :: env => match split2 "=" e with
                | [k; v] => if String.eqb k key then Return (Some v) else env_value env key
                | _ => Panic
                end
  end.

Definition replace_var (env : list string) (value : outcome string) (m : string) : outcome string :=
  value ← value;
  v ← env_value env (trim (fun c => existsb (Ascii.eqb c) ["$"; "{"; "}"]%char) m);
  Return (match v with Some v => replace_all m v 0 value | None => value end).

Definition ReplaceEnvMatches_ (env : list string) (value : string) : outcome string :=
  foldl (replace_var env) (Return value) (find_vars value 0 None None 0).

Example ReplaceEnvMatches_test :
  (ReplaceEnvMatches_ ["A=1"; "B=$A"] "x $A ${B} \$A $C", ReplaceEnvMatches_ ["A=1"; "AB=2"] "$A $AB", ReplaceEnvMatches_ ["A"; "B=2"] "$B", ReplaceEnvMatches_ ["A"] "B") =
  (Return "x 1 $A \1 $C", Return "1 1B", Panic, Return "B").
Proof. vm_compute. reflexivity. Qed.

(** [fmt] prints of a list and of a set. *)
Definition print_list (l : list string) : string := "[" +:+ join " " l +:+ "]".
Definition print_set (l : list string) : string := "map[" +:+ join " " ((fun k => k +:+ ":{}") <$> l) +:+ "]".

(** ** Computations of the builder *)

Definition M (W A : Type) : Type := buildFile -> W -> outcome (buildFile * W * result string A).

#[export] Instance M_ret {W} : MRet (M W) := fun A a b w => Return (b, w, Ok a).
#[export] Instance M_bind {W} : MBind (M W) := fun A B f m b w =>
  '(b, w, r) ← m b w;
  match r with Err e => Return (b, w, Err e) | Ok a => f a b w end.

Definition fail {W A} (e : string) : M W A := fun b w => Return (b, w, Err e).
Definition get {W} : M W buildFile := fun b w => Return (b, w, Ok b).
Definition modify {W} (f : buildFile -> buildFile) : M W () := fun b w => Return (f b, w, Ok ()).
Definition update {W} (f : Config -> Config) : M W () := modify (fun b => with_config b (f (config b))).
Definition print {W} (s : string) : M W () := modify (fun b => with_out b s).
Definition daemon {W A} (f : W -> W * result string A) : M W A := fun b w => let '(w, r) := f w in Return (b, w, r).
Definition query {W A} (f : W -> result string A) : M W A := fun b w => Return (b, w, f w).
Definition pure_result {W A} (r : result string A) : M W A := fun b w => Return (b, w, r).
Definition or_panics {W A} (o : outcome A) : M W A := fun b w => a ← o; Return (b, w, Ok a).

(** [defer func(cmd []string) { b.config.Cmd = cmd }(cmd)] around the rest of
    a method: also after an error. *)
Definition restoring {W A} (cmd : list string) (m : M W A) : M W A := fun b w =>
  '(b, w, r) ← m b w;
  Return (with_config b (set_Cmd cmd (config b)), w, r).

(** Errors of [m] are ignored. *)
Definition attempt {W A} (m : M W A) : M W (result string A) := fun b w =>
  '(b, w, r) ← m b w; Return (b, w, Ok r).

Definition no_from : string := "Please provide a source image with `from` prior to ".

Definition DefaultPathEnv : string := "/usr/local/sbin:/usr/local/bin:/usr/sbin:/usr/bin:/sbin:/bin".

Definition empty_config : Config :=
  {| Hostname := ""; Domainname := ""; User := ""; Memory := 0; MemorySwap := 0; CpuShares := 0; Cpuset := ""; AttachStdin := false; AttachStdout := false; AttachStderr := false;
     PortSpecs := []; ExposedPorts := None; Tty := false; OpenStdin := false; StdinOnce := false; Env := []; Cmd := []; Image := ""; Volumes := ∅; WorkingDir := ""; Entrypoint := [];
     NetworkDisabled := false; OnBuild := [] |}.

(** The flags of [docker run] when none is given, with their arguments. *)
Definition run_flags (args : list string) : RunFlags :=
  let l v := {| values := []; validator := v |} in
  {| flAttach := l (Some ValidateAttach); flVolumes := l (Some ValidatePath); flLinks := l (Some ValidateLink); flEnv := l None; flDevices := l (Some ValidatePath);
     flPublish := l None; flExpose := l None; flDns := l None; flDnsSearch := l (Some ValidateDnsSearch); flVolumesFrom := l None; flLxcOpts := l None; flEnvFile := l None;
     flCapAdd := l None; flCapDrop := l None; flAutoRemove := false; flDetach := false; flNetwork := true; flPrivileged := false; flPublishAll := false; flStdin := false; flTty := false;
     flContainerIDFile := ""; flEntrypoint := ""; flHostname := ""; flMemoryString := ""; flUser := ""; flWorkingDir := ""; flCpuShares := 0; flCpuset := ""; flNetMode := "bridge";
     flRestartPolicy := ""; parsedArgs := args |}.

(** [runconfig.Parse] of an image's identifier, which is no flag, and a command. *)
Definition Parse_run (is_ip : string -> bool) (args : list string) : result string Config :=
  match parseRun is_ip (fun _ => "") (fun _ => None) (fun m => (map_to_list m).*1) (run_flags args) None with
  | Ok (c, _) => Ok c
  | Err (ErrText e) => Err e
  | Err _ => Err "invalid options"
  end.

Section Builder.
Context {W : Type} `{BuildDaemon W}.
(** What [net.ParseIP] accepts, what a checksum is, the order in which a map is
    printed, which may be another one at every call, and the order in which a
    set is visited. *)
Context (is_ip : string -> bool) (sha256 : string -> string) (print_order : buildFile -> W -> PortSet -> list string) (range : gset string -> list string).
(** The request and its context. *)
Context (opts : BuildOptions) (contextPath : string) (context : option BuildContext) (download : string -> result string Remote).

Definition probeCache : M W bool :=
  b ← get;
  if utilizeCache opts then
    cache ← query (fun w => bd_cached w (image b) (config b));
    match cache with
    | Some id => print (" ---> Using cache" +:+ String newline "");; modify (fun b => with_image b id);; mret true
    | None => mret false
    end
  else mret false.

(** [daemon.Create] of the builder's configuration. *)
Definition create_container : M W (string * list string) := fun b w =>
  let '(w, c, r) := bd_create w (config b) in
  Return (match r with Ok (id, _) => with_tmp (with_config b c) ({[id]} ∪ tmpContainers b) (tmpImages b) | Err _ => with_config b c end, w, r).

Definition running_in (id : string) : M W () := print (" ---> Running in " +:+ TruncateID id +:+ String newline "").

(** A container is made before it is mounted and committed. *)
Definition new_container : M W string :=
  c ← create_container;
  let '(id, warnings) := c : string * list string in
  modify (fun b => foldl (fun b warning => with_out b (" ---> [Warning] " +:+ warning +:+ String newline "")) b warnings);;
  running_in id;;
  query (fun w => bd_mount w id);;
  mret id.

Definition commit_container (id : string) (autoCmd : list string) : M W () := fun b w =>
  if negb (bd_get w id) then Return (b, w, Err "An error occured while creating the container")
  else
    let '(w, r) := bd_commit w id (config b) (maintainer b) (set_Cmd autoCmd (config b)) in
    match r with
    | Err e => Return (b, w, Err e)
    | Ok img => Return (with_image (with_tmp b (tmpContainers b) ({[img]} ∪ tmpImages b)) img, w, Ok ())
    end.

Definition commit (id : string) (autoCmd : list string) (comment : string) : M W () :=
  b ← get;
  if String.eqb (image b) "" then fail (no_from +:+ "commit")
  else
    update (set_Image (image b));;
    if String.eqb id "" then
      restoring (Cmd (config b))
       (update (set_Cmd ["/bin/sh"; "-c"; "#(nop) " +:+ comment]);;
        hit ← probeCache;
        if hit : bool then mret ()
        else id ← new_container; commit_container id autoCmd)
    else commit_container id autoCmd.

(** A commit with the command of the configuration. *)
Definition commit_config (comment : string) : M W () := b ← get; commit "" (Cmd (config b)) comment.

Definition create : M W string :=
  b ← get;
  if String.eqb (image b) "" then fail (no_from +:+ "run")
  else
    update (set_Image (image b));;
    c ← create_container;
    let id := fst c in
    running_in id;;
    b ← get;
    match Cmd (config b) with
    | [] => or_panics Panic
    | _ => mret id
    end.

Definition run (id : string) : M W () :=
  b ← get;
  '(output, ret) ← daemon (fun w => bd_run w id (Cmd (config b)));
  (if verbose opts then print output else mret ());;
  if ret =? 0 then mret ()
  else fail ("The command " +:+ print_list (Cmd (config b)) +:+ " returned a non-zero code: " +:+ itoa ret).

(** ** Instructions *)

Definition buildCmdFromJson (args : string) : list string := default ["/bin/sh"; "-c"; args] (json_strings args).

Definition CmdMaintainer (name : string) : M W () :=
  modify (fun b => with_maintainer b name);; commit_config ("MAINTAINER " +:+ name).

Definition CmdRun (args : string) : M W () :=
  b ← get;
  if String.eqb (image b) "" then fail (no_from +:+ "run")
  else
    parsed ← pure_result (Parse_run is_ip (image b :: buildCmdFromJson args));
    let cmd := Cmd (config b) in
    update (fun c => fst (fst (Merge is_ip (set_Cmd (Cmd parsed) c) parsed)));;
    restoring cmd
     (hit ← probeCache;
      if hit : bool then mret ()
      else
        id ← create;
        run id;;
        commit id cmd "run").

Definition FindEnvKey (env : list string) (key : string) : option nat :=
  fst <$> list_find (fun e => default "" (head (split2 "=" e)) = key) env.

Definition ReplaceEnvMatches (value : string) : M W string :=
  b ← get; or_panics (ReplaceEnvMatches_ (Env (config b)) value).

Definition put_env (env : list string) (key : option nat) (replacedVar : string) : list string :=
  match key with Some k => <[k := replacedVar]> env | None => env ++ [replacedVar] end.

Definition CmdEnv (args : string) : M W () :=
  match split2 " " args with
  | [k; v] =>
      let key := trim is_blank k in
      b ← get;
      let envKey := FindEnvKey (Env (config b)) key in
      replacedValue ← ReplaceEnvMatches (trim is_blank v);
      let replacedVar := key +:+ "=" +:+ replacedValue in
      update (fun c => set_Env (put_env (Env c) envKey replacedVar) c);;
      commit_config ("ENV " +:+ replacedVar)
  | _ => fail "Invalid ENV format"
  end.

Definition CmdCmd (args : string) : M W () :=
  let cmd := buildCmdFromJson args in
  update (set_Cmd cmd);;
  commit_config ("CMD " +:+ print_list cmd);;
  modify (fun b => with_cmdSet b true).

Definition CmdEntrypoint (args : string) : M W () :=
  let entrypoint := buildCmdFromJson args in
  update (set_Entrypoint entrypoint);;
  b ← get;
  (if cmdSet b then mret () else update (set_Cmd []));;
  commit_config ("ENTRYPOINT " +:+ print_list entrypoint).

(** [fmt.Sprintf("%v", ports)] *)
Definition printed (ports : PortSet) : M W string := fun b w => Return (b, w, Ok (print_set (print_order b w ports))).

Definition CmdExpose (args : string) : M W () :=
  update (fun c => set_ports (Some (ports_of c)) (PortSpecs c) c);;
  b ← get;
  '(ports, _) ← pure_result (ParsePortSpecs is_ip (split " " args ++ PortSpecs (config b)));
  update (fun c => set_ports (Some (ports_of c ∪ ports)) [] c);;
  text ← printed ports;
  commit_config ("EXPOSE " +:+ text).

Definition CmdUser (args : string) : M W () := update (set_User args);; commit_config ("USER " +:+ args).

Definition CmdInsert (args : string) : M W () := fail "INSERT has been deprecated. Please use ADD instead".

Definition CmdWorkdir (workdir : string) : M W () :=
  match workdir with
  | "" => or_panics Panic
  | String c _ =>
      (if Ascii.eqb c "/" then update (set_WorkingDir workdir)
       else update (fun c => set_WorkingDir (Join [if String.eqb (WorkingDir c) "" then "/" else WorkingDir c; workdir]) c));;
      commit_config ("WORKDIR " +:+ workdir)
  end.

Definition CmdVolume (args : string) : M W () :=
  if String.eqb args "" then fail "Volume cannot be empty"
  else
    let volume := default [args] (json_strings args) in
    update (fun c => set_Volumes (foldl (fun m v => <[v := tt]> m) (Volumes c) volume) c);;
    commit_config ("VOLUME " +:+ args).

Definition forbidden_trigger (trigger : string) : string := to_upper (trim (fun c => Ascii.eqb c " ") (default "" (head (split " " trigger)))).

Definition CmdOnbuild (trigger : string) : M W () :=
  let triggerInstruction := forbidden_trigger trigger in
  if String.eqb triggerInstruction "ONBUILD" then fail "Chaining ONBUILD via `ONBUILD ONBUILD` isn't allowed"
  else if String.eqb triggerInstruction "MAINTAINER" || String.eqb triggerInstruction "FROM" then fail (triggerInstruction +:+ " isn't allowed as an ONBUILD trigger")
  else
    update (fun c => set_OnBuild (OnBuild c ++ [trigger]) c);;
    commit_config ("ONBUILD " +:+ trigger).

(** *** Files of the context *)

Definition IsURL (str : string) : bool := has_prefix "http://" str || has_prefix "https://" str.

Definition checkPathForAddition (ctx : BuildContext) (orig : string) : result string () :=
  match EvalSymlinks ctx (Join [contextPath; orig]) with
  | Err None => Err (orig +:+ ": no such file or directory")
  | Err (Some e) => Err e
  | Ok origPath =>
      if negb (has_prefix contextPath origPath) then Err ("Forbidden path outside the build context: " +:+ orig +:+ " (" +:+ origPath +:+ ")") else Ok ()
  end.

(** The checksum of a file or directory, and the path as it is used on. *)
Definition hash_path (ctx : BuildContext) (remote : string) (origPath : string) : outcome (result string (string * string)) :=
  if negb (String.eqb remote "") then Return (Ok (remote, origPath))
  else
    match IsDir ctx (Join [contextPath; origPath]) with
    | Err e => Return (Err e)
    | Ok true =>
        let subfiles := snd <$> List.filter (fun '(file, _) => has_prefix (Join [contextPath; origPath]) (Join [contextPath; file])) (map_to_list (sums ctx)) in
        Return (Ok ("dir:" +:+ sha256 (join "," (merge_sort String.le subfiles)), origPath))
    | Ok false =>
        match origPath with
        | "" => Panic
        | String c rest =>
            let origPath := if Ascii.eqb c "/" && negb (String.eqb rest "") then rest else origPath in
            let origPath := trim_prefix "./" origPath in
            Return (Ok (match sums ctx !! origPath with Some h => "file:" +:+ h | None => "" end, origPath))
        end
    end.

(** The file to add: its path in the context, the destination, the checksum
    of a download. *)
Definition fetch (orig dest cmdName : string) (allowRemote : bool) : result string (string * string * string) :=
  if IsURL orig then
    if negb allowRemote then Err ("Source can't be an URL for " +:+ cmdName)
    else
      r ← download orig;
      if has_suffix "/" dest then
        name ← url_name r;
        if String.eqb name "" then Err ("cannot determine filename from url: " +:+ orig) else Ok (remote_path r, dest +:+ name, remoteHash r)
      else Ok (remote_path r, dest, remoteHash r)
  else Ok (orig, dest, "").

Definition nop (cmdName what dest : string) : list string := ["/bin/sh"; "-c"; "#(nop) " +:+ cmdName +:+ " " +:+ what +:+ " in " +:+ dest].

(** Whether an image made with the same files is there, and the path as it is
    used on. *)
Definition probe_files (ctx : BuildContext) (cmdName origPath dest hash : string) : M W (bool * string) :=
  if utilizeCache opts then
    h ← or_panics (hash_path ctx hash origPath);
    hp ← pure_result h;
    let '(hash, origPath) := hp : string * string in
    update (set_Cmd (nop cmdName hash dest));;
    hit ← probeCache;
    mret (hit && negb (String.eqb hash ""), origPath)
  else mret (false, origPath).

Definition runContextCommand (args : string) (allowRemote allowDecompression : bool) (cmdName : string) : M W () :=
  match context with
  | None => fail ("No context given. Impossible to use " +:+ cmdName)
  | Some ctx =>
      match split2 " " args with
      | [a; d] =>
          orig ← ReplaceEnvMatches (trim is_blank a);
          dest ← ReplaceEnvMatches (trim is_blank d);
          b ← get;
          let cmd := Cmd (config b) in
          restoring cmd
           (update (fun c => set_Image (image b) (set_Cmd (nop cmdName orig dest) c));;
            f ← pure_result (fetch orig dest cmdName allowRemote);
            let '(origPath, destPath, remoteHash) := f : string * string * string in
            pure_result (checkPathForAddition ctx origPath);;
            p ← probe_files ctx cmdName origPath dest remoteHash;
            let '(done, origPath) := p : bool * string in
            if done : bool then mret ()
            else
              c ← create_container;
              let id := fst c in
              query (fun w => bd_mount w id);;
              daemon (fun w => bd_add w id origPath destPath (allowDecompression && negb (IsURL orig)));;
              commit id cmd (cmdName +:+ " " +:+ orig +:+ " in " +:+ dest))
      | _ => fail ("Invalid " +:+ cmdName +:+ " format")
      end
  end.

Definition CmdAdd (args : string) : M W () := runContextCommand args true true "ADD".
Definition CmdCopy (args : string) : M W () := runContextCommand args false false "COPY".

(** *** The base image *)

Definition lookup_or_pull (name : string) : M W (string * option Config) :=
  r ← attempt (daemon (fun w => bd_lookup w name));
  match r with
  | Ok img => mret img
  | Err e =>
      if bd_not_exist e then
        let '(remote, tag) := ParseRepositoryTag name in
        daemon (fun w => bd_pull w remote tag);;
        daemon (fun w => bd_lookup w name)
      else fail e
  end.

Fixpoint run_triggers (step : string -> string -> M W ()) (n : nat) (triggers : list string) : M W () :=
  match triggers with
  | [] => mret ()
  | t :: triggers =>
      let stepInstruction := forbidden_trigger t in
      if String.eqb stepInstruction "ONBUILD" then fail ("Source image contains forbidden chained `ONBUILD ONBUILD` trigger: " +:+ t)
      else if String.eqb stepInstruction "MAINTAINER" || String.eqb stepInstruction "FROM" then
        fail ("Source image contains forbidden " +:+ stepInstruction +:+ " trigger: " +:+ t)
      else step ("onbuild-" +:+ itoa (Z.of_nat n)) t;; run_triggers step (S n) triggers
  end.

Definition base_config (img : option Config) : Config :=
  let c := default empty_config img in
  match Env c with [] => set_Env ["PATH=" +:+ DefaultPathEnv] c | _ => c end.

Definition CmdFrom (step : string -> string -> M W ()) (name : string) : M W () :=
  img ← lookup_or_pull name;
  let c := base_config (snd img) in
  modify (fun b => with_config (with_image b (fst img)) c);;
  (if bool_decide (OnBuild c = []) then mret ()
   else print ("# Executing " +:+ itoa (Z.of_nat (length (OnBuild c))) +:+ " build triggers" +:+ String newline ""));;
  update (set_OnBuild []);;
  run_triggers step 0 (OnBuild c).

(** ** Steps *)

(** The method of an instruction in lower case. *)
Definition method (step : string -> string -> M W ()) (instruction : string) : option (string -> M W ()) :=
  match instruction with
  | "add" => Some CmdAdd
  | "cmd" => Some CmdCmd
  | "copy" => Some CmdCopy
  | "entrypoint" => Some CmdEntrypoint
  | "env" => Some CmdEnv
  | "expose" => Some CmdExpose
  | "from" => Some (CmdFrom step)
  | "insert" => Some CmdInsert
  | "maintainer" => Some CmdMaintainer
  | "onbuild" => Some CmdOnbuild
  | "run" => Some CmdRun
  | "user" => Some CmdUser
  | "volume" => Some CmdVolume
  | "workdir" => Some CmdWorkdir
  | _ => None
  end.

Definition trim_spaces : string -> string := trim (fun c => Ascii.eqb c " ").

Fixpoint BuildStep (fuel : nat) (name expression : string) : M W () :=
  match fuel with
  | O => fun _ _ => OutOfFuel
  | S fuel =>
      print ("Step " +:+ name +:+ " : " +:+ expression +:+ String newline "");;
      match split2 " " expression with
      | [i; a] =>
          let instruction := to_lower (trim_spaces i) in
          if String.eqb instruction "" then or_panics Panic
          else
            match method (BuildStep fuel) instruction with
            | None => print ("# Skipping unknown instruction " +:+ to_upper instruction +:+ String newline "")
            | Some m =>
                m (trim_spaces a);;
                b ← get; print (" ---> " +:+ TruncateID (image b) +:+ String newline "")
            end
      | _ => fail "Invalid Dockerfile format"
      end
  end.

(** A container that is removed is forgotten. *)
Definition clear_one (c : string) : M W () :=
  r ← attempt (daemon (fun w => bd_destroy w c));
  match r with
  | Ok _ => modify (fun b => with_tmp b (tmpContainers b ∖ {[c]}) (tmpImages b));; print ("Removing intermediate container " +:+ TruncateID c +:+ String newline "")
  | Err e => print ("Error removing intermediate container " +:+ TruncateID c +:+ ": " +:+ e +:+ String newline "")
  end.

Fixpoint clear_all (l : list string) : M W () :=
  match l with [] => mret () | c :: l => clear_one c;; clear_all l end.

Definition clearTmp : M W () := b ← get; clear_all (range (tmpContainers b)).

Fixpoint build_steps (stepN : nat) (lines : list string) : M W () :=
  match lines with
  | [] => mret ()
  | line :: lines =>
      r ← attempt (BuildStep 2 (itoa (Z.of_nat stepN)) line);
      match r with
      | Err e => (if forceRm opts then clearTmp else mret ());; fail e
      | Ok _ => (if rm opts then clearTmp else mret ());; build_steps (S stepN) lines
      end
  end.

(** [dockerfile] is the file of that name in the unpacked context. *)
Definition Build (dockerfile : option string) : M W string :=
  match dockerfile with
  | None => fail "Can't build a directory with no Dockerfile"
  | Some "" => fail "Dockerfile cannot be empty"
  | Some fileBytes =>
      build_steps 0 (dockerfile_steps fileBytes);;
      b ← get;
      if negb (String.eqb (image b) "") then
        print ("Successfully built " +:+ TruncateID (image b) +:+ String newline "");; mret (image b)
      else fail ("No image was generated. This may be because the Dockerfile does not, like, do anything." +:+ String newline "")
  end.

Definition NewBuildFile : buildFile :=
  {| image := ""; maintainer := ""; config := empty_config; tmpContainers := ∅; tmpImages := ∅; cmdSet := false; out := [] |}.
End Builder.
