(* ===== verification/Builds.v ===== *)
(** * What the builder does

    Theorems about Builder.v against the interface of the daemon: steps end,
    they give the configured command back, and building the same Dockerfile
    again finds every image it made. *)

From stdpp Require Import base gmap sets list strings sorting.
From Stdlib Require Import ZArith Lia Ascii.
From S2P Require Import Prelude GoStrings GoPath Utf8 GoJSON Parsers Opts RunConfig Tags Builder.

Local Open Scope Z_scope.

(** ** Builds end *)

Definition ends {W A} (m : M W A) : Prop := forall b w, m b w <> OutOfFuel.

Create HintDb ends discriminated.

Lemma ends_ret {W A} (a : A) : ends (mret (M := M W) a).
Proof. done. Qed.

Lemma ends_bind {W A B} (m : M W A) (f : A -> M W B) : ends m -> (forall a, ends (f a)) -> ends (m ≫= f).
Proof.
  intros Hm Hf b w. unfold mbind, M_bind. specialize (Hm b w). destruct (m b w) as [[[b' w'] [a|e]]| |]; [apply Hf|done..].
Qed.

Lemma ends_base {W A} (f : buildFile -> W -> buildFile * W * result string A) : ends (fun b w => Return (f b w)).
Proof. done. Qed.

Lemma ends_modify {W} f : ends (modify (W := W) f).
Proof. done. Qed.
Lemma ends_get {W} : ends (get (W := W)).
Proof. done. Qed.
Lemma ends_fail {W A} e : ends (fail (W := W) (A := A) e).
Proof. done. Qed.
Lemma ends_query {W A} f : ends (query (W := W) (A := A) f).
Proof. done. Qed.
Lemma ends_result {W A} r : ends (pure_result (W := W) (A := A) r).
Proof. done. Qed.
Lemma ends_daemon {W A} f : ends (daemon (W := W) (A := A) f).
Proof. intros b w. unfold daemon. by destruct (f w). Qed.
Lemma ends_panics {W A} (o : outcome A) : o <> OutOfFuel -> ends (or_panics (W := W) o).
Proof. intros Ho b w. unfold or_panics. by destruct o. Qed.
Lemma ends_restoring {W A} cmd (m : M W A) : ends m -> ends (restoring cmd m).
Proof. intros Hm b w. unfold restoring. specialize (Hm b w). by destruct (m b w) as [[[? ?] ?]| |]. Qed.
Lemma ends_attempt {W A} (m : M W A) : ends m -> ends (attempt m).
Proof. intros Hm b w. unfold attempt. specialize (Hm b w). by destruct (m b w) as [[[? ?] ?]| |]. Qed.

(** Through a computation by its structure. *)
Ltac ends :=
  repeat match goal with
    | |- ends (_ ≫= _) => apply ends_bind; [|intros ?]
    | |- ends (mret _) => apply ends_ret
    | |- ends (modify _) => apply ends_modify
    | |- ends get => apply ends_get
    | |- ends (fail _) => apply ends_fail
    | |- ends (query _) => apply ends_query
    | |- ends (pure_result _) => apply ends_result
    | |- ends (daemon _) => apply ends_daemon
    | |- ends (restoring _ _) => apply ends_restoring
    | |- ends (attempt _) => apply ends_attempt
    | |- ends (match ?x with _ => _ end) => destruct x
    end; auto with ends.

Lemma env_value_ends env key : env_value env key <> OutOfFuel.
Proof.
  induction env as [|e env IH]; [done|]. simpl. destruct (split2 "=" e) as [|k [|v [|? ?]]]; try done. by destruct (String.eqb k key).
Qed.

Lemma ReplaceEnvMatches_ends env value : ReplaceEnvMatches_ env value <> OutOfFuel.
Proof.
  unfold ReplaceEnvMatches_. assert (forall l o, o <> OutOfFuel -> foldl (replace_var env) o l <> OutOfFuel) as Hl; [|by apply Hl].
  induction l as [|m l IH]; intros o Ho; [done|]. simpl. apply IH. unfold replace_var. destruct o as [v| |]; [|done..].
  simpl. pose proof (env_value_ends env (trim (fun c => existsb (Ascii.eqb c) ["$"; "{"; "}"]%char) m)) as He. by destruct (env_value env _).
Qed.

(** The instruction of a trigger is the one [CmdFrom] looks at. *)
Lemma upper_lower s : to_upper (to_lower s) = to_upper s.
Proof.
  unfold to_upper, to_lower. induction s as [|c s IH]; [done|]. simpl. rewrite IH. f_equal.
  by destruct c as [[] [] [] [] [] [] [] []].
Qed.

Lemma head_split2 c s : head (split2 c s) = head (split c s).
Proof.
  induction s as [|d s IH]; [done|]. unfold split2 in *. cbn [index_char split]. destruct (Ascii.eqb d c); [done|].
  destruct (index_char c s) as [n|]; simpl in *; destruct (split c s); simpl in *; try done; by injection IH as ->.
Qed.

(** The image a line builds from. *)
Definition from_line (line : string) : option string :=
  match split2 " " line with [i; a] => if String.eqb (to_lower (trim_spaces i)) "from" then Some (trim_spaces a) else None | _ => None end.

(** A trigger that may be run is no FROM. *)
Lemma trigger_no_from t : String.eqb (forbidden_trigger t) "MAINTAINER" || String.eqb (forbidden_trigger t) "FROM" = false -> from_line t = None.
Proof.
  intros [_ E%String.eqb_neq]%orb_false_iff. unfold from_line. destruct (split2 " " t) as [|i [|a [|? ?]]] eqn:Hs; try done.
  destruct (String.eqb_spec (to_lower (trim_spaces i)) "from") as [Hf|]; [|done].
  exfalso. apply E. unfold forbidden_trigger. rewrite <- head_split2, Hs. cbn [head default].
  change (to_upper (trim_spaces i) = "FROM"). by rewrite <- upper_lower, Hf.
Qed.

Section Ends.
Context {W : Type} `{BuildDaemon W}.
Context (is_ip : string -> bool) (sha256 : string -> string) (print_order : buildFile -> W -> PortSet -> list string) (range : gset string -> list string).
Context (opts : BuildOptions) (contextPath : string) (context : option BuildContext) (download : string -> result string Remote).

Lemma probeCache_ends : ends (probeCache opts).
Proof. unfold probeCache, print. ends. Qed.
#[local] Hint Resolve probeCache_ends : ends.

Lemma create_container_ends : ends create_container.
Proof. intros b w. unfold create_container. by destruct (bd_create w (config b)) as [[? ?] ?]. Qed.
#[local] Hint Resolve create_container_ends : ends.

Lemma commit_container_ends id cmd : ends (commit_container id cmd).
Proof.
  intros b w. unfold commit_container. destruct (bd_get w id); [|done]. simpl. by destruct (bd_commit _ _ _ _ _) as [? [?|?]].
Qed.
#[local] Hint Resolve commit_container_ends : ends.

Lemma new_container_ends : ends new_container.
Proof. unfold new_container, running_in, print. ends. Qed.
#[local] Hint Resolve new_container_ends : ends.

Lemma commit_ends id cmd comment : ends (commit opts id cmd comment).
Proof. unfold commit, update. ends. Qed.
#[local] Hint Resolve commit_ends : ends.

Lemma commit_config_ends comment : ends (commit_config opts comment).
Proof. unfold commit_config. ends. Qed.
#[local] Hint Resolve commit_config_ends : ends.

Lemma ReplaceEnvMatches_M_ends value : ends (ReplaceEnvMatches (W := W) value).
Proof. unfold ReplaceEnvMatches. ends. apply ends_panics, ReplaceEnvMatches_ends. Qed.
#[local] Hint Resolve ReplaceEnvMatches_M_ends : ends.

Lemma create_ends : ends create.
Proof. unfold create, update, running_in, print. ends. by apply ends_panics. Qed.
#[local] Hint Resolve create_ends : ends.

Lemma run_ends id : ends (run opts id).
Proof. unfold run, print. ends. Qed.
#[local] Hint Resolve run_ends : ends.

Lemma hash_path_ends ctx h p : hash_path sha256 contextPath ctx h p <> OutOfFuel.
Proof. unfold hash_path. destruct (negb _); [done|]. destruct (IsDir ctx _) as [[]|]; [done| |done]. by destruct p. Qed.

Lemma runContextCommand_ends args r d name : ends (runContextCommand sha256 opts contextPath context download args r d name).
Proof.
  unfold runContextCommand, probe_files, update. ends.
  apply ends_panics, hash_path_ends.
Qed.
#[local] Hint Resolve runContextCommand_ends : ends.

Lemma printed_ends ports : ends (printed print_order ports).
Proof. done. Qed.
#[local] Hint Resolve printed_ends : ends.

Lemma method_ends step i args :
  match method is_ip sha256 print_order opts contextPath context download step i with
  | Some m => (i = "from" /\ m = CmdFrom step) \/ (i <> "from" /\ ends (m args))
  | None => True
  end.
Proof.
  unfold method.
  repeat match goal with |- match (match ?x with _ => _ end) with _ => _ end => destruct x; try done end.
  all: try (by left); right; split; try done.
  all: unfold CmdAdd, CmdCopy, CmdCmd, CmdEntrypoint, CmdEnv, CmdExpose, CmdInsert, CmdMaintainer, CmdOnbuild, CmdRun, CmdUser, CmdVolume, CmdWorkdir, update; cbv zeta.
  all: ends; by apply ends_panics.
Qed.
Lemma BuildStep_step_ends fuel name expr :
  from_line expr = None ->
  ends (BuildStep is_ip sha256 print_order opts contextPath context download (S fuel) name expr).
Proof.
  unfold from_line. cbn [BuildStep]. unfold print. destruct (split2 " " expr) as [|i [|a [|? ?]]] eqn:E; [intros _; ends..| |intros _; ends].
  destruct (String.eqb_spec (to_lower (trim_spaces i)) "from") as [|Hi]; [done|]. intros _. pose proof (method_ends (BuildStep is_ip sha256 print_order opts contextPath context download fuel) (to_lower (trim_spaces i)) (trim_spaces a)) as Hm.
  destruct (String.eqb _ _); [ends; by apply ends_panics|].
  destruct (method _ _ _ _ _ _ _ _ _) as [m|]; ends. by destruct Hm as [[? _]|[_ ?]].
Qed.

Lemma BuildStep_ends name expr : ends (BuildStep is_ip sha256 print_order opts contextPath context download 2 name expr).
Proof.
  set (step1 := BuildStep is_ip sha256 print_order opts contextPath context download 1).
  assert (forall l n, ends (run_triggers step1 n l)) as Htr.
  { induction l as [|t l IH]; intros n; cbn [run_triggers]; [ends|]. cbv zeta.
    destruct (String.eqb _ _); [ends|]. destruct (_ || _) eqn:E; ends. by apply BuildStep_step_ends, trigger_no_from. }
  cbn [BuildStep]. fold step1. unfold print. destruct (split2 " " expr) as [|i [|a [|? ?]]] eqn:E; [ends..| |ends].
  pose proof (method_ends step1 (to_lower (trim_spaces i)) (trim_spaces a)) as Hm.
  destruct (String.eqb _ _); [ends; by apply ends_panics|].
  destruct (method _ _ _ _ _ _ _ _ _) as [m|]; ends. destruct Hm as [[_ ->]|[_ ?]]; [|done].
  unfold CmdFrom, lookup_or_pull, update, print. ends.
Qed.
#[local] Hint Resolve BuildStep_ends : ends.

Lemma clearTmp_ends : ends (clearTmp range).
Proof.
  unfold clearTmp. ends. induction (range _) as [|c l IH]; cbn [clear_all]; ends. unfold clear_one, print. ends.
Qed.
#[local] Hint Resolve clearTmp_ends : ends.

(** C25. A build ends: whatever the Dockerfile, the daemon and the state, with
    the fuel two of [BuildStep], since a trigger never runs another FROM. *)
Theorem Build_ends dockerfile b w :
  Build is_ip sha256 print_order range opts contextPath context download dockerfile b w <> OutOfFuel.
Proof.
  revert b w. change (ends (Build is_ip sha256 print_order range opts contextPath context download dockerfile)).
  unfold Build, print. destruct dockerfile as [[|c s]|]; ends.
  generalize 0%nat. induction (dockerfile_steps _) as [|l ls IH]; intros n; cbn [build_steps]; ends.
Qed.
End Ends.

(** ** The command of the configuration *)

(** [m] leaves what [f] tells of the builder as it was, [c]: the configured
    command, or whether a CMD was met. *)
Definition keeps {X W A} (f : buildFile -> X) (c : X) (m : M W A) : Prop :=
  forall b w b' w' r, f b = c -> m b w = Return (b', w', r) -> f b' = c.

Abbreviation keeps_cmd := (keeps (fun x => Cmd (config x))).
Abbreviation keeps_set := (keeps cmdSet).

Section Keeps.
Context {X W : Type} (f : buildFile -> X) (c : X).

Lemma keeps_bind {A B} (m : M W A) (k : A -> M W B) : keeps f c m -> (forall a, keeps f c (k a)) -> keeps f c (m ≫= k).
Proof.
  intros Hm Hf b w b' w' r Hb. unfold mbind, M_bind. destruct (m b w) as [[[b1 w1] r1]| |] eqn:E; [|done..].
  specialize (Hm _ _ _ _ _ Hb E). simpl. destruct r1 as [a|e]; [by apply Hf|]. by intros [= <- <- <-].
Qed.

Lemma keeps_get {A} (k : buildFile -> M W A) : (forall b, f b = c -> keeps f c (k b)) -> keeps f c (get ≫= k).
Proof. intros Hf b w b' w' r Hb. by apply Hf. Qed.

Lemma keeps_same {A} (m : M W A) : (forall b w b' w' r, m b w = Return (b', w', r) -> b' = b) -> keeps f c m.
Proof. intros Hm b w b' w' r Hb E. by rewrite (Hm _ _ _ _ _ E). Qed.

Lemma keeps_ret {A} (a : A) : keeps f c (mret (M := M W) a).
Proof. apply keeps_same. by intros b w b' w' r [= <- <- <-]. Qed.
Lemma keeps_fail {A} e : keeps f c (fail (W := W) (A := A) e).
Proof. apply keeps_same. by intros b w b' w' r [= <- <- <-]. Qed.
Lemma keeps_query {A} q : keeps f c (query (W := W) (A := A) q).
Proof. apply keeps_same. by intros b w b' w' r [= <- <- <-]. Qed.
Lemma keeps_result {A} x : keeps f c (pure_result (W := W) (A := A) x).
Proof. apply keeps_same. by intros b w b' w' r [= <- <- <-]. Qed.
Lemma keeps_panics {A} (o : outcome A) : keeps f c (or_panics (W := W) o).
Proof. apply keeps_same. intros b w b' w' r. unfold or_panics. destruct o; [by intros [= <- <- <-]|done..]. Qed.
Lemma keeps_daemon {A} d : keeps f c (daemon (W := W) (A := A) d).
Proof. apply keeps_same. intros b w b' w' r. unfold daemon. destruct (d w). by intros [= <- <- <-]. Qed.
Lemma keeps_modify g : (forall b, f (g b) = f b) -> keeps f c (modify (W := W) g).
Proof. intros Hf b w b' w' r Hb [= <- <- <-]. by rewrite Hf. Qed.
Lemma command_attempt {A} (m : M W A) : keeps f c m -> keeps f c (attempt m).
Proof. intros Hm b w b' w' r Hb. unfold attempt. destruct (m b w) as [[[b1 w1] r1]| |] eqn:E; [|done..]. intros [= <- _ _]. by apply (Hm _ _ _ _ _ Hb E). Qed.
End Keeps.

Section Restoring.
Context {W : Type} (c : list string).

Lemma keeps_restoring {A} (m : M W A) : keeps_cmd c (restoring c m).
Proof. intros b w b' w' r _. unfold restoring. destruct (m b w) as [[[b1 w1] r1]| |]; [by intros [= <- <- <-]|done..]. Qed.
Lemma keeps_update_restoring {A} f (m : M W A) : keeps_cmd c (update f;; restoring c m).
Proof. intros b w b' w' r _. unfold mbind, M_bind, update, modify. simpl. unfold restoring. destruct (m _ w) as [[[b1 w1] r1]| |]; [by intros [= <- <- <-]|done..]. Qed.
Lemma keeps_set_restoring {A} v (m : M W A) : keeps_set v m -> keeps_set v (restoring c m).
Proof. intros Hm b w b' w' r Hb. unfold restoring. destruct (m b w) as [[[b1 w1] r1]| |] eqn:E; [|done..]. intros [= <- _ _]. apply (Hm _ _ _ _ _ Hb E). Qed.
End Restoring.

Ltac keeps :=
  repeat match goal with
    | |- keeps _ _ (get ≫= _) => apply keeps_get; intros ? ?; cbv beta in *
    | H : Cmd (config ?b) = ?c |- keeps_cmd ?c (update _ ≫= (fun _ => restoring (Cmd (config ?b)) _)) => rewrite H; apply keeps_update_restoring
    | |- keeps _ _ (_ ≫= _) => apply keeps_bind; [|intros ?]
    | |- keeps _ _ (mret _) => apply keeps_ret
    | |- keeps _ _ (modify _) => apply keeps_modify; intros ?; try reflexivity
    | |- keeps _ _ (update _) => apply keeps_modify; intros ?; try reflexivity
    | |- keeps _ _ (print _) => apply keeps_modify; intros ?; try reflexivity
    | |- keeps _ _ (printed _ _) => apply keeps_same; by intros ? ? ? ? ? [= <- _ _]
    | |- keeps _ _ (fail _) => apply keeps_fail
    | |- keeps _ _ (query _) => apply keeps_query
    | |- keeps _ _ (pure_result _) => apply keeps_result
    | |- keeps _ _ (or_panics _) => apply keeps_panics
    | |- keeps _ _ (daemon _) => apply keeps_daemon
    | |- keeps_set _ (restoring _ _) => apply keeps_set_restoring
    | H : Cmd (config ?b) = ?c |- keeps_cmd ?c (restoring (Cmd (config ?b)) _) => rewrite H; apply keeps_restoring
    | |- keeps_cmd _ (restoring _ _) => apply keeps_restoring
    | |- keeps _ _ (match ?x with _ => _ end) => destruct x
    end.

Section CmdLemmas.
Context {W : Type} `{BuildDaemon W}.
Context (is_ip : string -> bool) (sha256 : string -> string) (print_order : buildFile -> W -> PortSet -> list string) (range : gset string -> list string).
Context (opts : BuildOptions) (contextPath : string) (context : option BuildContext) (download : string -> result string Remote).

Lemma keeps_commit_container c id cmd : keeps_cmd c (commit_container id cmd).
Proof.
  intros b w b' w' r Hb. unfold commit_container. destruct (bd_get w id); simpl; [|by intros [= <- <- <-]].
  destruct (bd_commit _ _ _ _ _) as [w1 [n|e]]; by intros [= <- <- <-].
Qed.

Lemma set_commit_container v id cmd : keeps_set v (commit_container id cmd).
Proof.
  intros b w b' w' r Hb. unfold commit_container. destruct (bd_get w id); simpl; [|by intros [= <- <- <-]].
  destruct (bd_commit _ _ _ _ _) as [w1 [n|e]]; by intros [= <- <- <-].
Qed.

Lemma set_create_container v : keeps_set v create_container.
Proof.
  intros b w b' w' r Hb. unfold create_container. destruct (bd_create w (config b)) as [[w1 c1] [[id ws]|e]]; by intros [= <- <- <-].
Qed.

Lemma set_new_container v : keeps_set v new_container.
Proof.
  unfold new_container, running_in. keeps; [apply set_create_container|]. match goal with |- cmdSet (foldl _ ?b ?l) = _ => generalize b; induction l as [|x l IH]; intros b0; [done|] end.
  simpl. by rewrite IH.
Qed.

Lemma set_commit v id cmd comment : keeps_set v (commit opts id cmd comment).
Proof. unfold commit, probeCache. keeps; apply set_commit_container || apply set_new_container. Qed.

Lemma set_commit_config v comment : keeps_set v (commit_config opts comment).
Proof. unfold commit_config. keeps. apply set_commit. Qed.

Lemma set_context v args r d name : keeps_set v (runContextCommand sha256 opts contextPath context download args r d name).
Proof. unfold runContextCommand, ReplaceEnvMatches, probe_files, probeCache. keeps; apply set_commit || apply set_create_container. Qed.

Lemma set_run_command v args : keeps_set v (CmdRun is_ip opts args).
Proof. unfold CmdRun, probeCache, create, run, running_in; cbv zeta. keeps; apply set_commit || apply set_create_container. Qed.

Lemma keeps_commit c id cmd comment : keeps_cmd c (commit opts id cmd comment).
Proof. unfold commit. keeps; apply keeps_commit_container. Qed.

Lemma keeps_commit_config c comment : keeps_cmd c (commit_config opts comment).
Proof. unfold commit_config. keeps. apply keeps_commit. Qed.

Lemma keeps_context c args r d name : keeps_cmd c (runContextCommand sha256 opts contextPath context download args r d name).
Proof. unfold runContextCommand, ReplaceEnvMatches. keeps. Qed.

Lemma keeps_run_command c args : keeps_cmd c (CmdRun is_ip opts args).
Proof. unfold CmdRun; cbv zeta. keeps. Qed.

Lemma method_keeps c step i args m :
  method is_ip sha256 print_order opts contextPath context download step i = Some m ->
  i <> "from" -> i <> "cmd" -> i <> "entrypoint" -> keeps_cmd c (m args).
Proof.
  unfold method.
  repeat match goal with |- match ?x with _ => _ end = _ -> _ => destruct x; try done end.
  all: intros [= <-] Hf Hc He; try done.
  all: unfold CmdAdd, CmdCopy, CmdEnv, CmdExpose, CmdInsert, CmdMaintainer, CmdOnbuild, CmdUser, CmdVolume, CmdWorkdir, ReplaceEnvMatches; cbv zeta.
  all: keeps; try apply keeps_commit_config; try apply keeps_context; apply keeps_run_command.
Qed.

Lemma method_keeps_set v step i args m :
  method is_ip sha256 print_order opts contextPath context download step i = Some m ->
  i <> "from" -> i <> "cmd" -> keeps_set v (m args).
Proof.
  unfold method.
  repeat match goal with |- match ?x with _ => _ end = _ -> _ => destruct x; try done end.
  all: intros [= <-] Hf Hc; try done.
  all: unfold CmdAdd, CmdCopy, CmdEnv, CmdEntrypoint, CmdExpose, CmdInsert, CmdMaintainer, CmdOnbuild, CmdUser, CmdVolume, CmdWorkdir, ReplaceEnvMatches; cbv zeta.
  all: keeps; try apply set_commit_config; try apply set_context; apply set_run_command.
Qed.

(** Whether there was a CMD, and the command, after a line that is no FROM. *)
Definition after_line (before : bool * list string) (line : string) : bool * list string :=
  match split2 " " line with
  | [i; a] =>
      let instruction := to_lower (trim_spaces i) in
      if String.eqb instruction "cmd" then (true, buildCmdFromJson (trim_spaces a))
      else if String.eqb instruction "entrypoint" then (before.1, if before.1 then before.2 else [])
      else before
  | _ => before
  end.

Lemma modify_bind {A} f (k : M W A) b w : (modify f;; k) b w = k (f b) w.
Proof. done. Qed.

Lemma update_bind {A} f (k : M W A) b w : (update f;; k) b w = k (with_config b (f (config b))) w.
Proof. done. Qed.

Lemma print_bind {A} s (k : M W A) b w : (print s;; k) b w = k (with_out b s) w.
Proof. done. Qed.

Lemma get_bind {A} (f : buildFile -> M W A) b w : (get ≫= f) b w = f b b w.
Proof. done. Qed.

#[local] Abbreviation build_step := (BuildStep is_ip sha256 print_order opts contextPath context download).
#[local] Abbreviation build_method := (method is_ip sha256 print_order opts contextPath context download).

Lemma BuildStep_unfold fuel name expression b w :
  build_step (S fuel) name expression b w =
  (match split2 " " expression with
   | [i; a] =>
       let instruction := to_lower (trim_spaces i) in
       if String.eqb instruction "" then or_panics Panic
       else match build_method (build_step fuel) instruction with
            | None => print ("# Skipping unknown instruction " +:+ to_upper instruction +:+ String newline "")
            | Some m => m (trim_spaces a);; (b ← get; print (" ---> " +:+ TruncateID (image b) +:+ String newline ""))
            end
   | _ => fail "Invalid Dockerfile format"
   end) (with_out b ("Step " +:+ name +:+ " : " +:+ expression +:+ String newline "")) w.
Proof. done. Qed.

Lemma step_tail (m : M W ()) (f : buildFile -> string) b w b' w' r :
  (m;; (b ← get; print (f b))) b w = Return (b', w', r) ->
  exists b1 w1 r1, m b w = Return (b1, w1, r1) /\ config b' = config b1 /\ cmdSet b' = cmdSet b1 /\ r = r1.
Proof.
  unfold mbind at 1, M_bind at 1. destruct (m b w) as [[[b1 w1] r1]| |]; [|done..]. simpl. intros E. exists b1, w1, r1. split; [done|].
  by destruct r1 as [[]|e]; injection E as <- <- <-.
Qed.

Lemma CmdCmd_command args b w b' w' r : CmdCmd opts args b w = Return (b', w', r) -> Cmd (config b') = buildCmdFromJson args.
Proof.
  unfold CmdCmd, update; cbv zeta. rewrite modify_bind. apply (keeps_bind (fun x => Cmd (config x)) (buildCmdFromJson args)); [apply keeps_commit_config| |done].
  intros []. by apply keeps_modify.
Qed.

Lemma CmdEntrypoint_command args b w b' w' r : CmdEntrypoint opts args b w = Return (b', w', r) ->
  Cmd (config b') = if cmdSet b then Cmd (config b) else [].
Proof.
  unfold CmdEntrypoint, update; cbv zeta. rewrite modify_bind, get_bind.
  change (cmdSet (with_config b _)) with (cmdSet b). destruct (cmdSet b).
  - apply (keeps_bind (fun x => Cmd (config x)) (Cmd (config b))); [apply keeps_ret|intros []; apply keeps_commit_config|done].
  - rewrite modify_bind. by apply (keeps_commit_config []).
Qed.

Lemma CmdCmd_set args b w b' w' : CmdCmd opts args b w = Return (b', w', Ok ()) -> cmdSet b' = true.
Proof.
  unfold CmdCmd, update; cbv zeta. rewrite modify_bind. unfold mbind, M_bind.
  destruct (commit_config _ _ _ _) as [[[b1 w1] [[]|e]]| |]; try done. by intros [= <- _].
Qed.

(** A line that is no FROM. *)
Lemma line_command fuel name line b w b' w' r :
  build_step (S fuel) name line b w = Return (b', w', r) -> from_line line = None ->
  Cmd (config b') = (after_line (cmdSet b, Cmd (config b)) line).2 /\ (is_ok r = true -> cmdSet b' = (after_line (cmdSet b, Cmd (config b)) line).1).
Proof.
  unfold after_line, from_line. rewrite BuildStep_unfold. intros E Hfrom.
  set (b0 := with_out b _) in E. change (config b) with (config b0). change (cmdSet b) with (cmdSet b0). clearbody b0. clear b.
  destruct (split2 " " line) as [|i [|a [|? ?]]]; try (by injection E as <- <- <-).
  revert E Hfrom. cbv zeta. destruct (String.eqb (to_lower (trim_spaces i)) ""); [done|]. generalize (to_lower (trim_spaces i)). intros x E Hfrom.
  destruct (String.eqb_spec x "from") as [->|Hf]; [done|]. clear Hfrom.
  destruct (build_method (build_step fuel) x) as [m|] eqn:Em.
  2: { injection E as <- <- <-. destruct (String.eqb_spec x "cmd") as [->|_]; [done|]. by destruct (String.eqb_spec x "entrypoint") as [->|_]. }
  apply step_tail in E as (b1 & w1 & r1 & E & Hcf & Hst & Hr). rewrite Hcf, Hst.
  destruct (String.eqb_spec x "cmd") as [->|Hcm].
  { injection Em as <-. split; [by apply CmdCmd_command in E|]. intros Hok. rewrite Hr in Hok. destruct r1 as [[]|]; [|done]. by apply CmdCmd_set in E. }
  assert (cmdSet b1 = cmdSet b0) as Hset by (by apply (method_keeps_set (cmdSet b0) (build_step fuel) x (trim_spaces a) m Em Hf Hcm _ _ _ _ _ eq_refl E)).
  destruct (String.eqb_spec x "entrypoint") as [->|He].
  { injection Em as <-. by apply CmdEntrypoint_command in E. }
  split; [|done]. by apply (method_keeps (Cmd (config b0)) (build_step fuel) x (trim_spaces a) m Em Hf Hcm He _ _ _ _ _ eq_refl E).
Qed.

(** Triggers are lines that are no FROM. *)
Lemma triggers_command fuel triggers : forall n b w b' w' r, run_triggers (build_step (S fuel)) n triggers b w = Return (b', w', r) ->
  exists k, (k <= length triggers)%nat /\ (is_ok r = true -> k = length triggers) /\
    let after := foldl after_line (cmdSet b, Cmd (config b)) (take k triggers) in
    Cmd (config b') = after.2 /\ (is_ok r = true -> cmdSet b' = after.1).
Proof.
  induction triggers as [|t ts IH]; intros n b w b' w' r; cbn [run_triggers]; [intros [= <- <- <-]; exists 0%nat; simpl; by split_and!; auto|].
  destruct (String.eqb_spec (forbidden_trigger t) "ONBUILD") as [|Ho]; [intros [= <- <- <-]; exists 0%nat; simpl; split_and!; (lia || done)|].
  destruct (String.eqb (forbidden_trigger t) "MAINTAINER" || String.eqb (forbidden_trigger t) "FROM") eqn:Efb;
    [intros [= <- <- <-]; exists 0%nat; simpl; split_and!; (lia || done)|].
  assert (from_line t = None) as Ht by (by apply trigger_no_from).
  unfold mbind at 1, M_bind at 1. destruct (build_step (S fuel) _ t b w) as [[[b1 w1] r1]| |] eqn:E; [|done..]. cbn [mbind outcome_bind].
  destruct (line_command _ _ _ _ _ _ _ _ E Ht) as [H1 H2]. destruct r1 as [[]|e].
  - intros (k & Hk & Hk2 & Hc)%IH. exists (S k). cbn [take foldl length]. rewrite H1, H2 in Hc by done. rewrite <- surjective_pairing in Hc.
    split; [lia|]. split; [intros Hok; by rewrite Hk2|exact Hc].
  - intros [= <- <- <-]. exists 1%nat. cbn [take foldl length]. split; [lia|]. split; [done|]. by split.
Qed.

Lemma lookup_or_pull_same a b w b' w' r : lookup_or_pull (W := W) a b w = Return (b', w', r) -> b' = b.
Proof.
  unfold lookup_or_pull. intros E. assert (keeps (fun b => b) b (lookup_or_pull (W := W) a)) as Hk.
  { unfold lookup_or_pull. keeps. by apply command_attempt, keeps_daemon. all: keeps. }
  by apply (Hk b w b' w' r).
Qed.

(** C26. The command of the configuration after a step.  After FROM it is the
    command of the image, changed by each of the image's triggers that was
    run in the way of its line; when the image is not found it is as it was.
    After any other line, whether the step succeeds, finds a cached image or
    fails, it is as it was - the commands of RUN, of COPY and ADD and of the
    containers made for commits are gone -, except that CMD sets it and
    ENTRYPOINT clears it unless a CMD came before. *)
Theorem BuildStep_command name line b w b' w' r :
  BuildStep is_ip sha256 print_order opts contextPath context download 2 name line b w = Return (b', w', r) ->
  match from_line line with
  | None =>
      Cmd (config b') = (after_line (cmdSet b, Cmd (config b)) line).2 /\
      (is_ok r = true -> cmdSet b' = (after_line (cmdSet b, Cmd (config b)) line).1)
  | Some base =>
      match lookup_or_pull base (with_out b ("Step " +:+ name +:+ " : " +:+ line +:+ String newline "")) w with
      | Return (_, _, Ok (_, img)) =>
          let c := default empty_config img in
          exists k, (k <= length (OnBuild c))%nat /\ (is_ok r = true -> k = length (OnBuild c)) /\
            let after := foldl after_line (cmdSet b, Cmd c) (take k (OnBuild c)) in
            Cmd (config b') = after.2 /\ (is_ok r = true -> cmdSet b' = after.1)
      | _ => Cmd (config b') = Cmd (config b) /\ is_ok r = false
      end
  end.
Proof.
  intros E. destruct (from_line line) as [base|] eqn:Hf; [|by apply line_command in E].
  rewrite BuildStep_unfold in E. set (b0 := with_out b _) in *. change (config b) with (config b0). change (cmdSet b) with (cmdSet b0). clearbody b0. clear b.
  unfold from_line in Hf. destruct (split2 " " line) as [|i [|a [|? ?]]]; try done. cbv zeta in E.
  destruct (String.eqb_spec (to_lower (trim_spaces i)) "from") as [Hi|]; [|done]. injection Hf as <-. rewrite Hi in E. cbn [String.eqb] in E.
  change (build_method (build_step 1) "from") with (Some (CmdFrom (build_step 1))) in E. cbv iota in E.
  apply step_tail in E as (b1 & w1 & r1 & E & Hcf & Hst & ->). rewrite Hcf, Hst. clear Hcf Hst.
  unfold CmdFrom in E. unfold mbind at 1, M_bind at 1 in E.
  destruct (lookup_or_pull (trim_spaces a) b0 w) as [[[b2 w2] [[id img]|e]]| |] eqn:El; [| |done..]; apply lookup_or_pull_same in El as ->; cbn [mbind outcome_bind snd] in E.
  2: { by injection E as <- _ <-. }
  cbv zeta in E. rewrite modify_bind in E. cbn [fst snd] in E. intros c.
  assert (Cmd (base_config img) = Cmd c /\ OnBuild (base_config img) = OnBuild c) as [HC HO] by (unfold base_config, c; by destruct (Env (default empty_config img))).
  assert (forall (k : M W ()) b w, ((if bool_decide (OnBuild (base_config img) = []) then mret () else print ("# Executing " +:+ itoa (Z.of_nat (length (OnBuild (base_config img)))) +:+ " build triggers" +:+ String newline ""));; k) b w =
    k (if bool_decide (OnBuild (base_config img) = []) then b else with_out b ("# Executing " +:+ itoa (Z.of_nat (length (OnBuild (base_config img)))) +:+ " build triggers" +:+ String newline "")) w) as Hp
    by (intros; by destruct (bool_decide _)).
  rewrite Hp in E. clear Hp. set (b3 := if bool_decide _ then _ else _) in E.
  assert (Cmd (config b3) = Cmd c /\ cmdSet b3 = cmdSet b0) as [H3 H4] by (rewrite <- HC; unfold b3; by destruct (bool_decide _)).
  clearbody b3. rewrite update_bind in E. apply triggers_command in E as (k & Hk1 & Hk2 & Hk3). rewrite HO in Hk1, Hk2, Hk3.
  exists k. split; [done|]. split; [done|]. revert Hk3. change (Cmd (config (with_config b3 _))) with (Cmd (config b3)).
  change (cmdSet (with_config b3 _)) with (cmdSet b3). by rewrite H3, H4.
Qed.
End CmdLemmas.

(** ** Commands *)

(** The two forms of a command: a list of ASCII words written as JSON is
    that list, and a text that does not begin like a list is given to the
    shell as it is. *)
Theorem buildCmdFromJson_forms args :
  (forall l, Forall (fun s => is_ascii s = true) l -> args = render_strings l -> buildCmdFromJson args = l) /\
  (match skip_space args with String c _ => negb (Ascii.eqb c "[") && negb (Ascii.eqb c "n") | "" => true end = true -> buildCmdFromJson args = ["/bin/sh"; "-c"; args]).
Proof.
  unfold buildCmdFromJson. split.
  - intros l Hl ->. by rewrite json_strings_render.
  - intros Ha. unfold json_strings. destruct (skip_space args) as [|c s]; [done|]. apply andb_true_iff in Ha as [H1%negb_true_iff H2%negb_true_iff].
    destruct c as [[] [] [] [] [] [] [] []]; try done.
Qed.

Lemma buildCmdFromJson_forms_witness :
  buildCmdFromJson (render_strings ["echo"; "a b"]) = ["echo"; "a b"] /\ buildCmdFromJson "echo a b" = ["/bin/sh"; "-c"; "echo a b"].
Proof.
  split.
  - apply (proj1 (buildCmdFromJson_forms (render_strings ["echo"; "a b"]))); [repeat constructor|reflexivity].
  - apply (proj2 (buildCmdFromJson_forms "echo a b")). reflexivity.
Defined.
