(* ===== verification/Rebuild.v ===== *)
(** * Building the same Dockerfile again

    What the builder needs of the daemon, as laws of [BuildDaemon]: an image
    that is committed has the configuration it is committed with, is new, and
    is from then on the one found for the container's image and
    configuration.  Against these laws: building a Dockerfile again, now with
    the cache, finds every image the first build made, makes none, and runs
    nothing. *)

From stdpp Require Import base gmap sets list strings sorting.
From Stdlib Require Import ZArith Lia Ascii.
From S2P Require Import Prelude GoStrings GoPath Utf8 GoJSON Parsers Opts RunConfig Tags Builder Builds.

Local Open Scope Z_scope.

(** ** Configurations up to names and empty maps *)

(** Without the host's name and the image's, which every container gets anew;
    no ports is an empty set of ports. *)
Definition canon (c : Config) : Config :=
  {| Hostname := ""; Domainname := Domainname c; User := User c; Memory := Memory c; MemorySwap := MemorySwap c; CpuShares := CpuShares c; Cpuset := Cpuset c;
     AttachStdin := AttachStdin c; AttachStdout := AttachStdout c; AttachStderr := AttachStderr c; PortSpecs := PortSpecs c; ExposedPorts := Some (ports_of c); Tty := Tty c;
     OpenStdin := OpenStdin c; StdinOnce := StdinOnce c; Env := Env c; Cmd := Cmd c; Image := ""; Volumes := Volumes c; WorkingDir := WorkingDir c; Entrypoint := Entrypoint c;
     NetworkDisabled := NetworkDisabled c; OnBuild := OnBuild c |}.

(** Nothing of [i] is missing in [u]. *)
Record covered (u i : Config) : Prop := {
  covered_specs : PortSpecs u = [] /\ PortSpecs i = [];
  covered_user : or_text (User u) (User i) = User u;
  covered_limits : or_int (Memory u) (Memory i) = Memory u /\ or_int (MemorySwap u) (MemorySwap i) = MemorySwap u /\ or_int (CpuShares u) (CpuShares i) = CpuShares u;
  covered_env : forall e, e ∈ Env i -> env_key e ∈ env_key <$> Env u;
  covered_ports : dom (ports_of i) ⊆ dom (ports_of u);
  covered_volumes : dom (Volumes i) ⊆ dom (Volumes u);
  covered_dir : or_text (WorkingDir u) (WorkingDir i) = WorkingDir u;
  covered_entrypoint : Entrypoint u = [] -> Entrypoint i = [] }.

Lemma or_text_same x : or_text x x = x.
Proof. unfold or_text. by destruct (String.eqb x ""). Qed.
Lemma or_int_same x : or_int x x = x.
Proof. unfold or_int. by destruct (x =? 0). Qed.

Lemma covered_refl c : PortSpecs c = [] -> covered c c.
Proof. intros H. split; rewrite ?or_text_same, ?or_int_same; try done. intros e He. by apply list_elem_of_fmap_2. Qed.

Lemma unit_map_dom (a b : gmap string unit) : dom a = dom b -> a = b.
Proof.
  intros H. apply map_eq. intros k. destruct (a !! k) as [[]|] eqn:Ea, (b !! k) as [[]|] eqn:Eb; try done; exfalso.
  - assert (k ∈ dom b) as Hk by (rewrite <- H; by apply elem_of_dom_2 in Ea). apply elem_of_dom in Hk as [? ?]. congruence.
  - assert (k ∈ dom a) as Hk by (rewrite H; by apply elem_of_dom_2 in Eb). apply elem_of_dom in Hk as [? ?]. congruence.
Qed.

Lemma Merge_covered is_ip u i : covered u i -> Cmd u <> [] ->
  exists u' i', Merge is_ip u i = (u', i', None) /\ canon u' = canon u.
Proof.
  intros [[Hs1 Hs2] Hu (Hm1 & Hm2 & Hm3) He Hp Hv Hd Hent] Hc. pose proof (Merge_result is_ip u i) as H. rewrite Hs1, Hs2 in H.
  change (ports_from is_ip []) with (@Ok string PortSet ∅) in H. cbv iota beta in H. destruct H as (p & -> & Hpd). eexists _, _. split; [done|].
  assert (default (∅ : PortSet) p = ports_of u) as Hpp by (apply unit_map_dom; rewrite Hpd; set_solver).
  assert (Env (Merged u i p) = Env u) as HE.
  { cbn. destruct (Env u) as [|x l] eqn:E; [|by apply merge_env_idem]. destruct (Env i) as [|e l]; [done|]. specialize (He e ltac:(by left)). by apply not_elem_of_nil in He. }
  assert (Volumes (Merged u i p) = Volumes u) as HV.
  { cbn. destruct (Nat.eqb_spec (size (Volumes u)) 0) as [E|E].
    - apply map_size_empty_iff in E. apply unit_map_dom. rewrite E in Hv |- *. set_solver.
    - apply unit_map_dom. rewrite dom_union_L. set_solver. }
  assert (Cmd (Merged u i p) = Cmd u /\ Entrypoint (Merged u i p) = Entrypoint u) as [HC HT].
  { cbn. destruct (Entrypoint u); [rewrite Hent by done|done]. by destruct (Cmd u). }
  unfold canon. rewrite HE, HV, HC, HT. change (ports_of (Merged u i p)) with (default (∅ : PortSet) p). rewrite Hpp.
  cbn [Merged merge_rest with_ports clear_specs merge_limits User Memory MemorySwap CpuShares WorkingDir PortSpecs]. rewrite Hu, Hm1, Hm2, Hm3, Hd, Hs1. done.
Qed.

Lemma canon_fields c d : canon c = canon d ->
  PortSpecs c = PortSpecs d /\ User c = User d /\ Memory c = Memory d /\ MemorySwap c = MemorySwap d /\ CpuShares c = CpuShares d /\ Env c = Env d /\
  ports_of c = ports_of d /\ Volumes c = Volumes d /\ WorkingDir c = WorkingDir d /\ Entrypoint c = Entrypoint d /\ Cmd c = Cmd d /\ OpenStdin c = OpenStdin d /\ OnBuild c = OnBuild d.
Proof. intros [=]. by split_and!. Qed.

Lemma covered_canon u u' i i' : canon u' = canon u -> canon i' = canon i -> covered u i -> covered u' i'.
Proof.
  intros (U1 & U2 & U3 & U4 & U5 & U6 & U7 & U8 & U9 & U10 & _)%canon_fields (I1 & I2 & I3 & I4 & I5 & I6 & I7 & I8 & I9 & I10 & _)%canon_fields [H1 H2 H3 H4 H5 H6 H7 H8].
  split; rewrite ?U1, ?U2, ?U3, ?U4, ?U5, ?U6, ?U7, ?U8, ?U9, ?U10, ?I1, ?I2, ?I3, ?I4, ?I5, ?I6, ?I7, ?I8, ?I9, ?I10; done.
Qed.

(** [Compare] does not see what [canon] removes. *)
Lemma Compare_canon a b : Compare (Some a) (Some b) = Compare (Some (canon a)) (Some (canon b)).
Proof. reflexivity. Qed.

Lemma Compare_refl c : OpenStdin c = false -> Compare (Some c) (Some c) = true.
Proof.
  intros H. unfold Compare. rewrite H. cbn [orb]. rewrite !Bool.eqb_reflx, String.eqb_refl, !Z.eqb_refl, !Nat.eqb_refl. cbn [negb orb].
  rewrite (proj2 (same_strings_eq (Cmd c) (Cmd c) eq_refl)), (proj2 (same_strings_eq (Env c) (Env c) eq_refl)), (proj2 (same_strings_eq (PortSpecs c) (PortSpecs c) eq_refl)),
    (proj2 (same_strings_eq (Entrypoint c) (Entrypoint c) eq_refl)), (proj2 (keys_in_eq (ports_of c) (ports_of c) eq_refl)), (proj2 (keys_in_eq (Volumes c) (Volumes c) eq_refl)) by done.
  done.
Qed.

(** ** The laws *)

(** Images, containers and what is found for a configuration stay. *)
Class BuildLaws (W : Type) `{BuildDaemon W} := {
  bd_ok : W -> Prop;
  img_config : W -> string -> option Config;
  cont_image : W -> string -> option string;
  same_images (w w' : W) : Prop := (forall x, img_config w' x = img_config w x) /\ forall p c, bd_cached w' p c = bd_cached w p c;
  lookup_law : forall w name w' id c, bd_ok w -> bd_lookup w name = (w', Ok (id, c)) -> bd_ok w' /\ id <> "" /\ img_config w' id = Some (default empty_config c);
  lookup_ok : forall w name w' e, bd_ok w -> bd_lookup w name = (w', Err e) -> bd_ok w';
  pull_law : forall w remote tag w' r, bd_ok w -> bd_pull w remote tag = (w', r) -> bd_ok w';
  create_law : forall w c ic w' c' id warnings, bd_ok w -> img_config w (Image c) = Some ic -> covered c ic -> Cmd c <> [] ->
    bd_create w c = (w', c', Ok (id, warnings)) ->
    bd_ok w' /\ same_images w w' /\ canon c' = canon c /\ id <> "" /\ cont_image w' id = Some (Image c);
  run_law : forall w id cmd w' r, bd_ok w -> bd_run w id cmd = (w', Ok r) ->
    bd_ok w' /\ same_images w w' /\ cont_image w' id = cont_image w id;
  destroy_law : forall w id w' r, bd_ok w -> bd_destroy w id = (w', r) -> bd_ok w' /\ same_images w w';
  commit_law : forall w id p cc m c w' n, bd_ok w -> cont_image w id = Some p -> bd_commit w id cc m c = (w', Ok n) ->
    bd_ok w' /\ n <> "" /\ img_config w n = None /\ (forall x, img_config w' x = if decide (x = n) then Some c else img_config w x) /\
    (forall k, Compare (Some cc) (Some k) = true -> bd_cached w' p k = Ok (Some n)) /\ forall q k, q <> p -> bd_cached w' q k = bd_cached w q k }.

Section Rebuild.
Context {W : Type} `{BL : BuildLaws W}.
Context (is_ip : string -> bool) (sha256 : string -> string) (print_order : buildFile -> W -> PortSet -> list string) (range : gset string -> list string).
Context (contextPath : string) (context : option BuildContext) (download : string -> result string Remote).

(** Every print of a map lists its keys in some order. *)
Context (print_order_perm : forall b w ports, print_order b w ports ≡ₚ (map_to_list ports).*1).

Lemma print_one b w b' w' (ports : PortSet) : (size ports <= 1)%nat -> print_order b w ports = print_order b' w' ports.
Proof.
  intros Hs. pose proof (print_order_perm b w ports) as H1. pose proof (print_order_perm b' w' ports) as H2.
  assert (length (print_order b w ports) <= 1)%nat as Hl by (by rewrite H1, length_fmap, length_map_to_list).
  rewrite <- H2 in H1. destruct (print_order b w ports) as [|x [|y l]]; [|..|simpl in Hl; lia]; symmetry.
  - symmetry. by apply Permutation_nil_l in H1.
  - symmetry in H1. by apply Permutation_singleton_r in H1.
Qed.

(** *** Computations that succeed *)

Lemma bind_Ok {A B} (m : M W A) (f : A -> M W B) b w b' w' a' : (m ≫= f) b w = Return (b', w', Ok a') ->
  exists b1 w1 a, m b w = Return (b1, w1, Ok a) /\ f a b1 w1 = Return (b', w', Ok a').
Proof.
  unfold mbind, M_bind. destruct (m b w) as [[[b1 w1] [a|e]]| |]; simpl; [|done..]. intros E. by exists b1, w1, a.
Qed.

Lemma bind_return {A B} (m : M W A) (f : A -> M W B) b w b1 w1 a : m b w = Return (b1, w1, Ok a) -> (m ≫= f) b w = f a b1 w1.
Proof. unfold mbind at 1, M_bind. by intros ->. Qed.

Lemma restoring_ok {A} cmd (m : M W A) b w b' w' a : restoring cmd m b w = Return (b', w', Ok a) ->
  exists b1, m b w = Return (b1, w', Ok a) /\ b' = with_config b1 (set_Cmd cmd (config b1)).
Proof.
  unfold restoring. destruct (m b w) as [[[b1 w1] r]| |]; [|done..]. cbn. intros [= <- <- ->]. by exists b1.
Qed.

(** What a build keeps while it goes on. *)
Record going w (b : buildFile) : Prop := {
  going_ok : bd_ok w;
  going_image : image b <> "";
  going_config : exists ic, img_config w (image b) = Some ic /\ covered (config b) ic;
  going_stdin : OpenStdin (config b) = false }.

(** Images are added, and only the image [p] gets children. *)
Definition grows (p : string) w w' : Prop :=
  (forall x c, img_config w x = Some c -> img_config w' x = Some c) /\
  forall q k, is_Some (img_config w q) -> q <> p -> bd_cached w' q k = bd_cached w q k.

Lemma grows_same p w w' : same_images w w' -> grows p w w'.
Proof. intros [H1 H2]. split; [intros x c; by rewrite H1|intros q k _ _; apply H2]. Qed.

(** *** One commit, and the same commit again *)

Context (o1 o2 : BuildOptions) (o1_nocache : utilizeCache o1 = false) (o2_cache : utilizeCache o2 = true).

(** The two builders at the same step. *)
Record sim (b1 b2 : buildFile) : Prop := {
  sim_image : image b1 = image b2;
  sim_config : canon (config b1) = canon (config b2);
  sim_cmdSet : cmdSet b1 = cmdSet b2;
  sim_tmp : tmpContainers b2 = ∅ }.

Lemma probe_nocache b w : probeCache o1 b w = Return (b, w, Ok false).
Proof. unfold probeCache. rewrite get_bind, o1_nocache. done. Qed.

Lemma probe_hit b w n : bd_cached w (image b) (config b) = Ok (Some n) ->
  probeCache o2 b w = Return (with_image (with_out b (" ---> Using cache" +:+ String newline "")) n, w, Ok true).
Proof. intros Hc. unfold probeCache. rewrite get_bind, o2_cache. unfold mbind at 1, M_bind at 1, query. rewrite Hc. done. Qed.

Lemma canon_set_Cmd x c : canon (set_Cmd x c) = set_Cmd x (canon c).
Proof. done. Qed.

Lemma set_Cmd_canon x c d : canon c = canon d -> canon (set_Cmd x c) = canon (set_Cmd x d).
Proof. intros E. by rewrite !canon_set_Cmd, E. Qed.

Lemma set_Image_canon x c : canon (set_Image x c) = canon c.
Proof. done. Qed.

(** The container that is made and what is committed of it. *)
Lemma commit_new id auto b w b' w' p ic : bd_ok w -> cont_image w id = Some p -> img_config w p = Some ic ->
  commit_container id auto b w = Return (b', w', Ok ()) ->
  exists n, bd_ok w' /\ n <> "" /\ n <> p /\ img_config w n = None /\ b' = with_image (with_tmp b (tmpContainers b) ({[n]} ∪ tmpImages b)) n /\
    img_config w' n = Some (set_Cmd auto (config b)) /\ grows p w w' /\ forall k, Compare (Some (config b)) (Some k) = true -> bd_cached w' p k = Ok (Some n).
Proof.
  intros Hok Hcont Hp. unfold commit_container. destruct (bd_get w id); [|done]. cbn [negb].
  destruct (bd_commit w id (config b) (maintainer b) (set_Cmd auto (config b))) as [w1 [n|e]] eqn:E; [|done]. intros [= <- <-].
  destruct (commit_law w id p (config b) (maintainer b) (set_Cmd auto (config b)) w1 n Hok Hcont E) as (H1 & H2 & H3 & H4 & H5 & H6).
  exists n. assert (n <> p) as Hnp by congruence. do 5 (split; [done|]). split; [by rewrite H4, decide_True|]. split; [|done]. split.
  - intros x c Hx. rewrite H4. by rewrite decide_False by congruence.
  - intros q k _ Hq. by apply H6.
Qed.

Lemma create_new b w b' w' id ws ic : bd_ok w -> img_config w (Image (config b)) = Some ic -> covered (config b) ic -> Cmd (config b) <> [] ->
  create_container b w = Return (b', w', Ok (id, ws)) ->
  bd_ok w' /\ same_images w w' /\ canon (config b') = canon (config b) /\ id <> "" /\ cont_image w' id = Some (Image (config b)) /\
  image b' = image b /\ cmdSet b' = cmdSet b /\ maintainer b' = maintainer b.
Proof.
  intros Hok Hi Hc Hne. unfold create_container. destruct (bd_create w (config b)) as [[w1 c1] [[i l]|e]] eqn:E; [|done]. intros [= <- <- <- <-].
  destruct (create_law w (config b) ic w1 c1 i l Hok Hi Hc Hne E) as (H1 & H2 & H3 & H4 & H5). by split_and!.
Qed.

Lemma foldl_out {A} (f : A -> string) l b : exists o, foldl (fun b x => with_out b (f x)) b l =
  {| image := image b; maintainer := maintainer b; config := config b; tmpContainers := tmpContainers b; tmpImages := tmpImages b; cmdSet := cmdSet b; out := o |}.
Proof. revert b. induction l as [|x l IH]; intros b; [by exists (out b); destruct b|]. simpl. destruct (IH (with_out b (f x))) as [o ->]. by exists o. Qed.

Lemma new_container_ok b w b' w' id ic : bd_ok w -> img_config w (Image (config b)) = Some ic -> covered (config b) ic -> Cmd (config b) <> [] ->
  new_container b w = Return (b', w', Ok id) ->
  bd_ok w' /\ same_images w w' /\ canon (config b') = canon (config b) /\ id <> "" /\ cont_image w' id = Some (Image (config b)) /\
  image b' = image b /\ cmdSet b' = cmdSet b.
Proof.
  intros Hok Hi Hc Hne. unfold new_container. intros (b1 & w1 & [i ws] & E1 & E)%bind_Ok.
  destruct (create_new b w b1 w1 i ws ic Hok Hi Hc Hne E1) as (H1 & H2 & H3 & H4 & H5 & H6 & H7 & _).
  cbv iota beta in E. rewrite modify_bind in E. destruct (foldl_out (fun warning => " ---> [Warning] " +:+ warning +:+ String newline "") ws b1) as [o Ho]. rewrite Ho in E.
  unfold running_in in E. rewrite print_bind in E. apply bind_Ok in E as (b2 & w2 & [] & [= <- <- Hm] & [= <- <- <-]). by split_and!.
Qed.

(** A step of the first build, and the same step of a later one. *)
Definition again (m1 m2 : M W ()) w (b1 b2 : buildFile) : Prop := forall b1' w', m1 b1 w = Return (b1', w', Ok ()) ->
  going w' b1' /\ grows (image b1) w w' /\ (image b1' = image b1 \/ img_config w (image b1') = None) /\
  forall wf, (image b1' <> image b1 -> forall k, bd_cached wf (image b1) k = bd_cached w' (image b1) k) ->
    match m2 b2 wf with Return (b2', w2, Ok _) => w2 = wf /\ sim b1' b2' | _ => False end.

(** After a commit the configuration of the image is the builder's. *)
Lemma going_committed w b auto cmd c : bd_ok w -> image b <> "" -> img_config w (image b) = Some (set_Cmd auto c) -> PortSpecs c = [] -> OpenStdin c = false ->
  config b = set_Cmd cmd c -> going w b.
Proof.
  intros Hok Hne Hi Hp Ho Hc. split; [done|done| |by rewrite Hc].
  exists (set_Cmd auto c). split; [done|]. rewrite Hc. destruct (covered_refl c Hp) as [H1 H2 H3 H4 H5 H6 H7 H8]. by split.
Qed.

Lemma commit_config_again comment w b1 b2 : going w b1 -> sim b1 b2 -> again (commit_config o1 comment) (commit_config o2 comment) w b1 b2.
Proof.
  intros [Hok Hne (ic & Hic & Hcov) Hstd] [Si Sc Sm St] b1' w'. unfold commit_config, commit. rewrite !get_bind.
  destruct (String.eqb_spec (image b1) "") as [|_]; [done|]. rewrite update_bind. cbn [String.eqb].
  intros (b3 & E & ->)%restoring_ok. rewrite update_bind in E.
  set (nopcmd := ["/bin/sh"; "-c"; "#(nop) " +:+ comment]) in *. set (ba := with_config _ _) in E.
  rewrite (bind_return (probeCache o1) _ _ _ _ _ _ (probe_nocache ba w)) in E. cbv iota in E.
  apply bind_Ok in E as (b4 & w4 & id & E1 & E2).
  destruct (new_container_ok ba w b4 w4 id ic Hok) as (K1 & K2 & K3 & _ & K4 & K6 & K7); [done| |done|done|].
  { by apply (covered_canon (set_Cmd nopcmd (config b1)) _ ic ic); [done|done|destruct Hcov; split]. }
  assert (canon (config b4) = set_Cmd nopcmd (canon (config b1))) as Hc4 by (by rewrite K3).
  destruct (commit_new id (Cmd (config b1)) b4 w4 b3 w' (image b1) ic K1 K4 ltac:(by rewrite (proj1 K2)) E2) as (n & N1 & N2 & N3 & N4 & -> & N5 & [G1 G2] & N6).
  assert (PortSpecs (config b4) = [] /\ OpenStdin (config b4) = false) as [Hps Hos].
  { destruct (canon_fields _ _ K3) as (P & _ & _ & _ & _ & _ & _ & _ & _ & _ & _ & O & _). rewrite P, O. split; [apply Hcov|done]. }
  split; [by apply (going_committed w' _ (Cmd (config b1)) (Cmd (config b1)) (config b4))|].
  split; [|split; [right; cbn; by rewrite <- (proj1 K2)|]].
  { split; [intros x c Hx; apply G1; by rewrite (proj1 K2)|intros q k Hq Hqp; rewrite G2, (proj2 K2); [done|by rewrite (proj1 K2)|done]]. }
  intros wf Hwf. rewrite !get_bind, <- Si. destruct (String.eqb_spec (image b1) "") as [|_]; [done|]. rewrite update_bind. cbn [String.eqb].
  unfold restoring. rewrite update_bind. fold nopcmd. set (bb := with_config _ _).
  assert (canon (config bb) = canon (config b4)) as Hcc by (rewrite Hc4; change (canon (config bb)) with (set_Cmd nopcmd (canon (config b2))); by rewrite Sc).
  assert (bd_cached wf (image bb) (config bb) = Ok (Some n)) as Hhit.
  { change (image bb) with (image b2). rewrite <- Si, Hwf by done. apply N6. rewrite Compare_canon, Hcc, <- Compare_canon. by apply Compare_refl. }
  rewrite (bind_return (probeCache o2) _ _ _ _ _ _ (probe_hit bb wf n Hhit)). cbv iota.
  cbn [mbind outcome_bind]. split; [done|]. split; [done| |by etrans; [exact K7|]|done].
  change (canon (set_Cmd (Cmd (config b1)) (config b4)) = canon (set_Cmd (Cmd (config b2)) (set_Cmd nopcmd (set_Image (image b1) (config b2))))).
  rewrite !canon_set_Cmd, Hc4, set_Image_canon, <- Sc.
  destruct (canon_fields _ _ Sc) as (_ & _ & _ & _ & _ & _ & _ & _ & _ & _ & C & _). by rewrite C.
Qed.

(** *** RUN *)

Lemma Parse_run_config img cmd : exists c, Parse_run is_ip (img :: cmd) = Ok c /\ Cmd c = cmd /\ forall u, PortSpecs u = [] -> covered u c.
Proof.
  eexists. split; [reflexivity|]. split; [done|]. intros u Hu. split; try done.
  - cbn. unfold or_text. by destruct (String.eqb_spec (User u) "") as [->|].
  - cbn. unfold or_int. split_and!; by match goal with |- context [?x =? 0] => destruct (Z.eqb_spec x 0) as [->|] end.
  - by intros e ?%not_elem_of_nil.
  - cbn. unfold or_text. by destruct (String.eqb_spec (WorkingDir u) "") as [->|].
Qed.

(** The configuration of a command that is run. *)
Lemma run_config b args : PortSpecs (config b) = [] -> buildCmdFromJson args <> [] ->
  exists parsed, Parse_run is_ip (image b :: buildCmdFromJson args) = Ok parsed /\
    canon (fst (fst (Merge is_ip (set_Cmd (Cmd parsed) (config b)) parsed))) = set_Cmd (buildCmdFromJson args) (canon (config b)).
Proof.
  intros Hp Hne. destruct (Parse_run_config (image b) (buildCmdFromJson args)) as (parsed & E & Hc & Hcov). exists parsed. split; [done|].
  destruct (Merge_covered is_ip (set_Cmd (Cmd parsed) (config b)) parsed) as (u' & i' & -> & Hu); [by apply Hcov|cbn; by rewrite Hc|].
  cbn [fst]. by rewrite Hu, canon_set_Cmd, Hc.
Qed.

Lemma create_ok b w b' w' id ic : bd_ok w -> image b <> "" -> img_config w (image b) = Some ic -> covered (config b) ic -> Cmd (config b) <> [] ->
  create b w = Return (b', w', Ok id) ->
  bd_ok w' /\ same_images w w' /\ canon (config b') = canon (config b) /\ id <> "" /\ cont_image w' id = Some (image b) /\ image b' = image b /\ cmdSet b' = cmdSet b.
Proof.
  intros Hok Hi Him Hc Hne. unfold create. rewrite get_bind. destruct (String.eqb_spec (image b) ""); [done|]. rewrite update_bind.
  set (ba := with_config b _). intros (b1 & w1 & [i ws] & E1 & E)%bind_Ok.
  destruct (create_new ba w b1 w1 i ws ic Hok Him) as (H1 & H2 & H3 & H4 & H5 & H6 & H7 & _); [by apply (covered_canon (config b) _ ic ic)|done|done|].
  unfold running_in in E. cbv zeta in E. rewrite print_bind, get_bind in E. destruct (Cmd (config (with_out b1 _))) as [|x l]; [done|]. inversion E; subst.
  exact (conj H1 (conj H2 (conj H3 (conj H4 (conj H5 (conj H6 H7)))))).
Qed.

Lemma run_ok id b w b' w' : bd_ok w -> run o1 id b w = Return (b', w', Ok ()) ->
  bd_ok w' /\ same_images w w' /\ cont_image w' id = cont_image w id /\ config b' = config b /\ image b' = image b /\ cmdSet b' = cmdSet b.
Proof.
  intros Hok. unfold run. rewrite get_bind. intros (b1 & w1 & [o ret] & E1 & E)%bind_Ok. unfold daemon in E1.
  destruct (bd_run w id (Cmd (config b))) as [w2 r] eqn:Er. injection E1 as <- <- ->.
  destruct (run_law w id (Cmd (config b)) w2 (o, ret) Hok Er) as (H1 & H2 & H3).
  apply bind_Ok in E as (b2 & w3 & [] & E2 & E). assert (w3 = w2 /\ config b2 = config b /\ image b2 = image b /\ cmdSet b2 = cmdSet b) as (-> & ? & ? & ?).
  { destruct (verbose o1); inversion E2; by subst. }
  destruct (ret =? 0); [|done]. inversion E; subst. by split_and!.
Qed.

Lemma CmdRun_again args w b1 b2 : going w b1 -> sim b1 b2 -> buildCmdFromJson args <> [] -> again (CmdRun is_ip o1 args) (CmdRun is_ip o2 args) w b1 b2.
Proof.
  intros [Hok Hne (ic & Hic & Hcov) Hstd] [Si Sc Sm St] Hargs b1' w'. unfold CmdRun. rewrite !get_bind.
  destruct (String.eqb_spec (image b1) "") as [|_]; [done|]. pose proof (canon_fields _ _ Sc) as (P & _ & _ & _ & _ & _ & _ & _ & _ & _ & C & _).
  destruct (covered_specs _ _ Hcov) as [Hps _].
  destruct (run_config b1 args Hps Hargs) as (p1 & Hp1 & Hc1). destruct (run_config b2 args) as (p2 & Hp2 & Hc2); [by rewrite <- P|done|].
  rewrite Hp1. rewrite (bind_return (pure_result (Ok p1)) _ b1 w b1 w p1) by done. rewrite update_bind.
  set (ba := with_config b1 _). change (config ba) with (fst (fst (Merge is_ip (set_Cmd (Cmd p1) (config b1)) p1))) in *.
  intros (b3 & E & ->)%restoring_ok. rewrite (bind_return (probeCache o1) _ _ _ _ _ _ (probe_nocache ba w)) in E. cbv iota in E.
  assert (canon (config ba) = set_Cmd (buildCmdFromJson args) (canon (config b1))) as Hca by exact Hc1. assert (cmdSet ba = cmdSet b1 /\ image ba = image b1) as [Hsa Hia] by done. clearbody ba. clear Hc1.
  pose proof Hne as Hne'. pose proof Hic as Hic'. rewrite <- Hia in Hne', Hic'.
  assert (canon (config ba) = canon (set_Cmd (buildCmdFromJson args) (config b1))) as Hcb by (by rewrite Hca).
  assert (Cmd (config ba) <> []) as Hnc by (destruct (canon_fields _ _ Hcb) as (_ & _ & _ & _ & _ & _ & _ & _ & _ & _ & -> & _); done).
  assert (covered (config ba) ic) as Hcova by (apply (covered_canon (set_Cmd (buildCmdFromJson args) (config b1)) _ ic ic); [done|done|destruct Hcov; by split]).
  apply bind_Ok in E as (b4 & w4 & id & E1 & E).
  destruct (create_ok ba w b4 w4 id ic Hok Hne' Hic' Hcova Hnc E1) as (K1 & K2 & K3 & K4 & K5 & K6 & K7). rewrite Hia in K5.
  apply bind_Ok in E as (b5 & w5 & [] & E2 & E).
  destruct (run_ok id b4 w4 b5 w5 K1 E2) as (R1 & R2 & R3 & R4 & R5 & R6).
  unfold commit in E. rewrite get_bind in E. assert (image b5 = image b1) as Hi5 by (by rewrite R5, K6). rewrite Hi5 in E.
  destruct (String.eqb_spec (image b1) "") as [|_]; [done|]. rewrite update_bind in E. destruct (String.eqb_spec id "") as [|_]; [done|].
  set (b6 := with_config b5 _) in E. assert (canon (config b6) = canon (config ba)) as Hc6 by (change (canon (config b5) = canon (config ba)); by rewrite R4, K3).
  assert (img_config w5 (image b1) = Some ic) as Hic5 by (by rewrite (proj1 R2), (proj1 K2)).
  destruct (commit_new id (Cmd (config b1)) b6 w5 b3 w' (image b1) ic R1 ltac:(by rewrite R3) Hic5 E) as (n & N1 & N2 & N3 & N4 & -> & N5 & [G1 G2] & N6).
  assert (PortSpecs (config b6) = [] /\ OpenStdin (config b6) = false) as [Hps6 Hos6].
  { destruct (canon_fields _ _ Hc6) as (Q & _ & _ & _ & _ & _ & _ & _ & _ & _ & _ & O & _). destruct (canon_fields _ _ Hcb) as (Q' & _ & _ & _ & _ & _ & _ & _ & _ & _ & _ & O' & _).
    rewrite Q, O, Q', O'. done. }
  split; [by apply (going_committed w' _ (Cmd (config b1)) (Cmd (config b1)) (config b6))|].
  split; [|split; [right; change (img_config w n = None); by rewrite <- (proj1 K2), <- (proj1 R2)|]].
  { split; [intros x c Hx; apply G1; by rewrite (proj1 R2), (proj1 K2)|intros q k Hq Hqp; rewrite G2, (proj2 R2), (proj2 K2); [done|by rewrite (proj1 R2), (proj1 K2)|done]]. }
  intros wf Hwf. rewrite !get_bind, <- Si in *. destruct (String.eqb_spec (image b1) "") as [|_]; [done|]. rewrite Hp2.
  rewrite (bind_return (pure_result (Ok p2)) _ b2 wf b2 wf p2) by done. rewrite update_bind. set (bb := with_config b2 _).
  assert (canon (config bb) = canon (config b6)) as Hcc by (rewrite Hc6, Hca; change (config bb) with (fst (fst (Merge is_ip (set_Cmd (Cmd p2) (config b2)) p2))); by rewrite Hc2, Sc).
  assert (bd_cached wf (image bb) (config bb) = Ok (Some n)) as Hhit.
  { change (image bb) with (image b2). rewrite <- Si, Hwf by done. apply N6. rewrite Compare_canon, Hcc, <- Compare_canon. by apply Compare_refl. }
  unfold restoring. rewrite (bind_return (probeCache o2) _ _ _ _ _ _ (probe_hit bb wf n Hhit)). cbv iota. cbn [mbind outcome_bind].
  split; [done|]. split; [done| | |done].
  - change (canon (set_Cmd (Cmd (config b1)) (config b6)) = canon (set_Cmd (Cmd (config b2)) (config bb))). by rewrite !canon_set_Cmd, Hcc, C.
  - change (cmdSet b5 = cmdSet b2). by rewrite R6, K7, Hsa.
Qed.

(** *** The other instructions *)

Lemma going_update w b f : going w b -> (forall i, covered (config b) i -> covered (f (config b)) i) -> OpenStdin (f (config b)) = OpenStdin (config b) ->
  going w (with_config b (f (config b))).
Proof. intros [H1 H2 (ic & H3 & H4) H5] Hf Ho. split; [done|done| |by cbn; rewrite Ho]. exists ic. split; [done|]. by apply Hf. Qed.

Lemma sim_update b1 b2 f g : sim b1 b2 -> canon (f (config b1)) = canon (g (config b2)) -> sim (with_config b1 (f (config b1))) (with_config b2 (g (config b2))).
Proof. intros [H1 H2 H3 H4] Hf. by split. Qed.

Lemma again_fail e m w b1 b2 : again (fail e) m w b1 b2.
Proof. by intros b1' w'. Qed.

Lemma again_get (k1 k2 : buildFile -> M W ()) w b1 b2 : again (k1 b1) (k2 b2) w b1 b2 -> again (get ≫= k1) (get ≫= k2) w b1 b2.
Proof. done. Qed.

(** The same value on both sides, or a panic. *)
Lemma again_value {A} (o : outcome A) (k1 k2 : A -> M W ()) w b1 b2 : (forall a, o = Return a -> again (k1 a) (k2 a) w b1 b2) ->
  again (or_panics o ≫= k1) (or_panics o ≫= k2) w b1 b2.
Proof. intros Ha b1' w'. destruct o as [a| |]; [by apply Ha|done..]. Qed.

Lemma again_result {A} (r : result string A) (k1 k2 : A -> M W ()) w b1 b2 : (forall a, r = Ok a -> again (k1 a) (k2 a) w b1 b2) ->
  again (pure_result r ≫= k1) (pure_result r ≫= k2) w b1 b2.
Proof. intros Ha b1' w'. destruct r as [a|e]; [by apply Ha|done]. Qed.

Lemma again_ret w b1 b2 : going w b1 -> sim b1 b2 -> again (mret ()) (mret ()) w b1 b2.
Proof.
  intros Hg Hs b1' w' [= <- <-]. split; [done|]. split; [by apply grows_same|]. split; [by left|]. intros wf _. by split.
Qed.

Lemma again_modify f (m1 m2 : M W ()) w b1 b2 : (forall b, image (f b) = image b) -> again m1 m2 w (f b1) (f b2) -> again (modify f;; m1) (modify f;; m2) w b1 b2.
Proof. intros Hf Ha b1' w' E. specialize (Ha b1' w' E). rewrite Hf in Ha. exact Ha. Qed.

Lemma again_then f (m1 m2 : M W ()) w b1 b2 : (forall b, image (f b) = image b /\ config (f b) = config b /\ tmpContainers (f b) = tmpContainers b) ->
  (forall b b', cmdSet b = cmdSet b' -> cmdSet (f b) = cmdSet (f b')) ->
  again m1 m2 w b1 b2 -> again (m1;; modify f) (m2;; modify f) w b1 b2.
Proof.
  intros Hf Hs Ha b1' w' (b3 & w3 & [] & E & [= <- <-])%bind_Ok. destruct (Ha b3 w3 E) as ([G1 G2 G3 G4] & Hgr & Hi & Hw). destruct (Hf b3) as (F1 & F2 & F3).
  rewrite F1. split; [split; rewrite ?F1, ?F2; done|]. split; [done|]. split; [done|]. intros wf Hk. specialize (Hw wf Hk).
  destruct (m2 b2 wf) as [[[b4 w4] [[]|e]]| |] eqn:E2; try done. rewrite (bind_return m2 _ _ _ _ _ _ E2). destruct Hw as [-> [S1 S2 S3 S4]].
  destruct (Hf b4) as (F4 & F5 & F6). split; [done|]. split; rewrite ?F1, ?F2, ?F4, ?F5, ?F6; auto.
Qed.

Lemma again_print s w b1 b2 : going w b1 -> sim b1 b2 -> again (print s) (print s) w b1 b2.
Proof.
  intros [G1 G2 G3 G4] [S1 S2 S3 S4] b1' w' [= <- <-]. split; [by split|]. split; [by apply grows_same|]. split; [by left|]. intros wf _. split; [done|by split].
Qed.

(** A change of the configuration that is then committed. *)
Lemma again_set f comment w b1 b2 : going w b1 -> sim b1 b2 -> (forall i, covered (config b1) i -> covered (f (config b1)) i) ->
  OpenStdin (f (config b1)) = OpenStdin (config b1) -> canon (f (config b1)) = canon (f (config b2)) ->
  again (update f;; commit_config o1 comment) (update f;; commit_config o2 comment) w b1 b2.
Proof.
  intros Hg Hs H1 H2 H3. apply again_modify; [done|]. apply commit_config_again; [by apply going_update|by apply sim_update].
Qed.

(** A setting that changes the canonical form in the same way keeps [sim]. *)
Lemma canon_sim b1 b2 f : sim b1 b2 -> (forall c, canon (f c) = f (canon c)) -> canon (f (config b1)) = canon (f (config b2)).
Proof. intros Hs Hf. by rewrite !Hf, (sim_config _ _ Hs). Qed.

Lemma sim_fields b1 b2 : sim b1 b2 -> PortSpecs (config b1) = PortSpecs (config b2) /\ Env (config b1) = Env (config b2) /\ ports_of (config b1) = ports_of (config b2) /\
  Volumes (config b1) = Volumes (config b2) /\ WorkingDir (config b1) = WorkingDir (config b2) /\ OnBuild (config b1) = OnBuild (config b2).
Proof. intros [_ Sc _ _]. apply canon_fields in Sc as (? & ? & ? & ? & ? & ? & ? & ? & ? & ? & ? & ? & ?). by split_and!. Qed.

(** *** Arguments *)

Lemma Join_not_empty d p : d <> "" -> Join [d; p] <> "".
Proof.
  intros Hd. unfold Join. cbn [List.filter]. destruct (String.eqb_spec d "") as [|_]; [done|]. cbn [negb]. set (l := if negb (String.eqb p "") then [p] else []). destruct l as [|x l]; intros E.
  all: match type of E with Clean ?q = "" => pose proof (proj1 (proj2 (Clean_spec q))) as HC; rewrite E in HC; discriminate HC end.
Qed.

Lemma FindEnvKey_key env key k : FindEnvKey env key = Some k -> exists e, env !! k = Some e /\ env_key e = key.
Proof.
  unfold FindEnvKey. intros ([k' e] & Hix & ->)%fmap_Some. apply list_find_Some in Hix as (H1 & H2 & _). exists e. split; [done|].
  unfold env_key. by rewrite <- head_split2.
Qed.

Lemma env_key_pair key v : contains_char "=" key = false -> env_key (key +:+ "=" +:+ v) = key.
Proof. intros Hk. unfold env_key. rewrite <- head_split2. change ("=" +:+ v) with (String "=" v). by rewrite split2_app. Qed.

Lemma env_key_plain e : contains_char "=" (env_key e) = false.
Proof.
  unfold env_key. pose proof (split_pieces "=" e) as Hp. destruct (split "=" e) as [|x l]; [done|]. by inversion Hp.
Qed.

(** Setting a variable leaves every key set. *)
Lemma put_env_keys env key v x : x ∈ env_key <$> env -> x ∈ env_key <$> put_env env (FindEnvKey env key) (key +:+ "=" +:+ v).
Proof.
  intros Hx. destruct (FindEnvKey env key) as [k|] eqn:E; cbn [put_env].
  - apply FindEnvKey_key in E as (e & He & Hk). rewrite list_fmap_insert, env_key_pair by (rewrite <- Hk; apply env_key_plain).
    rewrite list_insert_id; [done|]. by rewrite list_lookup_fmap, He, <- Hk.
  - rewrite fmap_app. apply elem_of_app. by left.
Qed.

Lemma covered_env_key u i env : covered u i -> (forall x, x ∈ env_key <$> Env u -> x ∈ env_key <$> env) -> covered (set_Env env u) i.
Proof. intros [H1 H2 H3 H4 H5 H6 H7 H8] He. split; try done. intros e Hi. by apply He, H4. Qed.

Lemma foldl_volumes l (m : gmap string unit) : dom m ⊆ dom (foldl (fun m v => <[v := tt]> m) m l).
Proof. revert m. induction l as [|v l IH]; intros m; [done|]. simpl. etrans; [|apply IH]. rewrite dom_insert. set_solver. Qed.

Section Instructions.
Context (w : W) (b1 b2 : buildFile) (Hg : going w b1) (Hs : sim b1 b2).

Lemma CmdMaintainer_again args : again (CmdMaintainer o1 args) (CmdMaintainer o2 args) w b1 b2.
Proof.
  apply again_modify; [done|]. apply commit_config_again; [destruct Hg; by split|destruct Hs; by split].
Qed.

Lemma CmdCmd_again args : again (CmdCmd o1 args) (CmdCmd o2 args) w b1 b2.
Proof.
  unfold CmdCmd; cbv zeta. apply again_modify; [done|]. apply again_then; [done|done|]. apply commit_config_again.
  - apply (going_update w b1 (set_Cmd _)); [done|intros i []; by split|done].
  - apply (sim_update b1 b2 (set_Cmd _) (set_Cmd _)); [done|]. by apply canon_sim.
Qed.

Lemma CmdEntrypoint_again args : buildCmdFromJson args <> [] -> again (CmdEntrypoint o1 args) (CmdEntrypoint o2 args) w b1 b2.
Proof.
  intros Hne. unfold CmdEntrypoint; cbv zeta. apply again_modify; [done|].
  assert (going w (with_config b1 (set_Entrypoint (buildCmdFromJson args) (config b1)))) as Hg1 by (apply (going_update w b1 (set_Entrypoint _)); [done|intros i []; by split|done]).
  assert (sim (with_config b1 (set_Entrypoint (buildCmdFromJson args) (config b1))) (with_config b2 (set_Entrypoint (buildCmdFromJson args) (config b2)))) as Hs1
    by (apply (sim_update b1 b2 (set_Entrypoint _) (set_Entrypoint _)); [done|]; by apply canon_sim).
  apply again_get. rewrite <- (sim_cmdSet _ _ Hs1). destruct (cmdSet _); [by apply commit_config_again|].
  apply again_set; [done|done|intros j []; by split|done|]. by apply canon_sim.
Qed.

Lemma CmdEnv_again args : again (CmdEnv o1 args) (CmdEnv o2 args) w b1 b2.
Proof.
  unfold CmdEnv. destruct (split2 " " args) as [|k [|v [|? ?]]]; [apply again_fail..| |apply again_fail]. cbv zeta.
  apply again_get. destruct (sim_fields _ _ Hs) as (_ & He & _). rewrite <- He. set (key := trim is_blank k). set (val := trim is_blank v).
  set (k1 := FindEnvKey (Env (config b1)) key).
  set (set_ := fun o r => update (fun c => set_Env (put_env (Env c) k1 (key +:+ "=" +:+ r)) c);; commit_config (W := W) o ("ENV " +:+ key +:+ "=" +:+ r)).
  change (again (or_panics (ReplaceEnvMatches_ (Env (config b1)) val) ≫= set_ o1) (fun b => (or_panics (ReplaceEnvMatches_ (Env (config b)) val) ≫= set_ o2) b) w b1 b2).
  unfold again. intros b1' w' E. cbv beta. rewrite <- He. revert b1' w' E.
  apply (again_value (ReplaceEnvMatches_ (Env (config b1)) val) (set_ o1) (set_ o2)). intros r _. unfold set_.
  apply (again_set (fun c => set_Env (put_env (Env c) k1 (key +:+ "=" +:+ r)) c)); [done|done| |done|].
  - intros i Hi. apply covered_env_key; [done|]. intros x. apply put_env_keys.
  - by apply (canon_sim b1 b2 (fun c => set_Env (put_env (Env c) k1 (key +:+ "=" +:+ r)) c)).
Qed.

Lemma CmdUser_again args : args <> "" -> again (CmdUser o1 args) (CmdUser o2 args) w b1 b2.
Proof.
  intros Ha. unfold CmdUser. apply again_set; [done|done| |done|by apply canon_sim].
  intros i [H1 H2 H3 H4 H5 H6 H7 H8]. split; try done. cbn. unfold or_text. by destruct (String.eqb_spec args "").
Qed.

(** The ports of an EXPOSE; several may be printed in another order. *)
Definition one_port (args : string) : bool :=
  match ParsePortSpecs is_ip (split " " args) with Ok (ports, _) => bool_decide (size ports <= 1)%nat | Err _ => true end.

Lemma CmdExpose_again args : one_port args = true -> again (CmdExpose is_ip print_order o1 args) (CmdExpose is_ip print_order o2 args) w b1 b2.
Proof.
  unfold CmdExpose, one_port. intros Hone. apply again_modify; [done|].
  set (f := fun c => set_ports (Some (ports_of c)) (PortSpecs c) c).
  assert (going w (with_config b1 (f (config b1)))) as Hg1 by (apply (going_update w b1 f); [done|intros i []; by split|done]).
  assert (sim (with_config b1 (f (config b1))) (with_config b2 (f (config b2)))) as Hs1 by (apply (sim_update b1 b2 f f); [done|]; by apply canon_sim).
  fold (f (config b1)). fold (f (config b2)).
  apply again_get. destruct (sim_fields _ _ Hs1) as (Hp & _). rewrite <- Hp.
  assert (PortSpecs (config (with_config b1 (f (config b1)))) = []) as -> by (destruct Hg as [_ _ (ic & _ & Hcov) _]; apply (covered_specs _ _ Hcov)).
  rewrite app_nil_r. clearbody f. apply again_result. intros [ports bs] Hports. rewrite Hports in Hone. apply bool_decide_eq_true in Hone.
  set (g := fun c => set_ports (Some (ports_of c ∪ ports)) [] c).
  intros b1' w'. rewrite !update_bind. intros E. set (B1 := with_config _ _) in E.
  assert (forall w0, (update g;; text ← printed print_order ports; commit_config o2 ("EXPOSE " +:+ text)) (with_config b2 (f (config b2))) w0 =
    (update g;; commit_config o2 ("EXPOSE " +:+ print_set (print_order B1 w ports))) (with_config b2 (f (config b2))) w0) as H2.
  { intros w0. rewrite !update_bind. unfold mbind, M_bind, printed. cbn [mbind outcome_bind]. by rewrite (print_one _ w0 B1 w). }
  setoid_rewrite H2. revert b1' w' E.
  apply (again_set g ("EXPOSE " +:+ print_set (print_order B1 w ports))); [done|done| |done|].
  - intros i [H3 H4 H5 H6 H7 H8 H9 H10]. split; try done; [by split; [|apply H3]|]. cbn. rewrite dom_union_L. set_solver.
  - by apply (canon_sim _ _ g).
Qed.

Lemma CmdVolume_again args : again (CmdVolume o1 args) (CmdVolume o2 args) w b1 b2.
Proof.
  unfold CmdVolume. destruct (String.eqb args ""); [apply again_fail|]. cbv zeta. apply again_set; [done|done| |done|by apply (canon_sim b1 b2 (fun c => set_Volumes (foldl (fun m v => <[v := tt]> m) (Volumes c) (default [args] (json_strings args))) c))].
  intros i [H1 H2 H3 H4 H5 H6 H7 H8]. split; try done. cbn. etrans; [exact H6|]. apply foldl_volumes.
Qed.

Lemma CmdWorkdir_again args : again (CmdWorkdir o1 args) (CmdWorkdir o2 args) w b1 b2.
Proof.
  unfold CmdWorkdir. destruct args as [|a s]; [by intros b1' w'|]. destruct (Ascii.eqb a "/").
  - apply again_set; [done|done| |done|by apply canon_sim]. intros i []; by split.
  - apply again_set; [done|done| |done|by apply (canon_sim b1 b2 (fun c => set_WorkingDir (Join [if String.eqb (WorkingDir c) "" then "/" else WorkingDir c; String a s]) c))]. intros i [H1 H2 H3 H4 H5 H6 H7 H8]. split; try done. cbn [set_WorkingDir build_config WorkingDir].
    unfold or_text at 1. rewrite (proj2 (String.eqb_neq _ _)); [done|]. apply Join_not_empty. by destruct (String.eqb_spec (WorkingDir (config b1)) "").
Qed.

Lemma CmdOnbuild_again args : again (CmdOnbuild o1 args) (CmdOnbuild o2 args) w b1 b2.
Proof.
  unfold CmdOnbuild; cbv zeta. destruct (String.eqb _ _); [apply again_fail|]. destruct (_ || _); [apply again_fail|].
  apply again_set; [done|done| |done|by apply (canon_sim b1 b2 (fun c => set_OnBuild (OnBuild c ++ [args]) c))]. intros i []; by split.
Qed.

(** An instruction that names no files and clears nothing of the image: with
    arguments no setting becomes empty. *)
Lemma method_again step1 step2 x args : x <> "from" -> x <> "add" -> x <> "copy" ->
  (x = "run" \/ x = "entrypoint" -> buildCmdFromJson args <> []) -> (x = "expose" -> one_port args = true) -> args <> "" ->
  match method is_ip sha256 print_order o1 contextPath context download step1 x, method is_ip sha256 print_order o2 contextPath context download step2 x with
  | Some m1, Some m2 => again (m1 args) (m2 args) w b1 b2
  | None, None => True
  | _, _ => False
  end.
Proof.
  intros Hf Hadd Hcopy Hc Hport Ha. unfold method.
  repeat match goal with |- match (match ?x with _ => _ end) with _ => _ end => destruct x; try exact I end.
  all: try (exfalso; by auto).
  all: lazymatch goal with
    | |- again (CmdCmd _ _) _ _ _ _ => apply CmdCmd_again
    | |- again (CmdEntrypoint _ _) _ _ _ _ => apply CmdEntrypoint_again, Hc; by right
    | |- again (CmdEnv _ _) _ _ _ _ => apply CmdEnv_again
    | |- again (CmdExpose _ _ _ _) _ _ _ _ => by apply CmdExpose_again, Hport
    | |- again (CmdInsert _) _ _ _ _ => apply again_fail
    | |- again (CmdMaintainer _ _) _ _ _ _ => apply CmdMaintainer_again
    | |- again (CmdOnbuild _ _) _ _ _ _ => apply CmdOnbuild_again
    | |- again (CmdRun _ _ _) _ _ _ _ => apply CmdRun_again; [done|done|]; apply Hc; by left
    | |- again (CmdUser _ _) _ _ _ _ => by apply CmdUser_again
    | |- again (CmdVolume _ _) _ _ _ _ => apply CmdVolume_again
    | |- again (CmdWorkdir _ _) _ _ _ _ => apply CmdWorkdir_again
    end.
Qed.
End Instructions.

(** *** Steps *)

(** Lines whose image is found again: without files, with arguments, and
    printed in one way only. *)
Definition repeatable (line : string) : bool :=
  match split2 " " line with
  | [i; a] =>
      let x := to_lower (trim_spaces i) in
      let args := trim_spaces a in
      negb (existsb (String.eqb x) ["from"; "add"; "copy"]) && negb (String.eqb args "") &&
      (negb (existsb (String.eqb x) ["run"; "entrypoint"]) || bool_decide (buildCmdFromJson args <> [])) && (negb (String.eqb x "expose") || one_port args)
  | _ => true
  end.

#[local] Abbreviation step_with o := (BuildStep is_ip sha256 print_order o contextPath context download).

Lemma BuildStep_again fuel name line w b1 b2 : going w b1 -> sim b1 b2 -> repeatable line = true ->
  again (step_with o1 (S fuel) name line) (step_with o2 (S fuel) name line) w b1 b2.
Proof.
  intros Hg Hs Hl. cbn [BuildStep]. apply again_modify; [done|].
  assert (going w (with_out b1 ("Step " +:+ name +:+ " : " +:+ line +:+ String newline ""))) as Hg1 by (destruct Hg; by split).
  assert (sim (with_out b1 ("Step " +:+ name +:+ " : " +:+ line +:+ String newline "")) (with_out b2 ("Step " +:+ name +:+ " : " +:+ line +:+ String newline ""))) as Hs1
    by (destruct Hs; by split).
  unfold repeatable in Hl. destruct (split2 " " line) as [|i [|a [|? ?]]]; [apply again_fail..| |apply again_fail]. cbv zeta in Hl |- *.
  apply andb_true_iff in Hl as [[[Hx%negb_true_iff Ha%negb_true_iff%String.eqb_neq]%andb_true_iff Hc]%andb_true_iff Hport].
  cbn [existsb] in Hx. apply orb_false_iff in Hx as [Hf%String.eqb_neq Hx]. apply orb_false_iff in Hx as [Had%String.eqb_neq Hx]. apply orb_false_iff in Hx as [Hco%String.eqb_neq _].
  revert Hc Hf Had Hco Hport. generalize (to_lower (trim_spaces i)). intros x Hc Hf Had Hco Hport. destruct (String.eqb x ""); [by intros b1' w'|].
  assert (x = "run" \/ x = "entrypoint" -> buildCmdFromJson (trim_spaces a) <> []) as Hne.
  { intros Hx. apply orb_true_iff in Hc as [Hc|Hc%bool_decide_eq_true_1]; [|done]. exfalso. by destruct Hx as [-> | ->]. }
  assert (x = "expose" -> one_port (trim_spaces a) = true) as Hone by (intros ->; exact Hport).
  pose proof (method_again w _ _ Hg1 Hs1 (step_with o1 fuel) (step_with o2 fuel) x (trim_spaces a) Hf Had Hco Hne Hone Ha) as Hm.
  destruct (method is_ip sha256 print_order o1 contextPath context download (step_with o1 fuel) x) as [m1|],
    (method is_ip sha256 print_order o2 contextPath context download (step_with o2 fuel) x) as [m2|]; [| |done|].
  - change (again (m1 (trim_spaces a);; modify (fun b => with_out b (" ---> " +:+ TruncateID (image b) +:+ String newline "")))
                  (m2 (trim_spaces a);; modify (fun b => with_out b (" ---> " +:+ TruncateID (image b) +:+ String newline ""))) w
                  (with_out b1 ("Step " +:+ name +:+ " : " +:+ line +:+ String newline "")) (with_out b2 ("Step " +:+ name +:+ " : " +:+ line +:+ String newline ""))).
    by apply again_then.
  - done.
  - by apply again_print.
Qed.

(** Containers that are removed change neither images nor the builder. *)
Lemma clear_all_ok l b w : going w b -> exists b' w', clear_all l b w = Return (b', w', Ok ()) /\ going w' b' /\ same_images w w' /\
  image b' = image b /\ config b' = config b /\ cmdSet b' = cmdSet b.
Proof.
  revert b w. induction l as [|c l IH]; intros b w Hg; [by exists b, w|]. cbn [clear_all].
  assert (exists b1 w1, clear_one c b w = Return (b1, w1, Ok ()) /\ going w1 b1 /\ same_images w w1 /\ image b1 = image b /\ config b1 = config b /\ cmdSet b1 = cmdSet b)
    as (b1 & w1 & E1 & Hg1 & [Hi Hc] & H1 & H2 & H3).
  { destruct (bd_destroy w c) as [w1 r] eqn:Ed. destruct Hg as [G1 G2 (ic & G3 & G4) G5]. destruct (destroy_law w c w1 r G1 Ed) as [D1 [D2 D3]].
    unfold clear_one, attempt, daemon. unfold mbind at 1, M_bind at 1. rewrite Ed. cbn [mbind outcome_bind].
    destruct r as [[]|e]; eexists _, w1; (split; [reflexivity|]); (split; [split; [done|done|exists ic; by rewrite D2|done]|done]). }
  destruct (IH b1 w1 Hg1) as (b2 & w2 & E2 & Hg2 & [Hi2 Hc2] & H4 & H5 & H6). exists b2, w2.
  rewrite (bind_return (clear_one c) _ _ _ _ _ _ E1). split; [done|]. split; [done|]. split; [split; intros; congruence|]. by rewrite H4, H5, H6.
Qed.

Context (range_empty : range ∅ = []).

Lemma clearTmp_empty b w : tmpContainers b = ∅ -> clearTmp range b w = Return (b, w, Ok ()).
Proof. intros Hb. unfold clearTmp. rewrite get_bind, Hb, range_empty. done. Qed.

#[local] Abbreviation steps_with o := (build_steps is_ip sha256 print_order range o contextPath context download).

(** All the steps: what they found stays to be found. *)
Lemma build_steps_again lines : Forall (fun l => repeatable l = true) lines -> forall n w b1 b2 b1' w', going w b1 -> sim b1 b2 ->
  steps_with o1 n lines b1 w = Return (b1', w', Ok ()) ->
  grows (image b1) w w' /\ exists b2', steps_with o2 n lines b2 w' = Return (b2', w', Ok ()) /\ image b2' = image b1' /\ tmpContainers b2' = ∅.
Proof.
  induction 1 as [|line lines Hl _ IH]; intros n w b1 b2 b1' w' Hg Hs E.
  { injection E as <- <-. split; [by apply grows_same|]. exists b2. destruct Hs. by rewrite sim_image0. }
  cbn [build_steps] in *. apply bind_Ok in E as (b3 & w3 & r & E1 & E). unfold attempt in E1.
  destruct (step_with o1 2 (itoa (Z.of_nat n)) line b1 w) as [[[b4 w4] r4]| |] eqn:Es; [|done..]. injection E1 as -> -> ->.
  destruct r as [[]|e]; [|apply bind_Ok in E as (? & ? & ? & _ & ?); done].
  destruct (BuildStep_again 1 (itoa (Z.of_nat n)) line w b1 b2 Hg Hs Hl b3 w3 Es) as (Hg3 & [P1 Q1] & Hnew & Hw).
  apply bind_Ok in E as (b5 & w5 & [] & Ec & E).
  assert (going w5 b5 /\ same_images w3 w5 /\ image b5 = image b3 /\ config b5 = config b3 /\ cmdSet b5 = cmdSet b3) as (Hg5 & [I5 C5] & H1 & H2 & H3).
  { destruct (rm o1); [|by injection Ec as <- <-]. unfold clearTmp in Ec. rewrite get_bind in Ec.
    destruct (clear_all_ok (range (tmpContainers b3)) b3 w3 Hg3) as (? & ? & Ea & ?). rewrite Ea in Ec. by injection Ec as <- <-. }
  destruct Hg as [_ _ (ic & Hic & _) _]. 
  assert (forall s, sim b3 s -> grows (image b5) w5 w' /\ exists b2', steps_with o2 (S n) lines s w' = Return (b2', w', Ok ()) /\ image b2' = image b1' /\ tmpContainers b2' = ∅) as Hrest.
  { intros s [S1 S2 S3 S4]. apply (IH (S n) w5 b5 s b1' w' Hg5); [|done]. split; [by rewrite H1|by rewrite H2|by rewrite H3|done]. }
  assert (grows (image b3) w3 w' -> image b3 <> image b1 -> forall k, bd_cached w' (image b1) k = bd_cached w3 (image b1) k) as Hkeep.
  { intros [_ Q] Hne k. apply Q; [|done]. exists ic. by apply P1. }
  assert (grows (image b3) w3 w') as G.
  { destruct (Hrest (with_tmp b3 ∅ ∅)) as [[G1 G2] _]; [by split|]. rewrite H1 in G2. split; [intros x c; rewrite <- I5; apply G1|].
    intros q k Hq Hqp. rewrite G2, C5; [done|by rewrite I5|done]. }
  split.
  { destruct G as [G1 G2]. split; [intros x c Hx; by apply G1, P1|]. intros q k [cq Hq] Hqp. rewrite G2, Q1; [done|by exists cq|done|exists cq; by apply P1|].
    destruct Hnew as [-> | Hnew]; [done|congruence]. }
  specialize (Hw w' (Hkeep G)). destruct (step_with o2 2 (itoa (Z.of_nat n)) line b2 w') as [[[b6 w6] [[]|e]]| |] eqn:E2; [|done..]. destruct Hw as [-> S6].
  destruct (Hrest b6 S6) as (_ & b2' & E3 & Hb). exists b2'. split; [|done].
  unfold attempt. unfold mbind at 1, M_bind at 1. rewrite E2. cbn [mbind outcome_bind].
  rewrite (bind_return (if rm o2 then clearTmp range else mret ()) _ b6 w' b6 w' ()); [done|]. destruct (rm o2); [apply clearTmp_empty, S6|done].
Qed.

(** *** The base image *)

(** A base image whose configuration can be built on: nothing waits to be
    triggered, and it is comparable. *)
Definition plain_base (c : Config) : Prop := OnBuild c = [] /\ PortSpecs c = [] /\ OpenStdin c = false.

Lemma from_step o fuel name line base w w0 id img : from_line line = Some base -> bd_lookup w base = (w0, Ok (id, img)) -> OnBuild (default empty_config img) = [] ->
  exists b, step_with o (S fuel) name line NewBuildFile w = Return (b, w0, Ok ()) /\
    image b = id /\ config b = set_OnBuild [] (base_config img) /\ tmpContainers b = ∅ /\ cmdSet b = false.
Proof.
  unfold from_line. intros Hl Hw Ho. cbn [BuildStep]. rewrite print_bind. destruct (split2 " " line) as [|i [|a [|? ?]]]; try done. cbv zeta.
  revert Hl. destruct (String.eqb_spec (to_lower (trim_spaces i)) "from") as [->|]; [|done]. intros [= ->]. cbn [String.eqb].
  change (method is_ip sha256 print_order o contextPath context download (step_with o fuel) "from") with (Some (CmdFrom (step_with o fuel))). cbv iota.
  unfold CmdFrom. set (b0 := with_out NewBuildFile _).
  assert (lookup_or_pull base b0 w = Return (b0, w0, Ok (id, img))) as Hlook.
  { unfold lookup_or_pull, attempt, daemon. unfold mbind at 1, M_bind at 1. by rewrite Hw. }
  unfold mbind at 1, M_bind at 1. rewrite (bind_return (lookup_or_pull base) _ _ _ _ _ _ Hlook). cbv zeta. cbn [fst snd]. rewrite modify_bind.
  assert (OnBuild (base_config img) = []) as Hob by (unfold base_config; by destruct (Env (default empty_config img))).
  rewrite Hob, (bool_decide_true ([] = [])) by done. rewrite (bind_return (mret ()) _ _ _ _ _ ()) by done. rewrite update_bind.
  eexists. split; [reflexivity|]. by subst b0.
Qed.

Lemma base_covered img : plain_base (default empty_config img) -> covered (set_OnBuild [] (base_config img)) (default empty_config img).
Proof.
  intros (_ & Hp & _). unfold base_config. set (c := default empty_config img) in *. pose proof (covered_refl c Hp) as Hc.
  destruct (Env c) as [|e l] eqn:E; [|destruct Hc; by split]. destruct Hc as [H1 H2 H3 H4 H5 H6 H7 H8]. split; try done. intros x Hx. rewrite E in Hx. by apply not_elem_of_nil in Hx.
Qed.

End Rebuild.
