(* ===== verification/Cached.v ===== *)
(** * daemon.ImageGetCached: the image made before

    What the search for an image that was made in the same way answers on a
    graph of images (Images.v): the latest of the children with the
    configuration; and that only the children and their configurations matter. *)

From stdpp Require Import base gmap sets list strings.
From Stdlib Require Import ZArith Lia.
From S2P Require Import Prelude GoStrings GoPath RunConfig Tags Images.

Local Open Scope Z_scope.

Section Cached.
Context {T D L : Type} {HT : Trie T} {HD : GraphDriver D L}.
Context (Root : list string) (layer_size : L -> option L -> Z).
Context (root_plain : plain Root) (layer_size_nonneg : forall l p, 0 <= layer_size l p).
(** The order in which a set is visited. *)
Context (range : gset string -> list string) (range_elements : forall s, range s ≡ₚ elements s).
Implicit Type g : Graph T D.

#[local] Abbreviation Get := (Get Root layer_size).
#[local] Abbreviation good := (good (HT := HT) (HD := HD) Root).
#[local] Abbreviation stored := (stored Root).

(** An image made from [p]. *)
Definition child g (p : string) (i : Image) : Prop := ID i ∈ ids (idIndex g) /\ stored g (ID i) i /\ Parent i = p.

Lemma child_Get g p i : good g -> child g p i -> Get g (ID i) = Ok i.
Proof. intros Hg (H1 & H2 & _). apply Get_whole; [done|by apply good_consistent|done|done]. Qed.

Lemma children_spec g dir p x : good g -> lists Root g dir -> x ∈ children_ids Root layer_size g dir p <-> exists i, child g p i /\ ID i = x.
Proof.
  intros Hg Hd. pose proof (good_consistent _ _ Hg) as Hc.
  assert (forall y i, Map Root layer_size g dir !! y = Some i <-> y = ID i /\ ID i ∈ ids (idIndex g) /\ stored g (ID i) i) as HM.
  { intros y i. unfold Map. pose proof (fold_insert_spec (fun _ => true) (walkAll Root layer_size g dir) ∅ y) as Hf. cbv iota in Hf. rewrite Hf.
    2: { intros a b. by apply stored_unique. } 2: { intros a _. left. apply lookup_empty. }
    rewrite lookup_empty. cbn [andb]. split.
    - intros [Hin He%String.eqb_eq]%List.find_some. apply list_elem_of_In, walkAll_spec in Hin as [Hin Hs]; [by subst|done..].
    - intros (-> & Hin & Hs). assert (i ∈ walkAll Root layer_size g dir) as Hw by (by apply walkAll_spec).
      destruct (List.find _ _) as [j|] eqn:Hj.
      + apply List.find_some in Hj as [Hj He%String.eqb_eq]. f_equal. apply (stored_unique Root layer_size root_plain g dir); [done|done|by apply list_elem_of_In|done|done].
      + pose proof (List.find_none _ _ Hj i (proj1 (list_elem_of_In _ _) Hw)) as Hx. cbv beta in Hx. by rewrite String.eqb_refl in Hx. }
  unfold children_ids. rewrite elem_of_list_to_set, list_elem_of_fmap. split.
  - intros (i & -> & Hi). apply list_elem_of_In, List.filter_In in Hi as [Hi He%String.eqb_eq]. exists i. split; [|done].
    apply list_elem_of_In, list_elem_of_fmap in Hi as ([y j] & -> & Hin). apply elem_of_map_to_list, HM in Hin as (_ & ? & ?). done.
  - intros (i & (H1 & H2 & H3) & <-). exists i. split; [done|]. apply list_elem_of_In, List.filter_In. split; [|by apply String.eqb_eq].
    apply list_elem_of_In, list_elem_of_fmap. exists (ID i, i). split; [done|]. by apply elem_of_map_to_list, HM.
Qed.

(** The latest of some images that were made with a configuration. *)
Definition latest (k : Config) (S : Image -> Prop) (r : option Image) : Prop :=
  match r with
  | None => forall i, S i -> Compare (Some (ContainerConfig i)) (Some k) = false
  | Some m => S m /\ Compare (Some (ContainerConfig m)) (Some k) = true /\ forall i, S i -> Compare (Some (ContainerConfig i)) (Some k) = true -> Created i <= Created m
  end.

Lemma cached_step_ok g k m x i : Get g x = Ok i -> cached_step Root layer_size g k m x =
  Ok (if Compare (Some (ContainerConfig i)) (Some k) then match m with None => Some i | Some m0 => if Created m0 <? Created i then Some i else m end else m).
Proof. intros Hi. unfold cached_step. by rewrite Hi. Qed.

Lemma cached_fold g k l : (forall x, x ∈ l -> exists i, Get g x = Ok i) -> forall (S : Image -> Prop) m, latest k S m ->
  exists r, result_foldl (cached_step Root layer_size g k) m l = Ok r /\ latest k (fun i => S i \/ exists x, x ∈ l /\ Get g x = Ok i) r.
Proof.
  induction l as [|x l IH]; intros Hl S m Hm.
  { exists m. split; [done|]. destruct m as [m|]; simpl in *.
    - destruct Hm as (H1 & H2 & H3). split; [by left|]. split; [done|]. intros i [Hi|(? & []%not_elem_of_nil & _)]. by apply H3.
    - intros i [Hi|(? & []%not_elem_of_nil & _)]. by apply Hm. }
  destruct (Hl x) as [i Hi]; [by left|]. cbn [result_foldl]. rewrite (cached_step_ok g k m x i Hi). cbn [mbind result_bind].
  set (m' := if Compare (Some (ContainerConfig i)) (Some k) then match m with None => Some i | Some m0 => if Created m0 <? Created i then Some i else m end else m).
  assert (latest k (fun j => S j \/ j = i) m') as Hm'.
  { unfold m'. destruct (Compare (Some (ContainerConfig i)) (Some k)) eqn:Ec; destruct m as [m|]; simpl in *.
    - destruct Hm as (H1 & H2 & H3). destruct (Z.ltb_spec (Created m) (Created i)); simpl.
      + split; [by right|]. split; [done|]. intros j [Hj| ->] Hcj; [specialize (H3 j Hj Hcj)|]; lia.
      + split; [by left|]. split; [done|]. intros j [Hj| ->] Hcj; [by apply H3|lia].
    - split; [by right|]. split; [done|]. intros j [Hj| ->] Hcj; [by rewrite Hm in Hcj|lia].
    - destruct Hm as (H1 & H2 & H3). split; [by left|]. split; [done|]. intros j [Hj| ->] Hcj; [by apply H3|congruence].
    - intros j [Hj| ->]; [by apply Hm|done]. }
  destruct (IH (fun y Hy => Hl y (list_elem_of_further _ _ _ Hy)) _ m' Hm') as (r & -> & Hr). exists r. split; [done|].
  assert (forall j, ((S j \/ j = i) \/ (exists y, y ∈ l /\ Get g y = Ok j)) <-> (S j \/ exists y, y ∈ x :: l /\ Get g y = Ok j)) as Heq.
  { intros j. split.
    - intros [[?| ->]|(y & Hy & Hgy)]; [by left|right; exists x; split; [by left|done]|right; exists y; split; [by right|done]].
    - intros [?|(y & [->|Hy]%elem_of_cons & Hgy)]; [by left; left|left; right; congruence|right; by exists y]. }
  destruct r as [r|]; simpl in *; [|intros j Hj; apply Hr; by apply Heq].
  destruct Hr as (H1 & H2 & H3). split; [by apply Heq|]. split; [done|]. intros j Hj. apply H3. by apply Heq.
Qed.

(** The search finds the latest child. *)
Lemma ImageGetCached_latest g dir p k : good g -> lists Root g dir ->
  exists r, ImageGetCached Root layer_size g dir range p k = Ok r /\ latest k (child g p) r.
Proof.
  intros Hg Hd. unfold ImageGetCached.
  assert (forall x, x ∈ range (children_ids Root layer_size g dir p) <-> exists i, child g p i /\ ID i = x) as Hr.
  { intros x. rewrite range_elements, elem_of_elements. by apply children_spec. }
  destruct (cached_fold g k (range (children_ids Root layer_size g dir p))) with (S := fun _ : Image => False) (m := @None Image) as (r & E & Hl); [|by intros i []|].
  { intros x (i & Hi & <-)%Hr. exists i. by apply (child_Get g p). }
  exists r. split; [done|]. assert (forall i, (False \/ exists x, x ∈ range (children_ids Root layer_size g dir p) /\ Get g x = Ok i) <-> child g p i) as Heq.
  { intros i. split; [intros [[]|(x & (j & Hj & <-)%Hr & E')]; rewrite (child_Get g p j) in E' by done; congruence|].
    intros Hi. right. exists (ID i). split; [apply Hr; by exists i|by apply (child_Get g p)]. }
  destruct r as [r|]; simpl in *; [|intros i Hi; apply Hl; by apply Heq].
  destruct Hl as (H1 & H2 & H3). split; [by apply Heq|]. split; [done|]. intros i Hi. apply H3. by apply Heq.
Qed.

(** Two graphs with the same children. *)
Lemma ImageGetCached_same g g' dir dir' p k : good g -> lists Root g dir -> good g' -> lists Root g' dir' ->
  (forall i, child g p i <-> child g' p i) -> ImageGetCached Root layer_size g' dir' range p k = ImageGetCached Root layer_size g dir range p k.
Proof.
  intros Hg Hd Hg' Hd' Hch. unfold ImageGetCached.
  assert (children_ids Root layer_size g' dir' p = children_ids Root layer_size g dir p) as ->.
  { apply set_eq. intros x. rewrite !children_spec by done. by setoid_rewrite Hch. }
  assert (forall l m, (forall x, x ∈ l -> Get g' x = Get g x) -> result_foldl (cached_step Root layer_size g' k) m l = result_foldl (cached_step Root layer_size g k) m l) as Hfold.
  { induction l as [|x l IH]; intros m Hl; [done|]. cbn [result_foldl].
    assert (cached_step Root layer_size g' k m x = cached_step Root layer_size g k m x) as -> by (unfold cached_step; by rewrite Hl by (by left)).
    destruct (cached_step Root layer_size g k m x); [|done]. apply IH. intros y Hy. apply Hl. by right. }
  apply Hfold. intros x. rewrite range_elements, elem_of_elements. intros (i & Hi & <-)%children_spec; [|done|done].
  rewrite (child_Get g p i), (child_Get g' p i); [done|done|by apply Hch|done|done].
Qed.

(** The only one that is not older than itself. *)
Lemma latest_unique k S m r : latest k S r -> S m -> Compare (Some (ContainerConfig m)) (Some k) = true ->
  (forall i, S i -> i = m \/ Created i < Created m) -> r = Some m.
Proof.
  intros Hr Hm Hc Hi. destruct r as [r|]; [|specialize (Hr m Hm); congruence]. destruct Hr as (H1 & H2 & H3).
  destruct (Hi r H1) as [->|Hlt]; [done|]. specialize (H3 m Hm Hc). lia.
Qed.
End Cached.

(** The search for a cached image answers a child of the image that was
    made with the same configuration, a latest one, and none only if there is
    none; and when the children made with that configuration differ in their
    times, the order in which the set of children is visited does not matter. *)
Theorem ImageGetCached_spec {T D L : Type} {HT : Trie T} {HD : GraphDriver D L} (Root : list string) (layer_size : L -> option L -> Z) (range range' : gset string -> list string)
    (g : Graph T D) (dir : list string) (p : string) (k : Config) :
  plain Root -> (forall s, range s ≡ₚ elements s) -> (forall s, range' s ≡ₚ elements s) -> good Root g -> lists Root g dir ->
  exists r, ImageGetCached Root layer_size g dir range p k = Ok r /\
    match r with
    | None => forall i, child Root g p i -> Compare (Some (ContainerConfig i)) (Some k) = false
    | Some m => child Root g p m /\ Compare (Some (ContainerConfig m)) (Some k) = true /\
        forall i, child Root g p i -> Compare (Some (ContainerConfig i)) (Some k) = true -> Created i <= Created m
    end /\
    ((forall i j, child Root g p i -> child Root g p j -> Compare (Some (ContainerConfig i)) (Some k) = true -> Compare (Some (ContainerConfig j)) (Some k) = true ->
        Created i = Created j -> i = j) -> ImageGetCached Root layer_size g dir range' p k = Ok r).
Proof.
  intros Hp Hr Hr' Hg Hd. destruct (ImageGetCached_latest Root layer_size Hp range Hr g dir p k Hg Hd) as (r & E & Hl). exists r. split; [done|]. split; [exact Hl|].
  intros Hu. destruct (ImageGetCached_latest Root layer_size Hp range' Hr' g dir p k Hg Hd) as (r' & -> & Hl'). f_equal.
  destruct r as [m|], r' as [m'|]; simpl in *; [|..|done].
  - destruct Hl as (H1 & H2 & H3), Hl' as (H1' & H2' & H3'). f_equal. apply Hu; [done..|]. pose proof (H3 m' H1' H2'). pose proof (H3' m H1 H2). lia.
  - destruct Hl as (H1 & H2 & _). specialize (Hl' m H1). congruence.
  - destruct Hl' as (H1 & H2 & _). specialize (Hl m' H1). congruence.
Qed.

Lemma ImageGetCached_spec_witness :
  exists r, ImageGetCached Images.Demo.Root Images.Demo.size Images.Demo.G2 [Images.Demo.digits "a"; "_tmp"; Images.Demo.digits "b"] elements (Images.Demo.digits "a") Images.Demo.no_config = Ok r.
Proof.
  destruct (ImageGetCached_spec Images.Demo.Root Images.Demo.size elements elements Images.Demo.G2 [Images.Demo.digits "a"; "_tmp"; Images.Demo.digits "b"] (Images.Demo.digits "a") Images.Demo.no_config)
    as (r & E & _).
  - exact Images.Demo.root_plain.
  - intros s. reflexivity.
  - intros s. reflexivity.
  - exact (reachable_good Images.Demo.Root Images.Demo.size Images.Demo.unpack Images.Demo.root_plain Images.Demo.size_nonneg Images.Demo.G2 Images.Demo.G2_reachable).
  - exact Images.Demo.G2_lists.
  - exists r. exact E.
Defined.
