(* ===== verification/Create.v ===== *)
(** * daemon/create.go and daemon/commit.go: containers from images and back

    The daemon's stores together: the images (Images.v), their names (Tags.v)
    and the containers (Names.v), whose layers the driver of the graph keeps
    next to those of the images.  [Create] makes a container of an image,
    [Commit] an image of a container.  The identifiers that are drawn come
    one after the other from [random_id], the times of these moments from
    [now], and what the disk fails with is an argument. *)

From stdpp Require Import base gmap sets list strings.
From Stdlib Require Import ZArith Lia Ascii.
From S2P Require Import Prelude GoStrings GoPath Parsers RunConfig State Names Tags Images.

Local Open Scope Z_scope.

Record Store (T D : Type) := {
  graph : Graph T D;
  names : TagStore;
  daemon : Names.Daemon T;
  configs : gmap string Config;
  drawn : nat }.
Arguments graph {T D} _.
Arguments names {T D} _.
Arguments daemon {T D} _.
Arguments configs {T D} _.
Arguments drawn {T D} _.

(** What making a container's directories fails with; a layer that is set up
    gets the files of [graph.SetupInitLayer]. *)
Record Create_io (L : Type) := {
  labels_err : option string;
  mkdir_err : option string;
  SetupInitLayer : L -> result string L;
  to_disk_err : option string }.
Arguments labels_err {L} _.
Arguments mkdir_err {L} _.
Arguments SetupInitLayer {L} _ _.
Arguments to_disk_err {L} _.

(** [runconfig.Config] as it is made. *)
Definition no_config : Config :=
  {| Hostname := ""; Domainname := ""; User := ""; Memory := 0; MemorySwap := 0; CpuShares := 0; Cpuset := ""; AttachStdin := false; AttachStdout := false; AttachStderr := false;
     PortSpecs := []; ExposedPorts := None; Tty := false; OpenStdin := false; StdinOnce := false; Env := []; Cmd := []; RunConfig.Image := ""; Volumes := ∅; WorkingDir := ""; Entrypoint := [];
     NetworkDisabled := false; OnBuild := [] |}.

Definition set_Hostname (h : string) (c : Config) : Config :=
  {| Hostname := h; Domainname := Domainname c; User := User c; Memory := Memory c; MemorySwap := MemorySwap c; CpuShares := CpuShares c; Cpuset := Cpuset c;
     AttachStdin := AttachStdin c; AttachStdout := AttachStdout c; AttachStderr := AttachStderr c; PortSpecs := PortSpecs c; ExposedPorts := ExposedPorts c; Tty := Tty c;
     OpenStdin := OpenStdin c; StdinOnce := StdinOnce c; Env := Env c; Cmd := Cmd c; RunConfig.Image := RunConfig.Image c; Volumes := Volumes c; WorkingDir := WorkingDir c; Entrypoint := Entrypoint c;
     NetworkDisabled := NetworkDisabled c; OnBuild := OnBuild c |}.

Definition checkDeprecatedExpose (config : option Config) : bool :=
  match config with Some c => existsb (contains ":") (PortSpecs c) | None => false end.

(** The configuration is changed also when there is an error. *)
Definition mergeAndVerifyConfig (is_ip : string -> bool) (config : Config) (img : Images.Image) : Config * result string (list string) :=
  let warnings := if checkDeprecatedExpose (Config_ img) || checkDeprecatedExpose (Some config) then
    ["The mapping to public ports on your host via Dockerfile EXPOSE (host:port:port) has been deprecated. Use -p to publish the ports."] else [] in
  let '(config, err) := match Config_ img with
    | Some ic => let '(u, _, err) := Merge is_ip config ic in (u, err)
    | None => (config, None)
    end in
  (config, match err with
           | Some e => Err e
           | None => if bool_decide (Entrypoint config = [] /\ Cmd config = []) then Err "No command specified" else Ok warnings
           end).

Section Create.
Context {T D L : Type} {HT : Trie T} {HD : GraphDriver D L}.
Context (Root : list string) (layer_size : L -> option L -> Z) {Data : Type} (unpack : L -> Data -> result string L) (export : L -> L -> result string Data).
Context (order : forall V, gmap string V -> list (string * V)) (is_ip : string -> bool) (edge_exists driver_name : string).
(** What [utils.GenerateRandomID] draws, which panics when the source of
    randomness fails, the names drawn at each identifier, and what [time.Now]
    answers while it is drawn, which need not go on. *)
Context (random_id : nat -> option string) (random_name : nat -> nat -> string) (now : nat -> Z).
Implicit Types (w : Store T D) (g : Graph T D).

Definition with_graph w g : Store T D := {| graph := g; names := names w; daemon := daemon w; configs := configs w; drawn := drawn w |}.
Definition with_names w s : Store T D := {| graph := graph w; names := s; daemon := daemon w; configs := configs w; drawn := drawn w |}.
Definition with_daemon w d : Store T D := {| graph := graph w; names := names w; daemon := d; configs := configs w; drawn := drawn w |}.
Definition with_configs w cs : Store T D := {| graph := graph w; names := names w; daemon := daemon w; configs := cs; drawn := drawn w |}.
Definition next_id w : Store T D := {| graph := graph w; names := names w; daemon := daemon w; configs := configs w; drawn := S (drawn w) |}.
Definition LookupImage w (name : string) : Store T D * result string Images.Image :=
  let '(s, r) := Tags.LookupImage (H := graph_store Root layer_size (graph w)) order name (names w) in (with_names w s, r).

(** ** Create *)

Definition newContainer (io : Create_io L) w (name : string) (config : Config) (img : Images.Image) : outcome (Store T D * Config * result string Names.Container) :=
  let k := drawn w in
  id ← match random_id k with Some id => Return id | None => Panic end;
  '(d, r) ← generateIdAndName edge_exists (random_name k) id (daemon w) name;
  let w := with_daemon (next_id w) d in
  match r with
  | Err e => Return (w, config, Err e)
  | Ok (id, name) =>
      h ← generateHostname id (Hostname config);
      let config := set_Hostname h config in
      '(entrypoint, args) ← getEntrypointAndArgs (Entrypoint config) (Cmd config);
      let '(s, cs) := NewState (chans d) in
      let w := with_daemon w (with_chans d cs) in
      Return (w, config,
        match labels_err io with
        | Some e => Err e
        | None => Ok {| Names.ID := id; Name := name; Names.Image := Images.ID img; Names.Created := now k; Names.state := s; Driver := driver_name;
                        Args := args; Path := entrypoint; VolumePaths := []; Binds := []; RestartPolicyName := ""; has_daemon := false |}
        end)
  end.

Definition createRootfs (io : Create_io L) w (id imgID : string) : Store T D * option string :=
  match mkdir_err io with
  | Some e => (w, Some e)
  | None =>
      let initID := id +:+ "-init" in
      let '(d, err) := Driver_Create (driver (graph w)) initID imgID in
      let w := with_graph w (Images.with_driver (graph w) d) in
      match err, layer_of d initID with
      | Some e, _ => (w, Some e)
      | None, None => (w, Some "no such file or directory")
      | None, Some l =>
          match SetupInitLayer io l with
          | Err e => (w, Some e)
          | Ok l =>
              let '(d, err) := Driver_Create (Driver_Write d initID l) id initID in
              (with_graph w (Images.with_driver (graph w) d), err)
          end
      end
  end.

(** [fuel] bounds the walk through the image's ancestors. *)
Definition Create (fuel : nat) (io : Create_io L) w (config : Config) (name : string) : outcome (Store T D * Config * result string (Names.Container * list string)) :=
  let '(w, img) := LookupImage w (RunConfig.Image config) in
  match img with
  | Err e => Return (w, config, Err e)
  | Ok img =>
      deep ← CheckDepth Root layer_size fuel (graph w) img;
      match deep with
      | Err e => Return (w, config, Err e)
      | Ok _ =>
          let '(config, warnings) := mergeAndVerifyConfig is_ip config img in
          match warnings with
          | Err e => Return (w, config, Err e)
          | Ok warnings =>
              '(w, config, container) ← newContainer io w name config img;
              match container with
              | Err e => Return (w, config, Err e)
              | Ok container =>
                  let '(w, err) := createRootfs io w (Names.ID container) (Images.ID img) in
                  match err, to_disk_err io with
                  | Some e, _ | None, Some e => Return (w, config, Err e)
                  | None, None =>
                      '(d, container, err) ← register edge_exists (random_name (drawn w)) (now (drawn w)) false None (daemon w) container;
                      let w := with_daemon w d in
                      Return (match err with
                              | Some e => (w, config, Err e)
                              | None => (with_configs w (<[Names.ID container := config]> (configs w)), config, Ok (container, warnings))
                              end)
                  end
              end
          end
      end
  end.

(** ** Commit *)

(** The directory a container's layer is mounted on. *)
Definition Mount w (id : string) : result string L :=
  match layer_of (driver (graph w)) id with
  | Some l => Ok l
  | None => Err ("Error getting container " +:+ id +:+ " from driver " +:+ driver_name)
  end.

(** What a container changed: its layer against the one it was made with. *)
Definition Diff w (id : string) : result string Data :=
  match layer_of (driver (graph w)) id, layer_of (driver (graph w)) (id +:+ "-init") with
  | None, _ => Err ("Error getting container rootfs " +:+ id +:+ " from driver " +:+ driver_name)
  | _, None => Err ("Error getting container init rootfs " +:+ id +:+ " from driver " +:+ driver_name)
  | Some l, Some init => export l init
  end.

Definition ExportRw w (c : Names.Container) : result string Data :=
  _ ← Mount w (Names.ID c);
  if has_daemon c then Diff w (Names.ID c) else Err ("Can't load storage driver for unregistered container " +:+ Names.ID c).

(** [container.Pause] and [Unpause] of the execution driver; the container is
    the one the daemon holds. *)
Definition Pause (driver_Pause : string -> option string) (d : Names.Daemon T) (id : string) : Names.Daemon T * option string :=
  match Names.containers d !! id with
  | None => (d, Some "no such container")
  | Some c =>
      if IsPaused (Names.state c) then (d, Some ("Container " +:+ id +:+ " is already paused"))
      else if negb (IsRunning (Names.state c)) then (d, Some ("Container " +:+ id +:+ " is not running"))
      else match driver_Pause id with
           | Some e => (d, Some e)
           | None => (with_containers d (<[id := with_state c (SetPaused (Names.state c))]> (Names.containers d)), None)
           end
  end.

Definition Unpause (driver_Unpause : string -> option string) (d : Names.Daemon T) (id : string) : Names.Daemon T * option string :=
  match Names.containers d !! id with
  | None => (d, Some "no such container")
  | Some c =>
      if negb (IsPaused (Names.state c)) then (d, Some ("Container " +:+ id +:+ " is not paused"))
      else if negb (IsRunning (Names.state c)) then (d, Some ("Container " +:+ id +:+ " is not running"))
      else match driver_Unpause id with
           | Some e => (d, Some e)
           | None => (with_containers d (<[id := with_state c (SetUnpaused (Names.state c))]> (Names.containers d)), None)
           end
  end.

Context (driver_Pause driver_Unpause : string -> option string).

Definition commit_image (io : Disk_io) w (c : Names.Container) (containerConfig : Config) (repository tag comment author : string) (config : Config) :
    outcome (Store T D * result string Images.Image) :=
  match (_ ← Mount w (Names.ID c); ExportRw w c) with
  | Err e => Return (w, Err e)
  | Ok rwTar =>
      id ← match random_id (drawn w) with Some id => Return id | None => Panic end;
      let '(g, img) := Images.Create Root layer_size unpack (graph w) io id "tmp" (now (drawn w)) (Some rwTar) (Names.ID c) (Names.Image c) comment author
        containerConfig (Some config) in
      let w := with_graph (next_id w) g in
      match img with
      | Err e => Return (w, Err e)
      | Ok img =>
          if String.eqb repository "" then Return (w, Ok img)
          else
            let '(s, r) := Tags.Set_ (H := graph_store Root layer_size (graph w)) order repository tag (Images.ID img) true (names w) in
            Return (with_names w s, match r with Ok _ => Ok img | Err e => Err e end)
      end
  end.

(** The container is paused meanwhile. *)
Definition Commit (io : Disk_io) w (c : Names.Container) (containerConfig : Config) (repository tag comment author : string) (pause : bool) (config : Config) :
    outcome (Store T D * result string Images.Image) :=
  let id := Names.ID c in
  let w := if pause then with_daemon w (fst (Pause driver_Pause (daemon w) id)) else w in
  '(w, r) ← commit_image io w c containerConfig repository tag comment author config;
  Return (if pause then with_daemon w (fst (Unpause driver_Unpause (daemon w) id)) else w, r).

(** The job: [newConfig] is its environment's [config]. *)
Definition ContainerCommit (io : Disk_io) w (args : list string) (newConfig : result string Config) (repo tag comment author : string) (pause : bool) :
    outcome (Store T D * result string string) :=
  match args with
  | [name] =>
      match Get_container (daemon w) name with
      | None => Return (w, Err ("No such container: " +:+ name))
      | Some container =>
          match newConfig with
          | Err e => Return (w, Err e)
          | Ok newConfig =>
              let containerConfig := default no_config (configs w !! Names.ID container) in
              let '(config, containerConfig, err) := Merge is_ip newConfig containerConfig in
              let w := with_configs w (<[Names.ID container := containerConfig]> (configs w)) in
              match err with
              | Some e => Return (w, Err e)
              | None =>
                  '(w, img) ← Commit io w container containerConfig repo tag comment author pause config;
                  Return (w, match img with Ok i => Ok (Images.ID i) | Err e => Err e end)
              end
          end
      end
  | _ => Return (w, Err ("Not enough arguments. Usage: commit CONTAINER" +:+ String "010" ""))
  end.
End Create.
