(* ===== verification/Stores.v ===== *)
(** * What the daemon's stores keep

    The invariant of the stores of Create.v, and what [Create] and [Commit]
    do to them: one container more, or one image more, and everything else as
    it was. *)

From stdpp Require Import base gmap sets list strings.
From Stdlib Require Import ZArith Lia Ascii.
From S2P Require Import Prelude GoStrings GoPath Parsers RunConfig State Names Tags Images Create Cached.

Local Open Scope Z_scope.

Section Stores.
Context {T D L : Type} {HT : Trie T} {HD : GraphDriver D L}.
Context (Root : list string) (layer_size : L -> option L -> Z) (random_id : nat -> option string).
Context (now : nat -> Z).
Implicit Types (w : Store T D) (g : Graph T D).

(** The walk through an image's ancestors is no longer than that. *)
Definition walk_fuel g : nat := S (size (ids (idIndex g))).

(** ** The invariant *)

Record store_ok w : Prop := {
  ok_graph : good Root (graph w);
  ok_names : Tags.synced (names w);
  ok_repos : forall r, r ∈ dom (Repositories (names w)) -> id_ok r -> False;
  ok_index : idx_wf (Names.idIndex (daemon w)) /\ ids (Names.idIndex (daemon w)) = dom (containers (daemon w));
  ok_containers : forall id c, containers (daemon w) !! id = Some c ->
    Names.ID c = id /\ id_ok id /\ (id ∉ ids (idIndex (graph w))) /\ Names.Image c ∈ ids (idIndex (graph w));
  ok_fresh : forall n x, (drawn w <= n)%nat -> random_id n = Some x -> (x ∉ ids (idIndex (graph w))) /\ (x ∉ dom (containers (daemon w))) }.

(** The images were made before everything to come. *)
Definition timely w : Prop := forall p i n, child Root (graph w) p i -> (drawn w <= n)%nat -> Images.Created i < now n.

Context (root_plain : plain Root) (layer_size_nonneg : forall l p, 0 <= layer_size l p).
Context (random_id_ok : forall n x, random_id n = Some x -> id_ok x) (random_id_new : forall m n x, random_id m = Some x -> random_id n = Some x -> m = n).

Lemma CheckDepth_returns g i : good Root g -> Images.ID i ∈ ids (idIndex g) -> stored Root g (Images.ID i) i ->
  exists r, CheckDepth Root layer_size (walk_fuel g) g i = Return r.
Proof.
  intros Hg Hin Hs. destruct (lineage_exists Root layer_size root_plain g (Images.ID i) i Hg Hin Hs) as [l Hl].
  pose proof (lineage_length Root layer_size root_plain g _ i l Hg Hin Hs Hl) as Hlen. unfold CheckDepth, Depth, walk_fuel.
  rewrite (Depth_lineage Root layer_size g i l Hl) by lia. by eexists.
Qed.

(** A graph whose index and directories stay, and the layers of its images. *)
Definition same_graph g g' : Prop := idIndex g' = idIndex g /\ roots g' = roots g /\ forall x, x ∈ ids (idIndex g) -> layer_of (driver g') x = layer_of (driver g) x.

Lemma same_graph_good g g' : same_graph g g' -> good Root g -> good Root g'.
Proof.
  intros (Hi & Hr & Hl) [[C1 C2 C3 C4] G2 G3 G4].
  assert (forall id img, stored Root g' id img <-> stored Root g id img) as Hst by (intros; unfold stored; by rewrite Hr).
  assert (forall p c, parent_of Root g' p c <-> parent_of Root g p c) as Hp by (intros p c; unfold parent_of; rewrite Hi; by setoid_rewrite Hst).
  split; [split|..].
  - by rewrite Hi.
  - intros id. rewrite Hi. apply C2.
  - intros id. rewrite Hi. intros (img & H1 & H2)%C3. exists img. by rewrite Hst.
  - intros id. rewrite Hi, Hr. apply C4.
  - intros id. rewrite Hi. intros Hin. rewrite Hl by done. by apply G2.
  - intros p c. rewrite Hi. intros Hpc%Hp. by apply (G3 p c).
  - intros id. specialize (G4 id). induction G4 as [id _ IH]. constructor. intros q Hq. apply IH. by apply Hp.
Qed.

Lemma same_graph_child g g' p i : same_graph g g' -> child Root g' p i <-> child Root g p i.
Proof. intros (Hi & Hr & _). unfold child, stored. by rewrite Hi, Hr. Qed.


Lemma same_graph_driver g d : (forall x, x ∈ ids (idIndex g) -> layer_of d x = layer_of (driver g) x) -> same_graph g (Images.with_driver g d).
Proof. done. Qed.

Lemma same_graph_refl g : same_graph g g.
Proof. done. Qed.

Lemma same_graph_timely w w' : same_graph (graph w) (graph w') -> (drawn w <= drawn w')%nat -> timely w -> timely w'.
Proof. intros Hs Hd Ht p i n Hi Hn. apply (same_graph_child _ _ _ _ Hs) in Hi. apply (Ht p i n Hi). lia. Qed.

(** *** Containers *)

Lemma Get_container_whole w id c : store_ok w -> containers (daemon w) !! id = Some c -> Get_container (daemon w) id = Some c.
Proof.
  intros [_ _ _ [Hw Hd] Hc _] Hid. unfold Get_container. assert (Get_id id (Names.idIndex (daemon w)) = Ok id) as ->; [|done].
  apply Get_id_spec; [done|]. destruct (Hc id c Hid) as (_ & Hok & _).
  split; [by intros ->; destruct Hok|]. rewrite Hd. split; [by apply elem_of_dom_2 in Hid|]. split; [apply has_prefix_refl|].
  intros x [y Hy]%elem_of_dom Hp. symmetry. apply id_ok_prefix; [done| |done]. by destruct (Hc x y Hy) as (_ & ? & _).
Qed.

Lemma Get_container_some w name c : store_ok w -> Get_container (daemon w) name = Some c -> containers (daemon w) !! Names.ID c = Some c.
Proof.
  intros [_ _ _ _ Hc _]. unfold Get_container, GetByName.
  assert (forall x, containers (daemon w) !! x = Some c -> containers (daemon w) !! Names.ID c = Some c) as Hx.
  { intros x Hx. destruct (Hc x c Hx) as (He & _). by rewrite He. }
  destruct (Get_id name _) as [id|]; [apply Hx|]. destruct (GetFullContainerName name) as [f|]; [|done]. cbn [mbind result_bind].
  destruct (GraphDB.Get _ f) as [y|]; [|done]. destruct (containers (daemon w) !! y) as [c'|] eqn:E; [|done]. intros [= ->]. by apply (Hx y).
Qed.

(** Images stay; containers change. *)
Lemma ok_containers_change w w' : store_ok w -> same_graph (graph w) (graph w') -> names w' = names w -> (drawn w <= drawn w')%nat ->
  idx_wf (Names.idIndex (daemon w')) -> ids (Names.idIndex (daemon w')) = dom (containers (daemon w')) ->
  (forall id c, containers (daemon w') !! id = Some c -> Names.ID c = id /\ id_ok id /\ (id ∉ ids (idIndex (graph w))) /\ Names.Image c ∈ ids (idIndex (graph w))) ->
  (forall n x, (drawn w' <= n)%nat -> random_id n = Some x -> x ∉ dom (containers (daemon w'))) -> store_ok w'.
Proof.
  intros [G1 G2 G3 G5 G6 G7] Hs Hn Hd Hx1 Hx2 Hcs Hf. pose proof Hs as (Hi & _). split.
  - by apply (same_graph_good (graph w)).
  - by rewrite Hn.
  - by rewrite Hn.
  - done.
  - intros id c Hid. rewrite Hi. by apply Hcs.
  - intros n x Hle Hx. rewrite Hi. split; [by apply (G7 n); [lia|]|by apply (Hf n)].
Qed.

(** The same containers, in other states. *)
Definition same_containers (d d' : Names.Daemon T) : Prop :=
  Names.idIndex d' = Names.idIndex d /\ dom (containers d') = dom (containers d) /\
  forall id c', containers d' !! id = Some c' -> exists c, containers d !! id = Some c /\ Names.ID c' = Names.ID c /\ Names.Image c' = Names.Image c.

Lemma ok_same_containers w w' : store_ok w -> same_graph (graph w) (graph w') -> names w' = names w -> (drawn w <= drawn w')%nat ->
  same_containers (daemon w) (daemon w') -> store_ok w'.
Proof.
  intros Hok Hs Hn Hd (H1 & H2 & H3). apply (ok_containers_change w); try done.
  - rewrite H1. apply Hok.
  - rewrite H1, H2. apply Hok.
  - intros id c' Hid. destruct (H3 id c' Hid) as (c & Hc' & -> & ->). by apply (ok_containers w Hok).
  - intros n x Hle. rewrite H2. apply (ok_fresh w Hok). lia.
Qed.

Lemma same_containers_state d id c s : containers d !! id = Some c -> same_containers d (with_containers d (<[id := with_state c s]> (containers d))).
Proof.
  intros Hid. split; [done|]. split.
  - cbn [containers with_containers]. rewrite dom_insert_L. apply elem_of_dom_2 in Hid. apply subseteq_union_1_L. by apply singleton_subseteq_l.
  - intros x c'. cbn [containers with_containers]. intros [[<- <-]|[_ Hx]]%lookup_insert_Some; [by exists c|by exists c'].
Qed.

Lemma Pause_same f d id : same_containers d (Pause f d id).1 /\ same_containers d (Unpause f d id).1.
Proof.
  assert (same_containers d d) as Hr by (split; [done|]; split; [done|]; intros x c Hx; by exists c).
  unfold Pause, Unpause. destruct (containers d !! id) as [c|] eqn:E; [|done].
  split; repeat (match goal with |- context [if ?b then _ else _] => destruct b | |- context [match f id with _ => _ end] => destruct (f id) end; [done|]); by apply same_containers_state.
Qed.

(** *** Looking up *)

Section Making.
Context (order : forall V, gmap string V -> list (string * V)) (is_ip : string -> bool) (edge_exists driver_name : string) (random_name : nat -> nat -> string).

Lemma with_names_same w : Create.with_names w (names w) = w.
Proof. by destruct w. Qed.

Lemma LookupImage_ok w name : store_ok w -> exists r, Create.LookupImage Root layer_size order w name = (w, r) /\
  match r with Ok i => Images.ID i ∈ ids (idIndex (graph w)) /\ stored Root (graph w) (Images.ID i) i | Err _ => True end.
Proof.
  intros [Hg Hn _ _ _ _]. unfold Create.LookupImage, Tags.LookupImage. destruct (ParseRepositoryTag name) as [repo tag]. rewrite GetImage_synced by done.
  rewrite with_names_same. eexists. split; [reflexivity|].
  assert (forall x i, graph_Get (ImageGraph := graph_store Root layer_size (graph w)) x = Ok i -> Images.ID i ∈ ids (idIndex (graph w)) /\ stored Root (graph w) (Images.ID i) i) as HG.
  { intros x i Hi. apply (Get_spec Root layer_size root_plain (graph w) x i (good_consistent _ _ Hg)) in Hi as (_ & ? & ? & _). done. }
  assert (forall x, match Some <$> graph_Get (ImageGraph := graph_store Root layer_size (graph w)) x with
     | Ok (Some i) => Images.ID i ∈ ids (idIndex (graph w)) /\ stored Root (graph w) (Images.ID i) i | _ => True end) as HS.
  { intros x. destruct (graph_Get x) as [i|] eqn:E; [|done]. by apply (HG x). }
  assert (forall o : result string (option Images.Image), (match o with Ok (Some i) => Images.ID i ∈ ids (idIndex (graph w)) /\ stored Root (graph w) (Images.ID i) i | _ => True end) ->
     match (match o with Err e => Err e | Ok None => graph_Get (ImageGraph := graph_store Root layer_size (graph w)) name | Ok (Some img) => Ok img end) with
     | Ok i => Images.ID i ∈ ids (idIndex (graph w)) /\ stored Root (graph w) (Images.ID i) i | Err _ => True end) as Ho.
  { intros [[i|]|e] Hi; [done| |done]. destruct (graph_Get name) as [i|] eqn:E; [|done]. by apply (HG name). }
  apply Ho. destruct (Repositories (names w) !! repo) as [r|]; [|done].
  destruct (r !! _) as [x|]; [apply HS|]. destruct (find_revision order _ r) as [x|]; [apply HS|done].
Qed.

(** By its whole identifier. *)
Lemma LookupImage_whole w id i : store_ok w -> id ∈ ids (idIndex (graph w)) -> stored Root (graph w) id i -> Create.LookupImage Root layer_size order w id = (w, Ok i).
Proof.
  intros [Hg Hn Hr _ _ _] Hin Hs. pose proof (index_ok _ _ (good_consistent _ _ Hg) id Hin) as Hid. pose proof (id_ok_plain _ Hid) as (_ & Hcolon & _).
  unfold Create.LookupImage, Tags.LookupImage. rewrite ParseRepositoryTag_plain by done. rewrite GetImage_synced by done.
  destruct (Repositories (names w) !! id) as [r|] eqn:E; [destruct (Hr id); [by apply elem_of_dom_2 in E|done]|].
  cbn [graph_Get graph_store]. rewrite (Get_whole Root layer_size root_plain (graph w) id i) by (done || by apply good_consistent). by rewrite with_names_same.
Qed.

(** *** Making containers *)

(** A name is made up without touching the containers. *)
Lemma generateNewName_keeps random (d : Names.Daemon T) id d' r : generateNewName edge_exists random d id = Return (d', r) ->
  containers d' = containers d /\ Names.idIndex d' = Names.idIndex d /\ match r with Ok n => n <> "" | Err _ => True end.
Proof.
  unfold generateNewName. generalize 6%nat. intros tries. generalize 0%nat. intros i0. revert i0 d. induction tries as [|tries IH]; intros i d; cbn [generateNewName_loop]; cbv zeta.
  - destruct (GraphDB.Set_ edge_exists (containerGraph d) ("/" +:+ TruncateID id) id) as [[g1 r1]| |]; [|done..]. cbn [mbind outcome_bind]. intros [= <- <-].
    split; [done|]. split; [done|]. destruct r1; [|done]. discriminate.
  - destruct (slashed (random i)) as [n| |] eqn:En; [|done..]. cbn [mbind outcome_bind].
    assert (n <> "") as Hn.
    { revert En. unfold slashed. destruct (random i) as [|a s]; [done|]. destruct (Ascii.eqb _ _); by intros [= <-]. }
    destruct (GraphDB.Set_ edge_exists (containerGraph d) n id) as [[g1 r1]| |]; [|done..]. cbn [mbind outcome_bind].
    destruct r1 as [u|err]; [by intros [= <- <-]|]. destruct (negb _); [by intros [= <- <-]|].
    intros E. destruct (IH (S i) (Names.with_graph d g1) E) as (-> & -> & ?). done.
Qed.

(** A name is found without touching the containers. *)
Lemma generateIdAndName_keeps random id (d : Names.Daemon T) name d' r : generateIdAndName edge_exists random id d name = Return (d', r) ->
  containers d' = containers d /\ Names.idIndex d' = Names.idIndex d /\ match r with Ok (id', n) => id' = id /\ n <> "" | Err _ => True end.
Proof.
  unfold generateIdAndName. destruct (String.eqb name "").
  - destruct (generateNewName edge_exists random d id) as [[d1 r1]| |] eqn:E; [|done..]. cbn [mbind outcome_bind]. intros [= <- <-].
    destruct (generateNewName_keeps _ _ _ _ _ E) as (H1 & H2 & H3). split; [done|]. split; [done|]. by destruct r1.
  - destruct (reserveName edge_exists d id name) as [[d1 r1]| |] eqn:E; [|done..]. cbn [mbind outcome_bind]. intros [= <- <-].
    assert (containers d1 = containers d /\ Names.idIndex d1 = Names.idIndex d /\ match r1 with Ok n => n <> "" | Err _ => True end) as (H1 & H2 & H3); [|by destruct r1].
    revert E. unfold reserveName. destruct (negb _); [by intros [= <- <-]|]. destruct (slashed name) as [n| |] eqn:En; [|done..]. cbn [mbind outcome_bind].
    assert (n <> "") as Hn.
    { revert En. unfold slashed. destruct name as [|a s]; [done|]. destruct (Ascii.eqb _ _); by intros [= <-]. }
    destruct (GraphDB.Set_ edge_exists (containerGraph d) n id) as [[g1 [u|err]]| |]; [| |done..]; cbn [mbind outcome_bind]; [by intros [= <- <-]|].
    destruct (negb _); [by intros [= <- <-]|]. destruct (GetByName (Names.with_graph d g1) n) as [c|err']; [by intros [= <- <-]|].
    destruct (contains _ err'); [by intros [= <- <-]|]. destruct (GraphDB.Delete _ n) as [[g2 [e2|]]| |]; [| |done..]; cbn [mbind outcome_bind]; by intros [= <- <-].
Qed.

Lemma newContainer_cases (io : Create_io L) w name c img w' c' r : newContainer edge_exists driver_name random_id random_name now io w name c img = Return (w', c', r) ->
  graph w' = graph w /\ names w' = names w /\ drawn w' = S (drawn w) /\ containers (daemon w') = containers (daemon w) /\
  Names.idIndex (daemon w') = Names.idIndex (daemon w) /\ configs w' = configs w /\
  match r with
  | Ok ct => c' = set_Hostname (if String.eqb (Hostname c) "" then take_str 12 (Names.ID ct) else Hostname c) c /\
      random_id (drawn w) = Some (Names.ID ct) /\ Names.Name ct <> "" /\ Names.Image ct = Images.ID img /\ IsRunning (Names.state ct) = false
  | Err _ => True
  end.
Proof.
  unfold newContainer. destruct (random_id (drawn w)) as [id|]; [|done]. cbn [mbind outcome_bind].
  destruct (generateIdAndName edge_exists (random_name (drawn w)) id (daemon w) name) as [[d r1]| |] eqn:E; [|done..]. cbn [mbind outcome_bind].
  destruct (generateIdAndName_keeps _ _ _ _ _ _ E) as (H1 & H2 & H3). destruct r1 as [[id' n]|]; [|by intros [= <- <- <-]]. destruct H3 as [-> Hn].
  destruct (generateHostname id (Hostname c)) as [h| |] eqn:Eh; [|done..]. cbn [mbind outcome_bind]. destruct (getEntrypointAndArgs _ _) as [[ep args]| |]; [|done..]. cbn [mbind outcome_bind].
  destruct (NewState (chans d)) as [s cs] eqn:Es. intros [= <- <- <-]. do 6 (split; [done|]). destruct (labels_err io); [done|].
  assert (h = if String.eqb (Hostname c) "" then take_str 12 id else Hostname c) as Hh.
  { revert Eh. unfold generateHostname. destruct (String.eqb (Hostname c) ""); [|by intros [= <-]]. destruct (_ <? _)%nat; [done|]. by intros [= <-]. }
  split; [by rewrite Hh|]. split; [done|]. split; [done|]. split; [done|]. unfold NewState in Es. destruct (make_chan (chans d)) as [ch cs']. by injection Es as <- _.
Qed.

Lemma init_plain id : id_ok id -> plain_elem (id +:+ "-init") /\ ~ id_ok (id +:+ "-init").
Proof.
  intros Hid. destruct (id_ok_plain _ Hid) as ((Hp & _) & _). split.
  - split; [by rewrite contains_char_app, Hp|]. destruct Hid as [_ Hlen].
    assert (String.length (id +:+ "-init") = 69%nat) as Hl by (rewrite string_length_app, Hlen; done).
    split; [|split]; intros He; rewrite He in Hl; discriminate Hl.
  - intros [Hx _]. rewrite forall_str_app in Hx. apply andb_true_iff in Hx as [_ Hx]. discriminate Hx.
Qed.

(** The layers of a container are not those of images. *)
Lemma createRootfs_ok (io : Create_io L) w id imgID w' e : good Root (graph w) -> id_ok id -> (id ∉ ids (idIndex (graph w))) -> (imgID = "" \/ plain_elem imgID) ->
  createRootfs io w id imgID = (w', e) ->
  same_graph (graph w) (graph w') /\ names w' = names w /\ drawn w' = drawn w /\ daemon w' = daemon w /\ configs w' = configs w.
Proof.
  intros Hg Hid Hni Himg. destruct (init_plain id Hid) as [Hip Hio]. pose proof (proj1 (id_ok_plain _ Hid)) as Hpl.
  assert (forall x, x ∈ ids (idIndex (graph w)) -> plain_elem x /\ x <> id /\ x <> id +:+ "-init") as Hx.
  { intros x Hin. pose proof (index_ok _ _ (good_consistent _ _ Hg) x Hin) as Hok. split; [apply id_ok_plain, Hok|]. split; intros ->; done. }
  unfold createRootfs. destruct (mkdir_err io); [by intros [= <- <-]|]. cbv zeta.
  pose proof (fun x H1 H2 => proj2 (Driver_Create_spec (driver (graph w)) (id +:+ "-init") imgID Hip Himg) x H1 H2) as Hd1.
  destruct (Driver_Create (driver (graph w)) (id +:+ "-init") imgID) as [d1 e1]. cbn [fst] in Hd1.
  assert (same_graph (graph w) (Images.with_driver (graph w) d1)) as Hs1 by (apply same_graph_driver; intros x Hin; destruct (Hx x Hin) as (? & ? & ?); by apply Hd1).
  destruct e1; [intros [= <- <-]; by split|]. destruct (layer_of d1 (id +:+ "-init")) as [l|]; [|intros [= <- <-]; by split].
  destruct (SetupInitLayer io l) as [l'|]; [|intros [= <- <-]; by split].
  pose proof (fun x H1 H2 => proj2 (Driver_Create_spec (Driver_Write d1 (id +:+ "-init") l') id (id +:+ "-init") Hpl (or_intror Hip)) x H1 H2) as Hd2.
  destruct (Driver_Create (Driver_Write d1 (id +:+ "-init") l') id (id +:+ "-init")) as [d2 e2]. cbn [fst] in Hd2. intros [= <- <-].
  split; [|done]. cbn [graph Create.with_graph]. apply (same_graph_driver (graph w) d2). intros x Hin. destruct (Hx x Hin) as (H1 & H2 & H3).
  rewrite Hd2 by done. rewrite Driver_Write_spec, decide_False by done. by apply Hd1.
Qed.

Lemma Add_new id (i : TruncIndex T) : idx_wf i -> id_ok id -> (id ∉ ids i) -> idx_wf (Add id i).1 /\ ids (Add id i).1 = {[id]} ∪ ids i.
Proof.
  intros Hw Hid Hni. destruct (addId_spec id i Hw) as (Hw' & Hok & Hids). split; [done|]. change (Add id i) with (addId id i). rewrite Hids.
  destruct (is_ok (addId id i).2) eqn:E; [done|]. exfalso. assert (false = true) as [=]. apply Hok. by pose proof (id_ok_plain _ Hid) as ((_ & ? & _) & _ & ?).
Qed.

(** Whatever [Create] comes to, images keep their layers; the only container
    that changes is the one it makes. *)
Lemma Create_cases fuel io w c name w' c' r : store_ok w ->
  Create.Create Root layer_size order is_ip edge_exists driver_name random_id random_name now fuel io w c name = Return (w', c', r) ->
  store_ok w' /\ same_graph (graph w) (graph w') /\ (drawn w <= drawn w')%nat /\
  match r with
  | Err _ => containers (daemon w') = containers (daemon w)
  | Ok (ct, warnings) => exists img,
      Create.LookupImage Root layer_size order w (RunConfig.Image c) = (w, Ok img) /\ CheckDepth Root layer_size fuel (graph w) img = Return (Ok ()) /\
      (mergeAndVerifyConfig is_ip c img).2 = Ok warnings /\
      (let c1 := (mergeAndVerifyConfig is_ip c img).1 in c' = set_Hostname (if String.eqb (Hostname c1) "" then take_str 12 (Names.ID ct) else Hostname c1) c1) /\
      random_id (drawn w) = Some (Names.ID ct) /\ Names.Image ct = Images.ID img /\ containers (daemon w') = <[Names.ID ct := ct]> (containers (daemon w)) /\
      configs w' = <[Names.ID ct := c']> (configs w)
  end.
Proof.
  intros Hok. unfold Create.Create. destruct (LookupImage_ok w (RunConfig.Image c) Hok) as (ri & -> & Himg). cbv iota beta.
  destruct ri as [img|e]; [|by intros [= <- <- <-]]. destruct Himg as [Hin Hst].
  destruct (CheckDepth Root layer_size fuel (graph w) img) as [[[]|e]| |] eqn:Ed; [|by intros [= <- <- <-]|done..]. cbn [mbind outcome_bind].
  destruct (mergeAndVerifyConfig is_ip c img) as [c1 [warn|e]] eqn:Em; [|by intros [= <- <- <-]].
  destruct (newContainer edge_exists driver_name random_id random_name now io w name c1 img) as [[[w1 c2] rc]| |] eqn:En; [|done..]. cbn [mbind outcome_bind].
  destruct (newContainer_cases _ _ _ _ _ _ _ _ En) as (N1 & N2 & N4 & N5 & N6 & Ncf & Nrc). destruct (ok_index w Hok) as [I1 I2].
  assert (drawn w <= drawn w1)%nat as Hle1 by (rewrite N4; lia).
  assert (forall w2, same_graph (graph w) (graph w2) -> names w2 = names w1 -> drawn w2 = drawn w1 -> daemon w2 = daemon w1 -> store_ok w2) as Hsame.
  { intros w2 Hs Hn Hd Hdm. apply (ok_containers_change w); [done|done|by rewrite Hn|rewrite Hd, N4; lia|by rewrite Hdm, N6|by rewrite Hdm, N6, N5|..]; rewrite Hdm, N5; [apply Hok|].
    intros n x Hle Hx. apply (ok_fresh w Hok n x); [rewrite Hd, N4 in Hle; lia|done]. }
  destruct rc as [ct|e].
  2: { intros [= <- <- <-]. assert (same_graph (graph w) (graph w1)) as Hs by by rewrite N1. by split; [apply Hsame|]. }
  destruct Nrc as (Nc & Nid & Nn & Ni & Ns). destruct (ok_fresh w Hok (drawn w) _ (le_n _) Nid) as [Fi Fc]. pose proof (random_id_ok (drawn w) _ Nid) as Hrid.
  destruct (createRootfs io w1 (Names.ID ct) (Images.ID img)) as [w2 e2] eqn:Er.
  destruct (createRootfs_ok io w1 (Names.ID ct) (Images.ID img) w2 e2) as (R1 & R2 & R4 & R5 & R6); [by rewrite N1; apply Hok|done|by rewrite N1| |done|].
  { right. apply id_ok_plain. by apply (index_ok _ _ (good_consistent _ _ (ok_graph w Hok))). }
  rewrite N1 in R1.
  assert (drawn w <= drawn w2)%nat as Hle2 by (by rewrite R4).
  assert (store_ok w2) as Hok2 by (by apply Hsame). assert (containers (daemon w2) = containers (daemon w)) as Hct2 by (by rewrite R5).
  destruct e2 as [e2|]; [by intros [= <- <- <-]|]. destruct (to_disk_err io); [by intros [= <- <- <-]|].
  assert (forall d ct' e3, register edge_exists (random_name (drawn w2)) (now (drawn w2)) false None (daemon w2) ct = Return (d, ct', Some e3) -> d = daemon w2) as Hreg.
  { intros d ct' e3. unfold register. destruct (_ || _); [by intros [= <- _ _]|]. destruct (validateID _); [|by intros [= <- _ _]]. unfold ensureName.
    destruct (String.eqb_spec (Names.Name ct) ""); [done|]. cbn [mbind outcome_bind]. unfold stop_old. cbn [Names.state Names.with_daemon]. by rewrite Ns. }
  destruct (register edge_exists _ _ _ _ (daemon w2) ct) as [[[d ct'] [e3|]]| |] eqn:Eg; [| |done..]; cbn [mbind outcome_bind]; intros [= <- <- <-].
  { rewrite (Hreg _ _ _ eq_refl) in *. assert (Create.with_daemon w2 (daemon w2) = w2) as -> by by destruct w2. by split. }
  destruct (register_ok _ _ _ _ _ _ _ _ _ Eg Nn Ns) as (-> & G2 & G3 & G4 & _). cbn [Names.ID Names.with_daemon].
  rewrite R5, N6 in G4. rewrite Hct2 in G2.
  assert (Names.ID ct ∉ ids (Names.idIndex (daemon w))) as Fx by (by rewrite I2).
  destruct (Add_new _ _ I1 Hrid Fx) as [A1 A2]. rewrite <- G4 in A1, A2. set (w3 := Create.with_configs (Create.with_daemon w2 d) _).
  split; [|split; [done|split; [done|exists img; rewrite Em; cbn [fst snd configs Create.with_configs Create.with_daemon w3]; split_and!; try done]]].
  - apply (ok_containers_change w); cbn; [done|done|by rewrite R2|rewrite R4; lia|done| | |].
    + by rewrite A2, G2, dom_insert_L, I2.
    + intros x y. rewrite G2. intros [[<- <-]|[_ Hx]]%lookup_insert_Some; [|by apply (ok_containers w Hok)]. cbn. rewrite Ni. done.
    + intros n x Hn Hx. rewrite G2, dom_insert_L. apply not_elem_of_union. split; [|apply (ok_fresh w Hok n x); [lia|done]].
      intros ->%elem_of_singleton. pose proof (random_id_new _ _ _ Hx Nid). lia.
  - by rewrite R6, Ncf.
Qed.
(** C27. [Create], with whatever disk and names: images keep their directories
    and layers.  Without an error there is exactly one container more: under
    the identifier that was drawn, of the image that the configuration's
    image denotes and that is not too deep, with the user's configuration
    merged with the image's and the identifier's beginning for a host name
    that is not set.  After an error there is no new container. *)
Theorem Create_spec fuel io w c name w' c' r : store_ok w ->
  Create.Create Root layer_size order is_ip edge_exists driver_name random_id random_name now fuel io w c name = Return (w', c', r) ->
  store_ok w' /\ same_graph (graph w) (graph w') /\ (drawn w <= drawn w')%nat /\
  match r with
  | Err _ => containers (daemon w') = containers (daemon w)
  | Ok (ct, warnings) => exists img,
      Create.LookupImage Root layer_size order w (RunConfig.Image c) = (w, Ok img) /\ CheckDepth Root layer_size fuel (graph w) img = Return (Ok ()) /\
      (mergeAndVerifyConfig is_ip c img).2 = Ok warnings /\
      (let c1 := (mergeAndVerifyConfig is_ip c img).1 in c' = set_Hostname (if String.eqb (Hostname c1) "" then take_str 12 (Names.ID ct) else Hostname c1) c1) /\
      random_id (drawn w) = Some (Names.ID ct) /\ Names.Image ct = Images.ID img /\ containers (daemon w') = <[Names.ID ct := ct]> (containers (daemon w)) /\
      Get_container (daemon w') (Names.ID ct) = Some ct /\ configs w' !! Names.ID ct = Some c'
  end.
Proof.
  intros Hok E. destruct (Create_cases _ _ _ _ _ _ _ _ Hok E) as (Hok' & Hs & Hd & Hr). do 3 (split; [done|]). destruct r as [[ct warnings]|e]; [|done].
  destruct Hr as (img & H1 & H2 & H3 & H4 & H5 & H6 & H7 & H8). exists img. do 7 (split; [done|]). split.
  - apply (Get_container_whole w'); [done|]. rewrite H7. apply lookup_insert_eq.
  - rewrite H8. apply lookup_insert_eq.
Qed.
End Making.

Lemma image_not_container w id c x : store_ok w -> containers (daemon w) !! id = Some c -> x ∈ ids (idIndex (graph w)) ->
  plain_elem x /\ x <> id /\ x <> id +:+ "-init".
Proof.
  intros Hok Hc Hx. destruct (ok_containers w Hok id c Hc) as (_ & Hid & Hni & _). pose proof (index_ok _ _ (good_consistent _ _ (ok_graph w Hok)) x Hx) as Hxo.
  split; [apply id_ok_plain, Hxo|]. split; intros ->; [done|]. by apply (proj2 (init_plain id Hid)).
Qed.

Lemma same_containers_refl (d : Names.Daemon T) : same_containers d d.
Proof. split; [done|]. split; [done|]. intros id c Hc. by exists c. Qed.

Section Committing.
Context {Data : Type} (unpack : L -> Data -> result string L) (export : L -> L -> result string Data).
Context (order : forall V, gmap string V -> list (string * V)) (driver_name : string) (driver_Pause driver_Unpause : string -> option string).
Context (readdir : Graph T D -> list string) (readdir_lists : forall g, good Root g -> lists Root g (readdir g)).
Context (range : gset string -> list string) (range_elements : forall s, range s ≡ₚ elements s).

(** *** Committing *)

Lemma child_after g g' p c img data q i : good Root g -> id_ok (Images.ID img) -> (Images.ID img ∉ ids (idIndex g)) -> Images.ID img = c -> Parent img = p ->
  unchanged_but Root g g' c -> registered Root unpack g g' data img ->
  child Root g' q i <-> child Root g q i \/ (q = p /\ stored Root g' c i /\ Images.ID i = c).
Proof.
  intros Hg Hid Hni <- <- Hu (l0 & l & size & _ & _ & _ & Hst & _ & Hids). unfold child. rewrite Hids.
  assert (forall x, x ∈ ids (idIndex g) -> roots g' !! (Root ++ [x]) = roots g !! (Root ++ [x])) as Hsame.
  { intros x Hx. apply Hu; [|by intros ->]. apply id_ok_plain. by apply (index_ok _ _ (good_consistent _ _ Hg)). }
  split.
  - intros ([Hx%elem_of_singleton|Hx]%elem_of_union & Hs & Hp).
    + right. rewrite Hx in Hs. split; [|done]. unfold stored in *. rewrite Hst in Hs. injection Hs as <-. by symmetry.
    + left. split; [done|]. unfold stored in *. by rewrite <- Hsame.
  - intros [(Hx & Hs & Hp)|(-> & Hs & He)].
    + split; [by apply elem_of_union_r|]. unfold stored in *. by rewrite Hsame.
    + rewrite He. split; [apply elem_of_union_l; by apply elem_of_singleton|]. split; [done|]. unfold stored in *. rewrite Hst in Hs. by injection Hs as <-.
Qed.

(** What is committed of a container. *)
Definition committed w (id : string) (ct : Names.Container) (cc : Config) (comment author : string) (config : Config) : Images.Image :=
  {| Images.ID := id; Parent := Names.Image ct; Comment := comment; Images.Created := now (drawn w); Container := Names.ID ct; ContainerConfig := cc;
     Author := author; Config_ := Some config; Size := 0 |}.

(** The names after an image was given one, if it was. *)
Definition renamed (s s' : TagStore) (repo tag id : string) : Prop :=
  if String.eqb repo "" then s' = s
  else Tags.synced s' /\ Repositories s' = <[repo := <[(if String.eqb tag "" then DEFAULTTAG else tag) := id]> (default ∅ (Repositories s !! repo))]> (Repositories s).

Lemma commit_image_ok io w ct cc repo tag comment author config w' img : store_ok w -> id_ok (Names.ID ct) -> Names.Image ct ∈ ids (idIndex (graph w)) ->
  commit_image Root layer_size unpack export order driver_name random_id now io w ct cc repo tag comment author config = Return (w', Ok img) ->
  exists id, random_id (drawn w) = Some id /\ img = committed w id ct cc comment author config /\ good Root (graph w') /\ (Images.ID img ∉ ids (idIndex (graph w))) /\
  unchanged_but Root (graph w) (graph w') (Images.ID img) /\ (exists data, registered Root unpack (graph w) (graph w') (Some data) img) /\
  renamed (names w) (names w') repo tag id /\ daemon w' = daemon w /\ drawn w' = S (drawn w).
Proof.
  intros Hok Hid Hp. unfold commit_image.
  destruct (_ ← Mount driver_name w (Names.ID ct); ExportRw export driver_name w ct) as [data|e]; [|done]. destruct (random_id (drawn w)) as [id|] eqn:Er; [|done]. cbn [mbind outcome_bind]. unfold Images.Create.
  assert (String.eqb (Names.ID ct) "" = false) as -> by (apply String.eqb_neq; intros He; rewrite He in Hid; by destruct Hid).
  fold (committed w id ct cc comment author config). destruct (Register _ _ _ _ _ _ _ _ _) as [g' [u|e]] eqn:ER; [|done].
  destruct (ok_fresh w Hok (drawn w) id (le_n _) Er) as [Fi _]. pose proof (random_id_ok _ _ Er) as Hrid. pose proof (good_consistent _ _ (ok_graph w Hok)) as Hcons.
  destruct (Register_good Root layer_size unpack root_plain layer_size_nonneg (graph w) io "tmp" None (Some data) (committed w id ct cc comment author config) g' (Ok u) (ok_graph w Hok)) as (G1 & G2 & G3);
    [|done|done|].
  { split; [done|]. split; [rewrite (Exists_spec Root layer_size root_plain _ _ Hcons) by done; by apply bool_decide_eq_false_2|].
    right. pose proof (index_ok _ _ Hcons _ Hp) as Hpo. split; [done|]. cbn [Parent committed]. rewrite (Exists_spec Root layer_size root_plain _ _ Hcons) by done. by apply bool_decide_eq_true_2. }
  unfold renamed. destruct (String.eqb repo "") eqn:Erepo.
  - intros [= <- <-]. exists id. do 5 (split; [done|]). split; [by exists data|]. done.
  - destruct (Tags.Set_ _ _ _ _ _ _) as [s' [[]|e]] eqn:Es; [|done]. intros [= <- <-].
    exists id. do 5 (split; [done|]). split; [by exists data|]. split; [|done]. cbn [names Create.with_names Create.with_graph graph next_id] in Es |- *.
    pose proof G3 as (_ & _ & sz & _ & _ & _ & Hst & _ & Hids). cbn [Images.ID committed] in Hids.
    assert (id ∈ ids (idIndex g')) as Hin by (rewrite Hids; apply elem_of_union_l; by apply elem_of_singleton).
    assert ((Tags.LookupImage (H := graph_store Root layer_size g') order id (names w)).2 = Ok (with_Size (committed w id ct cc comment author config) sz)) as Hl.
    { pose proof (id_ok_plain _ Hrid) as (_ & Hcolon & _). unfold Tags.LookupImage. rewrite ParseRepositoryTag_plain by done. rewrite GetImage_synced by apply Hok.
      destruct (Repositories (names w) !! id) as [r|] eqn:E; [destruct (ok_repos w Hok id); [by apply elem_of_dom_2 in E|done]|].
      cbn [graph_Get graph_store snd]. apply Get_whole; [done|by apply good_consistent|done|done]. }
    by apply (Set_cases (H := graph_store Root layer_size g') order (names w) repo tag id true _ _ _ (ok_names w Hok) Hl) in Es.
Qed.

Lemma commit_store_ok w w' id ct cc repo tag comment author config : store_ok w -> ~ id_ok repo -> Names.Image ct ∈ ids (idIndex (graph w)) -> random_id (drawn w) = Some id ->
  let img := committed w id ct cc comment author config in
  good Root (graph w') -> (exists data, registered Root unpack (graph w) (graph w') (Some data) img) ->
  renamed (names w) (names w') repo tag id -> daemon w' = daemon w -> drawn w' = S (drawn w) -> store_ok w'.
Proof.
  intros Hok Hrepo Hp Hr img Hg [data Hreg] Hn Hd Hdr. pose proof Hreg as (_ & _ & sz & _ & _ & _ & Hst & _ & Hids).
  destruct (ok_fresh w Hok (drawn w) id (le_n _) Hr) as [Fi Fc]. pose proof (random_id_ok _ _ Hr) as Hrid.
  assert (Tags.synced (names w') /\ forall r, r ∈ dom (Repositories (names w')) -> id_ok r -> False) as [Hn1 Hn2].
  { unfold renamed in Hn. destruct (String.eqb repo ""); [rewrite Hn; split; apply Hok|]. destruct Hn as [H1 H2]. split; [done|].
    intros r. rewrite H2, dom_insert_L. intros [->%elem_of_singleton|Hin]%elem_of_union; [done|by apply (ok_repos w Hok)]. }
  split; [done|done|done|rewrite Hd; apply Hok|..].
  - intros x y. rewrite Hd, Hids. intros Hx. destruct (ok_containers w Hok x y Hx) as (H1 & H2 & H3 & H4). split; [done|]. split; [done|].
    split; [|by apply elem_of_union_r]. apply not_elem_of_union. split; [|done]. intros ->%elem_of_singleton. apply Fc. by apply elem_of_dom_2 in Hx.
  - intros n x. rewrite Hdr, Hd, Hids. intros Hle Hx. destruct (ok_fresh w Hok n x ltac:(lia) Hx) as [H1 H2]. split; [|done].
    apply not_elem_of_union. split; [|done]. intros ->%elem_of_singleton. pose proof (random_id_new _ _ _ Hx Hr). lia.
Qed.

(** After a commit there is one image more. *)
Lemma Commit_cases io w ct cc repo tag comment author pause c w' img : store_ok w -> ~ id_ok repo -> containers (daemon w) !! Names.ID ct = Some ct ->
  Commit Root layer_size unpack export order driver_name random_id now driver_Pause driver_Unpause io w ct cc repo tag comment author pause c = Return (w', Ok img) ->
  store_ok w' /\ id_ok (Images.ID img) /\ (Images.ID img ∉ ids (idIndex (graph w))) /\ ids (idIndex (graph w')) = {[Images.ID img]} ∪ ids (idIndex (graph w)) /\
  (forall x, x ∈ ids (idIndex (graph w)) -> roots (graph w') !! (Root ++ [x]) = roots (graph w) !! (Root ++ [x])) /\
  renamed (names w) (names w') repo tag (Images.ID img) /\ drawn w' = S (drawn w) /\
  exists i, stored Root (graph w') (Images.ID img) i /\ Images.ID i = Images.ID img /\ Parent i = Names.Image ct /\ Images.Created i = now (drawn w) /\ ContainerConfig i = cc /\ Config_ i = Some c /\
    Comment i = comment /\ forall q j, child Root (graph w') q j <-> child Root (graph w) q j \/ (q = Names.Image ct /\ j = i).
Proof.
  intros Hok Hrepo Hc. destruct (ok_containers w Hok _ _ Hc) as (_ & Hid & _ & Himg). unfold Commit. cbv zeta.
  set (w1 := if pause then _ else w).
  assert (store_ok w1 /\ graph w1 = graph w /\ drawn w1 = drawn w /\ names w1 = names w) as (Hok1 & Eg & Ed & En).
  { destruct pause; [|done]. split; [|done]. apply (ok_same_containers w); [done|done|done|apply le_n|apply (Pause_same driver_Pause)]. }
  rewrite <- Eg in Himg. destruct (commit_image _ _ _ _ _ _ _ _ _ w1 ct cc repo tag comment author c) as [[w2 [img'|e]]| |] eqn:Ec; [|done..]. cbn [mbind outcome_bind].
  destruct (commit_image_ok _ w1 ct cc repo tag comment author c w2 img' Hok1 Hid Himg Ec) as (rid & Hrid & Himg' & Hg2 & Hni & Hu & Hreg & Hn2 & Hd2 & Hdr).
  assert (store_ok w2) as Hok2 by (rewrite Himg' in Hreg; by apply (commit_store_ok w1 w2 rid ct cc repo tag comment author c)).
  assert (rid = Images.ID img') as Erid by (by rewrite Himg'). rewrite Erid in Hn2.
  intros [= <- <-]. unfold committed in Himg'. rewrite Eg, Ed, En in *. clear Hok1 Ec.
  assert (id_ok (Images.ID img')) as Hnok by (rewrite <- Erid; by apply (random_id_ok (drawn w))).
  set (w3 := if pause then _ else w2). assert (graph w3 = graph w2 /\ names w3 = names w2 /\ drawn w3 = drawn w2) as (-> & -> & ->) by (unfold w3; by destruct pause).
  split. { unfold w3. destruct pause; [|done]. apply (ok_same_containers w2); [done|done|done|apply le_n|apply (Pause_same driver_Unpause)]. }
  destruct Hreg as [data Hreg]. pose proof Hreg as (_ & _ & sz & _ & _ & _ & Hst & _ & Hids).
  split; [done|]. split; [done|]. split; [done|]. split.
  { intros x Hx. apply Hu; [|by intros ->]. apply id_ok_plain. by apply (index_ok _ _ (good_consistent _ _ (ok_graph w Hok))). }
  split; [done|]. split; [done|]. assert (Parent img' = Names.Image ct) as Hpar by (by rewrite Himg').
  exists (with_Size img' sz). split; [done|]. split; [done|]. split; [done|]. do 4 (split; [by rewrite Himg'|]).
  intros q j. rewrite (child_after (graph w) (graph w2) (Names.Image ct) (Images.ID img') img' (Some data) q j (ok_graph w Hok) Hnok Hni eq_refl Hpar Hu Hreg).
  unfold stored in *. split; (intros [?|[-> Hj]]; [by left|right; split; [done|]]); [destruct Hj as [Hj _]; congruence|by subst j].
Qed.

Lemma Commit_timely w w' p i : (forall m n, (m < n)%nat -> now m < now n) -> timely w -> drawn w' = S (drawn w) -> Images.Created i = now (drawn w) ->
  (forall q j, child Root (graph w') q j <-> child Root (graph w) q j \/ (q = p /\ j = i)) -> timely w'.
Proof.
  intros Hnow Ht Hd Hc Hch q j n [Hj|[_ ->]]%Hch Hn; [apply (Ht q j); [done|lia]|]. rewrite Hc. apply Hnow. lia.
Qed.

(** What is found after a commit: an image that compares equal and is not
    older, and the new one when the others are older. *)
Lemma Commit_cached w w' p cc i k : store_ok w' -> Images.Created i = now (drawn w) -> ContainerConfig i = cc ->
  (forall q j, child Root (graph w') q j <-> child Root (graph w) q j \/ (q = p /\ j = i)) -> Compare (Some cc) (Some k) = true ->
  exists r, ImageGetCached Root layer_size (graph w') (readdir (graph w')) range p k = Ok (Some r) /\
    Parent r = p /\ Compare (Some (ContainerConfig r)) (Some k) = true /\ now (drawn w) <= Images.Created r /\
    ((forall j, child Root (graph w) p j -> Compare (Some (ContainerConfig j)) (Some k) = true -> Images.Created j < now (drawn w)) -> r = i).
Proof.
  intros Hok' Hcr Hcc Hch Hk.
  destruct (ImageGetCached_latest Root layer_size root_plain range range_elements (graph w') (readdir (graph w')) p k (ok_graph w' Hok') (readdir_lists _ (ok_graph w' Hok'))) as (r & -> & Hr).
  assert (child Root (graph w') p i) as Hi by (apply Hch; by right). rewrite <- Hcc in Hk.
  destruct r as [r|]; unfold latest in Hr; [|rewrite (Hr i Hi) in Hk; discriminate Hk]. destruct Hr as (H1 & H2 & H3). pose proof H1 as (_ & _ & Hp).
  exists r. split; [done|]. split; [done|]. split; [done|]. rewrite <- Hcr. split; [by apply H3|]. intros Hold.
  apply Hch in H1 as [Hj|[_ ->]]; [|done]. pose proof (Hold r Hj H2). pose proof (H3 i Hi Hk). lia.
Qed.

(** C28. [Commit] of a container, under any name that has not the form of an
    identifier: there is exactly one image more, found by its identifier,
    over the container's image, with both configurations; the others keep their directories, and the name, if
    one is given, is the new image's.  Right after it [ImageGetCached] finds,
    for the container's image and every configuration that compares equal to
    the container's, an image that was made of it with an equal configuration
    and is not older, and this one when the others made so are older - at
    equal times it may be another. *)
Theorem Commit_found io w ct cc repo tag comment author pause c w' img : store_ok w -> ~ id_ok repo -> containers (daemon w) !! Names.ID ct = Some ct ->
  Commit Root layer_size unpack export order driver_name random_id now driver_Pause driver_Unpause io w ct cc repo tag comment author pause c = Return (w', Ok img) ->
  store_ok w' /\ (Images.ID img ∉ ids (idIndex (graph w))) /\ ids (idIndex (graph w')) = {[Images.ID img]} ∪ ids (idIndex (graph w)) /\
  (forall x, x ∈ ids (idIndex (graph w)) -> roots (graph w') !! (Root ++ [x]) = roots (graph w) !! (Root ++ [x])) /\
  renamed (names w) (names w') repo tag (Images.ID img) /\
  exists i, Images.Get Root layer_size (graph w') (Images.ID img) = Ok i /\ Parent i = Names.Image ct /\ Config_ i = Some c /\ ContainerConfig i = cc /\
    Images.Created i = now (drawn w) /\ Comment i = comment /\
    forall k, Compare (Some cc) (Some k) = true ->
      exists r, ImageGetCached Root layer_size (graph w') (readdir (graph w')) range (Names.Image ct) k = Ok (Some r) /\
        Parent r = Names.Image ct /\ Compare (Some (ContainerConfig r)) (Some k) = true /\ now (drawn w) <= Images.Created r /\
        ((forall j, child Root (graph w) (Names.Image ct) j -> Compare (Some (ContainerConfig j)) (Some k) = true -> Images.Created j < now (drawn w)) -> r = i).
Proof.
  intros Hok Hrepo Hc E. destruct (Commit_cases _ _ _ _ _ _ _ _ _ _ _ _ Hok Hrepo Hc E) as (Hok' & Hnok & Hni & Hids & Hroots & Hren & _ & i & Hst & Hii & Hpi & Hcr & Hcc & Hcf & Hcm & Hch).
  do 5 (split; [done|]). exists i. split; [|do 5 (split; [done|])].
  - apply Get_whole; [done|apply good_consistent, Hok'| |done]. rewrite Hids. apply elem_of_union_l. by apply elem_of_singleton.
  - intros k Hk. by apply (Commit_cached w w' _ cc).
Qed.
End Committing.
End Stores.
