(* ===== verification/BuildStore.v ===== *)
(** * The builder on the daemon's stores

    The daemon of Create.v is one the builder of Builder.v can build on: the
    instance [store_daemon] of [BuildDaemon], and the proof of [BuildLaws] for
    it.  What a process does in a container's files, and what is added to
    them, are functions on layers; pulling an image is an argument. *)

From stdpp Require Import base gmap sets list strings.
From Stdlib Require Import ZArith Lia Ascii.
From S2P Require Import Prelude GoStrings GoPath Parsers RunConfig State Names Tags Images Builder Builds Rebuild Create Cached Stores.

Local Open Scope Z_scope.

Section Store.
Context {T D L : Type} {HT : Trie T} {HD : GraphDriver D L}.
Context (Root : list string) (layer_size : L -> option L -> Z) {Data : Type} (unpack : L -> Data -> result string L) (export : L -> L -> result string Data).
Context (order : forall V, gmap string V -> list (string * V)) (is_ip : string -> bool) (edge_exists driver_name : string).
Context (random_id : nat -> option string) (random_name : nat -> nat -> string) (now : nat -> Z).
Context (readdir : Graph T D -> list string) (range : gset string -> list string).
(** What the disk and the drivers do, at each identifier that is drawn. *)
Context (create_io : nat -> Create_io L) (commit_io : nat -> Disk_io) (driver_Pause driver_Unpause : string -> option string)
  (stop : Names.Container -> Chans -> Names.Container * Chans * option string) (remove_all : string -> option string).
Context (exec : string -> list string -> L -> L * result string (string * Z)) (add_files : string -> string -> bool -> L -> result string L)
  (pull : Store T D -> string -> string -> Store T D * result string ()).
Implicit Types (w : Store T D) (g : Graph T D).

Definition store_create w (c : Config) : Store T D * Config * result string (string * list string) :=
  match Create.Create Root layer_size order is_ip edge_exists driver_name random_id random_name now (walk_fuel (graph w)) (create_io (drawn w)) w c "" with
  | Return (w, c, Ok (container, warnings)) => (w, c, Ok (Names.ID container, warnings))
  | Return (w, c, Err e) => (w, c, Err e)
  | _ => (w, c, Err "panic")
  end.

Definition write_layer w (id : string) (l : L) : Store T D := Create.with_graph w (Images.with_driver (graph w) (Driver_Write (driver (graph w)) id l)).

Definition store_run w (id : string) (cmd : list string) : Store T D * result string (string * Z) :=
  match containers (daemon w) !! id, Mount driver_name w id with
  | None, _ => (w, Err "no such container")
  | _, Err e => (w, Err e)
  | Some _, Ok l => let '(l, r) := exec id cmd l in (write_layer w id l, r)
  end.

Definition store_add w (id origPath dest : string) (decompress : bool) : Store T D * result string () :=
  match containers (daemon w) !! id, Mount driver_name w id with
  | None, _ => (w, Err "no such container")
  | _, Err e => (w, Err e)
  | Some _, Ok l => match add_files origPath dest decompress l with Err e => (w, Err e) | Ok l => (write_layer w id l, Ok ()) end
  end.

Definition store_commit w (id : string) (containerConfig : Config) (author : string) (config : Config) : Store T D * result string string :=
  match Get_container (daemon w) id with
  | None => (w, Err "no such container")
  | Some c =>
      match Commit Root layer_size unpack export order driver_name random_id now driver_Pause driver_Unpause (commit_io (drawn w)) w c containerConfig "" "" "" author true config with
      | Return (w, r) => (w, Images.ID <$> r)
      | _ => (w, Err "panic")
      end
  end.

(** [Destroy] of what [Get] finds: the container's layers go with it. *)
Definition store_destroy w (id : string) : Store T D * result string () :=
  match Get_container (daemon w) id with
  | None => (w, Err "The given container is <nil>")
  | Some c =>
      let '(d, e) := Destroy stop (fun _ => None) remove_all (daemon w) c in
      let w' := Create.with_daemon w d in
      let removed := bool_decide (is_Some (containers (daemon w) !! Names.ID c)) && bool_decide (containers d !! Names.ID c = None) in
      (if removed then Create.with_graph w' (Images.with_driver (graph w) (Driver_Remove (Driver_Remove (driver (graph w)) (Names.ID c)) (Names.ID c +:+ "-init"))) else w',
       match e with Some e => Err e | None => Ok () end)
  end.

#[export] Instance store_daemon : BuildDaemon (Store T D) := {
  bd_lookup := fun w name => let '(w, r) := Create.LookupImage Root layer_size order w name in (w, (fun i => (Images.ID i, Config_ i)) <$> r);
  bd_not_exist := fun e => IsNotExist (Some e);
  bd_pull := pull;
  bd_cached := fun w p c => (fun o : option Images.Image => Images.ID <$> o) <$> ImageGetCached Root layer_size (graph w) (readdir (graph w)) range p c;
  bd_create := store_create;
  bd_mount := fun w id => (fun _ => ()) <$> Mount driver_name w id;
  bd_run := store_run;
  bd_add := store_add;
  bd_get := fun w id => bool_decide (is_Some (Get_container (daemon w) id));
  bd_commit := store_commit;
  bd_destroy := store_destroy }.

(** The job: [build] is the building of its context, [t] the name asked for;
    an error of naming the image is not reported. *)
Definition CmdBuild (args : list string) (t : string) (build : outcome (buildFile * Store T D * result string string)) : outcome (option (Store T D) * result string ()) :=
  if bool_decide (args <> []) then Return (None, Err ("Usage: build" +:+ String newline ""))
  else
    let '(repoName, tag) := ParseRepositoryTag t in
    '(_, w, r) ← build;
    match r with
    | Err e => Return (Some w, Err e)
    | Ok id =>
        let w := if String.eqb repoName "" then w
                 else Create.with_names w (fst (Tags.Set_ (H := graph_store Root layer_size (graph w)) order repoName tag id false (names w))) in
        Return (Some w, Ok ())
    end.

(** ** The laws *)

Definition store_img_config w (x : string) : option Config :=
  if bool_decide (x ∈ ids (idIndex (graph w))) then
    match roots (graph w) !! (Root ++ [x]) with Some (Ok i) => Some (default empty_config (Config_ i)) | _ => None end
  else None.

Definition store_cont_image w (id : string) : option string := Names.Image <$> Get_container (daemon w) id.
#[local] Abbreviation store_ok := (store_ok Root random_id).

(** The stores while time goes on. *)
Record stores_ok w : Prop := { sound : store_ok w; on_time : timely Root now w }.
Context (root_plain : plain Root) (layer_size_nonneg : forall l p, 0 <= layer_size l p).
Context (random_id_ok : forall n x, random_id n = Some x -> id_ok x) (random_id_new : forall m n x, random_id m = Some x -> random_id n = Some x -> m = n).
Context (readdir_lists : forall g, good Root g -> lists Root g (readdir g)) (range_elements : forall s, range s ≡ₚ elements s).
Context (stop_keeps : forall c cs, exists s, (stop c cs).1.1 = Names.with_state c s).
Context (pull_ok : forall w remote tag w' r, stores_ok w -> pull w remote tag = (w', r) -> stores_ok w').
Context (now_later : forall m n, (m < n)%nat -> now m < now n).

(** *** Images *)

Lemma img_config_stored w x i : x ∈ ids (idIndex (graph w)) -> stored Root (graph w) x i -> store_img_config w x = Some (default empty_config (Config_ i)).
Proof. intros Hx Hi. unfold store_img_config. rewrite bool_decide_true by done. by rewrite Hi. Qed.

Lemma img_config_some w x c : good Root (graph w) -> store_img_config w x = Some c ->
  exists i, x ∈ ids (idIndex (graph w)) /\ stored Root (graph w) x i /\ Images.ID i = x /\ c = default empty_config (Config_ i).
Proof.
  intros Hg. unfold store_img_config. case_bool_decide as Hx; [|done]. destruct (index_stored _ _ (good_consistent _ _ Hg) x Hx) as (i & Hi & He & _).
  rewrite Hi. intros [= <-]. by exists i.
Qed.

Definition same_found w w' : Prop := (forall x, store_img_config w' x = store_img_config w x) /\ forall p c, bd_cached w' p c = bd_cached w p c.

Lemma same_graph_found w w' : good Root (graph w) -> same_graph (graph w) (graph w') -> same_found w w'.
Proof.
  intros Hg Hs. pose proof (same_graph_good Root _ _ Hs Hg) as Hg'. split.
  - intros x. unfold store_img_config. destruct Hs as (Hi & Hr & _). by rewrite Hi, Hr.
  - intros p c. cbn [bd_cached store_daemon]. f_equal. apply ImageGetCached_same; auto. intros i. symmetry. by apply same_graph_child.
Qed.

Lemma store_lookup_law w name w' id c : stores_ok w -> bd_lookup w name = (w', Ok (id, c)) -> stores_ok w' /\ id <> "" /\ store_img_config w' id = Some (default empty_config c).
Proof.
  intros Hok. cbn [bd_lookup store_daemon]. destruct (LookupImage_ok Root layer_size random_id root_plain order w name (sound w Hok)) as (r & -> & Hr). destruct r as [i|]; [|done]. intros [= <- <- <-]. destruct Hr as [Hin Hs].
  split; [done|]. split.
  - intros He. pose proof (index_ok _ _ (good_consistent _ _ (ok_graph Root random_id w (sound w Hok))) _ Hin) as Hid. rewrite He in Hid. by destruct Hid.
  - by apply img_config_stored.
Qed.

Lemma store_lookup_err w name w' e : stores_ok w -> bd_lookup w name = (w', Err e) -> stores_ok w'.
Proof. intros Hok. cbn [bd_lookup store_daemon]. destruct (LookupImage_ok Root layer_size random_id root_plain order w name (sound w Hok)) as (r & -> & _). by intros [= <- _]. Qed.

Lemma merge_config w c img ic : store_img_config w (RunConfig.Image c) = Some ic -> ic = default empty_config (Config_ img) -> covered c ic -> Cmd c <> [] ->
  canon (mergeAndVerifyConfig is_ip c img).1 = canon c.
Proof.
  intros Hi He Hc Hne. unfold mergeAndVerifyConfig. destruct (Config_ img) as [i|]; [|done]. cbn in He. subst ic.
  destruct (Merge_covered is_ip c i Hc Hne) as (u & i' & -> & Hu). exact Hu.
Qed.

Lemma store_create_law w c ic w' c' id ws : stores_ok w -> store_img_config w (RunConfig.Image c) = Some ic -> covered c ic -> Cmd c <> [] ->
  bd_create w c = (w', c', Ok (id, ws)) ->
  stores_ok w' /\ same_found w w' /\ canon c' = canon c /\ id <> "" /\ store_cont_image w' id = Some (RunConfig.Image c).
Proof.
  intros [Hok Ht] Hi Hcov Hne. destruct (img_config_some w _ _ (ok_graph Root random_id w Hok) Hi) as (img & Hin & Hst & Hid & Hic).
  cbn [bd_create store_daemon]. unfold store_create. destruct (Create.Create _ _ _ _ _ _ _ _ _ _ _ w c "") as [[[w1 c1] [[ct warnings]|e]]| |] eqn:E; [|done..]. intros [= <- <- <- <-].
  destruct (Create_cases Root layer_size random_id now root_plain random_id_ok random_id_new _ _ _ _ _ _ _ _ _ _ _ _ _ Hok E) as (Hok1 & Hs & Hd & img' & Hlook & _ & _ & Hc1 & Hrid & Himg & Hcs & _).
  rewrite (LookupImage_whole Root layer_size random_id root_plain order w _ img Hok Hin Hst) in Hlook. injection Hlook as <-. cbv zeta in Hc1.
  split; [split; [done|by apply (same_graph_timely Root now w)]|]. split; [by apply same_graph_found; [apply Hok|]|]. split; [rewrite Hc1; by apply (merge_config w c img ic)|].
  split; [intros He; pose proof (random_id_ok _ _ Hrid) as Hx; rewrite He in Hx; by destruct Hx|].
  unfold store_cont_image. rewrite (Get_container_whole Root random_id w1 _ ct) by (try done; rewrite Hcs; apply lookup_insert_eq). cbn. by rewrite Himg, Hid.
Qed.

(** *** Running and removing containers *)

Lemma store_run_law w id cmd w' r : stores_ok w -> bd_run w id cmd = (w', Ok r) ->
  stores_ok w' /\ same_found w w' /\ store_cont_image w' id = store_cont_image w id.
Proof.
  intros [Hok Ht]. cbn [bd_run store_daemon]. unfold store_run. destruct (containers (daemon w) !! id) as [c|] eqn:Hc; [|done].
  destruct (Mount driver_name w id) as [l|]; [|done]. destruct (exec id cmd l) as [l' r'] eqn:El. intros [= <- ->].
  assert (same_graph (graph w) (graph (write_layer w id l'))) as Hs.
  { apply (same_graph_driver (graph w)). intros x Hx. destruct (image_not_container Root random_id w id c x Hok Hc Hx) as (H1 & H2 & _).
    destruct (ok_containers Root random_id w Hok id c Hc) as (_ & Hid & _). rewrite Driver_Write_spec, decide_False; [done|done|apply id_ok_plain, Hid|done]. }
  assert (store_ok (write_layer w id l')) as Hok' by (apply (ok_same_containers Root random_id w); [done|done|done|apply le_n|apply same_containers_refl]).
  split; [split; [done|by apply (same_graph_timely Root now w)]|]. split; [by apply same_graph_found; [apply Hok|]|done].
Qed.

(** Removing a container: it is gone, or it did not stop. *)
Lemma Destroy_cases (d d' : Names.Daemon T) c e : containers d !! Names.ID c = Some c -> Destroy stop (fun _ => None) remove_all d c = (d', e) ->
  (same_containers d d' /\ is_Some (containers d' !! Names.ID c)) \/
  (containers d' = delete (Names.ID c) (containers d) /\ Names.idIndex d' = (Delete_id (Names.ID c) (Names.idIndex d)).1).
Proof.
  intros Hc. unfold Destroy. rewrite Hc. destruct (stop_keeps c (chans d)) as [s Hs]. destruct (stop c (chans d)) as [[c' cs] err]. cbn [fst] in Hs. subst c'.
  destruct err as [err|].
  - intros [= <- _]. left. split; [by apply same_containers_state|]. cbn. rewrite lookup_insert_eq. by eexists.
  - intros E. right. destruct (remove_all (Names.ID c)); injection E as <- _; cbn; by rewrite delete_insert_eq.
Qed.

Lemma store_destroy_law w id w' r : stores_ok w -> bd_destroy w id = (w', r) -> stores_ok w' /\ same_found w w'.
Proof.
  intros [Hok Ht]. cbn [bd_destroy store_daemon]. unfold store_destroy. destruct (Get_container (daemon w) id) as [c|] eqn:Hg.
  2: { intros [= <- _]. split; [done|]. by apply same_graph_found; [apply Hok|]. }
  pose proof (Get_container_some Root random_id w id c Hok Hg) as Hc. destruct (ok_containers Root random_id w Hok _ _ Hc) as (_ & Hid & Hni & _). set (x := Names.ID c) in *.
  destruct (Destroy stop (fun _ => None) remove_all (daemon w) c) as [d e] eqn:Ed. rewrite (bool_decide_true (is_Some _)) by done. cbn [andb].
  destruct (Destroy_cases (daemon w) d c e Hc Ed) as [[Hs [y Hy]]|[Hd Hi]]; [fold x in Hy|fold x in Hd, Hi].
  - rewrite Hy, (bool_decide_false (Some _ = None)) by done. intros [= <- _].
    match goal with |- stores_ok ?w1 /\ _ => assert (store_ok w1) as Hok1 by (apply (ok_same_containers Root random_id w); [done|done|done|apply le_n|done]) end.
    split; [split; [done|by apply (same_graph_timely Root now w)]|]. by apply same_graph_found; [apply Hok|].
  - rewrite Hd, lookup_delete_eq, (bool_decide_true (None = None)) by done. intros [= <- _].
    set (dr := Driver_Remove _ _). assert (same_graph (graph w) (Images.with_driver (graph w) dr)) as Hsg.
    { apply same_graph_driver. intros z Hz. destruct (image_not_container Root random_id w x c z Hok Hc Hz) as (H1 & H2 & H3). unfold dr.
      pose proof (proj1 (id_ok_plain _ Hid)) as Hp1. pose proof (proj1 (init_plain _ Hid)) as Hp2. rewrite !Driver_Remove_spec, !decide_False by done. done. }
    destruct (ok_index Root random_id w Hok) as [I1 I2]. destruct (Delete_id_spec x (Names.idIndex (daemon w)) I1) as (D1 & _ & D3).
    split; [split; [|by apply (same_graph_timely Root now w)]|by apply same_graph_found; [apply Hok|]].
    apply (ok_containers_change Root random_id w); cbn; [done|done|done|apply le_n|by rewrite Hi|..].
    + by rewrite Hi, D3, Hd, dom_delete_L, I2.
    + intros k y. rewrite Hd. intros [_ Hk]%lookup_delete_Some. by apply (ok_containers Root random_id w Hok).
    + intros n y Hn Hy. rewrite Hd, dom_delete_L. intros [Hx _]%elem_of_difference. by apply (ok_fresh Root random_id w Hok n y Hn Hy).
Qed.

Lemma store_commit_law w id p cc m c w' n : stores_ok w -> store_cont_image w id = Some p -> bd_commit w id cc m c = (w', Ok n) ->
  stores_ok w' /\ n <> "" /\ store_img_config w n = None /\ (forall x, store_img_config w' x = if decide (x = n) then Some c else store_img_config w x) /\
  (forall k, Compare (Some cc) (Some k) = true -> bd_cached w' p k = Ok (Some n)) /\ forall q k, q <> p -> bd_cached w' q k = bd_cached w q k.
Proof.
  intros [Hok Ht] Hp. unfold store_cont_image in Hp. cbn [bd_commit store_daemon]. unfold store_commit.
  destruct (Get_container (daemon w) id) as [ct|] eqn:Hg; [|done]. injection Hp as Hp. pose proof (Get_container_some Root random_id w id ct Hok Hg) as Hc.
  destruct (Commit _ _ _ _ _ _ _ _ _ _ _ w ct cc "" "" "" m true c) as [[w2 [img|e]]| |] eqn:Ec; [|done..]. intros [= <- <-].
  destruct (Commit_cases Root layer_size random_id now root_plain layer_size_nonneg random_id_ok random_id_new _ _ _ _ _ _ _ w ct cc "" "" "" m true c w2 img Hok ltac:(by intros [? ?]) Hc Ec) as (Hok2 & Hnok & Hni & Hids & Hroots & _ & Hdr & i & Hst & Hii & Hpi & Hcr & Hcc & Hcf & _ & Hch). rewrite Hp in Hpi, Hch.
  split; [split; [done|by apply (Commit_timely Root now w w2 p i)]|]. split; [intros He; rewrite He in Hnok; by destruct Hnok|]. split; [unfold store_img_config; by rewrite bool_decide_false|]. split; [|split].
  - intros x. unfold store_img_config. rewrite Hids. case_decide as Hx.
    + subst x. rewrite bool_decide_true by (apply elem_of_union_l; by apply elem_of_singleton). unfold stored in Hst. by rewrite Hst, Hcf.
    + case_bool_decide as Hin.
      * apply elem_of_union in Hin as [Hin%elem_of_singleton|Hin]; [done|]. by rewrite bool_decide_true, Hroots.
      * rewrite bool_decide_false; [done|]. intros Hin'. apply Hin. by apply elem_of_union_r.
  - intros k Hk. cbn [bd_cached store_daemon]. 
    destruct (Commit_cached Root layer_size random_id now root_plain readdir readdir_lists range range_elements w w2 p cc i k) as (r & -> & _ & _ & _ & Hr); [done..|].
    cbn. rewrite Hr; [by rewrite Hii|]. intros j Hj _. by apply (Ht p j).
  - intros q k Hq. cbn [bd_cached store_daemon]. f_equal.
    apply (ImageGetCached_same Root layer_size root_plain range range_elements); [apply Hok|apply readdir_lists, Hok|apply Hok2|apply readdir_lists, Hok2|].
    intros j. rewrite Hch. split; [by left|]. by intros [?|[? _]].
Qed.

(** The stores satisfy what the builder needs of the daemon. *)
#[export] Instance store_laws : BuildLaws (Store T D) := {
  bd_ok := stores_ok;
  img_config := store_img_config;
  cont_image := store_cont_image;
  lookup_law := store_lookup_law;
  lookup_ok := store_lookup_err;
  pull_law := pull_ok;
  create_law := store_create_law;
  run_law := store_run_law;
  destroy_law := store_destroy_law;
  commit_law := store_commit_law }.
End Store.

(** ** A Dockerfile built twice *)

Module Example.
Import Images.Demo.
Abbreviation Graph' := (Graph (list string) (gmap string (list string))).
Abbreviation World := (Store (list string) (gmap string (list string))).

Definition id_okb (x : string) : bool := forall_str is_hex x && (String.length x =? 64)%nat.

(** The files of the root that are images. *)
Definition readdir (g : Graph') : list string :=
  List.filter id_okb (omap (fun p => match p with [r; x] => if String.eqb r "graph" then Some x else None | _ => None end) (elements (dom (roots g)))).

Lemma readdir_ok (g : Graph') : lists Demo.Root g (readdir g).
Proof.
  assert (forall x, x ∈ readdir g <-> id_ok x /\ is_Some (roots g !! ["graph"; x])) as H.
  { intros x. unfold readdir. rewrite list_elem_of_In, List.filter_In, <- list_elem_of_In, list_elem_of_omap. setoid_rewrite elem_of_elements. setoid_rewrite elem_of_dom.
    unfold id_okb, id_ok. rewrite andb_true_iff, Nat.eqb_eq. split.
    - intros [(p & Hp & Hx) Hok]. split; [done|]. destruct p as [|r [|y [|? ?]]]; try done. destruct (String.eqb_spec r "graph") as [->|]; [|done]. by injection Hx as ->.
    - intros [Hok Hx]. split; [|done]. by exists ["graph"; x]. }
  split; [intros id Hid; rewrite H; split; [by intros [_ ?]|done]|]. intros n [Hn _]%H. by left.
Qed.

Definition letters : list string := digits <$> ["c"; "d"; "e"; "f"; "0"; "1"].
Definition random_id (n : nat) : option string := letters !! n.
Definition random_name (n i : nat) : string := "name_" +:+ itoa (Z.of_nat n).
(** Time goes on, after the images that are there. *)
Definition now (n : nat) : Z := Z.of_nat n + 1.
Definition export (l init : list string) : result string string := Ok (join "," l).
Definition order V (m : gmap string V) : list (string * V) := map_to_list m.
Definition io (n : nat) : Create_io (list string) := {| labels_err := None; mkdir_err := None; SetupInitLayer := fun l => Ok l; to_disk_err := None |}.
Definition exec (id : string) (cmd : list string) (l : list string) : list string * result string (string * Z) := (join " " cmd :: l, Ok ("", 0)).
Definition add_files (orig dest : string) (decompress : bool) (l : list string) : result string (list string) := Ok (dest :: l).
Definition pull (w : World) (remote tag : string) : World * result string () := (w, Err "no registry").
Definition stop (c : Names.Container) (cs : Chans) : Names.Container * Chans * option string := (c, cs, None).
Definition never (_ : string) : option string := None.

#[global] Instance daemon_here : BuildDaemon World :=
  store_daemon Demo.Root size unpack export order (fun _ => false) "constraint failed" "vfs" random_id random_name now readdir elements io (fun _ => disk_ok) never never stop never
    exec add_files pull.

Definition W0 : World :=
  {| graph := G2;
     names := let r := {["base" := {["latest" := digits "a"]}]} in
       {| Repositories := r; disk := {| file := Some r; read_err := None; write_err := None |}; pullingPool := ∅; pushingPool := ∅; next_chan := 0; closed_chans := ∅ |};
     daemon := {| containers := ∅; Names.idIndex := NewTruncIndex []; containerGraph := {| GraphDB.entity := {["0"]}; GraphDB.edge := ∅; GraphDB.root_edges := [("0", "/")] |};
                  chans := {| closed := ∅; next := 0 |} |};
     configs := ∅; drawn := 0 |}.

Definition dockerfile : string := join (String newline "") ["FROM base"; "ENV A 1"; "EXPOSE 80"; "RUN make $A"].
(** A map is printed forwards or backwards, after what was printed before. *)
Definition print_order (b : buildFile) (w : World) (ports : PortSet) : list string :=
  (if Nat.even (length (Builder.out b) + drawn w) then id else reverse) (map_to_list ports).*1.

Lemma print_order_perm b w ports : print_order b w ports ≡ₚ (map_to_list ports).*1.
Proof. unfold print_order. destruct (Nat.even _); [done|apply reverse_Permutation]. Qed.

Definition build (cache : bool) (w : World) :=
  Build (fun _ => false) (fun _ => "") print_order elements {| verbose := false; utilizeCache := cache; rm := true; forceRm := true |} "/ctx" None (fun _ => Err "") (Some dockerfile) NewBuildFile w.

Lemma random_id_ok n x : random_id n = Some x -> id_ok x.
Proof. intros H%list_elem_of_lookup_2. assert (Forall id_ok letters) as Hl by (repeat constructor). by apply (proj1 (Forall_forall _ _) Hl). Qed.

Lemma random_id_new m n x : random_id m = Some x -> random_id n = Some x -> m = n.
Proof.
  intros Hm Hn. assert (NoDup letters) as Hl; [|by apply (NoDup_lookup letters m n x)].
  apply (bool_decide_eq_true_1 (NoDup letters)). vm_compute. reflexivity.
Qed.

Lemma W0_ok : store_ok Demo.Root random_id W0.
Proof.
  assert (ids (idIndex G2) = {[digits "a"; digits "b"]}) as Hids by (apply (bool_decide_eq_true_1 (ids (idIndex G2) = {[digits "a"; digits "b"]})); vm_compute; reflexivity).
  split; cbn [graph names daemon drawn W0].
  - apply (reachable_good Demo.Root size unpack root_plain size_nonneg), G2_reachable.
  - done.
  - intros r. cbn [Repositories]. rewrite dom_singleton_L. intros ->%elem_of_singleton [_ H]. discriminate H.
  - split; [split; [apply trie_new_keys|apply not_elem_of_empty]|]. cbn [containers Names.idIndex]. by rewrite dom_empty_L.
  - intros id c. cbn [containers]. by rewrite lookup_empty.
  - intros n x _ Hx%list_elem_of_lookup_2. rewrite Hids. split; [|cbn [containers]; rewrite dom_empty_L; apply not_elem_of_empty].
    assert (digits "a" ∉ letters) as Ha by (apply (bool_decide_eq_true_1 (digits "a" ∉ letters)); vm_compute; reflexivity).
    assert (digits "b" ∉ letters) as Hb by (apply (bool_decide_eq_true_1 (digits "b" ∉ letters)); vm_compute; reflexivity).
    intros [He|He]%elem_of_union; apply elem_of_singleton in He; rewrite He in Hx; [exact (Ha Hx)|exact (Hb Hx)].
Qed.

Lemma W0_timely : timely Demo.Root now W0.
Proof.
  intros p i n (Hin & Hs & _) _. assert (ids (idIndex G2) = {[digits "a"; digits "b"]}) as Hids by (apply (bool_decide_eq_true_1 (ids (idIndex G2) = {[digits "a"; digits "b"]})); vm_compute; reflexivity).
  cbn [graph W0] in Hin, Hs. rewrite Hids in Hin. unfold stored in Hs.
  assert (forall x j, roots G2 !! (["graph"; x]) = Some (Ok j) -> x = digits "a" \/ x = digits "b" -> Images.Created j = 0) as Hc.
  { intros x j Hj [-> | ->]; vm_compute in Hj; injection Hj as <-; reflexivity. }
  rewrite (Hc _ _ Hs); [unfold now; lia|]. by apply elem_of_union in Hin as [Hin%elem_of_singleton|Hin%elem_of_singleton]; [left|right].
Qed.

Lemma now_later m n : (m < n)%nat -> now m < now n.
Proof. unfold now. lia. Qed.

Lemma stop_keeps c cs : exists s, (stop c cs).1.1 = Names.with_state c s.
Proof. exists (Names.state c). by destruct c. Qed.

Lemma pull_ok w remote tag w' r : stores_ok Demo.Root random_id now w -> pull w remote tag = (w', r) -> stores_ok Demo.Root random_id now w'.
Proof. by intros Hok [= <- _]. Qed.

#[global] Instance laws_here : BuildLaws World :=
  store_laws Demo.Root size unpack export order (fun _ => false) "constraint failed" "vfs" random_id random_name now readdir elements io (fun _ => disk_ok) never never stop never
    exec add_files pull root_plain size_nonneg random_id_ok random_id_new (fun g _ => readdir_ok g) (fun _ => reflexivity _) stop_keeps pull_ok now_later.

(** What a computation answers, when it does. *)
Definition world_of (o : outcome (buildFile * World * result string string)) : World := match o with Return (_, w, _) => w | _ => W0 end.
Definition builder_of (o : outcome (buildFile * World * result string string)) : buildFile := match o with Return (b, _, _) => b | _ => NewBuildFile end.

Lemma answers o n : match o with Return (_, _, Ok x) => String.eqb x n | _ => false end = true -> o = Return (builder_of o, world_of o, Ok n).
Proof. destruct o as [[[b w] [x|e]]| |]; try done. by intros ->%String.eqb_eq. Qed.
End Example.

Lemma lookup_here (w : Example.World) name id : Tags.synced (names w) ->
  match (bd_lookup w name).2 with Ok (i, None) => String.eqb i id | _ => false end = true -> bd_lookup w name = (w, Ok (id, None)).
Proof.
  intros Hs. cbn [bd_lookup Example.daemon_here store_daemon]. unfold Create.LookupImage.
  pose proof (LookupImage_synced (H := graph_store Images.Demo.Root Images.Demo.size (graph w)) Example.order (names w) name Hs) as H1.
  destruct (Tags.LookupImage Example.order name (names w)) as [s r]. cbn [fst] in H1. subst s. rewrite with_names_same. cbn [snd].
  destruct r as [i|e]; [|done]. change (_ <$> Ok i) with (@Ok string (string * option Config) (Images.ID i, Config_ i)).
  destruct (Config_ i); [done|]. by intros ->%String.eqb_eq.
Qed.


(** RUN with an empty list, on an image with an entry point, panics: the
    container is made, and then its command's first word is taken. *)
Theorem RUN_nothing_panics : exists b w,
  Build (fun _ => false) (fun _ => "") Example.print_order elements {| verbose := false; utilizeCache := true; rm := true; forceRm := true |} "/ctx" None (fun _ => Err "")
    (Some (join (String newline "") ["FROM base"; "ENTRYPOINT x"])) NewBuildFile Example.W0 = Return (b, w, Ok (Images.Demo.digits "d")) /\
  BuildStep (fun _ => false) (fun _ => "") Example.print_order {| verbose := false; utilizeCache := true; rm := true; forceRm := true |} "/ctx" None (fun _ => Err "") 2 "2" "RUN []" b w = Panic.
Proof.
  set (o := Build _ _ _ _ _ _ _ _ _ _ _). exists (Example.builder_of o), (Example.world_of o). split; [apply Example.answers; vm_compute; reflexivity|vm_compute; reflexivity].
Qed.

Lemma BuildStep_command_witness : exists b w r,
  BuildStep (fun _ => false) (fun _ => "") Example.print_order {| verbose := false; utilizeCache := true; rm := true; forceRm := true |} "/ctx" None (fun _ => Err "") 2 "1" "RUN make"
    (with_config (with_image NewBuildFile (Images.Demo.digits "a")) (set_Cmd ["sh"] empty_config)) Example.W0 = Return (b, w, r) /\ Cmd (config b) = ["sh"].
Proof.
  set (b0 := with_config _ _). set (o := BuildStep _ _ _ _ _ _ _ 2 "1" "RUN make" b0 Example.W0).
  assert (match o with Return _ => true | _ => false end = true) as H by (vm_compute; reflexivity).
  destruct o as [[[b w] r]| |] eqn:E; [|discriminate H..]. exists b, w, r. split; [reflexivity|].
  exact (proj1 (BuildStep_command (fun _ => false) (fun _ => "") Example.print_order {| verbose := false; utilizeCache := true; rm := true; forceRm := true |} "/ctx" None (fun _ => Err "")
      "1" "RUN make" b0 Example.W0 b w r E)).
Defined.

(** The container the builder makes first. *)
Definition first_create : outcome (Example.World * Config * result string (Names.Container * list string)) :=
  Create.Create Images.Demo.Root Images.Demo.size Example.order (fun _ => false) "constraint failed" "vfs" Example.random_id Example.random_name Example.now 3 (Example.io 0) Example.W0
    (set_Image "base" (set_Cmd ["sh"] empty_config)) "".
Definition first_world : Example.World := match first_create with Return (w, _, _) => w | _ => Example.W0 end.
Definition first_config : Config := match first_create with Return (_, c, _) => c | _ => empty_config end.
Definition first_container : option Names.Container := match first_create with Return (_, _, Ok (ct, _)) => Some ct | _ => None end.

Lemma first_create_ok : exists ct, first_container = Some ct /\ first_create = Return (first_world, first_config, Ok (ct, [])) /\ Names.ID ct = Images.Demo.digits "c".
Proof.
  unfold first_world, first_config, first_container.
  assert (match first_create with Return (_, _, Ok (ct, [])) => String.eqb (Names.ID ct) (Images.Demo.digits "c") | _ => false end = true) as E by (vm_compute; reflexivity).
  destruct first_create as [[[w c] [[ct [|? ?]]|e]]| |]; try done. apply String.eqb_eq in E. by exists ct.
Qed.

Lemma Create_spec_witness : exists ct img, first_create = Return (first_world, first_config, Ok (ct, [])) /\
  Create.LookupImage Images.Demo.Root Images.Demo.size Example.order Example.W0 "base" = (Example.W0, Ok img) /\ Get_container (daemon first_world) (Images.Demo.digits "c") = Some ct.
Proof.
  destruct first_create_ok as (ct & _ & E & Hid).
  destruct (Create_spec Images.Demo.Root Images.Demo.size Example.random_id Example.now Images.Demo.root_plain Example.random_id_ok Example.random_id_new
    Example.order (fun _ => false) "constraint failed" "vfs" Example.random_name 3 (Example.io 0) Example.W0 (set_Image "base" (set_Cmd ["sh"] empty_config)) ""
    first_world first_config (Ok (ct, [])) Example.W0_ok E) as (_ & _ & _ & img & H1 & _ & _ & _ & _ & _ & _ & H2 & _).
  exists ct, img. split; [exact E|]. split; [exact H1|]. rewrite <- Hid. exact H2.
Defined.

Definition first_commit (ct : Names.Container) : outcome (Example.World * result string Images.Image) :=
  Commit Images.Demo.Root Images.Demo.size Images.Demo.unpack Example.export Example.order "vfs" Example.random_id Example.now Example.never Example.never disk_ok first_world ct first_config "" "" "" "me" true
    first_config.

Lemma Commit_found_witness : exists ct w img i, first_commit ct = Return (w, Ok img) /\ Images.Get Images.Demo.Root Images.Demo.size (graph w) (Images.ID img) = Ok i /\
  ImageGetCached Images.Demo.Root Images.Demo.size (graph w) (Example.readdir (graph w)) elements (Images.Demo.digits "a") first_config = Ok (Some i).
Proof.
  assert (match first_container with Some ct => match first_commit ct with Return (_, Ok _) => String.eqb (Names.Image ct) (Images.Demo.digits "a") | _ => false end | _ => false end = true) as Hc
    by (vm_compute; reflexivity).
  assert (Compare (Some first_config) (Some first_config) = true) as Hcmp by (vm_compute; reflexivity).
  destruct first_create_ok as (ct & Hct & E & Hid). rewrite Hct in Hc. destruct (first_commit ct) as [[w [img|e]]| |] eqn:Ec; [|discriminate Hc..]. apply String.eqb_eq in Hc.
  destruct (Create_cases Images.Demo.Root Images.Demo.size Example.random_id Example.now Images.Demo.root_plain Example.random_id_ok Example.random_id_new
    Example.order (fun _ => false) "constraint failed" "vfs" Example.random_name 3 (Example.io 0) Example.W0 (set_Image "base" (set_Cmd ["sh"] empty_config)) ""
    first_world first_config (Ok (ct, [])) Example.W0_ok E) as (Hok & Hsame & Hdrawn & _ & _ & _ & _ & _ & _ & _ & Hcs & _).
  assert (containers (daemon first_world) !! Names.ID ct = Some ct) as Hin by (rewrite Hcs; apply lookup_insert_eq).
  destruct (Commit_found Images.Demo.Root Images.Demo.size Example.random_id Example.now Images.Demo.root_plain Images.Demo.size_nonneg Example.random_id_ok Example.random_id_new
    Images.Demo.unpack Example.export Example.order "vfs" Example.never Example.never Example.readdir (fun g _ => Example.readdir_ok g) elements (fun _ => reflexivity _)
    disk_ok first_world ct first_config "" "" "" "me" true first_config w img Hok ltac:(by intros [? ?]) Hin Ec) as (_ & _ & _ & _ & _ & i & H1 & _ & _ & _ & _ & _ & H2).
  rewrite Hc in H2. exists ct, w, img, i. split; [exact Ec|]. split; [exact H1|].
  destruct (H2 first_config Hcmp) as (r & Hr & _ & _ & _ & Hu). rewrite Hu in Hr; [exact Hr|].
  intros j Hj _. apply (same_graph_timely Images.Demo.Root Example.now Example.W0 first_world Hsame Hdrawn Example.W0_timely _ _ _ Hj (le_n _)).
Defined.
