(* ===== verification/JSONValues.v ===== *)
(** * Go's encoding/json: values and the fields of a struct

    [parse_json] is the check [json.Unmarshal] makes of a whole text and what
    the text says; the numbers keep their spelling, which is what the decoder
    gives to [strconv].  [decode_fields] stores the members of an object in
    the fields of a struct: the names are compared without case, a member
    with no field is skipped, [null] leaves a field as it is, and a value of
    the wrong type is an error that is reported after the rest is stored. *)

From stdpp Require Import base list strings pretty.
From Stdlib Require Import ZArith Lia Ascii.
From S2P Require Import Prelude GoStrings GoJSON.

Local Open Scope Z_scope.

#[warnings="-register-all"]
Inductive json : Type :=
| JNull
| JBool (b : bool)
| JNumber (text : string)
| JString (s : string)
| JArray (l : list json)
| JObject (members : list (string * json)).

(** ** The grammar *)

Definition is_dec (c : ascii) : bool := match digit_val c with Some _ => true | None => false end.

(** The leading digits, and what follows them. *)
Fixpoint digits (s : string) : string * string :=
  match s with
  | String c r => if is_dec c then let '(d, rest) := digits r in (String c d, rest) else ("", s)
  | "" => ("", "")
  end.

(** At least one digit. *)
Definition digits1 (s : string) : option (string * string) :=
  match digits s with ("", _) => None | (d, rest) => Some (d, rest) end.

Definition int_part (s : string) : option (string * string) :=
  match s with
  | String "0" r => Some ("0", r)
  | _ => digits1 s
  end.

Definition frac_part (s : string) : option (string * string) :=
  match s with
  | String "." r => '(d, rest) ← digits1 r; Some (String "." d, rest)
  | _ => Some ("", s)
  end.

Definition exp_part (s : string) : option (string * string) :=
  match s with
  | String c r =>
      if Ascii.eqb c "e" || Ascii.eqb c "E" then
        let '(sign, r) := match r with
                          | String d r' => if Ascii.eqb d "+" || Ascii.eqb d "-" then (String d "", r') else ("", r)
                          | "" => ("", r)
                          end in
        '(d, rest) ← digits1 r; Some (String c (sign +:+ d), rest)
      else Some ("", s)
  | "" => Some ("", s)
  end.

Definition number (s : string) : option (string * string) :=
  let '(sign, r) := match s with String "-" r => ("-", r) | _ => ("", s) end in
  '(i, r) ← int_part r;
  '(f, r) ← frac_part r;
  '(e, r) ← exp_part r;
  Some (sign +:+ i +:+ f +:+ e, r).

(** The literal [w] at the front of the text. *)
Definition literal (w s : string) : option string := if has_prefix w s then Some (drop_str (String.length w) s) else None.

(** The elements of an array after the bracket and the members of an object
    after the brace, whose values [val] reads. *)
Fixpoint items (val : string -> option (json * string)) (n : nat) (s : string) : option (list json * string) :=
  match n with
  | O => None
  | S n =>
      '(v, s) ← val s;
      match skip_space s with
      | String "]" r => Some ([v], r)
      | String "," r => '(l, r) ← items val n r; Some (v :: l, r)
      | _ => None
      end
  end.

Fixpoint members (val : string -> option (json * string)) (n : nat) (s : string) : option (list (string * json) * string) :=
  match n with
  | O => None
  | S n =>
      '(k, s) ← match skip_space s with String "034" r => unquote r | _ => None end;
      match skip_space s with
      | String ":" r =>
          '(v, s) ← val r;
          match skip_space s with
          | String "}" r => Some ([(k, v)], r)
          | String "," r => '(l, r) ← members val n r; Some ((k, v) :: l, r)
          | _ => None
          end
      | _ => None
      end
  end.

(** A value; each text inside is shorter than the text around it. *)
Fixpoint value (fuel : nat) (s : string) : option (json * string) :=
  match fuel with
  | O => None
  | S fuel =>
      let s := skip_space s in
      match s with
      | String "034" r => '(t, rest) ← unquote r; Some (JString t, rest)
      | String "[" r =>
          match skip_space r with
          | String "]" rest => Some (JArray [], rest)
          | _ => '(l, rest) ← items (value fuel) fuel r; Some (JArray l, rest)
          end
      | String "{" r =>
          match skip_space r with
          | String "}" rest => Some (JObject [], rest)
          | _ => '(l, rest) ← members (value fuel) fuel r; Some (JObject l, rest)
          end
      | String "t" _ => rest ← literal "true" s; Some (JBool true, rest)
      | String "f" _ => rest ← literal "false" s; Some (JBool false, rest)
      | String "n" _ => rest ← literal "null" s; Some (JNull, rest)
      | _ => '(t, rest) ← number s; Some (JNumber t, rest)
      end
  end.

Definition parse_json (s : string) : option json :=
  '(v, rest) ← value (S (String.length s)) s;
  if String.eqb (skip_space rest) "" then Some v else None.

(** ** Fields *)

(** [bytes.EqualFold] with a field's name in lower case: the long s and the
    Kelvin sign fold to s and k. *)
Fixpoint fold_key (s : string) : string :=
  match s with
  | String "197" (String "191" r) => String "s" (fold_key r)
  | String "226" (String "132" (String "170" r)) => String "k" (fold_key r)
  | String c r => String (lower_char c) (fold_key r)
  | "" => ""
  end.

(** A number in an integer field, a boolean in a boolean one; [None] is the
    error that is saved. *)
Definition int_value (bits : Z) (v : json) : option (option Z) :=
  match v with
  | JNull => Some None
  | JNumber t => match parse_int bits t with Ok z => Some (Some z) | Err _ => None end
  | _ => None
  end.

Definition uint_value (bits : Z) (v : json) : option (option Z) :=
  match v with
  | JNull => Some None
  | JNumber t => match parse_uint bits t with Ok z => Some (Some z) | Err _ => None end
  | _ => None
  end.

Definition bool_value (v : json) : option (option bool) :=
  match v with
  | JNull => Some None
  | JBool b => Some (Some b)
  | _ => None
  end.

(** The members are stored in their order; [store] is [None] for a value the
    field does not take. *)
Definition decode_fields {R} (store : R -> string -> json -> option R) (members : list (string * json)) (r : R) : R * bool :=
  foldl (fun '(r, good) '(k, v) => match store r (fold_key k) v with Some r => (r, good) | None => (r, false) end) (r, true) members.

(** ** Writing the fields of a struct

    [json.Marshal] of a struct whose fields are numbers and booleans. *)

Definition render_scalar (v : json) : string :=
  match v with JNumber t => t | JBool b => if b then "true" else "false" | _ => "null" end.

Definition render_member '((k, v) : string * json) : string := render_string k +:+ ":" +:+ render_scalar v.

Definition render_object (l : list (string * json)) : string := "{" +:+ join "," (render_member <$> l) +:+ "}".

Example parse_json_test :
  let q s := String "034" (s +:+ String "034" "") in
  parse_json (" {" +:+ q "a" +:+ ": -1.5e+3, " +:+ q "b" +:+ ":[true ,null],
   " +:+ q "c" +:+ ":{}} ") = Some (JObject [("a", JNumber "-1.5e+3"); ("b", JArray [JBool true; JNull]); ("c", JObject [])]) /\
  parse_json "01" = None /\ parse_json "[1,]" = None /\ parse_json "tru" = None /\ parse_json "" = None /\ fold_key "A_b" = "a_b".
Proof. vm_compute. repeat split. Qed.

(** ** Reading a number that is printed *)

Lemma digits_app d rest : forall_str is_dec d = true -> (forall c r, rest = String c r -> is_dec c = false) -> digits (d +:+ rest) = (d, rest).
Proof.
  intros Hd Hr. induction d as [|c d IH]; cbn in Hd.
  - change ("" +:+ rest) with rest. destruct rest as [|c r]; [done|]. cbn. by rewrite (Hr c r).
  - apply andb_true_iff in Hd as [Hc Hd]. rewrite string_app_cons. cbn. by rewrite Hc, IH.
Qed.

Lemma pretty_N_head n s : (0 < n)%N -> exists c r, pretty_N_go n s = String c r /\ is_dec c = true /\ c <> "0"%char.
Proof.
  revert s. induction (N.lt_wf_0 n) as [n _ IH]; intros s Hn. rewrite pretty_N_go_step by done.
  destruct (decide (n / 10 = 0)%N) as [E|E]; [|apply IH; [by apply N.div_lt|by apply N.neq_0_lt_0]].
  apply N.div_small_iff in E; [|done]. rewrite N.div_small, N.mod_small by done. rewrite pretty_N_go_0. eexists _, _. split; [done|].
  assert (n = 1 \/ n = 2 \/ n = 3 \/ n = 4 \/ n = 5 \/ n = 6 \/ n = 7 \/ n = 8 \/ n = 9)%N as H by lia.
  repeat destruct H as [->|H]; [..|subst n]; done.
Qed.

Lemma num_char_cases c : is_num_char c = true -> is_dec c = true \/ c = "-"%char.
Proof. unfold is_num_char, is_dec. destruct (digit_val c); [by left|]. intros H. right. by apply Ascii.eqb_eq. Qed.

Lemma itoa_nonempty z : itoa z <> "".
Proof.
  destruct z as [|p|p]; [done| |done]. destruct (pretty_N_head (N.pos p) "") as (c & r & E & _); [lia|].
  change (itoa (Z.pos p)) with (pretty_N_go (N.pos p) ""). by rewrite E.
Qed.

Lemma itoa_dec z : 0 <= z -> forall_str is_dec (itoa z) = true.
Proof.
  intros Hz. pose proof (itoa_chars z) as H. pose proof (itoa_no_char "-" z Hz eq_refl) as Hn. revert H Hn.
  induction (itoa z) as [|c s IH]; [done|]. intros H Hn. cbn in *. apply andb_true_iff in H as [Hc Hs].
  apply num_char_cases in Hc as [Hc| ->]; [|done]. rewrite Hc. apply IH; [done|]. by apply orb_false_iff in Hn as [_ ?].
Qed.

(** What does not continue a number. *)
Definition ends_number (rest : string) : Prop :=
  match rest with String c _ => is_dec c = false /\ c <> "."%char /\ c <> "e"%char /\ c <> "E"%char | "" => True end.

Lemma number_itoa z rest : 0 <= z -> ends_number rest -> number (itoa z +:+ rest) = Some (itoa z, rest).
Proof.
  intros Hz Hr. assert (digits (itoa z +:+ rest) = (itoa z, rest)) as Hd.
  { apply digits_app; [by apply itoa_dec|]. intros c r ->. apply Hr. }
  assert (frac_part rest = Some ("", rest)) as Hf. { destruct rest as [|c r]; [done|]. destruct Hr as (_ & H & _). cbn. destruct c as [[] [] [] [] [] [] [] []]; done. }
  assert (exp_part rest = Some ("", rest)) as He.
  { destruct rest as [|c r]; [done|]. destruct Hr as (_ & _ & H1 & H2). cbn. apply Ascii.eqb_neq in H1, H2. by rewrite H1, H2. }
  assert (int_part (itoa z +:+ rest) = Some (itoa z, rest)) as Hi.
  { destruct (decide (z = 0)) as [->|Hne]; [done|]. assert (exists c r, itoa z = String c r /\ is_dec c = true /\ c <> "0"%char) as (c & r & E & Hc & H0).
    { destruct z as [|p|p]; [done| |lia]. apply (pretty_N_head (N.pos p) ""). lia. }
    unfold int_part, digits1. rewrite Hd, E, string_app_cons. destruct c as [[] [] [] [] [] [] [] []]; done. }
  unfold number.
  assert (match itoa z +:+ rest with String "-" r => ("-", r) | _ => ("", itoa z +:+ rest) end = ("", itoa z +:+ rest)) as ->.
  { pose proof (itoa_dec z Hz) as H. destruct (itoa z) as [|c r] eqn:E; [by destruct (itoa_nonempty z)|]. cbn in H. apply andb_true_iff in H as [H _].
    rewrite string_app_cons. destruct c as [[] [] [] [] [] [] [] []]; done. }
  rewrite Hi. cbn. rewrite Hf. cbn. rewrite He. cbn. by rewrite !string_app_nil_r.
Qed.

(** ** An object of numbers and booleans is read back *)

Definition scalar (v : json) : Prop :=
  match v with JNumber t => exists z, 0 <= z /\ t = itoa z | JBool _ => True | _ => False end.

Lemma itoa_head z : 0 <= z -> exists c r, itoa z = String c r /\ is_dec c = true.
Proof.
  intros Hz. pose proof (itoa_dec z Hz) as H. destruct (itoa z) as [|c r] eqn:E; [by destruct (itoa_nonempty z)|].
  cbn in H. apply andb_true_iff in H as [H _]. eauto.
Qed.

Lemma value_scalar fuel v rest : scalar v -> ends_number rest -> value (S fuel) (render_scalar v +:+ rest) = Some (v, rest).
Proof.
  intros Hv Hr. destruct v as [|[|]|t|s|l|l]; try done; [by destruct rest..|]. destruct Hv as (z & Hz & ->). cbn [render_scalar].
  pose proof (number_itoa z rest Hz Hr) as Hn. destruct (itoa_head z Hz) as (c & r & E & Hc). rewrite E, string_app_cons in Hn |- *.
  cbn [value]. assert (skip_space (String c (r +:+ rest)) = String c (r +:+ rest)) as ->. { destruct c as [[] [] [] [] [] [] [] []]; done. }
  destruct c as [[] [] [] [] [] [] [] []]; try done; by rewrite Hn.
Qed.

Definition member_ok '((k, v) : string * json) : Prop := is_ascii k = true /\ scalar v.

Lemma members_render m l fuel : forall n, (length l < n)%nat -> Forall member_ok (m :: l) ->
  members (value (S fuel)) n (join "," (render_member <$> m :: l) +:+ "}") = Some (m :: l, "").
Proof.
  revert m. induction l as [|x l IH]; intros [k v] n Hn Hm; (destruct n as [|n]; [simpl in Hn; lia|]); inversion Hm as [|? ? Hkv Hl]; subst; destruct Hkv as [Hk Hv].
  - cbn [fmap list_fmap join]. unfold render_member. cbn [members]. rewrite !string_app_assoc. unfold render_string at 1. rewrite string_app_cons.
    change (skip_space (String "034" ?x)) with (String "034" x). cbv iota beta. rewrite unquote_quote by done. cbn [mbind option_bind].
    change (skip_space (":" +:+ ?x)) with (String ":" x). cbv iota beta. by rewrite value_scalar.
  - rewrite fmap_cons. change (join "," (render_member (k, v) :: (render_member <$> x :: l))) with (render_member (k, v) +:+ "," +:+ join "," (render_member <$> x :: l)).
    unfold render_member at 1. cbn [members]. rewrite !string_app_assoc. unfold render_string at 1. rewrite string_app_cons.
    change (skip_space (String "034" ?x)) with (String "034" x). cbv iota beta. rewrite unquote_quote by done. cbn [mbind option_bind].
    change (skip_space (":" +:+ ?x)) with (String ":" x). cbv iota beta. rewrite value_scalar by done. cbn [mbind option_bind].
    change (skip_space ("," +:+ ?x)) with (String "," x). cbv iota beta. rewrite IH by (done || simpl in *; lia). done.
Qed.

Lemma members_length l : (length l <= String.length (join "," (render_member <$> l)))%nat.
Proof.
  induction l as [|[k v] l IH]; [done|]. destruct l as [|x l]; [simpl; lia|]. rewrite fmap_cons.
  change (join "," (render_member (k, v) :: (render_member <$> x :: l))) with (render_member (k, v) +:+ "," +:+ join "," (render_member <$> x :: l)).
  rewrite !string_length_app. change (length ((k, v) :: x :: l)) with (S (length (x :: l))). cbn [render_member render_string String.length String.app]. lia.
Qed.

Lemma value_object fuel r : value (S fuel) (String "{" r) =
  match skip_space r with
  | String "}" rest => Some (JObject [], rest)
  | _ => '(l, rest) ← members (value fuel) fuel r; Some (JObject l, rest)
  end.
Proof. done. Qed.

Lemma parse_render_object m l : Forall member_ok (m :: l) -> parse_json (render_object (m :: l)) = Some (JObject (m :: l)).
Proof.
  intros Hm. pose proof (members_length (m :: l)) as Hl. unfold parse_json, render_object. set (body := join "," (render_member <$> m :: l)) in *.
  assert (exists r, body = String "034" r) as [r E]. { subst body. destruct m as [k v], l as [|y l]; by eexists. }
  assert (String.length ("{" +:+ body +:+ "}") = S (S (String.length body))) as ->.
  { rewrite !string_length_app. simpl. lia. }
  revert Hl. generalize (String.length body). intros n Hl.
  assert (value (S (S (S n))) ("{" +:+ body +:+ "}") = Some (JObject (m :: l), "")) as ->; [|done].
  pose proof (members_render m l (S n) (S (S n))) as H. fold body in H.
  change ("{" +:+ ?x) with (String "{" x). rewrite value_object.
  assert (skip_space (body +:+ "}") = body +:+ "}") as -> by (by rewrite E).
  rewrite E in H |- *. rewrite string_app_cons in H |- *. cbv iota beta. rewrite H; [done|simpl in *; lia|done].
Qed.
