(* ===== verification/Devmapper.v ===== *)
(** * Device mapper: tasks, the thin pool's messages, the mounts

    daemon/graphdriver/devmapper/devmapper.go, mount.go and the callback of
    devmapper_log.go.  libdevmapper and the system calls are the class
    [Host]; a computation of the driver changes the host, the files of the
    driver's directory and the driver's own memory, and every state the host
    and the files go through is kept in [past]: a daemon that stops leaves
    one of them. *)

From stdpp Require Import base gmap list strings.
From Stdlib Require Import ZArith Lia Ascii.
From S2P Require Import Prelude GoStrings GoPath.

Local Open Scope Z_scope.

Inductive TaskType :=
| DeviceCreate | DeviceReload | DeviceRemove | DeviceRemoveAll | DeviceSuspend | DeviceResume | DeviceInfo | DeviceDeps | DeviceRename
| DeviceVersion | DeviceStatus | DeviceTable | DeviceWaitevent | DeviceList | DeviceClear | DeviceMknodes | DeviceListVersions
| DeviceTargetMsg | DeviceSetGeometry.

#[export] Instance TaskType_eq_dec : EqDecision TaskType.
Proof. solve_decision. Defined.

Inductive AddNodeType := AddNodeOnResume | AddNodeOnCreate.

(** What is set on a task before it runs. *)
Inductive Setter :=
| SetName (name : string)
| SetSector (sector : Z)
| SetMessage (message : string)
| SetCookie (cookie flags : Z)
| SetAddNode (add : AddNodeType)
| AddTarget (start size : Z) (ttype params : string).

Record Task := { task_type : TaskType; task_sets : list Setter }.

Record Info := {
  Exists : Z; Suspended : Z; LiveTable : Z; InactiveTable : Z; OpenCount : Z; EventNr : Z; Major : Z; Minor : Z; ReadOnly : Z; TargetCount : Z }.

(** The system calls and programs; the number is what the call returns. *)
Inductive Call :=
| OpenTemp (dir : string)
| WriteAll (path : string) (len : Z)
| SyncFile (path : string)
| CloseFile (path : string)
| RenameFile (old new : string)
| RemoveTree (path : string)
| ReadAll (path : string)
| MakeDirs (path : string)
| Stat (path : string)
| StatSize (path : string)
| StatDev (path : string)
| StatIno (path : string)
| OpenPath (path : string)
| TruncatePath (path : string) (size : Z)
| LoopGetFree
| LoopSetFd (loop file : string)
| LoopSetStatus (loop : string)
| LoopClrFd (loop : string)
| LoopStatDev (loop : string)
| LoopStatIno (loop : string)
| LoopSetCapacity (loop : string)
| BlockSize (path : string)
| BlockDiscard (path : string) (offset len : Z)
| SyncDisks
| MountFs (device path fstype : string) (flags : Z) (options : string)
| UnmountFs (path : string) (flags : Z)
| RunProgram (program : string) (args : list string)
| SleepFor (milliseconds : Z)
| WriteFileAt (path content : string)
| SetDevDir (dir : string).

(** libdevmapper and the kernel: whether a task is made and set up, what its
    run does with its log lines (a level and a text), what can be asked of it
    afterwards; a system call's number or the text of its error number; the
    first bytes of a device. *)
Class Host (K : Type) := {
  task_create : K -> TaskType -> bool;
  task_set : K -> Task -> Setter -> bool;
  task_run : K -> Task -> K * bool * list (Z * string);
  task_info : K -> Task -> option Info;
  task_target : K -> Task -> Z * Z * string * string;
  task_version : K -> Task -> string;
  udev_wait : K -> Task -> K;
  sys : K -> Call -> K * result string Z;
  device_bytes : K -> string -> nat -> result string string;
}.

(** ** Computations of the driver *)

Record World (K D : Type) := { host : K; files : gmap string string; past : list (K * gmap string string); mem : D }.
Arguments host {K D}. Arguments files {K D}. Arguments past {K D}. Arguments mem {K D}.
Arguments Build_World {K D}.

Definition T (K D A : Type) : Type := World K D -> outcome (World K D * result string A).

#[export] Instance T_ret {K D} : MRet (T K D) := fun A a w => Return (w, Ok a).
#[export] Instance T_bind {K D} : MBind (T K D) := fun A B f m w =>
  '(w, r) ← m w;
  match r with Err e => Return (w, Err e) | Ok a => f a w end.

Definition fail {K D A} (e : string) : T K D A := fun w => Return (w, Err e).
Definition get {K D} : T K D D := fun w => Return (w, Ok (mem w)).
Definition modify {K D} (f : D -> D) : T K D () := fun w => Return ({| host := host w; files := files w; past := past w; mem := f (mem w) |}, Ok ()).
Definition attempt {K D A} (m : T K D A) : T K D (result string A) := fun w => '(w, r) ← m w; Return (w, Ok r).
Definition out_of_fuel {K D A} : T K D A := fun _ => OutOfFuel.
Definition panics {K D A} : T K D A := fun _ => Panic.

(** The files of the driver's directory. *)
Definition get_file {K D} (p : string) : T K D (option string) := fun w => Return (w, Ok (files w !! p)).

(** A step of the machine: what it leaves is a state a daemon can stop in. *)
Definition enter {K D} (k : K) (fs : gmap string string) (w : World K D) : World K D :=
  {| host := k; files := fs; past := past w ++ [(k, fs)]; mem := mem w |}.

(** Errors of [m] with a text around them. *)
Definition wrap {K D A} (f : string -> string) (m : T K D A) : T K D A := fun w =>
  '(w, r) ← m w; Return (w, match r with Err e => Err (f e) | Ok a => Ok a end).

Definition ENOENT : string := "no such file or directory".
Definition EEXIST : string := "file exists".
Definition EINVAL : string := "invalid argument".
Definition EBUSY : string := "device or resource busy".

(** [os.PathError] *)
Definition path_error (op path errno : string) : string := op +:+ " " +:+ path +:+ ": " +:+ errno.

(** What the Go code compares error values with. *)
Definition ErrTaskRun : string := "dm_task_run failed".
Definition ErrTaskGetInfo : string := "dm_task_get_info failed".
Definition ErrTaskGetDriverVersion : string := "dm_task_get_driver_version failed".
Definition ErrTaskSetName : string := "dm_task_set_name failed".
Definition ErrTaskSetMessage : string := "dm_task_set_message failed".
Definition ErrTaskSetSector : string := "dm_task_set_sector failed".
Definition ErrTaskSetCookie : string := "dm_task_set_cookie failed".
Definition ErrTaskSetAddNode : string := "dm_task_set_add_node failed".
Definition ErrTaskAddTarget : string := "dm_task_add_target failed".
Definition ErrAttachLoopbackDevice : string := "loopback mounting failed".
Definition ErrGetBlockSize : string := "Can't get block size".
Definition ErrGetLoopbackBackingFile : string := "Unable to get loopback backing file".
Definition ErrLoopbackSetCapacity : string := "Unable set loopback capacity".
Definition ErrCreateRemoveTask : string := "Can't create task of type DeviceRemove".
Definition ErrRunRemoveDevice : string := "running removeDevice failed".
Definition ErrBusy : string := "Device is Busy".
Definition ErrUdevWait : string := "wait on udev cookie failed".

Definition task_number (t : TaskType) : Z :=
  match t with
  | DeviceCreate => 0 | DeviceReload => 1 | DeviceRemove => 2 | DeviceRemoveAll => 3 | DeviceSuspend => 4 | DeviceResume => 5 | DeviceInfo => 6
  | DeviceDeps => 7 | DeviceRename => 8 | DeviceVersion => 9 | DeviceStatus => 10 | DeviceTable => 11 | DeviceWaitevent => 12 | DeviceList => 13
  | DeviceClear => 14 | DeviceMknodes => 15 | DeviceListVersions => 16 | DeviceTargetMsg => 17 | DeviceSetGeometry => 18
  end.

(** [DevmapperLogCallback]: the flags [dmSawBusy] and [dmSawExist] after the
    lines of a run. *)
Definition saw (text : string) (lines : list (Z * string)) : bool := existsb (fun '(level, msg) => (level <? 7) && contains text msg) lines.

(** [joinMountOptions] of mount.go *)
Definition joinMountOptions (a b : string) : string :=
  if String.eqb a "" then b else if String.eqb b "" then a else a +:+ "," +:+ b.

Section Devmapper.
Context {K : Type} `{Host K} {D : Type}.
Abbreviation T := (T K D).

(** ** System calls *)

Definition call (c : Call) : T Z := fun w =>
  let '(k, r) := sys (host w) c in Return (enter k (files w) w, r).

(** What the host answers without a change. *)
Definition ask {A} (f : K -> result string A) : T A := fun w => Return (w, f (host w)).

(** A call that also changes the driver's files, by what it returned. *)
Definition file_call (c : Call) (f : Z -> gmap string string -> gmap string string) : T Z := fun w =>
  let '(k, r) := sys (host w) c in
  Return (enter k (match r with Ok n => f n (files w) | Err _ => files w end) w, r).

(** ** Tasks *)

Definition set_task (t : Task) (s : Setter) (err : string) : T Task := ask (fun k =>
  if task_set k t s then Ok {| task_type := task_type t; task_sets := task_sets t ++ [s] |} else Err err).

(** [Task.Run]: whether the run succeeded, and its log lines. *)
Definition run_task (t : Task) : T (bool * list (Z * string)) := fun w =>
  let '(k, ok, lines) := task_run (host w) t in Return (enter k (files w) w, Ok (ok, lines)).

(** [Task.Run] where only success matters. *)
Definition Run (t : Task) : T () := '(ok, _) ← run_task t; if ok : bool then mret () else fail ErrTaskRun.

Definition GetInfo (t : Task) : T Info := ask (fun k => match task_info k t with Some i => Ok i | None => Err ErrTaskGetInfo end).

(** The error of the wait is dropped by every caller. *)
Definition UdevWait (t : Task) : T () := fun w => Return (enter (udev_wait (host w) t) (files w) w, Ok ()).

Definition TaskCreate (t : TaskType) (err : string) : T Task := ask (fun k =>
  if task_create k t then Ok {| task_type := t; task_sets := [] |} else Err err).

Definition createTask (t : TaskType) (name : string) : T Task :=
  task ← TaskCreate t ("Can't create task of type " +:+ itoa (task_number t));
  set_task task (SetName name) ("Can't set task name " +:+ name).

Definition RemoveDevice (name : string) : T () :=
  task ← TaskCreate DeviceRemove ErrCreateRemoveTask;
  task ← set_task task (SetName name) ErrTaskSetName;
  wrap (fun _ => ErrRunRemoveDevice) (Run task).

Definition getInfo (name : string) : T Info :=
  task ← createTask DeviceInfo name;
  Run task;;
  GetInfo task.

Definition getDriverVersion : T string :=
  task ← TaskCreate DeviceVersion "Can't create DeviceVersion task";
  Run task;;
  ask (fun k => let res := task_version k task in if String.eqb res "" then Err ErrTaskGetDriverVersion else Ok res).

Definition getStatus (name : string) : T (Z * Z * string * string) :=
  task ← createTask DeviceStatus name;
  Run task;;
  devinfo ← GetInfo task;
  if Exists devinfo =? 0 then fail ("Non existing device " +:+ name)
  else ask (fun k => Ok (task_target k task)).

(** A message to the pool, up to its run. *)
Definition message_task (poolName message : string) : T Task :=
  task ← createTask DeviceTargetMsg poolName;
  task ← wrap (fun e => "Can't set sector " +:+ e) (set_task task (SetSector 0) ErrTaskSetSector);
  wrap (fun e => "Can't set message " +:+ e) (set_task task (SetMessage message) ErrTaskSetMessage).

Definition setTransactionId (poolName : string) (oldId newId : Z) : T () :=
  task ← message_task poolName ("set_transaction_id " +:+ itoa oldId +:+ " " +:+ itoa newId);
  wrap (fun e => "Error running setTransactionId " +:+ e) (Run task).

Definition suspendDevice (name : string) : T () :=
  task ← createTask DeviceSuspend name;
  wrap (fun e => "Error running DeviceSuspend " +:+ e) (Run task).

Definition resumeDevice (name : string) : T () :=
  task ← createTask DeviceResume name;
  task ← wrap (fun e => "Can't set cookie " +:+ e) (set_task task (SetCookie 0 0) ErrTaskSetCookie);
  wrap (fun e => "Error running DeviceResume " +:+ e) (Run task);;
  UdevWait task.

(** The loop over identifiers that exist: the identifier that was created. *)
Fixpoint createDevice (fuel : nat) (poolName : string) (deviceId : Z) : T Z :=
  match fuel with
  | O => out_of_fuel
  | S fuel =>
      task ← message_task poolName ("create_thin " +:+ itoa deviceId);
      '(ok, lines) ← run_task task;
      if ok : bool then mret deviceId
      else if saw "File exists" lines then createDevice fuel poolName (int64 (deviceId + 1))
      else fail ("Error running createDevice " +:+ ErrTaskRun)
  end.

Definition deleteDevice (poolName : string) (deviceId : Z) : T () :=
  task ← message_task poolName ("delete " +:+ itoa deviceId);
  wrap (fun e => "Error running deleteDevice " +:+ e) (Run task).

Definition removeDevice (name : string) : T () :=
  task ← createTask DeviceRemove name;
  '(ok, lines) ← run_task task;
  if ok : bool then mret () else if saw "busy" lines then fail ErrBusy else fail ("Error running removeDevice " +:+ ErrTaskRun).

Definition activateDevice (poolName name : string) (deviceId size : Z) : T () :=
  task ← createTask DeviceCreate name;
  task ← wrap (fun e => "Can't add target " +:+ e) (set_task task (AddTarget 0 (size / 512) "thin" (poolName +:+ " " +:+ itoa deviceId)) ErrTaskAddTarget);
  task ← wrap (fun e => "Can't add node " +:+ e) (set_task task (SetAddNode AddNodeOnCreate) ErrTaskSetAddNode);
  task ← wrap (fun e => "Can't set cookie " +:+ e) (set_task task (SetCookie 0 0) ErrTaskSetCookie);
  wrap (fun e => "Error running DeviceCreate (activateDevice) " +:+ e) (Run task);;
  UdevWait task.

(** [if doSuspend { resumeDevice(baseName) }] before an error is returned. *)
Definition or_resume {A} (doSuspend : bool) (baseName : string) (m : T A) : T A :=
  r ← attempt m;
  match r with
  | Ok a => mret a
  | Err e => (if doSuspend then attempt (resumeDevice baseName);; mret () else mret ());; fail e
  end.

Fixpoint createSnap_loop (fuel : nat) (doSuspend : bool) (poolName : string) (deviceId : Z) (baseName : string) (baseDeviceId : Z) : T Z :=
  match fuel with
  | O => out_of_fuel
  | S fuel =>
      task ← or_resume doSuspend baseName (message_task poolName ("create_snap " +:+ itoa deviceId +:+ " " +:+ itoa baseDeviceId));
      '(ok, lines) ← run_task task;
      if ok : bool then mret deviceId
      else if saw "File exists" lines then createSnap_loop fuel doSuspend poolName (int64 (deviceId + 1)) baseName baseDeviceId
      else or_resume doSuspend baseName (fail ("Error running DeviceCreate (createSnapDevice) " +:+ ErrTaskRun))
  end.

Definition createSnapDevice (fuel : nat) (poolName : string) (deviceId : Z) (baseName : string) (baseDeviceId : Z) : T Z :=
  devinfo ← attempt (getInfo baseName);
  let doSuspend := match devinfo with Ok i => negb (Exists i =? 0) | Err _ => false end in
  (if doSuspend then suspendDevice baseName else mret ());;
  id ← createSnap_loop fuel doSuspend poolName deviceId baseName baseDeviceId;
  (if doSuspend then resumeDevice baseName else mret ());;
  mret id.

(** ** Block and loop devices *)

Definition open_path (path : string) : T () := wrap (path_error "open" path) (call (OpenPath path));; mret ().

Definition GetBlockDeviceSize (file : string) : T Z := wrap (fun _ => ErrGetBlockSize) (call (BlockSize file)).

Definition BlockDeviceDiscard (path : string) : T () :=
  open_path path;;
  size ← GetBlockDeviceSize path;
  call (BlockDiscard path 0 size);;
  attempt (call SyncDisks);;
  mret ().

Definition pool_target (dataFile metadataFile : string) (poolBlockSize size : Z) : Setter :=
  AddTarget 0 (size / 512) "thin-pool" (metadataFile +:+ " " +:+ dataFile +:+ " " +:+ itoa poolBlockSize +:+ " 32768 1 skip_block_zeroing").

Definition createPool (poolName dataFile metadataFile : string) (poolBlockSize : Z) : T () :=
  task ← createTask DeviceCreate poolName;
  size ← wrap (fun e => "Can't get data size " +:+ e) (GetBlockDeviceSize dataFile);
  task ← wrap (fun e => "Can't add target " +:+ e) (set_task task (pool_target dataFile metadataFile poolBlockSize size) ErrTaskAddTarget);
  task ← wrap (fun e => "Can't set cookie " +:+ e) (set_task task (SetCookie 0 0) ErrTaskSetCookie);
  wrap (fun e => "Error running DeviceCreate (createPool) " +:+ e) (Run task);;
  UdevWait task.

Definition reloadPool (poolName dataFile metadataFile : string) (poolBlockSize : Z) : T () :=
  task ← createTask DeviceReload poolName;
  size ← wrap (fun e => "Can't get data size " +:+ e) (GetBlockDeviceSize dataFile);
  task ← wrap (fun e => "Can't add target " +:+ e) (set_task task (pool_target dataFile metadataFile poolBlockSize size) ErrTaskAddTarget);
  wrap (fun e => "Error running DeviceCreate " +:+ e) (Run task).

Definition LoopbackSetCapacity (file : string) : T () := wrap (fun _ => ErrLoopbackSetCapacity) (call (LoopSetCapacity file));; mret ().

Definition getLoopbackBackingFile (file : string) : T (Z * Z) :=
  wrap (fun _ => ErrGetLoopbackBackingFile) (dev ← call (LoopStatDev file); ino ← call (LoopStatIno file); mret (dev, ino)).

(** The loop devices in turn, until one does not exist. *)
Fixpoint FindLoop_loop (fuel : nat) (targetDevice targetInode : Z) (i : Z) : T (option string) :=
  match fuel with
  | O => out_of_fuel
  | S fuel =>
      let path := "/dev/loop" +:+ itoa i in
      r ← attempt (call (OpenPath path));
      match r with
      | Err e => if String.eqb e ENOENT then mret None else FindLoop_loop fuel targetDevice targetInode (int64 (i + 1))
      | Ok _ =>
          b ← attempt (getLoopbackBackingFile path);
          match b with
          | Ok (dev, inode) => if (dev =? targetDevice) && (inode =? targetInode) then mret (Some path) else FindLoop_loop fuel targetDevice targetInode (int64 (i + 1))
          | Err _ => FindLoop_loop fuel targetDevice targetInode (int64 (i + 1))
          end
      end
  end.

Definition FindLoopDeviceFor (fuel : nat) (file : string) : T (option string) :=
  r ← attempt (ino ← call (StatIno file); dev ← call (StatDev file); mret (dev, ino));
  match r with
  | Err _ => mret None
  | Ok (dev, ino) => FindLoop_loop fuel dev ino 0
  end.

(** attach_loopback.go *)
Definition getNextFreeLoopbackIndex : T Z :=
  open_path "/dev/loop-control";;
  index ← call LoopGetFree;
  mret (if index <? 0 then 0 else index).

(** [is_device] is the mode bit of the file information. *)
Fixpoint openNextAvailableLoopback (fuel : nat) (is_device : Z -> bool) (index : Z) (sparseFile : string) : T string :=
  match fuel with
  | O => out_of_fuel
  | S fuel =>
      let target := "/dev/loop" +:+ itoa index in
      let index := int64 (index + 1) in
      fi ← wrap (fun _ => ErrAttachLoopbackDevice) (call (Stat target));
      if negb (is_device fi) then openNextAvailableLoopback fuel is_device index sparseFile
      else
        wrap (fun _ => ErrAttachLoopbackDevice) (call (OpenPath target));;
        r ← attempt (call (LoopSetFd target sparseFile));
        match r with
        | Ok _ => mret target
        | Err e => if String.eqb e EBUSY then openNextAvailableLoopback fuel is_device index sparseFile else fail ErrAttachLoopbackDevice
        end
  end.

Definition attachLoopDevice (fuel : nat) (is_device : Z -> bool) (sparseName : string) : T string :=
  startIndex ← attempt getNextFreeLoopbackIndex;
  wrap (fun _ => ErrAttachLoopbackDevice) (call (OpenPath sparseName));;
  loopFile ← openNextAvailableLoopback fuel is_device (match startIndex with Ok i => i | Err _ => 0 end) sparseName;
  r ← attempt (call (LoopSetStatus loopFile));
  match r with
  | Ok _ => mret loopFile
  | Err _ => attempt (call (LoopClrFd loopFile));; fail ErrAttachLoopbackDevice
  end.

(** ** mount.go *)

Definition probes : list (string * string * nat) :=
  [("btrfs", "_BHRfS_M", 65600%nat); ("ext4", String "083" (String "239" ""), 1080%nat); ("xfs", "XFSB", 0%nat)].

Definition probe_length : nat := foldl (fun m '(_, magic, offset) => Nat.max m (offset + String.length magic)) 0%nat probes.

Fixpoint probe_type (l : list (string * string * nat)) (buffer : string) : option string :=
  match l with
  | [] => None
  | (fsName, magic, offset) :: l => if has_prefix magic (drop_str offset buffer) then Some fsName else probe_type l buffer
  end.

Definition ProbeFsType (device : string) : T string :=
  open_path device;;
  buffer ← ask (fun k => device_bytes k device probe_length);
  if negb (Nat.eqb (String.length buffer) probe_length) then fail ("unable to detect filesystem type of " +:+ device +:+ ", short read")
  else match probe_type probes buffer with Some fs => mret fs | None => fail ("Unknown filesystem type on " +:+ device) end.

End Devmapper.
