(* ===== verification/DeviceSet.v ===== *)
(** * The devices of the thin pool

    daemon/graphdriver/devmapper/deviceset.go and driver.go: the devices the
    set knows, the metadata files that hold them, the transaction identifier
    that tells which of the files count, and the operations on devices.

    The set is used by one caller at a time.  [range_devices], [range_old] and
    [list_names] are the orders in which maps are visited. *)

From stdpp Require Import base gmap list strings.
From Stdlib Require Import ZArith Lia Ascii.
From S2P Require Import Prelude GoStrings GoPath Parsers Flags JSONValues Devmapper.

Local Open Scope Z_scope.

(** The pointer to the set and the lock are left out; [Hash] is the key the
    device has in the map. *)
Record DevInfo := {
  Hash : string; DeviceId : Z; Size : Z; info_TransactionId : Z; Initialized : bool; mountCount : Z; mountPath : string }.

#[export] Instance DevInfo_eq_dec : EqDecision DevInfo.
Proof. solve_decision. Defined.

Record DeviceSet := {
  Devices : gmap string DevInfo;
  root : string;
  devicePrefix : string;
  TransactionId : Z;
  NewTransactionId : Z;
  nextDeviceId : Z;
  dataLoopbackSize : Z;
  metaDataLoopbackSize : Z;
  baseFsSize : Z;
  filesystem : string;
  mountOptions : string;
  mkfsArgs : list string;
  dataDevice : string;
  metadataDevice : string;
  doBlkDiscard : bool;
  thinpBlockSize : Z;
}.

#[export] Instance DeviceSet_eq_dec : EqDecision DeviceSet.
Proof. solve_decision. Defined.

Record DiskUsage := { Used : Z; Total : Z }.
Record Status := { PoolName : string; DataLoopback : string; MetadataLoopback : string; Data : DiskUsage; Metadata : DiskUsage; SectorSize : Z }.
Record DevStatus := { st_DeviceId : Z; st_Size : Z; st_TransactionId : Z; SizeInSectors : Z; MappedSectors : Z; HighestMappedSector : Z }.

(** ** Assignments *)

Definition with_Devices (d : DeviceSet) (m : gmap string DevInfo) : DeviceSet :=
  {| Devices := m; root := root d; devicePrefix := devicePrefix d; TransactionId := TransactionId d; NewTransactionId := NewTransactionId d; nextDeviceId := nextDeviceId d;
     dataLoopbackSize := dataLoopbackSize d; metaDataLoopbackSize := metaDataLoopbackSize d; baseFsSize := baseFsSize d; filesystem := filesystem d;
     mountOptions := mountOptions d; mkfsArgs := mkfsArgs d; dataDevice := dataDevice d; metadataDevice := metadataDevice d; doBlkDiscard := doBlkDiscard d;
     thinpBlockSize := thinpBlockSize d |}.

Definition with_ids (d : DeviceSet) (tid new next : Z) : DeviceSet :=
  {| Devices := Devices d; root := root d; devicePrefix := devicePrefix d; TransactionId := tid; NewTransactionId := new; nextDeviceId := next;
     dataLoopbackSize := dataLoopbackSize d; metaDataLoopbackSize := metaDataLoopbackSize d; baseFsSize := baseFsSize d; filesystem := filesystem d;
     mountOptions := mountOptions d; mkfsArgs := mkfsArgs d; dataDevice := dataDevice d; metadataDevice := metadataDevice d; doBlkDiscard := doBlkDiscard d;
     thinpBlockSize := thinpBlockSize d |}.

Definition with_prefix (d : DeviceSet) (prefix : string) : DeviceSet :=
  {| Devices := Devices d; root := root d; devicePrefix := prefix; TransactionId := TransactionId d; NewTransactionId := NewTransactionId d; nextDeviceId := nextDeviceId d;
     dataLoopbackSize := dataLoopbackSize d; metaDataLoopbackSize := metaDataLoopbackSize d; baseFsSize := baseFsSize d; filesystem := filesystem d;
     mountOptions := mountOptions d; mkfsArgs := mkfsArgs d; dataDevice := dataDevice d; metadataDevice := metadataDevice d; doBlkDiscard := doBlkDiscard d;
     thinpBlockSize := thinpBlockSize d |}.

(** The options: sizes, then file system, mount options and arguments, then
    devices, discarding and block size. *)
Definition with_options (d : DeviceSet) (data metaData base : Z) (fs mount : string) (mkfs : list string) (datadev metadev : string) (discard : bool) (block : Z) : DeviceSet :=
  {| Devices := Devices d; root := root d; devicePrefix := devicePrefix d; TransactionId := TransactionId d; NewTransactionId := NewTransactionId d; nextDeviceId := nextDeviceId d;
     dataLoopbackSize := data; metaDataLoopbackSize := metaData; baseFsSize := base; filesystem := fs;
     mountOptions := mount; mkfsArgs := mkfs; dataDevice := datadev; metadataDevice := metadev; doBlkDiscard := discard;
     thinpBlockSize := block |}.

Definition put_info (d : DeviceSet) (info : DevInfo) : DeviceSet := with_Devices d (<[Hash info := info]> (Devices d)).
Definition set_tid (d : DeviceSet) (tid : Z) : DeviceSet := with_ids d tid (NewTransactionId d) (nextDeviceId d).
Definition set_new (d : DeviceSet) (new : Z) : DeviceSet := with_ids d (TransactionId d) new (nextDeviceId d).
Definition set_next (d : DeviceSet) (next : Z) : DeviceSet := with_ids d (TransactionId d) (NewTransactionId d) next.

Definition set_Initialized (i : DevInfo) (b : bool) : DevInfo :=
  {| Hash := Hash i; DeviceId := DeviceId i; Size := Size i; info_TransactionId := info_TransactionId i; Initialized := b; mountCount := mountCount i; mountPath := mountPath i |}.
Definition set_mount (i : DevInfo) (count : Z) (path : string) : DevInfo :=
  {| Hash := Hash i; DeviceId := DeviceId i; Size := Size i; info_TransactionId := info_TransactionId i; Initialized := Initialized i; mountCount := count; mountPath := path |}.

(** ** Names *)

Definition getDevName (name : string) : string := "/dev/mapper/" +:+ name.

(** [DevInfo.Name] and [DevName]; the receiver's set is [d]. *)
Definition Name (d : DeviceSet) (info : DevInfo) : string := devicePrefix d +:+ "-" +:+ (if String.eqb (Hash info) "" then "base" else Hash info).
Definition DevName (d : DeviceSet) (info : DevInfo) : string := getDevName (Name d info).

Definition loopbackDir (d : DeviceSet) : string := Join [root d; "devicemapper"].
Definition metadataDir (d : DeviceSet) : string := Join [root d; "metadata"].
Definition metadataFile (d : DeviceSet) (info : DevInfo) : string := Join [metadataDir d; if String.eqb (Hash info) "" then "base" else Hash info].
Definition oldMetadataFile (d : DeviceSet) : string := Join [loopbackDir d; "json"].
Definition getPoolName (d : DeviceSet) : string := devicePrefix d +:+ "-pool".
Definition getPoolDevName (d : DeviceSet) : string := getDevName (getPoolName d).

Definition major (device : Z) : Z := Z.land (Z.shiftr device 8) 4095.
Definition minor (device : Z) : Z := Z.lor (Z.land device 255) (Z.land (Z.shiftr device 12) 1048320).

(** ** The text of a device *)

Definition members_of (i : DevInfo) : list (string * json) :=
  [("device_id", JNumber (itoa (DeviceId i))); ("size", JNumber (itoa (Size i))); ("transaction_id", JNumber (itoa (info_TransactionId i)));
   ("initialized", JBool (Initialized i))].

(** [json.Marshal(info)] *)
Definition Marshal (i : DevInfo) : string := render_object (members_of i).

Definition store_info (i : DevInfo) (k : string) (v : json) : option DevInfo :=
  let put id size tid init :=
    {| Hash := Hash i; DeviceId := id; Size := size; info_TransactionId := tid; Initialized := init; mountCount := mountCount i; mountPath := mountPath i |} in
  if String.eqb k "device_id" then z ← int_value 64 v; Some (put (default (DeviceId i) z) (Size i) (info_TransactionId i) (Initialized i))
  else if String.eqb k "size" then z ← uint_value 64 v; Some (put (DeviceId i) (default (Size i) z) (info_TransactionId i) (Initialized i))
  else if String.eqb k "transaction_id" then z ← uint_value 64 v; Some (put (DeviceId i) (Size i) (default (info_TransactionId i) z) (Initialized i))
  else if String.eqb k "initialized" then b ← bool_value v; Some (put (DeviceId i) (Size i) (info_TransactionId i) (default (Initialized i) b))
  else Some i.

(** [json.Unmarshal(jsonData, &info)]: the pointer is nil after [null]. *)
Definition Unmarshal (text : string) (i : DevInfo) : result string (option DevInfo) :=
  match parse_json text with
  | None => Err "invalid JSON"
  | Some JNull => Ok None
  | Some (JObject l) => match decode_fields store_info l i with (i, true) => Ok (Some i) | (_, false) => Err "cannot unmarshal" end
  | Some _ => Err "cannot unmarshal"
  end.

Definition new_info (hash : string) (id size tid : Z) : DevInfo :=
  {| Hash := hash; DeviceId := id; Size := size; info_TransactionId := tid; Initialized := false; mountCount := 0; mountPath := "" |}.

(** [MetaData] of the old file: a null device is a nil pointer. *)
Definition store_old (m : gmap string (option DevInfo)) (k : string) (v : json) : option (gmap string (option DevInfo)) :=
  if String.eqb k "devices" then
    match v with
    | JNull => Some ∅
    | JObject l =>
        let '(m, good) := foldl (fun '(m, good) '(hash, v) =>
            match v with
            | JNull => (<[hash := None]> m, good)
            | JObject fields => let '(i, g) := decode_fields store_info fields (new_info "" 0 0 0) in (<[hash := Some i]> m, good && g)
            | _ => (m, false)
            end) (m, true) l in
        if good : bool then Some m else None
    | _ => None
    end
  else Some m.

Definition Unmarshal_old (text : string) : result string (gmap string (option DevInfo)) :=
  match parse_json text with
  | None => Err "invalid JSON"
  | Some JNull => Ok ∅
  | Some (JObject l) => match decode_fields store_old l ∅ with (m, true) => Ok m | (_, false) => Err "cannot unmarshal" end
  | Some _ => Err "cannot unmarshal"
  end.

(** ** [fmt.Sscanf] with [%d] into uint64 *)

Inductive verb := VerbD | VerbSpace | VerbChar (c : ascii).

Fixpoint format_verbs (s : string) : list verb :=
  match s with
  | String "%" (String "d" r) => VerbD :: format_verbs r
  | String " " r => VerbSpace :: format_verbs r
  | String c r => VerbChar c :: format_verbs r
  | "" => []
  end.

Definition is_scan_space (c : ascii) : bool := Ascii.eqb c " " || Ascii.eqb c "009" || Ascii.eqb c "011" || Ascii.eqb c "012" || Ascii.eqb c "013".

(** The values that are scanned, and whether no error ended the scan. *)
Fixpoint sscanf (l : list verb) (s : string) : list Z * bool :=
  match l with
  | [] => ([], true)
  | VerbD :: l =>
      match digits1 (trim_left is_scan_space s) with
      | Some (d, rest) => match parse_uint 64 d with Ok z => let '(zs, good) := sscanf l rest in (z :: zs, good) | Err _ => ([], false) end
      | None => ([], false)
      end
  | VerbSpace :: l =>
      match s with
      | "" => sscanf l ""
      | String c r => if is_scan_space c then sscanf l (trim_left is_scan_space r) else ([], false)
      end
  | VerbChar c :: l => match s with String d r => if Ascii.eqb c d then sscanf l r else ([], false) | "" => ([], false) end
  end.

Definition Sscanf (input format : string) : list Z * bool := sscanf (format_verbs format) input.

Example Sscanf_test :
  Sscanf "7 12/34 56/78 - rw" "%d %d/%d %d/%d" = ([7; 12; 34; 56; 78], true) /\ Sscanf "0 -" "%d %d" = ([0], false) /\
  Sscanf "3 4/5" "%d" = ([3], true) /\ Sscanf "18446744073709551616" "%d" = ([], false).
Proof. vm_compute. repeat split. Qed.

Example Marshal_test :
  let q s := String "034" (s +:+ String "034" "") in
  let i := set_Initialized (new_info "" 12 5 7) true in
  Marshal i = "{" +:+ q "device_id" +:+ ":12," +:+ q "size" +:+ ":5," +:+ q "transaction_id" +:+ ":7," +:+ q "initialized" +:+ ":true}" /\
  Unmarshal (Marshal i) (new_info "" 0 0 0) = Ok (Some i) /\ Unmarshal "null" i = Ok None /\ Unmarshal "[]" i = Err "cannot unmarshal" /\
  Unmarshal_old ("{" +:+ q "Devices" +:+ ":{" +:+ q "" +:+ ":" +:+ Marshal i +:+ "," +:+ q "a" +:+ ":null}}") = Ok {["" := Some i; "a" := None]}.
Proof. vm_compute. repeat split. Qed.

Section DeviceSet.
Context {K : Type} `{Host K}.
Abbreviation T := (T K DeviceSet).
(** The orders of maps; what a loop over loop devices and over identifiers
    may need; the mode bit of a device; [label.FormatMountLabel]. *)
Context (range_devices : gmap string DevInfo -> list DevInfo) (range_old : gmap string (option DevInfo) -> list (string * option DevInfo))
  (list_names : gmap string DevInfo -> list string) (fuel : nat) (is_device : Z -> bool) (FormatMountLabel : string -> string -> string).

(** ** Files *)

Definition IsNotExist (e : string) : bool := has_suffix ENOENT e.
Definition IsExist (e : string) : bool := has_suffix EEXIST e.

Definition ReadFile (path : string) : T string :=
  wrap (path_error "open" path) (call (ReadAll path));;
  text ← get_file path;
  match text with Some t => mret t | None => fail (path_error "open" path ENOENT) end.

(** [os.MkdirAll], whose error that the directory exists is no error. *)
Definition MkdirAll (path : string) : T () :=
  r ← attempt (wrap (path_error "mkdir" path) (call (MakeDirs path)));
  match r with Ok _ => mret () | Err e => if IsExist e then mret () else fail e end.

Definition next_suffix (n : Z) : string := drop_str 1 (itoa (1000000000 + n mod 1000000000)).

(** One attempt of [ioutil.TempFile], which does not open a file that exists;
    the number of the call is the random state. *)
Definition open_temp (dir : string) : T (option string) := fun w =>
  let '(k, r) := sys (host w) (OpenTemp dir) in
  match r with
  | Err e => Return (enter k (files w) w, Err (path_error "open" dir e))
  | Ok n =>
      let name := Join [dir; ".tmp" +:+ next_suffix n] in
      match files w !! name with
      | Some _ => Return (enter k (files w) w, Ok None)
      | None => Return (enter k (<[name := ""]> (files w)) w, Ok (Some name))
      end
  end.

Fixpoint TempFile (tries : nat) (dir : string) : T string :=
  match tries with
  | O => fail (path_error "open" dir EEXIST)
  | S tries => name ← open_temp dir; match name with Some name => mret name | None => TempFile tries dir end
  end.

Definition temp_tries : nat := Z.to_nat 10000.

(** The number of bytes that are written; they are the file's content. *)
Definition Write (path data : string) : T Z :=
  wrap (path_error "write" path)
    (file_call (WriteAll path (Z.of_nat (String.length data))) (fun n => <[path := take_str (Z.to_nat n) data]>)).

Definition Rename (old new : string) : T () :=
  wrap (fun e => "rename " +:+ old +:+ " " +:+ new +:+ ": " +:+ e)
    (file_call (RenameFile old new) (fun _ fs => match fs !! old with Some t => <[new := t]> (delete old fs) | None => fs end));;
  mret ().

(** What [os.RemoveAll] leaves. *)
Definition kept_by (path p : string) : bool := negb (String.eqb p path || has_prefix (path +:+ "/") p).
Definition RemoveAll (path : string) : T () :=
  wrap (path_error "remove" path) (file_call (RemoveTree path) (fun _ => filter (fun '(p, _) => kept_by path p = true)));; mret ().

(** ** Metadata *)

Definition allocateTransactionId : T Z :=
  d ← get;
  let new := uint64 (NewTransactionId d + 1) in
  modify (fun d => set_new d new);;
  mret new.

Definition removeMetadata (info : DevInfo) : T () :=
  d ← get;
  wrap (fun e => "Error removing metadata file " +:+ metadataFile d info +:+ ": " +:+ e) (RemoveAll (metadataFile d info)).

Definition saveMetadata (info : DevInfo) : T () :=
  d ← get;
  let jsonData := Marshal info in
  tmpFile ← wrap (fun e => "Error creating metadata file: " +:+ e) (TempFile temp_tries (metadataDir d));
  n ← wrap (fun e => "Error writing metadata to " +:+ tmpFile +:+ ": " +:+ e) (Write tmpFile jsonData);
  if n <? Z.of_nat (String.length jsonData) then fail "short write"
  else
    wrap (fun e => "Error syncing metadata file " +:+ tmpFile +:+ ": " +:+ path_error "fsync" tmpFile e) (call (SyncFile tmpFile));;
    wrap (fun e => "Error closing metadata file " +:+ tmpFile +:+ ": " +:+ path_error "close" tmpFile e) (call (CloseFile tmpFile));;
    wrap (fun e => "Error committing metadata file " +:+ tmpFile +:+ ": " +:+ e) (Rename tmpFile (metadataFile d info));;
    if negb (NewTransactionId d =? TransactionId d) then
      wrap (fun e => "Error setting devmapper transition ID: " +:+ e) (setTransactionId (getPoolDevName d) (TransactionId d) (NewTransactionId d));;
      modify (fun d => set_tid d (NewTransactionId d))
    else mret ().

Definition loadMetadata (hash : string) : T (option DevInfo) :=
  d ← get;
  let info := new_info hash 0 0 0 in
  r ← attempt (ReadFile (metadataFile d info));
  match r with
  | Err _ => mret None
  | Ok jsonData =>
      match Unmarshal jsonData info with
      | Err _ => mret None
      | Ok None => panics
      | Ok (Some info) => mret (if TransactionId d <? info_TransactionId info then None else Some info)
      end
  end.

Definition lookupDevice (hash : string) : T DevInfo :=
  d ← get;
  match Devices d !! hash with
  | Some info => mret info
  | None =>
      info ← loadMetadata hash;
      match info with
      | None => fail ("Unknown device " +:+ hash)
      | Some info => modify (fun d => put_info d info);; mret info
      end
  end.

(** A lookup whose error is dropped. *)
Definition lookup_or_nil (hash : string) : T (option DevInfo) :=
  r ← attempt (lookupDevice hash); mret (match r with Ok info => Some info | Err _ => None end).

Definition delete_info (d : DeviceSet) (hash : string) : DeviceSet := with_Devices d (delete hash (Devices d)).

Definition registerDevice (id : Z) (hash : string) (size : Z) : T DevInfo :=
  tid ← allocateTransactionId;
  let info := new_info hash id size tid in
  modify (fun d => put_info d info);;
  r ← attempt (saveMetadata info);
  match r with
  | Ok _ => mret info
  | Err e => modify (fun d => delete_info d hash);; fail e
  end.

(** The device's place in the device mapper: already there, or made. *)
Definition device_exists (name : string) : T bool :=
  r ← attempt (getInfo name); mret (match r with Ok i => negb (Exists i =? 0) | Err _ => false end).

Definition activateDeviceIfNeeded (info : DevInfo) : T () :=
  d ← get;
  there ← device_exists (Name d info);
  if there : bool then mret () else activateDevice (getPoolDevName d) (Name d info) (DeviceId info) (Size info).

Definition createFilesystem (info : DevInfo) : T () :=
  d ← get;
  let args := mkfsArgs d ++ [DevName d info] in
  if String.eqb (filesystem d) "xfs" then call (RunProgram "mkfs.xfs" args);; mret ()
  else if String.eqb (filesystem d) "ext4" then
    r ← attempt (call (RunProgram "mkfs.ext4" (["-E"; "nodiscard,lazy_itable_init=0,lazy_journal_init=0"] ++ args)));
    match r with
    | Ok _ => mret ()
    | Err _ => call (RunProgram "mkfs.ext4" (["-E"; "nodiscard,lazy_itable_init=0"] ++ args));; mret ()
    end
  else fail ("Unsupported filesystem type " +:+ filesystem d).

(** The devices of the old file, in the order of the map. *)
Fixpoint migrate (l : list (string * option DevInfo)) : T () :=
  match l with
  | [] => mret ()
  | (hash, None) :: _ => panics
  | (hash, Some i) :: l =>
      d ← get;
      let info := {| Hash := hash; DeviceId := DeviceId i; Size := Size i; info_TransactionId := info_TransactionId i; Initialized := Initialized i; mountCount := 0; mountPath := "" |} in
      (if info_TransactionId info <=? TransactionId d then attempt (saveMetadata info);; mret () else mret ());;
      migrate l
  end.

Definition initMetaData : T () :=
  d ← get;
  '(_, _, _, params) ← getStatus (getPoolName d);
  match Sscanf params "%d" with
  | ([tid], true) =>
      modify (fun d => with_ids d tid tid (nextDeviceId d));;
      r ← attempt (ReadFile (oldMetadataFile d));
      match r with
      | Err e => if IsNotExist e then mret () else fail e
      | Ok jsonData =>
          match Unmarshal_old jsonData with
          | Err e => fail e
          | Ok m => migrate (range_old m);; Rename (oldMetadataFile d) (oldMetadataFile d +:+ ".migrated")
          end
      end
  | _ => fail "unexpected pool status"
  end.

(** ** Removal from the device mapper *)

Definition sleep : T () := attempt (call (SleepFor 10));; mret ().

(** The tries of [removeDeviceAndWait]; [last] is the error of the last one. *)
Fixpoint remove_tries (n : nat) (devname : string) (last : option string) : T () :=
  match n with
  | O => match last with Some e => fail e | None => mret () end
  | S n =>
      r ← attempt (removeDevice devname);
      match r with
      | Ok _ => mret ()
      | Err e => if String.eqb e ErrBusy then sleep;; remove_tries n devname (Some e) else fail e
      end
  end.

Fixpoint waitRemove (n : nat) (devname : string) : T () :=
  match n with
  | O => fail ("Timeout while waiting for device " +:+ devname +:+ " to be removed")
  | S n =>
      r ← attempt (getInfo devname);
      match r with
      | Err _ => mret ()
      | Ok devinfo => if Exists devinfo =? 0 then mret () else sleep;; waitRemove n devname
      end
  end.

Definition wait_tries : nat := Z.to_nat 1000.

Definition removeDeviceAndWait (devname : string) : T () :=
  remove_tries wait_tries devname None;;
  waitRemove wait_tries devname.

Fixpoint waitClose (n : nat) (info : DevInfo) : T () :=
  match n with
  | O => fail ("Timeout while waiting for device " +:+ Hash info +:+ " to close")
  | S n =>
      d ← get;
      devinfo ← getInfo (Name d info);
      if OpenCount devinfo =? 0 then mret () else sleep;; waitClose n info
  end.

Definition deactivateDevice (info : DevInfo) : T () :=
  attempt (waitClose wait_tries info);;
  d ← get;
  devinfo ← getInfo (Name d info);
  if Exists devinfo =? 0 then mret () else removeDeviceAndWait (Name d info).

Definition deactivatePool : T () :=
  d ← get;
  devinfo ← getInfo (getPoolDevName d);
  if Exists devinfo =? 0 then mret () else removeDevice (getPoolDevName d).

(** ** Devices: made and deleted *)

(** The method [deleteDevice] of the set. *)
Definition set_deleteDevice (info : DevInfo) : T () :=
  d ← get;
  (if doBlkDiscard d then
     r ← attempt (activateDeviceIfNeeded info);
     match r with Ok _ => attempt (BlockDeviceDiscard (DevName d info));; mret () | Err _ => mret () end
   else mret ());;
  there ← device_exists (Name d info);
  (if there : bool then removeDeviceAndWait (Name d info) else mret ());;
  deleteDevice (getPoolDevName d) (DeviceId info);;
  allocateTransactionId;;
  modify (fun d => delete_info d (Hash info));;
  r ← attempt (removeMetadata info);
  match r with
  | Ok _ => mret ()
  | Err e => modify (fun d => put_info d info);; fail e
  end.

Definition DeleteDevice (hash : string) : T () :=
  info ← lookupDevice hash;
  set_deleteDevice info.

(** The next identifier to try: identifiers have 24 bits. *)
Definition next_id (id : Z) : Z := Z.land (int64 (id + 1)) 16777215.

Definition AddDevice (hash baseHash : string) : T () :=
  baseInfo ← lookupDevice baseHash;
  info ← lookup_or_nil hash;
  match info with
  | Some _ => fail ("device " +:+ hash +:+ " already exists")
  | None =>
      d ← get;
      deviceId ← createSnapDevice fuel (getPoolDevName d) (nextDeviceId d) (Name d baseInfo) (DeviceId baseInfo);
      modify (fun d => set_next d (next_id deviceId));;
      r ← attempt (registerDevice deviceId hash (Size baseInfo));
      match r with
      | Ok _ => mret ()
      | Err e => attempt (deleteDevice (getPoolDevName d) deviceId);; fail e
      end
  end.

Definition setupBaseImage : T () :=
  oldInfo ← lookup_or_nil "";
  if match oldInfo with Some i => Initialized i | None => false end then mret ()
  else
    match oldInfo with Some i => set_deleteDevice i | None => mret () end;;
    d ← get;
    id ← createDevice fuel (getPoolDevName d) (nextDeviceId d);
    modify (fun d => set_next d (next_id id));;
    r ← attempt (registerDevice id "" (baseFsSize d));
    match r with
    | Err e => attempt (deleteDevice (getPoolDevName d) id);; fail e
    | Ok info =>
        activateDeviceIfNeeded info;;
        createFilesystem info;;
        modify (fun d => put_info d (set_Initialized info true));;
        r ← attempt (saveMetadata (set_Initialized info true));
        match r with
        | Ok _ => mret ()
        | Err e => modify (fun d => put_info d (set_Initialized info false));; fail e
        end
    end.

(** ** Mounts *)

Definition MS_MGC_VAL : Z := 3236757504.
Definition MNT_DETACH : Z := 2.

Definition MountDevice (hash path mountLabel : string) : T () :=
  info ← lookupDevice hash;
  if 0 <? mountCount info then
    if negb (String.eqb path (mountPath info))
    then fail ("Trying to mount devmapper device in multple places (" +:+ mountPath info +:+ ", " +:+ path +:+ ")")
    else modify (fun d => put_info d (set_mount info (int64 (mountCount info + 1)) (mountPath info)))
  else
    wrap (fun e => "Error activating devmapper device for '" +:+ hash +:+ "': " +:+ e) (activateDeviceIfNeeded info);;
    d ← get;
    fstype ← ProbeFsType (DevName d info);
    let options := if String.eqb fstype "xfs" then joinMountOptions "" "nouuid" else "" in
    let options := joinMountOptions options (mountOptions d) in
    let options := joinMountOptions options (FormatMountLabel "" mountLabel) in
    r ← attempt (call (MountFs (DevName d info) path fstype MS_MGC_VAL (joinMountOptions "discard" options)));
    r ← match r with
        | Err e => if String.eqb e EINVAL then attempt (call (MountFs (DevName d info) path fstype MS_MGC_VAL options)) else mret (Err e)
        | Ok n => mret (Ok n)
        end;
    match r with
    | Err e => fail ("Error mounting '" +:+ DevName d info +:+ "' on '" +:+ path +:+ "': " +:+ e)
    | Ok _ => modify (fun d => put_info d (set_mount info 1 path))
    end.

Definition UnmountDevice (hash : string) : T () :=
  info ← lookupDevice hash;
  if mountCount info =? 0 then fail ("UnmountDevice: device not-mounted id " +:+ hash +:+ String "010" "")
  else
    let info := set_mount info (mountCount info - 1) (mountPath info) in
    modify (fun d => put_info d info);;
    if 0 <? mountCount info then mret ()
    else
      call (UnmountFs (mountPath info) 0);;
      deactivateDevice info;;
      modify (fun d => put_info d (set_mount info (mountCount info) "")).

Definition HasDevice (hash : string) : T bool :=
  info ← lookup_or_nil hash; mret (match info with Some _ => true | None => false end).

Definition HasActivatedDevice (hash : string) : T bool :=
  info ← lookup_or_nil hash;
  match info with
  | None => mret false
  | Some info => d ← get; device_exists (Name d info)
  end.

Definition List : T (list string) := d ← get; mret (list_names (Devices d)).

(** The devices one after the other; errors are only logged. *)
Fixpoint shutdown_devices (devs : list DevInfo) : T () :=
  match devs with
  | [] => mret ()
  | info :: devs =>
      (if 0 <? mountCount info then
         attempt (call (UnmountFs (mountPath info) MNT_DETACH));;
         attempt (deactivateDevice info);;
         mret ()
       else mret ());;
      shutdown_devices devs
  end.

Definition Shutdown : T () :=
  d ← get;
  shutdown_devices (range_devices (Devices d));;
  info ← lookup_or_nil "";
  match info with Some info => attempt (deactivateDevice info);; mret () | None => mret () end;;
  attempt deactivatePool;;
  mret ().

(** ** What the devices hold *)

Definition deviceStatus (devName : string) : T (Z * Z * Z) :=
  '(_, sizeInSectors, _, params) ← getStatus devName;
  match Sscanf params "%d %d" with
  | ([mapped; highest], true) => mret (sizeInSectors, mapped, highest)
  | _ => fail "unexpected status"
  end.

Definition GetDeviceStatus (hash : string) : T DevStatus :=
  info ← lookupDevice hash;
  wrap (fun e => "Error activating devmapper device for '" +:+ hash +:+ "': " +:+ e) (activateDeviceIfNeeded info);;
  d ← get;
  '(size, mapped, highest) ← deviceStatus (DevName d info);
  mret {| st_DeviceId := DeviceId info; st_Size := Size info; st_TransactionId := info_TransactionId info;
          SizeInSectors := size; MappedSectors := mapped; HighestMappedSector := highest |}.

(** Total, transaction, data used and total, metadata used and total. *)
Definition poolStatus : T (Z * Z * Z * Z * Z * Z) :=
  d ← get;
  '(_, total, _, params) ← getStatus (getPoolName d);
  match Sscanf params "%d %d/%d %d/%d" with
  | ([tid; metadataUsed; metadataTotal; dataUsed; dataTotal], true) => mret (total, tid, dataUsed, dataTotal, metadataUsed, metadataTotal)
  | _ => fail "unexpected pool status"
  end.

(** The method [Status]; a division by zero is a panic. *)
Definition set_Status : T Status :=
  d ← get;
  r ← attempt poolStatus;
  let status data metadata sector :=
    {| PoolName := getPoolName d; DataLoopback := Join [loopbackDir d; "data"]; MetadataLoopback := Join [loopbackDir d; "metadata"];
       Data := data; Metadata := metadata; SectorSize := sector |} in
  match r with
  | Err _ => mret (status {| Used := 0; Total := 0 |} {| Used := 0; Total := 0 |} 0)
  | Ok (total, _, dataUsed, dataTotal, metadataUsed, metadataTotal) =>
      if dataTotal =? 0 then panics
      else
        let block := total / dataTotal in
        mret (status {| Used := uint64 (dataUsed * block * 512); Total := uint64 (dataTotal * block * 512) |}
                     {| Used := uint64 (metadataUsed * 4096); Total := uint64 (metadataTotal * 4096) |} (uint64 (block * 512)))
  end.

(** ** The pool *)

Definition hasImage (name : string) : T bool :=
  d ← get;
  r ← attempt (call (Stat (Join [loopbackDir d; name])));
  mret (is_ok r).

Definition ensureImage (name : string) (size : Z) : T string :=
  d ← get;
  let dirname := loopbackDir d in
  let filename := Join [dirname; name] in
  MkdirAll dirname;;
  r ← attempt (wrap (path_error "stat" filename) (call (Stat filename)));
  match r with
  | Ok _ => mret filename
  | Err e =>
      if negb (IsNotExist e) then fail e
      else
        open_path filename;;
        wrap (path_error "truncate" filename) (call (TruncatePath filename size));;
        mret filename
  end.

Definition ResizePool (size : Z) : T () :=
  d ← get;
  let datafilename := Join [loopbackDir d; "data"] in
  let metadatafilename := Join [loopbackDir d; "metadata"] in
  open_path datafilename;;
  current ← wrap (path_error "stat" datafilename) (call (StatSize datafilename));
  if size <? current then fail "Can't shrink file"
  else
    dataloopback ← FindLoopDeviceFor fuel datafilename;
    match dataloopback with
    | None => fail ("Unable to find loopback mount for: " +:+ datafilename)
    | Some dataloopback =>
        open_path metadatafilename;;
        metadataloopback ← FindLoopDeviceFor fuel metadatafilename;
        match metadataloopback with
        | None => fail ("Unable to find loopback mount for: " +:+ metadatafilename)
        | Some metadataloopback =>
            wrap (fun e => "Unable to grow loopback file: " +:+ path_error "truncate" datafilename e) (call (TruncatePath datafilename size));;
            wrap (fun e => "Unable to update loopback capacity: " +:+ e) (LoopbackSetCapacity dataloopback);;
            wrap (fun e => "Unable to suspend pool: " +:+ e) (suspendDevice (getPoolName d));;
            wrap (fun e => "Unable to reload pool: " +:+ e) (reloadPool (getPoolName d) dataloopback metadataloopback (thinpBlockSize d));;
            wrap (fun e => "Unable to resume pool: " +:+ e) (resumeDevice (getPoolName d))
        end
    end.

(** The data or the metadata of the pool: a device that is named, or a file
    in a loop device; whether the file is new. *)
Definition pool_file (doInit : bool) (device name missing : string) (size : Z) : T (string * bool) :=
  if String.eqb device "" then
    there ← hasImage name;
    if negb doInit && negb there then fail missing
    else
      data ← ensureImage name size;
      file ← attachLoopDevice fuel is_device data;
      mret (file, negb there)
  else open_path device;; mret (device, false).

Definition initDevmapper (doInit : bool) : T () :=
  wrap (fun _ => "driver not supported") getDriverVersion;;
  d ← get;
  MkdirAll (metadataDir d);;
  dev ← wrap (fun e => "Error looking up dir " +:+ root d +:+ ": " +:+ path_error "stat" (root d) e) (call (StatDev (root d)));
  ino ← wrap (fun e => "Error looking up dir " +:+ root d +:+ ": " +:+ path_error "stat" (root d) e) (call (StatIno (root d)));
  modify (fun d => with_prefix d ("docker-" +:+ itoa (major dev) +:+ ":" +:+ itoa (minor dev) +:+ "-" +:+ itoa ino));;
  d ← get;
  info ← getInfo (getPoolName d);
  createdLoopback ←
    (if Exists info =? 0 then
       '(dataFile, newData) ← pool_file doInit (dataDevice d) "data" "Loopback data file not found" (dataLoopbackSize d);
       '(metadataFile, newMetadata) ← pool_file doInit (metadataDevice d) "metadata" "Loopback metadata file not found" (metaDataLoopbackSize d);
       createPool (getPoolName d) dataFile metadataFile (thinpBlockSize d);;
       mret (newData || newMetadata)
     else mret false);
  (if createdLoopback : bool then mret () else initMetaData);;
  if doInit then setupBaseImage else mret ().

(** ** Options *)

Definition initial_set (rootdir : string) : DeviceSet :=
  {| Devices := ∅; root := rootdir; devicePrefix := ""; TransactionId := 0; NewTransactionId := 0; nextDeviceId := 0;
     dataLoopbackSize := 100 * 1024 * 1024 * 1024; metaDataLoopbackSize := 2 * 1024 * 1024 * 1024; baseFsSize := 10 * 1024 * 1024 * 1024;
     filesystem := "ext4"; mountOptions := ""; mkfsArgs := []; dataDevice := ""; metadataDevice := ""; doBlkDiscard := true; thinpBlockSize := 128 |}.

Definition parse_bool_error (val : string) : string :=
  "strconv.ParseBool: parsing " +:+ String "034" (val +:+ String "034" ": invalid syntax").

(** One option, and whether [dm.blkdiscard] was given. *)
Definition set_option '((d, found) : DeviceSet * bool) (option : string) : result string (DeviceSet * bool) :=
  '(key, val) ← ParseKeyValueOpt option;
  let key := to_lower key in
  let upd data metaData base fs mount mkfs datadev metadev discard block := with_options d data metaData base fs mount mkfs datadev metadev discard block in
  if String.eqb key "dm.basesize" then
    size ← RAMInBytes val;
    Ok (upd (dataLoopbackSize d) (metaDataLoopbackSize d) (uint64 size) (filesystem d) (mountOptions d) (mkfsArgs d) (dataDevice d) (metadataDevice d) (doBlkDiscard d) (thinpBlockSize d), found)
  else if String.eqb key "dm.loopdatasize" then
    size ← RAMInBytes val;
    Ok (upd size (metaDataLoopbackSize d) (baseFsSize d) (filesystem d) (mountOptions d) (mkfsArgs d) (dataDevice d) (metadataDevice d) (doBlkDiscard d) (thinpBlockSize d), found)
  else if String.eqb key "dm.loopmetadatasize" then
    size ← RAMInBytes val;
    Ok (upd (dataLoopbackSize d) size (baseFsSize d) (filesystem d) (mountOptions d) (mkfsArgs d) (dataDevice d) (metadataDevice d) (doBlkDiscard d) (thinpBlockSize d), found)
  else if String.eqb key "dm.fs" then
    if negb (String.eqb val "ext4") && negb (String.eqb val "xfs") then Err ("Unsupported filesystem " +:+ val +:+ String "010" "")
    else Ok (upd (dataLoopbackSize d) (metaDataLoopbackSize d) (baseFsSize d) val (mountOptions d) (mkfsArgs d) (dataDevice d) (metadataDevice d) (doBlkDiscard d) (thinpBlockSize d), found)
  else if String.eqb key "dm.mkfsarg" then
    Ok (upd (dataLoopbackSize d) (metaDataLoopbackSize d) (baseFsSize d) (filesystem d) (mountOptions d) (mkfsArgs d ++ [val]) (dataDevice d) (metadataDevice d) (doBlkDiscard d) (thinpBlockSize d), found)
  else if String.eqb key "dm.mountopt" then
    Ok (upd (dataLoopbackSize d) (metaDataLoopbackSize d) (baseFsSize d) (filesystem d) (joinMountOptions (mountOptions d) val) (mkfsArgs d) (dataDevice d) (metadataDevice d) (doBlkDiscard d) (thinpBlockSize d), found)
  else if String.eqb key "dm.metadatadev" then
    Ok (upd (dataLoopbackSize d) (metaDataLoopbackSize d) (baseFsSize d) (filesystem d) (mountOptions d) (mkfsArgs d) (dataDevice d) val (doBlkDiscard d) (thinpBlockSize d), found)
  else if String.eqb key "dm.datadev" then
    Ok (upd (dataLoopbackSize d) (metaDataLoopbackSize d) (baseFsSize d) (filesystem d) (mountOptions d) (mkfsArgs d) val (metadataDevice d) (doBlkDiscard d) (thinpBlockSize d), found)
  else if String.eqb key "dm.blkdiscard" then
    match ParseBool val with
    | None => Err (parse_bool_error val)
    | Some b => Ok (upd (dataLoopbackSize d) (metaDataLoopbackSize d) (baseFsSize d) (filesystem d) (mountOptions d) (mkfsArgs d) (dataDevice d) (metadataDevice d) b (thinpBlockSize d), true)
    end
  else if String.eqb key "dm.blocksize" then
    size ← RAMInBytes val;
    Ok (upd (dataLoopbackSize d) (metaDataLoopbackSize d) (baseFsSize d) (filesystem d) (mountOptions d) (mkfsArgs d) (dataDevice d) (metadataDevice d) (doBlkDiscard d) (Z.shiftr (uint32 size) 9), found)
  else Err ("Unknown option " +:+ key +:+ String "010" "").

(** The set the options describe, before the device mapper is asked. *)
Definition configure (rootdir : string) (options : list string) : result string DeviceSet :=
  '(d, found) ← result_foldl set_option (initial_set rootdir, false) options;
  Ok (if negb found && negb (String.eqb (dataDevice d) "")
      then with_options d (dataLoopbackSize d) (metaDataLoopbackSize d) (baseFsSize d) (filesystem d) (mountOptions d) (mkfsArgs d) (dataDevice d) (metadataDevice d) false (thinpBlockSize d)
      else d).

(** The memory of the computation is the new set; the caller's is gone. *)
Definition NewDeviceSet (rootdir : string) (doInit : bool) (options : list string) : T () :=
  attempt (call (SetDevDir "/dev"));;
  match configure rootdir options with
  | Err e => fail e
  | Ok d => modify (fun _ => d);; initDevmapper doInit
  end.

(** ** driver.go *)

Section Driver.
Context (home : string).

Definition driver_Create (id parent : string) : T () := AddDevice id parent.

Definition driver_Exists (id : string) : T bool := HasDevice id.

Definition driver_Remove (id : string) : T () :=
  there ← HasDevice id;
  if negb there then mret ()
  else
    DeleteDevice id;;
    let mp := Join [home; "mnt"; id] in
    r ← attempt (RemoveAll mp);
    match r with Ok _ => mret () | Err e => if IsNotExist e then mret () else fail e end.

Definition driver_Put (id : string) : T () := attempt (UnmountDevice id);; mret ().

(** What follows the mount: an error unmounts the device again. *)
Definition or_unmount {A} (id : string) (m : T A) : T A :=
  r ← attempt m;
  match r with Ok a => mret a | Err e => attempt (UnmountDevice id);; fail e end.

Definition driver_Get (id mountLabel : string) : T string :=
  let mp := Join [home; "mnt"; id] in
  MkdirAll mp;;
  MountDevice id mp mountLabel;;
  let rootFs := Join [mp; "rootfs"] in
  or_unmount id (MkdirAll rootFs);;
  let idFile := Join [mp; "id"] in
  r ← attempt (call (Stat idFile));
  match r with
  | Err e => if IsNotExist e then or_unmount id (call (WriteFileAt idFile id));; mret () else mret ()
  | Ok _ => mret ()
  end;;
  mret rootFs.

End Driver.

End DeviceSet.
