(* ===== verification/Devices.v ===== *)
(** * The devices: what the operations keep and what a crash leaves

    [PoolLaws] says what the thin pool does with the four messages of the
    driver; everything else leaves the pool as it is, and any call may fail.
    [wp w m C Q] is the total correctness of a computation: [m] returns from
    [w], what it returns satisfies [Q], and every state the machine went
    through satisfies the crash condition [C]. *)

From stdpp Require Import base gmap list strings.
From Stdlib Require Import ZArith Lia Ascii.
From S2P Require Import Prelude GoStrings GoPath Utf8 GoJSON JSONValues Devmapper DeviceSet.

Local Open Scope Z_scope.

(** What outlives the daemon: the pool's devices and transaction, and the
    metadata files, temporary ones aside.  A device of the pool is an
    identifier, with the one of the device whose snapshot it is. *)
Record View := { v_thin : gmap Z (option Z); v_tx : Z; v_meta : gmap string string }.

Abbreviation v_ids v := (dom (D := gset Z) (v_thin v)).

Definition pool_task (pool m : string) : Task := {| task_type := DeviceTargetMsg; task_sets := [SetName pool; SetSector 0; SetMessage m] |}.

(** The thin pool [pool], as the kernel's documentation of thin provisioning
    has it: identifiers have 24 bits; [create_thin] makes an empty device and
    [create_snap] a snapshot of the device [base] under an identifier that is
    free, and both complain of one that exists; [delete] frees an identifier;
    [set_transaction_id] swaps the transaction; nothing else changes them. *)
Class PoolLaws (K : Type) `{Host K} (pool : string) := {
  pool_thin : K -> gmap Z (option Z);
  pool_tx : K -> Z;
  law_bits k id : is_Some (pool_thin k !! id) -> 0 <= id < 16777216;
  law_create k id k' ok lines : task_run k (pool_task pool ("create_thin " +:+ itoa id)) = (k', ok, lines) ->
    pool_tx k' = pool_tx k /\
    (if ok : bool then pool_thin k !! id = None /\ pool_thin k' = <[id := None]> (pool_thin k)
     else pool_thin k' = pool_thin k /\ (saw "File exists" lines = true -> is_Some (pool_thin k !! id)));
  law_snap k id base k' ok lines : task_run k (pool_task pool ("create_snap " +:+ itoa id +:+ " " +:+ itoa base)) = (k', ok, lines) ->
    pool_tx k' = pool_tx k /\
    (if ok : bool then pool_thin k !! id = None /\ is_Some (pool_thin k !! base) /\ pool_thin k' = <[id := Some base]> (pool_thin k)
     else pool_thin k' = pool_thin k /\ (saw "File exists" lines = true -> is_Some (pool_thin k !! id)));
  law_delete k id k' ok lines : task_run k (pool_task pool ("delete " +:+ itoa id)) = (k', ok, lines) ->
    pool_tx k' = pool_tx k /\ pool_thin k' = if ok : bool then delete id (pool_thin k) else pool_thin k;
  law_tx k old new k' ok lines : task_run k (pool_task pool ("set_transaction_id " +:+ itoa old +:+ " " +:+ itoa new)) = (k', ok, lines) ->
    pool_thin k' = pool_thin k /\ (if ok : bool then pool_tx k = old /\ pool_tx k' = new else pool_tx k' = pool_tx k);
  law_task k t k' ok lines : task_type t <> DeviceTargetMsg -> task_run k t = (k', ok, lines) -> pool_thin k' = pool_thin k /\ pool_tx k' = pool_tx k;
  law_wait k t : pool_thin (udev_wait k t) = pool_thin k /\ pool_tx (udev_wait k t) = pool_tx k;
  law_sys k c k' r : sys k c = (k', r) -> pool_thin k' = pool_thin k /\ pool_tx k' = pool_tx k;
}.

Abbreviation pool_ids k := (dom (D := gset Z) (pool_thin k)).

Section Devices.
(** The directory of the driver, and the pool. *)
Context (Root : list string) (Root_plain : plain Root) (prefix : string).

Definition meta_dir : string := abs_path (Root ++ ["metadata"]).
Definition pool : string := getDevName (prefix +:+ "-pool").

Context {K : Type} `{PoolLaws K pool}.
Abbreviation W := (World K DeviceSet).
Abbreviation T := (T K DeviceSet).

Definition not_temp (p : string) : bool := negb (has_prefix (meta_dir +:+ "/.tmp") p).
Definition meta (fs : gmap string string) : gmap string string := filter (fun '(p, _) => not_temp p = true) fs.

Definition view_of (k : K) (fs : gmap string string) : View := {| v_thin := pool_thin k; v_tx := pool_tx k; v_meta := meta fs |}.
Definition view (w : W) : View := view_of (host w) (files w).

(** ** Computations *)

Definition wp {A} (w : W) (m : T A) (C : View -> Prop) (Q : W -> result string A -> Prop) : Prop :=
  exists w' r ext, m w = Return (w', r) /\ Q w' r /\ past w' = past w ++ ext /\ Forall (fun '(k, fs) => C (view_of k fs)) ext.

Lemma wp_mono {A} w (m : T A) (C C' : View -> Prop) (Q Q' : W -> result string A -> Prop) :
  (forall v, C v -> C' v) -> (forall w' r, Q w' r -> Q' w' r) -> wp w m C Q -> wp w m C' Q'.
Proof.
  intros HC HQ (w' & r & ext & E & Hq & Hp & Hc). exists w', r, ext. split_and!; [done|by apply HQ|done|].
  eapply Forall_impl; [exact Hc|]. intros [k fs]. apply HC.
Qed.

Lemma wp_post {A} w (m : T A) C (Q Q' : W -> result string A -> Prop) : wp w m C Q -> (forall w' r, Q w' r -> Q' w' r) -> wp w m C Q'.
Proof. intros Hm HQ. by eapply wp_mono. Qed.

Lemma wp_ret {A} w (a : A) C (Q : W -> result string A -> Prop) : Q w (Ok a) -> wp w (mret a) C Q.
Proof. intros HQ. exists w, (Ok a), []. rewrite app_nil_r. by split_and!. Qed.

Lemma wp_fail {A} w e C (Q : W -> result string A -> Prop) : Q w (Err e) -> wp w (fail e) C Q.
Proof. intros HQ. exists w, (Err e), []. rewrite app_nil_r. by split_and!. Qed.

Lemma wp_bind {A B} w (m : T A) (f : A -> T B) C Q :
  wp w m C (fun w' r => match r with Ok a => wp w' (f a) C Q | Err e => Q w' (Err e) end) -> wp w (m ≫= f) C Q.
Proof.
  intros (w1 & [a|e] & ext & E & Hq & Hp & Hc).
  - destruct Hq as (w2 & r & ext' & E' & Hq & Hp' & Hc'). exists w2, r, (ext ++ ext'). split_and!; [|done| |].
    + unfold mbind, T_bind. by rewrite E.
    + by rewrite Hp', Hp, <- app_assoc.
    + by apply Forall_app.
  - exists w1, (Err e), ext. split_and!; [|done..]. unfold mbind, T_bind. by rewrite E.
Qed.

Lemma wp_attempt {A} w (m : T A) C Q : wp w m C (fun w' r => Q w' (Ok r)) -> wp w (attempt m) C Q.
Proof. intros (w' & r & ext & E & Hq & Hp & Hc). exists w', (Ok r), ext. split_and!; [|done..]. unfold attempt. by rewrite E. Qed.

Lemma wp_wrap {A} w f (m : T A) C Q : wp w m C (fun w' r => Q w' (match r with Err e => Err (f e) | Ok a => Ok a end)) -> wp w (wrap f m) C Q.
Proof. intros (w' & r & ext & E & Hq & Hp & Hc). eexists w', _, ext. split_and!; [|done..]. unfold wrap. by rewrite E. Qed.

Lemma wp_get w C (Q : W -> result string DeviceSet -> Prop) : Q w (Ok (mem w)) -> wp w get C Q.
Proof. intros HQ. exists w, (Ok (mem w)), []. rewrite app_nil_r. by split_and!. Qed.

Definition with_mem (w : W) (d : DeviceSet) : W := {| host := host w; files := files w; past := past w; mem := d |}.

Lemma wp_modify w f C (Q : W -> result string () -> Prop) : Q (with_mem w (f (mem w))) (Ok ()) -> wp w (modify f) C Q.
Proof. intros HQ. eexists _, (Ok ()), []. rewrite app_nil_r. by split_and!. Qed.

Lemma wp_ask {A} w (f : K -> result string A) C (Q : W -> result string A -> Prop) : Q w (f (host w)) -> wp w (ask f) C Q.
Proof. intros HQ. eexists w, _, []. rewrite app_nil_r. by split_and!. Qed.

Lemma wp_get_file w p C (Q : W -> result string (option string) -> Prop) : Q w (Ok (files w !! p)) -> wp w (get_file p) C Q.
Proof. intros HQ. eexists w, _, []. rewrite app_nil_r. by split_and!. Qed.

Lemma wp_enter {A} w k fs (r : result string A) (m : T A) C (Q : W -> result string A -> Prop) :
  m w = Return (enter k fs w, r) -> C (view_of k fs) -> Q (enter k fs w) r -> wp w m C Q.
Proof. intros E HC HQ. exists (enter k fs w), r, [(k, fs)]. split_and!; [done..|]. by constructor. Qed.

(** ** What changes nothing that lasts *)

Definition still (w w' : W) : Prop := view w' = view w /\ files w' = files w /\ mem w' = mem w.

Lemma still_refl w : still w w.
Proof. by split_and!. Qed.

Lemma still_trans w1 w2 w3 : still w1 w2 -> still w2 w3 -> still w1 w3.
Proof. intros (V & F & M) (V' & F' & M'). split_and!; congruence. Qed.

Lemma still_enter w k : pool_thin k = pool_thin (host w) /\ pool_tx k = pool_tx (host w) -> still w (enter k (files w) w).
Proof. intros [Hi Ht]. split_and!; [|done..]. unfold view, view_of. cbn. by rewrite Hi, Ht. Qed.

(** A computation that may only talk to the host; [R] holds for its value. *)
Definition quiet {A} (m : T A) (R : A -> Prop) : Prop := forall w (C : View -> Prop), C (view w) -> wp w m C (fun w' r => still w w' /\ forall a, r = Ok a -> R a).

Lemma quiet_wp {A} (m : T A) R w (C : View -> Prop) (Q : W -> result string A -> Prop) :
  quiet m R -> C (view w) -> (forall w' r, still w w' -> (forall a, r = Ok a -> R a) -> Q w' r) -> wp w m C Q.
Proof. intros Hm HC HQ. eapply wp_post; [by apply Hm|]. intros w' r [Hs Hr]. by apply HQ. Qed.

Lemma quiet_ret {A} (a : A) (R : A -> Prop) : R a -> quiet (mret a) R.
Proof. intros Ha w C HC. apply wp_ret. split; [apply still_refl|]. by intros ? [= <-]. Qed.

Lemma quiet_fail {A} e (R : A -> Prop) : quiet (fail e) R.
Proof. intros w C HC. apply wp_fail. split; [apply still_refl|done]. Qed.

Lemma quiet_bind {A B} (m : T A) (f : A -> T B) (R : A -> Prop) (R' : B -> Prop) : quiet m R -> (forall a, R a -> quiet (f a) R') -> quiet (m ≫= f) R'.
Proof.
  intros Hm Hf w C HC. apply wp_bind. eapply quiet_wp; [done|done|]. intros w' [a|e] Hs HR; [|by split].
  eapply quiet_wp; [by apply Hf, HR| |].
  - by destruct Hs as (-> & _).
  - intros w2 r Hs2 Hr. split; [by eapply still_trans|done].
Qed.

Lemma quiet_weaken {A} (m : T A) (R R' : A -> Prop) : quiet m R -> (forall a, R a -> R' a) -> quiet m R'.
Proof. intros Hm HR w C HC. eapply quiet_wp; [done..|]. intros w' r Hs Hr. split; [done|]. intros a ->. by apply HR, Hr. Qed.

Lemma quiet_attempt {A} (m : T A) R : quiet m R -> quiet (attempt m) (fun r => forall a, r = Ok a -> R a).
Proof. intros Hm w C HC. apply wp_attempt. eapply quiet_wp; [done..|]. intros w' r Hs Hr. split; [done|]. by intros ? [= <-]. Qed.

Lemma quiet_wrap {A} f (m : T A) R : quiet m R -> quiet (wrap f m) R.
Proof. intros Hm w C HC. apply wp_wrap. eapply quiet_wp; [done..|]. intros w' r Hs Hr. split; [done|]. intros a E. destruct r; [by apply Hr|done]. Qed.

Lemma quiet_get : quiet get (fun _ => True).
Proof. intros w C HC. apply wp_get. split; [apply still_refl|done]. Qed.

Lemma quiet_ask {A} (f : K -> result string A) (R : A -> Prop) : (forall k a, f k = Ok a -> R a) -> quiet (ask f) R.
Proof. intros Hf w C HC. apply wp_ask. split; [apply still_refl|]. intros a E. by eapply Hf. Qed.

Lemma quiet_get_file p : quiet (get_file p) (fun _ => True).
Proof. intros w C HC. apply wp_get_file. split; [apply still_refl|done]. Qed.

Lemma quiet_enter {A} (m : T A) (f : W -> K) (g : W -> result string A) :
  (forall w, m w = Return (enter (f w) (files w) w, g w)) -> (forall w, pool_thin (f w) = pool_thin (host w) /\ pool_tx (f w) = pool_tx (host w)) -> quiet m (fun _ => True).
Proof.
  intros E Hf w C HC. pose proof (still_enter w (f w) (Hf w)) as Hs. eapply wp_enter; [apply E| |by split].
  destruct Hs as (Hv & _). by rewrite <- Hv in HC.
Qed.

Lemma quiet_call c : quiet (call c) (fun _ => True).
Proof.
  apply (quiet_enter _ (fun w => fst (sys (host w) c)) (fun w => snd (sys (host w) c))); intros w.
  - unfold call. by destruct (sys (host w) c).
  - destruct (sys (host w) c) eqn:E. by eapply law_sys.
Qed.

Lemma quiet_run_task t : task_type t <> DeviceTargetMsg -> quiet (run_task t) (fun _ => True).
Proof.
  intros Ht. apply (quiet_enter _ (fun w => (task_run (host w) t).1.1) (fun w => Ok ((task_run (host w) t).1.2, (task_run (host w) t).2))); intros w.
  - unfold run_task. by destruct (task_run (host w) t) as [[k ok] l].
  - destruct (task_run (host w) t) as [[k ok] l] eqn:E. by eapply law_task.
Qed.

Lemma quiet_UdevWait t : quiet (UdevWait t) (fun _ => True).
Proof. apply (quiet_enter _ (fun w => udev_wait (host w) t) (fun w => Ok ())); intros w; [done|]. apply law_wait. Qed.

(** ** The calls of the device mapper *)

Abbreviation silent m := (quiet m (fun _ => True)).

Lemma silent_bind {A B} (m : T A) (f : A -> T B) (R : A -> Prop) : quiet m R -> (forall a, R a -> silent (f a)) -> silent (m ≫= f).
Proof. apply quiet_bind. Qed.

Lemma silent_seq {A B} (m : T A) (f : A -> T B) : silent m -> (forall a, silent (f a)) -> silent (m ≫= f).
Proof. intros Hm Hf. eapply quiet_bind; [exact Hm|]. auto. Qed.

Lemma silent_of {A} (m : T A) R : quiet m R -> silent m.
Proof. intros Hm. by eapply quiet_weaken. Qed.

Lemma silent_attempt {A} (m : T A) : silent m -> silent (attempt m).
Proof. intros Hm. eapply silent_of. by apply quiet_attempt. Qed.

Lemma quiet_TaskCreate t e : quiet (TaskCreate t e) (fun task => task = {| task_type := t; task_sets := [] |}).
Proof. apply quiet_ask. intros k a E. destruct (task_create k t); [by injection E|done]. Qed.

Lemma quiet_set_task t s e : quiet (set_task t s e) (fun t' => t' = {| task_type := task_type t; task_sets := task_sets t ++ [s] |}).
Proof. apply quiet_ask. intros k a E. destruct (task_set k t s); [by injection E|done]. Qed.

Lemma quiet_createTask t name : quiet (createTask t name) (fun task => task = {| task_type := t; task_sets := [SetName name] |}).
Proof. eapply quiet_bind; [apply quiet_TaskCreate|]. intros task ->. eapply quiet_weaken; [apply quiet_set_task|]. by intros a ->. Qed.

Lemma quiet_message_task name m : quiet (message_task name m) (fun task => task = pool_task name m).
Proof.
  eapply quiet_bind; [apply quiet_createTask|]. intros task ->. eapply quiet_bind; [apply quiet_wrap, quiet_set_task|]. intros t2 ->.
  eapply quiet_weaken; [apply quiet_wrap, quiet_set_task|]. by intros a ->.
Qed.

Lemma silent_Run t : task_type t <> DeviceTargetMsg -> silent (Run t).
Proof. intros Ht. eapply silent_bind; [by apply quiet_run_task|]. intros [[] ?] _; [by apply quiet_ret|apply quiet_fail]. Qed.

Lemma silent_GetInfo t : silent (GetInfo t).
Proof. by apply quiet_ask. Qed.

(** One step of a computation whose tasks are no messages. *)
Ltac silent_step :=
  first
  [ progress cbv beta iota
  | match goal with
    | |- silent (mret _) => by apply quiet_ret
    | |- silent (fail _) => apply quiet_fail
    | |- silent (call _) => apply quiet_call
    | |- silent get => apply quiet_get
    | |- silent (get_file _) => apply quiet_get_file
    | |- silent (ask _) => by apply quiet_ask
    | |- silent (UdevWait _) => apply quiet_UdevWait
    | |- silent (GetInfo _) => apply silent_GetInfo
    | |- silent (Run _) => apply silent_Run; cbn; congruence
    | |- silent (run_task _) => apply quiet_run_task; cbn; congruence
    | |- silent (wrap _ _) => apply quiet_wrap
    | |- silent (attempt _) => apply silent_attempt
    | |- silent (createTask _ _ ≫= _) => eapply silent_bind; [apply quiet_createTask|intros ? ->]
    | |- silent (TaskCreate _ _ ≫= _) => eapply silent_bind; [apply quiet_TaskCreate|intros ? ->]
    | |- silent (set_task _ _ _ ≫= _) => eapply silent_bind; [apply quiet_set_task|intros ? ->]
    | |- silent (wrap _ (set_task _ _ _) ≫= _) => eapply silent_bind; [apply quiet_wrap, quiet_set_task|intros ? ->]
    | |- silent (_ ≫= _) => apply silent_seq; [|intros ?]
    | |- silent (match ?x with _ => _ end) => destruct x
    end
  | by eauto with quiet ].

Ltac silent_auto := repeat silent_step.

Create HintDb quiet discriminated.

Lemma silent_getInfo name : silent (getInfo name).
Proof. unfold getInfo. silent_auto. Qed.
#[local] Hint Resolve silent_getInfo : quiet.

Lemma silent_getStatus name : silent (getStatus name).
Proof. unfold getStatus. silent_auto. Qed.

Lemma silent_suspend name : silent (suspendDevice name).
Proof. unfold suspendDevice. silent_auto. Qed.

Lemma silent_resume name : silent (resumeDevice name).
Proof. unfold resumeDevice. silent_auto. Qed.

Lemma silent_activate p name id size : silent (activateDevice p name id size).
Proof. unfold activateDevice. silent_auto. Qed.

Lemma silent_removeDevice name : silent (removeDevice name).
Proof. unfold removeDevice. silent_auto. Qed.

Lemma silent_open_path p : silent (open_path p).
Proof. unfold open_path. silent_auto. Qed.
#[local] Hint Resolve silent_getStatus silent_suspend silent_resume silent_activate silent_removeDevice silent_open_path : quiet.

Lemma silent_discard p : silent (BlockDeviceDiscard p).
Proof. unfold BlockDeviceDiscard, GetBlockDeviceSize. silent_auto. Qed.

Lemma silent_probe d : silent (ProbeFsType d).
Proof. unfold ProbeFsType. silent_auto. Qed.

Lemma silent_sleep : silent sleep.
Proof. unfold sleep. silent_auto. Qed.

Lemma silent_device_exists name : silent (device_exists name).
Proof. unfold device_exists. silent_auto. Qed.
#[local] Hint Resolve silent_discard silent_probe silent_sleep silent_device_exists : quiet.

Lemma silent_activateIfNeeded info : silent (activateDeviceIfNeeded info).
Proof. unfold activateDeviceIfNeeded. silent_auto. Qed.

Lemma silent_remove_tries n name last : silent (remove_tries n name last).
Proof. revert last. induction n as [|n IH]; intros last; cbn; silent_auto; apply IH. Qed.

Lemma silent_waitRemove n name : silent (waitRemove n name).
Proof. induction n as [|n IH]; cbn; silent_auto; apply IH. Qed.

Lemma silent_waitClose n info : silent (waitClose n info).
Proof. induction n as [|n IH]; cbn; silent_auto; apply IH. Qed.
#[local] Hint Resolve silent_activateIfNeeded silent_remove_tries silent_waitRemove silent_waitClose : quiet.

Lemma silent_removeAndWait name : silent (removeDeviceAndWait name).
Proof. unfold removeDeviceAndWait. silent_auto. Qed.
#[local] Hint Resolve silent_removeAndWait : quiet.

Lemma silent_deactivate info : silent (deactivateDevice info).
Proof. unfold deactivateDevice. silent_auto. Qed.

Lemma silent_deactivatePool : silent deactivatePool.
Proof. unfold deactivatePool. silent_auto. Qed.

Lemma silent_createFilesystem info : silent (createFilesystem info).
Proof. unfold createFilesystem. silent_auto. Qed.
#[local] Hint Resolve silent_deactivate silent_deactivatePool silent_createFilesystem : quiet.

(** ** The messages to the pool *)

(** The pool has other devices or another transaction; nothing else. *)
Definition moved (w w' : W) (ids : gmap Z (option Z)) (tx : Z) : Prop :=
  pool_thin (host w') = ids /\ pool_tx (host w') = tx /\ files w' = files w /\ mem w' = mem w.

Definition set_ids (v : View) (ids : gmap Z (option Z)) : View := {| v_thin := ids; v_tx := v_tx v; v_meta := v_meta v |}.
Definition set_tx (v : View) (tx : Z) : View := {| v_thin := v_thin v; v_tx := tx; v_meta := v_meta v |}.

Lemma moved_view w w' ids tx : moved w w' ids tx -> view w' = {| v_thin := ids; v_tx := tx; v_meta := v_meta (view w) |}.
Proof. intros (Hi & Ht & Hf & _). unfold view, view_of. by rewrite Hi, Ht, Hf. Qed.

Lemma still_moved w w' : still w w' <-> moved w w' (v_thin (view w)) (v_tx (view w)).
Proof.
  split; [intros (Hv & Hf & Hm)|intros Hm].
  - by injection Hv as Hi Ht _.
  - pose proof Hm as (_ & _ & Hf & Hm'). split_and!; [|done..]. by rewrite (moved_view _ _ _ _ Hm).
Qed.

Lemma still_view w w' : still w w' -> view w' = view w.
Proof. by intros [? _]. Qed.

Lemma still_pool w w' : still w w' -> pool_thin (host w') = pool_thin (host w) /\ pool_tx (host w') = pool_tx (host w).
Proof. intros ([= -> -> _] & _). done. Qed.

Lemma moved_still w1 w2 w3 ids tx : still w1 w2 -> moved w2 w3 ids tx -> moved w1 w3 ids tx.
Proof. intros (_ & Hf & Hm) (? & ? & Hf' & Hm'). split_and!; congruence. Qed.

Lemma still_after w1 w2 w3 ids tx : moved w1 w2 ids tx -> still w2 w3 -> moved w1 w3 ids tx.
Proof. intros (Hi & Ht & Hf & Hm) Hs. destruct (still_pool _ _ Hs) as [Hi' Ht']. destruct Hs as (_ & Hf' & Hm'). split_and!; congruence. Qed.

(** A host on which libdevmapper can always make a message, the pool takes
    the next transaction, and files can be removed.  Every other call may
    still fail. *)
Record steady : Prop := {
  steady_create : forall k, task_create k DeviceTargetMsg = true;
  steady_set : forall k t s, task_type t = DeviceTargetMsg -> task_set k t s = true;
  steady_tx : forall k new, 0 <= pool_tx k < 2 ^ 64 -> 0 <= new < 2 ^ 64 -> (task_run k (pool_task pool ("set_transaction_id " +:+ itoa (pool_tx k) +:+ " " +:+ itoa new))).1.2 = true;
  steady_remove : forall k p, is_ok (sys k (RemoveTree p)).2 = true;
}.

Lemma message_task_result (w : W) m : exists r, message_task pool m w = Return (w, r) /\ match r with Ok t => t = pool_task pool m | Err _ => ~ steady end.
Proof.
  unfold message_task, createTask, TaskCreate, set_task, ask, wrap, mbind, T_bind. cbn.
  destruct (task_create (host w) DeviceTargetMsg) eqn:E; cbn. 2: { eexists. split; [done|]. intros Hs. by rewrite (steady_create Hs) in E. }
  repeat (match goal with |- context [task_set ?k ?t ?s] => destruct (task_set k t s) eqn:?E' end; cbn;
    [|eexists; split; [done|]; intros Hs; rewrite (steady_set Hs) in *; done]).
  by eexists.
Qed.

(** A message, made and run; what its run does to the pool is left open. *)
Lemma wp_message {A} w m (f : Task -> T A) C (Q : W -> result string A -> Prop) :
  (forall e, ~ steady -> Q w (Err e)) -> wp w (f (pool_task pool m)) C Q -> wp w (message_task pool m ≫= f) C Q.
Proof.
  intros He Hf. destruct (message_task_result w m) as ([t|e] & E & Hr); apply wp_bind; eexists w, _, []; rewrite app_nil_r; (split_and!; [exact E| |done|done]).
  - by rewrite Hr.
  - by apply He.
Qed.

Lemma wp_run_task w t C (Q : W -> result string (bool * list (Z * string)) -> Prop) :
  (forall k ok lines, task_run (host w) t = (k, ok, lines) -> C (view_of k (files w)) /\ Q (enter k (files w) w) (Ok (ok, lines))) -> wp w (run_task t) C Q.
Proof.
  intros HQ. destruct (task_run (host w) t) as [[k ok] lines] eqn:E. destruct (HQ k ok lines eq_refl) as [HC Hq].
  eapply wp_enter; [|done..]. unfold run_task. by rewrite E.
Qed.

Lemma wp_Run w t C (Q : W -> result string () -> Prop) :
  (forall k ok lines, task_run (host w) t = (k, ok, lines) -> C (view_of k (files w)) /\ Q (enter k (files w) w) (if ok : bool then Ok () else Err ErrTaskRun)) -> wp w (Run t) C Q.
Proof.
  intros HQ. apply wp_bind, wp_run_task. intros k ok lines E. destruct (HQ k ok lines E) as [HC Hq]. split; [done|].
  destruct ok; [by apply wp_ret|by apply wp_fail].
Qed.

Lemma view_enter w w' k ids tx : still w w' -> pool_thin k = ids -> pool_tx k = tx -> moved w (enter k (files w') w') ids tx.
Proof. intros (_ & Hf & Hm) Hi Ht. by split_and!. Qed.

Lemma wp_deleteDevice w id (C : View -> Prop) (Q : W -> result string () -> Prop) :
  C (view w) -> C (set_ids (view w) (delete id (pool_thin (host w)))) ->
  (forall w' e, still w w' -> Q w' (Err e)) -> (forall w', moved w w' (delete id (pool_thin (host w))) (pool_tx (host w)) -> Q w' (Ok ())) ->
  wp w (deleteDevice pool id) C Q.
Proof.
  intros HC HC' He Ho. apply wp_message; [intros; apply He, still_refl|]. apply wp_wrap, wp_Run. intros k ok lines E.
  apply law_delete in E as [Ht Hi]. pose proof (view_enter w w k _ _ (still_refl w) Hi Ht) as Hm. pose proof (moved_view _ _ _ _ Hm) as Hv.
  change (view_of k (files w)) with (view (enter k (files w) w)). rewrite Hv.
  destruct ok; (split; [|by (apply Ho || (apply He; apply still_moved))]); [exact HC'|]. exact HC.
Qed.

Lemma wp_setTransactionId w old new (C : View -> Prop) (Q : W -> result string () -> Prop) :
  C (view w) -> C (set_tx (view w) new) ->
  (forall w' e, still w w' -> (pool_tx (host w) = old -> 0 <= old < 2 ^ 64 -> 0 <= new < 2 ^ 64 -> ~ steady) -> Q w' (Err e)) ->
  (forall w', pool_tx (host w) = old -> moved w w' (pool_thin (host w)) new -> Q w' (Ok ())) ->
  wp w (setTransactionId pool old new) C Q.
Proof.
  intros HC HC' He Ho. apply wp_message; [intros; apply He; [apply still_refl|done]|]. apply wp_wrap, wp_Run. intros k ok lines E.
  assert (pool_tx (host w) = old -> 0 <= old < 2 ^ 64 -> 0 <= new < 2 ^ 64 -> steady -> ok = true) as Hst.
  { intros <- Ho1 Ho2 Hst. pose proof (steady_tx Hst (host w) new Ho1 Ho2) as Hok. by rewrite E in Hok. }
  apply law_tx in E as [Hi Ht]. change (view_of k (files w)) with (view (enter k (files w) w)). destruct ok.
  - destruct Ht as [Hold Ht]. pose proof (view_enter w w k _ _ (still_refl w) Hi Ht) as Hm. rewrite (moved_view _ _ _ _ Hm). split; [exact HC'|by apply Ho].
  - pose proof (view_enter w w k _ _ (still_refl w) Hi Ht) as Hm. rewrite (moved_view _ _ _ _ Hm). split; [exact HC|]. apply He; [by apply still_moved|].
    intros Ho' Hr1 Hr2 Hst'. by specialize (Hst Ho' Hr1 Hr2 Hst').
Qed.

(** ** Free identifiers *)

(** The identifier the loops find: the first one that is free from [id] on. *)
Definition first_free (ids : gset Z) (id id' : Z) : Prop := id <= id' /\ (id' ∉ ids) /\ forall j, id <= j < id' -> j ∈ ids.

Lemma first_free_next ids id id' : id ∈ ids -> first_free ids (id + 1) id' -> first_free ids id id'.
Proof.
  intros Hi (Hle & Hn & Hb). split_and!; [lia|done|]. intros j Hj. destruct (decide (j = id)) as [->|]; [done|]. apply Hb. lia.
Qed.

Lemma int64_next id : 0 <= id < 16777217 -> int64 (id + 1) = id + 1.
Proof. intros Hid. apply wrapS_small; lia. Qed.

Lemma wp_createDevice n w id (C : View -> Prop) (Q : W -> result string Z -> Prop) :
  0 <= id <= 16777216 -> 16777216 - id < Z.of_nat n -> C (view w) -> (forall j, first_free (pool_ids (host w)) id j -> j < 16777216 -> C (set_ids (view w) (<[j := None]> (pool_thin (host w))))) ->
  (forall w' e, still w w' -> Q w' (Err e)) ->
  (forall w' j, first_free (pool_ids (host w)) id j -> j < 16777216 -> moved w w' (<[j := None]> (pool_thin (host w))) (pool_tx (host w)) -> Q w' (Ok j)) ->
  wp w (createDevice n pool id) C Q.
Proof.
  revert w id. induction n as [|n IH]; intros w id Hid Hn HC HC' He Ho; [lia|]. cbn [createDevice].
  apply wp_message; [intros; apply He, still_refl|]. apply wp_bind, wp_run_task. intros k ok lines E. apply law_create in E as [Ht Hi].
  change (view_of k (files w)) with (view (enter k (files w) w)). destruct ok.
  - destruct Hi as [Hf Hi]. pose proof (view_enter w w k _ _ (still_refl w) Hi Ht) as Hm. rewrite (moved_view _ _ _ _ Hm).
    assert (first_free (pool_ids (host w)) id id) as Hff by (split_and!; [lia|by apply not_elem_of_dom|]; intros j Hj; lia). assert (id < 16777216) by (apply (law_bits k id); rewrite Hi; by rewrite lookup_insert_eq).
    split; [by apply HC'|]. by apply wp_ret, Ho.
  - destruct Hi as [Hi Hsaw]. pose proof (view_enter w w k _ _ (still_refl w) Hi Ht) as Hm. pose proof (proj2 (still_moved w (enter k (files w) w)) Hm) as Hs'.
    destruct (still_pool _ _ Hs') as [Hi2 Ht2]. rewrite (still_view _ _ Hs'). split; [done|]. destruct (saw "File exists" lines).
    + specialize (Hsaw eq_refl). pose proof (law_bits _ _ Hsaw). rewrite <- (elem_of_dom (D := gset Z)) in Hsaw. rewrite int64_next by lia. apply IH; rewrite ?(still_view _ _ Hs'), ?Hi2, ?Ht2; [lia|lia|done| | |].
      * intros j Hj. by apply HC', first_free_next.
      * intros w' e Hw. apply He. by eapply still_trans.
      * intros w' j Hj Hb Hw. apply Ho; [by apply first_free_next|done|by eapply moved_still].
    + apply wp_fail. by apply He.
Qed.

Lemma wp_or_resume {A} (s : bool) name w (m : T A) C (Q : W -> result string A -> Prop) :
  wp w m C (fun w' r => C (view w') /\ match r with Ok a => Q w' (Ok a) | Err e => forall w2, still w' w2 -> Q w2 (Err e) end) -> wp w (or_resume s name m) C Q.
Proof.
  intros Hm. apply wp_bind, wp_attempt. eapply wp_post; [exact Hm|]. intros w' [a|e] [HC HQ]; cbv iota beta; [by apply wp_ret|].
  apply wp_bind. destruct s.
  - apply wp_bind, wp_attempt. eapply quiet_wp; [apply silent_resume|done|]. intros w2 r Hs _. apply wp_ret, wp_fail. by apply HQ.
  - apply wp_ret, wp_fail, HQ, still_refl.
Qed.


Lemma wp_createSnap_loop n s w id name base (C : View -> Prop) (Q : W -> result string Z -> Prop) :
  0 <= id <= 16777216 -> 16777216 - id < Z.of_nat n -> C (view w) -> (forall j, first_free (pool_ids (host w)) id j -> j < 16777216 -> C (set_ids (view w) (<[j := Some base]> (pool_thin (host w))))) ->
  (forall w' e, still w w' -> Q w' (Err e)) ->
  (forall w' j, first_free (pool_ids (host w)) id j -> j < 16777216 -> base ∈ pool_ids (host w) -> moved w w' (<[j := Some base]> (pool_thin (host w))) (pool_tx (host w)) -> Q w' (Ok j)) ->
  wp w (createSnap_loop n s pool id name base) C Q.
Proof.
  revert w id. induction n as [|n IH]; intros w id Hid Hn HC HC' He Ho; [lia|]. cbn [createSnap_loop].
  apply wp_bind, wp_or_resume. eapply quiet_wp; [apply quiet_message_task|done|]. intros w1 r Hs HR. rewrite (still_view _ _ Hs). split; [done|].
  destruct r as [t|e]; cbv iota beta. 2: { intros w2 Hs2. apply He. by eapply still_trans. }
  rewrite (HR t eq_refl). clear HR t. apply wp_bind, wp_run_task. intros k ok lines E. apply law_snap in E as [Ht Hi].
  destruct (still_pool _ _ Hs) as [Hi1 Ht1]. rewrite Hi1 in Hi. rewrite Ht1 in Ht. change (view_of k (files w1)) with (view (enter k (files w1) w1)). destruct ok.
  - destruct Hi as (Hf & Hb & Hi). pose proof (view_enter w w1 k _ _ Hs Hi Ht) as Hm. rewrite (moved_view _ _ _ _ Hm).
    assert (first_free (pool_ids (host w)) id id) as Hff by (split_and!; [lia|by apply not_elem_of_dom|]; intros j Hj; lia). assert (id < 16777216) by (apply (law_bits k id); rewrite Hi; by rewrite lookup_insert_eq).
    split; [by apply HC'|]. apply wp_ret, Ho; [done|done|by apply elem_of_dom|done].
  - destruct Hi as [Hi Hsaw]. pose proof (view_enter w w1 k _ _ Hs Hi Ht) as Hm. pose proof (proj2 (still_moved w (enter k (files w1) w1)) Hm) as Hs'.
    destruct (still_pool _ _ Hs') as [Hi2 Ht2]. rewrite (still_view _ _ Hs'). split; [done|]. destruct (saw "File exists" lines).
    + specialize (Hsaw eq_refl). pose proof (law_bits _ _ Hsaw). rewrite <- (elem_of_dom (D := gset Z)) in Hsaw. rewrite int64_next by lia. apply IH; rewrite ?(still_view _ _ Hs'), ?Hi2, ?Ht2; [lia|lia|done| | |].
      * intros j Hj. by apply HC', first_free_next.
      * intros w' e Hw. apply He. by eapply still_trans.
      * intros w' j Hj Hlt Hb Hw. apply Ho; [by apply first_free_next|done..|by eapply moved_still].
    + apply wp_or_resume, wp_fail. rewrite (still_view _ _ Hs'). split; [done|]. intros w2 Hs2. apply He. by eapply still_trans.
Qed.

(** A snapshot that cannot be resumed stays in the pool. *)
Lemma wp_createSnapDevice n w id name base (C : View -> Prop) (Q : W -> result string Z -> Prop) :
  0 <= id <= 16777216 -> 16777216 - id < Z.of_nat n -> C (view w) -> (forall j, first_free (pool_ids (host w)) id j -> j < 16777216 -> C (set_ids (view w) (<[j := Some base]> (pool_thin (host w))))) ->
  (forall w' e ids, ids = pool_thin (host w) \/ (exists j, first_free (pool_ids (host w)) id j /\ j < 16777216 /\ ids = <[j := Some base]> (pool_thin (host w))) -> moved w w' ids (pool_tx (host w)) -> Q w' (Err e)) ->
  (forall w' j, first_free (pool_ids (host w)) id j -> j < 16777216 -> base ∈ pool_ids (host w) -> moved w w' (<[j := Some base]> (pool_thin (host w))) (pool_tx (host w)) -> Q w' (Ok j)) ->
  wp w (createSnapDevice n pool id name base) C Q.
Proof.
  intros Hid Hn HC HC' He Ho. unfold createSnapDevice.
  assert (forall w' e, still w w' -> Q w' (Err e)) as He0. { intros w' e Hs. apply (He w' e (pool_thin (host w))); [by left|]. by apply still_moved. }
  apply wp_bind. eapply quiet_wp; [apply silent_attempt, silent_getInfo|done|]. intros w1 [r|e] Hs1 _; [|by apply He0]. set (s := match r with Ok i => _ | Err _ => _ end).
  apply wp_bind. apply (quiet_wp _ (fun _ => True)); [destruct s; silent_auto| by rewrite (still_view _ _ Hs1)|]. intros w2 [[]|e] Hs2 _; pose proof (still_trans _ _ _ Hs1 Hs2) as Hs; [|by apply He0].
  destruct (still_pool _ _ Hs) as [Hi Ht]. apply wp_bind. apply wp_createSnap_loop; rewrite ?(still_view _ _ Hs), ?Hi, ?Ht; [lia|lia|done|done| |].
  - intros w' e Hw. apply He0. by eapply still_trans.
  - intros w3 j Hj Hlt Hb Hm. pose proof (moved_still _ _ _ _ _ Hs Hm) as Hm'. apply wp_bind.
    apply (quiet_wp _ (fun _ => True)); [destruct s; silent_auto|rewrite (moved_view _ _ _ _ Hm'); by apply HC'|]. intros w4 [[]|e] Hs4 _; pose proof (still_after _ _ _ _ _ Hm' Hs4) as Hm4.
    + apply wp_ret. by apply Ho.
    + eapply He; [right; eauto|done].
Qed.

(** ** Metadata files *)

(** The names of devices: the base, or the name of a file that is neither the
    base's nor a temporary one. *)
Definition hash_ok (h : string) : Prop := h = "" \/ (plain_elem h /\ h <> "base" /\ has_prefix ".tmp" h = false).

Definition file_name (h : string) : string := if String.eqb h "" then "base" else h.
Definition key (h : string) : string := abs_path ((Root ++ ["metadata"]) ++ [file_name h]).

(** The set is the one of the directory and of the pool. *)
Definition set_at (d : DeviceSet) : Prop := root d = abs_path Root /\ devicePrefix d = prefix.

Definition info_ok (i : DevInfo) : Prop := 0 <= DeviceId i < 16777216 /\ 0 <= Size i < 2 ^ 64 /\ 0 <= info_TransactionId i < 2 ^ 64.

(** What a file says of a device: it is not mounted. *)
Definition saved (i : DevInfo) : DevInfo :=
  {| Hash := Hash i; DeviceId := DeviceId i; Size := Size i; info_TransactionId := info_TransactionId i; Initialized := Initialized i; mountCount := 0; mountPath := "" |}.

Definition plain_dir : plain (Root ++ ["metadata"]).
Proof. apply plain_app. split; [exact Root_plain|]. apply plain_one. split_and!; done. Qed.

Lemma file_name_plain h : hash_ok h -> plain_elem (file_name h).
Proof. intros [->|(Hp & _)]; [by split_and!|]. unfold file_name. destruct (String.eqb_spec h ""); [by split_and!|done]. Qed.

Lemma metadataDir_eq d : set_at d -> metadataDir d = meta_dir.
Proof. intros [Hr _]. unfold metadataDir. rewrite Hr. apply Join_abs_one; [done|by split_and!]. Qed.

Lemma metadataFile_key d i : set_at d -> hash_ok (Hash i) -> metadataFile d i = key (Hash i).
Proof.
  intros Hd Hh. unfold metadataFile. rewrite (metadataDir_eq d Hd). fold (file_name (Hash i)). unfold meta_dir, key.
  rewrite Join_abs_one by (apply plain_dir || by apply file_name_plain). done.
Qed.

Lemma abs_snoc x : abs_path ((Root ++ ["metadata"]) ++ [x]) = meta_dir +:+ "/" +:+ x.
Proof.
  unfold meta_dir, abs_path. rewrite (join_snoc "/" (Root ++ ["metadata"]) x) by (by destruct Root). by rewrite !string_app_assoc.
Qed.

Lemma has_prefix_cut a p s : has_prefix (a +:+ p) (a +:+ s) = has_prefix p s.
Proof. induction a as [|c a IH]; [done|]. rewrite !string_app_cons. cbn. destruct (ascii_dec c c); [apply IH|done]. Qed.

Lemma not_temp_name x : not_temp (abs_path ((Root ++ ["metadata"]) ++ [x])) = negb (has_prefix ".tmp" x).
Proof. unfold not_temp. rewrite abs_snoc. change (meta_dir +:+ "/" +:+ x) with (meta_dir +:+ ("/" +:+ x)). rewrite has_prefix_cut. done. Qed.

Lemma key_not_temp h : hash_ok h -> not_temp (key h) = true.
Proof.
  intros Hh. unfold key. rewrite not_temp_name.
  destruct Hh as [->|(_ & _ & Ht)]; [done|]. unfold file_name. destruct (String.eqb_spec h ""); [done|]. by rewrite Ht.
Qed.

Lemma key_inj h1 h2 : hash_ok h1 -> hash_ok h2 -> key h1 = key h2 -> h1 = h2.
Proof.
  intros H1 H2 E. apply abs_path_inj in E.
  - apply app_inv_head in E. injection E as E. unfold file_name in E. destruct H1 as [->|(Hp1 & Hb1 & _)], H2 as [->|(Hp2 & Hb2 & _)]; [done| | |].
    + cbn in E. destruct (String.eqb_spec h2 ""); [done|congruence].
    + cbn in E. destruct (String.eqb_spec h1 ""); [done|congruence].
    + destruct Hp1 as (_ & Hn1 & _), Hp2 as (_ & Hn2 & _). apply String.eqb_neq in Hn1, Hn2. by rewrite Hn1, Hn2 in E.
  - apply plain_app. split; [apply plain_dir|]. by apply plain_one, file_name_plain.
  - apply plain_app. split; [apply plain_dir|]. by apply plain_one, file_name_plain.
Qed.

Lemma next_suffix_plain n : contains_char "/" (next_suffix n) = false.
Proof.
  unfold next_suffix. pose proof (itoa_no_char "/" (1000000000 + n mod 1000000000)) as Hc. specialize (Hc ltac:(pose proof (Z.mod_pos_bound n 1000000000); lia) eq_refl).
  destruct (itoa (1000000000 + n mod 1000000000)) as [|c s]; [done|]. cbn in *. apply orb_false_iff in Hc as [_ Hc]. by destruct s.
Qed.

Lemma temp_name d n : set_at d -> not_temp (Join [metadataDir d; ".tmp" +:+ next_suffix n]) = false.
Proof.
  intros Hd. rewrite (metadataDir_eq d Hd). unfold meta_dir. rewrite Join_abs_one; [|apply plain_dir|].
  - rewrite not_temp_name. by rewrite has_prefix_app.
  - split_and!; [|done..]. apply next_suffix_plain.
Qed.

(** ** The text of a device is read back *)

Lemma Unmarshal_Marshal i : info_ok i -> Unmarshal (Marshal i) (new_info (Hash i) 0 0 0) = Ok (Some (saved i)).
Proof.
  intros (Hid & Hs & Ht). unfold Unmarshal, Marshal, members_of. rewrite parse_render_object.
  2: { repeat (apply Forall_cons; split); [..|by apply Forall_nil]; (split; [done|]); [exists (DeviceId i)|exists (Size i)|exists (info_TransactionId i)|done]; split; [lia|done|lia|done|lia|done]. }
  assert (parse_int 64 (itoa (DeviceId i)) = Ok (DeviceId i)) as E1 by (apply parse_int_itoa; lia).
  assert (parse_uint 64 (itoa (Size i)) = Ok (Size i)) as E2 by (apply parse_uint_itoa; lia).
  assert (parse_uint 64 (itoa (info_TransactionId i)) = Ok (info_TransactionId i)) as E3 by (apply parse_uint_itoa; lia).
  unfold decode_fields. cbn [foldl].
  assert (forall i0, store_info i0 (fold_key "device_id") (JNumber (itoa (DeviceId i))) = Some {| Hash := Hash i0; DeviceId := DeviceId i; Size := Size i0;
    info_TransactionId := info_TransactionId i0; Initialized := Initialized i0; mountCount := mountCount i0; mountPath := mountPath i0 |}) as F1.
  { intros i0. change (fold_key "device_id") with "device_id". unfold store_info. cbn. by rewrite E1. }
  assert (forall i0, store_info i0 (fold_key "size") (JNumber (itoa (Size i))) = Some {| Hash := Hash i0; DeviceId := DeviceId i0; Size := Size i;
    info_TransactionId := info_TransactionId i0; Initialized := Initialized i0; mountCount := mountCount i0; mountPath := mountPath i0 |}) as F2.
  { intros i0. change (fold_key "size") with "size". unfold store_info. cbn. by rewrite E2. }
  assert (forall i0, store_info i0 (fold_key "transaction_id") (JNumber (itoa (info_TransactionId i))) = Some {| Hash := Hash i0; DeviceId := DeviceId i0; Size := Size i0;
    info_TransactionId := info_TransactionId i; Initialized := Initialized i0; mountCount := mountCount i0; mountPath := mountPath i0 |}) as F3.
  { intros i0. change (fold_key "transaction_id") with "transaction_id". unfold store_info. cbn. by rewrite E3. }
  rewrite F1. cbv beta iota. rewrite F2. cbv beta iota. rewrite F3. done.
Qed.

(** ** Saving a device *)

Lemma meta_temp p t fs : not_temp p = false -> meta (<[p := t]> fs) = meta fs.
Proof.
  intros Hp. unfold meta. apply map_eq. intros q. apply option_eq. intros x. rewrite !map_lookup_filter_Some. destruct (decide (q = p)) as [->|Hq].
  - split; intros [_ E]; congruence.
  - by rewrite lookup_insert_ne.
Qed.

Lemma meta_insert p t fs : not_temp p = true -> meta (<[p := t]> fs) = <[p := t]> (meta fs).
Proof. intros Hp. unfold meta. by rewrite map_filter_insert_True. Qed.

Lemma meta_delete_temp p fs : not_temp p = false -> meta (delete p fs) = meta fs.
Proof.
  intros Hp. unfold meta. apply map_eq. intros q. apply option_eq. intros x. rewrite !map_lookup_filter_Some. destruct (decide (q = p)) as [->|Hq].
  - split; intros [_ E]; congruence.
  - by rewrite lookup_delete_ne.
Qed.

Lemma meta_lookup p fs : not_temp p = true -> meta fs !! p = fs !! p.
Proof.
  intros Hp. unfold meta. apply option_eq. intros x. rewrite map_lookup_filter_Some. split; [by intros [? _]|done].
Qed.

(** The same lasting state and memory; temporary files may differ. *)
Definition same (w w' : W) : Prop := view w' = view w /\ mem w' = mem w.

Lemma still_same w w' : still w w' -> same w w'.
Proof. by intros (? & _ & ?). Qed.

Lemma same_trans w1 w2 w3 : same w1 w2 -> same w2 w3 -> same w1 w3.
Proof. intros [V M] [V' M']. split; congruence. Qed.

Lemma wp_file_call w c f (C : View -> Prop) (Q : W -> result string Z -> Prop) :
  (forall k e, pool_thin k = pool_thin (host w) /\ pool_tx k = pool_tx (host w) -> C (view_of k (files w)) /\ Q (enter k (files w) w) (Err e)) ->
  (forall k n, pool_thin k = pool_thin (host w) /\ pool_tx k = pool_tx (host w) -> C (view_of k (f n (files w))) /\ Q (enter k (f n (files w)) w) (Ok n)) ->
  wp w (file_call c f) C Q.
Proof.
  intros He Ho. destruct (sys (host w) c) as [k [n|e]] eqn:E.
  - destruct (Ho k n (law_sys _ _ _ _ E)) as [HC HQ]. eapply wp_enter; [|exact HC|exact HQ]. unfold file_call. by rewrite E.
  - destruct (He k e (law_sys _ _ _ _ E)) as [HC HQ]. eapply wp_enter; [|exact HC|exact HQ]. unfold file_call. by rewrite E.
Qed.

Lemma view_of_same w k fs : pool_thin k = pool_thin (host w) /\ pool_tx k = pool_tx (host w) -> meta fs = meta (files w) -> view_of k fs = view w.
Proof. intros [Hi Ht] Hf. unfold view, view_of. by rewrite Hi, Ht, Hf. Qed.

Lemma wp_open_temp w (C : View -> Prop) (Q : W -> result string (option string) -> Prop) : set_at (mem w) -> C (view w) ->
  (forall w' e, same w w' -> Q w' (Err e)) -> (forall w', same w w' -> Q w' (Ok None)) ->
  (forall w' name, same w w' -> not_temp name = false -> files w' !! name = Some "" -> Q w' (Ok (Some name))) -> wp w (open_temp (metadataDir (mem w))) C Q.
Proof.
  intros Hd HC He Hn Ho. destruct (sys (host w) (OpenTemp (metadataDir (mem w)))) as [k [n|e]] eqn:E; pose proof (law_sys _ _ _ _ E) as Hk.
  - destruct (files w !! Join [metadataDir (mem w); ".tmp" +:+ next_suffix n]) as [t|] eqn:El.
    + pose proof (view_of_same w k (files w) Hk eq_refl) as Hv. eapply (wp_enter _ k (files w)); [unfold open_temp; rewrite E, El; done|by rewrite Hv|by apply Hn].
    + pose proof (temp_name (mem w) n Hd) as Ht. pose proof (view_of_same w k (<[_ := ""]> (files w)) Hk (meta_temp _ "" (files w) Ht)) as Hv.
      eapply wp_enter; [unfold open_temp; rewrite E, El; done|by rewrite Hv|]. apply Ho; [by split|done|]. apply lookup_insert_eq.
  - pose proof (view_of_same w k (files w) Hk eq_refl) as Hv. eapply (wp_enter _ k (files w)); [unfold open_temp; rewrite E; done|by rewrite Hv|by apply He].
Qed.

Lemma wp_TempFile n w (C : View -> Prop) (Q : W -> result string string -> Prop) : set_at (mem w) -> C (view w) ->
  (forall w' e, same w w' -> Q w' (Err e)) -> (forall w' name, same w w' -> not_temp name = false -> files w' !! name = Some "" -> Q w' (Ok name)) ->
  wp w (TempFile n (metadataDir (mem w))) C Q.
Proof.
  revert w. induction n as [|n IH]; intros w Hd HC He Ho; cbn [TempFile]; [by apply wp_fail, He|].
  apply wp_bind, wp_open_temp; [done|done|done| |].
  - intros w1 Hs. destruct Hs as [Hv Hm]. rewrite <- Hm. apply IH; [by rewrite Hm|by rewrite Hv| |].
    + intros w' e Hs. apply He. by eapply same_trans.
    + intros w' name Hs. apply Ho. by eapply same_trans.
  - intros w1 name Hs Ht Hf. apply wp_ret. by apply Ho.
Qed.

Definition set_meta (v : View) (m : gmap string string) : View := {| v_thin := v_thin v; v_tx := v_tx v; v_meta := m |}.

Lemma wp_Rename w old new t (C : View -> Prop) (Q : W -> result string () -> Prop) :
  not_temp old = false -> not_temp new = true -> files w !! old = Some t -> C (view w) -> C (set_meta (view w) (<[new := t]> (v_meta (view w)))) ->
  (forall w' e, same w w' -> Q w' (Err e)) -> (forall w', view w' = set_meta (view w) (<[new := t]> (v_meta (view w))) -> mem w' = mem w -> Q w' (Ok ())) ->
  wp w (Rename old new) C Q.
Proof.
  intros Hold Hnew Hf HC HC' He Ho. apply wp_bind, wp_wrap, wp_file_call.
  - intros k e Hk. rewrite (view_of_same w k (files w) Hk eq_refl). split; [done|]. apply He. split; [by apply view_of_same|done].
  - intros k n Hk. rewrite Hf. assert (view_of k (<[new := t]> (delete old (files w))) = set_meta (view w) (<[new := t]> (v_meta (view w)))) as Hv.
    { destruct Hk as [Hi Ht]. unfold view_of, set_meta, view. cbn. rewrite Hi, Ht. by rewrite meta_insert, meta_delete_temp. }
    rewrite Hv. split; [done|]. apply wp_ret. by apply Ho.
Qed.

Lemma take_all n s : (String.length s <= n)%nat -> take_str n s = s.
Proof. revert s. induction n as [|n IH]; intros [|c s] Hn; cbn in *; [done|lia|done|]. f_equal. apply IH. lia. Qed.

(** What [saveMetadata] leaves when it fails before the rename, after it, and
    when it succeeds. *)
Definition file_saved (v : View) (i : DevInfo) : View := set_meta v (<[key (Hash i) := Marshal i]> (v_meta v)).

Lemma set_tid_same d : set_tid d (TransactionId d) = d.
Proof. by destruct d. Qed.

Lemma set_tx_same v : set_tx v (v_tx v) = v.
Proof. by destruct v. Qed.

Lemma wp_saveMetadata w i (C : View -> Prop) (Q : W -> result string () -> Prop) :
  set_at (mem w) -> hash_ok (Hash i) -> TransactionId (mem w) = v_tx (view w) -> 0 <= v_tx (view w) < 2 ^ 64 -> 0 <= NewTransactionId (mem w) < 2 ^ 64 ->
  C (view w) -> C (file_saved (view w) i) -> C (set_tx (file_saved (view w) i) (NewTransactionId (mem w))) ->
  (forall w' e, mem w' = mem w -> view w' = view w \/ (view w' = file_saved (view w) i /\ ~ steady) -> Q w' (Err e)) ->
  (forall w', mem w' = set_tid (mem w) (NewTransactionId (mem w)) -> view w' = set_tx (file_saved (view w) i) (NewTransactionId (mem w)) -> Q w' (Ok ())) ->
  wp w (saveMetadata i) C Q.
Proof.
  intros Hd Hh Htx Hr1 Hr2 HC HC1 HC2 He Ho. assert (forall w' e, same w w' -> Q w' (Err e)) as He0. { intros w' e [Hv Hm]. apply He; [done|by left]. }
  unfold saveMetadata. apply wp_bind, wp_get. cbv beta iota zeta. apply wp_bind, wp_wrap, wp_TempFile; [done|done|by auto|].
  intros w1 tmp Hs1 Ht Hf. cbv beta iota. apply wp_bind, wp_wrap, wp_wrap, wp_file_call.
  { intros k e Hk. pose proof (view_of_same w1 k (files w1) Hk eq_refl) as Hv. rewrite Hv. destruct Hs1 as [Hv1 Hm1]. rewrite Hv1. split; [done|]. apply He0. split; [|done].
    by rewrite <- Hv1. }
  intros k n Hk. pose proof (view_of_same w1 k _ Hk (meta_temp tmp (take_str (Z.to_nat n) (Marshal i)) (files w1) Ht)) as Hv. destruct Hs1 as [Hv1 Hm1]. rewrite Hv, Hv1. split; [done|].
  set (w2 := enter k _ w1). assert (same w w2) as Hs2 by (split; [exact (eq_trans Hv Hv1)|exact Hm1]).
  assert (files w2 !! tmp = Some (take_str (Z.to_nat n) (Marshal i))) as Hf2 by apply lookup_insert_eq. clearbody w2. clear Hk Hv Hv1 Hm1 Hf w1 k.
  cbv beta iota. destruct (n <? Z.of_nat (String.length (Marshal i))) eqn:En; [by apply wp_fail, He0|]. apply Z.ltb_ge in En.
  rewrite take_all in Hf2 by lia. apply wp_bind, wp_wrap. eapply quiet_wp; [apply quiet_call|by rewrite (proj1 Hs2)|]. intros w3 [?|e] Hs3 _; (pose proof (same_trans _ _ _ Hs2 (still_same _ _ Hs3)) as Hs); [|by apply He0].
  assert (files w3 !! tmp = Some (Marshal i)) as Hf3 by (by rewrite (proj1 (proj2 Hs3))). clear Hs3 Hf2 Hs2 w2.
  apply wp_bind, wp_wrap. eapply quiet_wp; [apply quiet_call|by rewrite (proj1 Hs)|]. intros w4 [?|e] Hs4 _; (pose proof (same_trans _ _ _ Hs (still_same _ _ Hs4)) as Hs'); [|by apply He0].
  assert (files w4 !! tmp = Some (Marshal i)) as Hf4 by (by rewrite (proj1 (proj2 Hs4))). clear Hs4 Hf3 Hs w3. destruct Hs' as [Hv4 Hm4].
  rewrite metadataFile_key by done. apply wp_bind, wp_wrap, (wp_Rename _ _ _ (Marshal i)); rewrite ?Hv4; [done|by apply key_not_temp|done|done|done| |].
  - intros w5 e [Hv5 Hm5]. apply He0. split; congruence.
  - intros w5 Hv5 Hm5. fold (file_saved (view w) i) in Hv5. rewrite Hm4 in Hm5. cbv beta iota. destruct (NewTransactionId (mem w) =? TransactionId (mem w)) eqn:En'; cbn [negb].
    + apply Z.eqb_eq in En'. apply wp_ret, Ho; [by rewrite En', set_tid_same|]. rewrite Hv5, En', Htx. by destruct (view w).
    + apply Z.eqb_neq in En'. assert (getPoolDevName (mem w) = pool) as -> by (unfold getPoolDevName, getPoolName, pool; by rewrite (proj2 Hd)).
      apply wp_bind, wp_wrap, wp_setTransactionId; rewrite ?Hv5; [done|done| |].
      * intros w6 e (Hv6 & _ & Hm6) Hst. apply He; [congruence|]. right. split; [congruence|]. rewrite Htx in Hst. apply Hst; [by injection Hv5|done..].
      * intros w6 Hold Hm6. cbv beta iota. apply wp_modify, Ho.
        -- cbn. destruct Hm6 as (_ & _ & _ & Hm6). by rewrite Hm6, Hm5.
        -- pose proof (moved_view _ _ _ _ Hm6) as Hv6. transitivity (view w6); [done|]. rewrite Hv6, Hv5.
           assert (pool_thin (host w5) = v_thin (view w)) as -> by (by injection Hv5). done.
Qed.

(** ** The devices a daemon sees *)

(** The text of a metadata file, letter by letter, whatever the daemon makes
    of it: an object with the number of the device in the pool, its size in
    bytes, its transaction, and whether its file system is made. *)
Definition quoted (s : string) : string := String "034" (s +:+ String "034" "").

(** What follows [p] in the text. *)
Definition after (p t : string) : option string := if has_prefix p t then Some (trim_prefix p t) else None.

(** The number after [p], and the rest of the text. *)
Definition number_after (p t : string) : option (Z * string) :=
  '(d, t) ← digits <$> after p t;
  match parse_uint 64 d with Ok n => Some (n, t) | Err _ => None end.

Definition device_of (h t : string) : option DevInfo :=
  '(id, t) ← number_after ("{" +:+ quoted "device_id" +:+ ":") t;
  '(size, t) ← number_after ("," +:+ quoted "size" +:+ ":") t;
  '(tid, t) ← number_after ("," +:+ quoted "transaction_id" +:+ ":") t;
  t ← after ("," +:+ quoted "initialized" +:+ ":") t;
  init ← (if String.eqb t "true}" then Some true else if String.eqb t "false}" then Some false else None);
  Some {| Hash := h; DeviceId := id; Size := size; info_TransactionId := tid; Initialized := init; mountCount := 0; mountPath := "" |}.

Lemma after_app p t : after p (p +:+ t) = Some t.
Proof. unfold after, trim_prefix. by rewrite has_prefix_app, drop_app_str. Qed.

Lemma number_after_itoa p z rest : 0 <= z < 2 ^ 64 -> ends_number rest -> number_after p (p +:+ itoa z +:+ rest) = Some (z, rest).
Proof.
  intros Hz Hr. unfold number_after. rewrite after_app. cbn. rewrite digits_app; [|apply itoa_dec; lia|by intros c r ->; apply Hr].
  by rewrite parse_uint_itoa.
Qed.

Lemma device_of_Marshal i : info_ok i -> device_of (Hash i) (Marshal i) = Some (saved i).
Proof.
  intros (Hid & Hs & Ht).
  assert (Marshal i = ("{" +:+ quoted "device_id" +:+ ":") +:+ itoa (DeviceId i) +:+ ("," +:+ quoted "size" +:+ ":") +:+ itoa (Size i) +:+
    ("," +:+ quoted "transaction_id" +:+ ":") +:+ itoa (info_TransactionId i) +:+ ("," +:+ quoted "initialized" +:+ ":") +:+ (if Initialized i then "true}" else "false}")) as ->.
  { unfold Marshal, members_of, render_object. cbn. destruct (Initialized i); by rewrite ?string_app_assoc. }
  unfold device_of. do 3 (rewrite number_after_itoa by (lia || done); cbn [mbind option_bind]). rewrite after_app. cbn [mbind option_bind].
  unfold saved. by destruct (Initialized i).
Qed.

Definition stored (v : View) (h : string) : option DevInfo := v_meta v !! key h ≫= device_of h.

(** What a daemon that starts over the state loads: a file of a later
    transaction than the pool's does not count. *)
Definition visible (v : View) (h : string) : option DevInfo :=
  i ← stored v h; if v_tx v <? info_TransactionId i then None else Some i.

(** The files are ours; the devices that count are in the pool, each with an
    identifier of its own. *)
Record consistent (v : View) : Prop := {
  files_ok : forall h t, hash_ok h -> v_meta v !! key h = Some t -> exists i, t = Marshal i /\ Hash i = h /\ info_ok i;
  in_pool : forall h i, hash_ok h -> visible v h = Some i -> DeviceId i ∈ v_ids v;
  own_id : forall h1 h2 i1 i2, hash_ok h1 -> hash_ok h2 -> visible v h1 = Some i1 -> visible v h2 = Some i2 -> DeviceId i1 = DeviceId i2 -> h1 = h2;
  tx_range : 0 <= v_tx v < 2 ^ 64;
}.

(** No file waits for a later transaction. *)
Definition settled (v : View) : Prop := forall h i, hash_ok h -> stored v h = Some i -> info_TransactionId i <= v_tx v.

(** What the set has in memory agrees with the files. *)
Record cached (v : View) (d : DeviceSet) : Prop := {
  cached_at : set_at d;
  cached_tx : TransactionId d = v_tx v;
  cached_new : TransactionId d <= NewTransactionId d;
  cached_next : 0 <= nextDeviceId d < 16777216;
  cached_devices : forall h i, Devices d !! h = Some i -> hash_ok h /\ Hash i = h /\ visible v h = Some (saved i);
}.

Record good (w : W) : Prop := { good_consistent : consistent (view w); good_settled : settled (view w); good_cached : cached (view w) (mem w) }.

Lemma saved_ok i : info_ok i -> info_ok (saved i).
Proof. done. Qed.

Lemma Marshal_saved i : Marshal (saved i) = Marshal i.
Proof. done. Qed.

Lemma stored_of v h i : v_meta v !! key h = Some (Marshal i) -> Hash i = h -> info_ok i -> stored v h = Some (saved i).
Proof. intros E <- Hi. unfold stored. rewrite E. by apply device_of_Marshal. Qed.

Lemma stored_inv v h i : consistent v -> hash_ok h -> stored v h = Some i -> v_meta v !! key h = Some (Marshal i) /\ Hash i = h /\ info_ok i /\ saved i = i.
Proof.
  intros Hv Hh E. pose proof E as E'. unfold stored in E. apply bind_Some in E as (t & Et & _). destruct (files_ok v Hv h t Hh Et) as (j & -> & Hj & Hok).
  rewrite (stored_of v h j Et Hj Hok) in E'. injection E' as <-. by split_and!.
Qed.

Lemma visible_inv v h i : visible v h = Some i -> stored v h = Some i /\ info_TransactionId i <= v_tx v.
Proof.
  unfold visible. intros (j & Ej & E)%bind_Some. destruct (v_tx v <? info_TransactionId j) eqn:Et; [done|]. injection E as ->. apply Z.ltb_ge in Et. done.
Qed.

Lemma visible_of v h i : stored v h = Some i -> info_TransactionId i <= v_tx v -> visible v h = Some i.
Proof. intros E Ht. unfold visible. rewrite E. cbn. apply Z.ltb_ge in Ht. by rewrite Ht. Qed.

Lemma settled_visible v h : settled v -> hash_ok h -> visible v h = stored v h.
Proof. intros Hs Hh. unfold visible. destruct (stored v h) as [i|] eqn:E; [|done]. cbn. specialize (Hs h i Hh E). apply Z.ltb_ge in Hs. by rewrite Hs. Qed.

(** The file of another device leaves a device as it is. *)
Lemma stored_saved v i h : hash_ok h -> hash_ok (Hash i) -> info_ok i -> stored (file_saved v i) h = if decide (h = Hash i) then Some (saved i) else stored v h.
Proof.
  intros Hh Hi Hok. destruct (decide (h = Hash i)) as [->|Hne].
  - apply stored_of; [|done..]. apply lookup_insert_eq.
  - unfold stored, file_saved. cbn. rewrite lookup_insert_ne; [done|]. intros E. apply Hne. by apply key_inj in E.
Qed.

Lemma stored_set_tx v tx h : stored (set_tx v tx) h = stored v h.
Proof. done. Qed.

Lemma stored_set_ids v ids h : stored (set_ids v ids) h = stored v h.
Proof. done. Qed.

Lemma visible_set_ids v ids h : visible (set_ids v ids) h = visible v h.
Proof. done. Qed.

(** ** Looking a device up *)

(** Devices are loaded, and nothing else happens. *)
Definition loads (w w' : W) : Prop :=
  view w' = view w /\ exists m, mem w' = with_Devices (mem w) m /\ Devices (mem w) ⊆ m /\
    forall h i, m !! h = Some i -> Devices (mem w) !! h = Some i \/ (hash_ok h /\ Hash i = h /\ visible (view w) h = Some i /\ saved i = i).

Lemma with_Devices_same d : with_Devices d (Devices d) = d.
Proof. by destruct d. Qed.

Lemma loads_still w w' : still w w' -> loads w w'.
Proof. intros (Hv & _ & Hm). split; [done|]. exists (Devices (mem w)). split_and!; [by rewrite with_Devices_same|done|by auto]. Qed.

Lemma loads_trans w1 w2 w3 : loads w1 w2 -> loads w2 w3 -> loads w1 w3.
Proof.
  intros (Hv & m & Hm & Hs & Hd) (Hv' & m' & Hm' & Hs' & Hd'). rewrite Hm in Hs', Hd'. cbn in Hs', Hd'. split; [congruence|]. exists m'. split_and!.
  - by rewrite Hm', Hm.
  - by etrans.
  - intros h i E. destruct (Hd' h i E) as [E'|E']; [by apply Hd|]. right. by rewrite Hv in E'.
Qed.

Lemma loads_good w w' : good w -> loads w w' -> good w'.
Proof.
  intros [Hc Hs Hk] (Hv & m & Hm & _ & Hd). split; rewrite Hv; [done..|]. destruct Hk as [H1 H2 H3 H4 H5]. rewrite Hm. split; try done. cbn.
  intros h i E. destruct (Hd h i E) as [E'|(? & ? & ? & E')]; [by apply H5|]. split_and!; [done..|]. by rewrite E'.
Qed.

(** A host that reads without fail. *)
Definition reads : Prop := forall k p, is_ok (sys k (ReadAll p)).2 = true.

Lemma wp_ReadFile w p (C : View -> Prop) (Q : W -> result string string -> Prop) :
  C (view w) -> (forall w' e, still w w' -> (reads -> files w !! p = None) -> Q w' (Err e)) -> (forall w' t, still w w' -> files w !! p = Some t -> Q w' (Ok t)) -> wp w (ReadFile p) C Q.
Proof.
  intros HC He Ho. apply wp_bind, wp_wrap. destruct (sys (host w) (ReadAll p)) as [k r] eqn:E. pose proof (still_enter w k (law_sys _ _ _ _ E)) as Hs.
  eapply (wp_enter w k (files w) r); [unfold call; by rewrite E|change (view_of k (files w)) with (view (enter k (files w) w)); by rewrite (still_view _ _ Hs)|].
  destruct r as [n|e]; cbv iota beta. 2: { apply He; [done|]. intros Hr. specialize (Hr (host w) p). by rewrite E in Hr. }
  apply wp_bind, wp_get_file. cbv iota beta. change (files (enter k (files w) w)) with (files w).
  destruct (files w !! p) eqn:Ef; [by apply wp_ret, Ho|by apply wp_fail, He].
Qed.

Lemma wp_loadMetadata w h (C : View -> Prop) (Q : W -> result string (option DevInfo) -> Prop) :
  consistent (view w) -> cached (view w) (mem w) -> hash_ok h -> C (view w) ->
  (forall w' o, still w w' -> (o = None /\ (reads -> visible (view w) h = None)) \/ o = visible (view w) h -> Q w' (Ok o)) -> wp w (loadMetadata h) C Q.
Proof.
  intros Hv Hk Hh HC HQ. unfold loadMetadata. apply wp_bind, wp_get. cbv iota beta zeta. rewrite (metadataFile_key _ (new_info h 0 0 0)) by (apply Hk || done).
  apply wp_bind, wp_attempt, wp_ReadFile; [done| |]; cbn [Hash new_info]; rewrite <- (meta_lookup (key h) (files w)) by (by apply key_not_temp).
  - intros w' e Hs Hr. cbv iota beta. apply wp_ret, HQ; [done|]. left. split; [done|]. intros Hrd. specialize (Hr Hrd). unfold visible, stored.
    change (v_meta (view w)) with (meta (files w)). by rewrite Hr.
  - intros w' t Hs Ht. cbv iota beta.
    destruct (files_ok _ Hv h t Hh Ht) as (i & -> & Hi & Hok). pose proof (stored_of (view w) h i Ht Hi Hok) as E. rewrite <- Hi, Unmarshal_Marshal by done.
    apply wp_ret, HQ; [done|]. right. unfold visible. rewrite E. cbn. by rewrite (cached_tx _ _ Hk).
Qed.

Lemma wp_lookupDevice w h (C : View -> Prop) (Q : W -> result string DevInfo -> Prop) :
  good w -> hash_ok h -> C (view w) ->
  (forall w' e, loads w w' -> Devices (mem w') !! h = None -> Q w' (Err e)) ->
  (forall w' i, loads w w' -> Devices (mem w') !! h = Some i -> Q w' (Ok i)) -> wp w (lookupDevice h) C Q.
Proof.
  intros [Hc Hs Hk] Hh HC He Ho. unfold lookupDevice. apply wp_bind, wp_get. cbv iota beta. destruct (Devices (mem w) !! h) as [i|] eqn:E.
  - apply wp_ret, Ho; [apply loads_still, still_refl|done].
  - apply wp_bind, wp_loadMetadata; [done..|]. intros w' o Hst Ho'. cbv iota beta. pose proof Hst as (Hv & _ & Hm). destruct o as [i|].
    + destruct Ho' as [[? _]|Ho']; [done|]. destruct (visible_inv _ _ _ (eq_sym Ho')) as [Est _]. destruct (stored_inv _ _ _ Hc Hh Est) as (_ & Hi & _ & Hsv).
      apply wp_bind, wp_modify, wp_ret. apply Ho; [|cbn; rewrite Hm; cbn; rewrite Hi; apply lookup_insert_eq]. split; [exact Hv|].
      exists (<[h := i]> (Devices (mem w))). split_and!; [cbn; rewrite Hm; unfold put_info; by rewrite Hi|by apply insert_subseteq|].
      intros h' j. destruct (decide (h' = h)) as [->|Hne]; [rewrite lookup_insert_eq; intros [= <-]; right; by split_and!|rewrite lookup_insert_ne by done; by left].
    + apply wp_fail, He; [by apply loads_still|by rewrite Hm].
Qed.

(** ** A new device *)

(** The state with the device [i] in the pool and on disk, its transaction
    being the pool's. *)
Definition pool_grown (v : View) (j : Z) (origin : option Z) : View := set_ids v (<[j := origin]> (v_thin v)).
Definition device_added (v : View) (i : DevInfo) (origin : option Z) : View := set_tx (file_saved (pool_grown v (DeviceId i) origin) i) (info_TransactionId i).

(** A device that fits: free identifier, later transaction. *)
Record fits (v : View) (i : DevInfo) : Prop := {
  fits_hash : hash_ok (Hash i);
  fits_info : info_ok i;
  fits_saved : saved i = i;
  fits_free : (DeviceId i ∉ v_ids v);
  fits_tx : v_tx v < info_TransactionId i;
}.

Lemma consistent_ids v ids : consistent v -> v_ids v ⊆ dom ids -> consistent (set_ids v ids).
Proof. intros [F P O X] Hi. split; [done| |done|done]. intros h i Hh E. apply Hi. by eapply P. Qed.

(** The file of a device whose transaction is still to come hides the one of
    its name and leaves the others. *)
Lemma visible_file_saved v i h : fits v i -> hash_ok h -> visible (file_saved v i) h = if decide (h = Hash i) then None else visible v h.
Proof.
  intros [Hh Hi Hs Hf Ht] Hx. unfold visible. rewrite stored_saved by done. destruct (decide (h = Hash i)) as [->|]; [|done].
  cbn. apply Z.ltb_lt in Ht. by rewrite Ht.
Qed.

Lemma consistent_file v i : consistent v -> hash_ok (Hash i) -> info_ok i -> 
  (forall h, hash_ok h -> visible (file_saved v i) h = if decide (h = Hash i) then None else visible v h) -> consistent (file_saved v i).
Proof.
  intros [F P O X] Hh Hi Hvis. split; [| | |done].
  - intros h t Hx E. cbn in E. destruct (decide (h = Hash i)) as [->|Hne].
    + rewrite lookup_insert_eq in E. injection E as <-. by exists i.
    + rewrite lookup_insert_ne in E by (intros E'; apply Hne; by apply key_inj in E'). by apply F.
  - intros h j Hx E. rewrite Hvis in E by done. destruct (decide (h = Hash i)); [done|]. by eapply P.
  - intros h1 h2 i1 i2 H1 H2 E1 E2 Hid. rewrite Hvis in E1, E2 by done. destruct (decide (h1 = Hash i)); [done|]. destruct (decide (h2 = Hash i)); [done|]. by eapply (O h1 h2).
Qed.

Lemma consistent_waiting v i : consistent v -> fits v i -> consistent (file_saved v i).
Proof. intros Hv Hf. apply consistent_file; [done|apply Hf|apply Hf|]. intros h Hh. by apply visible_file_saved. Qed.

Lemma visible_added v i o h : settled v -> fits v i -> hash_ok h -> visible (device_added v i o) h = if decide (h = Hash i) then Some i else visible v h.
Proof.
  intros Hs [Hh Hi Hsv Hf Ht] Hx. unfold visible, device_added. rewrite stored_set_tx, stored_saved by done. destruct (decide (h = Hash i)) as [->|].
  - cbn. rewrite Z.ltb_irrefl. by rewrite Hsv.
  - unfold pool_grown. rewrite stored_set_ids. destruct (stored v h) as [j|] eqn:E; [|done]. cbn. specialize (Hs h j Hx E).
    assert ((info_TransactionId i <? info_TransactionId j) = false) as -> by (apply Z.ltb_ge; lia). by apply Z.ltb_ge in Hs as ->.
Qed.

Lemma added_consistent v i o : consistent v -> settled v -> fits v i -> consistent (device_added v i o) /\ settled (device_added v i o).
Proof.
  intros Hv Hs Hf. pose proof (fun h Hh => visible_added v i o h Hs Hf Hh) as Hvis. pose proof Hv as [F P O X]. pose proof Hf as [Hh Hi Hsv Hfree Ht]. split; [split|].
  - intros h t Hx E. cbn in E. destruct (decide (h = Hash i)) as [->|Hne].
    + rewrite lookup_insert_eq in E. injection E as <-. by exists i.
    + rewrite lookup_insert_ne in E by (intros E'; apply Hne; by apply key_inj in E'). by apply F.
  - intros h j Hx E. rewrite Hvis in E by done. cbn. rewrite dom_insert. destruct (decide (h = Hash i)); [injection E as <-; set_solver|]. apply elem_of_union_r. by eapply P.
  - intros h1 h2 i1 i2 H1 H2 E1 E2 Hid. rewrite Hvis in E1, E2 by done.
    destruct (decide (h1 = Hash i)) as [->|], (decide (h2 = Hash i)) as [->|]; [done| | |by eapply (O h1 h2)]; exfalso; apply Hfree.
    + injection E1 as <-. rewrite Hid. by eapply (P h2).
    + injection E2 as <-. rewrite <- Hid. by eapply (P h1).
  - destruct Hi as (_ & _ & ?). cbn. lia.
  - intros h j Hx E. unfold device_added in E |- *. rewrite stored_set_tx, stored_saved in E by done. cbn. destruct (decide (h = Hash i)); [injection E as <-; cbn; lia|].
    specialize (Hs h j Hx E). lia.
Qed.

Lemma wp_allocate w C (Q : W -> result string Z -> Prop) :
  Q (with_mem w (set_new (mem w) (uint64 (NewTransactionId (mem w) + 1)))) (Ok (uint64 (NewTransactionId (mem w) + 1))) -> wp w allocateTransactionId C Q.
Proof. intros HQ. apply wp_bind, wp_get. cbv iota beta zeta. apply wp_bind, wp_modify. cbv iota beta. by apply wp_ret. Qed.

Lemma uint64_next n : 0 <= n -> n + 1 < 2 ^ 64 -> uint64 (n + 1) = n + 1.
Proof. intros H1 H2. apply wrapU_small. lia. Qed.

Lemma wp_registerDevice w id hash size (C : View -> Prop) (Q : W -> result string DevInfo -> Prop) :
  let tid := NewTransactionId (mem w) + 1 in let i := new_info hash id size tid in
  set_at (mem w) -> hash_ok hash -> TransactionId (mem w) = v_tx (view w) -> 0 <= v_tx (view w) < 2 ^ 64 -> 0 <= NewTransactionId (mem w) -> tid < 2 ^ 64 ->
  C (view w) -> C (file_saved (view w) i) -> C (set_tx (file_saved (view w) i) tid) ->
  (forall w' e, mem w' = delete_info (put_info (set_new (mem w) tid) i) hash -> view w' = view w \/ (view w' = file_saved (view w) i /\ ~ steady) -> Q w' (Err e)) ->
  (forall w', mem w' = set_tid (put_info (set_new (mem w) tid) i) tid -> view w' = set_tx (file_saved (view w) i) tid -> Q w' (Ok i)) ->
  wp w (registerDevice id hash size) C Q.
Proof.
  intros tid i Hd Hh Htx Hr Hn0 Hlt HC HC1 HC2 He Ho. unfold registerDevice. apply wp_bind, wp_allocate. cbv iota beta zeta. rewrite uint64_next by lia. fold tid. fold i.
  apply wp_bind, wp_modify. cbv iota beta. set (w1 := with_mem _ _). assert (view w1 = view w) as Hv by done. assert (mem w1 = put_info (set_new (mem w) tid) i) as Hm by done.
  clearbody w1. apply wp_bind, wp_attempt, wp_saveMetadata; rewrite ?Hm, ?Hv; [exact Hd|done|exact Htx|done|cbn; lia|done|done|done| |].
  - intros w2 e Hm2 Hv2. cbv iota beta. apply wp_bind, wp_modify. cbv iota beta. apply wp_fail, He; [cbn; by rewrite Hm2|exact Hv2].
  - intros w2 Hm2 Hv2. cbv iota beta. apply wp_ret, Ho; [by rewrite Hm2|exact Hv2].
Qed.

Section Operations.
Context (fuel : nat) (fuel_enough : 16777216 < Z.of_nat fuel).

(** The device a request makes: the size of its base, the next transaction,
    the first identifier that is free. *)
Definition new_device (w : W) (hash base : string) (i : DevInfo) : Prop :=
  exists b, visible (view w) base = Some (saved b) /\ i = new_info hash (DeviceId i) (Size b) (NewTransactionId (mem w) + 1) /\
    first_free (v_ids (view w)) (nextDeviceId (mem w)) (DeviceId i) /\ DeviceId i < 16777216.

(** What a request that failed leaves: every other device as it was, the one
    of the request as it was or gone; no file that waits unless the pool
    refused a transaction. *)
Record after_failure (w : W) (hash : string) (w' : W) : Prop := {
  failure_consistent : consistent (view w');
  failure_cached : cached (view w') (mem w');
  failure_others : forall x, hash_ok x -> x <> hash -> visible (view w') x = visible (view w) x;
  failure_itself : visible (view w') hash = visible (view w) hash \/ visible (view w') hash = None;
  failure_pool : v_ids (view w) ⊆ v_ids (view w') /\ v_tx (view w') = v_tx (view w);
  failure_settled : steady -> settled (view w');
  failure_new : NewTransactionId (mem w') <= NewTransactionId (mem w) + 1;
}.

Lemma loads_ids w w' : loads w w' -> NewTransactionId (mem w') = NewTransactionId (mem w) /\ nextDeviceId (mem w') = nextDeviceId (mem w) /\ view w' = view w.
Proof. by intros (Hv & m & -> & _). Qed.

Lemma wp_lookup_or_nil w h (C : View -> Prop) (Q : W -> result string (option DevInfo) -> Prop) : good w -> hash_ok h -> C (view w) ->
  (forall w' o, loads w w' -> Devices (mem w') !! h = o -> Q w' (Ok o)) -> wp w (lookup_or_nil h) C Q.
Proof.
  intros Hg Hh HC HQ. apply wp_bind, wp_attempt, wp_lookupDevice; [done..| |].
  - intros w' e Hl E. cbv iota beta. by apply wp_ret, HQ.
  - intros w' i Hl E. cbv iota beta. by apply wp_ret, HQ.
Qed.

Lemma cached_view v v' d : cached v d -> v_tx v' = v_tx v -> (forall h, hash_ok h -> Devices d !! h = None \/ visible v' h = visible v h) -> cached v' d.
Proof.
  intros [H1 H2 H3 H4 H5] Ht Hv. split; [done|congruence|done|done|]. intros h i E. destruct (H5 h i E) as (Hh & Hi & Hvis). split_and!; [done..|].
  destruct (Hv h Hh) as [?| ->]; [congruence|done].
Qed.

(** The identifiers after a device is made, and a device that is forgotten. *)
Lemma cached_ids v d new next m : cached v d -> TransactionId d <= new -> 0 <= next < 16777216 -> m ⊆ Devices d ->
  cached v (with_Devices (with_ids d (TransactionId d) new next) m).
Proof. intros [H1 H2 H3 H4 H5] Hn Hx Hm. split; [done..|]. intros h i E. apply H5. eapply lookup_weaken; [exact E|done]. Qed.

Lemma next_id_range id : 0 <= next_id id < 16777216.
Proof. unfold next_id. change 16777215 with (Z.ones 24). rewrite Z.land_ones by lia. apply Z.mod_pos_bound. lia. Qed.

Lemma failed_loads w w' hash : good w -> loads w w' -> after_failure w hash w'.
Proof.
  intros Hg Hl. pose proof (loads_good _ _ Hg Hl) as [Hc Hs Hk]. destruct (loads_ids _ _ Hl) as (Hn & _ & Hv).
  split; [done|done| |left|split|done|lia]; by rewrite ?Hv.
Qed.

(** The state after a failure, by what it did to the files. *)
Lemma failed_after w w' i d ids new next m : good w -> fits (view w) i -> cached (view w) d -> Devices d !! Hash i = None ->
  mem w' = with_Devices (with_ids d (TransactionId d) new next) m -> m ⊆ Devices d -> TransactionId d <= new <= NewTransactionId (mem w) + 1 -> 0 <= next < 16777216 -> v_ids (view w) ⊆ dom ids ->
  view w' = set_ids (view w) ids \/ (view w' = set_ids (file_saved (view w) i) ids /\ ~ steady) -> after_failure w (Hash i) w'.
Proof.
  intros [Hc Hs Hk] Hf Hk2 Hnone Hm Hsub [Hnew Hnew'] Hnext Hids Hv. pose proof (cached_ids _ _ new next m Hk2 Hnew Hnext Hsub) as Hk3. rewrite <- Hm in Hk3.
  assert (Devices (mem w') !! Hash i = None) as Hn' by (rewrite Hm; cbn; by eapply lookup_weaken_None).
  destruct Hv as [Hv|[Hv Hns]].
  - split; rewrite ?Hv; [by apply consistent_ids| |done|by left|by split|done|by rewrite Hm]. by apply (cached_view (view w)); [..|intros; right].
  - pose proof (visible_file_saved (view w) i) as Hvis. split; rewrite ?Hv.
    + apply consistent_ids; [by apply consistent_waiting|done].
    + apply (cached_view (view w)); [done|done|]. intros h Hh. rewrite visible_set_ids, Hvis by done. destruct (decide (h = Hash i)) as [->|]; [by left|by right].
    + intros x Hx Hne. rewrite visible_set_ids, Hvis by done. by destruct (decide (x = Hash i)).
    + right. rewrite visible_set_ids, Hvis by (done || apply Hf). by rewrite decide_True.
    + by split.
    + done.
    + by rewrite Hm.
Qed.

Lemma grown_back v j o : j ∉ v_ids v -> delete j (v_thin (pool_grown v j o)) = v_thin v.
Proof. intros Hj%not_elem_of_dom. by apply delete_insert_id. Qed.

Lemma grown_sub v j o : v_ids v ⊆ v_ids (pool_grown v j o).
Proof. cbn. rewrite dom_insert. set_solver. Qed.

(** The device is in the pool; it is registered, or taken back. *)
Lemma wp_register_new w w3 d next i o (f : DevInfo -> T ()) (C : View -> Prop) (Q : W -> result string () -> Prop) :
  good w -> cached (view w) d -> Devices d !! Hash i = None -> fits (view w) i -> NewTransactionId d = NewTransactionId (mem w) -> info_TransactionId i = NewTransactionId d + 1 ->
  i = new_info (Hash i) (DeviceId i) (Size i) (info_TransactionId i) -> 0 <= next < 16777216 ->
  mem w3 = set_next d next -> view w3 = pool_grown (view w) (DeviceId i) o ->
  C (view w) -> C (pool_grown (view w) (DeviceId i) o) -> C (file_saved (pool_grown (view w) (DeviceId i) o) i) -> C (file_saved (view w) i) -> C (device_added (view w) i o) ->
  (forall w' e, after_failure w (Hash i) w' -> Q w' (Err e)) ->
  (forall w', good w' -> view w' = device_added (view w) i o -> Devices (mem w') !! Hash i = Some i -> NewTransactionId (mem w') = NewTransactionId (mem w) + 1 -> wp w' (f i) C Q) ->
  wp w3 (r ← attempt (registerDevice (DeviceId i) (Hash i) (Size i));
         match r with
         | Ok info => f info
         | Err e => attempt (deleteDevice pool (DeviceId i));; fail e
         end) C Q.
Proof.
  intros Hg Hk Hnone Hf HNew Htid Hi Hnext Hm3 Hv3 HC HC1 HC2 HC3 HC4 He Ho.
  pose proof Hf as [Hh Hok Hsv Hfree Htx]. pose proof Hk as [Hat Htx' Hnew' _ Hdev]. pose proof Hg as [Hc Hs _].
  assert (pool_thin (host w3) = v_thin (pool_grown (view w) (DeviceId i) o)) as Hids3 by (by rewrite <- Hv3).
  assert (forall w4 ids, mem w4 = delete_info (put_info (set_new (set_next d next) (info_TransactionId i)) i) (Hash i) -> v_ids (view w) ⊆ dom ids ->
    view w4 = set_ids (view w) ids \/ (view w4 = set_ids (file_saved (view w) i) ids /\ ~ steady) -> after_failure w (Hash i) w4) as Hfail.
  { intros w4 ids Hm4 Hsub Hv4. apply (failed_after w w4 i d ids (info_TransactionId i) next (Devices d)); try done; [|cbn in *; lia]. rewrite Hm4. unfold delete_info, put_info. cbn.
    by rewrite delete_insert_id by done. }
  apply wp_bind, wp_attempt.
  assert (NewTransactionId (mem w3) + 1 = info_TransactionId i) as Ht3 by (by rewrite Hm3, Htid).
  assert (new_info (Hash i) (DeviceId i) (Size i) (NewTransactionId (mem w3) + 1) = i) as Ei by (by rewrite Ht3).
  apply wp_registerDevice; rewrite ?Ei, ?Ht3, ?Hv3; rewrite ?Hm3; [done|done|done|exact (tx_range _ Hc)| |apply Hok|done|done|done| |].
  - cbn. pose proof (tx_range _ Hc). lia.
  - intros w4 e Hm4 Hv4. cbv iota beta. assert (pool_thin (host w4) = v_thin (pool_grown (view w) (DeviceId i) o)) as Hids4.
    { change (pool_thin (host w4)) with (v_thin (view w4)). by destruct Hv4 as [-> |[-> _]]. }
    apply wp_bind, wp_attempt, wp_deleteDevice; rewrite ?Hids4, ?grown_back by done.
    + by destruct Hv4 as [-> |[-> _]].
    + by destruct Hv4 as [-> |[-> _]].
    + intros w5 e' (Hv5 & _ & Hm5). cbv iota beta. apply wp_fail, He. apply (Hfail w5 (v_thin (pool_grown (view w) (DeviceId i) o))); [congruence|exact (grown_sub (view w) (DeviceId i) o)|].
      rewrite Hv5. destruct Hv4 as [-> |[-> ?]]; [by left|by right].
    + intros w5 Hm5. cbv iota beta. apply wp_fail, He. pose proof (moved_view _ _ _ _ Hm5) as Hv5. apply (Hfail w5 (v_thin (view w))); [exact (eq_trans (proj2 (proj2 (proj2 Hm5))) Hm4)|done|].
      rewrite Hv5. change (pool_tx (host w4)) with (v_tx (view w4)). destruct Hv4 as [-> |[-> ?]]; [by left|by right].
  - intros w4 Hm4 Hv4. cbv iota beta. destruct (added_consistent _ _ o Hc Hs Hf) as [Hc4 Hs4].
    assert (view w4 = device_added (view w) i o) as Hv4' by done. apply Ho; [|done| |by rewrite Hm4; cbn; lia].
    + split; rewrite Hv4'; [done|done|]. rewrite Hm4. split; cbn; [done|done|lia|done|]. intros h j E. destruct (decide (h = Hash i)) as [->|Hne].
      * rewrite lookup_insert_eq in E. injection E as <-. rewrite visible_added by done. rewrite decide_True by done. by rewrite Hsv.
      * rewrite lookup_insert_ne in E by done. destruct (Hdev h j E) as (? & ? & Hvis). rewrite visible_added by done. by rewrite decide_False.
    + rewrite Hm4. cbn. apply lookup_insert_eq.
Qed.

(** The device of the pool a request makes its snapshot of. *)
Definition origin (w : W) (base : string) : option Z := DeviceId <$> visible (view w) base.

Lemma wp_AddDevice w hash base (C : View -> Prop) (Q : W -> result string () -> Prop) :
  good w -> hash_ok hash -> hash_ok base -> NewTransactionId (mem w) + 1 < 2 ^ 64 ->
  C (view w) ->
  (forall i, new_device w hash base i -> C (pool_grown (view w) (DeviceId i) (origin w base)) /\ C (file_saved (pool_grown (view w) (DeviceId i) (origin w base)) i) /\ C (file_saved (view w) i) /\ C (device_added (view w) i (origin w base))) ->
  (forall w' e, after_failure w hash w' -> Q w' (Err e)) ->
  (forall w' i, new_device w hash base i -> good w' -> view w' = device_added (view w) i (origin w base) -> Devices (mem w') !! hash = Some i -> NewTransactionId (mem w') = NewTransactionId (mem w) + 1 -> Q w' (Ok ())) ->
  wp w (AddDevice fuel hash base) C Q.
Proof.
  intros Hg Hh Hb Hn HC HCi He Ho. assert (forall w' e, loads w w' -> Q w' (Err e)) as He0. { intros w' e Hl. by apply He, failed_loads. }
  unfold AddDevice. apply wp_bind, wp_lookupDevice; [done..|by auto|]. intros w1 b Hl1 Eb. cbv iota beta. pose proof (loads_good _ _ Hg Hl1) as Hg1. destruct (loads_ids _ _ Hl1) as (Hn1 & Hx1 & Hv1).
  apply wp_bind, wp_lookup_or_nil; [done|done|by rewrite Hv1|]. intros w2 [o|] Hl2 Eo; cbv iota beta; pose proof (loads_trans _ _ _ Hl1 Hl2) as Hl; [by apply wp_fail, He0|].
  pose proof (loads_good _ _ Hg Hl) as Hg2. destruct (loads_ids _ _ Hl) as (Hn2 & Hx2 & Hv2). pose proof Hg1 as [_ _ Hk1]. pose proof Hg2 as [Hc2 Hs2 Hk2].
  destruct (cached_devices _ _ Hk1 base b Eb) as (_ & Hbh & Hbv). rewrite Hv1 in Hbv. clear Hl2 Hg1 Hk1 Hn1 Hx1 Hv1 Eb w1 Hl1.
  apply wp_bind, wp_get. cbv iota beta. assert (getPoolDevName (mem w2) = pool) as ->. { unfold getPoolDevName, getPoolName, pool. by rewrite (proj2 (cached_at _ _ Hk2)). }
  pose proof (cached_next _ _ Hk2) as Hnext. pose proof (cached_new _ _ Hk2) as Hnew. destruct (visible_inv _ _ _ Hbv) as [Hbst _]. pose proof Hg as [Hc _ _].
  destruct (stored_inv _ _ _ Hc Hb Hbst) as (_ & _ & Hbok & _). rewrite (cached_tx _ _ Hk2), Hv2, Hn2 in Hnew.
  assert (origin w base = Some (DeviceId b)) as Hor by (unfold origin; by rewrite Hbv). rewrite Hor in HCi, Ho.
  assert (pool_thin (host w2) = v_thin (view w) /\ pool_tx (host w2) = v_tx (view w)) as [Hids2 Htx2] by (by rewrite <- Hv2).
  set (dev j := new_info hash j (Size b) (NewTransactionId (mem w) + 1)).
  assert (forall j, first_free (v_ids (view w)) (nextDeviceId (mem w2)) j -> j < 16777216 -> new_device w hash base (dev j)) as Hdev.
  { intros j Hj Hlt. exists b. split_and!; [done|done| |done]. cbn. by rewrite <- Hx2. }
  assert (forall j, first_free (v_ids (view w)) (nextDeviceId (mem w2)) j -> j < 16777216 -> fits (view w) (dev j)) as Hfit.
  { intros j Hj Hlt. destruct Hj as (Hle & Hfree & _). pose proof (tx_range _ Hc). split; [done| |done|done|change (v_tx (view w) < NewTransactionId (mem w) + 1); lia]. destruct Hbok as (_ & Hbs & _). unfold info_ok. change (0 <= j < 16777216 /\ 0 <= Size b < 2 ^ 64 /\ 0 <= NewTransactionId (mem w) + 1 < 2 ^ 64). change (0 <= Size b < 2 ^ 64) in Hbs. lia. }
  rewrite Hv2 in Hk2. apply wp_bind, wp_createSnapDevice; rewrite ?Hv2, ?Hids2, ?Htx2; [lia|lia|done| | |].
  - intros j Hj Hlt. by destruct (HCi _ (Hdev j Hj Hlt)).
  - intros w3 e ids Hids Hm3. destruct Hids as [->|(j & Hj & Hlt & ->)].
    + apply He0. eapply loads_trans; [exact Hl|]. apply loads_still, still_moved. by rewrite Hv2.
    + pose proof (moved_view _ _ _ _ Hm3) as Hv3. apply He. apply (failed_after w w3 (dev j) (mem w2) (<[j := Some (DeviceId b)]> (v_thin (view w))) (NewTransactionId (mem w2)) (nextDeviceId (mem w2)) (Devices (mem w2))); try done; [by apply Hfit| | |rewrite dom_insert; set_solver|].
      * destruct Hm3 as (_ & _ & _ & ->). by destruct (mem w2).
      * rewrite (cached_tx _ _ Hk2), Hn2. lia.
      * left. rewrite Hv3, Hv2. done.
  - intros w3 j Hj Hlt _ Hm3. cbv iota beta. pose proof (moved_view _ _ _ _ Hm3) as Hv3. pose proof (Hfit j Hj Hlt) as Hf. destruct (HCi _ (Hdev j Hj Hlt)) as (HC1 & HC2 & HC3 & HC4).
    apply wp_bind, wp_modify. cbv iota beta. destruct Hm3 as (_ & _ & _ & Hm3).
    apply (wp_register_new w _ (mem w2) (next_id j) (dev j) (Some (DeviceId b)) (fun _ => mret ())); try done; [by rewrite Hn2|apply next_id_range|by rewrite <- Hm3|by etrans; [exact Hv3|rewrite Hv2]|].
    intros w4 Hg4 Hv4 Hd4 Hn4. apply wp_ret, (Ho w4 (dev j)); [by apply Hdev|done..].
Qed.

(** C29. The device mapper's transaction makes a new device appear at once, or
    not at all: [AddDevice] returns; in every state the daemon may be stopped
    in on the way, a daemon that starts again sees exactly the other devices
    it saw before, and either nothing of the new one or the complete device,
    with the size of its base and the first identifier that was free in the
    pool, where it is a snapshot of the base's device.  After success it sees
    the device; after an error it does not. *)
Theorem AddDevice_atomic w hash base : good w -> hash_ok hash -> hash_ok base -> visible (view w) hash = None -> NewTransactionId (mem w) + 1 < 2 ^ 64 ->
  exists w' r ext, AddDevice fuel hash base w = Return (w', r) /\ past w' = past w ++ ext /\
    Forall (fun '(k, fs) => consistent (view_of k fs) /\ (forall x, hash_ok x -> x <> hash -> visible (view_of k fs) x = visible (view w) x) /\
      (visible (view_of k fs) hash = None \/ exists i, new_device w hash base i /\ visible (view_of k fs) hash = Some i /\ pool_thin k !! DeviceId i = Some (origin w base))) ext /\
    match r with
    | Ok _ => good w' /\ exists i, new_device w hash base i /\ visible (view w') hash = Some i /\ Devices (mem w') !! hash = Some i /\ pool_thin (host w') !! DeviceId i = Some (origin w base)
    | Err _ => after_failure w hash w' /\ visible (view w') hash = None
    end.
Proof.
  intros Hg Hh Hb Hvis Hn. pose proof Hg as [Hc Hs Hk].
  set (C v := consistent v /\ (forall x, hash_ok x -> x <> hash -> visible v x = visible (view w) x) /\
      (visible v hash = None \/ exists i, new_device w hash base i /\ visible v hash = Some i /\ v_thin v !! DeviceId i = Some (origin w base))).
  assert (forall i, new_device w hash base i -> Hash i = hash /\ fits (view w) i) as Hfit.
  { intros i (b & Eb & Ei & (Hle & Hfree & _) & Hlt). destruct (visible_inv _ _ _ Eb) as [Est _]. destruct (stored_inv _ _ _ Hc Hb Est) as (_ & _ & (_ & Hsz & _) & _).
    pose proof (tx_range _ Hc). pose proof (cached_next _ _ Hk). pose proof (cached_new _ _ Hk) as Hnew. rewrite (cached_tx _ _ Hk) in Hnew. rewrite Ei in Hfree, Hle, Hlt |- *.
    change (0 <= Size b < 2 ^ 64) in Hsz. split; [done|]. split; [done| |done|done|change (v_tx (view w) < NewTransactionId (mem w) + 1); lia]. split_and!; cbn in *; lia. }
  assert (wp w (AddDevice fuel hash base) C (fun w' r => match r with
    | Ok _ => good w' /\ exists i, new_device w hash base i /\ visible (view w') hash = Some i /\ Devices (mem w') !! hash = Some i /\ pool_thin (host w') !! DeviceId i = Some (origin w base)
    | Err _ => after_failure w hash w' /\ visible (view w') hash = None end)) as (w' & r & ext & E & HQ & Hp & HC); [|by exists w', r, ext].
  assert (forall i v', new_device w hash base i -> v_thin v' = v_thin (view w) \/ v_thin v' = <[DeviceId i := origin w base]> (v_thin (view w)) ->
    v_tx v' = v_tx (view w) -> v_meta v' = v_meta (view w) \/ v_meta v' = v_meta (file_saved (view w) i) -> C v') as Hmid.
  { intros i [ids tx m] Hi Hids Htx Hm. cbn in *. subst tx. destruct (Hfit i Hi) as [Hhi Hf]. assert (v_ids (view w) ⊆ dom ids) as Hsub by (destruct Hids as [-> | ->]; rewrite ?dom_insert; set_solver).
    destruct Hm as [-> | ->].
    - split; [by apply (consistent_ids (view w) ids)|]. split; [done|by left].
    - pose proof (fun x => visible_file_saved (view w) i x Hf) as Hv. split; [by apply (consistent_ids (file_saved (view w) i) ids); [apply consistent_waiting|]|]. split.
      + intros x Hx Hne. etrans; [by apply (Hv x)|]. rewrite Hhi. by rewrite decide_False.
      + left. etrans; [by apply (Hv hash)|]. rewrite Hhi. by rewrite decide_True. }
  apply wp_AddDevice; [done..| | | |].
  - split; [done|]. split; [done|by left].
  - intros i Hi. destruct (Hfit i Hi) as [Hhi Hf]. split_and!.
    + apply (Hmid i); [done|by right|done|by left].
    + apply (Hmid i); [done|by right|done|by right].
    + apply (Hmid i); [done|by left|done|by right].
    + destruct (added_consistent _ _ (origin w base) Hc Hs Hf) as [Hc' _]. split; [done|]. pose proof (fun x => visible_added (view w) i (origin w base) x Hs Hf) as Hv. split.
      * intros x Hx Hne. rewrite Hv by done. rewrite Hhi. by rewrite decide_False.
      * right. exists i. split; [done|]. rewrite Hv by done. rewrite Hhi. rewrite decide_True by done. split; [done|]. apply lookup_insert_eq.
  - intros w' e Hf. split; [done|]. destruct (failure_itself _ _ _ Hf) as [-> | ->]; done.
  - intros w' i Hi Hg' Hv Hd _. split; [done|]. exists i. split; [done|]. destruct (Hfit i Hi) as [Hhi Hf]. split; [rewrite Hv, visible_added by done; rewrite Hhi; by rewrite decide_True|]. split; [done|].
    change (pool_thin (host w')) with (v_thin (view w')). rewrite Hv. apply lookup_insert_eq.
Qed.

(** The identifier is taken at the top of the range: the loop does not wrap,
    and no request succeeds, whatever is free below. *)
Theorem AddDevice_top_taken w hash base : good w -> hash_ok hash -> hash_ok base -> NewTransactionId (mem w) + 1 < 2 ^ 64 ->
  nextDeviceId (mem w) = 16777215 -> 16777215 ∈ v_ids (view w) ->
  exists w' e, AddDevice fuel hash base w = Return (w', Err e).
Proof.
  intros Hg Hh Hb Hn Hx Hin. assert (forall i, ~ new_device w hash base i) as Hno.
  { intros i (b & _ & _ & (Hle & Hfree & _) & Hlt). rewrite Hx in Hle. assert (DeviceId i = 16777215) as E by lia. by rewrite E in Hfree. }
  assert (wp w (AddDevice fuel hash base) (fun _ => True) (fun _ r => exists e, r = Err e)) as (w' & r & ext & E & (e & ->) & _); [|by exists w', e].
  apply wp_AddDevice; [done..|by eauto|]. intros w' i Hi. by destruct (Hno i).
Qed.

(** ** A device that is deleted *)

Definition pool_shrunk (v : View) (j : Z) : View := set_ids v (delete j (v_thin v)).
Definition file_removed (v : View) (h : string) : View := set_meta v (filter (fun '(p, _) => kept_by (key h) p = true) (v_meta v)).

Lemma contains_char_right c a b : contains_char c b = true -> contains_char c (a +:+ b) = true.
Proof. intros Hb. rewrite contains_char_app, Hb. apply orb_true_r. Qed.

Lemma kept_key h x : hash_ok h -> hash_ok x -> kept_by (key h) (key x) = negb (bool_decide (x = h)).
Proof.
  intros Hh Hx. unfold kept_by. case_bool_decide as Heq; [subst x; by rewrite String.eqb_refl|].
  assert (String.eqb (key x) (key h) = false) as -> by (apply String.eqb_neq; intros E; apply Heq; by apply key_inj in E). cbn [orb negb].
  destruct (has_prefix (key h +:+ "/") (key x)) eqn:E; [|done]. exfalso. apply has_prefix_inv in E as [r E]. unfold key in E. rewrite !abs_snoc in E.
  rewrite !string_app_assoc in E. assert (forall a b c : string, a +:+ b = a +:+ c -> b = c) as Hinj. { intros a b c. induction a as [|ch a IH]; [done|]. rewrite !string_app_cons. intros [= E']. by apply IH. }
  apply Hinj in E. injection E as E. change (file_name x = file_name h +:+ ("/" +:+ r)) in E. destruct (file_name_plain x Hx) as (Hn & _). rewrite E in Hn.
  by rewrite (contains_char_right "/" (file_name h) ("/" +:+ r)) in Hn.
Qed.

Lemma stored_removed v h x : hash_ok h -> hash_ok x -> stored (file_removed v h) x = if decide (x = h) then None else stored v x.
Proof.
  intros Hh Hx. unfold stored, file_removed. cbn.
  assert ((filter (fun '(p, _) => kept_by (key h) p = true) (v_meta v) : gmap string string) !! key x = if decide (x = h) then None else v_meta v !! key x) as ->; [|by destruct (decide (x = h))].
  apply option_eq. intros t. rewrite map_lookup_filter_Some, kept_key by done. destruct (decide (x = h)) as [->|Hne].
  - rewrite bool_decide_eq_true_2 by done. split; [by intros [_ ?]|done].
  - rewrite bool_decide_eq_false_2 by done. split; [by intros [? _]|done].
Qed.

(** The state without the device. *)
Definition device_deleted (v : View) (i : DevInfo) : View := file_removed (pool_shrunk v (DeviceId i)) (Hash i).

Lemma visible_deleted v i x : hash_ok (Hash i) -> hash_ok x -> visible (device_deleted v i) x = if decide (x = Hash i) then None else visible v x.
Proof. intros Hi Hx. unfold visible, device_deleted. rewrite stored_removed by done. by destruct (decide (x = Hash i)). Qed.

Lemma deleted_consistent v i : consistent v -> settled v -> hash_ok (Hash i) -> visible v (Hash i) = Some (saved i) -> consistent (device_deleted v i) /\ settled (device_deleted v i).
Proof.
  intros [F P O X] Hs Hh Hv. pose proof (fun x => visible_deleted v i x Hh) as Hvis. split; [split; [| | |done]|].
  - intros h t Hx E. cbn in E. apply map_lookup_filter_Some in E as [E _]. by apply F.
  - intros h j Hx E. rewrite Hvis in E by done. destruct (decide (h = Hash i)) as [|Hne]; [done|]. cbn. rewrite dom_delete. apply elem_of_difference. split; [by eapply (P h)|].
    rewrite elem_of_singleton. intros Hid. apply Hne. by apply (O h (Hash i) j (saved i)).
  - intros h1 h2 i1 i2 H1 H2 E1 E2. rewrite Hvis in E1, E2 by done. destruct (decide (h1 = Hash i)); [done|]. destruct (decide (h2 = Hash i)); [done|]. by apply O.
  - intros h j Hx E. unfold device_deleted in E. rewrite stored_removed in E by done. destruct (decide (h = Hash i)); [done|]. by apply (Hs h).
Qed.

Lemma meta_filter_kept p fs : meta (filter (fun '(q, _) => kept_by p q = true) fs) = filter (fun '(q, _) => kept_by p q = true) (meta fs).
Proof. unfold meta. apply map_filter_comm. Qed.

Lemma wp_removeMetadata w i (C : View -> Prop) (Q : W -> result string () -> Prop) :
  set_at (mem w) -> hash_ok (Hash i) -> C (view w) -> C (file_removed (view w) (Hash i)) ->
  (forall w' e, still w w' -> ~ steady -> Q w' (Err e)) ->
  (forall w', view w' = file_removed (view w) (Hash i) -> mem w' = mem w -> Q w' (Ok ())) -> wp w (removeMetadata i) C Q.
Proof.
  intros Hat Hh HC HC' He Ho. unfold removeMetadata. apply wp_bind, wp_get. cbv iota beta. rewrite metadataFile_key by done.
  apply wp_wrap, wp_bind, wp_wrap. destruct (sys (host w) (RemoveTree (key (Hash i)))) as [k r] eqn:E. pose proof (law_sys _ _ _ _ E) as [Hi Ht].
  eapply (wp_enter w k); [unfold file_call; by rewrite E| |]; destruct r as [n|e].
  - unfold view_of. by rewrite meta_filter_kept, Hi, Ht.
  - unfold view_of. by rewrite Hi, Ht.
  - cbv iota beta. apply wp_ret, Ho; [|done]. unfold view, view_of. cbn. by rewrite meta_filter_kept, Hi, Ht.
  - cbv iota beta. apply He; [by apply still_enter|]. intros Hst. pose proof (steady_remove Hst (host w) (key (Hash i))) as Hok. by rewrite E in Hok.
Qed.

(** What a deletion that failed leaves: everything as it was, or, where the
    file could not be removed, a device that is no longer in the pool. *)
Lemma wp_set_deleteDevice w i (C : View -> Prop) (Q : W -> result string () -> Prop) :
  good w -> Devices (mem w) !! Hash i = Some i -> NewTransactionId (mem w) + 1 < 2 ^ 64 ->
  C (view w) -> C (pool_shrunk (view w) (DeviceId i)) -> C (device_deleted (view w) i) ->
  (forall w' e, still w w' -> Q w' (Err e)) ->
  (forall w' e, view w' = pool_shrunk (view w) (DeviceId i) -> mem w' = put_info (set_new (mem w) (NewTransactionId (mem w) + 1)) i -> ~ steady -> Q w' (Err e)) ->
  (forall w', good w' -> view w' = device_deleted (view w) i -> mem w' = delete_info (set_new (mem w) (NewTransactionId (mem w) + 1)) (Hash i) -> Q w' (Ok ())) ->
  wp w (set_deleteDevice i) C Q.
Proof.
  intros Hg Hd Hn HC HC1 HC2 He He1 Ho. pose proof Hg as [Hc Hs Hk]. destruct (cached_devices _ _ Hk _ _ Hd) as (Hh & _ & Hvis). pose proof (cached_at _ _ Hk) as Hat.
  unfold set_deleteDevice. apply wp_bind, wp_get. cbv iota beta.
  apply wp_bind, (quiet_wp _ (fun _ => True)); [destruct (doBlkDiscard (mem w)); silent_auto|done|]. intros w1 [[]|e] Hs1 _; [|by apply He].
  apply wp_bind. eapply quiet_wp; [apply silent_device_exists|by rewrite (still_view _ _ Hs1)|]. intros w2 [there|e] Hs2' _; pose proof (still_trans _ _ _ Hs1 Hs2') as Hs2; [|by apply He].
  apply wp_bind, (quiet_wp _ (fun _ => True)); [destruct there; silent_auto|by rewrite (still_view _ _ Hs2)|]. intros w3 [[]|e] Hs3' _; pose proof (still_trans _ _ _ Hs2 Hs3') as Hs3; [|by apply He].
  assert (getPoolDevName (mem w) = pool) as -> by (unfold getPoolDevName, getPoolName, pool; by rewrite (proj2 Hat)). destruct (still_pool _ _ Hs3) as [Hi3 Ht3].
  apply wp_bind, wp_deleteDevice; rewrite ?(still_view _ _ Hs3), ?Hi3, ?Ht3; [done|exact HC1| |].
  { intros w4 e Hs4. apply He. by eapply still_trans. }
  intros w4 Hm4. cbv iota beta. pose proof (moved_still _ _ _ _ _ Hs3 Hm4) as Hm. pose proof (moved_view _ _ _ _ Hm) as Hv. destruct Hm as (_ & _ & _ & Hmem).
  fold (pool_shrunk (view w) (DeviceId i)) in Hv. clear Hm4 Hs3 Hs3' Hs2 Hs2' Hs1 Hi3 Ht3 w1 w2 w3.
  apply wp_bind, wp_allocate. cbv iota beta. pose proof (tx_range _ Hc). pose proof (cached_new _ _ Hk). rewrite Hmem, uint64_next by (rewrite (cached_tx _ _ Hk) in *; lia).
  apply wp_bind, wp_modify. cbv iota beta. set (w5 := with_mem _ _). assert (view w5 = pool_shrunk (view w) (DeviceId i)) as Hv5 by exact Hv.
  assert (mem w5 = delete_info (set_new (mem w) (NewTransactionId (mem w) + 1)) (Hash i)) as Hm5 by done. clearbody w5. clear Hv Hmem w4.
  apply wp_bind, wp_attempt, wp_removeMetadata; rewrite ?Hv5, ?Hm5; [exact Hat|done|done|exact HC2| |].
  - intros w6 e Hs6 Hns. cbv iota beta. apply wp_bind, wp_modify. cbv iota beta. destruct Hs6 as (Hv6 & _ & Hm6). apply wp_fail, He1; [by etrans; [exact Hv6|]| |done].
    cbn. rewrite Hm6, Hm5. unfold put_info, delete_info. cbn. by rewrite insert_delete_eq.
  - intros w6 Hv6 Hm6. cbv iota beta. apply wp_ret, Ho; [|exact Hv6|done]. destruct (deleted_consistent _ _ Hc Hs Hh Hvis) as [Hc6 Hs6].
    split; rewrite Hv6; [done|done|]. rewrite Hm6. destruct Hk as [K1 K2 K3 K4 K5]. split; cbn; [done|done|lia|done|].
    intros h j E. apply lookup_delete_Some in E as [Hne E]. destruct (K5 h j E) as (? & ? & ?). fold (device_deleted (view w) i). rewrite visible_deleted by done. by rewrite decide_False.
Qed.

(** What [DeleteDevice] leaves: nothing has changed, or the device is gone, or
    it is gone from the pool only. *)
Lemma wp_DeleteDevice w h (C : View -> Prop) (Q : W -> result string () -> Prop) :
  good w -> hash_ok h -> NewTransactionId (mem w) + 1 < 2 ^ 64 ->
  C (view w) -> (forall i, visible (view w) h = Some (saved i) -> Hash i = h -> C (pool_shrunk (view w) (DeviceId i)) /\ C (device_deleted (view w) i)) ->
  (forall w' e, loads w w' -> Q w' (Err e)) ->
  (forall w' e i, visible (view w) h = Some (saved i) -> Hash i = h -> view w' = pool_shrunk (view w) (DeviceId i) -> ~ steady -> Q w' (Err e)) ->
  (forall w' i, visible (view w) h = Some (saved i) -> Hash i = h -> good w' -> view w' = device_deleted (view w) i -> Devices (mem w') !! h = None -> NewTransactionId (mem w') = NewTransactionId (mem w) + 1 -> Q w' (Ok ())) ->
  wp w (DeleteDevice h) C Q.
Proof.
  intros Hg Hh Hn HC HCi He He1 Ho. unfold DeleteDevice. apply wp_bind, wp_lookupDevice; [done..|by auto|]. intros w1 i Hl E. cbv iota beta.
  pose proof (loads_good _ _ Hg Hl) as Hg1. destruct (loads_ids _ _ Hl) as (Hn1 & Hx1 & Hv1). pose proof Hg1 as [_ _ Hk1]. destruct (cached_devices _ _ Hk1 h i E) as (_ & Hi & Hvis).
  rewrite Hv1 in Hvis. destruct (HCi i Hvis Hi) as [HC1 HC2]. apply wp_set_deleteDevice; rewrite ?Hv1, ?Hn1; [done|by rewrite Hi|done..| | |].
  - intros w' e Hs. apply He. eapply loads_trans; [exact Hl|]. by apply loads_still.
  - intros w' e Hv _ Hns. by apply (He1 w' e i).
  - intros w' Hg' Hv Hm. apply (Ho w' i); [done..| |by rewrite Hm; cbn; lia]. rewrite Hm. cbn. rewrite Hi. apply lookup_delete_eq.
Qed.

(** ** Mounting *)

(** The memory of a device changes in what no file says. *)
Lemma good_put w w' i j : good w -> view w' = view w -> mem w' = put_info (mem w) j -> Devices (mem w) !! Hash i = Some i -> saved j = saved i -> good w'.
Proof.
  intros [Hc Hs Hk] Hv Hm Hd Hsv. split; rewrite Hv; [done..|]. rewrite Hm. destruct Hk as [K1 K2 K3 K4 K5]. split; try done. cbn. intros h x E.
  assert (Hash j = Hash i) as Hj by (by injection Hsv). destruct (decide (h = Hash j)) as [->|Hne].
  - rewrite lookup_insert_eq in E. injection E as <-. destruct (K5 _ _ Hd) as (? & ? & Hvis). rewrite Hj, Hsv. by split_and!.
  - rewrite lookup_insert_ne in E by done. by apply K5.
Qed.

Lemma silent_wp {A} (m : T A) w C (Q : W -> result string A -> Prop) : quiet m (fun _ => True) -> C (view w) -> (forall w' r, still w w' -> Q w' r) -> wp w m C Q.
Proof. intros Hm HC HQ. eapply quiet_wp; [done..|]. intros w' r Hs _. by apply HQ. Qed.

(** Only the cache and the mounts change. *)
Definition calm (w w' : W) : Prop := good w' /\ view w' = view w /\ NewTransactionId (mem w') = NewTransactionId (mem w).

Definition keeps_view {A} (m : T A) : Prop :=
  forall w (C : View -> Prop), good w -> C (view w) -> wp w m C (fun w' _ => calm w w').

Lemma still_good w w' : good w -> still w w' -> calm w w'.
Proof. intros Hg Hs. split_and!; [|apply Hs|by destruct Hs as (_ & _ & ->)]. eapply loads_good; [done|]. by apply loads_still. Qed.

Lemma calm_refl w : good w -> calm w w.
Proof. intros Hg. by split_and!. Qed.

Lemma calm_trans w1 w2 w3 : calm w1 w2 -> calm w2 w3 -> calm w1 w3.
Proof. intros (_ & Hv & Hn) (Hg & Hv' & Hn'). split_and!; [done|congruence..]. Qed.

Lemma loads_calm w w' : good w -> loads w w' -> calm w w'.
Proof. intros Hg Hl. destruct (loads_ids _ _ Hl) as (? & _ & ?). split_and!; [by eapply loads_good|done..]. Qed.

Lemma kept_ret {A} (a : A) : keeps_view (mret a).
Proof. intros w C Hg HC. by apply wp_ret, calm_refl. Qed.

Lemma kept_fail {A} e : keeps_view (fail e : T A).
Proof. intros w C Hg HC. by apply wp_fail, calm_refl. Qed.

Lemma keeps_silent {A} (m : T A) : quiet m (fun _ => True) -> keeps_view m.
Proof. intros Hm w C Hg HC. apply silent_wp; [done..|]. intros w' r Hs. by apply still_good. Qed.

Lemma kept_bind {A B} (m : T A) (f : A -> T B) : keeps_view m -> (forall a, keeps_view (f a)) -> keeps_view (m ≫= f).
Proof.
  intros Hm Hf w C Hg HC. apply wp_bind. eapply wp_post; [by apply Hm|]. intros w' [a|e] Hcalm; [|done]. pose proof Hcalm as (Hg' & Hv & _).
  eapply wp_post; [apply Hf; [done|by rewrite Hv]|]. intros w2 r Hc2. by eapply calm_trans.
Qed.

Lemma keeps_attempt {A} (m : T A) : keeps_view m -> keeps_view (attempt m).
Proof. intros Hm w C Hg HC. apply wp_attempt. eapply wp_post; [by apply Hm|]. by intros. Qed.

Lemma keeps_wrap {A} f (m : T A) : keeps_view m -> keeps_view (wrap f m).
Proof. intros Hm w C Hg HC. apply wp_wrap. eapply wp_post; [by apply Hm|]. by intros. Qed.

Lemma keeps_lookup h : hash_ok h -> keeps_view (lookupDevice h).
Proof.
  intros Hh w C Hg HC. apply wp_lookupDevice; [done..| |]; intros w' x Hl _; by apply loads_calm.
Qed.

Lemma keeps_lookup_or_nil h : hash_ok h -> keeps_view (lookup_or_nil h).
Proof. intros Hh. apply kept_bind; [by apply keeps_attempt, keeps_lookup|]. intros a. apply kept_ret. Qed.

(** A lookup, and a computation on the device that is found. *)
Lemma keeps_lookup_bind {A} h (f : DevInfo -> T A) : hash_ok h ->
  (forall w (C : View -> Prop) i, good w -> C (view w) -> Devices (mem w) !! h = Some i -> Hash i = h -> wp w (f i) C (fun w' _ => calm w w')) ->
  keeps_view (lookupDevice h ≫= f).
Proof.
  intros Hh Hf w C Hg HC. apply wp_bind, wp_lookupDevice; [done..| |]; intros w' i Hl E; pose proof (loads_calm _ _ Hg Hl) as Hcalm; [done|].
  pose proof (loads_good _ _ Hg Hl) as Hg'. destruct (cached_devices _ _ (good_cached _ Hg') h i E) as (_ & Hi & _). destruct Hl as [Hv _].
  eapply wp_post; [by apply Hf; rewrite ?Hv|]. intros w2 r Hc2. by eapply calm_trans.
Qed.

Variable FormatMountLabel : string -> string -> string.

Lemma MountDevice_keeps h path label : hash_ok h -> keeps_view (MountDevice FormatMountLabel h path label).
Proof.
  intros Hh. apply keeps_lookup_bind; [done|]. intros w C i Hg HC E Hi. rewrite <- Hi in E. destruct (0 <? mountCount i).
  - destruct (negb _); [by apply wp_fail, calm_refl|]. apply wp_modify. split_and!; [|done..]. by apply (good_put w _ i (set_mount i (int64 (mountCount i + 1)) (mountPath i))).
  - apply wp_bind, wp_wrap, silent_wp; [apply silent_activateIfNeeded|done|]. intros w1 [[]|e] Hs1; cbv iota beta; [|by apply still_good].
    apply wp_bind, wp_get. cbv iota beta. apply wp_bind, silent_wp; [apply silent_probe|by rewrite (still_view _ _ Hs1)|].
    intros w2 [fs|e] Hs2; pose proof (still_trans _ _ _ Hs1 Hs2) as Hs; cbv iota beta zeta; [|by apply still_good].
    apply wp_bind, silent_wp; [apply silent_attempt, quiet_call|by rewrite (still_view _ _ Hs)|]. intros w3 [r|e] Hs3; pose proof (still_trans _ _ _ Hs Hs3) as Hs'; [|by apply still_good].
    apply wp_bind, silent_wp; [|by rewrite (still_view _ _ Hs')|].
    { destruct r as [n|e]; [by apply quiet_ret|]. destruct (String.eqb e EINVAL); [apply silent_attempt, quiet_call|by apply quiet_ret]. }
    intros w4 [[n|e]|e] Hs4; pose proof (still_trans _ _ _ Hs' Hs4) as Hsf; cbv iota beta; [|by apply wp_fail, still_good|by apply still_good].
    apply wp_modify. destruct Hsf as (Hv & _ & Hm). split_and!; [|exact Hv|cbn; by rewrite Hm]. apply (good_put w _ i (set_mount i 1 path)); [done|exact Hv| |done|done]. cbn. by rewrite Hm.
Qed.

Lemma UnmountDevice_keeps h : hash_ok h -> keeps_view (UnmountDevice h).
Proof.
  intros Hh. apply keeps_lookup_bind; [done|]. intros w C i Hg HC E Hi. rewrite <- Hi in E. destruct (mountCount i =? 0); [by apply wp_fail, calm_refl|].
  set (j := set_mount i (mountCount i - 1) (mountPath i)). cbv zeta. apply wp_bind, wp_modify. cbv iota beta.
  assert (good (with_mem w (put_info (mem w) j))) as Hg1 by (by apply (good_put w _ i j)). set (w1 := with_mem _ _) in *. assert (view w1 = view w) as Hv1 by done.
  assert (calm w w1) as Hc1 by (by split_and!).
  destruct (0 <? mountCount j); [by apply wp_ret|]. apply wp_bind, silent_wp; [apply quiet_call|by rewrite Hv1|]. intros w2 [n|e] Hs2; cbv iota beta; [|by eapply calm_trans, still_good].
  apply wp_bind, silent_wp; [apply silent_deactivate|by rewrite (still_view _ _ Hs2)|]. intros w3 [[]|e] Hs3; pose proof (still_trans _ _ _ Hs2 Hs3) as Hs; cbv iota beta; [|by eapply calm_trans, still_good].
  apply wp_modify. destruct Hs as (Hv & _ & Hm). split_and!; [|by etrans; [exact Hv|]|cbn; by rewrite Hm]. apply (good_put w1 _ j (set_mount j (mountCount j) "")); [done|exact Hv| | |done].
  - cbn. by rewrite Hm.
  - cbn. apply lookup_insert_eq.
Qed.

Variable range_devices : gmap string DevInfo -> list DevInfo.

Lemma HasDevice_keeps h : hash_ok h -> keeps_view (HasDevice h).
Proof. intros Hh. apply kept_bind; [by apply keeps_lookup_or_nil|]. intros a. apply kept_ret. Qed.

Lemma HasActivatedDevice_keeps h : hash_ok h -> keeps_view (HasActivatedDevice h).
Proof.
  intros Hh. apply kept_bind; [by apply keeps_lookup_or_nil|]. intros [i|]; [|apply kept_ret].
  apply keeps_silent. silent_auto.
Qed.

Lemma GetDeviceStatus_keeps h : hash_ok h -> keeps_view (GetDeviceStatus h).
Proof.
  intros Hh. apply kept_bind; [by apply keeps_lookup|]. intros i. apply keeps_silent. unfold deviceStatus. silent_auto.
Qed.

Lemma shutdown_devices_silent l : quiet (shutdown_devices l) (fun _ => True).
Proof. induction l as [|i l IH]; cbn [shutdown_devices]; silent_auto; exact IH. Qed.

Lemma Shutdown_keeps : keeps_view (Shutdown range_devices).
Proof.
  apply kept_bind; [apply keeps_silent, quiet_get|]. intros d. apply kept_bind; [apply keeps_silent, shutdown_devices_silent|]. intros _.
  apply kept_bind; [apply keeps_lookup_or_nil; by left|]. intros i. apply kept_bind; [apply keeps_silent; silent_auto|]. intros _. apply keeps_silent. silent_auto.
Qed.

(** ** The base image *)

(** A device's file is written again with another mark. *)
Lemma visible_again v i h : visible v (Hash i) <> None -> settled v -> hash_ok (Hash i) -> info_ok i -> info_TransactionId i <= v_tx v -> hash_ok h ->
  visible (file_saved v i) h = if decide (h = Hash i) then Some (saved i) else visible v h.
Proof.
  intros _ Hs Hi Hok Ht Hh. unfold visible. rewrite stored_saved by done. destruct (decide (h = Hash i)) as [->|]; [|done]. cbn. by apply Z.ltb_ge in Ht as ->.
Qed.

Lemma again_consistent v i j : consistent v -> settled v -> hash_ok (Hash i) -> visible v (Hash i) = Some (saved i) ->
  Hash j = Hash i -> DeviceId j = DeviceId i -> Size j = Size i -> info_TransactionId j = info_TransactionId i -> consistent (file_saved v j) /\ settled (file_saved v j).
Proof.
  intros Hv Hs Hh Hvis Eh Ed Esz Et. destruct (visible_inv _ _ _ Hvis) as [Hst Htx]. destruct (stored_inv _ _ _ Hv Hh Hst) as (_ & _ & Hok & _).
  assert (info_ok j) as Hok' by (unfold info_ok; rewrite Ed, Esz, Et; exact Hok). change (info_TransactionId i <= v_tx v) in Htx. rewrite <- Et in Htx. rewrite <- Eh in Hh, Hvis.
  assert (forall h, hash_ok h -> visible (file_saved v j) h = if decide (h = Hash j) then Some (saved j) else visible v h) as Hx.
  { intros h Hh'. apply visible_again; [congruence|done..]. }
  pose proof Hv as [F P O X]. split; [split|]; [| | |done|].
  - intros h t Hh' E. cbn in E. destruct (decide (h = Hash j)) as [->|Hne].
    + rewrite lookup_insert_eq in E. injection E as <-. by exists j.
    + rewrite lookup_insert_ne in E by (intros E'; apply Hne; by apply key_inj in E'). by apply F.
  - intros h k Hh' E. rewrite Hx in E by done. destruct (decide (h = Hash j)) as [->|]; [|by apply (P h)]. injection E as <-. change (DeviceId j ∈ v_ids v). rewrite Ed. by apply (P (Hash j) (saved i)).
  - intros h1 h2 i1 i2 H1 H2 E1 E2 Hid. rewrite Hx in E1, E2 by done.
    destruct (decide (h1 = Hash j)) as [->|], (decide (h2 = Hash j)) as [->|]; [done| | |by apply (O h1 h2 i1 i2)].
    + injection E1 as <-. apply (O (Hash j) h2 (saved i) i2); try done. cbn in *. congruence.
    + injection E2 as <-. apply (O h1 (Hash j) i1 (saved i)); try done. cbn in *. congruence.
  - intros h k Hh' E. change (v_tx (file_saved v j)) with (v_tx v). rewrite stored_saved in E by done. destruct (decide (h = Hash j)); [injection E as <-; done|by apply (Hs h)].
Qed.

(** Good, or stopped by a pool that refused a transaction or by a file that
    could not be removed. *)
Definition fine (w : W) (r : result string ()) : Prop := (steady -> good w) /\ (r = Ok () -> good w /\ exists i, visible (view w) "" = Some i /\ Initialized i = true).

Lemma fine_err w e : (steady -> good w) -> fine w (Err e).
Proof. by split. Qed.

Lemma failure_good w h w' : after_failure w h w' -> steady -> good w'.
Proof. intros Hf Hst. split; [apply Hf|by apply Hf|apply Hf]. Qed.

(** The file system of a base device that is registered, and its mark. *)
Definition make_base (info : DevInfo) : T () :=
  activateDeviceIfNeeded info;;
  createFilesystem info;;
  modify (fun d => put_info d (set_Initialized info true));;
  r ← attempt (saveMetadata (set_Initialized info true));
  match r with
  | Ok _ => mret ()
  | Err e => modify (fun d => put_info d (set_Initialized info false));; fail e
  end.

Lemma wp_make_base w i : good w -> Devices (mem w) !! Hash i = Some i -> Hash i = "" -> Initialized i = false -> TransactionId (mem w) = NewTransactionId (mem w) ->
  wp w (make_base i) (fun _ => True) fine.
Proof.
  intros Hg Hd Hh Hini HNew. assert (hash_ok (Hash i)) as Hok by (rewrite Hh; by left). pose proof Hg as [Hc Hs Hk]. pose proof Hk as [K1 K2 K3 K4 K5]. destruct (K5 _ _ Hd) as (_ & _ & Hvis).
  pose proof (tx_range _ Hc) as Hr. set (j := set_Initialized i true).
  apply wp_bind, silent_wp; [apply silent_activateIfNeeded|done|]. intros w1 [[]|e] Hs1; cbv iota beta; [|apply fine_err; intros _; by eapply still_good].
  apply wp_bind, silent_wp; [apply silent_createFilesystem|done|]. intros w2 [[]|e] Hs2'; pose proof (still_trans _ _ _ Hs1 Hs2') as (Hv2 & _ & Hm2); cbv iota beta; [|apply fine_err; intros _; by eapply still_good, (still_trans _ _ _ Hs1)].
  apply wp_bind, wp_modify. cbv iota beta. rewrite Hm2. set (w3 := with_mem w2 _). assert (view w3 = view w) as Hv3 by exact Hv2. assert (mem w3 = put_info (mem w) j) as Hm3 by done. clearbody w3. clear Hv2 Hm2 Hs1 Hs2' w1 w2.
  destruct (again_consistent _ i j Hc Hs Hok Hvis eq_refl eq_refl eq_refl eq_refl) as [Hc' Hs'].
  destruct (visible_inv _ _ _ Hvis) as [Hst Htx]. destruct (stored_inv _ _ _ Hc Hok Hst) as (_ & _ & Hiok & _). change (info_TransactionId i <= v_tx (view w)) in Htx.
  apply wp_bind, wp_attempt, wp_saveMetadata; rewrite ?Hm3, ?Hv3; [exact K1|exact Hok|exact K2|done|change (0 <= NewTransactionId (mem w) < 2 ^ 64); rewrite <- HNew, K2; done|done..| |].
  - intros w4 e Hm4 Hv4. cbv iota beta. apply wp_bind, wp_modify. cbv iota beta. apply wp_fail, fine_err. intros Hstd. destruct Hv4 as [Hv4|[_ Hns]]; [|done].
    assert (set_Initialized i false = i) as Ei by (unfold set_Initialized; rewrite <- Hini; by destruct i). rewrite Ei.
    apply (good_put w _ i i); [done|exact Hv4| |done|done]. cbn. rewrite Hm4. unfold put_info. cbn. by rewrite insert_insert_eq.
  - intros w4 Hm4 Hv4. cbv iota beta. apply wp_ret. change (NewTransactionId (put_info (mem w) j)) with (NewTransactionId (mem w)) in Hm4, Hv4.
    assert (view w4 = file_saved (view w) j) as Hv4'. { rewrite Hv4, <- HNew, K2. by destruct (view w). }
    assert (forall h, hash_ok h -> visible (file_saved (view w) j) h = if decide (h = Hash j) then Some (saved j) else visible (view w) h) as Hx.
    { intros h Hh'. apply visible_again; [|done..]. change (Hash j) with (Hash i). congruence. }
    assert (good w4) as Hg4.
    { split; rewrite Hv4'; [done|done|]. rewrite Hm4. split; cbn; [exact K1|by rewrite <- HNew, K2|lia|done|]. intros h x E. destruct (decide (h = Hash j)) as [->|Hne].
      - rewrite lookup_insert_eq in E. injection E as <-. rewrite Hx by done. by rewrite decide_True.
      - rewrite lookup_insert_ne in E by done. destruct (K5 h x E) as (? & ? & ?). rewrite Hx by done. by rewrite decide_False. }
    split; [done|]. intros _. split; [done|]. exists (saved j). rewrite Hv4', Hx by (by left). rewrite decide_True by done. done.
Qed.

Lemma fine_trans_delete w i : good w -> Devices (mem w) !! Hash i = Some i -> NewTransactionId (mem w) + 1 < 2 ^ 64 ->
  wp w (set_deleteDevice i) (fun _ => True) (fun w' r => (steady -> good w') /\ (r = Ok () -> good w' /\ NewTransactionId (mem w') <= NewTransactionId (mem w) + 1 /\ Devices (mem w') !! Hash i = None /\ baseFsSize (mem w') = baseFsSize (mem w))).
Proof.
  intros Hg Hd Hn. apply wp_set_deleteDevice; [done..| | |].
  - intros w' e Hs. split; [|done]. intros _. by eapply still_good.
  - by intros w' e _ _ Hns.
  - intros w' Hg' _ Hm. split; [done|]. intros _. split; [done|]. rewrite Hm. cbn. split; [lia|]. split; [apply lookup_delete_eq|done].
Qed.

(** The base device when there is none: it is made, registered and filled. *)
Lemma wp_new_base w : good w -> Devices (mem w) !! "" = None -> 0 <= baseFsSize (mem w) < 2 ^ 64 -> NewTransactionId (mem w) + 1 < 2 ^ 64 ->
  wp w (d ← get;
    id ← createDevice fuel (getPoolDevName d) (nextDeviceId d);
    modify (fun d => set_next d (next_id id));;
    r ← attempt (registerDevice id "" (baseFsSize d));
    match r with
    | Err e => attempt (deleteDevice (getPoolDevName d) id);; fail e
    | Ok info => make_base info
    end) (fun _ => True) fine.
Proof.
  intros Hg Hd Hsz Hn. pose proof Hg as [Hc Hs Hk]. pose proof Hk as [K1 K2 K3 K4 K5]. pose proof (tx_range _ Hc) as Hr.
  apply wp_bind, wp_get. cbv iota beta. assert (getPoolDevName (mem w) = pool) as -> by (unfold getPoolDevName, getPoolName, pool; by rewrite (proj2 K1)).
  apply wp_bind, wp_createDevice; [lia|lia|done|done| |].
  - intros w' e Hst. apply fine_err. intros _. by eapply still_good.
  - intros w3 j Hj Hlt Hm3. cbv iota beta. pose proof (moved_view _ _ _ _ Hm3) as Hv3. destruct Hm3 as (_ & _ & _ & Hm3). apply wp_bind, wp_modify. cbv iota beta. rewrite Hm3.
    set (i := new_info "" j (baseFsSize (mem w)) (NewTransactionId (mem w) + 1)).
    assert (fits (view w) i) as Hf.
    { destruct Hj as (Hle & Hfree & _). split; [by left| |done|done|change (v_tx (view w) < NewTransactionId (mem w) + 1); lia].
      unfold info_ok. change (0 <= j < 16777216 /\ 0 <= baseFsSize (mem w) < 2 ^ 64 /\ 0 <= NewTransactionId (mem w) + 1 < 2 ^ 64). lia. }
    apply (wp_register_new w _ (mem w) (next_id j) i None make_base (fun _ => True) fine); try done; [apply next_id_range| |].
    + intros w' e Hfail. apply fine_err. by apply (failure_good w "").
    + intros w4 Hg4 Hv4 Hd4 Hn4. apply wp_make_base; [done|done|done|done|]. pose proof Hg4 as [_ _ Hk4]. rewrite (cached_tx _ _ Hk4), Hv4, Hn4. done.
Qed.

(** A set that starts ends with a base image: from a state with sound
    files, [setupBaseImage] returns, whatever fails on the way; the set is
    sound afterwards, whether it failed or not (if the pool takes its
    transactions and files can be removed), and after success the base device
    counts and is marked as initialized. *)
Theorem setupBaseImage_good w : good w -> 0 <= baseFsSize (mem w) < 2 ^ 64 -> NewTransactionId (mem w) + 2 < 2 ^ 64 ->
  exists w' r, setupBaseImage fuel w = Return (w', r) /\ (steady -> good w') /\
    (r = Ok () -> good w' /\ exists i, visible (view w') "" = Some i /\ Initialized i = true).
Proof.
  intros Hg Hsz Hn. assert (wp w (setupBaseImage fuel) (fun _ => True) fine) as (w' & r & ext & E & (H1 & H2) & _); [|by exists w', r].
  unfold setupBaseImage. apply wp_bind, wp_lookup_or_nil; [done|by left|done|]. intros w1 o Hl Ho. cbv iota beta. pose proof (loads_good _ _ Hg Hl) as Hg1. destruct (loads_ids _ _ Hl) as (Hn1 & _ & _).
  assert (baseFsSize (mem w1) = baseFsSize (mem w)) as Hb1 by (by destruct Hl as (_ & m & -> & _)).
  destruct o as [i|]; cbv iota beta.
  - pose proof Hg1 as [_ _ Hk1]. destruct (cached_devices _ _ Hk1 "" i Ho) as (_ & Hi & Hvis). destruct (Initialized i) eqn:Ei.
    + apply wp_ret. split; [done|]. intros _. split; [done|]. exists (saved i). done.
    + rewrite <- Hi in Ho. apply wp_bind. eapply wp_post; [apply fine_trans_delete; [done|done|lia]|]. intros w2 [[]|e] [Hst Hok]; cbv iota beta; [|by apply fine_err].
      destruct (Hok eq_refl) as (Hg2 & Hn2 & Hd2 & Hb2). rewrite Hi in Hd2. apply wp_new_base; [done|done|by rewrite Hb2, Hb1|lia].
  - apply wp_bind, wp_ret. cbv iota beta. apply wp_new_base; [done|done|by rewrite Hb1|lia].
Qed.

(** ** Sequences of requests *)

Inductive request :=
| Add (hash base : string)
| Delete (hash : string)
| Mount (hash path label : string)
| Unmount (hash : string)
| Has (hash : string)
| Active (hash : string)
| StatusOf (hash : string)
| Stop.

Definition request_ok (q : request) : Prop :=
  match q with
  | Add h b => hash_ok h /\ hash_ok b
  | Delete h | Mount h _ _ | Unmount h | Has h | Active h | StatusOf h => hash_ok h
  | Stop => True
  end.

(** A request; its caller sees the error, the set goes on. *)
Definition serve (q : request) : T () :=
  match q with
  | Add h b => attempt (AddDevice fuel h b);; mret ()
  | Delete h => attempt (DeleteDevice h);; mret ()
  | Mount h path label => attempt (MountDevice FormatMountLabel h path label);; mret ()
  | Unmount h => attempt (UnmountDevice h);; mret ()
  | Has h => attempt (HasDevice h);; mret ()
  | Active h => attempt (HasActivatedDevice h);; mret ()
  | StatusOf h => attempt (GetDeviceStatus h);; mret ()
  | Stop => attempt (Shutdown range_devices);; mret ()
  end.

Fixpoint serve_all (l : list request) : T () :=
  match l with [] => mret () | q :: l => serve q;; serve_all l end.

(** Good again, at most one transaction later. *)
Definition next_good (w w' : W) : Prop := good w' /\ NewTransactionId (mem w') <= NewTransactionId (mem w) + 1.

Lemma attempt_keeps {A} (m : T A) w : keeps_view m -> good w -> wp w (attempt m;; mret ()) (fun _ => True) (fun w' r => r = Ok () /\ next_good w w').
Proof.
  intros Hm Hg. apply wp_bind, wp_attempt. eapply wp_post; [by apply Hm|]. intros w' r (Hg' & Hv & Hn). cbv iota beta. apply wp_ret. split; [done|]. split; [done|lia].
Qed.

Lemma serve_good w q : steady -> good w -> request_ok q -> NewTransactionId (mem w) + 1 < 2 ^ 64 ->
  wp w (serve q) (fun _ => True) (fun w' r => r = Ok () /\ next_good w w').
Proof.
  intros Hst Hg Hq Hn. destruct q as [h b|h|h p l|h|h|h|h|]; cbn in Hq.
  - destruct Hq as [Hh Hb]. apply wp_bind, wp_attempt, wp_AddDevice; [done..| |].
    + intros w' e Hf. cbv iota beta. apply wp_ret. split; [done|]. split; [|apply Hf]. split; [apply Hf|by apply Hf|apply Hf].
    + intros w' i _ Hg' _ _ Hn'. cbv iota beta. apply wp_ret. split; [done|]. split; [done|lia].
  - apply wp_bind, wp_attempt, (wp_DeleteDevice _ h); [done..| | |].
    + intros w' e Hl. cbv iota beta. apply wp_ret. destruct (loads_calm _ _ Hg Hl) as (? & _ & ?). split; [done|]. split; [done|lia].
    + done.
    + intros w' i _ _ Hg' _ _ Hn'. cbv iota beta. apply wp_ret. split; [done|]. split; [done|lia].
  - by apply attempt_keeps; [apply MountDevice_keeps|].
  - by apply attempt_keeps; [apply UnmountDevice_keeps|].
  - by apply attempt_keeps; [apply HasDevice_keeps|].
  - by apply attempt_keeps; [apply HasActivatedDevice_keeps|].
  - by apply attempt_keeps; [apply GetDeviceStatus_keeps|].
  - by apply attempt_keeps; [apply Shutdown_keeps|].
Qed.

(** C30. Whatever requests the set of devices serves, and whatever calls of
    the device mapper, the kernel and the file system fail meanwhile, but for
    the three of [steady], every request returns and the set stays sound: each
    device that counts is in the thin pool with an identifier no other device
    has, no file waits for a later transaction, and the devices in memory are
    the ones on disk.  Taken for granted are the laws of the pool, and, as
    [steady], that the messages to the pool can be made, that the pool takes
    the transaction that follows its own and that metadata files can be
    removed: a failure there leaves a file that waits, or a device that is no
    longer in the pool. *)
Theorem serve_all_good w l : steady -> good w -> Forall request_ok l -> NewTransactionId (mem w) + Z.of_nat (length l) < 2 ^ 64 ->
  exists w', serve_all l w = Return (w', Ok ()) /\ good w'.
Proof.
  intros Hst Hg Hl Hn. assert (wp w (serve_all l) (fun _ => True) (fun w' r => r = Ok () /\ good w')) as (w' & r & ext & E & (-> & Hg') & _); [|by exists w'].
  revert w Hg Hn. induction Hl as [|q l Hq Hl IH]; intros w Hg Hn; cbn [serve_all]; [by apply wp_ret|]. cbn [length] in Hn.
  apply wp_bind. eapply wp_post; [apply serve_good; [done..|lia]|]. intros w' r (-> & Hg' & Hn'). cbv iota beta. apply IH; [done|lia].
Qed.

End Operations.

Section Nesting.
Variable FormatMountLabel : string -> string -> string.

(** ** Mounts that nest *)

(** A mount at the device's place, or an unmount. *)
Definition nested (h path label : string) (up : bool) : T () := if up then MountDevice FormatMountLabel h path label else UnmountDevice h.

Fixpoint nest (h path label : string) (l : list bool) : T () := match l with [] => mret () | up :: l => nested h path label up;; nest h path label l end.

Definition depth (l : list bool) : Z := foldr (fun up n => n + if up : bool then 1 else -1) 0 l.

Lemma nested_step w h path label i up : Devices (mem w) !! h = Some i -> Hash i = h -> mountPath i = path ->
  0 < mountCount i -> 0 < mountCount i + (if up : bool then 1 else -1) < 2 ^ 63 ->
  nested h path label up w = Return (with_mem w (put_info (mem w) (set_mount i (mountCount i + if up then 1 else -1) path)), Ok ()).
Proof.
  intros E Hi Hp H1 H2. assert (forall w', mem w' = mem w -> lookupDevice h w' = Return (w', Ok i)) as El. { intros w' Hm. unfold lookupDevice, mbind, T_bind, get. cbn. by rewrite Hm, E. }
  destruct up; cbn [nested]; unfold MountDevice, UnmountDevice, mbind, T_bind; rewrite El by done; cbn [mbind outcome_bind].
  - assert ((0 <? mountCount i) = true) as -> by (by apply Z.ltb_lt). rewrite Hp, String.eqb_refl. cbn [negb]. by rewrite (wrapS_small 64) by lia.
  - assert ((mountCount i =? 0) = false) as -> by (apply Z.eqb_neq; lia). cbn. assert ((0 <? mountCount i - 1) = true) as -> by (apply Z.ltb_lt; lia). cbn. by rewrite Hp.
Qed.

(** Mounts of a mounted device only count: any sequence of mounts at its
    place and of unmounts that leaves it mounted throughout succeeds, asks
    nothing of the host, changes no file and no other device, and leaves the
    count that many mounts and unmounts make. *)
Theorem mounts_nest w h path label i l : Devices (mem w) !! h = Some i -> Hash i = h -> mountPath i = path ->
  (forall n, (n <= length l)%nat -> 0 < mountCount i + depth (take n l) < 2 ^ 63) ->
  exists w', nest h path label l w = Return (w', Ok ()) /\ host w' = host w /\ files w' = files w /\ past w' = past w /\
    mem w' = put_info (mem w) (set_mount i (mountCount i + depth l) path).
Proof.
  revert w i. induction l as [|up l IH]; intros w i E Hi Hp Hn.
  - exists w. split_and!; try done. cbn. rewrite Z.add_0_r, <- Hp. assert (set_mount i (mountCount i) (mountPath i) = i) as -> by (by destruct i).
    unfold put_info. rewrite Hi, insert_id by done. by rewrite with_Devices_same.
  - pose proof (Hn 0%nat ltac:(lia)) as Hc0. pose proof (Hn 1%nat ltac:(cbn; lia)) as Hc1. cbn in Hc0, Hc1. rewrite take_0 in Hc1. cbn in Hc1.
    cbn [nest]. set (j := set_mount i (mountCount i + if up then 1 else -1) path).
    destruct (IH (with_mem w (put_info (mem w) j)) j) as (w' & Ew & Hh & Hf & Hpa & Hm); [cbn; rewrite Hi; apply lookup_insert_eq|done|done| |].
    + intros n Hle. specialize (Hn (S n) ltac:(cbn; lia)). change (depth (take (S n) (up :: l))) with (depth (take n l) + if up then 1 else -1) in Hn. change (mountCount j) with (mountCount i + if up then 1 else -1). destruct up; lia.
    + exists w'. split_and!; [|done..|].
      * unfold mbind, T_bind. rewrite (nested_step w h path label i up) by (done || destruct up; lia). exact Ew.
      * rewrite Hm. unfold put_info. cbn. rewrite insert_insert_eq. f_equal. f_equal. unfold j, set_mount. cbn. f_equal. change (foldr _ 0 l) with (depth l). destruct up; lia.
Qed.


Lemma T_bind_ok {A B} (m : T A) (f : A -> T B) w w' a : m w = Return (w', Ok a) -> (m ≫= f) w = f a w'.
Proof. intros E. unfold mbind, T_bind. by rewrite E. Qed.

Lemma T_bind_err {A B} (m : T A) (f : A -> T B) w w' e : m w = Return (w', Err e) -> (m ≫= f) w = Return (w', Err e).
Proof. intros E. unfold mbind, T_bind. by rewrite E. Qed.

Lemma lookup_known (w : W) h i : Devices (mem w) !! h = Some i -> lookupDevice h w = Return (w, Ok i).
Proof. intros E. unfold lookupDevice. rewrite (T_bind_ok _ _ w w (mem w)) by done. by rewrite E. Qed.

(** The last unmount of a device whose place is busy fails, and the set
    counts the device as unmounted all the same. *)
Theorem UnmountDevice_busy w h i k e : Devices (mem w) !! h = Some i -> Hash i = h -> mountCount i = 1 -> sys (host w) (UnmountFs (mountPath i) 0) = (k, Err e) ->
  exists w', UnmountDevice h w = Return (w', Err e) /\ host w' = k /\ mem w' = put_info (mem w) (set_mount i 0 (mountPath i)) /\
    UnmountDevice h w' = Return (w', Err ("UnmountDevice: device not-mounted id " +:+ h +:+ String "010" "")).
Proof.
  intros E Hi Hc Hs. set (w1 := enter k (files w) (with_mem w (put_info (mem w) (set_mount i 0 (mountPath i))))). exists w1. split_and!; [|done..|].
  - unfold UnmountDevice. rewrite (T_bind_ok _ _ _ _ _ (lookup_known w h i E)). rewrite Hc. cbn [Z.eqb]. rewrite (T_bind_ok _ _ w (with_mem w (put_info (mem w) (set_mount i 0 (mountPath i)))) ()) by done.
    apply T_bind_err. unfold call. cbn. by rewrite Hs.
  - unfold UnmountDevice. rewrite (T_bind_ok _ _ w1 w1 (set_mount i 0 (mountPath i))); [done|]. apply lookup_known. cbn. rewrite Hi. apply lookup_insert_eq.
Qed.

End Nesting.

(** ** A daemon that starts *)

Lemma scan_transaction tx rest : 0 <= tx < 2 ^ 64 -> Sscanf (itoa tx +:+ " " +:+ rest) "%d" = ([tx], true).
Proof.
  intros Ht. unfold Sscanf. change (format_verbs "%d") with [VerbD]. cbn [sscanf]. destruct (itoa_head tx) as (c & r & E & Hc); [lia|].
  assert (trim_left is_scan_space (itoa tx +:+ " " +:+ rest) = itoa tx +:+ " " +:+ rest) as ->.
  { rewrite E. rewrite string_app_cons. cbn. assert (is_scan_space c = false) as ->; [|done]. destruct c as [[] [] [] [] [] [] [] []]; done. }
  unfold digits1. rewrite digits_app; [|apply itoa_dec; lia|by intros ? ? [= <- <-]]. rewrite E. cbv iota beta. rewrite <- E. by rewrite parse_uint_itoa.
Qed.

(** The status of the pool begins with its transaction. *)
Definition status_task : Task := {| task_type := DeviceStatus; task_sets := [SetName (prefix +:+ "-pool")] |}.
Definition status_tells : Prop := forall k k' lines, task_run k status_task = (k', true, lines) ->
  exists rest, (task_target k' status_task).2 = itoa (pool_tx k') +:+ " " +:+ rest.

Lemma wp_pool_status w (C : View -> Prop) (Q : W -> result string (Z * Z * string * string) -> Prop) : status_tells -> C (view w) ->
  (forall w' e, still w w' -> Q w' (Err e)) -> (forall w' a rest, still w w' -> Q w' (Ok (a, itoa (v_tx (view w)) +:+ " " +:+ rest))) ->
  wp w (getStatus (prefix +:+ "-pool")) C Q.
Proof.
  intros Hst HC He Ho. apply wp_bind. eapply quiet_wp; [apply quiet_createTask|done|]. intros w1 [t|e] Hs1 Ht; cbv iota beta; [|by apply He].
  rewrite (Ht t eq_refl). clear Ht t. apply wp_bind, wp_Run. intros k ok lines E. pose proof (law_task _ _ _ _ _ (ltac:(done) : task_type status_task <> DeviceTargetMsg) E) as Hk.
  pose proof (still_trans _ _ _ Hs1 (still_enter w1 k Hk)) as Hs. split; [change (view_of k (files w1)) with (view (enter k (files w1) w1)); by rewrite (still_view _ _ Hs)|].
  destruct ok; cbv iota beta; [|by apply He]. apply wp_bind, wp_ask. destruct (task_info _ _) as [i|]; cbv iota beta; [|by apply He].
  destruct (Exists i =? 0); [by apply wp_fail, He|]. apply wp_ask. change (host (enter k (files w1) w1)) with k. destruct (Hst _ _ _ E) as [rest Hr].
  destruct (task_target k status_task) as [a params] eqn:Et. cbn in Hr. subst params. assert (pool_tx k = v_tx (view w)) as Htx by (by rewrite <- (still_view _ _ Hs)).
  change {| task_type := DeviceStatus; task_sets := [SetName (prefix +:+ "-pool")] |} with status_task. rewrite Et, Htx. by apply Ho.
Qed.

(** C31. What a crash leaves is what the next daemon loads: from a state with
    sound files, a set with nothing in memory takes the pool's transaction
    from its status, and a device it then looks up is the one that counts on
    disk, with the identifier, size, transaction and flag that the text of its
    file holds ([device_of]), or unknown; where reading does not fail it finds
    every device that counts. *)
Theorem restart_loads (range_old : gmap string (option DevInfo) -> list (string * option DevInfo)) w h : status_tells ->
  consistent (view w) -> set_at (mem w) -> Devices (mem w) = ∅ -> 0 <= nextDeviceId (mem w) < 16777216 -> files w !! oldMetadataFile (mem w) = None -> hash_ok h ->
  exists w' r, initMetaData range_old w = Return (w', r) /\ view w' = view w /\
    (r = Ok () -> cached (view w') (mem w') /\
       exists w2 r2, lookupDevice h w' = Return (w2, r2) /\ view w2 = view w /\
         (forall i, r2 = Ok i -> visible (view w) h = Some i) /\ (reads -> forall i, visible (view w) h = Some i -> r2 = Ok i)).
Proof.
  intros Hst Hc Hat Hd Hx Hold Hh.
  assert (wp w (initMetaData range_old) (fun _ => True) (fun w' r => view w' = view w /\ (r = Ok () -> cached (view w') (mem w') /\ Devices (mem w') = ∅))) as (w' & r & ext & E & (Hv & Hr) & _).
  - unfold initMetaData. apply wp_bind, wp_get. cbv iota beta. assert (getPoolName (mem w) = prefix +:+ "-pool") as -> by (unfold getPoolName; by rewrite (proj2 Hat)).
    apply wp_bind, wp_pool_status; [done|done| |]; [intros w1 e Hs; by split; [apply Hs|]|]. intros w1 [[a b] t] rest Hs. cbv iota beta. pose proof (tx_range _ Hc). rewrite scan_transaction by done.
    apply wp_bind, wp_modify. cbv iota beta. destruct Hs as (Hv & Hf & Hm). set (w2 := with_mem _ _). assert (view w2 = view w) as Hv2 by exact Hv. assert (files w2 = files w) as Hf2 by exact Hf.
    assert (mem w2 = with_ids (mem w) (v_tx (view w)) (v_tx (view w)) (nextDeviceId (mem w))) as Hm2 by (cbn; by rewrite Hm). clearbody w2. clear w1 Hv Hf Hm.
    apply wp_bind, wp_attempt, wp_ReadFile; [done| |intros w3 t' _; by rewrite Hf2, Hold].
    intros w3 e (Hv3 & _ & Hm3) _. cbv iota beta. destruct (IsNotExist e); [apply wp_ret|apply wp_fail]; (split; [congruence|]); [|done]. intros _. rewrite Hv3, Hm3, Hv2, Hm2. cbn. rewrite Hd.
    split; [|done]. split; [exact Hat|done|done|done|]. cbn. rewrite Hd. by intros h' i.
  - exists w', r. split_and!; [done..|]. intros ->. destruct (Hr eq_refl) as [Hk Hd']. split; [done|].
    assert (wp w' (lookupDevice h) (fun _ => True) (fun w2 r2 => view w2 = view w /\ (forall i, r2 = Ok i -> visible (view w) h = Some i) /\ (reads -> forall i, visible (view w) h = Some i -> r2 = Ok i)))
      as (w2 & r2 & ext2 & E2 & HQ & _); [|by exists w2, r2].
    unfold lookupDevice. apply wp_bind, wp_get. cbv iota beta. rewrite Hd', lookup_empty. apply wp_bind, wp_loadMetadata; [by rewrite Hv|done..|].
    intros w3 o Hs Ho. rewrite Hv in Ho. cbv iota beta. destruct o as [i|].
    + destruct Ho as [[? _]|Ho]; [done|]. apply wp_bind, wp_modify, wp_ret. destruct Hs as (Hv3 & _). split; [by etrans; [exact Hv3|]|]. rewrite <- Ho. split; [by intros ? [= ->]|by intros _ ? [= ->]].
    + apply wp_fail. split; [by rewrite (still_view _ _ Hs)|]. split; [done|]. intros Hrd i Hi. destruct Ho as [[_ Hn]|Ho]; [|congruence]. by rewrite (Hn Hrd) in Hi.
Qed.

End Devices.
