(* ===== verification/DeviceDemo.v ===== *)
(** * A thin pool to run the devices on

    A host with one pool that keeps the laws of [PoolLaws]: the witnesses of
    the theorems on devices run on it, and so do the crashes that end badly.
    [busy] are the places that cannot be unmounted. *)

From stdpp Require Import base gmap list strings.
From Stdlib Require Import ZArith Lia Ascii.
From S2P Require Import Prelude GoStrings GoPath JSONValues Devmapper DeviceSet Devices.

Local Open Scope Z_scope.

Record Toy := { t_thin : gmap Z (option Z); t_tx : Z; t_live : gset string; t_busy : gset string; t_clock : Z }.

Definition demo_prefix : string := "docker-8:1-7".
Definition demo_pool : string := pool demo_prefix.

(** A number as [%d] prints it. *)
Definition decode (text : string) : option Z :=
  match parse_uint 64 text with Ok n => if String.eqb (itoa n) text then Some n else None | Err _ => None end.

Definition task_name (t : Task) : string :=
  default "" (head (omap (fun s => match s with SetName n => Some n | _ => None end) (task_sets t))).
Definition task_message (t : Task) : string :=
  default "" (head (omap (fun s => match s with SetMessage m => Some m | _ => None end) (task_sets t))).

Definition with_thin (k : Toy) (thin : gmap Z (option Z)) (tx : Z) : Toy :=
  {| t_thin := thin; t_tx := tx; t_live := t_live k; t_busy := t_busy k; t_clock := t_clock k |}.
Definition with_live (k : Toy) (live : gset string) : Toy :=
  {| t_thin := t_thin k; t_tx := t_tx k; t_live := live; t_busy := t_busy k; t_clock := t_clock k |}.
Definition tick (k : Toy) : Toy :=
  {| t_thin := t_thin k; t_tx := t_tx k; t_live := t_live k; t_busy := t_busy k; t_clock := t_clock k + 1 |}.

Definition refuse (k : Toy) (why : string) : Toy * bool * list (Z * string) := (k, false, [(3, why)]).

Definition in_range (id : Z) : bool := (0 <=? id) && (id <? 16777216).

(** The pool holds identifiers of 24 bits. *)
Definition toy_thin (k : Toy) : gmap Z (option Z) := filter (fun '(id, _) => in_range id = true) (t_thin k).

Definition make_id (k : Toy) (id : Z) (origin : option Z) : Toy * bool * list (Z * string) :=
  if negb (in_range id) then refuse k "device-mapper: message ioctl failed: Invalid argument"
  else if bool_decide (is_Some (t_thin k !! id)) then refuse k "device-mapper: message ioctl failed: File exists"
  else (with_thin k (<[id := origin]> (t_thin k)) (t_tx k), true, []).

Definition message_run (k : Toy) (m : string) : Toy * bool * list (Z * string) :=
  match split " " m with
  | [op; a] =>
      match decode a with
      | Some id =>
          if String.eqb op "create_thin" then make_id k id None
          else if String.eqb op "delete" then
            if bool_decide (is_Some (toy_thin k !! id)) then (with_thin k (delete id (t_thin k)) (t_tx k), true, []) else refuse k "No data available"
          else refuse k "Invalid argument"
      | None => refuse k "Invalid argument"
      end
  | [op; a; b] =>
      match decode a, decode b with
      | Some x, Some y =>
          if String.eqb op "create_snap" then if bool_decide (is_Some (toy_thin k !! y)) then make_id k x (Some y) else refuse k "No data available"
          else if String.eqb op "set_transaction_id" then if x =? t_tx k then (with_thin k (t_thin k) y, true, []) else refuse k "Invalid argument"
          else refuse k "Invalid argument"
      | _, _ => refuse k "Invalid argument"
      end
  | _ => refuse k "Invalid argument"
  end.

Definition toy_run (k : Toy) (t : Task) : Toy * bool * list (Z * string) :=
  match task_type t with
  | DeviceTargetMsg => if String.eqb (task_name t) demo_pool then message_run k (task_message t) else refuse k "No such device"
  | DeviceCreate => (with_live k ({[task_name t]} ∪ t_live k), true, [])
  | DeviceRemove => (with_live k (t_live k ∖ {[task_name t]}), true, [])
  | _ => (k, true, [])
  end.

Definition toy_sys (k : Toy) (c : Call) : Toy * result string Z :=
  match c with
  | OpenTemp _ => (tick k, Ok (t_clock k))
  | WriteAll _ len => (k, Ok len)
  | UnmountFs p _ => (k, if bool_decide (p ∈ t_busy k) then Err EBUSY else Ok 0)
  | StatDev _ => (k, Ok 2049)
  | StatIno _ => (k, Ok 7)
  | BlockSize _ => (k, Ok 1073741824)
  | _ => (k, Ok 0)
  end.

Definition live_info (there : bool) : Info :=
  {| Exists := if there then 1 else 0; Suspended := 0; LiveTable := 1; InactiveTable := 0; OpenCount := 0; EventNr := 0; Major := 253; Minor := 0; ReadOnly := 0; TargetCount := 1 |}.

#[export] Instance toy_host : Host Toy := {|
  task_create _ _ := true;
  task_set _ _ _ := true;
  task_run := toy_run;
  task_info k t := Some (live_info (bool_decide (task_name t ∈ ({[demo_prefix +:+ "-pool"]} ∪ t_live k : gset string))));
  task_target k t := (0, 209715200, "thin-pool", itoa (t_tx k) +:+ " " +:+ "120/524288 300/1638400 - rw discard_passdown");
  task_version _ _ := "4.27.0";
  udev_wait k _ := k;
  sys := toy_sys;
  device_bytes _ _ n := Ok (String.concat "" (replicate n "X"));
|}.

Lemma decode_itoa z n : decode (itoa z) = Some n -> n = z.
Proof. unfold decode. destruct (parse_uint 64 (itoa z)) as [m|]; [|done]. destruct (String.eqb_spec (itoa m) (itoa z)) as [E|]; [|done]. intros [= <-]. by apply itoa_inj. Qed.

Lemma itoa_no_space z : contains_char " " (itoa z) = false.
Proof. apply forall_str_no_char with (p := is_num_char); [apply itoa_chars|done]. Qed.

(** ** The laws of the pool *)

Lemma in_range_spec id : in_range id = true <-> 0 <= id < 16777216.
Proof. unfold in_range. rewrite andb_true_iff, Z.leb_le, Z.ltb_lt. done. Qed.

Lemma split_message op a : contains_char " " op = false -> contains_char " " a = false -> split " " (op +:+ " " +:+ a) = [op; a].
Proof. intros Ho Ha. change (" " +:+ a) with (String " " a). rewrite split_app by done. by rewrite split_no_sep. Qed.

Lemma split_message2 op a b : contains_char " " op = false -> contains_char " " a = false -> contains_char " " b = false ->
  split " " (op +:+ " " +:+ a +:+ " " +:+ b) = [op; a; b].
Proof. intros Ho Ha Hb. change (" " +:+ a +:+ " " +:+ b) with (String " " (a +:+ String " " b)). rewrite split_app by done. rewrite split_app by done. by rewrite split_no_sep. Qed.

Lemma toy_lookup k id : in_range id = true -> toy_thin k !! id = t_thin k !! id.
Proof. intros Hr. apply option_eq. intros o. unfold toy_thin. rewrite map_lookup_filter_Some. tauto. Qed.

Lemma make_id_spec k id o k' ok lines : make_id k id o = (k', ok, lines) -> t_tx k' = t_tx k /\
  (if ok : bool then toy_thin k !! id = None /\ toy_thin k' = <[id := o]> (toy_thin k) else toy_thin k' = toy_thin k /\ (saw "File exists" lines = true -> is_Some (toy_thin k !! id))).
Proof.
  unfold make_id, refuse. destruct (in_range id) eqn:Er; cbn [negb]; [|intros [= <- <- <-]; by split_and!].
  case_bool_decide as Hin; intros [= <- <- <-]; (split; [done|]); rewrite toy_lookup by done.
  - by split_and!.
  - split; [by apply eq_None_not_Some|]. unfold toy_thin. cbn. by rewrite map_filter_insert_True.
Qed.

Lemma refused k why k' ok lines (P : Prop) : refuse k why = (k', ok, lines) -> (saw "File exists" [(3, why)] = false) ->
  t_tx k' = t_tx k /\ ok = false /\ toy_thin k' = toy_thin k /\ (saw "File exists" lines = true -> P).
Proof. intros [= <- <- <-] Hw. split_and!; [done..|]. by rewrite Hw. Qed.

#[export] Program Instance toy_laws : PoolLaws Toy demo_pool := {| pool_thin := toy_thin; pool_tx := t_tx |}.
Next Obligation. intros k id [o Hin]. unfold toy_thin in Hin. apply map_lookup_filter_Some in Hin as [_ Hin]. by apply in_range_spec. Qed.
Next Obligation.
  intros k id k' ok lines E. change (message_run k ("create_thin" +:+ " " +:+ itoa id) = (k', ok, lines)) in E. unfold message_run in E.
  rewrite (split_message "create_thin") in E by (done || apply itoa_no_space). destruct (decode (itoa id)) as [n|] eqn:Ed.
  - rewrite (decode_itoa _ _ Ed) in E. by apply make_id_spec.
  - eapply (refused k _ _ _ _ (is_Some (toy_thin k !! id))) in E as (? & -> & ? & ?); done.
Qed.
Next Obligation.
  intros k id base k' ok lines E. change (message_run k ("create_snap" +:+ " " +:+ itoa id +:+ " " +:+ itoa base) = (k', ok, lines)) in E. unfold message_run in E.
  rewrite (split_message2 "create_snap") in E by (done || apply itoa_no_space).
  destruct (decode (itoa id)) as [n|] eqn:Ed, (decode (itoa base)) as [b|] eqn:Eb; [|eapply (refused k _ _ _ _ (is_Some (toy_thin k !! id))) in E as (? & -> & ? & ?); done..].
  rewrite (decode_itoa _ _ Ed), (decode_itoa _ _ Eb) in E. cbn in E. case_bool_decide as Hb; [|eapply (refused k _ _ _ _ (is_Some (toy_thin k !! id))) in E as (? & -> & ? & ?); done].
  apply make_id_spec in E as [Ht E]. split; [done|]. destruct ok; [|done]. destruct E as [? ?]. by split_and!.
Qed.
Next Obligation.
  intros k id k' ok lines E. change (message_run k ("delete" +:+ " " +:+ itoa id) = (k', ok, lines)) in E. unfold message_run in E.
  rewrite (split_message "delete") in E by (done || apply itoa_no_space). destruct (decode (itoa id)) as [n|] eqn:Ed.
  - rewrite (decode_itoa _ _ Ed) in E. cbn in E. case_bool_decide as Hin; injection E as <- <- <-; [|done]. split; [done|]. unfold toy_thin. cbn. apply map_filter_delete.
  - injection E as <- <- <-. done.
Qed.
Next Obligation.
  intros k old new k' ok lines E. change (message_run k ("set_transaction_id" +:+ " " +:+ itoa old +:+ " " +:+ itoa new) = (k', ok, lines)) in E. unfold message_run in E.
  rewrite (split_message2 "set_transaction_id") in E by (done || apply itoa_no_space).
  destruct (decode (itoa old)) as [o|] eqn:Eo, (decode (itoa new)) as [n|] eqn:En; [|injection E as <- <- <-; done..].
  rewrite (decode_itoa _ _ Eo), (decode_itoa _ _ En) in E. cbn in E. destruct (old =? t_tx k) eqn:Et; injection E as <- <- <-; [|done].
  apply Z.eqb_eq in Et. done.
Qed.
Next Obligation. intros k t k' ok lines Ht E. cbn in E. unfold toy_run in E. destruct (task_type t); try done; injection E as <- <- <-; done. Qed.
Next Obligation. done. Qed.
Next Obligation. intros k c k' r E. cbn in E. destruct c; cbn in E; injection E as <- <-; done. Qed.

Lemma decode_text z : 0 <= z < 2 ^ 64 -> decode (itoa z) = Some z.
Proof. intros Hz. unfold decode. rewrite parse_uint_itoa by done. by rewrite String.eqb_refl. Qed.

Lemma toy_steady : steady demo_prefix (K := Toy).
Proof.
  split; [done|done| |by intros k p; cbn].
  intros k new Hk Hn. change ((message_run k ("set_transaction_id" +:+ " " +:+ itoa (t_tx k) +:+ " " +:+ itoa new)).1.2 = true). unfold message_run.
  rewrite (split_message2 "set_transaction_id") by (done || apply itoa_no_space). rewrite !decode_text by done. cbn. by rewrite Z.eqb_refl.
Qed.

(** ** A directory with a base image *)

Definition demo_root : list string := ["docker"].
Definition base_info : DevInfo := set_Initialized (new_info "" 0 10737418240 1) true.

Definition demo_key (h : string) : string := key demo_root h.

Definition demo_set (tid next : Z) (l : list DevInfo) : DeviceSet :=
  with_Devices (with_ids (with_prefix (initial_set "/docker") demo_prefix) tid tid next) (list_to_map ((fun i => (Hash i, i)) <$> l)).

Definition toy (ids : gset Z) (tx : Z) : Toy := {| t_thin := gset_to_gmap None ids; t_tx := tx; t_live := ∅; t_busy := {["/busy"]}; t_clock := 5 |}.

Definition demo_world (ids : gset Z) (tx : Z) (fs : gmap string string) (d : DeviceSet) : World Toy DeviceSet := {| host := toy ids tx; files := fs; past := []; mem := d |}.

(** The base device alone: [next] is the identifier to try next. *)
Definition base_world (ids : gset Z) (next : Z) : World Toy DeviceSet := demo_world ids 1 {[demo_key "" := Marshal base_info]} (demo_set 1 next [base_info]).

Definition order (m : gmap string DevInfo) : list DevInfo := (map_to_list m).*2.
Definition old_order (m : gmap string (option DevInfo)) : list (string * option DevInfo) := map_to_list m.
Definition no_label (a b : string) : string := "".

(** A daemon that is set up with nothing on disk ends there. *)
Example NewDeviceSet_demo :
  match NewDeviceSet old_order 10 (fun _ => true) "/docker" true [] (demo_world ∅ 0 ∅ (initial_set "")) with
  | Return (w, Ok _) =>
      bool_decide (mem w = demo_set 1 1 [base_info]) && bool_decide (files w = {[demo_key "" := Marshal base_info]}) && bool_decide (t_thin (host w) = {[0 := None]}) && (t_tx (host w) =? 1)
  | _ => false
  end = true.
Proof. vm_compute. reflexivity. Qed.

(** ** The theorems on the demo *)

Lemma demo_plain : plain demo_root.
Proof. apply plain_one. by split_and!. Qed.

Lemma ok_a : hash_ok "a".
Proof. right. by split_and!. Qed.

Lemma base_ok : hash_ok "".
Proof. by left. Qed.

Lemma base_meta ids next : v_meta (view demo_root demo_prefix (base_world ids next)) = {[demo_key "" := Marshal base_info]}.
Proof. change (meta demo_root (<[demo_key "" := Marshal base_info]> ∅) = {[demo_key "" := Marshal base_info]}). rewrite meta_insert by (by vm_compute). unfold meta. by rewrite map_filter_empty. Qed.

Lemma base_info_ok : info_ok base_info.
Proof. by vm_compute. Qed.

Lemma base_stored ids next h i : hash_ok h -> stored demo_root (view demo_root demo_prefix (base_world ids next)) h = Some i -> h = "" /\ i = base_info.
Proof.
  intros Hh E. pose proof E as E'. unfold stored in E. apply bind_Some in E as (t & Et & _). rewrite base_meta in Et. apply lookup_singleton_Some in Et as [Ek Et].
  apply key_inj in Ek; [|apply demo_plain|apply base_ok|done]. subst h t. split; [done|].
  rewrite (stored_of demo_root _ "" base_info) in E'; [by injection E' as <-|rewrite base_meta; apply lookup_singleton_eq|done|apply base_info_ok].
Qed.

Lemma base_visible ids next h i : hash_ok h -> visible demo_root (view demo_root demo_prefix (base_world ids next)) h = Some i -> h = "" /\ i = base_info.
Proof. intros Hh E. apply visible_inv in E as [E _]. by eapply base_stored. Qed.

Lemma base_visible_there ids next : visible demo_root (view demo_root demo_prefix (base_world ids next)) "" = Some base_info.
Proof. apply visible_of; [|by vm_compute]. apply (stored_of demo_root _ "" base_info); [rewrite base_meta; apply lookup_singleton_eq|done|apply base_info_ok]. Qed.

Lemma toy_has ids tx id : in_range id = true -> id ∈ ids -> id ∈ dom (D := gset Z) (toy_thin (toy ids tx)).
Proof. intros Hr Hi. apply elem_of_dom. rewrite toy_lookup by done. exists None. by apply lookup_gset_to_gmap_Some. Qed.

Lemma base_consistent ids next : 0 ∈ ids -> consistent demo_root (view demo_root demo_prefix (base_world ids next)).
Proof.
  intros H0. split.
  - intros h t Hh Et. rewrite base_meta in Et. apply lookup_singleton_Some in Et as [Ek <-]. apply key_inj in Ek; [|apply demo_plain|apply base_ok|done]. subst h.
    exists base_info. split_and!; [done..|apply base_info_ok].
  - intros h i Hh E. apply base_visible in E as [-> ->]; [|done]. by apply toy_has.
  - intros h1 h2 i1 i2 H1 H2 E1 E2 _. apply base_visible in E1 as [-> _]; [|done]. by apply base_visible in E2 as [-> _].
  - by vm_compute.
Qed.

Lemma base_good ids next : 0 ∈ ids -> 0 <= next < 16777216 -> good demo_root demo_prefix (base_world ids next).
Proof.
  intros H0 Hn. split; [by apply base_consistent| |].
  - intros h i Hh E. apply base_stored in E as [-> ->]; [by vm_compute|done].
  - split; [done|done|by vm_compute|done|]. intros h i E. cbn in E. apply lookup_insert_Some in E as [[<- <-]|[_ E]]; [|by rewrite lookup_empty in E].
    split_and!; [apply base_ok|done|]. apply base_visible_there.
Qed.

(** Enough fuel for every identifier of 24 bits. *)
Definition demo_fuel : nat := Z.to_nat 16777217.

Lemma demo_enough : 16777216 < Z.of_nat demo_fuel.
Proof. unfold demo_fuel. rewrite Z2Nat.id; lia. Qed.

Lemma nothing_named_a ids next : visible demo_root (view demo_root demo_prefix (base_world ids next)) "a" = None.
Proof. destruct (visible demo_root _ "a") as [i|] eqn:E; [|done]. by apply base_visible in E as [? _]; [|apply ok_a]. Qed.

Lemma zero_in : 0 ∈ ({[0]} : gset Z).
Proof. set_solver. Qed.

Lemma serve_all_good_witness :
  exists w', serve_all demo_fuel no_label order [Add "a" ""; Mount "a" "/mnt" ""; Delete "a"; Delete ""; Stop] (base_world {[0]} 1) = Return (w', Ok ()) /\ good demo_root demo_prefix w'.
Proof.
  apply (serve_all_good demo_root demo_plain demo_prefix demo_fuel demo_enough no_label order (base_world {[0]} 1) [Add "a" ""; Mount "a" "/mnt" ""; Delete "a"; Delete ""; Stop]).
  - apply toy_steady.
  - apply base_good; [apply zero_in|lia].
  - repeat (apply Forall_cons; split); [split; [apply ok_a|apply base_ok]|apply ok_a|apply ok_a|apply base_ok|done|apply Forall_nil; done].
  - by vm_compute.
Defined.

Lemma AddDevice_atomic_witness :
  exists w' r ext, AddDevice demo_fuel "a" "" (base_world {[0]} 1) = Return (w', r) /\ past w' = [] ++ ext.
Proof.
  destruct (AddDevice_atomic demo_root demo_plain demo_prefix demo_fuel demo_enough (base_world {[0]} 1) "a" "") as (w' & r & ext & E & Hp & _).
  - apply base_good; [apply zero_in|lia].
  - apply ok_a.
  - apply base_ok.
  - apply nothing_named_a.
  - by vm_compute.
  - exists w', r, ext. exact (conj E Hp).
Defined.

Lemma setupBaseImage_good_witness : exists w' r, setupBaseImage demo_fuel (base_world {[0]} 1) = Return (w', r) /\ good demo_root demo_prefix w'.
Proof.
  destruct (setupBaseImage_good demo_root demo_plain demo_prefix demo_fuel demo_enough (base_world {[0]} 1)) as (w' & r & E & Hg & _).
  - apply base_good; [apply zero_in|lia].
  - by vm_compute.
  - by vm_compute.
  - exists w', r. exact (conj E (Hg toy_steady)).
Defined.

Lemma AddDevice_top_taken_witness : exists w' e, AddDevice demo_fuel "a" "" (base_world {[0; 16777215]} 16777215) = Return (w', Err e).
Proof.
  apply (AddDevice_top_taken demo_root demo_plain demo_prefix demo_fuel demo_enough (base_world {[0; 16777215]} 16777215) "a" "").
  - apply base_good; [set_solver|lia].
  - apply ok_a.
  - apply base_ok.
  - by vm_compute.
  - done.
  - apply toy_has; [done|set_solver].
Defined.

Lemma mounts_nest_witness :
  exists w', nest no_label "" "/mnt" "" [true; false; true] (demo_world {[0]} 1 ∅ (demo_set 1 1 [set_mount base_info 1 "/mnt"])) = Return (w', Ok ()) /\
    Devices (mem w') !! "" = Some (set_mount base_info 2 "/mnt").
Proof.
  destruct (mounts_nest no_label (demo_world {[0]} 1 ∅ (demo_set 1 1 [set_mount base_info 1 "/mnt"])) "" "/mnt" "" (set_mount base_info 1 "/mnt") [true; false; true]) as (w' & E & _ & _ & _ & Hm).
  - done.
  - done.
  - done.
  - intros n Hn. do 4 (destruct n as [|n]; [by vm_compute|]). cbn in Hn. lia.
  - exists w'. split; [done|]. rewrite Hm. apply lookup_insert_eq.
Defined.

Lemma toy_status : status_tells demo_prefix (K := Toy).
Proof. intros k k' lines E. by eexists. Qed.

(** The daemon stops after the base image is made, and starts again. *)
Definition restarted (next : Z) : World Toy DeviceSet := demo_world {[0]} 1 {[demo_key "" := Marshal base_info]} (demo_set 0 next []).

(** It finds the base image, with the identifier, the size and the transaction
    of the file's text. *)
Lemma restart_loads_witness :
  let t := ("{" +:+ quoted "device_id" +:+ ":0," +:+ quoted "size" +:+ ":10737418240," +:+ quoted "transaction_id" +:+ ":1," +:+ quoted "initialized" +:+ ":true}")%string in
  files (restarted 0) = {[demo_key "" := t]} /\
  exists w' w2 i, initMetaData old_order (restarted 0) = Return (w', Ok ()) /\ lookupDevice "" w' = Return (w2, Ok i) /\
    DeviceId i = 0 /\ Size i = 10737418240 /\ info_TransactionId i = 1 /\ Initialized i = true.
Proof.
  split; [by vm_compute|].
  destruct (restart_loads demo_root demo_plain demo_prefix old_order (restarted 0) "") as (w' & r & E & _ & Hr).
  - apply toy_status.
  - apply (base_consistent {[0]} 0), zero_in.
  - done.
  - done.
  - cbn. lia.
  - by vm_compute.
  - apply base_ok.
  - assert (r = Ok ()) as ->.
    { assert (match initMetaData old_order (restarted 0) with Return (_, Ok _) => True | _ => False end) as Hok by (vm_compute; exact I). rewrite E in Hok. by destruct r as [[]|]. }
    destruct (Hr eq_refl) as (_ & w2 & r2 & E2 & _ & _ & Hl).
    rewrite (Hl (fun _ _ => eq_refl) base_info (base_visible_there {[0]} 0)) in E2. exists w', w2, base_info. by split_and!.
Defined.

Lemma UnmountDevice_busy_witness :
  exists w', UnmountDevice "" (demo_world {[0]} 1 ∅ (demo_set 1 1 [set_mount base_info 1 "/busy"])) = Return (w', Err EBUSY).
Proof.
  destruct (UnmountDevice_busy (demo_world {[0]} 1 ∅ (demo_set 1 1 [set_mount base_info 1 "/busy"])) "" (set_mount base_info 1 "/busy") (toy {[0]} 1) EBUSY) as (w' & E & _).
  - done.
  - done.
  - done.
  - by vm_compute.
  - by exists w'.
Defined.

(** ** Crashes that end badly

    [crash_where p w] is the daemon stopped in the first state of the history
    of [w] in which [p] holds, with nothing in memory. *)

Definition crash_where (p : Toy -> gmap string string -> bool) (w : World Toy DeviceSet) : option (World Toy DeviceSet) :=
  '(k, fs) ← List.find (fun '(k, fs) => p k fs) (past w);
  Some {| host := k; files := fs; past := []; mem := demo_set 0 0 [] |}.

Definition has_file (h : string) (fs : gmap string string) : bool := bool_decide (is_Some (fs !! demo_key h)).

Definition answer {A} (m : T Toy DeviceSet A) (w : World Toy DeviceSet) : option (World Toy DeviceSet * A) :=
  match m w with Return (w, Ok a) => Some (w, a) | _ => None end.

Definition unknown (h : string) (w : World Toy DeviceSet) : bool := match lookupDevice h w with Return (_, Err _) => true | _ => false end.

Definition id_of (h : string) (w : World Toy DeviceSet) : option Z := '(_, i) ← answer (lookupDevice h) w; Some (DeviceId i).

(** The daemon stops between the rename of the file of "a" and the pool's next
    transaction.  The next daemon does not know "a", as it should; but the
    transaction of the next device it makes, "b", brings "a" back. *)
Definition lost_device : option (bool * option Z * option Z) :=
  '(w1, _) ← answer (AddDevice 10 "a" "") (base_world {[0]} 1);
  w2 ← crash_where (fun k fs => has_file "a" fs && (t_tx k =? 1)) w1;
  '(w3, _) ← answer (initMetaData old_order) w2;
  '(w4, _) ← answer (AddDevice 10 "b" "") w3;
  Some (unknown "a" w3, id_of "a" w4, id_of "b" w4).

Theorem lost_device_returns : lost_device = Some (true, Some 1, Some 2).
Proof. vm_compute. reflexivity. Qed.

(** The daemon stops between the pool's deletion of "a" and the removal of its
    file.  The next daemon still knows "a", and gives its identifier to "b":
    the two devices share their blocks. *)
Definition half_deleted : option (bool * option Z * option Z) :=
  '(w1, _) ← answer (AddDevice 10 "a" "") (base_world {[0]} 1);
  '(w2, _) ← answer (DeleteDevice "a") {| host := host w1; files := files w1; past := []; mem := mem w1 |};
  w3 ← crash_where (fun k fs => has_file "a" fs && bool_decide (t_thin k !! 1 = None)) w2;
  '(w4, _) ← answer (initMetaData old_order) w3;
  '(w5, _) ← answer (AddDevice 10 "b" "") w4;
  Some (negb (unknown "a" w4), id_of "a" w5, id_of "b" w5).

Theorem half_deleted_shares_id : half_deleted = Some (true, Some 1, Some 1).
Proof. vm_compute. reflexivity. Qed.
