(* ===== verification/GoState.v ===== *)
(** * Computations with a state

    Go code that changes shared state and returns an error: a computation of
    [ST S A] takes a state and returns one with a value or an error text, or
    panics, or runs out of fuel.  The state is kept on the error path, as Go
    keeps what was done before an error. *)

From stdpp Require Import base list strings.
From S2P Require Import Prelude.

Definition ST (S A : Type) : Type := S -> outcome (S * result string A).

#[export] Instance ST_ret {S} : MRet (ST S) := fun A a s => Return (s, Ok a).
#[export] Instance ST_bind {S} : MBind (ST S) := fun A B f m s =>
  '(s, r) ← m s;
  match r with Err e => Return (s, Err e) | Ok a => f a s end.

Definition throw {S A} (e : string) : ST S A := fun s => Return (s, Err e).
Definition get_state {S} : ST S S := fun s => Return (s, Ok s).
Definition gets {S A} (f : S -> A) : ST S A := fun s => Return (s, Ok (f s)).
Definition update {S} (f : S -> S) : ST S () := fun s => Return (f s, Ok ()).
Definition panic {S A} : ST S A := fun _ => Panic.
Definition lift {S A} (r : result string A) : ST S A := fun s => Return (s, r).

(** [v, err := m]: the error is looked at by what follows. *)
Definition try {S A} (m : ST S A) : ST S (result string A) := fun s => '(s, r) ← m s; Return (s, Ok r).

(** An error of [m] with another text. *)
Definition rephrase {S A} (f : string -> string) (m : ST S A) : ST S A := fun s =>
  '(s, r) ← m s; Return (s, match r with Ok a => Ok a | Err e => Err (f e) end).

(** [defer m] around [body]. *)
Definition deferring {S A} (m : ST S ()) (body : ST S A) : ST S A := fun s =>
  '(s, r) ← body s; '(s, _) ← m s; Return (s, r).

(** A call of the surroundings that changes them. *)
Definition calls {S A} (f : S -> S * result string A) : ST S A := fun s => Return (f s).

Fixpoint for_each {S A} (f : A -> ST S ()) (l : list A) : ST S () :=
  match l with
  | [] => mret ()
  | x :: l => f x;; for_each f l
  end.

(** ** Reasoning

    [ensures m P Q]: from a state in [P] the computation returns, with a
    state and a result in [Q]. *)

Definition ensures {S A} (m : ST S A) (s : S) (Q : S -> result string A -> Prop) : Prop :=
  exists s' r, m s = Return (s', r) /\ Q s' r.

Section Rules.
Context {S : Type}.
Implicit Type s : S.

Lemma ensures_mono {A} (m : ST S A) s (Q Q' : S -> result string A -> Prop) :
  ensures m s Q -> (forall s' r, Q s' r -> Q' s' r) -> ensures m s Q'.
Proof. intros (s' & r & E & H) HQ. exists s', r. auto. Qed.

Lemma ensures_ret {A} (a : A) s Q : Q s (Ok a) -> ensures (mret a) s Q.
Proof. intros H. by exists s, (Ok a). Qed.

Lemma ensures_throw {A} e s (Q : S -> result string A -> Prop) : Q s (Err e) -> ensures (throw e) s Q.
Proof. intros H. by exists s, (Err e). Qed.

Lemma ensures_lift {A} (r : result string A) s Q : Q s r -> ensures (lift r) s Q.
Proof. intros H. by exists s, r. Qed.

Lemma ensures_gets {A} (f : S -> A) s Q : Q s (Ok (f s)) -> ensures (gets f) s Q.
Proof. intros H. by exists s, (Ok (f s)). Qed.

Lemma ensures_update f s Q : Q (f s) (Ok ()) -> ensures (update f) s Q.
Proof. intros H. by exists (f s), (Ok ()). Qed.

Lemma ensures_calls {A} (f : S -> S * result string A) s Q : Q (f s).1 (f s).2 -> ensures (calls f) s Q.
Proof. intros H. exists (f s).1, (f s).2. unfold calls. by destruct (f s). Qed.

Lemma ensures_bind {A B} (m : ST S A) (f : A -> ST S B) s Q :
  ensures m s (fun s' r => match r with Ok a => ensures (f a) s' Q | Err e => Q s' (Err e) end) -> ensures (m ≫= f) s Q.
Proof.
  intros (s' & [a|e] & E & H).
  - destruct H as (s2 & r & E2 & H). exists s2, r. split; [|done]. unfold mbind, ST_bind. rewrite E. exact E2.
  - exists s', (Err e). split; [|done]. unfold mbind, ST_bind. by rewrite E.
Qed.

Lemma ensures_try {A} (m : ST S A) s Q : ensures m s (fun s' r => Q s' (Ok r)) -> ensures (try m) s Q.
Proof. intros (s' & r & E & H). exists s', (Ok r). split; [|done]. unfold try. by rewrite E. Qed.

Lemma ensures_rephrase {A} g (m : ST S A) s Q :
  ensures m s (fun s' r => Q s' (match r with Ok a => Ok a | Err e => Err (g e) end)) -> ensures (rephrase g m) s Q.
Proof. intros (s' & r & E & H). eexists _, _. split; [|exact H]. unfold rephrase. by rewrite E. Qed.

Lemma ensures_deferring {A} d (m : ST S A) s Q :
  ensures m s (fun s1 r => ensures d s1 (fun s2 _ => Q s2 r)) -> ensures (deferring d m) s Q.
Proof. intros (s1 & r & E & s2 & r2 & E2 & H). exists s2, r. split; [|done]. unfold deferring. rewrite E. cbn. by rewrite E2. Qed.

(** A loop keeps what every turn keeps; an error ends it. *)
Lemma ensures_for_each {A} (f : A -> ST S ()) (I : list A -> S -> Prop) (E : S -> string -> Prop) (l : list A) :
  (forall k x s, k ++ [x] `prefix_of` l -> I k s -> ensures (f x) s (fun s' r => match r with Ok _ => I (k ++ [x]) s' | Err e => E s' e end)) ->
  forall s, I [] s -> ensures (for_each f l) s (fun s' r => match r with Ok _ => I l s' | Err e => E s' e end).
Proof.
  intros Hf. assert (forall b a s, l = a ++ b -> I a s -> ensures (for_each f b) s (fun s' r => match r with Ok _ => I l s' | Err e => E s' e end)) as H;
    [|intros s Hs; by apply (H l [])].
  induction b as [|x b IH]; intros a s -> Ha; cbn [for_each].
  - apply ensures_ret. by rewrite app_nil_r.
  - apply ensures_bind. eapply ensures_mono; [apply (Hf a x s); [exists b; by rewrite <- app_assoc|done]|]. intros s' [[]|e] H; [|done].
    apply (IH (a ++ [x])); [by rewrite <- app_assoc|done].
Qed.

End Rules.

(** ** Frames

    [leads m s Q]: if the computation returns, its state and result are in
    [Q].  [keeps R m]: it relates its states by [R]. *)

Definition leads {S A} (m : ST S A) (s : S) (Q : S -> result string A -> Prop) : Prop := forall s' r, m s = Return (s', r) -> Q s' r.

Definition keeps {S A} (R : S -> S -> Prop) (m : ST S A) : Prop := forall s, leads m s (fun s' _ => R s s').

Section Leads.
Context {S : Type}.
Implicit Type s : S.

Lemma leads_mono {A} (m : ST S A) s (Q Q' : S -> result string A -> Prop) : leads m s Q -> (forall s' r, Q s' r -> Q' s' r) -> leads m s Q'.
Proof. intros H HQ s' r E. apply HQ. by apply H. Qed.

Lemma leads_and {A} (m : ST S A) s (Q Q' : S -> result string A -> Prop) : leads m s Q -> leads m s Q' -> leads m s (fun s' r => Q s' r /\ Q' s' r).
Proof. intros H H' s' r E. split; [by apply H|by apply H']. Qed.

Lemma leads_ret {A} (a : A) s (Q : S -> result string A -> Prop) : Q s (Ok a) -> leads (mret a) s Q.
Proof. by intros HQ s' r [= <- <-]. Qed.

Lemma leads_throw {A} e s (Q : S -> result string A -> Prop) : Q s (Err e) -> leads (throw e) s Q.
Proof. by intros HQ s' r [= <- <-]. Qed.

Lemma leads_lift {A} (a : result string A) s (Q : S -> result string A -> Prop) : Q s a -> leads (lift a) s Q.
Proof. by intros HQ s' r [= <- <-]. Qed.

Lemma leads_get_state s (Q : S -> result string S -> Prop) : Q s (Ok s) -> leads get_state s Q.
Proof. by intros HQ s' r [= <- <-]. Qed.

Lemma leads_update f s (Q : S -> result string () -> Prop) : Q (f s) (Ok ()) -> leads (update f) s Q.
Proof. by intros HQ s' r [= <- <-]. Qed.

Lemma leads_calls {A} (f : S -> S * result string A) s (Q : S -> result string A -> Prop) : Q (f s).1 (f s).2 -> leads (calls f) s Q.
Proof. intros HQ s' r [= E]. by rewrite E in HQ. Qed.

Lemma leads_panic {A} s (Q : S -> result string A -> Prop) : leads panic s Q.
Proof. by intros s' r E. Qed.

Lemma leads_bind {A B} (m : ST S A) (f : A -> ST S B) s Q :
  leads m s (fun s' r => match r with Ok a => leads (f a) s' Q | Err e => Q s' (Err e) end) -> leads (m ≫= f) s Q.
Proof.
  intros H s' r. unfold mbind, ST_bind. destruct (m s) as [[s1 r1]| |] eqn:E; [|done|done]. cbn. specialize (H s1 r1 E).
  destruct r1 as [a|e]; [apply H|by intros [= <- <-]].
Qed.

Lemma leads_try {A} (m : ST S A) s (Q : S -> result string (result string A) -> Prop) : leads m s (fun s' r => Q s' (Ok r)) -> leads (try m) s Q.
Proof. intros H s' r. unfold try. destruct (m s) as [[s1 r1]| |] eqn:E; [|done|done]. cbn. intros [= <- <-]. by apply H. Qed.

Lemma leads_rephrase {A} g (m : ST S A) s (Q : S -> result string A -> Prop) :
  leads m s (fun s' r => Q s' (match r with Ok a => Ok a | Err e => Err (g e) end)) -> leads (rephrase g m) s Q.
Proof. intros H s' r. unfold rephrase. destruct (m s) as [[s1 r1]| |] eqn:E; [|done|done]. cbn. intros [= <- <-]. by apply H. Qed.

Lemma leads_deferring {A} d (m : ST S A) s (Q : S -> result string A -> Prop) :
  leads m s (fun s1 r => leads d s1 (fun s2 _ => Q s2 r)) -> leads (deferring d m) s Q.
Proof.
  intros H s' r. unfold deferring. destruct (m s) as [[s1 r1]| |] eqn:E; [|done|done]. cbn. specialize (H s1 r1 E).
  destruct (d s1) as [[s2 r2]| |] eqn:E2; [|done|done]. cbn. intros [= <- <-]. by eapply H.
Qed.

Lemma leads_keeps {A} R (m : ST S A) s (Q : S -> result string A -> Prop) : keeps R m -> (forall s' r, R s s' -> Q s' r) -> leads m s Q.
Proof. intros H HQ s' r E. by eapply HQ, H. Qed.

End Leads.

Section Keeps.
Context {S : Type} (R : S -> S -> Prop) `{!PreOrder R}.

Lemma keep_ret {A} (a : A) : keeps R (mret a).
Proof. intros s. by apply leads_ret. Qed.

Lemma keeps_throw {A} e : keeps R (throw (A := A) e).
Proof. intros s. by apply leads_throw. Qed.

Lemma keeps_lift {A} (a : result string A) : keeps R (lift a).
Proof. intros s. by apply leads_lift. Qed.

Lemma keeps_panic {A} : keeps R (panic (A := A)).
Proof. intros s. apply leads_panic. Qed.

Lemma keeps_get_state : keeps R get_state.
Proof. intros s. by apply leads_get_state. Qed.

Lemma keep_bind {A B} (m : ST S A) (f : A -> ST S B) : keeps R m -> (forall a, keeps R (f a)) -> keeps R (m ≫= f).
Proof.
  intros Hm Hf s. apply leads_bind. eapply leads_keeps; [exact Hm|]. intros s1 [a|e] H1; [|done].
  eapply leads_keeps; [apply Hf|]. intros s2 r H2. by etrans.
Qed.

Lemma keeps_try {A} (m : ST S A) : keeps R m -> keeps R (try m).
Proof. intros Hm s. apply leads_try. apply Hm. Qed.

Lemma keeps_rephrase {A} g (m : ST S A) : keeps R m -> keeps R (rephrase g m).
Proof. intros Hm s. apply leads_rephrase. apply Hm. Qed.

Lemma keeps_update f : (forall s, R s (f s)) -> keeps R (update f).
Proof. intros Hf s. by apply leads_update. Qed.

Lemma keeps_calls {A} (f : S -> S * result string A) : (forall s, R s (f s).1) -> keeps R (calls f).
Proof. intros Hf s. apply leads_calls. apply Hf. Qed.

Lemma keeps_for_each {A} (f : A -> ST S ()) l : (forall x, keeps R (f x)) -> keeps R (for_each f l).
Proof. intros Hf. induction l as [|x l IH]; [apply keep_ret|]. apply keep_bind; [apply Hf|]. by intros _. Qed.

End Keeps.

(** A loop keeps what every turn keeps. *)
Lemma leads_for_each {S A} (f : A -> ST S ()) (I : list A -> S -> Prop) (E : S -> string -> Prop) (l : list A) :
  (forall k x s, k ++ [x] `prefix_of` l -> I k s -> leads (f x) s (fun s' r => match r with Ok _ => I (k ++ [x]) s' | Err e => E s' e end)) ->
  forall s, I [] s -> leads (for_each f l) s (fun s' r => match r with Ok _ => I l s' | Err e => E s' e end).
Proof.
  intros Hf. assert (forall b a s, l = a ++ b -> I a s -> leads (for_each f b) s (fun s' r => match r with Ok _ => I l s' | Err e => E s' e end)) as H;
    [|intros s Hs; by apply (H l [])].
  induction b as [|x b IH]; intros a s -> Ha; cbn [for_each].
  - apply leads_ret. by rewrite app_nil_r.
  - apply leads_bind. eapply leads_mono; [apply (Hf a x s); [exists b; by rewrite <- app_assoc|done]|]. intros s' [[]|e] H; [|done].
    apply (IH (a ++ [x])); [by rewrite <- app_assoc|done].
Qed.

Create HintDb keeps discriminated.
#[export] Hint Extern 0 (PreOrder _) => typeclasses eauto : keeps.
#[export] Hint Resolve keep_ret keeps_throw keeps_lift keeps_panic keeps_get_state : keeps.

(** The structure of a computation; what is left are its calls. *)
Ltac keep :=
  repeat first
    [ progress intros
    | solve [eauto 2 with keeps]
    | apply keep_bind | apply keeps_try | apply keeps_rephrase | apply keeps_for_each
    | match goal with
      | |- keeps _ (match ?x with _ => _ end) => destruct x
      | |- keeps _ (if ?x then _ else _) => destruct x
      | |- keeps _ (let '(_, _) := ?x in _) => destruct x
      end ].
