(* ===== verification/Symlink.v ===== *)
(** * Scoped symbolic links

    pkg/symlink/fs.go: [FollowSymlinkInScope] resolves the links of a path as
    if a directory were the root.  [Lstat] is what the kernel says of a path
    and [cwd] is the working directory.

    [walk] is the resolution a process rooted in the directory would make.
    [FollowSymlinkInScope_chroot] shows that the two agree where the targets
    of links stay inside the directory and lead through directories;
    [FollowSymlinkInScope_escapes] what happens where they do not. *)

From stdpp Require Import base list strings.
From Stdlib Require Import ZArith Lia Ascii.
From S2P Require Import Prelude GoStrings GoPath.

(** What [os.Lstat], and [os.Readlink] of a link, answer. *)
Inductive file := Absent | Unreadable (e : string) | NotLink | LinkTo (dest : result string string).

Definition maxLoopCounter : Z := 100.
Definition loop_error : string := "loopCounter reached MAX: " +:+ itoa maxLoopCounter.

(** Iterations of the loop that get past the test of [loopCounter]. *)
Definition link_tries : nat := Z.to_nat (maxLoopCounter - 1).

Section Symlink.
Context (cwd : result string string) (Lstat : string -> file).

(** [filepath.Abs] *)
Definition Abs (p : string) : result string string :=
  if IsAbs p then Ok (Clean p) else wd ← cwd; Ok (Join [wd; p]).

(** Where a link at [prev] leads. *)
Definition link_target (root prev dest : string) : string :=
  if IsAbs dest then Join [root; dest]
  else
    let prev := match Abs prev with Ok p => p | Err _ => "" end in
    let prev := Clean (Join [Dir prev; dest]) in
    if (String.length prev <? String.length root)%nat then Join [root; Base dest] else prev.

Fixpoint follow (n : nat) (root prev : string) : result string string :=
  match n with
  | O => Err loop_error
  | S n =>
      if negb (has_prefix root prev) then Ok prev
      else match Lstat prev with
           | Absent => Ok prev
           | Unreadable e => Err e
           | NotLink => Ok prev
           | LinkTo (Err e) => Err e
           | LinkTo (Ok dest) => follow n root (link_target root prev dest)
           end
  end.

Definition follow_elem (root prev p : string) : result string string := follow link_tries root (Clean (Join [prev; p])).

Definition FollowSymlinkInScope (link root : string) : result string string :=
  root ← Abs root;
  link ← Abs link;
  if String.eqb link root then Ok root
  else if negb (has_prefix root (Dir link)) then Err (link +:+ " is not within " +:+ root)
  else result_foldl (follow_elem root) "/" (split "/" link).

End Symlink.

Example FollowSymlinkInScope_test :
  let lstat p := if String.eqb p "/t/fs/a/d" then LinkTo (Ok "/b") else if String.eqb p "/t/fs/a/e" then LinkTo (Ok "../b")
                 else if String.eqb p "/t/fs/a/f" then LinkTo (Ok "../../../../test") else if String.eqb p "/t/loop" then LinkTo (Ok "loop") else Absent in
  let f := FollowSymlinkInScope (Ok "/") lstat in
  f "t/fs/a/d/c/data" "t" = Ok "/t/b/c/data" /\ f "t/fs/a/e/c/data" "t" = Ok "/t/fs/b/c/data" /\ f "/t/fs/a/e" "/t" = Ok "/t/fs/b" /\
  f "/t/loop/x" "/t" = Err loop_error /\ f "toto" "/t" = Err "/toto is not within /t" /\ f "/t/" "/t" = Ok "/t".
Proof. vm_compute. repeat split. Qed.

(** ** Resolution in the directory *)

Section Chroot.
(** The target of the link at a path of names below the directory. *)
Context (links : list string -> option string).

Definition base_of (p : list string) (d : string) : list string := if IsAbs d then [] else removelast p.

(** What a process whose root is the directory finds. *)
Inductive walk : list string -> list string -> list string -> Prop :=
| walk_done cur : walk cur [] cur
| walk_skip cur c cs out : dropped c = true -> walk cur cs out -> walk cur (c :: cs) out
| walk_up cur cs out : walk (removelast cur) cs out -> walk cur (".." :: cs) out
| walk_enter cur c cs out : plain_elem c -> links (cur ++ [c]) = None -> walk (cur ++ [c]) cs out -> walk cur (c :: cs) out
| walk_link cur c d cs out : plain_elem c -> links (cur ++ [c]) = Some d ->
    walk (base_of (cur ++ [c]) d) (split "/" d ++ cs) out -> walk cur (c :: cs) out.

(** The elements of a target lead from [cur] to [q], inside the directory and
    through no other link. *)
Inductive straight : list string -> list string -> list string -> Prop :=
| straight_done cur : straight cur [] cur
| straight_skip cur c cs q : dropped c = true -> straight cur cs q -> straight cur (c :: cs) q
| straight_up cur cs q : cur <> [] -> straight (removelast cur) cs q -> straight cur (".." :: cs) q
| straight_enter cur c cs q : plain_elem c -> links (cur ++ [c]) = None \/ Forall (fun c => dropped c = true) cs ->
    straight (cur ++ [c]) cs q -> straight cur (c :: cs) q.

(** No part of the path is a link. *)
Definition solid (p : list string) : Prop := plain p /\ forall a c b, p = a ++ c :: b -> links (a ++ [c]) = None.

Definition tame : Prop := links [] = None /\ forall p c d, solid p -> plain_elem c -> links (p ++ [c]) = Some d ->
  exists q, straight (base_of (p ++ [c]) d) (split "/" d) q.

(** [n] links in a row. *)
Inductive chases : nat -> list string -> list string -> Prop :=
| chases_none p : chases 0 p p
| chases_link n p d q r : links p = Some d -> straight (base_of p d) (split "/" d) q -> chases n q r -> chases (S n) p r.

End Chroot.

Lemma walk_plain links cur l out : walk links cur l out -> plain cur -> plain out.
Proof.
  induction 1 as [| | |cur c cs out Hc _ _ IH|cur c d cs out Hc _ _ IH]; intros Hp; [done|by apply IHwalk|apply IHwalk|apply IH|apply IH].
  - destruct cur as [|x cur _] using rev_ind; [done|]. rewrite removelast_last. by apply plain_app in Hp as [? _].
  - apply plain_app. by rewrite plain_one.
  - unfold base_of. destruct (IsAbs d); [constructor|by rewrite removelast_last].
Qed.

(** ** The code's steps on cleaned paths *)

Lemma Join_elems ds d l : plain ds -> plain l -> foldl (clean_push true) (rev ds) (split "/" d) = rev l -> Join [abs_path ds; d] = abs_path l.
Proof.
  intros Hd Hl E. unfold Join.
  assert (List.filter (fun e => negb (String.eqb e "")) [abs_path ds; d] = abs_path ds :: if negb (String.eqb d "") then [d] else []) as -> by done.
  assert (forall s, split "/" s = ("" :: match ds with [] => [""] | _ => ds end) ++ (if String.eqb d "" then [] else split "/" d) ->
    path_elems s = l) as H.
  { intros s Hs. unfold path_elems, clean_elems. rewrite Hs, foldl_app.
    assert (foldl (clean_push true) [] ("" :: match ds with [] => [""] | _ => ds end) = rev ds) as ->.
    { destruct ds as [|x ds]; [done|]. transitivity (foldl (clean_push true) [] (rev (rev (x :: ds)))); [by rewrite rev_involutive|].
      apply clean_foldl_id. exists (rev (x :: ds)), 0%nat. split; [by rewrite app_nil_r|]. split; [by apply List.Forall_rev|done]. }
    destruct (String.eqb_spec d "") as [->|]; [|by rewrite E, rev_involutive].
    cbn [foldl]. change (foldl (clean_push true) (rev ds) (split "/" "")) with (rev ds) in E. by rewrite E, rev_involutive. }
  destruct (String.eqb_spec d "") as [->|Hne]; cbn [negb]; cbv iota beta; apply Clean_of_elems; try apply IsAbs_cons; apply H.
  - cbn [join]. by rewrite split_abs, app_nil_r.
  - cbn [join]. change (abs_path ds +:+ "/" +:+ d) with (abs_path ds +:+ String "/" d). by rewrite split_app_gen, split_abs.
Qed.

Lemma IsAbs_abs ns : IsAbs (abs_path ns) = true.
Proof. apply IsAbs_cons. Qed.

Lemma Clean_abs ns : plain ns -> Clean (abs_path ns) = abs_path ns.
Proof. intros H. apply Clean_of_elems; [apply IsAbs_cons|by apply path_elems_abs]. Qed.

Lemma removelast_snoc {A} (l : list A) x : removelast (l ++ [x]) = l.
Proof. by rewrite removelast_last. Qed.

Lemma plain_removelast p : plain p -> plain (removelast p).
Proof.
  intros H. destruct p as [|x p _] using rev_ind; [done|]. rewrite removelast_snoc. by apply plain_app in H as [? _].
Qed.

(** Text of a path and of one below it. *)
Lemma join_app a b : a <> [] -> b <> [] -> join "/" (a ++ b) = join "/" a +:+ String "/" (join "/" b).
Proof.
  intros Ha Hb. induction a as [|x a IH]; [done|]. destruct a as [|y a].
  - cbn [app]. by rewrite join_cons.
  - cbn [app] in *. rewrite (join_cons "/" x (y :: a ++ b)), (join_cons "/" x (y :: a)), IH by done. by rewrite !string_app_assoc.
Qed.

Lemma abs_path_app a b : plain b -> exists t, abs_path (a ++ b) = abs_path a +:+ t /\ (b <> [] -> t <> "").
Proof.
  intros Hb. destruct b as [|x b]; [exists ""; by rewrite app_nil_r, string_app_nil_r|]. destruct a as [|y a].
  - exists (join "/" (x :: b)). split; [done|]. intros _. by apply rel_ne.
  - exists (String "/" (join "/" (x :: b))). split; [|done]. unfold abs_path. rewrite join_app by done. by rewrite string_app_assoc.
Qed.

Lemma abs_path_below rs p : plain p -> has_prefix (abs_path rs) (abs_path (rs ++ p)) = true.
Proof. intros Hp. destruct (abs_path_app rs p Hp) as (t & -> & _). apply has_prefix_app. Qed.

Lemma has_prefix_length p s : has_prefix p s = true -> (String.length p <= String.length s)%nat.
Proof. intros [r ->]%has_prefix_inv. rewrite string_length_app. lia. Qed.

Lemma abs_path_longer a b : plain b -> b <> [] -> (String.length (abs_path a) < String.length (abs_path (a ++ b)))%nat.
Proof.
  intros Hb Hne. destruct (abs_path_app a b Hb) as (t & -> & Ht). rewrite string_length_app. specialize (Ht Hne). destruct t; [done|]. simpl. lia.
Qed.

Lemma abs_path_above a b : plain b -> b <> [] -> has_prefix (abs_path (a ++ b)) (abs_path a) = false.
Proof.
  intros Hb Hne. destruct (has_prefix _ _) eqn:E; [|done]. apply has_prefix_length in E. pose proof (abs_path_longer a b Hb Hne). lia.
Qed.

(** The directory itself: nothing above it is looked at. *)
Lemma follow_root cwd Lstat rs : plain rs -> follow cwd Lstat link_tries (abs_path rs) (abs_path rs) = Ok (abs_path rs) ->
  result_foldl (follow_elem cwd Lstat (abs_path rs)) "/" ("" :: rs) = Ok (abs_path rs).
Proof.
  intros Hrs Htop.
  assert (forall a b, rs = a ++ b -> result_foldl (follow_elem cwd Lstat (abs_path rs)) (abs_path a) b = Ok (abs_path rs)) as H.
  { intros a b. revert a. induction b as [|x b IH]; intros a E; [by rewrite app_nil_r in E; subst|]. cbn [result_foldl].
    assert (follow_elem cwd Lstat (abs_path rs) (abs_path a) x = Ok (abs_path (a ++ [x]))) as ->; [|cbn; apply IH; by rewrite <- app_assoc].
    pose proof Hrs as Hp. rewrite E in Hp. apply plain_app in Hp as [Ha [Hx Hb]%Forall_cons].
    unfold follow_elem. rewrite Join_abs_one, Clean_abs by (done || (apply plain_app; by rewrite plain_one)).
    destruct b as [|y b]; [by rewrite <- E|].
    change link_tries with (S 98). cbn [follow]. assert (rs = (a ++ [x]) ++ y :: b) as -> by by rewrite <- app_assoc. by rewrite abs_path_above. }
  cbn [result_foldl]. assert (follow_elem cwd Lstat (abs_path rs) "/" "" = Ok "/") as ->; [|by apply (H [] rs)].
  unfold follow_elem. change (Clean (Join ["/"; ""])) with (abs_path []).
  destruct rs as [|r rs']; [done|].
  change link_tries with (S 98). cbn [follow]. pose proof (abs_path_above [] (r :: rs') Hrs) as Hb. cbn [app] in Hb. by rewrite Hb.
Qed.

Section Proofs.
Context (cwd : result string string) (Lstat : string -> file) (links : list string -> option string) (rs : list string).

(** Pushing the elements of a straight target. *)
Lemma straight_push p l q : straight links p l q -> plain p -> foldl (clean_push true) (rev (rs ++ p)) l = rev (rs ++ q) /\ plain q.
Proof.
  induction 1 as [cur|cur c cs q Hc _ IH|cur cs q Hne _ IH|cur c cs q Hc _ _ IH]; intros Hp.
  - done.
  - cbn [foldl]. assert (clean_push true (rev (rs ++ cur)) c = rev (rs ++ cur)) as ->; [unfold clean_push; unfold dropped in Hc; by rewrite Hc|by apply IH].
  - cbn [foldl]. destruct cur as [|x cur _] using rev_ind; [done|]. rewrite removelast_snoc in IH.
    apply plain_app in Hp as [Hp (_ & _ & _ & Hx)%plain_one]. rewrite app_assoc, rev_unit.
    assert (clean_push true (x :: rev (rs ++ cur)) ".." = rev (rs ++ cur)) as ->; [|by apply IH].
    unfold clean_push. destruct (String.eqb_spec x ".."); done.
  - cbn [foldl]. rewrite clean_push_plain by done. rewrite <- rev_unit, <- app_assoc. apply IH. apply plain_app. split; [done|by apply plain_one].
Qed.

Lemma dropped_straight p l q : Forall (fun c => dropped c = true) l -> straight links p l q -> q = p.
Proof.
  intros Hl H. induction H as [cur|cur c cs q Hc _ IH|cur cs q Hne _ IH|cur c cs q Hc _ _ IH]; [done| | |].
  - inversion Hl; subst. by apply IH.
  - inversion Hl as [|? ? Hd]; subst. done.
  - inversion Hl as [|? ? Hd]; subst. destruct Hc as (_ & H1 & H2 & _). unfold dropped in Hd.
    by destruct (String.eqb_spec c ""), (String.eqb_spec c ".").
Qed.

(** A path whose proper part has no link. *)
Definition near (p : list string) : Prop := p = [] \/ exists a c, p = a ++ [c] /\ solid links a /\ plain_elem c.

Lemma solid_nil : solid links [].
Proof. split; [constructor|]. intros [|? ?] c b E; discriminate E. Qed.

Lemma solid_snoc p c : solid links p -> plain_elem c -> links (p ++ [c]) = None -> solid links (p ++ [c]).
Proof.
  intros [Hp Hs] Hc Hl. split; [apply plain_app; by rewrite plain_one|]. intros a x b E.
  destruct b as [|y b _] using rev_ind; [by apply app_inj_tail in E as [-> ->]|].
  change (p ++ [c] = a ++ [x] ++ b ++ [y]) in E. rewrite !app_assoc in E. apply app_inj_tail in E as [-> ->]. apply (Hs a x b). by rewrite <- app_assoc.
Qed.

Lemma solid_removelast p : solid links p -> solid links (removelast p).
Proof.
  intros [Hp Hs]. split; [by apply plain_removelast|]. intros a x b E. destruct p as [|y p _] using rev_ind; [by destruct a|].
  rewrite removelast_snoc in E. subst p. apply (Hs a x (b ++ [y])). by rewrite <- app_assoc.
Qed.

Lemma solid_near p : solid links p -> near p.
Proof.
  intros H. destruct p as [|x p _] using rev_ind; [by left|]. right. exists p, x. split; [done|].
  pose proof (solid_removelast _ H) as Hr. rewrite removelast_snoc in Hr. destruct H as [[_ H%plain_one]%plain_app _]. done.
Qed.

Lemma near_plain p : near p -> plain p.
Proof. intros [->|(a & c & -> & [Ha _] & Hc)]; [constructor|]. apply plain_app. by rewrite plain_one. Qed.

Lemma near_solid p : links [] = None -> near p -> links p = None -> solid links p.
Proof. intros _ [->|(a & c & -> & Ha & Hc)] Hl; [apply solid_nil|by apply solid_snoc]. Qed.

Lemma near_base p d : near p -> solid links (base_of p d).
Proof.
  intros H. unfold base_of. destruct (IsAbs d); [apply solid_nil|]. destruct H as [->|(a & c & -> & Ha & _)]; [apply solid_nil|by rewrite removelast_snoc].
Qed.

Lemma straight_near p l q : straight links p l q -> solid links p -> near q.
Proof.
  induction 1 as [cur|cur c cs q Hc _ IH|cur cs q Hne _ IH|cur c cs q Hc Hl Hs IH]; intros Hp.
  - by apply solid_near.
  - by apply IH.
  - by apply IH, solid_removelast.
  - destruct Hl as [Hl|Hl]; [by apply IH, solid_snoc|]. apply dropped_straight in Hs as ->; [|done]. right. by exists cur, c.
Qed.

Hypothesis (Hrs : plain rs) (Htame : tame links).
Hypothesis Htold : forall p, near p ->
  match links p with Some d => Lstat (abs_path (rs ++ p)) = LinkTo (Ok d) | None => Lstat (abs_path (rs ++ p)) = Absent \/ Lstat (abs_path (rs ++ p)) = NotLink end.

Lemma link_target_at p d q : near p -> links p = Some d -> straight links (base_of p d) (split "/" d) q ->
  link_target cwd (abs_path rs) (abs_path (rs ++ p)) d = abs_path (rs ++ q).
Proof.
  intros Hn Hl Hq. pose proof (straight_push _ _ _ Hq (proj1 (near_base p d Hn))) as [Hp Hqp].
  assert (plain (rs ++ q)) as Hrq by by apply plain_app.
  unfold link_target, base_of in *. destruct (IsAbs d); [apply Join_elems; [done|done|by rewrite app_nil_r in Hp]|].
  destruct Hn as [->|(a & c & -> & [Ha _] & Hc)]; [by rewrite (proj1 Htame) in Hl|]. rewrite removelast_snoc in Hp.
  unfold Abs. rewrite IsAbs_abs. assert (plain (rs ++ a)) by by apply plain_app.
  rewrite Clean_abs by (rewrite app_assoc; apply plain_app; split; [done|by apply plain_one]).
  rewrite app_assoc, Dir_abs by (done || apply Hc). rewrite (Join_elems _ d (rs ++ q)), Clean_abs by done.
  destruct (Nat.ltb_spec (String.length (abs_path (rs ++ q))) (String.length (abs_path rs))) as [Hlt|]; [|done].
  pose proof (has_prefix_length _ _ (abs_path_below rs q Hqp)). lia.
Qed.

Lemma near_link p d : near p -> links p = Some d -> exists q, straight links (base_of p d) (split "/" d) q.
Proof.
  intros [->|(a & c & -> & Ha & Hc)] Hl; [by rewrite (proj1 Htame) in Hl|]. by apply (proj2 Htame a c d).
Qed.

Lemma follow_spec n : forall p, near p ->
  (exists m q, (m < n)%nat /\ chases links m p q /\ near q /\ links q = None /\ follow cwd Lstat n (abs_path rs) (abs_path (rs ++ p)) = Ok (abs_path (rs ++ q))) \/
  (exists q, chases links n p q /\ follow cwd Lstat n (abs_path rs) (abs_path (rs ++ p)) = Err loop_error).
Proof.
  induction n as [|n IH]; intros p Hn; [right; exists p; split; [constructor|done]|].
  cbn [follow]. rewrite abs_path_below by by apply near_plain. cbn [negb]. pose proof (Htold p Hn) as Ht.
  destruct (links p) as [d|] eqn:Hl.
  - destruct (near_link p d Hn Hl) as [q Hq]. rewrite Ht, (link_target_at p d q) by done.
    pose proof (straight_near _ _ _ Hq (near_base p d Hn)) as Hnq. destruct (IH q Hnq) as [(m & r & Hm & Hc & Hr & Hlr & ->)|(r & Hc & ->)].
    + left. exists (S m), r. split; [lia|]. split; [by econstructor|done].
    + right. exists r. split; [by econstructor|done].
  - left. exists 0%nat, p. split; [lia|]. split; [constructor|]. split; [done|]. split; [done|]. by destruct Ht as [-> | ->].
Qed.

(** The links the code follows one by one are followed by the walk. *)
Lemma walk_dropped p l cs out : Forall (fun c => dropped c = true) l -> walk links p cs out -> walk links p (l ++ cs) out.
Proof. induction 1; [done|]. intros Hw. cbn [app]. apply walk_skip; [done|]. by apply IHForall. Qed.

Lemma solid_no_link p : solid links p -> links p = None.
Proof.
  intros [_ Hs]. destruct p as [|x p _] using rev_ind; [apply (proj1 Htame)|by apply (Hs p x [])].
Qed.

Lemma walk_straight m : forall p l q r cs out, solid links p -> straight links p l q -> chases links m q r -> links r = None ->
  walk links r cs out -> walk links p (l ++ cs) out.
Proof.
  induction m as [m IHm] using lt_wf_ind. intros p l q r cs out Hsp Hs Hc Hr Hw.
  induction Hs as [cur|cur c l q Hd _ IH|cur l q Hne _ IH|cur c l q Hp Hl Hs IH]; cbn [app].
  - inversion Hc as [|n ? d q' ? Hl Hq Hc']; subst; [done|]. by rewrite solid_no_link in Hl.
  - apply walk_skip; [done|]. by apply IH.
  - apply walk_up. by apply IH; [apply solid_removelast|].
  - destruct (links (cur ++ [c])) as [d|] eqn:E; [|apply walk_enter; [done|done|by apply IH; [apply solid_snoc|]]].
    destruct Hl as [Hl|Hl]; [done|]. apply dropped_straight in Hs as ->; [|done].
    inversion Hc as [|n ? d' q' ? Hl' Hq Hc']; subst; [by rewrite E in Hr|]. rewrite E in Hl'. injection Hl' as <-.
    apply (walk_link _ _ _ d); [done|done|]. apply (IHm n) with q' r; [lia| |done|done|done|by apply walk_dropped].
    apply near_base. right. by exists cur, c.
Qed.

(** One element of the path. *)
Lemma follow_elem_spec cur c : solid links cur -> plain_elem c ->
  (exists q, solid links q /\ follow_elem cwd Lstat (abs_path rs) (abs_path (rs ++ cur)) c = Ok (abs_path (rs ++ q)) /\
    forall cs out, walk links q cs out -> walk links cur (c :: cs) out) \/
  (follow_elem cwd Lstat (abs_path rs) (abs_path (rs ++ cur)) c = Err loop_error /\ exists q, chases links link_tries (cur ++ [c]) q).
Proof.
  intros Hs Hc. assert (near (cur ++ [c])) as Hn by (right; by exists cur, c).
  assert (plain (rs ++ cur)) as Hp by (apply plain_app; split; [done|apply Hs]).
  unfold follow_elem. rewrite Join_abs_one, <- app_assoc by done. rewrite Clean_abs by (apply plain_app; split; [done|by apply near_plain]).
  destruct (follow_spec link_tries (cur ++ [c]) Hn) as [(m & q & _ & Hch & Hq & Hl & ->)|(q & Hch & ->)].
  - left. exists q. split; [by apply near_solid; [apply (proj1 Htame)| |]|]. split; [done|]. intros cs out Hw.
    change (c :: cs) with ([c] ++ cs). apply walk_straight with m (cur ++ [c]) q; [done| |done|done|done].
    apply straight_enter; [done|right; constructor|constructor].
  - right. split; [done|by exists q].
Qed.

Lemma follow_elems ns : plain ns -> forall cur, solid links cur ->
  (exists q, walk links cur ns q /\ result_foldl (follow_elem cwd Lstat (abs_path rs)) (abs_path (rs ++ cur)) ns = Ok (abs_path (rs ++ q))) \/
  (result_foldl (follow_elem cwd Lstat (abs_path rs)) (abs_path (rs ++ cur)) ns = Err loop_error /\ exists p q, near p /\ chases links link_tries p q).
Proof.
  induction 1 as [|c ns Hc _ IH]; intros cur Hs; [left; exists cur; split; [constructor|done]|]. cbn [result_foldl].
  destruct (follow_elem_spec cur c Hs Hc) as [(q & Hq & -> & Hw)|(-> & q & Hch)].
  - destruct (IH q Hq) as [(out & Ho & E)|?]; [left; exists out; split; [by apply Hw|exact E]|by right].
  - right. split; [done|]. exists (cur ++ [c]), q. split; [right; by exists cur, c|done].
Qed.

Lemma follow_top : follow cwd Lstat link_tries (abs_path rs) (abs_path rs) = Ok (abs_path rs).
Proof.
  pose proof (follow_spec link_tries [] (or_introl eq_refl)) as [(m & q & _ & Hch & _ & _ & Hf)|(q & Hch & _)].
  - rewrite app_nil_r in Hf. rewrite Hf. inversion Hch; subst; [by rewrite app_nil_r|]. by rewrite (proj1 Htame) in *.
  - inversion Hch as [|? ? d]; subst. by rewrite (proj1 Htame) in *.
Qed.

End Proofs.

(** C32. Where the targets of links stay inside the directory and lead
    through no other link, [FollowSymlinkInScope] finds the path a process
    rooted in the directory finds - so one inside it, whatever links are
    there - or gives up with its error, which only happens when ninety-nine
    links follow one another. *)
Theorem FollowSymlinkInScope_chroot cwd Lstat links rs ns : plain rs -> plain ns -> tame links ->
  (forall p, near links p ->
     match links p with Some d => Lstat (abs_path (rs ++ p)) = LinkTo (Ok d) | None => Lstat (abs_path (rs ++ p)) = Absent \/ Lstat (abs_path (rs ++ p)) = NotLink end) ->
  (exists out, walk links [] ns out /\ plain out /\ FollowSymlinkInScope cwd Lstat (abs_path (rs ++ ns)) (abs_path rs) = Ok (abs_path (rs ++ out))) \/
  (FollowSymlinkInScope cwd Lstat (abs_path (rs ++ ns)) (abs_path rs) = Err loop_error /\ exists p q, near links p /\ chases links link_tries p q).
Proof.
  intros Hrs Hns Htame Htold. assert (plain (rs ++ ns)) as Hp by by apply plain_app.
  unfold FollowSymlinkInScope, Abs. rewrite !IsAbs_abs, !Clean_abs by done. cbn.
  destruct (String.eqb_spec (abs_path (rs ++ ns)) (abs_path rs)) as [E|Hne].
  { left. exists []. rewrite app_nil_r. apply abs_path_inj in E; [|done..]. assert (ns = []) as -> by by apply (app_inv_head rs); rewrite app_nil_r. repeat constructor. }
  destruct ns as [|c ns _] using rev_ind; [by rewrite app_nil_r in Hne|].
  pose proof Hns as [Hn Hc%plain_one]%plain_app. rewrite app_assoc, Dir_abs, abs_path_below by (done || (apply plain_app; by split) || apply Hc).
  cbn [negb]. rewrite <- app_assoc, split_abs by done.
  assert ("" :: match rs ++ ns ++ [c] with [] => [""] | _ => rs ++ ns ++ [c] end = ("" :: rs) ++ ns ++ [c]) as -> by (by destruct rs, ns).
  rewrite result_foldl_app, follow_root by (done || by apply (follow_top cwd Lstat links)). cbn -[result_foldl].
  pose proof (follow_elems cwd Lstat links rs Hrs Htame Htold (ns ++ [c]) Hns [] (solid_nil links)) as H. rewrite app_nil_r in H.
  destruct H as [(out & Hw & E)|H]; [left; exists out|by right].
  split; [done|]. split; [|exact E]. eapply walk_plain; [exact Hw|constructor].
Qed.

Lemma climb rs : plain rs -> foldl (clean_push true) (rev rs) (replicate (length rs) "..") = [].
Proof.
  induction rs as [|x rs IH] using rev_ind; [done|]. intros [Hp (_ & _ & _ & Hx)%plain_one]%plain_app.
  rewrite length_app, Nat.add_comm, rev_unit. cbn [length Nat.add replicate foldl].
  assert (clean_push true (x :: rev rs) ".." = rev rs) as ->; [|by apply IH]. unfold clean_push. by destruct (String.eqb_spec x "..").
Qed.

Lemma push_plain o : plain o -> forall acc, foldl (clean_push true) acc o = rev o ++ acc.
Proof. induction 1 as [|x o Hx _ IH]; intros acc; [done|]. cbn [foldl rev]. by rewrite clean_push_plain, IH, <- app_assoc. Qed.

(** A target that climbs to the top and goes down again. *)
Lemma climbing_target cwd rs a o : plain rs -> rs <> [] -> plain_elem a -> plain o -> (String.length (abs_path rs) <= String.length (abs_path o))%nat ->
  link_target cwd (abs_path rs) (abs_path (rs ++ [a])) (join "/" (replicate (length rs) ".." ++ o)) = abs_path o.
Proof.
  intros Hrs Hne Ha Ho Hlen. unfold link_target, Abs. rewrite IsAbs_abs, Clean_abs by (apply plain_app; by rewrite plain_one).
  rewrite Dir_abs by (done || apply Ha). destruct rs as [|x rs]; [done|]. set (l := replicate (length (x :: rs)) ".." ++ o).
  assert (split "/" (join "/" l) = l) as Hs.
  { apply split_join; [done|]. apply Forall_app. split; [by apply Forall_replicate|]. eapply Forall_impl; [exact Ho|]. by intros ? [? _]. }
  assert (IsAbs (join "/" l) = false) as ->. { unfold l. cbn [length replicate app]. by destruct (replicate (length rs) ".." ++ o). }
  rewrite (Join_elems _ _ o), Clean_abs; [|done..|].
  - destruct (Nat.ltb_spec (String.length (abs_path o)) (String.length (abs_path (x :: rs)))); [lia|done].
  - rewrite Hs. unfold l. by rewrite foldl_app, climb, push_plain, app_nil_r.
Qed.

(** C33. A relative target that leads out of the directory, to a path whose
    text is not shorter than the directory's, is followed: the result is
    outside. *)
Theorem FollowSymlinkInScope_escapes cwd Lstat rs a o : plain rs -> rs <> [] -> plain_elem a -> plain o ->
  (String.length (abs_path rs) <= String.length (abs_path o))%nat -> has_prefix (abs_path rs) (abs_path o) = false ->
  Lstat (abs_path rs) = NotLink -> Lstat (abs_path (rs ++ [a])) = LinkTo (Ok (join "/" (replicate (length rs) ".." ++ o))) ->
  FollowSymlinkInScope cwd Lstat (abs_path (rs ++ [a])) (abs_path rs) = Ok (abs_path o).
Proof.
  intros Hrs Hne Ha Ho Hlen Hpre Hroot Hl. assert (plain (rs ++ [a])) as Hp by (apply plain_app; by rewrite plain_one).
  unfold FollowSymlinkInScope, Abs. rewrite !IsAbs_abs, !Clean_abs by done. cbn.
  destruct (String.eqb_spec (abs_path (rs ++ [a])) (abs_path rs)) as [E|_].
  { apply abs_path_inj in E; [|done..]. apply (f_equal length) in E. rewrite length_app in E. simpl in E. lia. }
  rewrite Dir_abs, has_prefix_refl by (done || apply Ha). cbn [negb]. rewrite split_abs by done.
  assert ("" :: match rs ++ [a] with [] => [""] | _ => rs ++ [a] end = ("" :: rs) ++ [a]) as -> by (by destruct rs).
  rewrite result_foldl_app, follow_root; [|done|]; change link_tries with (S (S 97)); [|cbn [follow]; by rewrite has_prefix_refl, Hroot].
  cbn -[follow]. assert (follow_elem cwd Lstat (abs_path rs) (abs_path rs) a = Ok (abs_path o)) as ->; [|done].
  unfold follow_elem. rewrite Join_abs_one, Clean_abs by done. change link_tries with (S (S 97)).
  cbn [follow]. rewrite abs_path_below, Hl by by apply plain_one. cbn [negb].
  rewrite (climbing_target cwd rs a o) by done. by rewrite Hpre.
Qed.

(** ** Examples *)

Definition demo_links (p : list string) : option string :=
  if decide (p = ["a"]) then Some "/d/." else if decide (p = ["d"; "e"]) then Some "../d/../f" else if decide (p = ["loop"]) then Some "loop" else None.

Definition lstat_of (links : list string -> option string) (n : nat) (path : string) : file :=
  match links (drop n (path_elems path)) with Some d => LinkTo (Ok d) | None => NotLink end.

Lemma demo_link p d : demo_links p = Some d -> p = ["a"] /\ d = "/d/." \/ p = ["d"; "e"] /\ d = "../d/../f" \/ p = ["loop"] /\ d = "loop".
Proof. unfold demo_links. repeat case_decide; intros [= <-]; auto. Qed.

Ltac plain_names := repeat (constructor; [by repeat split|]); constructor.

Lemma demo_tame : tame demo_links.
Proof.
  split; [done|]. intros p c d _ _ [[E ->]|[[E ->]|[E ->]]]%demo_link; rewrite E.
  - exists ["d"]. apply straight_skip; [done|]. apply straight_enter; [by repeat split|by left|]. apply straight_skip; [done|constructor].
  - exists ["f"]. apply straight_up; [done|]. apply straight_enter; [by repeat split|by left|]. apply straight_up; [done|].
    apply straight_enter; [by repeat split|by left|]. constructor.
  - exists ["loop"]. apply straight_enter; [by repeat split|right; constructor|constructor].
Qed.

Lemma FollowSymlinkInScope_chroot_witness :
  exists out, walk demo_links [] ["a"; "e"; "g"] out /\ FollowSymlinkInScope (Err "no") (lstat_of demo_links 1) "/r/a/e/g" "/r" = Ok (abs_path ("r" :: out)) /\ out = ["f"; "g"].
Proof.
  assert (plain ["r"]) as Hr by plain_names. assert (plain ["a"; "e"; "g"]) as Hn by plain_names.
  destruct (FollowSymlinkInScope_chroot (Err "no") (lstat_of demo_links 1) demo_links ["r"] ["a"; "e"; "g"] Hr Hn demo_tame) as [(out & Hw & Hp & E)|[E _]].
  - intros p Hp. unfold lstat_of. rewrite path_elems_abs by (apply plain_app; split; [done|by apply (near_plain demo_links)]).
    cbn [app drop]. assert (drop 0 p = p) as -> by done. destruct (demo_links p); [done|by right].
  - exists out. split; [done|]. split; [exact E|]. assert (abs_path ["r"; "f"; "g"] = abs_path (["r"] ++ out)) as H.
    { assert (FollowSymlinkInScope (Err "no") (lstat_of demo_links 1) (abs_path (["r"] ++ ["a"; "e"; "g"])) (abs_path ["r"]) = Ok (abs_path ["r"; "f"; "g"])) as Hv
        by (vm_compute; reflexivity). congruence. }
    clear E. apply abs_path_inj in H; [by injection H|plain_names|by apply plain_app].
  - exfalso. vm_compute in E. discriminate E.
Defined.

Lemma FollowSymlinkInScope_escapes_witness :
  FollowSymlinkInScope (Err "no") (fun p => if String.eqb p "/var/c1/data" then LinkTo (Ok "../../etc/cron.d") else NotLink) "/var/c1/data" "/var/c1" = Ok "/etc/cron.d".
Proof.
  apply (FollowSymlinkInScope_escapes (Err "no") _ ["var"; "c1"] "data" ["etc"; "cron.d"]); [plain_names|done|by repeat split|plain_names|simpl; lia|done..].
Defined.

(** A link inside a target is left to the kernel: the path that is found is
    below the directory, but the kernel, which takes [/etc] for the second
    link, leaves it, where a process rooted in the directory finds [/etc/c]
    in the directory. *)
Definition hidden_links (p : list string) : option string :=
  if decide (p = ["a"]) then Some "b/c" else if decide (p = ["b"]) then Some "/etc" else None.

Lemma hidden_link_not_followed :
  FollowSymlinkInScope (Err "no") (lstat_of hidden_links 1) "/r/a" "/r" = Ok "/r/b/c" /\ walk hidden_links [] ["a"] ["etc"; "c"].
Proof.
  split; [vm_compute; reflexivity|]. apply (walk_link _ _ _ "b/c"); [by repeat split|done|]. cbn. apply (walk_link _ _ _ "/etc"); [by repeat split|done|].
  cbn. apply walk_skip; [done|]. apply walk_enter; [by repeat split|done|]. apply walk_enter; [by repeat split|done|]. constructor.
Qed.
