(* ===== verification/Volumes.v ===== *)
(** * Volumes of containers

    daemon/volumes.go: what is mounted where in a container.  The volumes of
    a container are those it had, those of the containers it names, the
    binds of the host and the anonymous volumes of its configuration, in this
    order of precedence.

    The store of containers is shared: a container may take volumes from
    itself.  File system, storage driver and the packing of directories
    (archive.CopyWithTar) are the class [VolumeHost]. *)

From stdpp Require Import base gmap list strings.
From Stdlib Require Import ZArith Lia Ascii.
From S2P Require Import Prelude GoStrings GoPath GoState Symlink.

Local Open Scope Z_scope.

Record Volume := { HostPath : string; VolPath : string; Mode : string; isBindMount : bool }.

Record Mount := { Source : string; Destination : string; Writable : bool; Private : bool }.

(** What volumes.go uses of a container; a nil map is [None]. *)
Record Container := {
  basefs : string; Volumes : option (gmap string string); VolumesRW : option (gmap string bool);
  Binds : list string; VolumesFrom : list string; Config_Volumes : list string;
  ResolvConfPath : string; HostnamePath : string; HostsPath : string; Mounts : list Mount }.

Definition with_volumes (c : Container) (v : option (gmap string string)) (rw : option (gmap string bool)) : Container :=
  {| basefs := basefs c; Volumes := v; VolumesRW := rw; Binds := Binds c; VolumesFrom := VolumesFrom c; Config_Volumes := Config_Volumes c;
     ResolvConfPath := ResolvConfPath c; HostnamePath := HostnamePath c; HostsPath := HostsPath c; Mounts := Mounts c |}.
Definition with_mounts (c : Container) (m : list Mount) : Container :=
  {| basefs := basefs c; Volumes := Volumes c; VolumesRW := VolumesRW c; Binds := Binds c; VolumesFrom := VolumesFrom c; Config_Volumes := Config_Volumes c;
     ResolvConfPath := ResolvConfPath c; HostnamePath := HostnamePath c; HostsPath := HostsPath c; Mounts := m |}.

Inductive stat := Found (dir : bool) | Missing (e : string) | StatFails (e : string).

Class VolumeHost (H : Type) := {
  os_Stat : H -> string -> stat;
  os_Lstat : H -> string -> file;
  EvalSymlinks : H -> string -> result string string;
  os_MkdirAll : H -> string -> H * result string ();
  os_Create : H -> string -> H * result string ();
  ReadDir : H -> string -> result string (list string);
  CopyWithTar : H -> string -> string -> H * result string ();
  owner_mode : H -> string -> result string (Z * Z * Z);
  os_Chown : H -> string -> Z -> Z -> H * result string ();
  os_Chmod : H -> string -> Z -> H * result string ();
  volumes_Create : H -> H * result string string;
  driver_Get : H -> string -> H * result string string;
  driver_name : H -> string;
  Mount_container : H -> string -> H * result string ();
  Unmount_container : H -> string -> H * result string ();
}.

(** ** Specifications of binds *)

Definition isRw (v : Volume) : bool := String.eqb (Mode v) "" || String.eqb (to_lower (Mode v)) "rw".

Definition parseBindVolumeSpec (spec : string) : result string Volume :=
  vol ← match split ":" spec with
        | [_] => Ok {| HostPath := ""; VolPath := spec; Mode := "rw"; isBindMount := true |}
        | [host; path] => Ok {| HostPath := host; VolPath := path; Mode := "rw"; isBindMount := true |}
        | [host; path; mode] => Ok {| HostPath := host; VolPath := path; Mode := mode; isBindMount := true |}
        | _ => Err ("Invalid volume specification: " +:+ spec)
        end;
  if negb (IsAbs (HostPath vol)) then Err ("cannot bind mount volume: " +:+ HostPath vol +:+ " volume paths must be absolute.") else Ok vol.

Definition illegalDsts : list string := ["/"; "."].

Definition bind_step (volumes : gmap string Volume) (bind : string) : result string (gmap string Volume) :=
  vol ← parseBindVolumeSpec bind;
  if existsb (String.eqb (VolPath vol)) illegalDsts then Err ("Illegal bind destination: " +:+ VolPath vol)
  else Ok (<[Clean (VolPath vol) := vol]> volumes).

Definition getBindMap (c : Container) : result string (gmap string Volume) := result_foldl bind_step ∅ (Binds c).

Definition anonymous (volPath : string) : Volume := {| HostPath := ""; VolPath := volPath; Mode := "rw"; isBindMount := false |}.

Definition add_anonymous (volumes : gmap string Volume) (volPath : string) : gmap string Volume :=
  match volumes !! volPath with Some _ => volumes | None => <[volPath := anonymous volPath]> volumes end.

(** [host:path:mode] of a volumes-from specification: container and mode. *)
Definition volumes_from_spec (containerSpec : string) : result string (string * bool) :=
  match split2 ":" containerSpec with
  | [] => Err ("Malformed volumes-from specification: " +:+ containerSpec)
  | name :: mode =>
      match mode with
      | [] => Ok (name, true)
      | m :: _ =>
          if String.eqb m "ro" then Ok (name, false) else if String.eqb m "rw" then Ok (name, true)
          else Err ("Malformed volumes-from specification: " +:+ containerSpec)
      end
  end.

Section Volumes.
Context {H : Type} `{VolumeHost H}.

(** The store of containers by identifier, around the host. *)
Record World := { host : H; store : gmap string Container }.

Abbreviation ST := (ST World).

(** The order in which maps are visited; [daemon.Get]; the working
    directory. *)
Context (range_volumes : gmap string string -> list (string * string)) (range_binds : gmap string Volume -> list Volume)
  (daemon_Get : string -> option string) (cwd : result string string).

Definition call {A} (f : H -> H * result string A) : ST A :=
  calls (fun w => let '(h, r) := f (host w) in ({| host := h; store := store w |}, r)).

Definition ask {A} (f : H -> result string A) : ST A := fun w => Return (w, f (host w)).

(** A container is there: the callers hold a pointer to it. *)
Definition container (id : string) : ST Container := fun w =>
  match store w !! id with Some c => Return (w, Ok c) | None => Panic end.

Definition set_container (id : string) (f : Container -> Container) : ST () :=
  update (fun w => {| host := host w; store := alter f id (store w) |}).

(** [container.Volumes\[path\] = host] and [container.VolumesRW\[path\] = rw]:
    an assignment to a nil map panics. *)
Definition put_volume (id path host_path : string) : ST () :=
  c ← container id;
  match Volumes c with None => panic | Some m => set_container id (fun c => with_volumes c (Some (<[path := host_path]> m)) (VolumesRW c)) end.

Definition put_rw (id path : string) (rw : bool) : ST () :=
  c ← container id;
  match VolumesRW c with None => panic | Some m => set_container id (fun c => with_volumes c (Volumes c) (Some (<[path := rw]> m))) end.

Definition volume_at (c : Container) (path : string) : option string := Volumes c ≫= lookup path.
Definition rw_at (c : Container) (path : string) : option bool := VolumesRW c ≫= lookup path.

(** ** Files *)

Definition createIfNotExists (destination : string) (isDir : bool) : ST () :=
  w ← get_state;
  match os_Stat (host w) destination with
  | Missing _ =>
      if isDir then call (fun h => os_MkdirAll h destination)
      else call (fun h => os_MkdirAll h (Dir destination));; call (fun h => os_Create h destination)
  | _ => mret ()
  end.

Definition copyOwnership (source destination : string) : ST () :=
  '(uid, gid, mode) ← ask (fun h => owner_mode h source);
  call (fun h => os_Chown h destination uid gid);;
  call (fun h => os_Chmod h destination mode).

Definition copyExistingContents (source destination : string) : ST () :=
  volList ← ask (fun h => ReadDir h source);
  (if (0 <? length volList)%nat then
     srcList ← ask (fun h => ReadDir h destination);
     if (length srcList =? 0)%nat then call (fun h => CopyWithTar h source destination) else mret ()
   else mret ());;
  copyOwnership source destination.

Definition FollowSymlinkInScope_ (link root : string) : ST string :=
  ask (fun h => FollowSymlinkInScope cwd (os_Lstat h) link root).

Definition getResourcePath (c : Container) (path : string) : ST string :=
  let cleanPath := Join ["/"; path] in FollowSymlinkInScope_ (Join [basefs c; cleanPath]) (basefs c).

(** ** Volumes of other containers *)

(** One volume of container [cid], for container [id]. *)
Definition take_volume (id cid : string) (mountRW : bool) '((volPath, vid) : string * string) : ST () :=
  self ← container id;
  match volume_at self volPath with
  | Some _ => mret ()
  | None =>
      c ← container cid;
      pth ← getResourcePath c volPath;
      w ← get_state;
      match os_Stat (host w) pth with
      | Missing e | StatFails e => throw e
      | Found dir =>
          createIfNotExists pth dir;;
          put_volume id volPath vid;;
          c ← container cid;
          match rw_at c volPath with
          | Some isRW => put_rw id volPath (isRW && mountRW)
          | None => mret ()
          end
      end
  end.

(** The deferred [Unmount]s run in the reverse order when the function
    returns. *)
Fixpoint applyVolumesFrom_loop (id : string) (specs : list string) : ST () :=
  match specs with
  | [] => mret ()
  | containerSpec :: specs =>
      '(name, mountRW) ← lift (volumes_from_spec containerSpec);
      match daemon_Get name with
      | None => throw ("Container " +:+ name +:+ " not found. Impossible to mount its volumes")
      | Some cid =>
          rephrase (fun _ => "Container " +:+ name +:+ " failed to mount. Impossible to mount its volumes") (call (fun h => Mount_container h cid));;
          deferring (try (call (fun h => Unmount_container h cid));; mret ())
            (c ← container cid;
             for_each (take_volume id cid mountRW) (range_volumes (default ∅ (Volumes c)));;
             applyVolumesFrom_loop id specs)
      end
  end.

Definition applyVolumesFrom (id : string) : ST () :=
  c ← container id; applyVolumesFrom_loop id (VolumesFrom c).

(** ** The container's own volumes *)

Definition createVolumeHostPath : ST string :=
  vid ← call volumes_Create;
  w ← get_state;
  rephrase (fun e => "Driver " +:+ driver_name (host w) +:+ " failed to get volume rootfs " +:+ vid +:+ ": " +:+ e) (call (fun h => driver_Get h vid)).

Definition initialize (id : string) (v : Volume) : ST () :=
  let path := Clean (VolPath v) in
  c ← container id;
  match volume_at c path with
  | Some _ => mret ()
  | None =>
      HostPath ← (if isBindMount v then mret (HostPath v) else createVolumeHostPath);
      hostPath ← ask (fun h => EvalSymlinks h HostPath);
      fullVolPath ← FollowSymlinkInScope_ (Join [basefs c; path]) (basefs c);
      put_volume id path hostPath;;
      put_rw id path (isRw v);;
      w ← get_state;
      match os_Stat (host w) HostPath with
      | Missing e | StatFails e => throw e
      | Found volIsDir =>
          createIfNotExists fullVolPath volIsDir;;
          if isRw v && negb (isBindMount v) then copyExistingContents fullVolPath hostPath else mret ()
      end
  end.

Definition createVolumes (id : string) : ST () :=
  c ← container id;
  volumes ← lift (getBindMap c);
  for_each (initialize id) (range_binds (foldl add_anonymous volumes (Config_Volumes c))).

Definition prepareVolumesForContainer (id : string) : ST () :=
  c ← container id;
  (if match Volumes c with None => true | Some m => bool_decide (m = ∅) end then
     set_container id (fun c => with_volumes c (Some ∅) (Some ∅));;
     applyVolumesFrom id
   else mret ());;
  createVolumes id.

Definition setupMountsForContainer (id : string) : ST () :=
  c ← container id;
  let mounts :=
    [{| Source := ResolvConfPath c; Destination := "/etc/resolv.conf"; Writable := true; Private := true |}] ++
    (if negb (String.eqb (HostnamePath c) "") then [{| Source := HostnamePath c; Destination := "/etc/hostname"; Writable := true; Private := true |}] else []) ++
    (if negb (String.eqb (HostsPath c) "") then [{| Source := HostsPath c; Destination := "/etc/hosts"; Writable := true; Private := true |}] else []) ++
    ((fun '(r, v) => {| Source := v; Destination := r; Writable := default false (rw_at c r); Private := false |}) <$> range_volumes (default ∅ (Volumes c))) in
  set_container id (fun c => with_mounts c mounts).

End Volumes.

(** ** What is mounted where *)

Create HintDb volumes discriminated.

Section Specification.
Context {H : Type} `{VolumeHost H}.
Context (range_volumes : gmap string string -> list (string * string)) (range_binds : gmap string Volume -> list Volume)
  (daemon_Get : string -> option string) (cwd : result string string).
Hypothesis range_volumes_all : forall m, range_volumes m ≡ₚ map_to_list m.
Hypothesis range_binds_all : forall m, range_binds m ≡ₚ (map_to_list m).*2.

(** The other containers, and the container with its volumes. *)
Context (others : gmap string Container) (id : string) (c0 : Container).

Definition world_of (h : H) (V : gmap string string) (RW : gmap string bool) : @World H :=
  {| host := h; store := <[id := with_volumes c0 (Some V) (Some RW)]> others |}.

(** The container another name stands for. *)
Definition source (cid : string) : option Container := if decide (cid = id) then None else others !! cid.

Definition known (cid : string) : Prop := cid = id \/ is_Some (others !! cid).

(** What a specification gives at a path: the first container that has the
    volume, with its rights and those of the specification. *)
Definition offer (spec path : string) : option (string * option bool) :=
  match volumes_from_spec spec with
  | Err _ => None
  | Ok (name, mode) =>
      cid ← daemon_Get name; c ← source cid; vid ← volume_at c path;
      Some (vid, (fun b => b && mode) <$> rw_at c path)
  end.

Definition inherited (specs : list string) (path : string) : option (string * option bool) :=
  foldr (fun spec rest => match offer spec path with Some x => Some x | None => rest end) None specs.

(** The directory of the host a volume gets. *)
Definition provides (v : Volume) (hp : string) : Prop :=
  exists h x, EvalSymlinks h x = Ok hp /\ (if isBindMount v then x = HostPath v else exists h0 h1 vid, driver_Get h0 vid = (h1, Ok x)).

Lemma ensures_container (w : @World H) cid c (Q : @World H -> result string Container -> Prop) : store w !! cid = Some c -> Q w (Ok c) -> ensures (container cid) w Q.
Proof. intros E HQ. exists w, (Ok c). unfold container. by rewrite E. Qed.

Lemma store_self h V RW : store (world_of h V RW) !! id = Some (with_volumes c0 (Some V) (Some RW)).
Proof. apply lookup_insert_eq. Qed.

Lemma ensures_call {A} (f : H -> H * result string A) h V RW (Q : @World H -> result string A -> Prop) :
  (forall h' r, f h = (h', r) -> Q (world_of h' V RW) r) -> ensures (call f) (world_of h V RW) Q.
Proof. intros HQ. apply ensures_calls. simpl. destruct (f h) as [h' r] eqn:E. by apply HQ. Qed.

Lemma ensures_ask {A} (f : H -> result string A) (w : @World H) (Q : @World H -> result string A -> Prop) : Q w (f (host w)) -> ensures (ask f) w Q.
Proof. intros HQ. by exists w, (f (host w)). Qed.

Lemma ensures_put_volume h V RW p x (Q : @World H -> result string () -> Prop) :
  Q (world_of h (<[p := x]> V) RW) (Ok ()) -> ensures (put_volume id p x) (world_of h V RW) Q.
Proof.
  intros HQ. apply ensures_bind. eapply ensures_container; [apply store_self|]. simpl. apply ensures_update.
  unfold world_of in *. simpl. rewrite alter_insert_eq. exact HQ.
Qed.

Lemma ensures_put_rw h V RW p x (Q : @World H -> result string () -> Prop) :
  Q (world_of h V (<[p := x]> RW)) (Ok ()) -> ensures (put_rw id p x) (world_of h V RW) Q.
Proof.
  intros HQ. apply ensures_bind. eapply ensures_container; [apply store_self|]. simpl. apply ensures_update.
  unfold world_of in *. simpl. rewrite alter_insert_eq. exact HQ.
Qed.

(** Computations that leave the store alone. *)
Definition host_only {A} (m : GoState.ST (@World H) A) : Prop := forall h V RW, ensures m (world_of h V RW) (fun w _ => exists h', w = world_of h' V RW).

Lemma host_only_use {A} (m : GoState.ST (@World H) A) h V RW (Q : @World H -> result string A -> Prop) :
  host_only m -> (forall h' r, Q (world_of h' V RW) r) -> ensures m (world_of h V RW) Q.
Proof. intros Hm HQ. eapply ensures_mono; [apply Hm|]. intros w r [h' ->]. apply HQ. Qed.

Lemma host_only_ret {A} (a : A) : host_only (mret a).
Proof. intros h V RW. apply ensures_ret. by exists h. Qed.

Lemma host_only_throw {A} e : host_only (throw (A := A) e).
Proof. intros h V RW. apply ensures_throw. by exists h. Qed.

Lemma host_only_call {A} (f : H -> H * result string A) : host_only (call f).
Proof. intros h V RW. apply ensures_call. intros h' r _. by exists h'. Qed.

Lemma host_only_ask {A} (f : H -> result string A) : host_only (ask f).
Proof. intros h V RW. apply ensures_ask. by exists h. Qed.

Lemma host_only_bind {A B} (m : GoState.ST (@World H) A) (f : A -> GoState.ST (@World H) B) :
  host_only m -> (forall a, host_only (f a)) -> host_only (m ≫= f).
Proof.
  intros Hm Hf h V RW. apply ensures_bind. apply host_only_use; [done|]. intros h' [a|e]; [apply Hf|by exists h'].
Qed.

Lemma host_only_state {B} (f : @World H -> GoState.ST (@World H) B) : (forall w, host_only (f w)) -> host_only (w ← get_state; f w).
Proof. intros Hf. apply host_only_bind; [|done]. intros h V RW. exists (world_of h V RW), (Ok (world_of h V RW)). split; [done|by exists h]. Qed.

Lemma host_only_try {A} (m : GoState.ST (@World H) A) : host_only m -> host_only (try m).
Proof. intros Hm h V RW. apply ensures_try. apply host_only_use; [done|]. intros h' r. by exists h'. Qed.

Lemma host_only_rephrase {A} g (m : GoState.ST (@World H) A) : host_only m -> host_only (rephrase g m).
Proof. intros Hm h V RW. apply ensures_rephrase. apply host_only_use; [done|]. intros h' r. by exists h'. Qed.

#[local] Hint Resolve host_only_ret host_only_throw host_only_call host_only_ask : volumes.

Lemma host_only_createIfNotExists d b : host_only (createIfNotExists d b).
Proof.
  apply host_only_state. intros w. destruct (os_Stat (host w) d); [auto with volumes| |auto with volumes].
  destruct b; [auto with volumes|]. apply host_only_bind; auto with volumes.
Qed.

Lemma host_only_copy a b : host_only (copyExistingContents a b).
Proof.
  apply host_only_bind; [auto with volumes|]. intros l. apply host_only_bind.
  - destruct (0 <? length l)%nat; [|auto with volumes]. apply host_only_bind; [auto with volumes|]. intros l'. destruct (length l' =? 0)%nat; auto with volumes.
  - intros []. apply host_only_bind; [auto with volumes|]. intros [[u g] m]. apply host_only_bind; auto with volumes.
Qed.

(** The volumes as one map from paths to places and rights. *)
Definition at_path (V : gmap string string) (RW : gmap string bool) (p : string) : option (string * option bool) := x ← V !! p; Some (x, RW !! p).

Definition fits (V : gmap string string) (RW : gmap string bool) : Prop := forall p, V !! p = None -> RW !! p = None.

Definition first {A} (x y : option A) : option A := match x with Some a => Some a | None => y end.

(** The new volumes are those of [T] where there was none; all of them when
    nothing failed. *)
Definition grown (V : gmap string string) (RW : gmap string bool) (T : string -> option (string * option bool)) (w : @World H) (r : result string ()) : Prop :=
  exists h V' RW', w = world_of h V' RW' /\ fits V' RW' /\
    match r with
    | Ok _ => forall p, at_path V' RW' p = first (at_path V RW p) (T p)
    | Err _ => forall p y, at_path V' RW' p = Some y -> first (at_path V RW p) (T p) = Some y
    end.

Definition offered (c : Container) (mode : bool) (p : string) : option (string * option bool) :=
  vid ← volume_at c p; Some (vid, (fun b => b && mode) <$> rw_at c p).

Lemma at_path_insert V RW p x b q : at_path (<[p := x]> V) (<[p := b]> RW) q = if decide (q = p) then Some (x, Some b) else at_path V RW q.
Proof. unfold at_path. case_decide as E; [subst; by rewrite !lookup_insert_eq|by rewrite !lookup_insert_ne]. Qed.

Lemma at_path_insert_only V RW p x q : RW !! p = None -> at_path (<[p := x]> V) RW q = if decide (q = p) then Some (x, None) else at_path V RW q.
Proof. intros Hn. unfold at_path. case_decide as E; [subst; by rewrite lookup_insert_eq, Hn|by rewrite lookup_insert_ne]. Qed.

Lemma fits_insert V RW p x b : fits V RW -> fits (<[p := x]> V) (<[p := b]> RW).
Proof. intros Hf q. destruct (decide (q = p)) as [->|]; [by rewrite lookup_insert_eq|rewrite !lookup_insert_ne by done; apply Hf]. Qed.

Lemma fits_insert_only V RW p x : fits V RW -> fits (<[p := x]> V) RW.
Proof. intros Hf q. destruct (decide (q = p)) as [->|]; [by rewrite lookup_insert_eq|rewrite lookup_insert_ne by done; apply Hf]. Qed.

(** A container by its name: another one, or the container itself. *)
Definition is_container (cid : string) (c : Container) V RW : Prop :=
  if decide (cid = id) then c = with_volumes c0 (Some V) (Some RW) else others !! cid = Some c.

Lemma store_container cid c h V RW : is_container cid c V RW -> store (world_of h V RW) !! cid = Some c.
Proof. unfold is_container, world_of. simpl. case_decide as E; [intros ->; subst; apply lookup_insert_eq|by rewrite lookup_insert_ne]. Qed.

Lemma take_volume_spec cid c mode p x h V RW : others !! cid = Some c -> cid <> id -> fits V RW -> volume_at c p = Some x ->
  ensures (take_volume cwd id cid mode (p, x)) (world_of h V RW)
    (grown V RW (fun q => if decide (q = p) then offered c mode p else None)).
Proof.
  intros Hc Hne Hf Hx. assert (forall V' RW', is_container cid c V' RW') as His by (intros V' RW'; unfold is_container; by rewrite decide_False).
  apply ensures_bind. eapply ensures_container; [apply store_self|]. unfold volume_at at 1. cbn [with_volumes Volumes mbind option_bind].
  destruct (V !! p) as [y|] eqn:Ey.
  { apply ensures_ret. exists h, V, RW. repeat split; [done|]. intros q. unfold first, at_path. case_decide as E; [subst; by rewrite Ey|]. by destruct (V !! q). }
  assert (forall h' e, grown V RW (fun q => if decide (q = p) then offered c mode p else None) (world_of h' V RW) (Err e)) as Herr.
  { intros h' e. exists h', V, RW. repeat split; [done|]. intros q z E. unfold first. by rewrite E. }
  apply ensures_bind. eapply ensures_container; [by apply store_container, His|]. cbn.
  apply ensures_bind. apply host_only_use; [apply host_only_ask|]. intros h1 [pth|e]; [|apply Herr].
  apply ensures_bind. exists (world_of h1 V RW), (Ok (world_of h1 V RW)). split; [done|]. cbn [host world_of].
  destruct (os_Stat h1 pth) as [dir|e|e]; [|apply ensures_throw, Herr..].
  apply ensures_bind. apply host_only_use; [apply host_only_createIfNotExists|]. intros h2 [[]|e]; [|apply Herr].
  apply ensures_bind. apply ensures_put_volume. apply ensures_bind. eapply ensures_container; [by apply store_container, His|]. cbn.
  unfold offered in *. rewrite Hx. cbn [mbind option_bind]. destruct (rw_at c p) as [b|] eqn:Eb.
  - apply ensures_put_rw. exists h2, (<[p := x]> V), (<[p := b && mode]> RW). split; [done|]. split; [by apply fits_insert|].
    intros q. rewrite at_path_insert. case_decide as E; [subst; unfold first, at_path; by rewrite Ey|]. unfold first. by destruct (at_path V RW q).
  - apply ensures_ret. exists h2, (<[p := x]> V), RW. split; [done|]. split; [by apply fits_insert_only|].
    intros q. rewrite at_path_insert_only by by apply Hf. case_decide as E; [subst; unfold first, at_path; by rewrite Ey|]. unfold first. by destruct (at_path V RW q).
Qed.

Lemma grown_weaken V RW T T' w r : grown V RW T w r -> (forall p, first (at_path V RW p) (T p) = first (at_path V RW p) (T' p)) -> grown V RW T' w r.
Proof.
  intros (h & V' & RW' & -> & Hf & Hr) HT. exists h, V', RW'. split; [done|]. split; [done|]. destruct r; [|intros p y E; rewrite <- HT; by apply Hr].
  intros p. rewrite <- HT. apply Hr.
Qed.

Lemma grown_same h V RW T r : fits V RW -> (r = Ok () -> forall p, first (at_path V RW p) (T p) = at_path V RW p) -> grown V RW T (world_of h V RW) r.
Proof.
  intros Hf HT. exists h, V, RW. split; [done|]. split; [done|]. destruct r as [[]|e]; [intros p; symmetry; by apply HT|].
  intros p y E. unfold first. by rewrite E.
Qed.

Lemma at_path_Some V RW p : is_Some (at_path V RW p) <-> is_Some (V !! p).
Proof. unfold at_path. destruct (V !! p); split; intros [? E]; try discriminate E; by eexists. Qed.

Lemma grown_seq (m1 m2 : GoState.ST (@World H) ()) T1 T2 h V RW :
  ensures m1 (world_of h V RW) (grown V RW T1) ->
  (forall h' V' RW', fits V' RW' -> (forall p, is_Some (V !! p) -> is_Some (V' !! p)) -> ensures m2 (world_of h' V' RW') (grown V' RW' T2)) ->
  ensures (m1;; m2) (world_of h V RW) (grown V RW (fun p => first (T1 p) (T2 p))).
Proof.
  intros H1 H2. apply ensures_bind. eapply ensures_mono; [exact H1|]. intros w [[]|e] (h' & V' & RW' & -> & Hf & Hr).
  - eapply ensures_mono; [apply H2; [done|]|].
    + intros p [y Hy]. apply (at_path_Some V' RW'). rewrite Hr. unfold first, at_path. rewrite Hy. by eexists.
    + intros w2 r (h2 & V2 & RW2 & -> & Hf2 & Hr2). exists h2, V2, RW2. split; [done|]. split; [done|].
      destruct r; [intros p; rewrite Hr2, Hr|intros p y E; specialize (Hr2 p y E); rewrite Hr in Hr2; rewrite <- Hr2]; unfold first; by destruct (at_path V RW p).
  - exists h', V', RW'. split; [done|]. split; [done|]. intros p y E. specialize (Hr p y E). unfold first in *.
    destruct (at_path V RW p); [done|]. by rewrite Hr.
Qed.

Lemma take_each cid c mode l : others !! cid = Some c -> cid <> id -> Forall (fun x => volume_at c x.1 = Some x.2) l ->
  forall h V RW, fits V RW ->
  ensures (for_each (take_volume cwd id cid mode) l) (world_of h V RW) (grown V RW (fun q => if decide (q ∈ l.*1) then offered c mode q else None)).
Proof.
  intros Hc Hne. induction 1 as [|[p x] l Hx _ IH]; intros h V RW Hf; cbn [for_each].
  - apply ensures_ret. apply grown_same; [done|]. intros _ q. rewrite decide_False by (cbn; set_solver). unfold first. by destruct (at_path V RW q).
  - eapply ensures_mono; [apply grown_seq; [by apply take_volume_spec|intros; by apply IH]|]. intros w r Hg. eapply grown_weaken; [exact Hg|].
    intros q. cbn [fmap list_fmap fst]. f_equal. destruct (decide (q = p)) as [->|Hq].
    + rewrite (decide_True (P := p ∈ p :: l.*1)) by set_solver. unfold offered. cbn in Hx. by rewrite Hx.
    + unfold first. destruct (decide (q ∈ l.*1)); [by rewrite decide_True by set_solver|by rewrite decide_False by set_solver].
Qed.

Lemma take_own cid mode l : cid = id -> forall h V RW, fits V RW -> Forall (fun x => is_Some (V !! x.1)) l ->
  ensures (for_each (take_volume cwd id cid mode) l) (world_of h V RW) (grown V RW (fun _ => None)).
Proof.
  intros Hid h V RW Hf. induction 1 as [|[p x] l [y Hy] _ IH]; cbn [for_each].
  - apply ensures_ret, grown_same; [done|]. intros _ q. unfold first. by destruct (at_path V RW q).
  - apply ensures_bind. apply ensures_bind. eapply ensures_container; [apply store_self|]. unfold volume_at at 1. cbn in Hy |- *. rewrite Hy. by apply ensures_ret.
Qed.

Lemma grown_deferring d (m : GoState.ST (@World H) ()) h V RW T : host_only d -> ensures m (world_of h V RW) (grown V RW T) ->
  ensures (deferring d m) (world_of h V RW) (grown V RW T).
Proof.
  intros Hd Hm. apply ensures_deferring. eapply ensures_mono; [exact Hm|]. intros w r (h' & V' & RW' & -> & Hf & Hr).
  apply host_only_use; [done|]. intros h2 _. by exists h2, V', RW'.
Qed.

Lemma grown_err h V RW T e : fits V RW -> grown V RW T (world_of h V RW) (Err e).
Proof. intros Hf. by apply grown_same. Qed.

Lemma range_known c V : Volumes c = Some V -> Forall (fun x => volume_at c x.1 = Some x.2) (range_volumes V).
Proof.
  intros E. apply Forall_forall. intros [p x]. rewrite range_volumes_all, elem_of_map_to_list. unfold volume_at. rewrite E. done.
Qed.

Lemma offered_range c mode q : (if decide (q ∈ (range_volumes (default ∅ (Volumes c))).*1) then offered c mode q else None) = offered c mode q.
Proof.
  case_decide as Hq; [done|]. unfold offered, volume_at. destruct (Volumes c) as [V|]; [|done]. cbn in *.
  destruct (V !! q) as [x|] eqn:E; [|done]. exfalso. apply Hq. rewrite range_volumes_all. apply list_elem_of_fmap. exists (q, x). by rewrite elem_of_map_to_list.
Qed.

(** All containers that [daemon.Get] finds are in the store. *)
Hypothesis Get_known : forall name cid, daemon_Get name = Some cid -> known cid.

Lemma applyVolumesFrom_spec specs : forall h V RW, fits V RW ->
  ensures (applyVolumesFrom_loop range_volumes daemon_Get cwd id specs) (world_of h V RW) (grown V RW (inherited specs)).
Proof.
  induction specs as [|spec specs IH]; intros h V RW Hf; cbn [applyVolumesFrom_loop].
  - apply ensures_ret, grown_same; [done|]. intros _ q. unfold first. by destruct (at_path V RW q).
  - apply ensures_bind, ensures_lift. destruct (volumes_from_spec spec) as [[name mode]|e] eqn:Hs; [|by apply grown_err].
    destruct (daemon_Get name) as [cid|] eqn:Hg; [|by apply ensures_throw, grown_err].
    apply ensures_bind. apply host_only_use; [apply host_only_rephrase, host_only_call|]. intros h1 [[]|e]; [|by apply grown_err].
    apply grown_deferring; [apply host_only_bind; [apply host_only_try, host_only_call|intros; apply host_only_ret]|].
    assert (forall p, inherited (spec :: specs) p = first (offer spec p) (inherited specs p)) as Hi by (intros p; cbn; by destruct (offer spec p)).
    destruct (decide (cid = id)) as [->|Hne].
    + apply ensures_bind. eapply ensures_container; [apply store_self|]. cbn [with_volumes Volumes default from_option].
      eapply ensures_mono; [apply grown_seq; [apply take_own; [done..|]|intros; by apply IH]|].
      * apply Forall_forall. intros [p x]. rewrite range_volumes_all, elem_of_map_to_list. cbn. intros ->. by eexists.
      * intros w r Hgr. eapply grown_weaken; [exact Hgr|]. intros p. rewrite Hi. unfold offer. rewrite Hs, Hg. unfold source. cbn. by rewrite decide_True.
    + destruct (Get_known _ _ Hg) as [?|[c Hc]]; [done|].
      apply ensures_bind. eapply ensures_container; [apply (store_container cid c h1 V RW); unfold is_container; by rewrite decide_False|].
      eapply ensures_mono; [apply grown_seq; [apply (take_each cid c mode); [done|done| |done]|intros; by apply IH]|].
      * destruct (Volumes c) as [Vc|] eqn:Ec; [by apply range_known|]. cbn. apply Forall_forall. intros x. rewrite range_volumes_all. set_solver.
      * intros w r Hgr. eapply grown_weaken; [exact Hgr|]. intros p. cbn beta. rewrite offered_range, Hi. unfold offer. rewrite Hs, Hg. unfold source. cbn. by rewrite decide_False, Hc.
Qed.

(** ** Binds and anonymous volumes *)

(** The last bind of a path. *)
Definition last_bind (binds : list string) (p : string) : option Volume :=
  foldl (fun found bind => match parseBindVolumeSpec bind with Ok v => if decide (Clean (VolPath v) = p) then Some v else found | Err _ => found end) None binds.

Definition requested (c : Container) (p : string) : option Volume :=
  first (last_bind (Binds c) p) (if decide (p ∈ Config_Volumes c) then Some (anonymous p) else None).

Lemma bind_map_spec binds m m' : result_foldl bind_step m binds = Ok m' -> (forall k v, m !! k = Some v -> Clean (VolPath v) = k) ->
  (forall k v, m' !! k = Some v -> Clean (VolPath v) = k) /\
  forall p, m' !! p = foldl (fun found bind => match parseBindVolumeSpec bind with Ok v => if decide (Clean (VolPath v) = p) then Some v else found | Err _ => found end) (m !! p) binds.
Proof.
  revert m. induction binds as [|b binds IH]; intros m E Hk; [by injection E as <-|]. cbn [result_foldl foldl] in *.
  apply bind_ok in E as (m1 & E1 & E). unfold bind_step in E1. destruct (parseBindVolumeSpec b) as [v|]; [|done]. cbn in E1.
  destruct (_ || _) in E1; [done|]. injection E1 as <-. apply IH in E as [H1 H2].
  - split; [done|]. intros p. rewrite H2. f_equal. case_decide as Ep; [subst; by rewrite lookup_insert_eq|by rewrite lookup_insert_ne].
  - intros k w. destruct (decide (k = Clean (VolPath v))) as [->|]; [rewrite lookup_insert_eq; congruence|rewrite lookup_insert_ne by done; apply Hk].
Qed.

Lemma add_anonymous_spec l : Forall (fun p => Clean p = p) l -> forall m, (forall k v, m !! k = Some v -> Clean (VolPath v) = k) ->
  (forall k v, foldl add_anonymous m l !! k = Some v -> Clean (VolPath v) = k) /\
  forall p, foldl add_anonymous m l !! p = first (m !! p) (if decide (p ∈ l) then Some (anonymous p) else None).
Proof.
  induction 1 as [|q l Hq _ IH]; intros m Hk; cbn [foldl].
  - split; [done|]. intros p. rewrite decide_False by set_solver. unfold first. by destruct (m !! p).
  - assert (forall k v, add_anonymous m q !! k = Some v -> Clean (VolPath v) = k) as Hk'.
    { intros k v. unfold add_anonymous. destruct (m !! q) eqn:E; [apply Hk|].
      destruct (decide (k = q)) as [->|]; [rewrite lookup_insert_eq; by intros [= <-]|rewrite lookup_insert_ne by done; apply Hk]. }
    destruct (IH _ Hk') as [H1 H2]. split; [done|]. intros p. rewrite H2. unfold add_anonymous. destruct (m !! q) eqn:E.
    + destruct (decide (p = q)) as [->|]; [by rewrite E|]. destruct (decide (p ∈ l)); [by rewrite decide_True by set_solver|by rewrite decide_False by set_solver].
    + destruct (decide (p = q)) as [->|]; [rewrite lookup_insert_eq, E; cbn; by rewrite decide_True by set_solver|]. rewrite lookup_insert_ne by done.
      destruct (decide (p ∈ l)); [by rewrite decide_True by set_solver|by rewrite decide_False by set_solver].
Qed.

(** What [initialize] of the volumes of a list leaves. *)
Definition supplied (V : gmap string string) (RW : gmap string bool) (l : list Volume) (w : @World H) (r : result string ()) : Prop :=
  exists h V' RW', w = world_of h V' RW' /\
    (forall p, match V !! p with
               | Some x => V' !! p = Some x /\ RW' !! p = RW !! p
               | None => forall x, V' !! p = Some x -> exists v, v ∈ l /\ Clean (VolPath v) = p /\ provides v x /\ RW' !! p = Some (isRw v)
               end) /\
    (r = Ok () -> forall v, v ∈ l -> is_Some (V' !! Clean (VolPath v))).

Lemma supplied_same h V RW l r : (r = Ok () -> forall v, v ∈ l -> is_Some (V !! Clean (VolPath v))) -> supplied V RW l (world_of h V RW) r.
Proof. intros Hr. exists h, V, RW. split; [done|]. split; [|done]. intros p. destruct (V !! p) eqn:E; done. Qed.

Lemma host_path_spec h V RW v (Q : @World H -> result string string -> Prop) :
  (forall h' r, match r with Ok x => if isBindMount v then x = HostPath v else exists h0 h1 vid, driver_Get h0 vid = (h1, Ok x) | Err _ => True end -> Q (world_of h' V RW) r) ->
  ensures (if isBindMount v then mret (HostPath v) else createVolumeHostPath) (world_of h V RW) Q.
Proof.
  intros HQ. destruct (isBindMount v); [by apply ensures_ret, HQ|]. apply ensures_bind. apply host_only_use; [apply host_only_call|]. intros h1 [vid|e]; [|by apply HQ].
  apply ensures_bind. eexists _, (Ok _). split; [reflexivity|]. cbn beta iota. apply ensures_rephrase, ensures_call. intros h2 [x|e] E; apply HQ; [|done]. by exists h1, h2, vid.
Qed.

Lemma initialize_spec v h V RW : ensures (initialize cwd id v) (world_of h V RW) (supplied V RW [v]).
Proof.
  apply ensures_bind. eapply ensures_container; [apply store_self|]. unfold volume_at. cbn [with_volumes Volumes mbind option_bind].
  destruct (V !! Clean (VolPath v)) as [y|] eqn:Ey.
  { apply ensures_ret, supplied_same. intros _ u ->%list_elem_of_singleton. rewrite Ey. by eexists. }
  apply ensures_bind, host_path_spec. intros h1 [x|e] Hx; [|by apply supplied_same].
  apply ensures_bind, ensures_ask. destruct (EvalSymlinks (host (world_of h1 V RW)) x) as [hp|e] eqn:Ehp; [|by apply supplied_same].
  apply ensures_bind. apply host_only_use; [apply host_only_ask|]. intros h2 [full|e]; [|by apply supplied_same].
  assert (forall h3 r, supplied V RW [v] (world_of h3 (<[Clean (VolPath v) := hp]> V) (<[Clean (VolPath v) := isRw v]> RW)) r) as Hdone.
  { intros h3 r. exists h3, (<[Clean (VolPath v) := hp]> V), (<[Clean (VolPath v) := isRw v]> RW). split; [done|]. split.
    - intros p. destruct (V !! p) as [z|] eqn:E.
      + assert (p <> Clean (VolPath v)) by congruence. by rewrite !lookup_insert_ne.
      + intros z. destruct (decide (p = Clean (VolPath v))) as [->|]; [|rewrite lookup_insert_ne by done; congruence].
        rewrite !lookup_insert_eq. intros [= <-]. exists v. split; [by apply list_elem_of_singleton|]. split; [done|]. split; [|done]. by eexists _, x.
    - intros _ u ->%list_elem_of_singleton. rewrite lookup_insert_eq. by eexists. }
  apply ensures_bind, ensures_put_volume. apply ensures_bind, ensures_put_rw. apply ensures_bind. eexists _, (Ok _). split; [reflexivity|]. cbn beta iota.
  destruct (os_Stat _ x) as [dir|e|e]; [|by apply ensures_throw..].
  apply ensures_bind. apply host_only_use; [apply host_only_createIfNotExists|]. intros h4 [[]|e]; [|done].
  destruct (isRw v && negb (isBindMount v)); [|by apply ensures_ret]. apply host_only_use; [apply host_only_copy|done].
Qed.

Lemma initialize_all l : forall h V RW, ensures (for_each (initialize cwd id) l) (world_of h V RW) (supplied V RW l).
Proof.
  induction l as [|v l IH]; intros h V RW; cbn [for_each]; [apply ensures_ret, supplied_same; set_solver|].
  apply ensures_bind. eapply ensures_mono; [apply initialize_spec|]. intros w [[]|e] (h1 & V1 & RW1 & -> & H1 & H1').
  - eapply ensures_mono; [apply IH|]. intros w r (h2 & V2 & RW2 & -> & H2 & H2'). exists h2, V2, RW2. split; [done|]. split.
    + intros p. specialize (H1 p). specialize (H2 p). destruct (V !! p) as [x|].
      * destruct H1 as [E1 E2]. rewrite E1 in H2. destruct H2 as [-> ->]. done.
      * intros x Ex. destruct (V1 !! p) as [y|] eqn:E1.
        -- destruct H2 as [E2 ->]. rewrite E2 in Ex. injection Ex as <-. destruct (H1 y eq_refl) as (u & Hu & ?). exists u. split; [set_solver|done].
        -- destruct (H2 x Ex) as (u & Hu & ?). exists u. split; [set_solver|done].
    + intros Hr u [->|Hu]%elem_of_cons; [|by apply H2'].
      destruct (H1' eq_refl v) as [x Ex]; [by apply list_elem_of_singleton|]. specialize (H2 (Clean (VolPath v))). rewrite Ex in H2. destruct H2 as [-> _]. by eexists.
  - exists h1, V1, RW1. split; [done|]. split; [|done]. intros p. specialize (H1 p). destruct (V !! p); [done|]. intros x Ex.
    destruct (H1 x Ex) as (u & Hu & ?). exists u. split; [set_solver|done].
Qed.

Lemma requested_spec m : getBindMap c0 = Ok m -> Forall (fun p => Clean p = p) (Config_Volumes c0) ->
  forall p v, (v ∈ range_binds (foldl add_anonymous m (Config_Volumes c0)) /\ Clean (VolPath v) = p) <-> requested c0 p = Some v.
Proof.
  intros Hm Hl p v. destruct (bind_map_spec _ _ _ Hm) as [Hk Hb]; [done|]. destruct (add_anonymous_spec _ Hl m Hk) as [Hk' Ha].
  assert (requested c0 p = foldl add_anonymous m (Config_Volumes c0) !! p) as ->.
  { unfold requested, last_bind. by rewrite Ha, Hb, lookup_empty. }
  rewrite range_binds_all, list_elem_of_fmap. split.
  - intros [([k u] & -> & Hin%elem_of_map_to_list) <-]. cbn in *. by rewrite (Hk' _ _ Hin).
  - intros E. split; [|by apply Hk']. exists (p, v). by rewrite elem_of_map_to_list.
Qed.

(** Where a volume of the container comes from. *)
Definition comes_from (p x : string) (rw : option bool) : Prop :=
  match inherited (VolumesFrom c0) p with
  | Some (vid, r) => x = vid /\ rw = r
  | None => exists v, requested c0 p = Some v /\ provides v x /\ rw = Some (isRw v)
  end.

Lemma createVolumes_spec h V RW : Forall (fun p => Clean p = p) (Config_Volumes c0) -> fits V RW ->
  (forall p y, at_path V RW p = Some y -> inherited (VolumesFrom c0) p = Some y) ->
  (forall p y, inherited (VolumesFrom c0) p = Some y -> at_path V RW p = Some y) ->
  ensures (createVolumes range_binds cwd id) (world_of h V RW) (fun w r => exists h' V' RW', w = world_of h' V' RW' /\
    (forall p x, V' !! p = Some x -> comes_from p x (RW' !! p)) /\
    (r = Ok () -> forall p, is_Some (V' !! p) <-> is_Some (inherited (VolumesFrom c0) p) \/ is_Some (requested c0 p))).
Proof.
  intros Hl Hf Hin Hin'. assert (forall p x, V !! p = Some x -> inherited (VolumesFrom c0) p = Some (x, RW !! p)) as Hold.
  { intros p x E. apply Hin. unfold at_path. by rewrite E. }
  apply ensures_bind. eapply ensures_container; [apply store_self|]. apply ensures_bind, ensures_lift.
  change (getBindMap (with_volumes c0 (Some V) (Some RW))) with (getBindMap c0). cbn [with_volumes Config_Volumes].
  destruct (getBindMap c0) as [m|e] eqn:Hm.
  - eapply ensures_mono; [apply initialize_all|]. intros w r (h' & V' & RW' & -> & H1 & H2). exists h', V', RW'. split; [done|]. split.
    + intros p x E. specialize (H1 p). unfold comes_from. destruct (V !! p) as [y|] eqn:Ey.
      * destruct H1 as [E1 ->]. rewrite (Hold p y Ey). split; [congruence|done].
      * assert (inherited (VolumesFrom c0) p = None) as ->.
        { destruct (inherited _ p) as [y|] eqn:Ei; [|done]. apply Hin' in Ei. unfold at_path in Ei. by rewrite Ey in Ei. }
        destruct (H1 x E) as (v & Hv & Hp & Hpr & Hrw). exists v. split; [|done]. by apply (requested_spec m Hm Hl).
    + intros Hr p. split.
      * intros [x E]. specialize (H1 p). destruct (V !! p) as [y|] eqn:Ey; [left; rewrite (Hold p y Ey); by eexists|].
        right. destruct (H1 x E) as (v & Hv & Hp & _). exists v. by apply (requested_spec m Hm Hl).
      * intros [[y Ey]|[v Hv]].
        -- specialize (H1 p). apply Hin' in Ey. unfold at_path in Ey. destruct (V !! p) as [z|]; [|done]. destruct H1 as [-> _]. by eexists.
        -- apply (requested_spec m Hm Hl) in Hv as [Hv <-]. by apply H2.
  - exists h, V, RW. split; [done|]. split; [|done]. intros p x E. unfold comes_from. by rewrite (Hold p x E).
Qed.

End Specification.

Section Theorems.
Context {H : Type} `{VolumeHost H}.
Context (range_volumes : gmap string string -> list (string * string)) (range_binds : gmap string Volume -> list Volume)
  (daemon_Get : string -> option string) (cwd : result string string).

(** A container that has no volumes yet. *)
Definition no_volumes (c : Container) : Prop := default ∅ (Volumes c) = ∅.

Lemma alter_known {A} (f : A -> A) (m : gmap string A) k x : m !! k = Some x -> alter f k m = <[k := f x]> m.
Proof. intros E. rewrite <- (insert_id m k x E) at 1. by rewrite alter_insert_eq. Qed.

Lemma fresh_volumes (w : @World H) id c : store w !! id = Some c -> no_volumes c ->
  forall (Q : @World H -> result string () -> Prop),
  ensures (applyVolumesFrom_loop range_volumes daemon_Get cwd id (VolumesFrom c)) (world_of (store w) id c (host w) ∅ ∅)
    (fun w r => match r with Ok _ => ensures (createVolumes range_binds cwd id) w Q | Err e => Q w (Err e) end) ->
  ensures (prepareVolumesForContainer range_volumes range_binds daemon_Get cwd id) w Q.
Proof.
  intros Hc Hn Q HQ. apply ensures_bind. eapply ensures_container; [done|].
  assert (match Volumes c with None => true | Some m => bool_decide (m = ∅) end = true) as ->.
  { unfold no_volumes in Hn. destruct (Volumes c); [|done]. by apply bool_decide_eq_true. }
  apply ensures_bind, ensures_bind, ensures_update. rewrite (alter_known _ _ _ _ Hc).
  apply ensures_bind. eapply ensures_container; [apply (store_self (store w) id c (host w))|]. cbn [with_volumes VolumesFrom].
  eapply ensures_mono; [exact HQ|]. intros w' [[]|e]; auto.
Qed.

(** C34. The volumes of a container that starts for the first time, and whose
    anonymous volumes are named by cleaned paths: whatever the host answers
    and in whatever order maps are visited, the function returns, no other
    container changes, and every volume is where it belongs - at a path of
    another container's volume that container's directory, the first named
    container going first, with its rights cut by the specification's;
    elsewhere at the path of a bind the directory of the last bind of that
    path with its mode; elsewhere at the path of an anonymous volume a new
    directory. When nothing failed exactly these paths have a volume. (Two
    names of one path that [Clean] tells apart race for it:
    [unclean_volume_races].) *)
Theorem prepareVolumes_spec (w : @World H) id c :
  (forall m, range_volumes m ≡ₚ map_to_list m) -> (forall m, range_binds m ≡ₚ (map_to_list m).*2) ->
  (forall name cid, daemon_Get name = Some cid -> is_Some (store w !! cid)) ->
  store w !! id = Some c -> no_volumes c -> Forall (fun p => Clean p = p) (Config_Volumes c) ->
  exists w' r, prepareVolumesForContainer range_volumes range_binds daemon_Get cwd id w = Return (w', r) /\
    (forall cid, cid <> id -> store w' !! cid = store w !! cid) /\
    exists V RW, store w' !! id = Some (with_volumes c (Some V) (Some RW)) /\
      (forall p x, V !! p = Some x ->
        match inherited daemon_Get (store w) id (VolumesFrom c) p with
        | Some (vid, rw) => x = vid /\ RW !! p = rw
        | None => exists v, requested c p = Some v /\ provides v x /\ RW !! p = Some (isRw v)
        end) /\
      (r = Ok () -> forall p, is_Some (V !! p) <-> is_Some (inherited daemon_Get (store w) id (VolumesFrom c) p) \/ is_Some (requested c p)).
Proof.
  intros Hrv Hrb Hget Hc Hn Hl.
  assert (forall name cid, daemon_Get name = Some cid -> known (store w) id cid) as Hk by (intros name cid Hg; destruct (Hget _ _ Hg) as [x Hx]; right; by eexists).
  assert (ensures (prepareVolumesForContainer range_volumes range_binds daemon_Get cwd id) w (fun w' r =>
    exists h V RW, w' = world_of (store w) id c h V RW /\ (forall p x, V !! p = Some x -> comes_from daemon_Get (store w) id c p x (RW !! p)) /\
      (r = Ok () -> forall p, is_Some (V !! p) <-> is_Some (inherited daemon_Get (store w) id (VolumesFrom c) p) \/ is_Some (requested c p)))) as (w' & r & E & h & V & RW & -> & H1 & H2).
  - apply (fresh_volumes w id c Hc Hn). eapply ensures_mono; [by apply (applyVolumesFrom_spec range_volumes range_binds)|].
    assert (forall p (y : option (string * option bool)), first (at_path ∅ ∅ p) y = y) as Hnone by done.
    intros w' [[]|e] (h & V & RW & -> & Hf & Hr).
    + apply (createVolumes_spec range_volumes range_binds); try done; intros p y E; by rewrite Hr, Hnone in * .
    + exists h, V, RW. split; [done|]. split; [|done]. intros p x E. unfold comes_from.
      assert (at_path V RW p = Some (x, RW !! p)) as Ea by (unfold at_path; by rewrite E). apply Hr in Ea. rewrite Hnone in Ea. by rewrite Ea.
  - exists (world_of (store w) id c h V RW), r. split; [done|]. split; [intros cid Hne; cbn; by rewrite lookup_insert_ne|].
    exists V, RW. split; [apply store_self|]. split; [|done]. intros p x Ex. exact (H1 p x Ex).
Qed.

(** What [initialize] does not find it adds: the volumes of a list that are
    all there are left alone. *)
Lemma initialize_again (w : @World H) id c V l : store w !! id = Some c -> Volumes c = Some V ->
  (forall v, v ∈ l -> is_Some (V !! Clean (VolPath v))) -> for_each (initialize cwd id) l w = Return (w, Ok ()).
Proof.
  intros Hc HV Hl. induction l as [|v l IH]; [done|]. cbn [for_each]. unfold mbind, ST_bind.
  assert (initialize cwd id v w = Return (w, Ok ())) as ->; [|apply IH; intros u Hu; apply Hl; set_solver].
  unfold initialize, container, mbind, ST_bind. rewrite Hc. cbn. unfold volume_at. rewrite HV. cbn.
  destruct (Hl v) as [x ->]; [set_solver|done].
Qed.

(** Once the volumes of a container are prepared, preparing them again -
    every later start does - calls nothing and changes nothing. *)
Theorem prepareVolumes_again (w w' : @World H) id c c' :
  (forall m, range_volumes m ≡ₚ map_to_list m) -> (forall m, range_binds m ≡ₚ (map_to_list m).*2) ->
  (forall name cid, daemon_Get name = Some cid -> is_Some (store w !! cid)) ->
  store w !! id = Some c -> no_volumes c ->
  prepareVolumesForContainer range_volumes range_binds daemon_Get cwd id w = Return (w', Ok ()) ->
  store w' !! id = Some c' -> ~ no_volumes c' ->
  prepareVolumesForContainer range_volumes range_binds daemon_Get cwd id w' = Return (w', Ok ()).
Proof.
  intros Hrv Hrb Hget Hc Hn Hp Hc' Hn'.
  assert (forall name cid, daemon_Get name = Some cid -> known (store w) id cid) as Hk by (intros name cid Hg; destruct (Hget _ _ Hg) as [x Hx]; right; by eexists).
  assert (ensures (prepareVolumesForContainer range_volumes range_binds daemon_Get cwd id) w (fun w' r => r = Ok () ->
    exists h V RW m, w' = world_of (store w) id c h V RW /\ getBindMap c = Ok m /\
      forall v, v ∈ range_binds (foldl add_anonymous m (Config_Volumes c)) -> is_Some (V !! Clean (VolPath v)))) as (w2 & r & E & HQ).
  - apply (fresh_volumes w id c Hc Hn). eapply ensures_mono; [by apply (applyVolumesFrom_spec range_volumes range_binds)|].
    intros w1 [[]|e] (h & V & RW & -> & Hf & Hr); [|done]. apply ensures_bind. eapply ensures_container; [apply store_self|].
    apply ensures_bind, ensures_lift. change (getBindMap (with_volumes c (Some V) (Some RW))) with (getBindMap c). cbn [with_volumes Config_Volumes].
    destruct (getBindMap c) as [m|e]; [|done]. eapply ensures_mono; [by apply (initialize_all range_volumes range_binds daemon_Get)|].
    intros w3 r (h' & V' & RW' & -> & _ & H2) Hok. exists h', V', RW', m. auto.
  - rewrite Hp in E. injection E as <- <-. destruct (HQ eq_refl) as (h & V & RW & m & -> & Hm & Hall).
    rewrite store_self in Hc'. injection Hc' as <-. unfold no_volumes in Hn'. cbn in Hn'.
    unfold prepareVolumesForContainer, container, mbind, ST_bind. rewrite store_self. cbn -[createVolumes].
    rewrite bool_decide_eq_false_2 by done. cbn -[createVolumes]. unfold createVolumes, container, mbind, ST_bind. rewrite store_self. cbn -[for_each getBindMap].
    change (getBindMap (with_volumes c (Some V) (Some RW))) with (getBindMap c). rewrite Hm. cbn -[for_each getBindMap].
    eapply initialize_again; [apply store_self|done|exact Hall].
Qed.

End Theorems.

(** ** Examples *)

(** A host on which every path is a directory; the state counts volumes. *)
#[export] Instance plain_host : VolumeHost Z := {
  os_Stat _ _ := Found true; os_Lstat _ _ := NotLink; EvalSymlinks _ p := Ok p; os_MkdirAll h _ := (h, Ok ()); os_Create h _ := (h, Ok ());
  ReadDir _ _ := Ok []; CopyWithTar h _ _ := (h, Ok ()); owner_mode _ _ := Ok (0, 0, 493); os_Chown h _ _ _ := (h, Ok ()); os_Chmod h _ _ := (h, Ok ());
  volumes_Create h := (h + 1, Ok (itoa h)); driver_Get h vid := (h, Ok ("/volumes/" +:+ vid)); driver_name _ := "vfs";
  Mount_container h _ := (h, Ok ()); Unmount_container h _ := (h, Ok ()) }.

Definition example (V : option (gmap string string)) (RW : option (gmap string bool)) (binds from config : list string) : Container :=
  {| basefs := "/c"; Volumes := V; VolumesRW := RW; Binds := binds; VolumesFrom := from; Config_Volumes := config;
     ResolvConfPath := "/r"; HostnamePath := ""; HostsPath := ""; Mounts := [] |}.

Definition example_world (c : Container) : @World Z :=
  {| host := 7; store := {["c1" := c; "c2" := example (Some {["/shared" := "/x"]}) (Some {["/shared" := true]}) [] [] []]} |}.

Definition by_map (m : gmap string string) : list (string * string) := map_to_list m.
Definition by_path (m : gmap string Volume) : list Volume := (map_to_list m).*2.
Definition both (name : string) : option string := if decide (name ∈ ["c1"; "c2"]) then Some name else None.

Definition prepared (c : Container) : option (@World Z) :=
  match prepareVolumesForContainer by_map by_path both (Ok "/") "c1" (example_world c) with Return (w, Ok ()) => Some w | _ => None end.

Lemma prepared_run c w : prepared c = Some w -> prepareVolumesForContainer by_map by_path both (Ok "/") "c1" (example_world c) = Return (w, Ok ()).
Proof. unfold prepared. destruct (prepareVolumesForContainer _ _ _ _ _ _) as [[w2 [[]|]]| |]; try done. by intros [= ->]. Qed.

Definition first_start : Container := example None None ["/old:/data"; "/host:/data/:ro"] ["c2:ro"] ["/logs"; "/data"; "/shared"].

Lemma both_known c name cid : both name = Some cid -> is_Some (store (example_world c) !! cid).
Proof.
  unfold both. case_decide as Hin; [|done]. intros [= <-]. apply elem_of_cons in Hin as [->|Hin]; [by eexists|].
  apply list_elem_of_singleton in Hin as ->. by eexists.
Qed.

Lemma prepareVolumes_spec_witness :
  exists w' V RW, prepared first_start = Some w' /\ store w' !! "c1" = Some (with_volumes first_start (Some V) (Some RW)) /\
    V !! "/shared" = Some "/x" /\ RW !! "/shared" = Some false /\ V !! "/data" = Some "/host" /\ RW !! "/data" = Some false /\
    is_Some (V !! "/logs") /\ V !! "/tmp" = None.
Proof.
  destruct (prepareVolumes_spec by_map by_path both (Ok "/") (example_world first_start) "c1" first_start) as (w' & r & E & _ & V & RW & Hs & Hf & Hd);
    [done|done|apply both_known|done|done|by repeat constructor|].
  assert (r = Ok ()) as ->.
  { assert (match prepareVolumesForContainer by_map by_path both (Ok "/") "c1" (example_world first_start) with Return (_, Ok _) => True | _ => False end) as Ht
      by (vm_compute; done). rewrite E in Ht. clear E. destruct r as [[]|]; [reflexivity|destruct Ht]. }
  exists w', V, RW. split; [unfold prepared; rewrite E; reflexivity|]. clear E. split; [exact Hs|]. specialize (Hd eq_refl).
  assert (forall p, is_Some (V !! p) -> exists x, V !! p = Some x /\ comes_from both (store (example_world first_start)) "c1" first_start p x (RW !! p)) as Hx.
  { intros p [x Ep]. exists x. split; [done|]. exact (Hf p x Ep). }
  destruct (Hx "/shared") as (x1 & E1 & H1); [apply Hd; left; by eexists|]. destruct H1 as [-> H1].
  destruct (Hx "/data") as (x2 & E2 & H2); [apply Hd; right; by eexists|]. destruct H2 as (v & Hv & Hp & Hr).
  assert (v = {| HostPath := "/host"; VolPath := "/data/"; Mode := "ro"; isBindMount := true |}) as -> by (vm_compute in Hv; by injection Hv as <-).
  destruct Hp as (h & x & Ee & ->). cbn in Ee. injection Ee as <-.
  repeat split; try done.
  - apply Hd. right. by eexists.
  - destruct (V !! "/tmp") eqn:Et; [|done]. assert (is_Some (V !! "/tmp")) as Ht by by rewrite Et. apply Hd in Ht as [[? Ht]|[? Ht]]; by vm_compute in Ht.
Defined.

Lemma has_volume (w : @World Z) : is_Some (c ← store w !! "c1"; volume_at c "/data") -> exists c, store w !! "c1" = Some c /\ ~ no_volumes c.
Proof.
  destruct (store w !! "c1") as [c|]; cbn; [|intros [? E]; discriminate E]. intros [x E]. exists c. split; [done|].
  unfold no_volumes, volume_at in *. destruct (Volumes c) as [V|]; [|discriminate E]. cbn in *. by intros ->.
Qed.

Lemma prepareVolumes_again_witness :
  exists w', prepared first_start = Some w' /\ prepareVolumesForContainer by_map by_path both (Ok "/") "c1" w' = Return (w', Ok ()).
Proof.
  assert (match prepared first_start with Some w' => bool_decide (is_Some (c ← store w' !! "c1"; volume_at c "/data")) = true | None => False end) as Ht by (vm_compute; done).
  apply some_such in Ht as (w' & E & Ht). exists w'. split; [exact E|].
  apply bool_decide_eq_true in Ht. apply has_volume in Ht as (c' & Hc' & Hn).
  exact (prepareVolumes_again by_map by_path both (Ok "/") (example_world first_start) w' "c1" first_start c'
    (fun _ => reflexivity _) (fun _ => reflexivity _) (both_known _) eq_refl eq_refl (prepared_run _ _ E) Hc' Hn).
Defined.

(** The test for illegal destinations comes before the path is cleaned. *)
Lemma bind_over_root : getBindMap (example None None ["/tmp:/./"] [] []) =
  Ok {["/" := {| HostPath := "/tmp"; VolPath := "/./"; Mode := "rw"; isBindMount := true |}]} /\
  getBindMap (example None None ["/tmp:/"] [] []) = Err "Illegal bind destination: /".
Proof. vm_compute. split; reflexivity. Qed.

(** A bind and a volume of the image at the same place, written differently:
    the order in which the map is visited decides. *)
Lemma unclean_volume_races :
  let c := example None None ["/host:/data"] [] ["/data/"] in
  let place range := match prepareVolumesForContainer by_map range both (Ok "/") "c1" (example_world c) with
    | Return (w, Ok ()) => c ← store w !! "c1"; volume_at c "/data" | _ => None end in
  let one (m : gmap string Volume) := (map_to_list m).*2 in let two (m : gmap string Volume) := rev (map_to_list m).*2 in
  (place one, place two) = (Some "/host", Some "/volumes/7") \/ (place one, place two) = (Some "/volumes/7", Some "/host").
Proof. vm_compute. (left; reflexivity) || (right; reflexivity). Qed.
