(* ===== verification/JSONText.v ===== *)
(** * Go's encoding/json: strings as Marshal writes them, streams of values

    [marshal_string] is encodeState.string: the text is taken rune by rune,
    the characters of HTML, control characters and the two line separators
    are escaped, and a byte that is no UTF-8 is written as U+FFFD.
    [unquote_marshal] says what a decoder makes of it: the text, with U+FFFD
    for each such byte ([sanitize]).  [decode_stream] is a json.Decoder over a
    text. *)

From stdpp Require Import base list strings.
From Stdlib Require Import ZArith Lia Ascii.
From S2P Require Import Prelude GoStrings Utf8 GoJSON JSONValues.

Local Open Scope Z_scope.

(** ** Runes *)

(** The text with U+FFFD for what is no UTF-8. *)
Definition sanitize (s : string) : string := String.concat "" (rune_text <$> runes s).

(** ** Marshal *)

Definition marshal_ascii (c : ascii) : string :=
  if Ascii.eqb c "034" || Ascii.eqb c "\" then String "\" (String c "")
  else if Ascii.eqb c "010" then "\n"
  else if Ascii.eqb c "013" then "\r"
  else if (code c <? 32) || Ascii.eqb c "<" || Ascii.eqb c ">" || Ascii.eqb c "&"
  then "\u00" +:+ String (hex_char (code c / 16)) (String (hex_char (code c mod 16)) "")
  else String c "".

Definition line_separator : string := String "226" (String "128" (String "168" "")).
Definition paragraph_separator : string := String "226" (String "128" (String "169" "")).

Definition marshal_rune (r : rune) : string :=
  match r with
  | Rune (String c "") => marshal_ascii c
  | Rune b => if String.eqb b line_separator then "\u2028" else if String.eqb b paragraph_separator then "\u2029" else b
  | BadByte _ => "\ufffd"
  end.

Definition marshal_string (s : string) : string := String "034" (String.concat "" (marshal_rune <$> runes s) +:+ String "034" "").

Example marshal_string_test :
  let q s := String "034" (s +:+ String "034" "") in
  marshal_string ("a<" +:+ String "010" (String "255" (line_separator +:+ "\"))) = q "a\u003c\n\ufffd\u2028\\" /\
  sanitize (String "195" (String "169" (String "195" "x"))) = String "195" (String "169" (rune_error +:+ "x")).
Proof. vm_compute. split; reflexivity. Qed.

(** ** What a decoder makes of it *)

Lemma unquote_ascii c s a rest : code c < 128 -> unquote s = Some (a, rest) -> unquote (marshal_ascii c +:+ s) = Some (String c a, rest).
Proof.
  intros Hc Hs. destruct c as [b0 b1 b2 b3 b4 b5 b6 b7]. destruct b7; [exfalso; revert Hc; by destruct b0, b1, b2, b3, b4, b5, b6|]. clear Hc.
  destruct b0, b1, b2, b3, b4, b5, b6; simpl; change ("" +:+ s) with s; rewrite Hs; reflexivity.
Qed.

(** The branch of a byte that is not ASCII. *)
Lemma unquote_high c1 r1 : 128 <= code c1 ->
  unquote (String c1 r1) =
    (let put (p : string) (r : option (string * string)) := '(a, rest) ← r; Some (p +:+ a, rest) in
     match r1 with
     | String c2 r2 =>
         if between 194 223 c1 && is_cont c2 then put (String c1 (String c2 "")) (unquote r2)
         else
           match r2 with
           | String c3 r3 =>
               if between 224 239 c1 && second_ok c1 c2 && is_cont c3 then put (String c1 (String c2 (String c3 ""))) (unquote r3)
               else
                 match r3 with
                 | String c4 r4 =>
                     if between 240 244 c1 && second_ok c1 c2 && is_cont c3 && is_cont c4
                     then put (String c1 (String c2 (String c3 (String c4 "")))) (unquote r4)
                     else put rune_error (unquote r1)
                 | _ => put rune_error (unquote r1)
                 end
           | _ => put rune_error (unquote r1)
           end
     | _ => put rune_error (unquote r1)
     end).
Proof.
  intros Hc. assert ((code c1 <? 32) = false /\ (code c1 <? 128) = false) as [H1 H2] by (split; apply Z.ltb_ge; lia).
  destruct c1 as [b0 b1 b2 b3 b4 b5 b6 b7]. destruct b7; [|exfalso; revert Hc; by destruct b0, b1, b2, b3, b4, b5, b6].
  clear Hc. revert H1 H2. destruct b0, b1, b2, b3, b4, b5, b6; intros H1 H2; reflexivity.
Qed.

Lemma unquote_rune r s a rest : rune_ok r -> unquote s = Some (a, rest) -> unquote (marshal_rune r +:+ s) = Some (rune_text r +:+ a, rest).
Proof.
  intros Hr Hs. destruct r as [b|]; [|simpl; change ("" +:+ s) with s; rewrite Hs; reflexivity].
  destruct b as [|c1 [|c2 [|c3 [|c4 [|c5 b]]]]]; try done; cbn [rune_text marshal_rune].
  - by apply unquote_ascii.
  - assert (String.eqb (String c1 (String c2 "")) line_separator = false) as ->. { apply String.eqb_neq. intros E. discriminate E. }
    assert (String.eqb (String c1 (String c2 "")) paragraph_separator = false) as ->. { apply String.eqb_neq. intros E. discriminate E. }
    cbn in Hr. pose proof Hr as [H1%between_code _]%andb_true_iff. change (String c1 (String c2 "") +:+ s) with (String c1 (String c2 s)).
    rewrite unquote_high by lia. cbv zeta iota beta. by rewrite Hr, Hs.
  - cbn in Hr. destruct (String.eqb_spec (String c1 (String c2 (String c3 ""))) line_separator) as [E|_].
    { injection E as -> -> ->. simpl. change ("" +:+ s) with s. rewrite Hs. reflexivity. }
    destruct (String.eqb_spec (String c1 (String c2 (String c3 ""))) paragraph_separator) as [E|_].
    { injection E as -> -> ->. simpl. change ("" +:+ s) with s. rewrite Hs. reflexivity. }
    pose proof Hr as [[H1%between_code _]%andb_true_iff _]%andb_true_iff. change (String c1 (String c2 (String c3 "")) +:+ s) with (String c1 (String c2 (String c3 s))).
    rewrite unquote_high by lia. cbv zeta iota beta. rewrite (between_not 194 223 c1) by lia. cbn [andb]. by rewrite Hr, Hs.
  - assert (String.eqb (String c1 (String c2 (String c3 (String c4 "")))) line_separator = false) as ->. { apply String.eqb_neq. intros E. discriminate E. }
    assert (String.eqb (String c1 (String c2 (String c3 (String c4 "")))) paragraph_separator = false) as ->. { apply String.eqb_neq. intros E. discriminate E. }
    cbn in Hr. pose proof Hr as [[[H1%between_code _]%andb_true_iff _]%andb_true_iff _]%andb_true_iff.
    change (String c1 (String c2 (String c3 (String c4 ""))) +:+ s) with (String c1 (String c2 (String c3 (String c4 s)))).
    rewrite unquote_high by lia. cbv zeta iota beta. rewrite (between_not 194 223 c1), (between_not 224 239 c1) by lia. cbn [andb]. by rewrite Hr, Hs.
Qed.

Lemma unquote_runes l rest : Forall rune_ok l ->
  unquote (String.concat "" (marshal_rune <$> l) +:+ String "034" rest) = Some (String.concat "" (rune_text <$> l), rest).
Proof.
  induction 1 as [|r l Hr _ IH]; [done|]. rewrite !fmap_cons, !concat_cons, string_app_assoc. by apply unquote_rune.
Qed.

(** A string that is marshalled is read as its text, sanitized. *)
Lemma unquote_marshal s rest : exists t, marshal_string s +:+ rest = String "034" t /\ unquote t = Some (sanitize s, rest).
Proof.
  eexists. split; [unfold marshal_string; rewrite string_app_cons; reflexivity|]. rewrite string_app_assoc. apply unquote_runes. by apply (runes_ok (String.length s)).
Qed.

Lemma sanitize_ascii s : is_ascii s = true -> sanitize s = s.
Proof.
  unfold sanitize. induction s as [|c s IH]; [done|]. intros H. cbn in H. apply andb_true_iff in H as [Hc Hs]. cbn [runes].
  rewrite Hc, fmap_cons, concat_cons, IH by done. done.
Qed.

(** What is written holds no end of line. *)
Lemma marshal_ascii_line c : contains_char "010" (marshal_ascii c) = false.
Proof. destruct c as [[] [] [] [] [] [] [] []]; reflexivity. Qed.

Lemma high_no_line c : 128 <= code c -> Ascii.eqb c "010" = false.
Proof. intros H. destruct (Ascii.eqb_spec c "010") as [->|]; [|done]. vm_compute in H. done. Qed.

Lemma marshal_rune_line r : rune_ok r -> contains_char "010" (marshal_rune r) = false.
Proof.
  intros Hr. destruct r as [b|]; [|done]. destruct b as [|c1 [|c2 [|c3 [|c4 [|c5 b]]]]]; try done; cbn [marshal_rune]; [apply marshal_ascii_line|..];
    (destruct (String.eqb _ line_separator); [done|]); (destruct (String.eqb _ paragraph_separator); [done|]); cbn [rune_ok] in Hr; cbn [contains_char];
    repeat match goal with H : andb _ _ = true |- _ => apply andb_true_iff in H as [? ?] end;
    repeat match goal with H : between _ _ _ = true |- _ => apply between_code in H | H : is_cont _ = true |- _ => apply cont_high in H | H : second_ok _ _ = true |- _ => apply second_high in H end;
    rewrite ?high_no_line by lia; done.
Qed.

Lemma marshal_string_line s : contains_char "010" (marshal_string s) = false.
Proof.
  unfold marshal_string. pose proof (runes_ok _ s (le_n _)) as H. cbn [contains_char]. assert (Ascii.eqb "034" "010" = false) as -> by done. cbn [orb].
  rewrite contains_char_app. apply orb_false_iff. split; [|done]. induction H as [|r l Hr _ IH]; [done|].
  rewrite fmap_cons, concat_cons, contains_char_app, marshal_rune_line by done. exact IH.
Qed.

(** ** Objects of strings *)

Definition marshal_member '((k, v) : string * string) : string := marshal_string k +:+ ":" +:+ marshal_string v.
Definition marshal_object (l : list (string * string)) : string := "{" +:+ join "," (marshal_member <$> l) +:+ "}".

Definition read_member '((k, v) : string * string) : string * json := (sanitize k, JString (sanitize v)).

Lemma skip_quote t : skip_space (String "034" t) = String "034" t.
Proof. done. Qed.

Lemma value_marshal fuel v rest : value (S fuel) (marshal_string v +:+ rest) = Some (JString (sanitize v), rest).
Proof. destruct (unquote_marshal v rest) as (t & -> & E). cbn [value]. rewrite skip_quote. cbv iota beta. by rewrite E. Qed.

Lemma members_marshal fuel rest l : forall m n, (length l < n)%nat ->
  members (value (S fuel)) n (join "," (marshal_member <$> m :: l) +:+ String "}" rest) = Some (read_member <$> m :: l, rest).
Proof.
  induction l as [|x l IH]; intros [k v] n Hn; (destruct n as [|n]; [simpl in Hn; lia|]).
  - cbn [fmap list_fmap join]. unfold marshal_member. cbn [members]. rewrite !string_app_assoc.
    destruct (unquote_marshal k (":" +:+ marshal_string v +:+ String "}" rest)) as (t & -> & E). rewrite skip_quote. cbv iota beta. rewrite E. cbn [mbind option_bind].
    change (skip_space (":" +:+ ?x)) with (String ":" x). cbv iota beta. by rewrite value_marshal.
  - rewrite fmap_cons. change (join "," (marshal_member (k, v) :: (marshal_member <$> x :: l))) with (marshal_member (k, v) +:+ "," +:+ join "," (marshal_member <$> x :: l)).
    unfold marshal_member at 1. cbn [members]. rewrite !string_app_assoc.
    destruct (unquote_marshal k (":" +:+ marshal_string v +:+ "," +:+ join "," (marshal_member <$> x :: l) +:+ String "}" rest)) as (t & -> & E).
    rewrite skip_quote. cbv iota beta. rewrite E. cbn [mbind option_bind].
    change (skip_space (":" +:+ ?y)) with (String ":" y). cbv iota beta. rewrite value_marshal. cbn [mbind option_bind].
    change (skip_space ("," +:+ ?y)) with (String "," y). cbv iota beta. rewrite IH by (simpl in Hn; lia). done.
Qed.

Lemma marshal_member_length m : (2 <= String.length (marshal_member m))%nat.
Proof. destruct m as [k v]. unfold marshal_member, marshal_string. rewrite string_app_cons. cbn [String.length]. rewrite !string_length_app. simpl. lia. Qed.

Lemma marshal_members_length l : (length l <= String.length (join "," (marshal_member <$> l)))%nat.
Proof.
  induction l as [|m l IH]; [simpl; lia|]. rewrite fmap_cons. pose proof (marshal_member_length m). destruct l as [|x l]; [simpl in *; lia|].
  rewrite fmap_cons in *. rewrite join_cons by done. rewrite !string_length_app. simpl in *. lia.
Qed.

Lemma value_marshal_object l rest fuel : l <> [] -> (S (length l) < fuel)%nat ->
  value fuel (marshal_object l +:+ rest) = Some (JObject (read_member <$> l), rest).
Proof.
  intros Hl Hf. destruct l as [|m l]; [done|]. destruct fuel as [|[|fuel]]; [simpl in Hf; lia..|]. unfold marshal_object.
  rewrite !string_app_assoc. change ("{" +:+ ?x) with (String "{" x). rewrite value_object.
  change ("}" +:+ rest) with (String "}" rest).
  assert (exists t, join "," (marshal_member <$> m :: l) +:+ String "}" rest = String "034" t) as [t E].
  { rewrite fmap_cons. destruct (marshal_member <$> l) eqn:Em; [|rewrite join_cons by done]; destruct m as [k v]; unfold marshal_member, marshal_string; by eexists. }
  pose proof (members_marshal fuel rest l m (S fuel)) as H. rewrite E in H |- *. rewrite skip_quote. cbv iota beta. rewrite H; [done|simpl in Hf; lia].
Qed.

(** No object holds an end of line. *)
Lemma marshal_object_line l : contains_char "010" (marshal_object l) = false.
Proof.
  unfold marshal_object. rewrite !contains_char_app. cbn [contains_char]. rewrite orb_false_r.
  assert (contains_char "010" (join "," (marshal_member <$> l)) = false) as H; [|by rewrite H].
  induction l as [|[k v] l IH]; [done|]. rewrite fmap_cons.
  assert (contains_char "010" (marshal_member (k, v)) = false) as Hm by (unfold marshal_member; by rewrite !contains_char_app, !marshal_string_line).
  destruct l as [|x l]; [exact Hm|]. rewrite fmap_cons, join_cons by done. rewrite !contains_char_app, Hm. cbn [contains_char orb]. rewrite <- fmap_cons. exact IH.
Qed.

(** ** Decoder *)

(** The values of a text, one after the other, and whether its end was
    reached without an error. *)
Fixpoint decode_stream (fuel : nat) (s : string) : outcome (list json * bool) :=
  match fuel with
  | O => OutOfFuel
  | S fuel =>
      if String.eqb (skip_space s) "" then Return ([], true)
      else match value (S (String.length s)) s with
           | None => Return ([], false)
           | Some (v, rest) => '(l, good) ← decode_stream fuel rest; Return (v :: l, good)
           end
  end.

(** Every value takes a character. *)
Definition decode_all (s : string) : outcome (list json * bool) := decode_stream (S (String.length s)) s.

Example decode_all_test :
  decode_all ("{} [1]true" +:+ String "010" " 2") = Return ([JObject []; JArray [JNumber "1"]; JBool true; JNumber "2"], true) /\
  decode_all "{}}" = Return ([JObject []], false) /\ decode_all "  " = Return ([], true).
Proof. vm_compute. repeat split. Qed.

Lemma skip_newline s : skip_space (String "010" s) = skip_space s.
Proof. done. Qed.

(** Objects with an end of line after each. *)
Definition lines_of_objects (ls : list (list (string * string))) : string := String.concat "" ((fun l => marshal_object l +:+ String "010" "") <$> ls).

Lemma object_front l rest : exists t, marshal_object l +:+ rest = String "{" t.
Proof. unfold marshal_object. rewrite !string_app_assoc. by eexists. Qed.

Lemma value_newline fuel s : value (S fuel) (String "010" s) = value (S fuel) s.
Proof. cbn [value]. by rewrite skip_newline. Qed.

Lemma decode_objects ls : Forall (fun l => l <> []) ls -> forall fuel s, (length ls < fuel)%nat -> s = lines_of_objects ls \/ s = String "010" (lines_of_objects ls) ->
  decode_stream fuel s = Return ((fun l => JObject (read_member <$> l)) <$> ls, true).
Proof.
  induction 1 as [|l ls Hl _ IH]; intros fuel s Hf Hs; (destruct fuel as [|fuel]; [simpl in Hf; lia|]); cbn [decode_stream].
  - by destruct Hs as [-> | ->].
  - unfold lines_of_objects in Hs. rewrite fmap_cons, concat_cons, string_app_assoc in Hs. change (String "010" "" +:+ ?x) with (String "010" x) in Hs.
    fold (lines_of_objects ls) in Hs. destruct (object_front l (String "010" (lines_of_objects ls))) as [t Ht].
    assert (String.eqb (skip_space s) "" = false) as -> by (destruct Hs as [-> | ->]; rewrite ?skip_newline, Ht; done).
    assert (value (S (String.length s)) s = Some (JObject (read_member <$> l), String "010" (lines_of_objects ls))) as ->.
    { assert (S (length l) < S (String.length s))%nat as Hlen.
      { pose proof (marshal_members_length l). destruct Hs as [-> | ->]; cbn [String.length]; unfold marshal_object; rewrite !string_length_app; simpl; lia. }
      destruct Hs as [-> | ->]; rewrite ?value_newline; by apply value_marshal_object. }
    rewrite IH by (simpl in Hf; lia || by right). done.
Qed.
