(* ===== verification/Broadcast.v ===== *)
(** * What a container writes, to everyone who listens

    pkg/broadcastwriter/broadcastwriter.go and the entries of
    pkg/jsonlog/jsonlog.go: every write goes to the writers without a stream
    as it is, and every line, once it is complete, to the writers of a stream
    as an entry.  A writer that fails is dropped.

    Writers are an interface ([Sinks]); the text of a time is [GoTime]. *)

From stdpp Require Import base gmap list strings.
From Stdlib Require Import ZArith Lia Ascii.
From S2P Require Import Prelude GoStrings Utf8 GoJSON JSONValues JSONText.

Local Open Scope Z_scope.

(** io.WriteCloser: the bytes written and whether there was an error. *)
Class Sinks (W : Type) := {
  sink_write : W -> nat -> string -> W * Z * bool;
  sink_close : W -> nat -> W;
}.

(** time.Time: [MarshalJSON] without its quotes, [UnmarshalJSON], [Format],
    the zero time and [time.RFC3339Nano]. *)
Class GoTime (Time : Type) := {
  time_json : Time -> option string;
  parse_time : string -> option Time;
  time_Format : Time -> string -> string;
  zero_time : Time;
  RFC3339Nano : string;
}.

Section Broadcast.
Context {Time : Type} `{HT : GoTime Time}.

Record JSONLog := { Log : string; Stream : string; Created : Time }.

(** The members that are not empty; the time always is there. *)
Definition log_members (l : JSONLog) (created : string) : list (string * string) :=
  (if String.eqb (Log l) "" then [] else [("log", Log l)]) ++ (if String.eqb (Stream l) "" then [] else [("stream", Stream l)]) ++ [("time", created)].

Definition Marshal_log (l : JSONLog) : option string := created ← time_json (Created l); Some (marshal_object (log_members l created)).

(** ** The writer *)

Record BroadcastWriter := { buf : string; streams : gmap string (gset nat) }.

Definition New : BroadcastWriter := {| buf := ""; streams := ∅ |}.

Definition with_streams (b : BroadcastWriter) (m : gmap string (gset nat)) : BroadcastWriter := {| buf := buf b; streams := m |}.

Definition AddWriter (b : BroadcastWriter) (writer : nat) (stream : string) : BroadcastWriter :=
  with_streams b (<[stream := default ∅ (streams b !! stream) ∪ {[writer]}]> (streams b)).

(** The complete lines of a text, and what follows them. *)
Fixpoint complete_lines (s : string) : list string * string :=
  match s with
  | "" => ([], "")
  | String c r =>
      let '(ls, rest) := complete_lines r in
      if Ascii.eqb c "010" then (String c "" :: ls, rest)
      else match ls with
           | [] => ([], String c rest)
           | l :: ls => (String c l :: ls, rest)
           end
  end.

Section Operations.
Context {W : Type} `{HS : Sinks W}.
(** The orders in which the maps are visited. *)
Context (range_streams : gmap string (gset nat) -> list string) (range_writers : gset nat -> list nat).

Definition write_raw (p : string) '((w, writers) : W * gset nat) (sw : nat) : W * gset nat :=
  let '(w, n, failed) := sink_write w sw p in (w, if failed || negb (n =? Z.of_nat (String.length p)) then writers ∖ {[sw]} else writers).

Definition write_entry (b : string) '((w, writers) : W * gset nat) (sw : nat) : W * gset nat :=
  let '(w, _, failed) := sink_write w sw b in (w, if failed : bool then writers ∖ {[sw]} else writers).

(** A line for the writers of one stream. *)
Definition write_stream (created : Time) (line : string) '((w, m) : W * gmap string (gset nat)) (stream : string) : W * gmap string (gset nat) :=
  if String.eqb stream "" then (w, m)
  else match Marshal_log {| Log := line; Stream := stream; Created := created |} with
       | None => (w, m)
       | Some b =>
           let writers := default ∅ (m !! stream) in
           let '(w, writers) := foldl (write_entry (b +:+ String "010" "")) (w, writers) (range_writers writers) in
           (w, <[stream := writers]> m)
       end.

Definition write_line (created : Time) '((w, m) : W * gmap string (gset nat)) (line : string) : W * gmap string (gset nat) :=
  foldl (write_stream created line) (w, m) (range_streams m).

Definition Write (created : Time) (p : string) '((w, b) : W * BroadcastWriter) : W * BroadcastWriter :=
  let '(w, m) := match streams b !! "" with
                 | Some writers => let '(w, writers) := foldl (write_raw p) (w, writers) (range_writers writers) in (w, <["" := writers]> (streams b))
                 | None => (w, streams b)
                 end in
  let '(lines, rest) := complete_lines (buf b +:+ p) in
  let '(w, m) := foldl (write_line created) (w, m) lines in
  (w, {| buf := rest; streams := m |}).

Definition Clean '((w, b) : W * BroadcastWriter) : W * BroadcastWriter :=
  (foldl (fun w stream => foldl sink_close w (range_writers (default ∅ (streams b !! stream)))) w (range_streams (streams b)), with_streams b ∅).

End Operations.

(** ** Lines *)

Lemma complete_lines_app s t : complete_lines (s +:+ t) =
  let '(ls, rest) := complete_lines s in let '(ls', rest') := complete_lines (rest +:+ t) in (ls ++ ls', rest').
Proof.
  induction s as [|c s IH]; [cbn; change ("" +:+ t) with t; by destruct (complete_lines t)|]. rewrite string_app_cons. cbn [complete_lines]. rewrite IH.
  destruct (complete_lines s) as [ls rest]. destruct (Ascii.eqb c "010") eqn:Ec.
  - by destruct (complete_lines (rest +:+ t)).
  - destruct ls as [|l ls]; [|by destruct (complete_lines (rest +:+ t))]. rewrite string_app_cons. cbn [complete_lines]. rewrite Ec.
    by destruct (complete_lines (rest +:+ t)) as [[|l' ls'] rest'].
Qed.

Lemma complete_lines_rest s : complete_lines (snd (complete_lines s)) = ([], snd (complete_lines s)).
Proof.
  induction s as [|c s IH]; [done|]. cbn [complete_lines]. destruct (complete_lines s) as [ls rest] eqn:E. cbn [snd] in IH.
  destruct (Ascii.eqb c "010") eqn:Ec; [exact IH|]. destruct ls; [|exact IH]. cbn [snd complete_lines]. by rewrite IH, Ec.
Qed.

Lemma complete_lines_join s : String.concat "" (fst (complete_lines s)) +:+ snd (complete_lines s) = s.
Proof.
  induction s as [|c s IH]; [done|]. cbn [complete_lines]. destruct (complete_lines s) as [ls rest]. cbn [fst snd] in IH.
  destruct (Ascii.eqb c "010"); [cbn [fst snd]; by rewrite concat_cons, string_app_assoc, IH|].
  destruct ls as [|l ls]; cbn [fst snd] in *; [by rewrite <- IH|]. rewrite concat_cons in *. rewrite <- IH. by rewrite !string_app_cons.
Qed.

(** Lines end with their end of line and hold no other. *)
Lemma complete_lines_shape s : Forall (fun l => exists t, l = t +:+ String "010" "" /\ contains_char "010" t = false) (fst (complete_lines s)).
Proof.
  induction s as [|c s IH]; [constructor|]. cbn [complete_lines]. destruct (complete_lines s) as [ls rest]. cbn [fst] in IH.
  destruct (Ascii.eqb c "010") eqn:Ec; [apply Ascii.eqb_eq in Ec as ->; cbn [fst]; constructor; [by exists ""|done]|].
  destruct ls as [|l ls]; [constructor|]. inversion IH as [|? ? (t & -> & Ht) Hls]; subst. cbn [fst]. constructor; [|done].
  exists (String c t). split; [done|]. cbn [contains_char]. by rewrite Ec, Ht.
Qed.

(** The lines of several writes, each with the time of the write that
    completed it. *)
Fixpoint timed_lines (rest : string) (ps : list (Time * string)) : list (Time * string) * string :=
  match ps with
  | [] => ([], rest)
  | (t, p) :: ps =>
      let '(ls, rest) := complete_lines (rest +:+ p) in
      let '(tls, rest) := timed_lines rest ps in
      (((fun l => (t, l)) <$> ls) ++ tls, rest)
  end.

(** However the text is cut into writes, its lines are the same. *)
Lemma timed_lines_text ps : forall rest, complete_lines rest = ([], rest) ->
  (fst (timed_lines rest ps)).*2 = fst (complete_lines (rest +:+ String.concat "" ps.*2)) /\
  snd (timed_lines rest ps) = snd (complete_lines (rest +:+ String.concat "" ps.*2)).
Proof.
  induction ps as [|[t p] ps IH]; intros rest Hr; cbn [timed_lines].
  - cbn. by rewrite string_app_nil_r, Hr.
  - rewrite fmap_cons. cbn [snd]. rewrite concat_cons, <- string_app_assoc, (complete_lines_app (rest +:+ p)).
    pose proof (complete_lines_rest (rest +:+ p)) as Hr'. destruct (complete_lines (rest +:+ p)) as [ls rest']. cbn [snd] in Hr'.
    destruct (IH rest' Hr') as [H1 H2]. revert H1 H2. destruct (timed_lines rest' ps) as [tls r].
    destruct (complete_lines (rest' +:+ String.concat "" ps.*2)) as [ls' r']. intros H1 H2. cbn [fst snd] in *. split; [|exact H2].
    rewrite fmap_app, H1. f_equal. rewrite <- list_fmap_compose. by apply list_fmap_id.
Qed.

Lemma timed_lines_times ps : forall rest, Forall (fun x => x.1 ∈ ps.*1) (fst (timed_lines rest ps)).
Proof.
  induction ps as [|[t p] ps IH]; intros rest; cbn [timed_lines]; [constructor|]. destruct (complete_lines (rest +:+ p)) as [ls rest'].
  specialize (IH rest'). destruct (timed_lines rest' ps) as [tls r]. cbn [fst] in *. apply Forall_app. split.
  - apply Forall_fmap, Forall_forall. intros l _. cbn. set_solver.
  - eapply Forall_impl; [exact IH|]. intros x Hx. cbn. set_solver.
Qed.

(** ** Who receives what *)

(** Writers that are independent of one another, some of which always fail. *)
Class SinkLaws (W : Type) `{Sinks W} := {
  received : W -> nat -> string;
  fails : nat -> bool;
  sink_good : forall w i p w' n e, fails i = false -> sink_write w i p = (w', n, e) ->
    n = Z.of_nat (String.length p) /\ e = false /\ received w' i = received w i +:+ p;
  sink_bad : forall w i p w' n e, fails i = true -> sink_write w i p = (w', n, e) -> e = true;
  sink_others : forall w i p w' n e j, j <> i -> sink_write w i p = (w', n, e) -> received w' j = received w j;
}.

(** A line as the writers of a stream get it. *)
Definition entry_text (stream : string) '((created, line) : Time * string) : string :=
  if String.eqb stream "" then ""
  else match Marshal_log {| Log := line; Stream := stream; Created := created |} with Some b => b +:+ String "010" "" | None => "" end.

Definition member (m : gmap string (gset nat)) (i : nat) (s : string) : Prop := exists X, m !! s = Some X /\ i ∈ X.

(** The writer is there for one stream. *)
Definition belongs (m : gmap string (gset nat)) (i : nat) (s : string) : Prop := member m i s /\ forall s', member m i s' -> s' = s.

Section Receive.
Context {W : Type} `{HS : Sinks W, HL : !SinkLaws W} (range_streams : gmap string (gset nat) -> list string) (range_writers : gset nat -> list nat).
Hypothesis range_streams_all : forall m, range_streams m ≡ₚ base.elements (dom m).
Hypothesis range_writers_all : forall X, range_writers X ≡ₚ base.elements X.

(** Only failing writers are dropped. *)
Definition thinner (m m' : gmap string (gset nat)) : Prop :=
  dom m' = dom m /\ (forall i s, member m' i s -> member m i s) /\ forall i s, fails i = false -> member m i s -> member m' i s.

Lemma thinner_refl m : thinner m m.
Proof. by repeat split. Qed.

Lemma thinner_trans m1 m2 m3 : thinner m1 m2 -> thinner m2 m3 -> thinner m1 m3.
Proof. intros (E1 & H1 & G1) (E2 & H2 & G2). split; [congruence|]. split; auto. Qed.

Lemma thinner_belongs m m' i s : thinner m m' -> fails i = false -> belongs m i s -> belongs m' i s.
Proof. intros (_ & Hd & Hk) Hf [Hm Hu]. split; [by apply Hk|]. intros s' Hs'. by apply Hu, Hd. Qed.

Lemma thinner_insert m s X : m !! s = Some X -> forall X', (forall i, i ∈ X' -> i ∈ X) -> (forall i, fails i = false -> i ∈ X -> i ∈ X') -> thinner m (<[s := X']> m).
Proof.
  intros E X' Hd Hk. split; [apply dom_insert_lookup_L; by eexists|]. split; intros i s'.
  - intros (Y & EY & Hi). destruct (decide (s' = s)) as [->|]; [rewrite lookup_insert_eq in EY; injection EY as <-; exists X; auto|].
    rewrite lookup_insert_ne in EY by done. by exists Y.
  - intros Hf (Y & EY & Hi). destruct (decide (s' = s)) as [->|]; [|exists Y; by rewrite lookup_insert_ne].
    exists X'. rewrite lookup_insert_eq. split; [done|]. apply Hk; congruence.
Qed.

Lemma write_raw_step p w X i w' X' : write_raw p (w, X) i = (w', X') ->
  X' = (if fails i then X ∖ {[i]} else X) /\ (fails i = false -> received w' i = received w i +:+ p) /\ forall j, j <> i -> received w' j = received w j.
Proof.
  unfold write_raw. destruct (sink_write w i p) as [[w2 n] e] eqn:E. intros [= <- <-]. destruct (fails i) eqn:Ef.
  - rewrite (sink_bad _ _ _ _ _ _ Ef E). cbn [orb]. repeat split; [done|]. intros j Hj. by apply (sink_others _ _ _ _ _ _ j Hj E).
  - destruct (sink_good _ _ _ _ _ _ Ef E) as (-> & -> & Hr). rewrite Z.eqb_refl. repeat split; [done|]. intros j Hj. by apply (sink_others _ _ _ _ _ _ j Hj E).
Qed.

Lemma write_entry_step p w X i w' X' : write_entry p (w, X) i = (w', X') ->
  X' = (if fails i then X ∖ {[i]} else X) /\ (fails i = false -> received w' i = received w i +:+ p) /\ forall j, j <> i -> received w' j = received w j.
Proof.
  unfold write_entry. destruct (sink_write w i p) as [[w2 n] e] eqn:E. intros [= <- <-]. destruct (fails i) eqn:Ef.
  - rewrite (sink_bad _ _ _ _ _ _ Ef E). repeat split; [done|]. intros j Hj. by apply (sink_others _ _ _ _ _ _ j Hj E).
  - destruct (sink_good _ _ _ _ _ _ Ef E) as (-> & -> & Hr). repeat split; [done|]. intros j Hj. by apply (sink_others _ _ _ _ _ _ j Hj E).
Qed.

(** One text for each writer of a list. *)
Lemma write_each (step : W * gset nat -> nat -> W * gset nat) p l :
  (forall w X i w' X', step (w, X) i = (w', X') ->
    X' = (if fails i then X ∖ {[i]} else X) /\ (fails i = false -> received w' i = received w i +:+ p) /\ forall j, j <> i -> received w' j = received w j) ->
  NoDup l -> forall w X w' X', foldl step (w, X) l = (w', X') ->
  (forall i, i ∈ X' <-> i ∈ X /\ (i ∉ l \/ fails i = false)) /\
  forall i, fails i = false -> received w' i = received w i +:+ (if decide (i ∈ l) then p else "").
Proof.
  intros Hstep. induction 1 as [|x l Hx Hl IH]; intros w X w' X' E.
  - injection E as <- <-. split; [set_solver|]. intros i _. rewrite decide_False by set_solver. by rewrite string_app_nil_r.
  - cbn [foldl] in E. destruct (step (w, X) x) as [w1 X1] eqn:E1. destruct (Hstep _ _ _ _ _ E1) as (HX & Hr & Ho). destruct (IH _ _ _ _ E) as [HX' Hr']. split.
    + intros i. rewrite HX', HX, not_elem_of_cons. destruct (decide (i = x)) as [->|Hne]; destruct (fails x) eqn:Ef; rewrite ?elem_of_difference, ?elem_of_singleton, ?Ef; intuition congruence.
    + intros i Hi. rewrite Hr' by done. destruct (decide (i = x)) as [->|Hne].
      * rewrite Hr by done. rewrite (decide_False (P := x ∈ l)) by done. rewrite decide_True by set_solver. by rewrite string_app_nil_r.
      * rewrite Ho by done. destruct (decide (i ∈ l)); [by rewrite decide_True by set_solver|by rewrite decide_False by set_solver].
Qed.

Lemma range_NoDup X : NoDup (range_writers X).
Proof. rewrite range_writers_all. apply NoDup_elements. Qed.

Lemma writers_elem X i : i ∈ range_writers X <-> i ∈ X.
Proof. rewrite range_writers_all. apply elem_of_elements. Qed.

(** What good writers get, by their stream. *)
Definition delivered (m : gmap string (gset nat)) (w w' : W) (text : string -> string) : Prop :=
  forall i s, fails i = false -> belongs m i s -> received w' i = received w i +:+ text s.

Lemma write_stream_spec t line w m s w' m' : is_Some (m !! s) -> write_stream range_writers t line (w, m) s = (w', m') ->
  thinner m m' /\ delivered m w w' (fun s' => if decide (s' = s) then entry_text s (t, line) else "").
Proof.
  intros [X EX]. unfold write_stream, entry_text.
  assert (thinner m m /\ delivered m w w (fun s' => if decide (s' = s) then "" else "")) as Hsame.
  { split; [apply thinner_refl|]. intros i s' _ _. case_decide; by rewrite string_app_nil_r. }
  destruct (String.eqb s "") eqn:Es; [intros [= <- <-]; exact Hsame|].
  destruct (Marshal_log _) as [b|]; [|intros [= <- <-]; exact Hsame].
  rewrite EX. cbn [default from_option]. unfold id. destruct (foldl _ _ _) as [w1 X1] eqn:E. intros [= <- <-].
  destruct (write_each _ _ _ (write_entry_step _) (range_NoDup X) _ _ _ _ E) as [HX Hr]. split.
  - apply (thinner_insert m s X EX); [intros i; rewrite HX; tauto|]. intros i Hi. rewrite HX. auto.
  - intros i s' Hi [(Y & EY & HiY) Hu]. rewrite Hr by done. f_equal. destruct (decide (s' = s)) as [->|Hne].
    + rewrite decide_True; [done|]. apply writers_elem. congruence.
    + rewrite decide_False; [done|]. intros Hin%writers_elem. apply Hne. symmetry. apply Hu. by exists X.
Qed.

Lemma write_streams_spec t line ss : NoDup ss -> forall w m w' m', Forall (fun s => is_Some (m !! s)) ss ->
  foldl (write_stream range_writers t line) (w, m) ss = (w', m') ->
  thinner m m' /\ delivered m w w' (fun s => if decide (s ∈ ss) then entry_text s (t, line) else "").
Proof.
  induction 1 as [|s ss Hs Hss IH]; intros w m w' m' Hall E.
  - injection E as <- <-. split; [apply thinner_refl|]. intros i s _ _. rewrite decide_False by set_solver. by rewrite string_app_nil_r.
  - cbn [foldl] in E. destruct (write_stream _ _ _ _ s) as [w1 m1] eqn:E1. inversion Hall as [|? ? Hsm Hall']; subst.
    destruct (write_stream_spec _ _ _ _ _ _ _ Hsm E1) as [Ht Hd]. destruct (IH w1 m1 w' m') as [Ht' Hd']; [|done|].
    { eapply Forall_impl; [exact Hall'|]. intros s' Hs'. apply elem_of_dom. destruct Ht as [-> _]. by apply elem_of_dom. }
    split; [by eapply thinner_trans|]. intros i s' Hi Hb. rewrite (Hd' i s' Hi (thinner_belongs _ _ _ _ Ht Hi Hb)), (Hd i s' Hi Hb).
    destruct (decide (s' = s)) as [->|Hne].
    + rewrite (decide_False (P := s ∈ ss)) by done. rewrite decide_True by set_solver. by rewrite string_app_nil_r.
    + rewrite string_app_nil_r. destruct (decide (s' ∈ ss)); [by rewrite decide_True by set_solver|by rewrite decide_False by set_solver].
Qed.

Lemma write_line_spec t line w m w' m' : write_line range_streams range_writers t (w, m) line = (w', m') ->
  thinner m m' /\ delivered m w w' (fun s => entry_text s (t, line)).
Proof.
  unfold write_line. intros E. apply write_streams_spec in E as [Ht Hd].
  - split; [done|]. intros i s Hi Hb. rewrite (Hd i s Hi Hb), decide_True; [done|]. rewrite range_streams_all, elem_of_elements, elem_of_dom.
    destruct Hb as [(X & E & _) _]. by eexists.
  - rewrite range_streams_all. apply NoDup_elements.
  - apply Forall_forall. intros s. rewrite range_streams_all, elem_of_elements. apply elem_of_dom.
Qed.

Lemma delivered_trans m m1 w w1 w2 T1 T2 : thinner m m1 -> delivered m w w1 T1 -> delivered m1 w1 w2 T2 -> delivered m w w2 (fun s => T1 s +:+ T2 s).
Proof.
  intros Ht H1 H2 i s Hi Hb. rewrite (H2 i s Hi (thinner_belongs _ _ _ _ Ht Hi Hb)), (H1 i s Hi Hb). by rewrite string_app_assoc.
Qed.

Lemma write_lines_spec t lines : forall w m w' m', foldl (write_line range_streams range_writers t) (w, m) lines = (w', m') ->
  thinner m m' /\ delivered m w w' (fun s => String.concat "" (entry_text s <$> ((fun l => (t, l)) <$> lines))).
Proof.
  induction lines as [|l lines IH]; intros w m w' m' E.
  - injection E as <- <-. split; [apply thinner_refl|]. intros i s _ _. by rewrite string_app_nil_r.
  - cbn [foldl] in E. destruct (write_line _ _ _ _ l) as [w1 m1] eqn:E1. apply write_line_spec in E1 as [Ht Hd]. destruct (IH _ _ _ _ E) as [Ht' Hd'].
    split; [by eapply thinner_trans|]. intros i s Hi Hb. rewrite (delivered_trans _ _ _ _ _ _ _ Ht Hd Hd' i s Hi Hb). by rewrite !fmap_cons, concat_cons.
Qed.

(** The text a write is for the writers of a stream. *)
Definition raw_text (s p : string) : string := if String.eqb s "" then p else "".

Lemma Write_spec t p w b w' b' : Write range_streams range_writers t p (w, b) = (w', b') ->
  buf b' = snd (complete_lines (buf b +:+ p)) /\ thinner (streams b) (streams b') /\ (forall i, member (streams b') i "" -> fails i = false) /\
  delivered (streams b) w w' (fun s => raw_text s p +:+ String.concat "" (entry_text s <$> ((fun l => (t, l)) <$> fst (complete_lines (buf b +:+ p))))).
Proof.
  unfold Write. set (raw := match streams b !! "" with Some _ => _ | None => _ end). destruct raw as [w1 m1] eqn:E1.
  destruct (complete_lines (buf b +:+ p)) as [lines rest]. destruct (foldl _ _ lines) as [w2 m2] eqn:E2. intros [= <- <-]. cbn [buf streams fst snd].
  assert (thinner (streams b) m1 /\ (forall i, member m1 i "" -> fails i = false) /\ delivered (streams b) w w1 (fun s => raw_text s p)) as (Ht & Hb & Hd).
  { subst raw. destruct (streams b !! "") as [X|] eqn:EX.
    - destruct (foldl _ _ _) as [w3 X3] eqn:E3. injection E1 as <- <-.
      destruct (write_each _ _ _ (write_raw_step _) (range_NoDup X) _ _ _ _ E3) as [HX Hr]. split; [|split].
      + apply (thinner_insert _ _ X EX); [intros i; rewrite HX; tauto|]. intros i Hi. rewrite HX. auto.
      + intros i (Y & EY & Hi). rewrite lookup_insert_eq in EY. injection EY as <-. rewrite HX, writers_elem in Hi. tauto.
      + intros i s Hi [(Y & EY & HiY) Hu]. rewrite Hr by done. f_equal. unfold raw_text. destruct (String.eqb_spec s "") as [->|Hne].
        * rewrite decide_True; [done|]. apply writers_elem. congruence.
        * rewrite decide_False; [done|]. intros Hin%writers_elem. apply Hne. symmetry. apply Hu. by exists X.
    - injection E1 as <- <-. split; [apply thinner_refl|]. split; [intros i (Y & EY & _); congruence|].
      intros i s Hi [(Y & EY & _) _]. unfold raw_text. destruct (String.eqb_spec s "") as [->|]; [congruence|by rewrite string_app_nil_r]. }
  apply write_lines_spec in E2 as [Ht' Hd']. split; [done|]. split; [by eapply thinner_trans|]. split.
  - intros i Hi. apply Hb. by apply Ht'.
  - by eapply delivered_trans.
Qed.

(** Several writes, each with its time. *)
Definition write_all (ps : list (Time * string)) (s : W * BroadcastWriter) : W * BroadcastWriter :=
  foldl (fun s '(t, p) => Write range_streams range_writers t p s) s ps.

Lemma write_all_spec ps : forall w b w' b', write_all ps (w, b) = (w', b') ->
  buf b' = snd (timed_lines (buf b) ps) /\ thinner (streams b) (streams b') /\ (ps <> [] -> forall i, member (streams b') i "" -> fails i = false) /\
  forall i s, fails i = false -> belongs (streams b) i s ->
    received w' i = received w i +:+ (if String.eqb s "" then String.concat "" ps.*2 else String.concat "" (entry_text s <$> fst (timed_lines (buf b) ps))).
Proof.
  induction ps as [|[t p] ps IH]; intros w b w' b' E.
  - injection E as <- <-. split; [done|]. split; [apply thinner_refl|]. split; [done|]. intros i s _ _. cbn. destruct (String.eqb s ""); by rewrite string_app_nil_r.
  - unfold write_all in E. cbn [foldl] in E. destruct (Write _ _ _ _ _) as [w1 b1] eqn:E1. fold (write_all ps (w1, b1)) in E.
    apply Write_spec in E1 as (Hbuf & Ht & Hbad & Hd). destruct (IH _ _ _ _ E) as (Hbuf' & Ht' & Hbad' & Hd'). cbn [timed_lines].
    destruct (complete_lines (buf b +:+ p)) as [ls rest]. cbn [fst snd] in *. rewrite Hbuf in *. destruct (timed_lines rest ps) as [tls r]. cbn [fst snd] in *.
    split; [done|]. split; [by eapply thinner_trans|]. split; [intros _ i Hi; apply Hbad; by apply Ht'|].
    intros i s Hi Hb. rewrite (Hd' i s Hi (thinner_belongs _ _ _ _ Ht Hi Hb)), (Hd i s Hi Hb), string_app_assoc. f_equal. unfold raw_text.
    destruct (String.eqb_spec s "") as [->|Hne].
    + rewrite fmap_cons, concat_cons, string_app_assoc. cbn [snd]. f_equal. assert (forall l : list (Time * string), String.concat "" (entry_text "" <$> l) = "") as ->; [|done].
      intros l. induction l as [|x l IHl]; [done|]. rewrite fmap_cons, concat_cons, IHl. by destruct x.
    + rewrite fmap_app, concat_app. done.
Qed.

(** C35. However the output of a container is cut into writes, and whichever
    other writers fail: a working writer without a stream gets every byte, one
    of a stream an entry for every complete line, in their order and with the
    time of a write; the line that is not complete is kept for the next write;
    and failing writers of the raw output are dropped at the first write. *)
Theorem writers_receive ps w b w' b' : buf b = "" -> write_all ps (w, b) = (w', b') ->
  exists tls, tls.*2 = fst (complete_lines (String.concat "" ps.*2)) /\ Forall (fun x => x.1 ∈ ps.*1) tls /\
    buf b' = snd (complete_lines (String.concat "" ps.*2)) /\
    (forall i s, fails i = false -> belongs (streams b) i s -> belongs (streams b') i s /\
      received w' i = received w i +:+ (if String.eqb s "" then String.concat "" ps.*2 else String.concat "" (entry_text s <$> tls))) /\
    (ps <> [] -> forall i, fails i = true -> ~ member (streams b') i "").
Proof.
  intros Hb E. apply write_all_spec in E as (Hbuf & Ht & Hbad & Hd). rewrite Hb in *.
  destruct (timed_lines_text ps "" eq_refl) as [H1 H2]. change ("" +:+ ?x) with x in *. exists (fst (timed_lines "" ps)).
  split; [done|]. split; [apply timed_lines_times|]. split; [congruence|]. split.
  - intros i s Hi Hbe. split; [by eapply thinner_belongs|by apply Hd].
  - intros Hne i Hi Hm. specialize (Hbad Hne i Hm). congruence.
Qed.

End Receive.

End Broadcast.

(** ** Example *)

#[export] Instance tick_time : GoTime nat := {
  time_json n := if Z.of_nat n <? 2 ^ 63 then Some (itoa (Z.of_nat n)) else None; parse_time s := match atoi s with Ok z => Some (Z.to_nat z) | Err _ => None end;
  time_Format n _ := itoa (Z.of_nat n); zero_time := 0%nat; RFC3339Nano := "2006-01-02T15:04:05.999999999Z07:00" }.

(** Each writer keeps what it gets; the third one is closed. *)
#[export] Instance list_sinks : Sinks (nat -> string) := {
  sink_write w i p := if Nat.eqb i 3 then (w, 0, true) else (fun j => if Nat.eqb j i then w j +:+ p else w j, Z.of_nat (String.length p), false);
  sink_close w _ := w }.

#[export] Instance list_laws : SinkLaws (nat -> string).
Proof.
  exists (fun w i => w i) (fun i => Nat.eqb i 3).
  - intros w i p w' n e Hi. cbn. rewrite Hi. intros [= <- <- <-]. by rewrite Nat.eqb_refl.
  - intros w i p w' n e Hi. cbn. rewrite Hi. by intros [= <- <- <-].
  - intros w i p w' n e j Hj. cbn. destruct (Nat.eqb i 3); [by intros [= <- <- <-]|]. intros [= <- <- <-]. apply Nat.eqb_neq in Hj. by rewrite Hj.
Defined.

Definition all_streams (m : gmap string (gset nat)) : list string := base.elements (dom m).
Definition all_writers (X : gset nat) : list nat := base.elements X.

Definition listening : BroadcastWriter := AddWriter (AddWriter (AddWriter New 1 "") 3 "") 2 "stdout".
Definition two_writes : list (nat * string) := [(7, "one" +:+ String "010" "tw"); (8, "o" +:+ String "010" "three")]%nat.

Lemma listening_members i s : member (streams listening) i s -> (i, s) ∈ [(1%nat, ""); (3%nat, ""); (2%nat, "stdout")].
Proof.
  intros (X & E & Hi). unfold listening, AddWriter, New in E. cbn [streams with_streams] in E.
  rewrite lookup_empty, lookup_insert_eq in E. cbn [default from_option] in E. unfold id in E. rewrite insert_insert_eq in E.
  rewrite (lookup_insert_ne _ "" "stdout") in E by done. rewrite lookup_empty in E. cbn [default from_option] in E.
  destruct (decide (s = "stdout")) as [->|Hne]; [rewrite lookup_insert_eq in E; injection E as <-; set_solver|].
  rewrite lookup_insert_ne in E by done. destruct (decide (s = "")) as [->|]; [rewrite lookup_insert_eq in E; injection E as <-; set_solver|].
  by rewrite lookup_insert_ne, lookup_empty in E.
Qed.

Lemma writers_receive_witness :
  exists w b, write_all all_streams all_writers two_writes (fun _ => "", listening) = (w, b) /\ buf b = "three" /\
    w 1%nat = "one" +:+ String "010" ("two" +:+ String "010" "three") /\ ~ member (streams b) 3 "" /\
    exists tls, tls.*2 = ["one" +:+ String "010" ""; "two" +:+ String "010" ""] /\ w 2%nat = String.concat "" (entry_text "stdout" <$> tls).
Proof.
  destruct (write_all all_streams all_writers two_writes (fun _ => "", listening)) as [w b] eqn:E. exists w, b. split; [reflexivity|].
  destruct (writers_receive all_streams all_writers (fun _ => reflexivity _) (fun _ => reflexivity _) two_writes (fun _ => "") listening w b eq_refl E)
    as (tls & Htls & _ & Hbuf & Hr & Hbad). clear E.
  assert (forall i s, (i, s) ∈ [(1%nat, ""); (2%nat, "stdout")] -> belongs (streams listening) i s) as Hb.
  { intros i s Hi. split.
    - apply elem_of_cons in Hi as [[= -> ->]|Hi]; [eexists; split; [vm_compute; reflexivity|vm_compute; set_solver]|].
      apply list_elem_of_singleton in Hi. injection Hi as -> ->. eexists. split; [vm_compute; reflexivity|vm_compute; set_solver].
    - intros s' Hs'. apply listening_members in Hs'. set_solver. }
  destruct (Hr 1%nat "" eq_refl) as [_ H1]; [apply Hb; set_solver|]. destruct (Hr 2%nat "stdout" eq_refl) as [_ H2]; [apply Hb; set_solver|].
  split; [rewrite Hbuf; vm_compute; reflexivity|]. split; [exact H1|]. split; [apply Hbad; [discriminate|reflexivity]|]. exists tls. split; [rewrite Htls; vm_compute; reflexivity|exact H2].
Defined.
