(* ===== verification/Logs.v ===== *)
(** * The log of a container

    What a container writes goes through its broadcasters to its log file
    (LogToDisk of daemon/daemon.go) and comes back through the job _logs_
    (daemon/logs.go), whole or by its last lines (pkg/tailfile). *)

From stdpp Require Import base gmap list strings.
From Stdlib Require Import ZArith Lia Ascii.
From S2P Require Import Prelude GoStrings Env Utf8 GoJSON JSONValues JSONText Broadcast.

Local Open Scope Z_scope.

(** ** pkg/tailfile *)

Definition blockSize : Z := 1024.
Definition ErrNonPositiveLinesNumber : string := "Lines number must be positive".

Fixpoint count_lines (s : string) : Z :=
  match s with "" => 0 | String c r => (if Ascii.eqb c "010" then 1 else 0) + count_lines r end.

(** The blocks from the end of the file, until they hold more than [n] ends
    of lines or the file is read. *)
Fixpoint tail_blocks (fuel : nat) (file : string) (n block : Z) (data : string) (cnt : Z) : outcome string :=
  match fuel with
  | O => OutOfFuel
  | S fuel =>
      let size := Z.of_nat (String.length file) in
      let left := size + block * blockSize in
      if left <? 0 then Return (take_str (Z.to_nat (blockSize + left)) file +:+ data)
      else
        let b := take_str (Z.to_nat blockSize) (drop_str (Z.to_nat left) file) in
        let data := b +:+ data in
        let cnt := cnt + count_lines b in
        if n <? cnt then Return data else tail_blocks fuel file n (block - 1) data cnt
  end.

Definition tail_fuel (file : string) : nat := String.length file / 1024 + 2.

Definition TailFile (file : string) (n : Z) : outcome (result string (list string)) :=
  if n <=? 0 then Return (Err ErrNonPositiveLinesNumber)
  else
    data ← tail_blocks (tail_fuel file) file n (-1) "" 0;
    let lines := split "010" data in
    let len := length lines in
    Return (Ok (if n <? Z.of_nat len then take (len - 1 - (len - Z.to_nat n - 1)) (drop (len - Z.to_nat n - 1) lines) else take (len - 1) lines)).

Example TailFile_test :
  let nl := String "010" "" in let f := "first line" +:+ nl +:+ "second line" +:+ nl +:+ "truncated line" in
  TailFile f 1 = Return (Ok ["second line"]) /\ TailFile f 10000 = Return (Ok ["first line"; "second line"]) /\
  TailFile "" 3 = Return (Ok []) /\ TailFile f 0 = Return (Err ErrNonPositiveLinesNumber).
Proof. vm_compute. repeat split. Qed.

Section Logs.
Context {Time : Type} `{HT : GoTime Time}.

(** ** Entries *)

Definition empty_log : JSONLog := {| Log := ""; Stream := ""; Created := zero_time |}.

Definition store_log (l : JSONLog) (k : string) (v : json) : option JSONLog :=
  if String.eqb k "log" then
    match v with JNull => Some l | JString s => Some {| Log := s; Stream := Stream l; Created := Created l |} | _ => None end
  else if String.eqb k "stream" then
    match v with JNull => Some l | JString s => Some {| Log := Log l; Stream := s; Created := Created l |} | _ => None end
  else if String.eqb k "time" then
    match v with JString s => t ← parse_time s; Some {| Log := Log l; Stream := Stream l; Created := t |} | _ => None end
  else Some l.

(** [dec.Decode(l)] of a value. *)
Definition Decode (v : json) : option JSONLog :=
  match v with
  | JNull => Some empty_log
  | JObject members => match decode_fields store_log members empty_log with (l, true) => Some l | (_, false) => None end
  | _ => None
  end.

(** [JSONLog.Format] *)
Definition Format (l : JSONLog) (format : string) : option string :=
  if String.eqb format "" then Some (Log l)
  else if String.eqb format "json" then Marshal_log l
  else Some ("[" +:+ time_Format (Created l) format +:+ "] " +:+ Log l).

(** The loop of [WriteLog] over the values of a text. *)
Fixpoint write_values (vs : list json) (format : string) : string :=
  match vs with
  | [] => ""
  | v :: vs => match l ← Decode v; Format l format with Some line => line +:+ write_values vs format | None => "" end
  end.

(** What [WriteLog] copies of a text. *)
Definition WriteLog (src format : string) : outcome string := '(vs, _) ← decode_all src; Return (write_values vs format).

(** ** The job logs *)

Inductive log_file := LogContent (s : string) | LogMissing | LogFails.

(** The entries that are shown on stdout and on stderr. *)
Fixpoint print_entries (vs : list json) (out err times : bool) : string * string :=
  match vs with
  | [] => ("", "")
  | v :: vs =>
      match Decode v with
      | None => ("", "")
      | Some l =>
          let logLine := if times then time_Format (Created l) RFC3339Nano +:+ " " +:+ Log l else Log l in
          let '(o, e) := print_entries vs out err times in
          ((if String.eqb (Stream l) "stdout" && out then logLine +:+ o else o), (if String.eqb (Stream l) "stderr" && err then logLine +:+ e else e))
      end
  end.

(** Lines as the buffer of the job holds them. *)
Definition joined_lines (ls : list string) : string := String.concat "" ((fun l => l +:+ String "010" "") <$> ls).

(** [lines] of the option tail. *)
Definition tail_lines (tail : string) : Z :=
  if String.eqb tail "all" then -1 else match atoi tail with Ok n => n | Err _ => -1 end.

Definition legacy_log (f : log_file) : string := match f with LogContent s => s | _ => "" end.

(** The files of the container's log; what its pipes give until the job ends. *)
Definition ContainerLogs (daemon_Get : string -> option (string -> log_file)) (name : string) (pipe_out pipe_err : string) (args : list string) (env : Env.Env) :
    outcome (result string (string * string)) :=
  match args with
  | [container] =>
      let stdout := GetBool env "stdout" in
      let stderr := GetBool env "stderr" in
      let tail := Get env "tail" in
      let follow := GetBool env "follow" in
      let times := GetBool env "timestamps" in
      if negb (stdout || stderr) then Return (Err "You must choose at least one stream")
      else
        let format := if times then RFC3339Nano else "" in
        let tail := if String.eqb tail "" then "all" else tail in
        match daemon_Get container with
        | None => Return (Err ("No such container: " +:+ container))
        | Some ReadLog =>
            shown ← match ReadLog "json" with
                    | LogMissing => Return (Ok (if stdout then legacy_log (ReadLog "stdout") else "", if stderr then legacy_log (ReadLog "stderr") else ""))
                    | LogFails => Return (Ok ("", ""))
                    | LogContent cLog =>
                        let lines := tail_lines tail in
                        if lines =? 0 then Return (Ok ("", ""))
                        else
                          cLog ← (if 0 <? lines then ls ← TailFile cLog lines; Return (match ls with Ok ls => Ok (joined_lines ls) | Err e => Err e end)
                                  else Return (Ok cLog));
                          match cLog with
                          | Err e => Return (Err e)
                          | Ok cLog => '(vs, _) ← decode_all cLog; Return (Ok (print_entries vs stdout stderr times))
                          end
                    end;
            match shown with
            | Err e => Return (Err e)
            | Ok (o, e) =>
                if follow then
                  o' ← (if stdout then WriteLog pipe_out format else Return "");
                  e' ← (if stderr then WriteLog pipe_err format else Return "");
                  Return (Ok (o +:+ o', e +:+ e'))
                else Return (Ok (o, e))
            end
        end
  | _ => Return (Err ("Usage: " +:+ name +:+ " CONTAINER" +:+ String "010" ""))
  end.

(** [LogToDisk] of a stream: the file is opened for appending. *)
Definition LogToDisk (src : BroadcastWriter) (log : nat) (stream : string) : BroadcastWriter := AddWriter src log stream.

End Logs.

(** ** The last lines of a file *)

Lemma count_lines_app a b : count_lines (a +:+ b) = count_lines a + count_lines b.
Proof. induction a as [|c a IH]; [done|]. rewrite string_app_cons. cbn [count_lines]. rewrite IH. lia. Qed.

Lemma split_length s : Z.of_nat (length (split "010" s)) = count_lines s + 1.
Proof.
  induction s as [|c s IH]; [done|]. cbn [split count_lines]. destruct (Ascii.eqb c "010"); [cbn [length]; lia|].
  destruct (split "010" s) as [|x l] eqn:E; [by apply split_ne in E|]. cbn [length] in *. lia.
Qed.

Lemma take_drop_str n s : take_str n s +:+ drop_str n s = s.
Proof. revert s. induction n as [|n IH]; intros [|c s]; try done. cbn. rewrite string_app_cons. by rewrite IH. Qed.

Lemma take_str_length n s : String.length (take_str n s) = Nat.min n (String.length s).
Proof. revert s. induction n as [|n IH]; intros [|c s]; cbn; [done..|]. by rewrite IH. Qed.

Lemma drop_drop_str a b s : drop_str a (drop_str b s) = drop_str (a + b) s.
Proof. revert s. induction b as [|b IH]; intros s; [rewrite Nat.add_0_r; by destruct s|]. destruct s as [|c s]; [by destruct a, b|]. rewrite Nat.add_succ_r. cbn. apply IH. Qed.

(** The pieces of a text that is put before another one. *)
Lemma split_prefix a b : exists P h t x, split "010" b = h :: t /\ split "010" (a +:+ b) = P ++ (x +:+ h) :: t.
Proof.
  induction a as [|c a (P & h & t & x & Eb & E)].
  - destruct (split "010" b) as [|h t] eqn:E; [by apply split_ne in E|]. exists [], h, t, "". split; [done|]. exact E.
  - rewrite string_app_cons. cbn [split]. rewrite E. destruct (Ascii.eqb c "010").
    + by exists ("" :: P), h, t, x.
    + destruct P as [|p P]; [by exists [], h, t, (String c x)|by exists (String c p :: P), h, t, x].
Qed.

Lemma lastn_app {A} n (l k : list A) : (n <= length k)%nat -> lastn n (l ++ k) = lastn n k.
Proof. intros H. unfold lastn. rewrite length_app, drop_app_ge by lia. f_equal. lia. Qed.

Lemma removelast_length {A} (l : list A) : length (removelast l) = (length l - 1)%nat.
Proof. destruct l as [|x l _] using rev_ind; [done|]. rewrite removelast_last, length_app. simpl. lia. Qed.

Lemma removelast_cons {A} (x : A) l : l <> [] -> removelast (x :: l) = x :: removelast l.
Proof. by destruct l. Qed.

(** Enough of the end of a file decides its last lines. *)
Lemma last_lines_suffix a b n : Z.of_nat n < count_lines b -> lastn n (removelast (split "010" (a +:+ b))) = lastn n (removelast (split "010" b)).
Proof.
  intros Hn. destruct (split_prefix a b) as (P & h & t & x & Eb & E). pose proof (split_length b) as Hl. rewrite Eb in Hl. cbn [length] in Hl.
  assert (t <> []) as Ht by (intros ->; simpl in Hl; lia). rewrite E, Eb, removelast_app, !removelast_cons by done.
  change (?y :: removelast t) with ([y] ++ removelast t). rewrite !app_assoc.
  rewrite (lastn_app n (P ++ [x +:+ h])), (lastn_app n [h]); [done|rewrite removelast_length; lia..].
Qed.

Lemma tail_blocks_spec file n fuel : forall block data cnt,
  data = drop_str (Z.to_nat (Z.of_nat (String.length file) + (block + 1) * blockSize)) file -> cnt = count_lines data ->
  0 <= Z.of_nat (String.length file) + (block + 1) * blockSize < Z.of_nat fuel * blockSize ->
  exists a b, tail_blocks fuel file n block data cnt = Return b /\ file = a +:+ b /\ (a = "" \/ n < count_lines b).
Proof.
  induction fuel as [|fuel IH]; intros block data cnt Hd Hc Hf; [unfold blockSize in *; lia|]. cbn [tail_blocks].
  set (size := Z.of_nat (String.length file)) in *. unfold blockSize in *.
  assert (size + (block + 1) * 1024 = size + block * 1024 + 1024) as Hs by lia. rewrite Hs in *.
  destruct (Z.ltb_spec (size + block * 1024) 0) as [Hneg|Hpos].
  - eexists "", _. split; [reflexivity|]. split; [|by left]. rewrite Hd. replace (1024 + (size + block * 1024)) with (size + block * 1024 + 1024) by lia.
    change ("" +:+ ?x) with x. by rewrite take_drop_str.
  - set (left := size + block * 1024) in *.
    assert (take_str (Z.to_nat 1024) (drop_str (Z.to_nat left) file) +:+ data = drop_str (Z.to_nat left) file) as Hb.
    { rewrite Hd. replace (Z.to_nat (left + 1024)) with (Z.to_nat 1024 + Z.to_nat left)%nat by lia. rewrite <- drop_drop_str. apply take_drop_str. }
    rewrite Hb. assert (cnt + count_lines (take_str (Z.to_nat 1024) (drop_str (Z.to_nat left) file)) = count_lines (drop_str (Z.to_nat left) file)) as Hcnt.
    { pose proof (f_equal count_lines Hb) as Hk. rewrite count_lines_app in Hk. rewrite Hc. exact (eq_trans (Z.add_comm _ _) Hk). }
    rewrite Hcnt. destruct (Z.ltb_spec n (count_lines (drop_str (Z.to_nat left) file))) as [Hlt|Hge].
    + exists (take_str (Z.to_nat left) file), (drop_str (Z.to_nat left) file). split; [done|]. split; [by rewrite take_drop_str|by right].
    + apply IH; [|done|].
      * do 2 f_equal. unfold left. lia.
      * unfold left in *. lia.
Qed.

Lemma tail_spec file n : 0 < n -> TailFile file n = Return (Ok (lastn (Z.to_nat n) (removelast (split "010" file)))).
Proof.
  intros Hn. unfold TailFile. rewrite (proj2 (Z.leb_gt n 0)) by done.
  destruct (tail_blocks_spec file n (tail_fuel file) (-1) "" 0) as (a & b & -> & E & Hab); [|done| |].
  - unfold blockSize. replace (Z.of_nat (String.length file) + (-1 + 1) * 1024) with (Z.of_nat (String.length file)) by lia. rewrite Nat2Z.id.
    pose proof (drop_app_str file "") as H. by rewrite string_app_nil_r in H.
  - unfold tail_fuel, blockSize. pose proof (Nat.div_mod_eq (String.length file) 1024). pose proof (Nat.mod_upper_bound (String.length file) 1024). lia.
  - cbn [mbind outcome_bind]. do 2 f_equal. pose proof (split_length b) as Hl. pose proof (split_ne "010" b) as Hne.
    assert (forall l : list string, l <> [] -> take (length l - 1) l = removelast l) as Hrem.
    { intros l Hl'. destruct l as [|x l _] using rev_ind; [done|]. rewrite removelast_last, length_app. cbn [length]. by rewrite Nat.add_sub, take_app_length. }
    destruct (Z.ltb_spec n (Z.of_nat (length (split "010" b)))) as [Hlt|Hge].
    + transitivity (lastn (Z.to_nat n) (removelast (split "010" b))).
      * unfold lastn. rewrite removelast_length. set (l := split "010" b) in *.
        replace (length l - 1 - Z.to_nat n)%nat with (length l - Z.to_nat n - 1)%nat by lia.
        rewrite <- Hrem by done. rewrite firstn_skipn_comm. f_equal. f_equal. lia.
      * rewrite E. destruct Hab as [-> |Hcnt]; [done|]. symmetry. apply last_lines_suffix. lia.
    + destruct Hab as [-> |Hcnt]; [|lia]. change ("" +:+ b) with b in E. subst b. rewrite Hrem by done.
      unfold lastn. rewrite removelast_length. replace (length (split "010" file) - 1 - Z.to_nat n)%nat with 0%nat by lia. by rewrite drop_0.
Qed.

(** C36. [TailFile] returns the last [n] complete lines of the file, or all of
    them when there are fewer; it never reads past the beginning and always
    ends. *)
Theorem TailFile_correct file n : 0 < n -> TailFile file n = Return (Ok (lastn (Z.to_nat n) (removelast (split "010" file)))).
Proof. apply tail_spec. Qed.

(** ** What the log shows of the output *)

(** The log file, which both streams append to. *)
#[export] Instance log_sinks : Sinks string := {
  sink_write f _ p := (f +:+ p, Z.of_nat (String.length p), false); sink_close f _ := f }.

(** A time is read back from its text. *)
Class TimeLaws (Time : Type) `{GoTime Time} := {
  parse_json_time : forall t text, time_json t = Some text -> parse_time (sanitize text) = Some t }.

Section Shown.
Context {Time : Type} `{HT : GoTime Time, HL : !TimeLaws Time}.
Context (range_streams : gmap string (gset nat) -> list string) (range_writers : gset nat -> list nat).
Hypothesis range_streams_all : forall m, range_streams m ≡ₚ base.elements (dom m).
Hypothesis range_writers_all : forall X, range_writers X ≡ₚ base.elements X.

(** A write of the container: on stderr or on stdout, with its time. *)
Definition output : Type := bool * Time * string.

Definition stream_of (err : bool) : string := if err then "stderr" else "stdout".

(** The log file, and the broadcasters of stdout and stderr. *)
Definition write_output '((file, bo, be) : string * BroadcastWriter * BroadcastWriter) '((err, t, p) : output) : string * BroadcastWriter * BroadcastWriter :=
  if err : bool then let '(file, be) := Write range_streams range_writers t p (file, be) in (file, bo, be)
  else let '(file, bo) := Write range_streams range_writers t p (file, bo) in (file, bo, be).

(** A container whose streams are logged. *)
Definition logged : string * BroadcastWriter * BroadcastWriter := ("", LogToDisk New 0 "stdout", LogToDisk New 1 "stderr").

(** The entries of the log: the lines of both streams, in the order in which
    they are completed. *)
Fixpoint entries_of (ro re : string) (l : list output) : list (string * (Time * string)) :=
  match l with
  | [] => []
  | (err, t, p) :: l =>
      let '(ls, rest) := complete_lines ((if err : bool then re else ro) +:+ p) in
      ((fun line => (stream_of err, (t, line))) <$> ls) ++ entries_of (if err then ro else rest) (if err then rest else re) l
  end.

Definition on_stream (s : string) (es : list (string * (Time * string))) : list string := omap (fun '(s', (_, line)) => if String.eqb s' s then Some line else None) es.
Definition written_to (err : bool) (l : list output) : string := String.concat "" (omap (fun '(e, _, p) => if Bool.eqb e err then Some p else None) l).

Lemma on_stream_app s a b : on_stream s (a ++ b) = on_stream s a ++ on_stream s b.
Proof. apply omap_app. Qed.

Lemma on_stream_lines s err t ls : on_stream s ((fun line => (stream_of err, (t, line))) <$> ls) = if String.eqb (stream_of err) s then ls else [].
Proof.
  unfold on_stream. induction ls as [|l ls IH]; [by destruct (String.eqb _ _)|]. rewrite fmap_cons. cbn [omap list_omap].
  destruct (String.eqb (stream_of err) s); by rewrite IH.
Qed.

(** The entries of a stream are the complete lines of what was written to it. *)
Lemma entries_lines l : forall ro re, complete_lines ro = ([], ro) -> complete_lines re = ([], re) ->
  on_stream "stdout" (entries_of ro re l) = fst (complete_lines (ro +:+ written_to false l)) /\
  on_stream "stderr" (entries_of ro re l) = fst (complete_lines (re +:+ written_to true l)).
Proof.
  induction l as [|[[err t] p] l IH]; intros ro re Ho He; cbn [entries_of].
  - change (written_to _ []) with "". rewrite !string_app_nil_r, Ho, He. done.
  - pose proof (complete_lines_rest ((if err then re else ro) +:+ p)) as Hr. pose proof (complete_lines_app ((if err then re else ro) +:+ p)) as Happ.
    destruct (complete_lines ((if err then re else ro) +:+ p)) as [ls rest]. cbn [snd] in Hr. rewrite !on_stream_app, !on_stream_lines.
    destruct err; cbn [stream_of].
    + destruct (IH ro rest Ho Hr) as [-> ->]. change (String.eqb "stderr" "stdout") with false. change (String.eqb "stderr" "stderr") with true. cbv iota.
      split; [done|]. unfold written_to at 2. cbn [omap list_omap]. change (Bool.eqb true true) with true. cbv iota.
      rewrite concat_cons, <- string_app_assoc, Happ. fold (written_to true l). by destruct (complete_lines (rest +:+ written_to true l)).
    + destruct (IH rest re Hr He) as [-> ->]. change (String.eqb "stdout" "stderr") with false. change (String.eqb "stdout" "stdout") with true. cbv iota.
      split; [|done]. unfold written_to at 2. cbn [omap list_omap]. change (Bool.eqb false false) with true. cbv iota.
      rewrite concat_cons, <- string_app_assoc, Happ. fold (written_to false l). by destruct (complete_lines (rest +:+ written_to false l)).
Qed.

(** *** The file *)

Definition only_log (b : BroadcastWriter) (i : nat) (s : string) : Prop := streams b = {[s := {[i]}]}.

Lemma one_stream s (X : gset nat) : range_streams {[s := X]} = [s].
Proof. apply Permutation_singleton_r. rewrite range_streams_all, dom_singleton_L, elements_singleton. done. Qed.

Lemma one_writer i : range_writers {[i]} = [i].
Proof. apply Permutation_singleton_r. rewrite range_writers_all, elements_singleton. done. Qed.

Lemma log_line t line file i s : s <> "" -> write_line range_streams range_writers t (file, {[s := {[i]}]}) line = (file +:+ entry_text s (t, line), {[s := {[i]}]}).
Proof.
  intros Hs. unfold write_line, entry_text. rewrite one_stream. cbn [foldl]. unfold write_stream.
  apply String.eqb_neq in Hs as Hs'. rewrite Hs'. destruct (Marshal_log _) as [b|]; [|by rewrite string_app_nil_r].
  rewrite lookup_singleton_eq. cbn [default from_option]. unfold id. rewrite one_writer. cbn. by rewrite insert_singleton_eq.
Qed.

Lemma log_lines t ls : forall file i s, s <> "" -> foldl (write_line range_streams range_writers t) (file, {[s := {[i]}]}) ls =
  (file +:+ String.concat "" ((fun l => entry_text s (t, l)) <$> ls), {[s := {[i]}]}).
Proof.
  induction ls as [|l ls IH]; intros file i s Hs; [by rewrite string_app_nil_r|]. cbn [foldl]. rewrite log_line, IH by done.
  rewrite fmap_cons, concat_cons. by rewrite string_app_assoc.
Qed.

Lemma Write_log t p file b i s : s <> "" -> only_log b i s ->
  Write range_streams range_writers t p (file, b) =
    (file +:+ String.concat "" ((fun l => entry_text s (t, l)) <$> fst (complete_lines (buf b +:+ p))), {| buf := snd (complete_lines (buf b +:+ p)); streams := {[s := {[i]}]} |}).
Proof.
  intros Hs Hb. unfold Write. unfold only_log in Hb. rewrite Hb, lookup_singleton_ne by done.
  destruct (complete_lines (buf b +:+ p)) as [ls rest]. by rewrite log_lines.
Qed.

Definition log_text (es : list (string * (Time * string))) : string := String.concat "" ((fun '(s, x) => entry_text s x) <$> es).

Lemma write_outputs l : forall file bo be, only_log bo 0 "stdout" -> only_log be 1 "stderr" ->
  exists bo' be', foldl write_output (file, bo, be) l = (file +:+ log_text (entries_of (buf bo) (buf be) l), bo', be').
Proof.
  induction l as [|[[err t] p] l IH]; intros file bo be Ho He; cbn [foldl entries_of]; [exists bo, be; by rewrite string_app_nil_r|].
  assert (forall (s : string) (ls : list string), (fun '(s, x) => entry_text s x) <$> ((fun line => (s, (t, line))) <$> ls) = (fun l => entry_text s (t, l)) <$> ls) as Hmap.
  { intros s ls. by rewrite <- list_fmap_compose. }
  destruct err; unfold write_output at 2; [rewrite (Write_log _ _ _ _ 1 "stderr") by done|rewrite (Write_log _ _ _ _ 0 "stdout") by done];
    [set (be1 := {| buf := _; streams := _ |}); destruct (IH (file +:+ String.concat "" ((fun l => entry_text "stderr" (t, l)) <$> fst (complete_lines (buf be +:+ p)))) bo be1) as (bo' & be' & E); [done|done|]
    |set (bo1 := {| buf := _; streams := _ |}); destruct (IH (file +:+ String.concat "" ((fun l => entry_text "stdout" (t, l)) <$> fst (complete_lines (buf bo +:+ p)))) bo1 be) as (bo' & be' & E); [done|done|]];
    exists bo', be'; rewrite E; do 2 f_equal; rewrite string_app_assoc; f_equal; unfold log_text.
  - subst be1. cbn [buf]. destruct (complete_lines (buf be +:+ p)) as [ls rest]. cbn [fst snd stream_of]. by rewrite fmap_app, concat_app, Hmap.
  - subst bo1. cbn [buf]. destruct (complete_lines (buf bo +:+ p)) as [ls rest]. cbn [fst snd stream_of]. by rewrite fmap_app, concat_app, Hmap.
Qed.

(** *** What the job shows *)

Definition entry_object '((s, (t, line)) : string * (Time * string)) : list (string * string) :=
  log_members {| Log := line; Stream := s; Created := t |} (default "" (time_json t)).

(** An entry as a container's output makes it. *)
Definition entry_ok '((s, (t, line)) : string * (Time * string)) : Prop := (exists err, s = stream_of err) /\ line <> "" /\ is_Some (time_json t).

Definition timed : list output -> Prop := Forall (fun '(_, t, _) => is_Some (time_json t)).

Lemma entries_ok l : timed l -> forall ro re, Forall entry_ok (entries_of ro re l).
Proof.
  induction 1 as [|[[err t] p] l Ht _ IH]; intros ro re; cbn [entries_of]; [constructor|].
  pose proof (complete_lines_shape ((if err then re else ro) +:+ p)) as Hs. destruct (complete_lines _) as [ls rest]. apply Forall_app. split; [|apply IH].
  apply Forall_fmap. eapply Forall_impl; [exact Hs|]. intros line (x & -> & _). split; [by exists err|]. split; [by destruct x|done].
Qed.

Lemma entry_object_spec s t line text : s <> "" -> line <> "" -> time_json t = Some text -> entry_object (s, (t, line)) = [("log", line); ("stream", s); ("time", text)].
Proof. intros Hs Hl Ht. unfold entry_object, log_members. cbn [Log Stream]. apply String.eqb_neq in Hs, Hl. by rewrite Hs, Hl, Ht. Qed.

Lemma stream_of_ne err : stream_of err <> "".
Proof. by destruct err. Qed.

Lemma entry_text_object e : entry_ok e -> entry_text (fst e) (snd e) = marshal_object (entry_object e) +:+ String "010" "".
Proof.
  destruct e as [s [t line]]. intros ([err ->] & Hl & [text Ht]). unfold entry_text, Marshal_log, entry_object. cbn [fst snd Created]. rewrite Ht.
  pose proof (stream_of_ne err) as Hs%String.eqb_neq. by rewrite Hs.
Qed.

Lemma log_text_objects es : Forall entry_ok es -> log_text es = lines_of_objects (entry_object <$> es).
Proof.
  unfold log_text, lines_of_objects. induction 1 as [|e es He _ IH]; [done|]. rewrite !fmap_cons, !concat_cons, IH, <- entry_text_object by done. by destruct e.
Qed.

Lemma objects_ne es : Forall entry_ok es -> Forall (fun l => l <> []) (entry_object <$> es).
Proof.
  intros H. apply Forall_fmap. eapply Forall_impl; [exact H|]. intros [s [t line]] ([err ->] & Hl & [text Ht]).
  change (entry_object (stream_of err, (t, line)) <> []). by rewrite (entry_object_spec _ _ _ text) by (done || apply stream_of_ne).
Qed.

Lemma lines_of_objects_length ls : (length ls <= String.length (lines_of_objects ls))%nat.
Proof.
  unfold lines_of_objects. induction ls as [|l ls IH]; [done|]. rewrite fmap_cons, concat_cons, !string_length_app. simpl in *. lia.
Qed.

Definition entry_value (e : string * (Time * string)) : json := JObject (read_member <$> entry_object e).

Lemma decode_entries es : Forall entry_ok es -> decode_all (log_text es) = Return (entry_value <$> es, true).
Proof.
  intros H. rewrite log_text_objects by done. unfold decode_all. rewrite (decode_objects (entry_object <$> es)); [|by apply objects_ne| |by left].
  - by rewrite <- list_fmap_compose.
  - pose proof (lines_of_objects_length (entry_object <$> es)). lia.
Qed.

Lemma Decode_entry s t line : entry_ok (s, (t, line)) -> Decode (entry_value (s, (t, line))) = Some {| Log := sanitize line; Stream := s; Created := t |}.
Proof.
  intros ([err ->] & Hl & [text Ht]). unfold entry_value. rewrite (entry_object_spec _ _ _ text) by (done || apply stream_of_ne).
  cbn [fmap list_fmap read_member Decode]. unfold decode_fields. cbn [foldl].
  change (store_log ?l (fold_key (sanitize "log")) (JString ?x)) with (Some {| Log := x; Stream := Stream l; Created := Created l |}). cbv iota beta.
  change (store_log ?l (fold_key (sanitize "stream")) (JString ?x)) with (Some {| Log := Log l; Stream := x; Created := Created l |}). cbv iota beta.
  change (store_log ?l (fold_key (sanitize "time")) (JString ?x)) with (t ← parse_time x; Some {| Log := Log l; Stream := Stream l; Created := t |}).
  rewrite (parse_json_time _ _ Ht). by destruct err.
Qed.

(** The lines of a stream as the client gets them. *)
Definition shown (times : bool) (s : string) (es : list (string * (Time * string))) : string :=
  String.concat "" (omap (fun '(s', (t, line)) =>
    if String.eqb s' s then Some ((if times : bool then time_Format t RFC3339Nano +:+ " " else "") +:+ sanitize line) else None) es).

Lemma print_shown es out err times : Forall entry_ok es ->
  print_entries (entry_value <$> es) out err times = (if out then shown times "stdout" es else "", if err then shown times "stderr" es else "").
Proof.
  induction 1 as [|[s [t line]] es He _ IH]; [by destruct out, err|]. rewrite fmap_cons. cbn [print_entries]. rewrite Decode_entry by done.
  cbn [Log Stream Created]. rewrite IH. unfold shown. cbn [omap list_omap].
  assert ((if times then time_Format t RFC3339Nano +:+ " " +:+ sanitize line else sanitize line) = (if times then time_Format t RFC3339Nano +:+ " " else "") +:+ sanitize line) as ->.
  { destruct times; [by rewrite string_app_assoc|done]. }
  destruct He as ([[] ->] & _); cbn [stream_of]; change (String.eqb "stderr" "stderr") with true; change (String.eqb "stdout" "stdout") with true;
    change (String.eqb "stdout" "stderr") with false; change (String.eqb "stderr" "stdout") with false; cbv iota; rewrite concat_cons; by destruct out, err.
Qed.

(** The entries the option tail asks for. *)
Definition selected {A} (tail : string) (es : list A) : list A :=
  let n := tail_lines tail in if n =? 0 then [] else if 0 <? n then lastn (Z.to_nat n) es else es.

Lemma split_objects ls : split "010" (lines_of_objects ls) = (marshal_object <$> ls) ++ [""].
Proof.
  unfold lines_of_objects. induction ls as [|l ls IH]; [done|]. rewrite fmap_cons, concat_cons, string_app_assoc.
  change (String "010" "" +:+ ?x) with (String "010" x). rewrite split_app by apply marshal_object_line. by rewrite IH.
Qed.

Lemma joined_objects ls : joined_lines (marshal_object <$> ls) = lines_of_objects ls.
Proof. unfold joined_lines, lines_of_objects. by rewrite <- list_fmap_compose. Qed.

Lemma lastn_fmap {A B} (f : A -> B) n l : lastn n (f <$> l) = f <$> lastn n l.
Proof. unfold lastn. by rewrite length_fmap, fmap_drop. Qed.

Lemma Forall_lastn {A} (P : A -> Prop) n l : Forall P l -> Forall P (lastn n l).
Proof. apply Forall_drop. Qed.

Lemma tail_entries n es : 0 < n -> Forall entry_ok es ->
  exists ls, TailFile (log_text es) n = Return (Ok ls) /\ joined_lines ls = log_text (lastn (Z.to_nat n) es).
Proof.
  intros Hn He. eexists. split; [apply tail_spec; exact Hn|]. rewrite !log_text_objects by (done || by apply Forall_lastn).
  rewrite split_objects, removelast_last, lastn_fmap, joined_objects. by rewrite lastn_fmap.
Qed.

(** C37. The job logs shows what the container wrote: the entries are, on each
    stream, the complete lines of all that was written to it, however it was
    cut into writes; of these the job shows the ones the option tail asks for
    (the last ones, none for 0, all of them when it is no number or is
    negative), on the streams that are asked for, each once, in order, with its
    time when that is asked for, and with U+FFFD for what is no UTF-8. *)
Theorem ContainerLogs_shows l file bo be daemon_Get ReadLog name pipe_out pipe_err c env :
  timed l -> foldl write_output logged l = (file, bo, be) -> daemon_Get c = Some ReadLog -> ReadLog "json" = LogContent file ->
  GetBool env "stdout" || GetBool env "stderr" = true -> GetBool env "follow" = false ->
  let es := entries_of "" "" l in
  let times := GetBool env "timestamps" in
  on_stream "stdout" es = fst (complete_lines (written_to false l)) /\ on_stream "stderr" es = fst (complete_lines (written_to true l)) /\
  ContainerLogs daemon_Get name pipe_out pipe_err [c] env =
    Return (Ok (if GetBool env "stdout" then shown times "stdout" (selected (Get env "tail") es) else "",
                if GetBool env "stderr" then shown times "stderr" (selected (Get env "tail") es) else "")).
Proof.
  intros Ht Hw Hc Hr Hs Hf es times. destruct (entries_lines l "" "" eq_refl eq_refl) as [Ho He]. split; [exact Ho|]. split; [exact He|]. clear Ho He.
  destruct (write_outputs l "" (LogToDisk New 0 "stdout") (LogToDisk New 1 "stderr")) as (bo' & be' & E); [by vm_compute..|].
  unfold logged in Hw. rewrite Hw in E. injection E as E _ _. change ("" +:+ ?x) with x in E. change (buf (LogToDisk New _ _)) with "" in E. fold es in E.
  pose proof (entries_ok l Ht "" "") as Hok. fold es in Hok.
  cbn [ContainerLogs]. rewrite Hs, Hc, Hr, Hf, E. cbn [negb]. cbv zeta. fold times.
  assert (tail_lines (if String.eqb (Get env "tail") "" then "all" else Get env "tail") = tail_lines (Get env "tail")) as ->.
  { destruct (String.eqb_spec (Get env "tail") "") as [->|]; done. }
  unfold selected. cbv zeta. set (n := tail_lines (Get env "tail")). destruct (Z.eqb_spec n 0); [cbn; by destruct (GetBool env "stdout"), (GetBool env "stderr")|].
  destruct (Z.ltb_spec 0 n) as [Hn|Hn].
  - destruct (tail_entries n es Hn Hok) as (ls & -> & Hj). cbn [mbind outcome_bind]. rewrite Hj, decode_entries by by apply Forall_lastn.
    cbn [mbind outcome_bind]. by rewrite print_shown by by apply Forall_lastn.
  - cbn [mbind outcome_bind]. rewrite decode_entries by done. cbn [mbind outcome_bind]. by rewrite print_shown.
Qed.

End Shown.

(** ** Examples *)

Lemma TailFile_correct_witness :
  let nl := String "010" "" in let f := "one" +:+ nl +:+ "two" +:+ nl +:+ "three" +:+ nl +:+ "fo" in 0 < 2 /\ TailFile f 2 = Return (Ok ["two"; "three"]).
Proof. intros nl f. split; [lia|]. rewrite (TailFile_correct f 2) by reflexivity. vm_compute. reflexivity. Defined.

Lemma itoa_ascii z : is_ascii (itoa z) = true.
Proof. apply (forall_str_impl is_num_char); [|apply itoa_chars]. intros c. by destruct c as [[] [] [] [] [] [] [] []]. Qed.

#[export] Instance tick_laws : TimeLaws nat.
Proof.
  exists. intros t text. unfold time_json, parse_time, tick_time. destruct (Z.ltb_spec (Z.of_nat t) (2 ^ 63)); [|done]. intros E. injection E as <-.
  rewrite sanitize_ascii; [|apply itoa_ascii]. unfold atoi. rewrite parse_int_itoa by lia. by rewrite Nat2Z.id.
Defined.

(** Two streams; a line in two writes; the last line is not complete. *)
Definition some_output : list (bool * nat * string) :=
  [(false, 1, "one" +:+ String "010" "tw"); (true, 2, "oops" +:+ String "010" ""); (false, 3, "o" +:+ String "010" ("thr" +:+ String "255" "")); (false, 4, "ee" +:+ String "010" "fo")]%nat.

Definition some_log : string := fst (fst (foldl (write_output all_streams all_writers) logged some_output)).

Lemma ContainerLogs_shows_witness :
  let env := ["stdout=1"; "tail=2"; "timestamps=1"] in
  ContainerLogs (fun c => if String.eqb c "web" then Some (fun _ => LogContent some_log) else None) "logs" "" "" ["web"] env =
    Return (Ok ("3 two" +:+ String "010" ("4 thr" +:+ rune_error +:+ "ee" +:+ String "010" ""), "")).
Proof.
  intros env. destruct (foldl (write_output all_streams all_writers) logged some_output) as [[file bo] be] eqn:E.
  assert (some_log = file) as El by (unfold some_log; rewrite E; reflexivity).
  destruct (ContainerLogs_shows all_streams all_writers (fun _ => reflexivity _) (fun _ => reflexivity _) some_output file bo be
    (fun c => if String.eqb c "web" then Some (fun _ => LogContent some_log) else None) (fun _ => LogContent some_log) "logs" "" "" "web" env) as (_ & _ & H);
    [repeat constructor; eexists; vm_compute; reflexivity|exact E|reflexivity|cbn; rewrite El; reflexivity|reflexivity|reflexivity|].
  clear E El. rewrite H. vm_compute. reflexivity.
Defined.
