(* ===== verification/Lease.v ===== *)
(** * What a container holds of the bridge driver

    From [Allocate] to [Release] a container holds an address and the ports
    that were published for it ([span true]); before and after it holds
    nothing ([span false]), even where the driver still lists its interface.
    The jobs of Bridge.v, with any number of ports, go from one to the other;
    everything that belongs to other containers stays as it is. *)

From stdpp Require Import base gmap list strings.
From Stdlib Require Import ZArith Lia Ascii.
From S2P Require Import Prelude GoStrings GoNet NetUtils Ports IPAlloc Env Iptables PortMapper Bridge.

Local Open Scope Z_scope.

(** ** Proxies *)

Lemma remove_one_perm x l k : k ≡ₚ x :: l -> remove_one x k ≡ₚ l.
Proof.
  revert l. induction k as [|y k IH]; intros l Hk; [by apply Permutation_nil_cons in Hk|]. cbn. destruct (decide (x = y)) as [->|Hne].
  - by apply Permutation_cons_inv in Hk.
  - assert (y ∈ x :: l) as Hy by (rewrite <- Hk; apply list_elem_of_here). apply elem_of_cons in Hy as [->|Hy]; [done|].
    apply elem_of_Permutation in Hy as [l' Hl]. rewrite Hl. f_equiv. apply IH. apply (Permutation_cons_inv (a := y)). rewrite Hk, Hl. apply Permutation_swap.
Qed.

Section Spans.
Context {W : Type}.

(** ** Intervals of a container's life *)

Definition positions (n : Driver W) : gset Z := IPAlloc.p (pool_of (allocatedIPs n) (bridgeNetwork n)).
Definition offset (n : Driver W) (ip : IP) : Z := ip_val ip - ip_val (first_ip (bridgeNetwork n)).
Definition pool_last (n : Driver W) : Z := IPAlloc.last (pool_of (allocatedIPs n) (bridgeNetwork n)).

(** An interface nobody uses: an address and ports that are free in [base]. *)
Definition idle (base : Driver W) (i : networkInterface) : Prop :=
  wf_ip4 (if_IP i) /\ Contains (bridgeNetwork base) (if_IP i) = true /\ (offset base (if_IP i) ∉ positions base) /\
  (forall a, a ∈ PortMappings i -> currentMappings (mapper base) !! getKey a = None).

(** What is published in [n] and not in [base]. *)
Definition publishes (base n : Driver W) (ports : list Addr) : Prop :=
  NoDup (getKey <$> ports) /\
  (forall a, a ∈ ports -> is_Some (currentMappings (mapper n) !! getKey a)) /\
  (forall k, (k ∉ getKey <$> ports) -> currentMappings (mapper n) !! k = currentMappings (mapper base) !! k) /\
  proxies (mapper n) ≡ₚ omap (fun a => userlandProxy <$> currentMappings (mapper n) !! getKey a) ports ++ proxies (mapper base).

Record span (id : string) (live : bool) (base n : Driver W) : Prop := {
  span_network : bridgeNetwork n = bridgeNetwork base;
  span_iface : bridgeIface n = bridgeIface base;
  span_last : 0 <= pool_last n;
  span_others : forall j, j <> id -> currentInterfaces n !! j = currentInterfaces base !! j;
  span_idle : forall i, currentInterfaces n !! id = Some i -> idle base i;
  span_live : if live then exists i, currentInterfaces n !! id = Some i /\ publishes base n (PortMappings i) /\
                             positions n = {[offset base (if_IP i)]} ∪ positions base
              else currentMappings (mapper n) = currentMappings (mapper base) /\ proxies (mapper n) ≡ₚ proxies (mapper base) /\ positions n = positions base }.

(** What the other jobs leave alone. *)
Definition net_like (n n' : Driver W) : Prop :=
  bridgeNetwork n' = bridgeNetwork n /\ bridgeIface n' = bridgeIface n /\ currentInterfaces n' = currentInterfaces n /\ allocatedIPs n' = allocatedIPs n /\
  currentMappings (mapper n') = currentMappings (mapper n) /\ proxies (mapper n') = proxies (mapper n) /\ defaultBindingIP n' = defaultBindingIP n.

#[export] Instance net_like_order : PreOrder net_like.
Proof.
  split; [by intros n|]. intros n1 n2 n3 (A1 & A2 & A3 & A4 & A5 & A6 & A7) (B1 & B2 & B3 & B4 & B5 & B6 & B7).
  repeat split; by etrans.
Qed.

Lemma span_like id live base n n' : net_like n n' -> span id live base n -> span id live base n'.
Proof.
  intros (E1 & E2 & E3 & E4 & E5 & E6 & _) [S1 S2 S3 S4 S5 S6].
  assert (positions n' = positions n) as Ep by (unfold positions; by rewrite E4, E1).
  split; [congruence|congruence|unfold pool_last; by rewrite E4, E1|by rewrite E3|by rewrite E3|].
  destruct live.
  - destruct S6 as (i & Hi & (P1 & P2 & P3 & P4) & Hp). exists i. rewrite E3, Ep. split; [done|]. split; [|done].
    split; [done|]. rewrite E5, E6. done.
  - by rewrite E5, E6, Ep.
Qed.

Lemma span_refl id base : 0 <= pool_last base -> (forall i, currentInterfaces base !! id = Some i -> idle base i) -> span id false base base.
Proof. intros Hl Hi. by split. Qed.

(** ** Published ports *)

(** The address as the settings of a container name it. *)
Definition shown (a : Addr) (hostIP hostPort : string) : Prop := hostIP = IP_String (getIPAndPort a).1 /\ hostPort = itoa (getIPAndPort a).2.

(** A number as the jobs read it from their environment. *)
Definition number (s : string) : Z := match parse_int 64 (trim is_blank s) with Ok z => z | Err _ => 0 end.

(** The port [cport] of the container, of the protocol [pr], is published at
    [hostIP] and [hostPort]: the driver lists the address for the container,
    the mapper maps it to that port of the container's address, and a proxy
    passes on what arrives.  The address is the one that was asked for, or
    the one ports are bound to by default; so is the port, unless none was. *)
Definition published_at (ParseIP : string -> option IP) (id : string) (n : Driver W) (pr cport askedIP askedPort hostIP hostPort : string) : Prop :=
  exists i a m, currentInterfaces n !! id = Some i /\ a ∈ PortMappings i /\ currentMappings (mapper n) !! getKey a = Some m /\
    host m = a /\ shown a hostIP hostPort /\ proto m = pr /\
    container m = (if String.eqb pr "tcp" then TCPAddr else UDPAddr) (if_IP i) (number cport) /\
    userlandProxy m ∈ proxies (mapper n) /\
    userlandProxy m = {| px_proto := pr; px_hostIP := (getIPAndPort a).1; px_hostPort := (getIPAndPort a).2; px_containerIP := if_IP i; px_containerPort := number cport |} /\
    (getIPAndPort a).1 = (if String.eqb askedIP "" then defaultBindingIP n else default [] (ParseIP askedIP)) /\
    (0 < number askedPort -> (getIPAndPort a).2 = number askedPort).

(** The container keeps its address and its ports. *)
Definition grows (id : string) (n n' : Driver W) : Prop :=
  (forall i, currentInterfaces n !! id = Some i -> exists i', currentInterfaces n' !! id = Some i' /\ if_IP i' = if_IP i /\ PortMappings i ⊆ PortMappings i') /\
  currentMappings (mapper n) ⊆ currentMappings (mapper n') /\ proxies (mapper n) ⊆ proxies (mapper n') /\ defaultBindingIP n' = defaultBindingIP n.

#[export] Instance grows_order id : PreOrder (grows id).
Proof.
  split; [intros n; split; [intros i Hi; by exists i|done]|]. intros n1 n2 n3 (A1 & A2 & A3 & A4) (B1 & B2 & B3 & B4). split; [|split; [by etrans|split; [set_solver|congruence]]].
  intros i Hi. destruct (A1 i Hi) as (i2 & Hi2 & E2 & S2). destruct (B1 i2 Hi2) as (i3 & Hi3 & E3 & S3). exists i3. split; [done|]. split; [congruence|set_solver].
Qed.

Lemma net_like_grows id n n' : net_like n n' -> grows id n n'.
Proof. intros (_ & _ & E1 & _ & E2 & E3 & E4). split; [intros i Hi; exists i; by rewrite E1|]. by rewrite E2, E3, E4. Qed.

Lemma published_grows ParseIP id n n' pr cp ai ap ip port : grows id n n' -> published_at ParseIP id n pr cp ai ap ip port -> published_at ParseIP id n' pr cp ai ap ip port.
Proof.
  intros (G1 & G2 & G3 & G4) (i & a & m & Hi & Ha & Hm & Hh & Hs & Hp & Hc & Hx & Hpx & Hip & Hq). destruct (G1 i Hi) as (i' & Hi' & Eip & Hsub).
  exists i', a, m. rewrite Eip, G4. split_and!; try done; [by apply Hsub|by eapply lookup_weaken|by apply G3].
Qed.

End Spans.

Section Lease.
Context {W : Type} (exec : list string -> W -> W * (string * option string)) (found supportsXlock : bool) (ParseIP : string -> option IP).

(** ** The port mapper *)

Lemma Map_effect ch c hostIP port (s s1 : Mapper W) r : PortMapper.Map exec found supportsXlock ch None c hostIP port s = Return (s1, r) ->
  match r with
  | Ok a => currentMappings s !! getKey a = None /\ exists m, currentMappings s1 = <[getKey a := m]> (currentMappings s) /\ proxies s1 = userlandProxy m :: proxies s
  | Err _ => currentMappings s1 = currentMappings s /\ proxies s1 = proxies s
  end.
Proof.
  intros E. destruct (addr_proto c) as [[pr mk]|] eqn:Hc; [|unfold PortMapper.Map in E; rewrite Hc in E; injection E as <- <-; done].
  destruct (Map_inv _ _ _ _ _ _ _ _ _ _ _ _ _ Hc E) as [(g & e & _ & -> & ->)|(g & q & _ & s2 & Hm & Hr)]; [done|].
  unfold Map_allocated in Hm. cbn [host proto container with_pool currentMappings kernel] in Hm.
  destruct (currentMappings s !! _) eqn:Ek; [injection Hm as <- <-; destruct Hr as (g' & r' & _ & ->); done|].
  destruct (getIPAndPort c) as [cip cport]. destruct (forward _ _ _ _ AddRule _ _ _ _ _ _) as [w [[]|x]]; injection Hm as <- <-.
  - subst s1. split; [done|]. by eexists.
  - destruct Hr as (g' & r' & _ & ->). done.
Qed.

Lemma Map_allocated_host ch start_err m hostIP q (s s2 : Mapper W) a :
  Map_allocated exec found supportsXlock ch start_err m hostIP q s = (s2, Ok a) -> a = host m.
Proof.
  unfold Map_allocated. destruct (currentMappings s !! _); [done|]. destruct (getIPAndPort _). destruct (forward _ _ _ _ _ _ _ _ _ _) as [w [[]|e]]; [|done].
  destruct start_err; [by destruct (forward _ _ _ _ _ _ _ _ _ _)|]. by intros [= _ <-].
Qed.

Lemma Unmap_effect ch a (s s1 : Mapper W) r : Unmap exec found supportsXlock ch a s = Return (s1, r) ->
  match currentMappings s !! getKey a with
  | Some data => currentMappings s1 = delete (getKey a) (currentMappings s) /\ proxies s1 = remove_one (userlandProxy data) (proxies s)
  | None => s1 = s
  end.
Proof.
  unfold Unmap. destruct (currentMappings s !! getKey a) as [data|]; [|by intros [= <- <-]].
  destruct (getIPAndPort (container data)) as [cip cport], (getIPAndPort (host data)) as [hip hport].
  destruct (forward _ _ _ _ _ _ _ _ _ _) as [w [[]|x]]; [|by intros [= <- <-]]. destruct (addr_proto a) as [[pr mk]|]; [|by intros [= <- <-]].
  destruct (getIPAndPort a) as [ip port]. destruct (ReleasePort _ _ _ _) as [[g r']| |]; [|done|done]. by intros [= <- <-].
Qed.

(** ** The jobs *)

Context (k : nat).

Lemma span_Allocate id (base n n' : Driver W) r : wf_net4 (bridgeNetwork base) k -> (1 <= k)%nat -> ParseIP "" = None ->
  span id false base n -> Allocate ParseIP [id] [] n = Return (n', r) -> span id (match r with Ok _ => true | Err _ => false end) base n'.
Proof.
  intros Hw Hk Hnone [S1 S2 S3 S4 S5 (S6 & S7 & S8)]. unfold Allocate. cbn [head or_panic mbind outcome_bind].
  change (Env.Get [] "RequestedIP") with "". rewrite Hnone. rewrite <- S1 in Hw.
  destruct (RequestIP _ _ _) as [[ips [ip|e]]| |] eqn:E; [| |done|done]; cbn [mbind outcome_bind]; intros [= <- <-].
  - destruct (RequestIP_next _ k _ _ _ Hw Hk S3 E) as (pos & Hip & Hc & Hv & (Hpos & _) & Hfree & Hpool & _).
    assert (offset base ip = pos) as Hoff by (unfold offset; unfold address in Hv; rewrite <- S1; lia).
    assert (pos ∉ positions base) as Hfree' by (rewrite <- S8; exact Hfree).
    split; cbn [bridgeNetwork bridgeIface currentInterfaces allocatedIPs mapper with_interfaces with_ips]; try done.
    + unfold pool_last. cbn. rewrite Hpool. cbn. lia.
    + intros j Hj. rewrite lookup_insert_ne by done. by apply S4.
    + rewrite lookup_insert_eq. intros i Ei. injection Ei as <-. split; [done|]. split; [by rewrite <- S1|]. split; [cbn [if_IP]; by rewrite Hoff|]. intros a. cbn. set_solver.
    + eexists. rewrite lookup_insert_eq. split; [done|]. cbn [PortMappings if_IP]. split.
      * split; [constructor|]. split; [set_solver|]. cbn. rewrite S6. done.
      * unfold positions at 1. cbn. rewrite Hpool, Hoff. cbn. f_equal. exact S8.
  - assert (pool_of ips (bridgeNetwork n) = pool_of (allocatedIPs n) (bridgeNetwork n)) as Hpool.
    { unfold RequestIP in E. fold (pool_of (allocatedIPs n) (bridgeNetwork n)) in E.
      destruct (getNextIP_spec (pool_of (allocatedIPs n) (bridgeNetwork n)) _ k Hw Hk S3) as (a & r & Hg & Hr). rewrite Hg in E. cbn in E.
      injection E as <- ->. destruct Hr as (_ & -> & _). by rewrite pool_of_insert, decide_True. }
    split; cbn [bridgeNetwork bridgeIface currentInterfaces allocatedIPs mapper with_ips]; try done.
    + unfold pool_last. cbn. by rewrite Hpool.
    + split; [done|]. split; [done|]. unfold positions. cbn. by rewrite Hpool.
Qed.

Lemma publishes_cons (base n n' : Driver W) ports a m : publishes base n ports -> currentMappings (mapper n) !! getKey a = None ->
  currentMappings (mapper n') = <[getKey a := m]> (currentMappings (mapper n)) -> proxies (mapper n') = userlandProxy m :: proxies (mapper n) ->
  publishes base n' (ports ++ [a]).
Proof.
  intros (P1 & P2 & P3 & P4) Hfree Hcm Hpx.
  assert (getKey a ∉ getKey <$> ports) as Hnew.
  { intros (b & Hb & Hin)%list_elem_of_fmap. rewrite Hb in Hfree. destruct (P2 b Hin) as [x Hx]. congruence. }
  assert (forall b, b ∈ ports -> getKey b <> getKey a) as Hne by (intros b Hb E; apply Hnew; apply list_elem_of_fmap; eauto).
  split; [rewrite fmap_app; apply NoDup_app; split; [done|]; split; [set_solver|apply NoDup_singleton]|]. split; [|split].
  - intros b [Hb|Hb%list_elem_of_singleton]%elem_of_app; rewrite Hcm; [|subst b; rewrite lookup_insert_eq; by eexists].
    rewrite lookup_insert_ne by (symmetry; by apply Hne). by apply P2.
  - intros x Hx. rewrite fmap_app, not_elem_of_app in Hx. destruct Hx as [Hx Hxa]. cbn in Hxa. rewrite Hcm, lookup_insert_ne by set_solver. by apply P3.
  - rewrite Hpx, omap_app. cbn. rewrite Hcm, lookup_insert_eq. cbn. rewrite <- app_assoc. cbn.
    assert (omap (fun b => userlandProxy <$> <[getKey a:=m]> (currentMappings (mapper n)) !! getKey b) ports =
            omap (fun b => userlandProxy <$> currentMappings (mapper n) !! getKey b) ports) as ->.
    { clear -Hne. induction ports as [|b ports IH]; [done|]. cbn. rewrite lookup_insert_ne by (symmetry; apply Hne; set_solver). rewrite IH by set_solver. done. }
    rewrite P4. by rewrite Permutation_middle.
Qed.

Lemma span_AllocatePort id (base n n' : Driver W) start_err env r : start_err 9%nat = None -> span id true base n ->
  AllocatePort exec found supportsXlock ParseIP start_err [id] env n = Return (n', r) -> span id true base n'.
Proof.
  intros Hstart [S1 S2 S3 S4 S5 (i & Hi & HP & Hpos)]. unfold AllocatePort. cbn [head or_panic mbind outcome_bind].
  destruct (_ && _); [intros [= <- <-]; split; eauto|]. rewrite Hi. cbn [or_panic mbind outcome_bind]. unfold MaxAllocatedPortAttempts.
  rewrite map_attempts_once, Hstart. destruct (PortMapper.Map _ _ _ _ _ _ _ _ _) as [[m r']| |] eqn:E; [|done|done]. apply Map_effect in E.
  cbn [mbind outcome_bind]. destruct r' as [a|e]; intros [= <- <-].
  - destruct E as (Hfree & x & Hcm & Hpx). destruct (publishes_cons base n (with_mapper n m) (PortMappings i) a x HP Hfree Hcm Hpx) as (P1 & P2 & P3 & P4).
    destruct (S5 i Hi) as (I1 & I2 & I3 & I4). split; cbn [bridgeNetwork bridgeIface currentInterfaces allocatedIPs mapper with_interfaces with_mapper]; try done.
    + intros j Hj. rewrite lookup_insert_ne by done. by apply S4.
    + rewrite lookup_insert_eq. intros j Ej. injection Ej as <-. split; [done|]. split; [done|]. split; [done|]. cbn [PortMappings]. intros b [Hb|Hb%list_elem_of_singleton]%elem_of_app; [by apply I4|]. subst b.
      rewrite <- (proj1 (proj2 (proj2 HP))); [done|]. intros (b & Hb & Hin)%list_elem_of_fmap. rewrite Hb in Hfree. destruct (proj1 (proj2 HP) b Hin) as [y Hy]. congruence.
    + eexists. rewrite lookup_insert_eq. split; [done|]. cbn [PortMappings if_IP]. split; [done|]. exact Hpos.
  - destruct E as [Hcm Hpx]. apply (span_like id true base n); [by repeat split|]. split; eauto.
Qed.

(** Whoever they belong to. *)
Lemma Unmap_none ch a (s s1 : Mapper W) r x : Unmap exec found supportsXlock ch a s = Return (s1, r) -> currentMappings s !! x = None \/ x = getKey a -> currentMappings s1 !! x = None.
Proof.
  intros E Hx. apply Unmap_effect in E. destruct (currentMappings s !! getKey a) as [data|] eqn:Ea.
  - destruct E as [-> _]. destruct (decide (x = getKey a)) as [->|]; [apply lookup_delete_eq|]. rewrite lookup_delete_ne by done. by destruct Hx.
  - subst s1. by destruct Hx as [|Hx]; [|subst x].
Qed.

Lemma unmap_all_none ch l x : forall (m m' : Mapper W), currentMappings m !! x = None \/ x ∈ getKey <$> l ->
  unmap_all exec found supportsXlock ch l m = Return m' -> currentMappings m' !! x = None.
Proof.
  induction l as [|a l IH]; intros m m' Hx; cbn [unmap_all]; [intros [= <-]; destruct Hx; [done|set_solver]|].
  destruct (Unmap _ _ _ _ _ _) as [[m1 r]| |] eqn:E; [|done|done]. cbn [mbind outcome_bind]. apply IH.
  destruct Hx as [Hx|Hx]; [|cbn in Hx; apply elem_of_cons in Hx as [->|Hx]]; [left; eapply Unmap_none; eauto|left; eapply Unmap_none; eauto|by right].
Qed.

(** A release takes every port the driver lists for the container. *)
Lemma Release_takes id (n n' : Driver W) r i a : currentInterfaces n !! id = Some i -> a ∈ PortMappings i ->
  Release exec found supportsXlock [id] n = Return (n', r) -> currentMappings (mapper n') !! getKey a = None.
Proof.
  intros Hi Ha. unfold Release. cbn [head or_panic mbind outcome_bind]. rewrite Hi. destruct (unmap_all _ _ _ _ _ _) as [m| |] eqn:Em; [|done|done].
  cbn [mbind outcome_bind]. destruct (ReleaseIP _ _ _) as [[ips r']| |]; [|done|done]. cbn [mbind outcome_bind]. intros [= <- _]. cbn.
  eapply unmap_all_none, Em. right. apply list_elem_of_fmap. eauto.
Qed.

(** A release always ends. *)
Lemma Unmap_returns ch a (s : Mapper W) : pool_wf (globalMap s) -> exists s1 r, Unmap exec found supportsXlock ch a s = Return (s1, r) /\ pool_wf (globalMap s1).
Proof.
  intros Hw. unfold Unmap. destruct (currentMappings s !! getKey a) as [data|]; [|by eauto].
  destruct (getIPAndPort (container data)) as [cip cport], (getIPAndPort (host data)) as [hip hport].
  destruct (forward _ _ _ _ _ _ _ _ _ _) as [w [[]|x]]; [|by eauto]. destruct (addr_proto a) as [[pr mk]|] eqn:Ha; [|by eauto].
  destruct (getIPAndPort a) as [ip port]. assert (pr = "tcp" \/ pr = "udp") as Hpr by (destruct a; cbn in Ha; [injection Ha as <- _; auto..|done]).
  destruct (release_effect (globalMap s) (ip_arg ip) pr port Hw Hpr) as (g & Hg & Hg1 & _). cbn [globalMap with_kernel with_mappings with_proxies]. rewrite Hg. cbn. by eauto.
Qed.

Lemma unmap_all_returns ch l : forall m : Mapper W, pool_wf (globalMap m) -> exists m', unmap_all exec found supportsXlock ch l m = Return m'.
Proof.
  induction l as [|a l IH]; intros m Hw; cbn [unmap_all]; [by eauto|]. destruct (Unmap_returns ch a m Hw) as (m1 & r & -> & H1). cbn. by apply IH.
Qed.

Lemma Release_returns id (n : Driver W) k' i : currentInterfaces n !! id = Some i -> wf_net4 (bridgeNetwork n) k' -> (1 <= k')%nat -> wf_ip4 (if_IP i) ->
  Contains (bridgeNetwork n) (if_IP i) = true -> pool_wf (globalMap (mapper n)) -> exists n' r, Release exec found supportsXlock [id] n = Return (n', r).
Proof.
  intros Hi Hw Hk Hip Hc Hp. unfold Release. cbn [head or_panic mbind outcome_bind]. rewrite Hi. destruct (unmap_all_returns (chain n) (PortMappings i) _ Hp) as [m ->].
  cbn [mbind outcome_bind bridgeNetwork allocatedIPs with_mapper]. destruct (allocatedIPs n !! IPNet_String (bridgeNetwork n)) eqn:Ha.
  - destruct (ReleaseIP_effect _ k' (allocatedIPs n) (if_IP i) Hw Hk Hip Hc) as (g & -> & _); [by eexists|]. cbn. by eauto.
  - unfold ReleaseIP. rewrite Ha. cbn. by eauto.
Qed.

(** Ports that are not published stay so; those that are, are taken back. *)
Lemma unmap_all_idle ch l : forall (m m' : Mapper W), (forall a, a ∈ l -> currentMappings m !! getKey a = None) ->
  unmap_all exec found supportsXlock ch l m = Return m' -> m' = m.
Proof.
  induction l as [|a l IH]; intros m m' Hl; cbn [unmap_all]; [by intros [= <-]|]. destruct (Unmap _ _ _ _ _ _) as [[m1 r]| |] eqn:E; [|done|done].
  apply Unmap_effect in E. rewrite Hl in E by set_solver. subst m1. cbn [mbind outcome_bind]. apply IH. set_solver.
Qed.

Lemma unmap_all_published ch (base : Driver W) l : forall (n : Driver W) m', publishes base n l -> (forall a, a ∈ l -> currentMappings (mapper base) !! getKey a = None) ->
  unmap_all exec found supportsXlock ch l (mapper n) = Return m' -> currentMappings m' = currentMappings (mapper base) /\ proxies m' ≡ₚ proxies (mapper base).
Proof.
  induction l as [|a l IH]; intros n m' (P1 & P2 & P3 & P4) Hfree; cbn [unmap_all].
  { intros [= <-]. split; [apply map_eq; intros x; apply P3; set_solver|exact P4]. }
  destruct (Unmap _ _ _ _ _ _) as [[m1 r]| |] eqn:E; [|done|done]. apply Unmap_effect in E. destruct (P2 a) as [data Hd]; [set_solver|].
  rewrite Hd in E. destruct E as [Hcm Hpx]. cbn [mbind outcome_bind]. cbn in P1. apply NoDup_cons in P1 as [Ha P1].
  assert (forall b, b ∈ l -> getKey b <> getKey a) as Hne by (intros b Hb Eq; apply Ha; rewrite <- Eq; apply list_elem_of_fmap; eauto).
  change m1 with (mapper (with_mapper n m1)). apply (IH (with_mapper n m1)); [|set_solver]. split; [done|]. cbn [mapper with_mapper]. split; [|split].
  - intros b Hb. rewrite Hcm, lookup_delete_ne by (symmetry; by apply Hne). apply P2. set_solver.
  - intros x Hx. rewrite Hcm. destruct (decide (x = getKey a)) as [->|]; [rewrite lookup_delete_eq; symmetry; apply Hfree; set_solver|].
    rewrite lookup_delete_ne by done. apply P3. cbn. set_solver.
  - rewrite Hpx. apply remove_one_perm. rewrite P4. cbn. rewrite Hd. cbn. f_equiv. apply reflexive_eq. f_equal.
    rewrite Hcm. clear -Hne. induction l as [|b l IH]; [done|]. cbn. rewrite lookup_delete_ne by (symmetry; apply Hne; set_solver). rewrite IH by set_solver. done.
Qed.

Lemma ReleaseIP_positions n k' ip (g g' : networkSet) r : wf_net4 n k' -> (1 <= k')%nat -> wf_ip4 ip -> Contains n ip = true -> ReleaseIP n ip g = Return (g', r) ->
  IPAlloc.p (pool_of g' n) = IPAlloc.p (pool_of g n) ∖ {[ip_val ip - ip_val (first_ip n)]} /\ IPAlloc.last (pool_of g' n) = IPAlloc.last (pool_of g n).
Proof.
  intros Hw Hk Hip Hc E. destruct (g !! IPNet_String n) as [a|] eqn:Ha.
  - destruct (ReleaseIP_effect n k' g ip Hw Hk Hip Hc) as (g1 & E1 & Hp); [by eexists|]. rewrite E1 in E. injection E as <- <-. by rewrite Hp.
  - unfold ReleaseIP in E. rewrite Ha in E. injection E as <- <-. unfold pool_of. rewrite Ha. cbn. split; [set_solver|done].
Qed.

Lemma span_Release id live (base n n' : Driver W) r : wf_net4 (bridgeNetwork base) k -> (1 <= k)%nat -> span id live base n ->
  Release exec found supportsXlock [id] n = Return (n', r) -> span id false base n'.
Proof.
  intros Hw Hk S. pose proof S as [S1 S2 S3 S4 S5 S6]. unfold Release. cbn [head or_panic mbind outcome_bind].
  destruct (currentInterfaces n !! id) as [i|] eqn:Hi; cycle 1.
  { intros [= <- <-]. destruct live; [|exact S]. destruct S6 as (i & Hi' & _). congruence. }
  destruct (S5 i eq_refl) as (I1 & I2 & I3 & I4).
  destruct (unmap_all _ _ _ _ _ _) as [m| |] eqn:Em; [|done|done]. cbn [mbind outcome_bind bridgeNetwork allocatedIPs with_mapper].
  destruct (ReleaseIP _ _ _) as [[ips r']| |] eqn:Er; [|done|done]. cbn [mbind outcome_bind]. intros [= <- <-]. rewrite S1 in Er.
  destruct (ReleaseIP_positions _ k _ _ _ _ Hw Hk I1 I2 Er) as [Hp Hl]. fold (offset base (if_IP i)) in Hp.
  split; cbn [bridgeNetwork bridgeIface currentInterfaces allocatedIPs mapper with_ips with_mapper]; try done.
  - unfold pool_last in *. cbn. rewrite S1 in *. by rewrite Hl.
  - rewrite Hi. by intros ? [= <-].
  - unfold positions at 1. cbn. rewrite S1, Hp. destruct live.
    + destruct S6 as (i' & Hi' & HP & Hpos). injection Hi' as <-. unfold positions in Hpos at 1. rewrite S1 in Hpos.
      destruct (unmap_all_published _ _ _ _ _ HP I4 Em) as [H1 H2]. split; [done|]. split; [done|]. rewrite Hpos. set_solver.
    + destruct S6 as (H1 & H2 & H3). apply unmap_all_idle in Em as ->; [|by rewrite H1]. split; [done|]. split; [done|].
      unfold positions in H3 at 1. rewrite S1 in H3. rewrite H3. set_solver.
Qed.

(** ** What is published *)

Lemma RequestPort_explicit fuel ip pr port g g' q : RequestPort fuel ip pr port g = Return (g', Ok q) -> 0 < port -> q = port.
Proof.
  intros E Hp. unfold RequestPort in E. destruct (_ && _); [done|]. destruct (or_panic _) as [m| |]; [|done|done]. cbn [mbind outcome_bind] in E.
  apply Z.ltb_lt in Hp. rewrite Hp in E. by destruct (decide _); simplify_eq.
Qed.

Lemma Map_mapped ch start_err c hostIP port pr mk (s s1 : Mapper W) a : addr_proto c = Some (pr, mk) ->
  PortMapper.Map exec found supportsXlock ch start_err c hostIP port s = Return (s1, Ok a) ->
  exists q m, a = mk hostIP q /\ (0 < port -> q = port) /\ currentMappings s !! getKey a = None /\ currentMappings s1 = <[getKey a := m]> (currentMappings s) /\
    proxies s1 = userlandProxy m :: proxies s /\
    m = {| proto := pr; host := a; container := c;
           userlandProxy := {| px_proto := pr; px_hostIP := hostIP; px_hostPort := q; px_containerIP := (getIPAndPort c).1; px_containerPort := (getIPAndPort c).2 |} |}.
Proof.
  intros Hc E. destruct (Map_inv _ _ _ _ _ _ _ _ _ _ _ _ _ Hc E) as [(g & x & _ & _ & [=])|(g & q & Hreq & s2 & Hm & ->)].
  pose proof (Map_allocated_host _ _ _ _ _ _ _ _ Hm) as Ha. cbn [host] in Ha. subst a. unfold Map_allocated in Hm. cbn [host proto container with_pool currentMappings kernel] in Hm.
  destruct (currentMappings s !! getKey (mk hostIP q)) eqn:Ek; [done|]. destruct (getIPAndPort c) as [cip cport]. destruct (forward _ _ _ _ AddRule _ _ _ _ _ _) as [w [[]|x]]; [|done].
  destruct start_err; [by destruct (forward _ _ _ _ _ _ _ _ _ _)|]. injection Hm as <-. eexists q, _. split; [done|]. split; [|by repeat split].
  exact (RequestPort_explicit _ _ _ _ _ _ _ Hreq).
Qed.

Lemma AllocatePort_publishes id (n n' : Driver W) start_err env out :
  AllocatePort exec found supportsXlock ParseIP start_err [id] env n = Return (n', Ok out) ->
  grows id n n' /\ published_at ParseIP id n' (Env.Get env "Proto") (Env.Get env "ContainerPort") (Env.Get env "HostIP") (Env.Get env "HostPort") (Env.Get out "HostIP") (Env.Get out "HostPort").
Proof.
  unfold AllocatePort. cbn [head or_panic mbind outcome_bind]. destruct (_ && _) eqn:Hproto; [done|].
  destruct (currentInterfaces n !! id) as [i|] eqn:Hi; [|done]. cbn [or_panic mbind outcome_bind]. unfold MaxAllocatedPortAttempts.
  rewrite map_attempts_once. set (pr := Env.Get env "Proto") in *. set (mk := if String.eqb pr "tcp" then TCPAddr else UDPAddr).
  assert ((if String.eqb pr "tcp" then TCPAddr (if_IP i) (GetInt env "ContainerPort") else UDPAddr (if_IP i) (GetInt env "ContainerPort")) = mk (if_IP i) (number (Env.Get env "ContainerPort"))) as ->
    by (unfold mk; by destruct (String.eqb pr "tcp")).
  assert (addr_proto (mk (if_IP i) (number (Env.Get env "ContainerPort"))) = Some (pr, mk)) as Hc.
  { unfold mk. destruct (String.eqb pr "tcp") eqn:Et; [apply String.eqb_eq in Et; by rewrite Et|].
    destruct (String.eqb pr "udp") eqn:Eu; [apply String.eqb_eq in Eu; by rewrite Eu|done]. }
  destruct (PortMapper.Map _ _ _ _ _ _ _ _ _) as [[m [a|e]]| |] eqn:E; [|done|done|done]. cbn [mbind outcome_bind]. intros [= <- <-].
  destruct (Map_mapped _ _ _ _ _ _ _ _ _ _ Hc E) as (q & x & Ha & Hq & Hfree & Hcm & Hpx & Hx).
  assert (getIPAndPort a = (if String.eqb (Env.Get env "HostIP") "" then defaultBindingIP n else default [] (ParseIP (Env.Get env "HostIP")), q)) as Hga
    by (rewrite Ha; unfold mk; by destruct (String.eqb pr "tcp")).
  split; [split; [|split; [|split]]|].
  - intros j Hj. cbn. rewrite lookup_insert_eq. eexists. split; [done|]. cbn. rewrite Hi in Hj. injection Hj as <-. split; [done|set_solver].
  - cbn. rewrite Hcm. by apply insert_subseteq.
  - cbn. rewrite Hpx. set_solver.
  - done.
  - eexists _, a, x. split; [apply lookup_insert_eq|]. split; [cbn [PortMappings]; set_solver|].
    change (mapper _) with m. rewrite Hcm, Hpx, lookup_insert_eq, Hga. subst x. cbn [host proto container userlandProxy if_IP fst snd]. split_and!; try done; [..|set_solver|].
    + unfold shown. rewrite Hga. rewrite Ha. unfold mk, SetInt. destruct (String.eqb pr "tcp"); cbn [fst snd]; rewrite !Get_Set by done; done.
    + f_equal; unfold mk; by destruct (String.eqb pr "tcp").
Qed.

Lemma Allocate_interface id (n n' : Driver W) env : Allocate ParseIP [id] [] n = Return (n', Ok env) ->
  exists ip, currentInterfaces n' !! id = Some {| if_IP := ip; PortMappings := [] |} /\ Env.Get env "IP" = IP_String ip.
Proof.
  intros E. apply Allocate_ok in E as (? & ip & ips & [= <-] & _ & -> & Hip & _). exists ip. cbn. by rewrite lookup_insert_eq.
Qed.

End Lease.
