(* ===== verification/Startup.v ===== *)
(** * Starting a container

    daemon/container.go, from [Start] to [waitForStart], with
    daemon/network_settings.go, pkg/networkfs/etchosts and what daemon/utils.go
    and utils/utils.go give to it.  A start runs through the volumes
    (Volumes.v), the bridge driver (Bridge.v), the links (Links.v) and the
    monitor's first turn (Monitor.v), and cleans up when one of them fails.

    The containers are shared: a container may join the network of another,
    take its volumes and link to it.  The file system and the drivers are
    [VolumeHost] and [StartHost]. *)

From stdpp Require Import base gmap list strings.
From Stdlib Require Import ZArith Lia Ascii.
From S2P Require Import Prelude GoStrings GoPath GoSort GoState GoNet Env Parsers State Iptables PortMapper Bridge RunConfig Links Resolv Symlink Volumes.

Local Open Scope Z_scope.

(** ** Data *)

Record NetworkSettings := { IPAddress : string; IPPrefixLen : Z; Gateway : string; Bridge : string; Ports : PortMap }.

Definition no_settings : NetworkSettings := {| IPAddress := ""; IPPrefixLen := 0; Gateway := ""; Bridge := ""; Ports := ∅ |}.

Record NetworkInterface := { if_Gateway : string; if_Bridge : string; if_IPAddress : string; if_IPPrefixLen : Z }.

Record Network := { Interface : option NetworkInterface; Mtu : Z; ContainerID : string; HostNetworking : bool }.

Record Resources := { res_Memory : Z; res_MemorySwap : Z; res_CpuShares : Z; res_Cpuset : string }.

Record Command (Dev : Type) := {
  cmd_ID : string; cmd_Privileged : bool; Rootfs : string; InitPath : string; cmd_Entrypoint : string; Arguments : list string;
  cmd_WorkingDir : string; cmd_Network : Network; cmd_Tty : bool; cmd_User : string; context : gmap string (list string); cmd_Resources : Resources;
  AllowedDevices : list Dev; AutoCreatedDevices : list Dev; cmd_CapAdd : list string; cmd_CapDrop : list string; cmd_Env : list string;
  cmd_Mounts : list Mount }.

(** What a start uses of a container; a nil map is [None]. *)
Record Container (Dev : Type) := {
  ID : string; root : string; rootfs : string; Name : string; Path : string; Args : list string; MountLabel : string; ProcessLabel : string;
  config : Config; hostConfig : HostConfig; state : State.State; Settings : NetworkSettings;
  ResolvConfPath : string; HostnamePath : string; HostsPath : string;
  Volumes : option (gmap string string); VolumesRW : option (gmap string bool);
  activeLinks : option (gmap string Link); command : option (Command Dev) }.

(** os.Open, ioutil.ReadFile: the content, or an error that says the file does
    not exist, or another one. *)
Inductive read := Content (s : string) | NoFile (e : string) | ReadFails (e : string).

Class StartHost (H Dev : Type) := {
  os_Hostname : H -> result string string;
  ReadFile : H -> string -> read;
  WriteFile : H -> string -> string -> H * result string ();
  (** [WriteHostConfig] and [toDisk]: the container as JSON, by its identifier *)
  write_hostConfig : H -> string -> HostConfig -> H * result string ();
  write_container : H -> Container Dev -> H * result string ();
  (** opening the log file for both streams *)
  open_log : H -> string -> H * result string ();
  (** [driver.Run] until the process runs, with its identifier, or fails to start *)
  driver_Run : H -> Command Dev -> H * result string Z;
  clock : H -> Z;
}.

Arguments cmd_ID {Dev} _. Arguments cmd_Privileged {Dev} _. Arguments Rootfs {Dev} _. Arguments InitPath {Dev} _. Arguments cmd_Entrypoint {Dev} _.
Arguments Arguments {Dev} _. Arguments cmd_WorkingDir {Dev} _. Arguments cmd_Network {Dev} _. Arguments cmd_Tty {Dev} _. Arguments cmd_User {Dev} _.
Arguments context {Dev} _. Arguments cmd_Resources {Dev} _. Arguments AllowedDevices {Dev} _. Arguments AutoCreatedDevices {Dev} _.
Arguments cmd_CapAdd {Dev} _. Arguments cmd_CapDrop {Dev} _. Arguments cmd_Env {Dev} _. Arguments cmd_Mounts {Dev} _.
Arguments ID {Dev} _. Arguments root {Dev} _. Arguments rootfs {Dev} _. Arguments Name {Dev} _. Arguments Path {Dev} _. Arguments Args {Dev} _.
Arguments MountLabel {Dev} _. Arguments ProcessLabel {Dev} _. Arguments config {Dev} _. Arguments hostConfig {Dev} _. Arguments state {Dev} _. Arguments Settings {Dev} _.
Arguments ResolvConfPath {Dev} _. Arguments HostnamePath {Dev} _. Arguments HostsPath {Dev} _. Arguments Volumes {Dev} _. Arguments VolumesRW {Dev} _.
Arguments activeLinks {Dev} _. Arguments command {Dev} _.

(** ** Assignments *)

Section Assignments.
Context {Dev : Type}.
Implicit Type c : Container Dev.

Definition edit c (cfg : Config) (hc : HostConfig) (st : State.State) (ns : NetworkSettings) (rp hp hs : string) (v : option (gmap string string))
    (rw : option (gmap string bool)) (al : option (gmap string Link)) (cmd : option (Command Dev)) : Container Dev :=
  {| ID := ID c; root := root c; rootfs := rootfs c; Name := Name c; Path := Path c; Args := Args c; MountLabel := MountLabel c; ProcessLabel := ProcessLabel c;
     config := cfg; hostConfig := hc; state := st; Settings := ns; ResolvConfPath := rp; HostnamePath := hp; HostsPath := hs; Volumes := v; VolumesRW := rw;
     activeLinks := al; command := cmd |}.

Definition with_config cfg c := edit c cfg (hostConfig c) (state c) (Settings c) (ResolvConfPath c) (HostnamePath c) (HostsPath c) (Volumes c) (VolumesRW c) (activeLinks c) (command c).
Definition with_hostConfig hc c := edit c (config c) hc (state c) (Settings c) (ResolvConfPath c) (HostnamePath c) (HostsPath c) (Volumes c) (VolumesRW c) (activeLinks c) (command c).
Definition with_state st c := edit c (config c) (hostConfig c) st (Settings c) (ResolvConfPath c) (HostnamePath c) (HostsPath c) (Volumes c) (VolumesRW c) (activeLinks c) (command c).
Definition with_settings ns c := edit c (config c) (hostConfig c) (state c) ns (ResolvConfPath c) (HostnamePath c) (HostsPath c) (Volumes c) (VolumesRW c) (activeLinks c) (command c).
Definition with_paths rp hp hs c := edit c (config c) (hostConfig c) (state c) (Settings c) rp hp hs (Volumes c) (VolumesRW c) (activeLinks c) (command c).
Definition with_vols v rw c := edit c (config c) (hostConfig c) (state c) (Settings c) (ResolvConfPath c) (HostnamePath c) (HostsPath c) v rw (activeLinks c) (command c).
Definition with_links al c := edit c (config c) (hostConfig c) (state c) (Settings c) (ResolvConfPath c) (HostnamePath c) (HostsPath c) (Volumes c) (VolumesRW c) al (command c).
Definition with_command cmd c := edit c (config c) (hostConfig c) (state c) (Settings c) (ResolvConfPath c) (HostnamePath c) (HostsPath c) (Volumes c) (VolumesRW c) (activeLinks c) cmd.

Definition GetProcessLabel c : string := if Privileged (hostConfig c) then "" else ProcessLabel c.
Definition GetMountLabel c : string := if Privileged (hostConfig c) then "" else MountLabel c.

(** The container as volumes.go sees it, and what it changes. *)
Definition volume_view (range_config : gmap string unit -> list string) c : Volumes.Container :=
  {| Volumes.basefs := rootfs c; Volumes.Volumes := Volumes c; Volumes.VolumesRW := VolumesRW c; Volumes.Binds := RunConfig.Binds (hostConfig c);
     Volumes.VolumesFrom := RunConfig.VolumesFrom (hostConfig c); Volumes.Config_Volumes := range_config (RunConfig.Volumes (config c));
     Volumes.ResolvConfPath := ResolvConfPath c; Volumes.HostnamePath := HostnamePath c; Volumes.HostsPath := HostsPath c;
     Volumes.Mounts := match command c with Some cmd => cmd_Mounts cmd | None => [] end |}.

Definition with_Mounts (m : list Mount) (cmd : Command Dev) : Command Dev :=
  {| cmd_ID := cmd_ID cmd; cmd_Privileged := cmd_Privileged cmd; Rootfs := Rootfs cmd; InitPath := InitPath cmd; cmd_Entrypoint := cmd_Entrypoint cmd;
     Arguments := Arguments cmd; cmd_WorkingDir := cmd_WorkingDir cmd; cmd_Network := cmd_Network cmd; cmd_Tty := cmd_Tty cmd; cmd_User := cmd_User cmd;
     context := context cmd; cmd_Resources := cmd_Resources cmd; AllowedDevices := AllowedDevices cmd; AutoCreatedDevices := AutoCreatedDevices cmd;
     cmd_CapAdd := cmd_CapAdd cmd; cmd_CapDrop := cmd_CapDrop cmd; cmd_Env := cmd_Env cmd; cmd_Mounts := m |}.

Definition put_view (v : Volumes.Container) c : Container Dev :=
  with_command (with_Mounts (Volumes.Mounts v) <$> command c) (with_vols (Volumes.Volumes v) (Volumes.VolumesRW v) c).

End Assignments.

(** ** Text *)

(** [utils.ReplaceOrAppendEnvValues]: the positions are those of the defaults,
    of equal names the last one. *)
Definition env_name (e : string) : string := match split2 "=" e with n :: _ => n | [] => "" end.

Fixpoint last_index (k : string) (names : list string) : option nat :=
  match names with
  | [] => None
  | n :: names => match last_index k names with Some i => Some (S i) | None => if String.eqb k n then Some 0%nat else None end
  end.

Definition replace_or_append (names : list string) (defaults : list string) (value : string) : list string :=
  match last_index (env_name value) names with
  | Some i => <[i := value]> defaults
  | None => defaults ++ [value]
  end.

Definition ReplaceOrAppendEnvValues (defaults overrides : list string) : list string :=
  foldl (replace_or_append (env_name <$> defaults)) defaults overrides.

Example ReplaceOrAppendEnvValues_test :
  ReplaceOrAppendEnvValues ["PATH=/bin"; "HOSTNAME=h"] ["A=1"; "HOSTNAME=x=y"; "A=2"; "PATH"] = ["PATH"; "HOSTNAME=x=y"; "A=1"; "A=2"].
Proof. reflexivity. Qed.

Definition DefaultPathEnv : string := "/usr/local/sbin:/usr/local/bin:/usr/sbin:/usr/bin:/sbin:/bin".

Definition createDaemonEnvironment {Dev} (c : Container Dev) (linkedEnv : list string) : list string :=
  ReplaceOrAppendEnvValues
    (["PATH=" +:+ DefaultPathEnv; "HOSTNAME=" +:+ Hostname (config c)] ++ (if Tty (config c) then ["TERM=xterm"] else []) ++ linkedEnv) (RunConfig.Env (config c)).

Definition tab : string := String "009" "".
Definition newline : string := String "010" "".

(** pkg/networkfs/etchosts *)
Definition defaultContent : gmap string string :=
  {[ "localhost" := "127.0.0.1"; "localhost ip6-localhost ip6-loopback" := "::1"; "ip6-localnet" := "fe00::0"; "ip6-mcastprefix" := "ff00::0";
     "ip6-allnodes" := "ff02::1"; "ip6-allrouters" := "ff02::2" ]}.

Definition hosts_line '((hosts, ip) : string * string) : string := ip +:+ tab +:+ hosts +:+ newline.

Definition hosts_content (range_hosts : gmap string string -> list (string * string)) (IP hostname domainname : string) (extraContent : gmap string string) : string :=
  (if negb (String.eqb IP "") then
     if negb (String.eqb domainname "") then IP +:+ tab +:+ hostname +:+ "." +:+ domainname +:+ " " +:+ hostname +:+ newline
     else IP +:+ tab +:+ hostname +:+ newline
   else "") +:+ String.concat "" (hosts_line <$> range_hosts defaultContent) +:+ String.concat "" (hosts_line <$> range_hosts extraContent).

(** The file part of [path.Split]. *)
Definition path_file (p : string) : string := match last_index_char "/" p with Some n => drop_str (n + 1) p | None => p end.

(** [pair.Key] of an lxc option: without a dot there is no second part. *)
Definition lxc_option (kv : KeyValuePair) : outcome string :=
  part ← or_panic (split2 "." (Key kv) !! 1%nat); Return (part +:+ "=" +:+ Value kv).

Fixpoint lxc_options (l : list KeyValuePair) : outcome (list string) :=
  match l with
  | [] => Return []
  | kv :: l => o ← lxc_option kv; os ← lxc_options l; Return (o :: os)
  end.

Definition mergeLxcConfIntoOptions (lxc : list KeyValuePair) (driverConfig : gmap string (list string)) : outcome (gmap string (list string)) :=
  match lxc with
  | [] => Return driverConfig
  | _ => os ← lxc_options lxc; Return (<["lxc" := default [] (driverConfig !! "lxc") ++ os]> driverConfig)
  end.

(** ** Operations *)

(** What surrounds the daemon. *)
Class Setup (Dev W : Type) := {
  (** the bridge driver: iptables, net.ParseIP, whether the proxy of a port
      starts, the text of a job's error *)
  exec : list string -> W -> W * (string * option string);
  found : bool;
  supportsXlock : bool;
  ParseIP : string -> option IP;
  proxy_start : Driver W -> string -> Env.Env -> nat -> option string;
  job_error : bridge_error -> string;
  (** the orders in which maps are visited *)
  range_ports : PortSet -> list string;
  range_links : gmap string Link -> list string;
  range_hosts : gmap string string -> list (string * string);
  range_config : gmap string unit -> list string;
  range_volumes : gmap string string -> list (string * string);
  range_binds : gmap string Volume -> list Volume;
  (** what the daemon answers: [Get], [Children] by alias in the order of a
      visit, [RegisterLinks]; its configuration *)
  daemon_Get : string -> option string;
  daemon_Children : string -> result string (list (string * string));
  RegisterLinks : string -> HostConfig -> result string ();
  cwd : result string string;
  daemon_Dns : list string;
  daemon_DnsSearch : list string;
  DisableNetwork : bool;
  daemon_Mtu : Z;
  sysInfo : SysInfo;
  (** libcontainer's devices *)
  GetDevice : string -> string -> option Dev;
  set_path : string -> Dev -> Dev;
  DefaultAllowedDevices : list Dev;
  DefaultAutoCreatedDevices : list Dev;
}.

Section Startup.
Context {H Dev W : Type} `{VolumeHost H} `{StartHost H Dev} `{!GoSort} `{!Setup Dev W}.

(** The host, the bridge driver, the containers by identifier and the
    channels of their states. *)
Record World := { host : H; net : Driver W; containers : gmap string (Container Dev); chans : Chans }.

Abbreviation ST := (ST World).

Definition with_host h w : World := {| host := h; net := net w; containers := containers w; chans := chans w |}.
Definition with_net n w : World := {| host := host w; net := n; containers := containers w; chans := chans w |}.
Definition with_containers cs w : World := {| host := host w; net := net w; containers := cs; chans := chans w |}.
Definition with_chans cs w : World := {| host := host w; net := net w; containers := containers w; chans := cs |}.

Definition call {A} (f : H -> H * result string A) : ST A := calls (fun w => let '(h, r) := f (host w) in (with_host h w, r)).
Definition ask {A} (f : H -> result string A) : ST A := fun w => Return (w, f (host w)).
Definition attempt {A} (o : outcome A) : ST A := fun w => a ← o; Return (w, Ok a).

Definition container (id : string) : ST (Container Dev) := fun w => match containers w !! id with Some c => Return (w, Ok c) | None => Panic end.
Definition set_container (id : string) (f : Container Dev -> Container Dev) : ST () := update (fun w => with_containers (alter f id (containers w)) w).

(** A job of the bridge driver. *)
Definition job (f : Driver W -> outcome (Driver W * result bridge_error Env.Env))  : ST Env.Env := fun w =>
  '(n, r) ← f (net w); Return (with_net n w, match r with Ok e => Ok e | Err e => Err (job_error e) end).

Definition allocate_interface (id : string)  : ST Env.Env := job (Allocate ParseIP [id] []).
Definition release_interface (id : string)  : ST Env.Env := job (Release exec found supportsXlock [id]).
Definition allocate_port (id : string) (env : Env.Env)  : ST Env.Env := job (fun n => AllocatePort exec found supportsXlock ParseIP (proxy_start n id env) [id] env n).

(** The functions of volumes.go. *)
Definition in_volumes {A} (m : GoState.ST (@Volumes.World H) A) : ST A := fun w =>
  '(v, r) ← m {| Volumes.host := host w; Volumes.store := volume_view range_config <$> containers w |};
  Return ({| host := Volumes.host v; net := net w; chans := chans w;
             containers := map_imap (fun id c => Some (match Volumes.store v !! id with Some vc => put_view vc c | None => c end)) (containers w) |}, r).

Definition getResourcePath (c : Container Dev) (path : string) : ST string :=
  ask (fun h => FollowSymlinkInScope cwd (os_Lstat h) (Join [rootfs c; Join ["/"; path]]) (rootfs c)).
Definition getRootResourcePath (c : Container Dev) (path : string) : ST string :=
  ask (fun h => FollowSymlinkInScope cwd (os_Lstat h) (Join [root c; Join ["/"; path]]) (root c)).

Definition Mount (id : string) : ST () := call (fun h => Mount_container h id).
Definition Unmount (id : string) : ST () := call (fun h => Unmount_container h id).

(** *** Name servers *)

Definition or_list {A} (a b d : list A) : list A := match a with [] => match b with [] => d | _ => b end | _ => a end.

Definition nonempty {A} (l : list A) : bool := match l with [] => false | _ => true end.

Definition setupContainerDns (id : string) : ST () :=
  c ← container id;
  if negb (String.eqb (ResolvConfPath c) "") then mret ()
  else
    resolvConf ← ask (fun h => match ReadFile h "/etc/resolv.conf" with Content s => Ok s | NoFile e | ReadFails e => Err e end);
    pth ← try (getRootResourcePath c "resolv.conf");
    set_container id (with_paths (match pth with Ok p => p | Err _ => "" end) (HostnamePath c) (HostsPath c));;
    pth ← lift pth;
    let hc := hostConfig c in
    if negb (String.eqb (NetMode hc) "host") && (nonempty (Dns hc) || nonempty daemon_Dns || nonempty (DnsSearch hc) || nonempty daemon_DnsSearch) then
      let dns := or_list (Dns hc) daemon_Dns (GetNameservers resolvConf) in
      let dnsSearch := or_list (DnsSearch hc) daemon_DnsSearch (GetSearchDomains resolvConf) in
      call (fun h => WriteFile h pth (Build dns dnsSearch))
    else call (fun h => WriteFile h pth resolvConf).

(** *** The network *)

Definition releaseNetwork (id : string) : ST () :=
  c ← container id;
  if NetworkDisabled (config c) then mret ()
  else try (release_interface id);; set_container id (with_settings no_settings).

(** The loop of [allocatePort]. *)
Fixpoint allocate_bindings (id : string) (port : string) (binding : list PortBinding) : ST (list PortBinding) :=
  match binding with
  | [] => mret []
  | b :: binding =>
      let env := Env.Set_ (Env.Set_ (Env.Set_ (Env.Set_ [] "HostIP" (HostIp b)) "HostPort" (HostPort b)) "Proto" (Proto port)) "ContainerPort" (Port_ port) in
      r ← try (allocate_port id env);
      match r with
      | Err e => try (release_interface id);; throw e
      | Ok portEnv =>
          rest ← allocate_bindings id port binding;
          mret ({| HostIp := Env.Get portEnv "HostIP"; HostPort := Env.Get portEnv "HostPort" |} :: rest)
      end
  end.

Definition allocatePort (id : string) (bindings : PortMap) (port : string) : ST PortMap :=
  c ← container id;
  let binding := default [] (bindings !! port) in
  let binding := if PublishAllPorts (hostConfig c) && negb (nonempty binding) then [{| HostIp := ""; HostPort := "" |}] else binding in
  binding ← allocate_bindings id port binding;
  mret (<[port := binding]> bindings).

Fixpoint allocate_ports (id : string) (bindings : PortMap) (ports : list string) : ST PortMap :=
  match ports with
  | [] => mret bindings
  | p :: ports => bindings ← allocatePort id bindings p; allocate_ports id bindings ports
  end.

Definition set_ports (ports : option PortSet) (specs : list string) (c : Config) : Config :=
  {| Hostname := Hostname c; Domainname := Domainname c; User := User c; Memory := Memory c; MemorySwap := MemorySwap c; CpuShares := CpuShares c;
     Cpuset := Cpuset c; AttachStdin := AttachStdin c; AttachStdout := AttachStdout c; AttachStderr := AttachStderr c; PortSpecs := specs; ExposedPorts := ports;
     Tty := Tty c; OpenStdin := OpenStdin c; StdinOnce := StdinOnce c; RunConfig.Env := RunConfig.Env c; Cmd := Cmd c; Image := Image c;
     RunConfig.Volumes := RunConfig.Volumes c; WorkingDir := WorkingDir c; Entrypoint := Entrypoint c; NetworkDisabled := NetworkDisabled c; OnBuild := OnBuild c |}.

Definition set_names (hostname domainname : string) (disabled : bool) (c : Config) : Config :=
  {| Hostname := hostname; Domainname := domainname; User := User c; Memory := Memory c; MemorySwap := MemorySwap c; CpuShares := CpuShares c;
     Cpuset := Cpuset c; AttachStdin := AttachStdin c; AttachStdout := AttachStdout c; AttachStderr := AttachStderr c; PortSpecs := PortSpecs c; ExposedPorts := ExposedPorts c;
     Tty := Tty c; OpenStdin := OpenStdin c; StdinOnce := StdinOnce c; RunConfig.Env := RunConfig.Env c; Cmd := Cmd c; Image := Image c;
     RunConfig.Volumes := RunConfig.Volumes c; WorkingDir := WorkingDir c; Entrypoint := Entrypoint c; NetworkDisabled := disabled; OnBuild := OnBuild c |}.

Definition set_limits (memory swap : Z) (dir : string) (c : Config) : Config :=
  {| Hostname := Hostname c; Domainname := Domainname c; User := User c; Memory := memory; MemorySwap := swap; CpuShares := CpuShares c;
     Cpuset := Cpuset c; AttachStdin := AttachStdin c; AttachStdout := AttachStdout c; AttachStderr := AttachStderr c; PortSpecs := PortSpecs c; ExposedPorts := ExposedPorts c;
     Tty := Tty c; OpenStdin := OpenStdin c; StdinOnce := StdinOnce c; RunConfig.Env := RunConfig.Env c; Cmd := Cmd c; Image := Image c;
     RunConfig.Volumes := RunConfig.Volumes c; WorkingDir := dir; Entrypoint := Entrypoint c; NetworkDisabled := NetworkDisabled c; OnBuild := OnBuild c |}.

Definition set_bindings (b : PortMap) (hc : HostConfig) : HostConfig :=
  {| RunConfig.Binds := RunConfig.Binds hc; ContainerIDFile := ContainerIDFile hc; LxcConf := LxcConf hc; Privileged := Privileged hc; PortBindings := b;
     RunConfig.Links := RunConfig.Links hc; PublishAllPorts := PublishAllPorts hc; Dns := Dns hc; DnsSearch := DnsSearch hc; RunConfig.VolumesFrom := RunConfig.VolumesFrom hc;
     Devices := Devices hc; NetMode := NetMode hc; CapAdd := CapAdd hc; CapDrop := CapDrop hc; Restart := Restart hc |}.

(** [migratePortMappings]; no specifications are a nil slice. *)
Definition migratePortMappings (cfg : Config) (hc : HostConfig) : result string (Config * HostConfig) :=
  match PortSpecs cfg with
  | [] => Ok (cfg, hc)
  | specs =>
      '(ports, bindings) ← ParsePortSpecs (fun s => bool_decide (is_Some (ParseIP s))) specs;
      Ok (set_ports (Some (ports ∪ default ∅ (ExposedPorts cfg))) [] cfg, if decide (bindings = ∅) then hc else set_bindings bindings hc)
  end.

Definition allocateNetwork (id : string) : ST () :=
  c ← container id;
  if NetworkDisabled (config c) || IsContainer (NetMode (hostConfig c)) || IsHost (NetMode (hostConfig c)) then mret ()
  else
    env ← allocate_interface id;
    (if nonempty (PortSpecs (config c)) then
       '(cfg, hc) ← lift (migratePortMappings (config c) (hostConfig c));
       set_container id (fun c => with_hostConfig hc (with_config cfg c));;
       call (fun h => write_hostConfig h id hc)
     else mret ());;
    c ← container id;
    let portSpecs := default ∅ (ExposedPorts (config c)) in
    bindings ← allocate_ports id (PortBindings (hostConfig c)) (range_ports portSpecs);
    try (call (fun h => write_hostConfig h id (hostConfig c)));;
    set_container id (with_settings {| IPAddress := Env.Get env "IP"; IPPrefixLen := GetInt env "IPPrefixLen"; Gateway := Env.Get env "Gateway"; Bridge := Env.Get env "Bridge"; Ports := bindings |}).

(** *** Host names *)

Definition buildHostnameFile (id : string) : ST () :=
  c ← container id;
  hostnamePath ← getRootResourcePath c "hostname";
  set_container id (with_paths (ResolvConfPath c) hostnamePath (HostsPath c));;
  let cfg := config c in
  call (fun h => WriteFile h hostnamePath (if negb (String.eqb (Domainname cfg) "") then Hostname cfg +:+ "." +:+ Domainname cfg +:+ newline else Hostname cfg +:+ newline)).

Fixpoint linked_hosts (l : list (string * string)) (extraContent : gmap string string) : ST (gmap string string) :=
  match l with
  | [] => mret extraContent
  | (linkAlias, cid) :: l => child ← container cid; linked_hosts l (<[path_file linkAlias := IPAddress (Settings child)]> extraContent)
  end.

Definition buildHostnameAndHostsFiles (id IP : string) : ST () :=
  buildHostnameFile id;;
  c ← container id;
  hostsPath ← getRootResourcePath c "hosts";
  set_container id (with_paths (ResolvConfPath c) (HostnamePath c) hostsPath);;
  children ← lift (daemon_Children (Name c));
  extraContent ← linked_hosts children ∅;
  call (fun h => WriteFile h hostsPath (hosts_content range_hosts IP (Hostname (config c)) (Domainname (config c)) extraContent)).

Definition getNetworkedContainer (c : Container Dev) : ST (string * Container Dev) :=
  match split2 ":" (NetMode (hostConfig c)) with
  | p :: rest =>
      if String.eqb p "container" then
        match rest with
        | [] => panic
        | name :: _ =>
            match daemon_Get name with
            | None => throw ("no such container to join network: " +:+ name)
            | Some cid =>
                nc ← container cid;
                if IsRunning (state nc) then mret (cid, nc) else throw ("cannot join network of a non running container: " +:+ name)
            end
        end
      else throw "network mode not set to container"
  | [] => throw "network mode not set to container"
  end.

Definition host_name (id : string) : ST () :=
  r ← try (ask os_Hostname);
  let name := match r with Ok s => s | Err _ => "" end in
  set_container id (fun c => with_config (set_names name (Domainname (config c)) (NetworkDisabled (config c)) (config c)) c);;
  lift r;;
  match split2 "." name with
  | [h; d] => set_container id (fun c => with_config (set_names h d (NetworkDisabled (config c)) (config c)) c)
  | _ => mret ()
  end.

Definition initializeNetworking (id : string) : ST () :=
  c ← container id;
  if IsHost (NetMode (hostConfig c)) then
    host_name id;;
    w ← get_state;
    match ReadFile (host w) "/etc/hosts" with
    | NoFile _ => buildHostnameAndHostsFiles id ""
    | ReadFails e => throw e
    | Content content =>
        buildHostnameFile id;;
        c ← container id;
        hostsPath ← getRootResourcePath c "hosts";
        set_container id (with_paths (ResolvConfPath c) (HostnamePath c) hostsPath);;
        call (fun h => WriteFile h hostsPath content)
    end
  else if IsContainer (NetMode (hostConfig c)) then
    '(_, nc) ← getNetworkedContainer c;
    set_container id (fun c => with_config (set_names (Hostname (config nc)) (Domainname (config nc)) (NetworkDisabled (config c)) (config c))
                                 (with_paths (ResolvConfPath nc) (HostnamePath c) (HostsPath nc) c))
  else if DisableNetwork then
    set_container id (fun c => with_config (set_names (Hostname (config c)) (Domainname (config c)) true (config c)) c);;
    buildHostnameAndHostsFiles id "127.0.1.1"
  else
    allocateNetwork id;;
    c ← container id;
    buildHostnameAndHostsFiles id (IPAddress (Settings c)).

(** *** Configuration *)

Definition limits (memory swap : Z) : Z * Z :=
  let memory := if (0 <? memory) && negb (MemoryLimit sysInfo) then 0 else memory in
  (memory, if (0 <? memory) && negb (SwapLimit sysInfo) then -1 else swap).

Definition verifyDaemonSettings (id : string) : ST () :=
  set_container id (fun c => let '(m, s) := limits (Memory (config c)) (MemorySwap (config c)) in with_config (set_limits m s (WorkingDir (config c)) (config c)) c).

Definition setupWorkingDirectory (id : string) : ST () :=
  c ← container id;
  if String.eqb (WorkingDir (config c)) "" then mret ()
  else
    let dir := Clean (WorkingDir (config c)) in
    set_container id (fun c => with_config (set_limits (Memory (config c)) (MemorySwap (config c)) dir (config c)) c);;
    pth ← getResourcePath c dir;
    w ← get_state;
    match os_Stat (host w) pth with
    | Missing _ => call (fun h => os_MkdirAll h pth)
    | StatFails e => throw e
    | Found isdir => if isdir : bool then mret () else throw ("Cannot mkdir: " +:+ dir +:+ " is not a directory")
    end.

(** *** Links *)

Definition set_link (id alias : string) (l : Link) : ST () := set_container id (fun c => with_links (<[alias := l]> <$> activeLinks c) c).

Definition on_link (id alias : string) {A} (f : Link -> Driver W -> outcome (Driver W * Link * A)) : ST A :=
  c ← container id;
  l ← attempt (or_panic (activeLinks c ≫= lookup alias));
  w ← get_state;
  '(n, l, a) ← attempt (f l (net w));
  update (with_net n);;
  set_link id alias l;;
  mret a.

Definition link_job := bridge_link_job exec found supportsXlock.

Definition Enable_link (id alias : string) : ST () :=
  e ← on_link id alias (Enable link_job);
  match e with Some e => throw (job_error e) | None => mret () end.

Definition Disable_link (id alias : string) : ST () :=
  on_link id alias (fun l n => '(n, l) ← Disable link_job l n; Return (n, l, ())).

Definition disable_links (id : string) : ST () :=
  c ← container id;
  match activeLinks c with None => mret () | Some m => for_each (Disable_link id) (range_links m) end.

Definition rollback (id : string) : ST () := disable_links id;; set_container id (with_links None).

Fixpoint link_children (id : string) (children : list (string * string)) : ST (list string) :=
  match children with
  | [] => mret []
  | (linkAlias, cid) :: children =>
      child ← container cid;
      if negb (IsRunning (state child)) then throw ("Cannot link to a non running container: " +:+ Name child +:+ " AS " +:+ linkAlias)
      else
        c ← container id;
        let link := NewLink (IPAddress (Settings c)) (IPAddress (Settings child)) linkAlias (RunConfig.Env (config child)) (range_ports (default ∅ (ExposedPorts (config child)))) in
        set_link id (Alias link) link;;
        r ← try (Enable_link id (Alias link));
        match r with
        | Err e => rollback id;; throw e
        | Ok _ =>
            vars ← on_link id (Alias link) (fun l n => '(l, vars) ← ToEnv l; Return (n, l, vars));
            rest ← link_children id children;
            mret (vars ++ rest)
        end
  end.

Definition setupLinkedContainers (id : string) : ST (list string) :=
  c ← container id;
  children ← lift (daemon_Children (Name c));
  if nonempty children then set_container id (with_links (Some ∅));; link_children id children else mret [].

(** *** The command *)

Fixpoint user_devices (l : list DeviceMapping) : outcome (list Dev) :=
  match l with
  | [] => Return []
  | d :: l => device ← or_panic (GetDevice (PathOnHost d) (CgroupPermissions d)); devices ← user_devices l; Return (set_path (PathInContainer d) device :: devices)
  end.

Definition command_network (c : Container Dev) : ST Network :=
  let en := {| Interface := None; Mtu := daemon_Mtu; ContainerID := ""; HostNetworking := false |} in
  match split2 ":" (NetMode (hostConfig c)) with
  | [] => panic
  | mode :: _ =>
      if String.eqb mode "none" then mret en
      else if String.eqb mode "host" then mret {| Interface := None; Mtu := daemon_Mtu; ContainerID := ""; HostNetworking := true |}
      else if String.eqb mode "bridge" || String.eqb mode "" then
        let s := Settings c in
        mret (if negb (NetworkDisabled (config c)) then
                {| Interface := Some {| if_Gateway := Gateway s; if_Bridge := Bridge s; if_IPAddress := IPAddress s; if_IPPrefixLen := IPPrefixLen s |};
                   Mtu := daemon_Mtu; ContainerID := ""; HostNetworking := false |}
              else en)
      else if String.eqb mode "container" then
        '(cid, _) ← getNetworkedContainer c;
        mret {| Interface := None; Mtu := daemon_Mtu; ContainerID := cid; HostNetworking := false |}
      else throw ("invalid network mode: " +:+ NetMode (hostConfig c))
  end.

Definition populateCommand (id : string) (env : list string) : ST () :=
  c ← container id;
  en ← command_network c;
  userSpecifiedDevices ← attempt (user_devices (Devices (hostConfig c)));
  context ← attempt (mergeLxcConfIntoOptions (LxcConf (hostConfig c)) {[ "process_label" := [GetProcessLabel c]; "mount_label" := [GetMountLabel c] ]});
  let cfg := config c in
  let resources := {| res_Memory := Memory cfg; res_MemorySwap := MemorySwap cfg; res_CpuShares := CpuShares cfg; res_Cpuset := Cpuset cfg |} in
  set_container id (with_command (Some
    {| cmd_ID := ID c; cmd_Privileged := Privileged (hostConfig c); Rootfs := rootfs c; InitPath := "/.dockerinit"; cmd_Entrypoint := Path c; Arguments := Args c;
       cmd_WorkingDir := WorkingDir cfg; cmd_Network := en; cmd_Tty := Tty cfg; cmd_User := User cfg; context := context; cmd_Resources := resources;
       AllowedDevices := DefaultAllowedDevices ++ userSpecifiedDevices; AutoCreatedDevices := DefaultAutoCreatedDevices ++ userSpecifiedDevices;
       cmd_CapAdd := CapAdd (hostConfig c); cmd_CapDrop := CapDrop (hostConfig c); cmd_Env := env; cmd_Mounts := [] |})).

(** *** Start *)

Definition cleanup (id : string) : ST () :=
  releaseNetwork id;; disable_links id;; try (Unmount id);; mret ().

Definition startLoggingToDisk (id : string) : ST () :=
  c ← container id;
  pth ← getRootResourcePath c (ID c +:+ "-json.log");
  call (fun h => open_log h pth);; call (fun h => open_log h pth).

(** The first turn of the monitor: the callback of the driver, or the error
    before which the monitor has closed the container. *)
Definition monitor_callback (id : string) (pid : Z) : ST () :=
  w ← get_state; c ← container id;
  '(st, cs) ← attempt (SetRunning (clock (host w)) pid (state c) (chans w));
  set_container id (with_state st);;
  update (with_chans cs);;
  c ← container id;
  try (call (fun h => write_container h c));; mret ().

Definition monitor_Close (id : string) : ST () :=
  cleanup id;; c ← container id; try (call (fun h => write_container h c));; mret ().

Definition waitForStart (id : string) : ST () :=
  r ← try (startLoggingToDisk id;;
           c ← container id;
           cmd ← attempt (or_panic (command c));
           call (fun h => driver_Run h cmd));
  match r with
  | Ok pid => monitor_callback id pid
  | Err e => monitor_Close id;; throw e
  end.

Definition on_error {A} (m : ST ()) (body : ST A) : ST A := fun w =>
  '(w, r) ← body w;
  match r with Ok a => Return (w, Ok a) | Err e => '(w, _) ← m w; Return (w, Err e) end.

Definition start_steps (id : string) : ST () :=
  setupContainerDns id;;
  Mount id;;
  initializeNetworking id;;
  verifyDaemonSettings id;;
  in_volumes (prepareVolumesForContainer range_volumes range_binds daemon_Get cwd id);;
  linkedEnv ← setupLinkedContainers id;
  setupWorkingDirectory id;;
  c ← container id;
  populateCommand id (createDaemonEnvironment c linkedEnv);;
  in_volumes (setupMountsForContainer range_volumes id);;
  waitForStart id.

Definition Start (id : string) : ST () :=
  c ← container id;
  if IsRunning (state c) then mret () else on_error (cleanup id) (start_steps id).

(** The job start. *)

Definition make_source (bind : string) : ST () :=
  let source := match split ":" bind with s :: _ => s | [] => "" end in
  w ← get_state;
  match os_Stat (host w) source with
  | Missing _ => rephrase (fun e => "Could not create local directory '" +:+ source +:+ "' for bind mount: " +:+ e +:+ "!") (call (fun h => os_MkdirAll h source))
  | _ => mret ()
  end.

Definition setHostConfig (id : string) (hc : HostConfig) : ST () :=
  for_each make_source (RunConfig.Binds hc);;
  lift (RegisterLinks id hc);;
  set_container id (with_hostConfig hc);;
  c ← container id;
  try (call (fun h => write_container h c));; mret ().

(** [hc] is the configuration the job's environment holds, if it holds any. *)
Definition ContainerStart (job_name : string) (args : list string) (hc : option HostConfig) : ST () :=
  match args with
  | [] => throw ("Usage: " +:+ job_name +:+ " container_id")
  | name :: _ =>
      match daemon_Get name with
      | None => throw ("No such container: " +:+ name)
      | Some id =>
          c ← container id;
          if IsRunning (state c) then throw "Container already started"
          else
            (match hc with Some hc => setHostConfig id hc | None => mret () end);;
            rephrase (fun e => "Cannot start container " +:+ name +:+ ": " +:+ e) (Start id)
      end
  end.

End Startup.
