(* ===== verification/Started.v ===== *)
(** * What a start leaves behind

    The theorems on Startup.v: a start that fails gives back what it took of
    the network and of the storage driver; a start that succeeds publishes
    what the container's settings say.  And what a failing start takes from
    others. *)

From stdpp Require Import base gmap gmultiset list strings.
From Stdlib Require Import ZArith Lia Ascii.
From S2P Require Import Prelude GoStrings GoPath GoSort GoState GoNet NetUtils Ports IPAlloc Env Parsers State Iptables PortMapper Bridge Lease RunConfig Links Resolv Symlink Volumes Startup.

Local Open Scope Z_scope.

(** The mounts of a container's file system; nothing but the driver changes
    their number. *)
Class MountLaws (H Dev : Type) `{VolumeHost H, StartHost H Dev} := {
  mounts : H -> string -> Z;
  mounts_nonneg : forall h j, 0 <= mounts h j;
  mount_adds : forall h i j, mounts (Mount_container h i).1 j =
    mounts h j + (if decide (j = i) then match (Mount_container h i).2 with Ok _ => 1 | Err _ => 0 end else 0);
  unmount_takes : forall h i j, mounts (Unmount_container h i).1 j = if decide (j = i) then 0 `max` (mounts h j - 1) else mounts h j;
  MkdirAll_mounts : forall h p j, mounts (os_MkdirAll h p).1 j = mounts h j;
  Create_mounts : forall h p j, mounts (os_Create h p).1 j = mounts h j;
  CopyWithTar_mounts : forall h p q j, mounts (CopyWithTar h p q).1 j = mounts h j;
  Chown_mounts : forall h p u g j, mounts (os_Chown h p u g).1 j = mounts h j;
  Chmod_mounts : forall h p m j, mounts (os_Chmod h p m).1 j = mounts h j;
  volumes_mounts : forall h j, mounts (volumes_Create h).1 j = mounts h j;
  volume_Get_mounts : forall h p j, mounts (driver_Get h p).1 j = mounts h j;
  WriteFile_mounts : forall h p t j, mounts (WriteFile h p t).1 j = mounts h j;
  hostConfig_mounts : forall h i c j, mounts (write_hostConfig h i c).1 j = mounts h j;
  container_mounts : forall h (c : Startup.Container Dev) j, mounts (write_container h c).1 j = mounts h j;
  log_mounts : forall h p j, mounts (open_log h p).1 j = mounts h j;
  Run_mounts : forall h (c : Command Dev) j, mounts (driver_Run h c).1 j = mounts h j }.

Ltac same_number :=
  intros; rewrite ?MkdirAll_mounts, ?Create_mounts, ?CopyWithTar_mounts, ?Chown_mounts, ?Chmod_mounts, ?volumes_mounts, ?volume_Get_mounts, ?WriteFile_mounts,
    ?hostConfig_mounts, ?container_mounts, ?log_mounts, ?Run_mounts; reflexivity.

Section Started.
Context {H Dev W : Type} `{HV : VolumeHost H} `{HS : StartHost H Dev} `{!GoSort} `{!Setup Dev W} `{HM : !MountLaws H Dev}.

Abbreviation World := (@Startup.World H Dev W).

(** ** Volumes keep the mounts *)

Definition same_mounts (w w' : @Volumes.World H) : Prop := forall j, mounts (Dev := Dev) (Volumes.host w') j = mounts (Dev := Dev) (Volumes.host w) j.

#[local] Instance same_mounts_order : PreOrder same_mounts.
Proof. split; [by intros w|]. intros w1 w2 w3 E1 E2 j. by rewrite E2, E1. Qed.

Lemma volumes_call {A} (f : H -> H * result string A) : (forall h j, mounts (Dev := Dev) (f h).1 j = mounts (Dev := Dev) h j) -> keeps same_mounts (Volumes.call f).
Proof. intros Hf. apply keeps_calls. intros w j. specialize (Hf (Volumes.host w) j). by destruct (f (Volumes.host w)). Qed.

Lemma volumes_ask {A} (f : H -> result string A) : keeps same_mounts (Volumes.ask f).
Proof. by intros w w' r [= <- <-]. Qed.

Lemma volumes_container id : keeps same_mounts (Volumes.container id).
Proof. intros w w' r. unfold Volumes.container. destruct (_ !! _); [by intros [= <- <-]|done]. Qed.

Lemma volumes_set id f : keeps same_mounts (Volumes.set_container id f).
Proof. by apply keeps_update. Qed.

Hint Resolve volumes_ask volumes_container volumes_set : keeps.
Hint Extern 1 (keeps same_mounts (Volumes.call _)) => apply volumes_call; same_number : keeps.

Lemma createIfNotExists_keeps p d : keeps same_mounts (createIfNotExists p d).
Proof. unfold createIfNotExists. keep. Qed.

Hint Resolve createIfNotExists_keeps : keeps.

Lemma put_volume_keeps id p x : keeps same_mounts (put_volume id p x).
Proof. unfold put_volume. keep. Qed.

Lemma put_rw_keeps id p x : keeps same_mounts (put_rw id p x).
Proof. unfold put_rw. keep. Qed.

Hint Resolve put_volume_keeps put_rw_keeps : keeps.

Lemma take_volume_keeps id cid mode v : keeps same_mounts (take_volume cwd id cid mode v).
Proof. unfold take_volume, Volumes.getResourcePath, FollowSymlinkInScope_. keep. Qed.

Hint Resolve take_volume_keeps : keeps.

(** A container that is mounted for its volumes is unmounted afterwards. *)
Lemma applyVolumesFrom_keeps id specs : keeps same_mounts (applyVolumesFrom_loop range_volumes daemon_Get cwd id specs).
Proof.
  induction specs as [|spec specs IH]; cbn [applyVolumesFrom_loop]; [keep|]. apply keep_bind; [typeclasses eauto|keep|]. intros [name mode].
  destruct (daemon_Get name) as [cid|]; [|keep]. intros w. apply leads_bind, leads_rephrase. apply leads_calls.
  destruct (Mount_container (Volumes.host w) cid) as [h [[]|e]] eqn:E; cbn [fst snd].
  - apply leads_deferring. eapply leads_keeps; [|intros w1 r1 H1].
    { instantiate (1 := same_mounts). keep. }
    apply leads_bind, leads_try, leads_calls. cbn [fst snd]. destruct (Unmount_container (Volumes.host w1) cid) as [h2 r2] eqn:E2. cbn [fst snd].
    apply leads_ret. intros j. cbn [Volumes.host].
    pose proof (mount_adds (Volumes.host w) cid j) as Hm. rewrite E in Hm. pose proof (unmount_takes (Volumes.host w1) cid j) as Hu. rewrite E2 in Hu.
    specialize (H1 j). cbn in H1, Hm, Hu. rewrite Hu, H1, Hm. pose proof (mounts_nonneg (Volumes.host w) j). destruct (decide (j = cid)); lia.
  - intros j. cbn [Volumes.host]. pose proof (mount_adds (Volumes.host w) cid j) as Hm. rewrite E in Hm. cbn in Hm. rewrite Hm. destruct (decide _); lia.
Qed.

Hint Resolve applyVolumesFrom_keeps : keeps.

Lemma initialize_keeps id v : keeps same_mounts (initialize cwd id v).
Proof. unfold initialize, createVolumeHostPath, FollowSymlinkInScope_, copyExistingContents, copyOwnership. keep. Qed.

Hint Resolve initialize_keeps : keeps.

Lemma prepareVolumes_keeps id : keeps same_mounts (prepareVolumesForContainer range_volumes range_binds daemon_Get cwd id).
Proof. unfold prepareVolumesForContainer, applyVolumesFrom, createVolumes. keep. Qed.

Lemma setupMounts_keeps id : keeps same_mounts (setupMountsForContainer range_volumes id).
Proof. unfold setupMountsForContainer. keep. Qed.

Hint Resolve prepareVolumes_keeps setupMounts_keeps : keeps.

(** ** Steps that only prepare *)

(** What they leave of a container as it is. *)
Definition face (c : Startup.Container Dev) : State.State * bool * list string * NetworkSettings * option PortSet * HostConfig :=
  (state c, NetworkDisabled (config c), PortSpecs (config c), Settings c, ExposedPorts (config c), hostConfig c).

Definition alike (o o' : option (Startup.Container Dev)) : Prop := face <$> o' = face <$> o.

#[local] Instance alike_order : PreOrder alike.
Proof. split; [by intros o|]. intros o1 o2 o3 E1 E2. unfold alike in *. congruence. Qed.

Lemma alike_there o o' c : alike o o' -> o = Some c -> exists c', o' = Some c' /\ face c' = face c.
Proof. unfold alike. intros E ->. destruct o' as [c'|]; [|done]. injection E as E. exists c'. split; [done|]. unfold face. congruence. Qed.

Definition calm (w w' : World) : Prop :=
  net_like (net w) (net w') /\ (forall j, mounts (Dev := Dev) (host w') j = mounts (Dev := Dev) (host w) j) /\ (forall j, alike (containers w !! j) (containers w' !! j)).

#[local] Instance calm_order : PreOrder calm.
Proof.
  split; [intros w; split; [done|split; [done|intros j; reflexivity]]|]. intros w1 w2 w3 (A1 & A2 & A3) (B1 & B2 & B3). split; [by etrans|]. split.
  - intros j. by rewrite B2, A2.
  - intros j. etrans; [apply A3|apply B3].
Qed.

Lemma leads_container id (w : World) (Q : World -> result string (Startup.Container Dev) -> Prop) :
  (forall c, containers w !! id = Some c -> Q w (Ok c)) -> leads (container id) w Q.
Proof. intros HQ w' r. unfold container. destruct (containers w !! id) as [c|]; [|done]. intros [= <- <-]. by apply HQ. Qed.

Lemma leads_attempt {A} (o : outcome A) (w : World) (Q : World -> result string A -> Prop) : (forall a, o = Return a -> Q w (Ok a)) -> leads (attempt o) w Q.
Proof. intros HQ w' r. unfold attempt. destruct o as [a| |]; [|done|done]. intros [= <- <-]. by apply HQ. Qed.

Lemma calm_call {A} (f : H -> H * result string A) : (forall h j, mounts (Dev := Dev) (f h).1 j = mounts (Dev := Dev) h j) -> keeps calm (call f).
Proof.
  intros Hf. apply keeps_calls. intros w. specialize (Hf (host w)). destruct (f (host w)) as [h r]. split; [done|]. split; [exact Hf|]. intros j. reflexivity.
Qed.

Lemma calm_ask {A} (f : H -> result string A) : keeps calm (ask f).
Proof. by intros w w' r [= <- <-]. Qed.

Lemma calm_attempt {A} (o : outcome A) : keeps calm (attempt o).
Proof. intros w w' r. unfold attempt. destruct o; [|done|done]. by intros [= <- <-]. Qed.

Lemma calm_container id : keeps calm (container id).
Proof. intros w w' r. unfold container. destruct (_ !! _); [by intros [= <- <-]|done]. Qed.

Lemma calm_set id f : (forall c, face (f c) = face c) -> keeps calm (set_container id f).
Proof.
  intros Hf. apply keeps_update. intros w. split; [done|]. split; [done|]. intros j. cbn. destruct (decide (j = id)) as [->|Hne].
  - rewrite lookup_alter_eq. destruct (containers w !! id) as [c|]; [|done]. unfold alike. cbn. by rewrite Hf.
  - by rewrite lookup_alter_ne.
Qed.

Lemma calm_volumes {A} (m : GoState.ST (@Volumes.World H) A) : keeps same_mounts m -> keeps calm (in_volumes m).
Proof.
  intros Hm w w' r. unfold in_volumes. destruct (m _) as [[v r']| |] eqn:E; [|done|done]. cbn. intros [= <- <-]. apply Hm in E. cbn in E.
  split; [done|]. split; [exact E|]. intros j. cbn. rewrite map_lookup_imap. destruct (containers w !! j) as [c|]; [|done]. cbn. by destruct (_ !! j).
Qed.

Hint Resolve calm_ask calm_attempt calm_container : keeps.
Hint Extern 1 (keeps calm (call _)) => apply calm_call; same_number : keeps.
Hint Extern 1 (keeps calm (set_container _ _)) => apply calm_set; by intros : keeps.
Hint Extern 1 (keeps calm (in_volumes _)) => apply calm_volumes; eauto with keeps : keeps.

Lemma setupContainerDns_calm id : keeps calm (setupContainerDns id).
Proof. unfold setupContainerDns, getRootResourcePath. keep. Qed.

Lemma buildHostnameFile_calm id : keeps calm (buildHostnameFile id).
Proof. unfold buildHostnameFile, getRootResourcePath. keep. Qed.

Lemma linked_hosts_calm l : forall m, keeps calm (linked_hosts l m).
Proof. induction l as [|[a cid] l IH]; intros m; cbn [linked_hosts]; keep. Qed.

Hint Resolve setupContainerDns_calm buildHostnameFile_calm linked_hosts_calm : keeps.

Lemma buildHosts_calm id ip : keeps calm (buildHostnameAndHostsFiles id ip).
Proof. unfold buildHostnameAndHostsFiles, getRootResourcePath. keep. Qed.

Lemma getNetworkedContainer_calm c : keeps calm (getNetworkedContainer c).
Proof. unfold getNetworkedContainer. keep. Qed.

Lemma host_name_calm id : keeps calm (host_name id).
Proof. unfold host_name. keep. Qed.

Lemma verifyDaemonSettings_calm id : keeps calm (verifyDaemonSettings id).
Proof. apply calm_set. intros c. by destruct (limits _ _). Qed.

Lemma setupWorkingDirectory_calm id : keeps calm (setupWorkingDirectory id).
Proof. unfold setupWorkingDirectory, getResourcePath. keep. Qed.

Hint Resolve buildHosts_calm getNetworkedContainer_calm host_name_calm verifyDaemonSettings_calm setupWorkingDirectory_calm : keeps.

Lemma populateCommand_calm id env : keeps calm (populateCommand id env).
Proof. unfold populateCommand, command_network. keep. Qed.

Lemma startLogging_calm id : keeps calm (startLoggingToDisk id).
Proof. unfold startLoggingToDisk, getRootResourcePath. keep. Qed.

Hint Resolve populateCommand_calm startLogging_calm : keeps.

(** *** Links *)

(** The job link only changes the kernel. *)
Lemma link_job_like args env ports n n' r : link_job args env ports n = Return (n', r) -> net_like n n'.
Proof.
  unfold link_job, bridge_link_job, LinkContainers. destruct (head args); [|done]. cbn. destruct (link_ports _ _ _ _ _ _ _ _ _ _) as [[w e]| |]; [|done|done].
  cbn. intros [= <- <-]. by repeat split.
Qed.

Lemma Enable_like l n n' l' e : Enable link_job l n = Return (n', l', e) -> net_like n n'.
Proof.
  unfold Enable, toggle. destruct (link_job _ _ _ _) as [[n1 r]| |] eqn:E; [|done|done]. apply link_job_like in E. cbn. destruct r; by intros [= <- <- <-].
Qed.

Lemma Disable_like l n n' l' : Disable link_job l n = Return (n', l') -> net_like n n' /\ IsEnabled l' = false.
Proof.
  unfold Disable, toggle. destruct (link_job _ _ _ _) as [[n1 r]| |] eqn:E; [|done|done]. apply link_job_like in E. cbn. by intros [= <- <-].
Qed.

Lemma on_link_calm {A} id alias (f : Link -> Driver W -> outcome (Driver W * Link * A)) :
  (forall l n n' l' a, f l n = Return (n', l', a) -> net_like n n') -> keeps calm (on_link id alias f).
Proof.
  intros Hf w. unfold on_link. apply leads_bind, leads_container. intros c Ec. apply leads_bind, leads_attempt. intros l _.
  apply leads_bind, leads_get_state, leads_bind, leads_attempt. intros [[n l'] a] E%Hf. apply leads_bind, leads_update, leads_bind, leads_update, leads_ret.
  split; [exact E|]. split; [done|]. intros j. cbn. destruct (decide (j = id)) as [->|Hne].
  - rewrite lookup_alter_eq, Ec. by split.
  - by rewrite lookup_alter_ne.
Qed.

Lemma Enable_link_calm id alias : keeps calm (Enable_link id alias).
Proof.
  assert (keeps calm (on_link id alias (Enable link_job))) as He by (apply on_link_calm; intros l n n' l' a; apply Enable_like). unfold Enable_link. keep.
Qed.

Lemma Disable_link_calm id alias : keeps calm (Disable_link id alias).
Proof.
  apply on_link_calm. intros l n n' l' a. destruct (Disable link_job l n) as [[n1 l1]| |] eqn:E; [|done|done]. apply Disable_like in E as [E _].
  cbn. by intros [= <- <- <-].
Qed.

Hint Resolve Enable_link_calm Disable_link_calm : keeps.

Lemma disable_links_calm id : keeps calm (disable_links id).
Proof. unfold disable_links. keep. Qed.

Hint Resolve disable_links_calm : keeps.

Lemma link_children_calm id l : keeps calm (link_children id l).
Proof.
  assert (forall alias, keeps calm (on_link id alias (fun l n => '(l, vars) ← ToEnv l; Return (n, l, vars)))) as Hv.
  { intros alias. apply on_link_calm. intros lk n n' l' vars. destruct (ToEnv lk) as [[lk' vs]| |]; [|done|done]. cbn. by intros [= <- <- <-]. }
  induction l as [|[a cid] l IH]; cbn [link_children]; [keep|]. unfold set_link, rollback. keep.
Qed.

Hint Resolve link_children_calm : keeps.

Lemma setupLinkedContainers_calm id : keeps calm (setupLinkedContainers id).
Proof. unfold setupLinkedContainers. keep. Qed.

Hint Resolve setupLinkedContainers_calm : keeps.

Lemma alter_there {A} (f : A -> A) (m : gmap string A) i x : m !! i = Some x -> alter f i m = <[i := f x]> m.
Proof.
  intros Hx. apply map_eq. intros j. destruct (decide (j = i)) as [->|]; [by rewrite lookup_alter_eq, lookup_insert_eq, Hx|].
  by rewrite lookup_alter_ne, lookup_insert_ne.
Qed.

Lemma on_link_spec {A} id alias (f : Link -> Driver W -> outcome (Driver W * Link * A)) (w : World) (Q : World -> result string A -> Prop) :
  (forall c m l n l' a, containers w !! id = Some c -> activeLinks c = Some m -> m !! alias = Some l -> f l (net w) = Return (n, l', a) ->
    Q (with_containers (<[id := with_links (Some (<[alias := l']> m)) c]> (containers w)) (with_net n w)) (Ok a)) -> leads (on_link id alias f) w Q.
Proof.
  intros HQ. unfold on_link. apply leads_bind, leads_container. intros c Hc. apply leads_bind, leads_attempt. intros l Hl.
  destruct (activeLinks c) as [m|] eqn:Em; [|done]. cbn in Hl. destruct (m !! alias) as [l0|] eqn:El; [|done]. injection Hl as ->.
  apply leads_bind, leads_get_state, leads_bind, leads_attempt. intros [[n l'] a] E. apply leads_bind, leads_update, leads_bind, leads_update, leads_ret.
  specialize (HQ c m l n l' a Hc Em El E). unfold with_containers in *. cbn in *. rewrite (alter_there _ _ _ _ Hc), Em. exact HQ.
Qed.

Hypothesis range_links_all : forall m alias, is_Some (m !! alias) -> alias ∈ range_links m.

Definition links_off (id : string) (w : World) : Prop :=
  forall c m alias l, containers w !! id = Some c -> activeLinks c = Some m -> m !! alias = Some l -> IsEnabled l = false.

Lemma disable_links_spec id (w : World) : leads (disable_links id) w (fun w' r => links_off id w' /\ r = Ok ()).
Proof.
  unfold disable_links. apply leads_bind, leads_container. intros c Hc. destruct (activeLinks c) as [m|] eqn:Em.
  2: { apply leads_ret. split; [|done]. intros c' m' alias l Hc' Hm'. congruence. }
  eapply leads_mono; [apply (leads_for_each (Disable_link id)
    (fun k s => exists c m', containers s !! id = Some c /\ activeLinks c = Some m' /\ dom m' = dom m /\ forall a l, a ∈ k -> m' !! a = Some l -> IsEnabled l = false)
    (fun _ _ => False))|].
  - intros ks x s _ (c1 & m1 & Hc1 & Hm1 & Hdom & Hoff). apply on_link_spec. intros c2 m2 l n l' [] Hc2 Hm2 Hl E.
    rewrite Hc1 in Hc2. injection Hc2 as <-. rewrite Hm1 in Hm2. injection Hm2 as <-.
    assert (IsEnabled l' = false) as Hl'. { revert E. destruct (Disable link_job l (net s)) as [[n1 l1]| |] eqn:E; [|done|done]. apply Disable_like in E as [_ E]. cbn. by intros [= <- <-]. }
    eexists _, (<[x := l']> m1). cbn. rewrite lookup_insert_eq. split; [done|]. split; [done|]. split; [rewrite dom_insert_lookup_L by (by eexists); exact Hdom|].
    intros a la Ha. destruct (decide (a = x)) as [->|Hne]; [rewrite lookup_insert_eq; by intros [= <-]|]. rewrite lookup_insert_ne by done. apply Hoff. set_solver.
  - exists c, m. split; [done|]. split; [done|]. split; [done|]. set_solver.
  - intros w' [[]|e] Hr; [|done]. split; [|done]. destruct Hr as (c1 & m1 & Hc1 & Hm1 & Hdom & Hoff). intros c2 m2 alias l Hc2 Hm2 Hl.
    rewrite Hc1 in Hc2. injection Hc2 as <-. rewrite Hm1 in Hm2. injection Hm2 as <-. apply (Hoff alias); [|done].
    apply range_links_all. apply elem_of_dom. rewrite <- Hdom. apply elem_of_dom. by eexists.
Qed.

Lemma disable_links_ok id (w : World) : leads (disable_links id) w (fun _ r => r = Ok ()).
Proof. eapply leads_mono; [apply disable_links_spec|]. by intros w' r [_ ->]. Qed.

Lemma monitor_callback_ok id pid (w : World) w' e : monitor_callback id pid w = Return (w', Err e) -> False.
Proof.
  revert w' e. assert (leads (monitor_callback id pid) w (fun _ r => r = Ok ())) as Hm; [|intros w' e E; by specialize (Hm _ _ E)].
  unfold monitor_callback. apply leads_bind, leads_get_state, leads_bind, leads_container. intros c _. apply leads_bind, leads_attempt. intros [st cs] _.
  apply leads_bind, leads_update, leads_bind, leads_update, leads_bind, leads_container. intros c2 _. apply leads_bind, leads_try, leads_calls. by apply leads_ret.
Qed.

(** ** The account of a start *)

Section Account.
Context (id : string) (w0 : World) (k : nat).
Hypothesis network_wf : wf_net4 (bridgeNetwork (net w0)) k.
Hypothesis network_size : (1 <= k)%nat.
Hypothesis no_address : ParseIP "" = None.
Hypothesis proxies_start : forall n i e a, proxy_start n i e a = None.

(** What the container holds, its mounts, and that nobody's state changed. *)
Record account (live : bool) (b : Z) (w : World) : Prop := {
  account_net : span id live (net w0) (net w);
  account_enabled : live = true -> exists c, containers w !! id = Some c /\ NetworkDisabled (config c) = false;
  account_mounts : mounts (Dev := Dev) (host w) id <= b;
  account_others : forall j, j <> id -> mounts (Dev := Dev) (host w) j = mounts (Dev := Dev) (host w0) j;
  account_states : forall j, state <$> containers w !! j = state <$> containers w0 !! j }.

Lemma account_calm live b w w' : calm w w' -> account live b w -> account live b w'.
Proof.
  intros (C1 & C2 & C3) [A1 A2 A3 A4 A5]. split.
  - by eapply span_like.
  - intros Hl. destruct (A2 Hl) as (c & Hc & Hd). destruct (alike_there _ _ _ (C3 id) Hc) as (c' & Hc' & E). exists c'. split; [done|]. injection E. congruence.
  - by rewrite C2.
  - intros j Hj. rewrite C2. by apply A4.
  - intros j. rewrite <- A5. specialize (C3 j). unfold alike in C3. destruct (containers w !! j), (containers w' !! j); try done. injection C3 as E _ _ _ _ _. cbn. by rewrite E.
Qed.

Lemma account_leads {A} (m : ST World A) live b w (Q : World -> result string A -> Prop) :
  keeps calm m -> account live b w -> (forall w' r, account live b w' -> Q w' r) -> leads m w Q.
Proof. intros Hm Ha HQ. eapply leads_keeps; [exact Hm|]. intros w' r Hc. apply HQ. by eapply account_calm. Qed.

Lemma account_more live b b' w : b <= b' -> account live b w -> account live b' w.
Proof. intros Hb [A1 A2 A3 A4 A5]. split; try done. lia. Qed.

Lemma account_set live b w f : account live b w ->
  (forall c, containers w !! id = Some c -> state (f c) = state c /\ (NetworkDisabled (config c) = false -> live = true -> NetworkDisabled (config (f c)) = false)) ->
  leads (set_container id f) w (fun w' _ => account live b w').
Proof.
  intros [A1 A2 A3 A4 A5] Hf. apply leads_update. split; try done.
  - intros Hl. destruct (A2 Hl) as (c & Hc & Hd). exists (f c). cbn. rewrite lookup_alter_eq, Hc. split; [done|]. by apply Hf.
  - intros j. rewrite <- A5. cbn. destruct (decide (j = id)) as [->|]; [|by rewrite lookup_alter_ne].
    rewrite lookup_alter_eq. destruct (containers w !! id) as [c|]; [|done]. cbn. by rewrite (proj1 (Hf c eq_refl)).
Qed.

Lemma account_job f b b' live live' w :
  account live b w -> (forall n r, f (net w) = Return (n, r) -> span id (live' r) (net w0) n) ->
  (forall r, live' r = true -> exists c, containers w !! id = Some c /\ NetworkDisabled (config c) = false) -> b <= b' ->
  leads (job f) w (fun w' r => exists r', account (live' r') b' w' /\ is_ok r = is_ok r').
Proof.
  intros [A1 A2 A3 A4 A5] Hf Hl Hb w' r. unfold job. destruct (f (net w)) as [[n r']| |] eqn:E; [|done|done]. cbn. intros [= <- <-].
  exists r'. split; [|by destruct r']. specialize (Hf n r' eq_refl). split; try done; [|cbn; lia]. apply Hl.
Qed.

Lemma account_release live b w : account live b w -> leads (release_interface id) w (fun w' _ => account false b w').
Proof.
  intros Ha. eapply leads_mono; [apply (account_job _ b b live (fun _ => false) w Ha)|]; [|done|lia|].
  - intros n r E. eapply (span_Release _ _ _ ParseIP k); [done|done|apply Ha|exact E].
  - intros w' r (r' & Hr & _). exact Hr.
Qed.

Lemma account_allocate b w c : account false b w -> containers w !! id = Some c -> NetworkDisabled (config c) = false ->
  leads (allocate_interface id) w (fun w' r => account (is_ok r) b w').
Proof.
  intros Ha Hc Hd. eapply leads_mono; [apply (account_job _ b b false (fun r => is_ok r) w Ha)|]; [|by eauto|lia|].
  - intros n r E. pose proof (span_Allocate _ k id _ _ _ _ network_wf network_size no_address (account_net _ _ _ Ha) E). by destruct r.
  - intros w' r (r' & Hr & E). by rewrite E.
Qed.

Lemma account_port b w env : account true b w -> leads (allocate_port id env) w (fun w' _ => account true b w').
Proof.
  intros Ha. eapply leads_mono; [apply (account_job _ b b true (fun _ => true) w Ha)|]; [|intros _ _; by apply Ha|lia|].
  - intros n r E. eapply span_AllocatePort; [apply proxies_start|apply Ha|exact E].
  - intros w' r (r' & Hr & _). exact Hr.
Qed.

Lemma account_bindings b port l : forall w, account true b w ->
  leads (allocate_bindings id port l) w (fun w' r => account (is_ok r) b w').
Proof.
  induction l as [|x l IH]; intros w Ha; cbn [allocate_bindings]; [by apply leads_ret|]. apply leads_bind, leads_try.
  eapply leads_mono; [by apply account_port|]. intros w1 [env|e] H1.
  - apply leads_bind. eapply leads_mono; [by apply IH|]. intros w2 [rest|e] H2; [by apply leads_ret|done].
  - apply leads_bind, leads_try. eapply leads_mono; [by eapply account_release|]. intros w2 r H2. by apply leads_throw.
Qed.

Lemma account_ports b ports : forall m w, account true b w -> leads (allocate_ports id m ports) w (fun w' r => account (is_ok r) b w').
Proof.
  induction ports as [|p ports IH]; intros m w Ha; cbn [allocate_ports]; [by apply leads_ret|]. apply leads_bind. unfold allocatePort.
  apply leads_bind, leads_container. intros c _. apply leads_bind. eapply leads_mono; [by apply account_bindings|]. intros w1 [bs|e] H1; [|done].
  apply leads_ret. by apply IH.
Qed.

Lemma migrate_disabled cfg hc cfg' hc' : migratePortMappings cfg hc = Ok (cfg', hc') -> NetworkDisabled cfg' = NetworkDisabled cfg.
Proof. unfold migratePortMappings. destruct (PortSpecs cfg); [by intros [= <- <-]|]. destruct (ParsePortSpecs _ _) as [[ps bs]|e]; [|done]. by intros [= <- <-]. Qed.

Lemma account_allocateNetwork b w : account false b w -> leads (allocateNetwork id) w (fun w' _ => exists live, account live b w').
Proof.
  intros Ha. unfold allocateNetwork. apply leads_bind, leads_container. intros c Hc. destruct (NetworkDisabled (config c)) eqn:Hd; cbn [orb]; [apply leads_ret; by exists false|].
  destruct (_ || _); [apply leads_ret; by exists false|]. apply leads_bind. eapply leads_mono; [by eapply account_allocate|].
  intros w1 [env|e] H1; [|by eexists]. cbn [is_ok] in H1. apply leads_bind.
  assert (leads (if nonempty (PortSpecs (config c)) then
      '(cfg, hc) ← lift (migratePortMappings (config c) (hostConfig c));
      set_container id (fun c => with_hostConfig hc (with_config cfg c));; call (fun h => write_hostConfig h id hc) else mret ()) w1
      (fun w' _ => account true b w')) as Hm.
  { destruct (nonempty _); [|by apply leads_ret]. apply leads_bind, leads_lift. destruct (migratePortMappings _ _) as [[cfg hc]|e] eqn:Em; [|done].
    apply migrate_disabled in Em. apply leads_bind. eapply leads_mono; [apply (account_set true b w1 _ H1)|].
    - intros c' _. split; [done|]. intros _ _. cbn. congruence.
    - intros w2 [[]|e] H2; [|done]. eapply account_leads; [keep|exact H2|done]. }
  eapply leads_mono; [exact Hm|]. clear Hm. intros w2 [[]|e] H2; [|by exists true]. apply leads_bind, leads_container. intros c2 _.
  apply leads_bind. eapply leads_mono; [by apply account_ports|]. intros w3 [bs|e] H3; [|by eexists]. cbn [is_ok] in H3.
  apply leads_bind. eapply account_leads; [keep|exact H3|]. intros w4 [x|e] H4; [|by exists true].
  eapply leads_mono; [apply (account_set true b w4 _ H4); intros c1 _; by split|]. intros w5 r H5. by exists true.
Qed.

Lemma account_initialize b w : account false b w -> leads (initializeNetworking id) w (fun w' _ => exists live, account live b w').
Proof.
  intros Ha. unfold initializeNetworking. apply leads_bind, leads_container. intros c Hc.
  destruct (IsHost _); [eapply account_leads; [unfold getRootResourcePath; keep|exact Ha|by eauto]|].
  destruct (IsContainer _).
  { eapply account_leads; [|exact Ha|by eauto]. apply keep_bind; [typeclasses eauto|keep|]. intros [cid nc]. keep. }
  destruct DisableNetwork.
  { apply leads_bind. eapply leads_mono; [apply (account_set false b w _ Ha); intros c1 _; by split|]. intros w1 [[]|e] H1; [|by eauto].
    eapply account_leads; [keep|exact H1|by eauto]. }
  apply leads_bind. eapply leads_mono; [by apply account_allocateNetwork|]. intros w1 [[]|e] [live H1]; [|by eauto].
  eapply account_leads; [keep|exact H1|by eauto].
Qed.

Lemma account_Mount live b w : account live b w -> leads (Mount id) w (fun w' _ => account live (b + 1) w').
Proof.
  intros [A1 A2 A3 A4 A5]. apply leads_calls. pose proof (mount_adds (host w) id) as Hm. destruct (Mount_container (host w) id) as [h r]. cbn in *. split; try done.
  - cbn. rewrite Hm, decide_True by done. destruct r; lia.
  - intros j Hj. cbn. rewrite Hm, decide_False by done. rewrite A4 by done. lia.
Qed.

Lemma account_Unmount live b w : account live b w -> leads (Unmount id) w (fun w' _ => account live (0 `max` (b - 1)) w').
Proof.
  intros [A1 A2 A3 A4 A5]. apply leads_calls. pose proof (unmount_takes (host w) id) as Hm. destruct (Unmount_container (host w) id) as [h r]. cbn in *. split; try done.
  - cbn. rewrite Hm, decide_True by done. lia.
  - intros j Hj. cbn. rewrite Hm, decide_False by done. by apply A4.
Qed.

Lemma account_releaseNetwork live b w : account live b w -> leads (releaseNetwork id) w (fun w' r => account false b w' /\ r = Ok ()).
Proof.
  intros Ha. unfold releaseNetwork. apply leads_bind, leads_container. intros c Hc. destruct (NetworkDisabled (config c)) eqn:Hd.
  - apply leads_ret. split; [|done]. destruct live; [|done]. destruct (account_enabled _ _ _ Ha eq_refl) as (c' & Hc' & Hd'). congruence.
  - apply leads_bind, leads_try. eapply leads_mono; [by eapply account_release|]. intros w1 r1 H1.
    eapply leads_mono; [apply leads_and; [apply (account_set false b w1 _ H1); intros c1 _; by split|by apply (leads_update _ _ (fun _ r => r = Ok ()))]|]. by intros w2 r [? ?].
Qed.

Lemma account_cleanup live b w : account live b w -> leads (cleanup id) w (fun w' _ => account false (0 `max` (b - 1)) w').
Proof.
  intros Ha. unfold cleanup. apply leads_bind. eapply leads_mono; [by eapply account_releaseNetwork|]. intros w1 r [H1 ->].
  apply leads_bind. eapply leads_mono; [apply leads_and; [eapply account_leads; [apply disable_links_calm|exact H1|exact (fun _ _ x => x)]|apply disable_links_ok]|].
  intros w2 r [H2 ->]. apply leads_bind, leads_try. eapply leads_mono; [by apply account_Unmount|]. intros w3 r3 H3. by apply leads_ret.
Qed.

Lemma account_waitForStart live b w : 0 <= b -> account live b w ->
  leads (waitForStart id) w (fun w' r => match r with Ok _ => True | Err _ => exists live, account live b w' end).
Proof.
  intros Hb Ha. unfold waitForStart. apply leads_bind, leads_try. eapply account_leads; [keep|exact Ha|]. intros w1 [pid|e] H1.
  - intros w2 [[]|e] E; [done|]. exfalso. eapply monitor_callback_ok, E.
  - apply leads_bind. unfold monitor_Close. apply leads_bind. eapply leads_mono; [by eapply account_cleanup|]. intros w2 r H2.
    assert (account false b w2) as H2' by (eapply account_more; [|exact H2]; lia). destruct r; [|by eauto].
    eapply account_leads; [keep|exact H2'|]. intros w3 [[]|e3] H3; [|by eauto]. apply leads_throw. by eauto.
Qed.

(** A failing start has its steps accounted for. *)
Lemma account_steps b w : 0 <= b -> account false b w ->
  leads (start_steps id) w (fun w' r => match r with Ok _ => True | Err _ => exists live, account live (b + 1) w' end).
Proof.
  intros Hb Ha. unfold start_steps. apply leads_bind. eapply account_leads; [keep|exact Ha|].
  intros w1 [[]|e] H1; [|exists false; eapply account_more; [|exact H1]; lia]. apply leads_bind. eapply leads_mono; [by apply account_Mount|].
  intros w2 [[]|e] H2; [|by eauto]. apply leads_bind. eapply leads_mono; [by apply account_initialize|]. intros w3 [[]|e] [live H3]; [|by eauto].
  apply leads_bind. eapply account_leads; [keep|exact H3|]. intros w4 [[]|e] H4; [|by eauto].
  apply leads_bind. eapply account_leads; [keep|exact H4|]. intros w5 [[]|e] H5; [|by eauto].
  apply leads_bind. eapply account_leads; [keep|exact H5|]. intros w6 [env|e] H6; [|by eauto].
  apply leads_bind. eapply account_leads; [keep|exact H6|]. intros w7 [[]|e] H7; [|by eauto].
  apply leads_bind, leads_container. intros c _. apply leads_bind. eapply account_leads; [keep|exact H7|]. intros w8 [[]|e] H8; [|by eauto].
  apply leads_bind. eapply account_leads; [keep|exact H8|]. intros w9 [[]|e] H9; [|by eauto].
  eapply account_waitForStart; [lia|exact H9].
Qed.

End Account.

Lemma leads_on_error {A} (m : ST World ()) (body : ST World A) w (Q : World -> result string A -> Prop) :
  leads body w (fun w1 r => match r with Ok a => Q w1 (Ok a) | Err e => leads m w1 (fun w2 _ => Q w2 (Err e)) end) -> leads (on_error m body) w Q.
Proof.
  intros Hb w' r. unfold on_error. destruct (body w) as [[w1 r1]| |] eqn:E; [|done|done]. cbn. specialize (Hb w1 r1 E). destruct r1 as [a|e]; [by intros [= <- <-]|].
  destruct (m w1) as [[w2 r2]| |] eqn:E2; [|done|done]. cbn. intros [= <- <-]. by eapply Hb.
Qed.

Lemma cleanup_links_off id (w : World) : leads (cleanup id) w (fun w' r => links_off id w' \/ r <> Ok ()).
Proof.
  unfold cleanup. apply leads_bind. intros w1 [[]|e] E1; [|by right]. apply leads_bind. eapply leads_mono; [apply disable_links_spec|]. intros w2 r [H2 ->].
  apply leads_bind, leads_try, leads_calls. destruct (Unmount_container (host w2) id) as [h r]. apply leads_ret. left. exact H2.
Qed.

Lemma releaseNetwork_ok id (w : World) : leads (releaseNetwork id) w (fun _ r => r = Ok ()).
Proof.
  unfold releaseNetwork. apply leads_bind, leads_container. intros c _. destruct (NetworkDisabled _); [by apply leads_ret|].
  apply leads_bind, leads_try. intros w1 r _. by apply leads_update.
Qed.

Lemma cleanup_ok id (w : World) : leads (cleanup id) w (fun _ r => r = Ok ()).
Proof.
  unfold cleanup. apply leads_bind. eapply leads_mono; [apply releaseNetwork_ok|]. intros w1 r ->. apply leads_bind.
  eapply leads_mono; [apply disable_links_ok|]. intros w2 r ->. apply leads_bind, leads_try. intros w3 r _. by apply leads_ret.
Qed.

(** C38. A start that fails leaves nothing behind, whichever of its steps
    fails, as long as the proxies that are asked for start (the port mapper
    leaves the mapping of one that does not) and the interface the driver
    lists for the container, if any, is nobody's ([Start_takes_others]): the
    published ports, the proxies and the pool of addresses are as before, and
    so are the interfaces of other containers; the container's own interface
    is one nobody uses; its file system is mounted no more often than before,
    those of others exactly as often; its links are disabled, and no
    container's state has changed. *)
Theorem Start_failed id k c (w w' : World) e :
  wf_net4 (bridgeNetwork (net w)) k -> (1 <= k)%nat -> ParseIP "" = None -> (forall n i env a, proxy_start n i env a = None) ->
  0 <= pool_last (net w) -> (forall i, currentInterfaces (net w) !! id = Some i -> idle (net w) i) ->
  containers w !! id = Some c -> IsRunning (state c) = false ->
  Start id w = Return (w', Err e) ->
  (forall j, j <> id -> currentInterfaces (net w') !! j = currentInterfaces (net w) !! j) /\
  (forall i, currentInterfaces (net w') !! id = Some i -> idle (net w) i) /\
  currentMappings (mapper (net w')) = currentMappings (mapper (net w)) /\ proxies (mapper (net w')) ≡ₚ proxies (mapper (net w)) /\
  positions (net w') = positions (net w) /\
  mounts (Dev := Dev) (host w') id <= mounts (Dev := Dev) (host w) id /\
  (forall j, j <> id -> mounts (Dev := Dev) (host w') j = mounts (Dev := Dev) (host w) j) /\
  (forall j, state <$> containers w' !! j = state <$> containers w !! j) /\ links_off id w'.
Proof.
  intros Hw Hk Hp Hs Hl Hi Hc Hr E. pose proof (mounts_nonneg (Dev := Dev) (host w) id) as Hm.
  assert (account id w false (mounts (Dev := Dev) (host w) id) w) as Hstart by (split; try done; by apply span_refl).
  assert (leads (Start id) w (fun w' r => match r with Ok _ => True | Err _ => account id w false (mounts (Dev := Dev) (host w) id) w' /\ links_off id w' end)) as Hlead.
  { unfold Start. apply leads_bind, leads_container. intros c' Hc'. rewrite Hc in Hc'. injection Hc' as <-. rewrite Hr.
    apply leads_on_error. eapply leads_mono; [by apply (account_steps id w k)|]. intros w1 [[]|e1]; [done|]. intros [live H1].
    eapply leads_mono; [apply leads_and; [by eapply (account_cleanup id w k)|apply leads_and; [apply cleanup_links_off|apply cleanup_ok]]|].
    intros w2 r (H2 & Hoff & ->). split; [eapply account_more; [exact Hk| |exact H2]; lia|]. by destruct Hoff. }
  destruct (Hlead w' (Err e) E) as [[[S1 S2 S3 S4 S5 (S6 & S7 & S8)] A2 A3 A4 A5] Hoff]. done.
Qed.

(** ** What a failing start takes from others *)

Lemma takes_others id c i a (w : World) e :
  containers w !! id = Some c -> IsRunning (state c) = false -> Startup.ResolvConfPath c <> "" -> NetworkDisabled (config c) = false ->
  (Mount_container (host w) id).2 = Err e -> currentInterfaces (net w) !! id = Some i -> a ∈ PortMappings i ->
  leads (Start id) w (fun w' r => r = Err e /\ currentMappings (mapper (net w')) !! getKey a = None /\
    mounts (Dev := Dev) (host w') id = 0 `max` (mounts (Dev := Dev) (host w) id - 1)).
Proof.
  intros Hc Hr Hdns Hd Hm Hi Ha. unfold Start. apply leads_bind, leads_container. intros c' Hc'. rewrite Hc in Hc'. injection Hc' as <-. rewrite Hr. apply leads_on_error.
  unfold start_steps. apply leads_bind. unfold setupContainerDns. apply leads_bind, leads_container. intros c' Hc'. rewrite Hc in Hc'. injection Hc' as <-.
  apply String.eqb_neq in Hdns as ->. cbn [negb]. apply leads_ret. apply leads_bind, leads_calls. pose proof (mount_adds (host w) id id) as Hadd.
  destruct (Mount_container (host w) id) as [h r]. cbn in Hm, Hadd. subst r. cbn [fst snd]. rewrite decide_True in Hadd by done.
  unfold cleanup. apply leads_bind. unfold releaseNetwork. apply leads_bind, leads_container. intros c' Hc'. cbn in Hc'. rewrite Hc in Hc'. injection Hc' as <-.
  rewrite Hd. apply leads_bind, leads_try. intros w1 r1 E1. unfold release_interface, job in E1. cbn [net with_host] in E1.
  destruct (Release _ _ _ _ _) as [[n r2]| |] eqn:E; [|done|done]. apply (Release_takes _ _ _ _ _ _ _ _ _ Hi Ha) in E. cbn in E1. injection E1 as <- _.
  apply leads_update. apply leads_bind. eapply leads_mono; [apply leads_and; [eapply leads_keeps; [apply disable_links_calm|exact (fun _ _ x => x)]|apply disable_links_ok]|].
  intros w2 r3 [((_ & _ & _ & _ & Hcm & _) & Hmt & _) ->]. cbn in Hcm, Hmt. apply leads_bind, leads_try, leads_calls.
  pose proof (unmount_takes (host w2) id id) as Hun. destruct (Unmount_container (host w2) id) as [h3 r4]. cbn in Hun. apply leads_ret.
  split; [done|]. split; [cbn; by rewrite Hcm|]. cbn. rewrite Hun, decide_True by done. rewrite Hmt. cbn. rewrite Hadd. f_equal. lia.
Qed.

Lemma ensures_the_container id c (w : World) (Q : World -> result string (Startup.Container Dev) -> Prop) : containers w !! id = Some c -> Q w (Ok c) -> ensures (container id) w Q.
Proof. intros E HQ. exists w, (Ok c). unfold container. by rewrite E. Qed.

Lemma mount_failure_returns id c i k (w : World) e :
  containers w !! id = Some c -> IsRunning (state c) = false -> Startup.ResolvConfPath c <> "" -> activeLinks c = None ->
  (Mount_container (host w) id).2 = Err e -> currentInterfaces (net w) !! id = Some i ->
  wf_net4 (bridgeNetwork (net w)) k -> (1 <= k)%nat -> wf_ip4 (if_IP i) -> Contains (bridgeNetwork (net w)) (if_IP i) = true -> pool_wf (globalMap (mapper (net w))) ->
  exists w' r, Start id w = Return (w', r).
Proof.
  intros Hc Hr Hdns Hal Hm Hi Hw Hk Hip Hcon Hp. assert (ensures (Start id) w (fun _ _ => True)) as (w' & r & E & _); [|by eauto].
  unfold Start. apply ensures_bind. eapply ensures_the_container; [exact Hc|]. rewrite Hr.
  destruct (Mount_container (host w) id) as [h r] eqn:Em. cbn in Hm. subst r.
  assert (start_steps id w = Return (with_host h w, Err e)) as Hsteps.
  { unfold start_steps, setupContainerDns, container, Mount, call, calls, mbind, ST_bind. rewrite Hc. cbn. apply String.eqb_neq in Hdns. rewrite Hdns. cbn. by rewrite Em. }
  assert (exists n r, Release exec found supportsXlock [id] (net w) = Return (n, r)) as (n & rr & Hrel) by (by eapply Release_returns).
  assert (ensures (cleanup id) (with_host h w) (fun _ _ => True)) as (w2 & r2 & E2 & _).
  { unfold cleanup, releaseNetwork. apply ensures_bind, ensures_bind. eapply ensures_the_container; [exact Hc|].
    assert (forall w1 : World, containers w1 !! id = Some c \/ containers w1 !! id = Some (with_settings no_settings c) -> ensures (disable_links id;; try (Unmount id);; mret ()) w1 (fun _ _ => True)) as Hrest.
    { intros w1 Hw1. apply ensures_bind. unfold disable_links. apply ensures_bind. destruct Hw1 as [Hw1|Hw1]; (eapply ensures_the_container; [exact Hw1|]); cbn; rewrite ?Hal;
        apply ensures_ret, ensures_bind, ensures_try, ensures_calls; by apply ensures_ret. }
    destruct (NetworkDisabled (config c)); [apply ensures_ret, Hrest; by left|]. apply ensures_bind, ensures_try.
    unfold ensures at 1, release_interface, job. cbn [net with_host]. rewrite Hrel. cbn. eexists _, _. split; [reflexivity|].
    apply ensures_update, Hrest. right. cbn. by rewrite lookup_alter_eq, Hc. }
  unfold ensures, on_error. rewrite Hsteps. cbn. rewrite E2. cbn. by eauto.
Qed.

(** C40. A start that fails before it has a network of its own still releases
    one: it takes back every port the driver lists for the container from an
    earlier run, whoever has it now, and it undoes a mount that is not its own. *)
Theorem Start_takes_others id c i a k (w : World) e :
  containers w !! id = Some c -> IsRunning (state c) = false -> Startup.ResolvConfPath c <> "" -> NetworkDisabled (config c) = false -> activeLinks c = None ->
  (Mount_container (host w) id).2 = Err e -> currentInterfaces (net w) !! id = Some i -> a ∈ PortMappings i ->
  wf_net4 (bridgeNetwork (net w)) k -> (1 <= k)%nat -> wf_ip4 (if_IP i) -> Contains (bridgeNetwork (net w)) (if_IP i) = true -> pool_wf (globalMap (mapper (net w))) ->
  exists w', Start id w = Return (w', Err e) /\ currentMappings (mapper (net w')) !! getKey a = None /\
    mounts (Dev := Dev) (host w') id = 0 `max` (mounts (Dev := Dev) (host w) id - 1).
Proof.
  intros Hc Hr Hdns Hd Hal Hm Hi Ha Hw Hk Hip Hcon Hp. destruct (mount_failure_returns id c i k w e) as (w' & r & E); [done..|].
  destruct (takes_others id c i a w e Hc Hr Hdns Hd Hm Hi Ha w' r E) as (-> & H1 & H2). by exists w'.
Qed.

(** ** A container that runs *)

Hypothesis range_ports_all : forall m : PortSet, range_ports m ≡ₚ (map_to_list m).*1.

(** The bindings of a port that are asked for: those of the configuration,
    or one of any port when all are to be published. *)
Definition requested (hc : HostConfig) (p : string) : list PortBinding :=
  let b := default [] (PortBindings hc !! p) in if PublishAllPorts hc && negb (nonempty b) then [{| HostIp := ""; HostPort := "" |}] else b.

(** The ports and the configuration of the host a start goes by: the old form
    of the ports is translated. *)
Definition asked : Type := (option PortSet * HostConfig)%type.

Definition decided (c : Startup.Container Dev) : result string asked :=
  '(cfg, hc) ← migratePortMappings (config c) (hostConfig c); Ok (ExposedPorts cfg, hc).

Definition asks (c : Startup.Container Dev) : asked := (ExposedPorts (config c), hostConfig c).

Definition exposed (x : asked) : PortSet := default ∅ x.1.

(** The binding [b] of the port [p] is what [want] asks for, published. *)
Definition serves_binding (id : string) (n : Driver W) (p : string) (want b : PortBinding) : Prop :=
  published_at ParseIP id n (Proto p) (Port_ p) (HostIp want) (HostPort want) (HostIp b) (HostPort b).

(** Every binding that was asked for, in order, published. *)
Definition serves_port (id : string) (n : Driver W) (p : string) : list PortBinding -> list PortBinding -> Prop := Forall2 (serves_binding id n p).

Definition serves (x : asked) (id : string) (w : World) : Prop :=
  exists c i, containers w !! id = Some c /\ asks c = x /\ currentInterfaces (net w) !! id = Some i /\ IPAddress (Settings c) = IP_String (if_IP i) /\
    forall p, is_Some (exposed x !! p) -> serves_port id (net w) p (requested x.2 p) (default [] (Ports (Settings c) !! p)).

Lemma serves_port_grows id n n' p want bs : grows id n n' -> serves_port id n p want bs -> serves_port id n' p want bs.
Proof. intros Hg Hf. eapply Forall2_impl; [exact Hf|]. intros x b. by apply published_grows. Qed.

Definition part (c : Startup.Container Dev) : NetworkSettings * asked := (Settings c, asks c).

Lemma serves_alike x id (w w' : World) : net_like (net w) (net w') -> part <$> containers w' !! id = part <$> containers w !! id -> serves x id w -> serves x id w'.
Proof.
  intros Hn E (c & i & Hc & Hx & Hi & Hip & Hp). rewrite Hc in E. destruct (containers w' !! id) as [c'|] eqn:Hc'; [|done].
  cbn in E. injection E as E1 E2 E3. exists c', i. split; [done|]. split; [by rewrite <- Hx; unfold asks; rewrite E2, E3|].
  pose proof Hn as (_ & _ & Hifs & _). rewrite Hifs, E1. split; [done|]. split; [done|]. intros p Hp'.
  eapply serves_port_grows; [by apply net_like_grows|]. by apply Hp.
Qed.

Lemma serves_calm x id (w w' : World) : calm w w' -> serves x id w -> serves x id w'.
Proof.
  intros (Hn & _ & Ha). apply serves_alike; [done|]. specialize (Ha id). unfold alike in Ha. destruct (containers w !! id), (containers w' !! id); try done.
  injection Ha as _ _ _ E1 E2 E3. cbn. unfold part, asks. congruence.
Qed.

Lemma serves_leads {A} (m : ST World A) x id w (Q : World -> result string A -> Prop) :
  keeps calm m -> serves x id w -> (forall w' r, calm w w' -> serves x id w' -> Q w' r) -> leads m w Q.
Proof. intros Hm Hs HQ. eapply leads_keeps; [exact Hm|]. intros w' r Hc. apply HQ; [done|]. by eapply serves_calm. Qed.

(** *** The ports *)

(** The job changes nothing but the driver. *)
Lemma job_publishes id env (w : World) : leads (allocate_port id env) w (fun w' r => containers w' = containers w /\
  match r with
  | Ok out => grows id (net w) (net w') /\
      published_at ParseIP id (net w') (Env.Get env "Proto") (Env.Get env "ContainerPort") (Env.Get env "HostIP") (Env.Get env "HostPort") (Env.Get out "HostIP") (Env.Get out "HostPort")
  | Err _ => True
  end).
Proof.
  intros w' r. unfold allocate_port, job. destruct (AllocatePort _ _ _ _ _ _ _ _) as [[n [out|e]]| |] eqn:E; [| |done|done]; cbn; intros [= <- <-]; [|done].
  split; [done|]. eapply AllocatePort_publishes, E.
Qed.

Lemma bindings_publish id port l : forall w : World, leads (allocate_bindings id port l) w (fun w' r =>
  match r with Ok bs => containers w' = containers w /\ grows id (net w) (net w') /\ serves_port id (net w') port l bs | Err _ => True end).
Proof.
  induction l as [|x l IH]; intros w; cbn [allocate_bindings]; [apply leads_ret; split; [done|]; split; [reflexivity|constructor]|]. apply leads_bind, leads_try.
  eapply leads_mono; [apply job_publishes|]. intros w1 [out|e] [H1 H2].
  - destruct H2 as [Hg Hp]. apply leads_bind. eapply leads_mono; [apply IH|]. intros w2 [bs|e]; [|done]. intros (Hc & Hg2 & Hf). apply leads_ret.
    split; [congruence|]. split; [by etrans|]. constructor; [|done]. rewrite !Get_Set in Hp by done. exact (published_grows _ _ _ _ _ _ _ _ _ _ Hg2 Hp).
  - apply leads_bind, leads_try. intros w2 r _. by apply leads_throw.
Qed.

Lemma ports_publish id c ports : NoDup ports -> forall m (w : World), containers w !! id = Some c -> (forall p, p ∈ ports -> m !! p = PortBindings (hostConfig c) !! p) ->
  leads (allocate_ports id m ports) w (fun w' r =>
  match r with
  | Ok m' => containers w' = containers w /\ grows id (net w) (net w') /\ (forall p, (p ∉ ports) -> m' !! p = m !! p) /\
             forall p, p ∈ ports -> serves_port id (net w') p (requested (hostConfig c) p) (default [] (m' !! p))
  | Err _ => True
  end).
Proof.
  induction 1 as [|p ports Hnew _ IH]; intros m w Hc Hm; cbn [allocate_ports].
  { apply leads_ret. split; [done|]. split; [reflexivity|]. split; [done|]. set_solver. }
  apply leads_bind. unfold allocatePort. apply leads_bind, leads_container. intros c' Hc'. rewrite Hc in Hc'. injection Hc' as <-.
  rewrite (Hm p) by set_solver. fold (requested (hostConfig c) p). apply leads_bind. eapply leads_mono; [apply bindings_publish|]. intros w1 [bs|e]; [|done].
  intros (Hc1 & Hg1 & Hs1). apply leads_ret. eapply leads_mono; [apply IH; [by rewrite Hc1|]|].
  - intros q Hq. rewrite lookup_insert_ne by (intros ->; done). apply Hm. set_solver.
  - intros w2 [m'|e]; [|done]. intros (Hc2 & Hg2 & Hn & Hp). split; [congruence|]. split; [by etrans|]. split.
    + intros q Hq. rewrite Hn by set_solver. rewrite lookup_insert_ne; [done|]. set_solver.
    + intros q [->|Hq]%elem_of_cons; [|by apply Hp]. rewrite Hn by done. rewrite lookup_insert_eq. cbn. by eapply serves_port_grows.
Qed.

Lemma range_ports_spec (m : PortSet) : NoDup (range_ports m) /\ forall p, p ∈ range_ports m <-> is_Some (m !! p).
Proof.
  rewrite range_ports_all. split; [apply NoDup_fst_map_to_list|]. intros p. rewrite range_ports_all, list_elem_of_fmap. split.
  - intros ([q x] & -> & Hq). apply elem_of_map_to_list in Hq. by eexists.
  - intros [x Hx]. exists (p, x). split; [done|]. by apply elem_of_map_to_list.
Qed.

(** *** The network *)

Lemma decided_face c c' : face c' = face c -> decided c' = decided c.
Proof.
  intros E. injection E as _ _ E1 _ E2 E3. unfold decided, migratePortMappings. rewrite E1, E3. destruct (PortSpecs (config c)); [cbn; by rewrite E2|].
  match goal with |- context [ParsePortSpecs ?f ?l] => destruct (ParsePortSpecs f l) as [[ps bs]|e] end; cbn; [by rewrite E2|done].
Qed.

(** What a container says of its network mode. *)
Definition bridged (c : Startup.Container Dev) : Prop :=
  (NetMode (hostConfig c) = "bridge" \/ NetMode (hostConfig c) = "") /\ NetworkDisabled (config c) = false.

Lemma bridged_face c c' : face c' = face c -> bridged c -> bridged c'.
Proof. unfold bridged. intros E. injection E as _ E1 _ _ _ E2. by rewrite E1, E2. Qed.

Lemma bridged_modes c : bridged c -> IsContainer (NetMode (hostConfig c)) = false /\ IsHost (NetMode (hostConfig c)) = false.
Proof. intros [[-> | ->] _]; by split. Qed.

Lemma migrate_bridged c cfg hc : migratePortMappings (config c) (hostConfig c) = Ok (cfg, hc) -> bridged c -> bridged (with_hostConfig hc (with_config cfg c)).
Proof.
  intros E [Hm Hd]. pose proof (migrate_disabled _ _ _ _ E) as Hd'. split; [|exact (eq_trans Hd' Hd)]. cbn. revert E. unfold migratePortMappings.
  destruct (PortSpecs (config c)); [by intros [= _ <-]|]. destruct (ParsePortSpecs _ _) as [[ps bs]|e]; [|done]. cbn. intros [= _ <-]. by destruct (decide _).
Qed.

(** The container [id] on the bridge, whose ports are decided. *)
Definition on_bridge (x : asked) (id : string) (w : World) : Prop := exists c, containers w !! id = Some c /\ bridged c /\ asks c = x.

(** The old form of the ports is translated, and nothing else changes. *)
Lemma migrate_leads id c (w : World) (Q : World -> result string () -> Prop) : containers w !! id = Some c -> bridged c ->
  (forall w' x, decided c = Ok x -> on_bridge x id w' -> net w' = net w -> Q w' (Ok ())) -> (forall w' e, Q w' (Err e)) ->
  leads (if nonempty (PortSpecs (config c)) then
      '(cfg, hc) ← lift (migratePortMappings (config c) (hostConfig c));
      set_container id (fun c => with_hostConfig hc (with_config cfg c));; call (fun h => write_hostConfig h id hc) else mret ()) w Q.
Proof.
  intros Hc Hb HQ He. destruct (PortSpecs (config c)) eqn:Ep; cbn [nonempty].
  - apply leads_ret, (HQ w (asks c)); [|by exists c|done]. unfold decided, migratePortMappings. by rewrite Ep.
  - apply leads_bind, leads_lift. destruct (migratePortMappings _ _) as [[cfg hc]|e] eqn:Em; [|apply He]. apply leads_bind, leads_update, leads_calls.
    destruct (write_hostConfig _ _ _) as [h [[]|e]]; cbn [fst snd]; [|apply He]. apply (HQ _ (ExposedPorts cfg, hc)); [unfold decided; by rewrite Em| |done].
    eexists. cbn. rewrite lookup_alter_eq, Hc. split; [done|]. split; [by apply migrate_bridged|done].
Qed.

Lemma network_serves id c (w : World) : containers w !! id = Some c -> bridged c ->
  leads (allocateNetwork id) w (fun w' r => match r with Ok _ => exists x, decided c = Ok x /\ serves x id w' /\ on_bridge x id w' | Err _ => True end).
Proof.
  intros Hc Hb. destruct (bridged_modes c Hb) as [Hic Hih]. unfold allocateNetwork. apply leads_bind, leads_container. intros c' Hc'. rewrite Hc in Hc'. injection Hc' as <-.
  rewrite (proj2 Hb), Hic, Hih. cbn [orb]. apply leads_bind. intros w1 [env|e] E1; [|done].
  assert (containers w1 = containers w /\ exists ip, currentInterfaces (net w1) !! id = Some {| if_IP := ip; PortMappings := [] |} /\ Env.Get env "IP" = IP_String ip) as (Hc1 & ip & Hip & Henv).
  { revert E1. unfold allocate_interface, job. destruct (Allocate _ _ _ _) as [[n [out|e]]| |] eqn:E; [|done|done|done]. cbn. intros [= <- <-]. split; [done|]. by apply Allocate_interface in E. }
  apply leads_bind, (migrate_leads id c); [by rewrite Hc1|done| |done]. intros w2 x Hx (c2 & Hc2 & Hb2 & Ha) Hn. rewrite <- Hn in Hip.
  apply leads_bind, leads_container. intros c' Hc'. rewrite Hc2 in Hc'. injection Hc' as <-.
  destruct (range_ports_spec (default ∅ (ExposedPorts (config c2)))) as [Hnd Hran]. apply leads_bind. eapply leads_mono; [by apply (ports_publish id c2 _ Hnd)|].
  intros w3 [bs|e]; [|done]. intros (Hc3 & [Hg _] & _ & Hs). apply leads_bind, leads_try, leads_calls. destruct (write_hostConfig _ _ _) as [h r]. cbn [fst snd].
  apply leads_update. rewrite <- Hc3 in Hc2. exists x. split; [done|]. split; [|eexists; cbn; rewrite lookup_alter_eq, Hc2; by split].
  destruct (Hg _ Hip) as (i & Hi & Hifip & _). eexists _, i. cbn. rewrite lookup_alter_eq, Hc2.
  split; [done|]. split; [done|]. split; [done|]. split; [change (Env.Get env "IP" = IP_String (if_IP i)); by rewrite Henv, Hifip|].
  intros p Hp. cbn. rewrite <- Ha in Hp |- *. apply Hs. by apply Hran.
Qed.

(** *** The process *)

(** The host alone has changed. *)
Definition host_only (w w' : World) : Prop := net w' = net w /\ containers w' = containers w.

#[local] Instance host_only_order : PreOrder host_only.
Proof. split; [by intros w|]. intros w1 w2 w3 [A1 A2] [B1 B2]. split; congruence. Qed.

Lemma alone_call {A} (f : H -> H * result string A) : keeps host_only (call f).
Proof. apply keeps_calls. intros w. by destruct (f (host w)). Qed.

Lemma alone_ask {A} (f : H -> result string A) : keeps host_only (ask f).
Proof. by intros w w' r [= <- <-]. Qed.

Lemma host_only_attempt {A} (o : outcome A) : keeps host_only (attempt o).
Proof. intros w. by apply leads_attempt. Qed.

Lemma host_only_container id : keeps host_only (container id).
Proof. intros w. by apply leads_container. Qed.

Hint Resolve alone_call alone_ask host_only_attempt host_only_container : keeps.

(** The interface of the command has the address of the settings. *)
Definition wired (id : string) (w : World) : Prop :=
  exists c cmd ni, containers w !! id = Some c /\ command c = Some cmd /\ Interface (cmd_Network cmd) = Some ni /\ if_IPAddress ni = IPAddress (Settings c).

Lemma populateCommand_wired id env c (w : World) : containers w !! id = Some c -> NetMode (hostConfig c) = "bridge" \/ NetMode (hostConfig c) = "" ->
  NetworkDisabled (config c) = false -> leads (populateCommand id env) w (fun w' r => match r with Ok _ => wired id w' | Err _ => True end).
Proof.
  intros Hc Hm Hd. unfold populateCommand. apply leads_bind, leads_container. intros c' Hc'. rewrite Hc in Hc'. injection Hc' as <-.
  apply leads_bind. unfold command_network. set (en := {| Interface := Some _; Mtu := _; ContainerID := _; HostNetworking := _ |}).
  assert (leads (mret en) w (fun w' r => match r with
    | Ok en => leads (userSpecifiedDevices ← attempt (user_devices (Devices (hostConfig c)));
        context ← attempt (mergeLxcConfIntoOptions (LxcConf (hostConfig c)) {[ "process_label" := [GetProcessLabel c]; "mount_label" := [GetMountLabel c] ]});
        let cfg := config c in
        let resources := {| res_Memory := Memory cfg; res_MemorySwap := MemorySwap cfg; res_CpuShares := CpuShares cfg; res_Cpuset := Cpuset cfg |} in
        set_container id (with_command (Some
          {| cmd_ID := ID c; cmd_Privileged := Privileged (hostConfig c); Rootfs := rootfs c; InitPath := "/.dockerinit"; cmd_Entrypoint := Path c; Arguments := Args c;
             cmd_WorkingDir := WorkingDir cfg; cmd_Network := en; cmd_Tty := Tty cfg; cmd_User := User cfg; context := context; cmd_Resources := resources;
             AllowedDevices := DefaultAllowedDevices ++ userSpecifiedDevices; AutoCreatedDevices := DefaultAutoCreatedDevices ++ userSpecifiedDevices;
             cmd_CapAdd := CapAdd (hostConfig c); cmd_CapDrop := CapDrop (hostConfig c); cmd_Env := env; cmd_Mounts := [] |}))) w'
        (fun w' r => match r with Ok _ => wired id w' | Err _ => True end)
    | Err e => True end)) as Hen.
  { apply leads_ret, leads_bind, leads_attempt. intros ds _. apply leads_bind, leads_attempt. intros ctx _. apply leads_update.
    eexists _, _, _. cbn. rewrite lookup_alter_eq, Hc. by repeat split. }
  destruct Hm as [-> | ->]; rewrite Hd; exact Hen.
Qed.

Lemma in_volumes_wired {A} id (m : GoState.ST (@Volumes.World H) A) w : wired id w -> leads (in_volumes m) w (fun w' _ => wired id w').
Proof.
  intros (c & cmd & ni & Hc & Hcmd & Hni & Hip) w' r. unfold in_volumes. destruct (m _) as [[v r']| |]; [|done|done]. cbn. intros [= <- <-].
  unfold wired. cbn. rewrite map_lookup_imap, Hc. cbn. destruct (Volumes.store v !! id) as [vc|]; [|by exists c, cmd, ni].
  eexists _, _, ni. split; [done|]. cbn. rewrite Hcmd. by split.
Qed.

Lemma waitForStart_runs x id (w : World) : serves x id w -> wired id w -> leads (waitForStart id) w (fun w' r => match r with
  | Ok _ => serves x id w' /\ wired id w' /\ exists c, containers w' !! id = Some c /\ IsRunning (state c) = true
  | Err _ => True end).
Proof.
  intros Hs Hwired. unfold waitForStart. apply leads_bind, leads_try.
  match goal with |- leads ?m w _ => assert (keeps host_only m) as Hm by (unfold startLoggingToDisk, getRootResourcePath; keep) end.
  eapply leads_keeps; [exact Hm|]. clear Hm. intros w1 [pid|e] [Hn1 Hc1]; [|apply leads_bind; intros w2 [u|e2] _; [by apply leads_throw|done]].
  destruct Hwired as (c & cmd & ni & Hc & Hcmd & Hni & Hip).
  unfold monitor_callback. apply leads_bind, leads_get_state, leads_bind, leads_container. intros c' Hc'. rewrite Hc1, Hc in Hc'. injection Hc' as <-.
  apply leads_bind, leads_attempt. intros [st cs] Hst. apply leads_bind, leads_update, leads_bind, leads_update, leads_bind, leads_container. intros c2 _.
  apply leads_bind, leads_try, leads_calls. destruct (write_container _ _) as [h r]. apply leads_ret. cbn [fst snd].
  assert (State.Running st = true) as Hrun by (revert Hst; unfold SetRunning, fire; destruct (close_chan _ _); [|done|done]; cbn; by intros [= <- _]).
  split; [|split].
  - eapply serves_alike; [|..|exact Hs]; cbn; [by rewrite Hn1|]. by rewrite lookup_alter_eq, Hc1, Hc.
  - exists (with_state st c), cmd, ni. cbn. by rewrite lookup_alter_eq, Hc1, Hc.
  - exists (with_state st c). cbn. by rewrite lookup_alter_eq, Hc1, Hc.
Qed.

(** A container on the bridge whose ports will be [x]. *)
Definition fits (x : result string asked) (id : string) (w : World) : Prop := exists c, containers w !! id = Some c /\ bridged c /\ decided c = x.

Lemma fits_calm x id (w w' : World) : calm w w' -> fits x id w -> fits x id w'.
Proof.
  intros (_ & _ & Ha) (c & Hc & Hb & Hx). destruct (alike_there _ _ _ (Ha id) Hc) as (c' & Hc' & E). exists c'. split; [done|].
  split; [by eapply bridged_face|]. by rewrite (decided_face c c' E).
Qed.

(** What holds of a container between the network and the command. *)
Definition ready (d : result string asked) (id : string) (w : World) : Prop := exists x, d = Ok x /\ serves x id w /\ exists c, containers w !! id = Some c /\ bridged c.

Lemma ready_leads {A} (m : ST World A) d id w (Q : World -> result string A -> Prop) :
  keeps calm m -> ready d id w -> (forall w' r, ready d id w' -> Q w' r) -> leads m w Q.
Proof.
  intros Hm (x & Hd & Hs & c & Hc & Hb) HQ. eapply serves_leads; [exact Hm|exact Hs|]. intros w' r (_ & _ & Ha) Hs'. apply HQ. exists x. split; [done|]. split; [done|].
  destruct (alike_there _ _ _ (Ha id) Hc) as (c' & Hc' & E). exists c'. split; [done|]. by eapply bridged_face.
Qed.

Lemma initialize_serves d id (w : World) : DisableNetwork = false -> fits d id w ->
  leads (initializeNetworking id) w (fun w' r => match r with Ok _ => ready d id w' | Err _ => True end).
Proof.
  intros Hdn (c & Hc & Hb & Hd). unfold initializeNetworking. apply leads_bind, leads_container. intros c' Hc'. rewrite Hc in Hc'. injection Hc' as <-.
  destruct (bridged_modes c Hb) as [Hic Hh]. rewrite Hh, Hic, Hdn. apply leads_bind. eapply leads_mono; [by apply (network_serves id c)|].
  intros w1 [[]|e]; [|done]. intros (x & Hx & Hs & c1 & Hc1 & Hb1 & _). apply (ready_leads _ d id); [keep|exists x; split; [congruence|]; split; [done|by exists c1]|].
  intros w2 [[]|e]; [done|done].
Qed.

(** C39. When a container on the bridge starts, it runs with what its settings
    say: its address is that of its interface, and the one its command joins;
    and every port it exposes has the bindings that were asked for, in order
    (one when all ports are published and none was): each is a port of the
    host, at the address and of the number asked for, that is mapped to this
    port of the container's address, with a proxy. *)
Theorem Start_running id c (w w' : World) :
  containers w !! id = Some c -> IsRunning (state c) = false -> bridged c -> DisableNetwork = false ->
  Start id w = Return (w', Ok ()) ->
  exists x c' i cmd ni, decided c = Ok x /\ containers w' !! id = Some c' /\ asks c' = x /\ IsRunning (state c') = true /\ currentInterfaces (net w') !! id = Some i /\
    IPAddress (Settings c') = IP_String (if_IP i) /\ command c' = Some cmd /\ Interface (cmd_Network cmd) = Some ni /\ if_IPAddress ni = IPAddress (Settings c') /\
    forall p, is_Some (exposed x !! p) ->
      Forall2 (fun want b => published_at ParseIP id (net w') (Proto p) (Port_ p) (HostIp want) (HostPort want) (HostIp b) (HostPort b))
        (requested x.2 p) (default [] (Ports (Settings c') !! p)).
Proof.
  intros Hc Hr Hb Hdn E.
  set (Q := fun (w' : World) (r : result string ()) => match r with
    | Ok _ => exists x, decided c = Ok x /\ serves x id w' /\ wired id w' /\ exists c, containers w' !! id = Some c /\ IsRunning (state c) = true | Err _ => True end).
  assert (leads (start_steps id) w Q) as Hsteps.
  { unfold start_steps. apply leads_bind. eapply leads_keeps; [apply setupContainerDns_calm|]. intros w1 [[]|e] Hcalm; [|done].
    assert (fits (decided c) id w1) as Hf by (eapply fits_calm; [exact Hcalm|by exists c]). clear Hcalm.
    apply leads_bind, leads_calls. destruct (Mount_container (host w1) id) as [h [[]|e]]; [|done]. cbn [fst snd].
    apply leads_bind. eapply leads_mono; [by apply initialize_serves|]. intros w3 [[]|e] H3; [|done].
    apply leads_bind. eapply ready_leads; [keep|exact H3|]. intros w4 [[]|e] H4; [|done].
    apply leads_bind. eapply ready_leads; [keep|exact H4|]. intros w5 [[]|e] H5; [|done].
    apply leads_bind. eapply ready_leads; [keep|exact H5|]. intros w6 [env|e] H6; [|done].
    apply leads_bind. eapply ready_leads; [keep|exact H6|]. intros w7 [[]|e] H7; [|done].
    apply leads_bind, leads_container. intros c8 _. apply leads_bind. destruct H7 as (x & Hx & Hs7 & c7 & Hc7 & [Hm7 Hd7]).
    eapply leads_mono; [apply leads_and; [by eapply populateCommand_wired|eapply serves_leads; [apply populateCommand_calm|exact Hs7|exact (fun _ _ _ x => x)]]|].
    intros w8 [[]|e] [Hw8 Hs8]; [|done]. apply leads_bind.
    eapply leads_mono; [apply leads_and; [by apply in_volumes_wired|eapply serves_leads; [keep|exact Hs8|exact (fun _ _ _ x => x)]]|].
    intros w9 [[]|e] [Hw9 Hs9]; [|done]. eapply leads_mono; [by apply (waitForStart_runs x)|]. intros w10 [[]|e] H10; [|done]. by exists x. }
  assert (leads (Start id) w Q) as Hlead.
  { unfold Start. apply leads_bind, leads_container. intros c1 Hc1. rewrite Hc in Hc1. injection Hc1 as <-. rewrite Hr. apply leads_on_error.
    eapply leads_mono; [exact Hsteps|]. intros w1 [[]|e] H1; [exact H1|by intros ? ? _]. }
  destruct (Hlead _ _ E) as (x & Hx & (c1 & i & Hc1 & Ha & Hi & Hip & Hports) & (c2 & cmd & ni & Hc2 & Hcmd & Hni & Hnip) & c3 & Hc3 & Hrun).
  rewrite Hc1 in Hc2, Hc3. injection Hc2 as <-. injection Hc3 as <-. exists x, c1, i, cmd, ni. repeat (split; [done|]). exact Hports.
Qed.

End Started.
