(* ===== verification/StartDemo.v ===== *)
(** * Containers that start and that do not

    The witnesses of Started.v: a host whose driver counts mounts, and the
    bridge driver of the examples. *)

From stdpp Require Import base gmap gmultiset list strings.
From Stdlib Require Import ZArith Lia Ascii.
From S2P Require Import Prelude GoStrings GoPath GoSort GoState GoNet NetUtils Ports IPAlloc Env Parsers State Iptables PortMapper Bridge Lease RunConfig Links Resolv Symlink Volumes Startup Started.

Local Open Scope Z_scope.

(** The mounts, and whether mounting and running fail. *)
Record Machine := { counts : gmap string Z; mount_fails : bool; run_fails : bool }.

Definition counted (m : Machine) (i : string) : Z := 0 `max` default 0 (counts m !! i).

Definition with_count (m : Machine) (i : string) (n : Z) : Machine := {| counts := <[i := n]> (counts m); mount_fails := mount_fails m; run_fails := run_fails m |}.

#[export] Instance machine_volumes : VolumeHost Machine := {
  os_Stat _ _ := Found true; os_Lstat _ _ := NotLink; EvalSymlinks _ p := Ok p; os_MkdirAll h _ := (h, Ok ()); os_Create h _ := (h, Ok ());
  ReadDir _ _ := Ok []; CopyWithTar h _ _ := (h, Ok ()); owner_mode _ _ := Ok (0, 0, 493); os_Chown h _ _ _ := (h, Ok ()); os_Chmod h _ _ := (h, Ok ());
  volumes_Create h := (h, Ok "v"); driver_Get h vid := (h, Ok ("/volumes/" +:+ vid)); driver_name _ := "vfs";
  Mount_container h i := if mount_fails h then (h, Err "device busy") else (with_count h i (counted h i + 1), Ok ());
  Unmount_container h i := (with_count h i (counted h i - 1), Ok ()) }.

#[export] Instance machine_start : StartHost Machine string := {
  os_Hostname _ := Ok "host"; ReadFile _ _ := Content ("nameserver 8.8.8.8" +:+ newline); WriteFile h _ _ := (h, Ok ()); write_hostConfig h _ _ := (h, Ok ());
  write_container h _ := (h, Ok ()); open_log h _ := (h, Ok ()); driver_Run h _ := (h, if run_fails h then Err "no such command" else Ok 42); clock _ := 1000 }.

#[export] Instance machine_laws : MountLaws Machine string.
Proof.
  exists counted; try done.
  - intros h j. unfold counted. lia.
  - intros h i j. cbn. destruct (mount_fails h); cbn; [destruct (decide _); lia|]. unfold counted, with_count. cbn. destruct (decide (j = i)) as [->|].
    + rewrite lookup_insert_eq. cbn. unfold counted. lia.
    + rewrite lookup_insert_ne by done. lia.
  - intros h i j. cbn. unfold counted, with_count. cbn. destruct (decide (j = i)) as [->|]; [by rewrite lookup_insert_eq|by rewrite lookup_insert_ne].
Defined.

#[export] Instance demo_setup : Setup string (gmultiset (list string)) := {
  exec := toy_exec; found := true; supportsXlock := false; ParseIP := example_ParseIP; proxy_start _ _ _ _ := None; job_error _ := "job failed";
  range_ports m := (map_to_list m).*1; range_links m := (map_to_list m).*1; range_hosts m := map_to_list m; range_config m := (map_to_list m).*1;
  range_volumes m := map_to_list m; range_binds m := (map_to_list m).*2;
  daemon_Get n := Some n; daemon_Children n := if String.eqb n "/web" then Ok [("/web/db", "db")] else Ok []; RegisterLinks _ _ := Ok ();
  cwd := Ok "/"; daemon_Dns := []; daemon_DnsSearch := []; DisableNetwork := false; daemon_Mtu := 1500; sysInfo := {| MemoryLimit := true; SwapLimit := true |};
  GetDevice _ _ := None; set_path _ d := d; DefaultAllowedDevices := []; DefaultAutoCreatedDevices := [] }.

Definition demo_hostConfig : HostConfig :=
  {| RunConfig.Binds := []; ContainerIDFile := ""; LxcConf := []; Privileged := false; PortBindings := {["80/tcp" := [{| HostIp := ""; HostPort := "8080" |}]]};
     RunConfig.Links := []; PublishAllPorts := false; Dns := []; DnsSearch := []; RunConfig.VolumesFrom := []; Devices := []; NetMode := "bridge"; CapAdd := []; CapDrop := [];
     Restart := {| RunConfig.Name := ""; MaximumRetryCount := 0 |} |}.

Definition stopped : State.State := fst (NewState {| closed := ∅; next := 0 |}).
Definition running : State.State := State.with_paused false {| Running := true; Paused := false; Restarting := false; Pid := 7; ExitCode := 0; StartedAt := 0; FinishedAt := 0; waitChan := 1 |}.

Definition demo_container (id resolv : string) (st : State.State) : Startup.Container string :=
  {| ID := id; root := "/containers/" +:+ id; rootfs := "/rootfs/" +:+ id; Name := "/" +:+ id; Path := "/bin/sh"; Args := []; MountLabel := ""; ProcessLabel := "";
     config := demo_config ["A=1"] [] (Some {["80/tcp" := ()]}); hostConfig := demo_hostConfig; state := st; Settings := no_settings;
     Startup.ResolvConfPath := resolv; Startup.HostnamePath := ""; Startup.HostsPath := ""; Volumes := None; VolumesRW := None; activeLinks := None; command := None |}.

Definition demo_world (n : Driver (gmultiset (list string))) (mount_fails run_fails : bool) (mounted : Z) (resolv : string) : @Startup.World Machine string (gmultiset (list string)) :=
  {| Startup.host := {| counts := {["web" := mounted]}; mount_fails := mount_fails; run_fails := run_fails |}; net := n;
     containers := {["web" := demo_container "web" resolv stopped; "db" := demo_container "db" "/r" running]}; chans := {| closed := ∅; next := 2 |} |}.

Definition started (mount_fails run_fails : bool) : outcome (@Startup.World Machine string (gmultiset (list string)) * result string ()) :=
  Start "web" (demo_world example_driver mount_fails run_fails 0 "").

(** The addresses its settings name and its environment. *)
Definition summary (o : outcome (@Startup.World Machine string (gmultiset (list string)) * result string ())) : option (string * list PortBinding * option (list string) * bool) :=
  match o with
  | Return (w, _) => c ← containers w !! "web"; Some (IPAddress (Settings c), default [] (Startup.Ports (Settings c) !! "80/tcp"), cmd_Env <$> command c, State.IsRunning (state c))
  | _ => None
  end.

Lemma example_positions : 0 <= pool_last example_driver.
Proof. vm_compute. discriminate. Qed.

Lemma range_links_demo (m : gmap string Link) alias : is_Some (m !! alias) -> alias ∈ range_links (Setup := demo_setup) m.
Proof. change (range_links (Setup := demo_setup) m) with (map_to_list m).*1. intros [l Hl]. apply list_elem_of_fmap. exists (alias, l). split; [done|]. by apply elem_of_map_to_list. Qed.

(** The command does not run: the ports and the address are given back. *)
Lemma Start_failed_witness :
  exists w' e, Start "web" (demo_world example_driver false true 1 "") = Return (w', Err e) /\ currentMappings (mapper (net w')) = ∅ /\
    positions (net w') = ∅ /\ mounts (Dev := string) (Startup.host w') "web" <= 1 /\ links_off "web" w'.
Proof.
  assert (match Start "web" (demo_world example_driver false true 1 "") with Return (_, Err _) => True | _ => False end) as Hrun by (vm_compute; exact I).
  destruct (Start "web" (demo_world example_driver false true 1 "")) as [[w' [[]|e]]| |] eqn:E; [destruct Hrun| |destruct Hrun|destruct Hrun]. clear Hrun.
  exists w', e. split; [reflexivity|].
  destruct (Start_failed range_links_demo "web" 24 (demo_container "web" "" stopped) (demo_world example_driver false true 1 "") w' e example_net_wf) as (_ & _ & H1 & _ & H2 & H3 & _ & _ & H4);
    [lia|reflexivity|intros; reflexivity|exact example_positions|intros i Hi; vm_compute in Hi; discriminate Hi|vm_compute; reflexivity|reflexivity|exact E|].
  clear E. split; [exact H1|]. split; [exact H2|]. split; [|exact H4]. etransitivity; [exact H3|]. vm_compute. discriminate.
Defined.

Lemma range_ports_demo (m : PortSet) : range_ports (Setup := demo_setup) m ≡ₚ (map_to_list m).*1.
Proof. reflexivity. Qed.

Lemma Start_running_witness :
  exists w' c i, Start "web" (demo_world example_driver false false 0 "") = Return (w', Ok ()) /\ containers w' !! "web" = Some c /\
    currentInterfaces (net w') !! "web" = Some i /\ IPAddress (Settings c) = IP_String (if_IP i) /\ IsRunning (state c) = true /\
    exists b, Startup.Ports (Settings c) !! "80/tcp" = Some [b] /\ published_at example_ParseIP "web" (net w') "tcp" "80" "" "8080" (HostIp b) (HostPort b).
Proof.
  assert (match Start "web" (demo_world example_driver false false 0 "") with Return (_, Ok _) => True | _ => False end) as Hrun by (vm_compute; exact I).
  destruct (Start "web" (demo_world example_driver false false 0 "")) as [[w' [[]|e]]| |] eqn:E; [|destruct Hrun|destruct Hrun|destruct Hrun]. clear Hrun.
  destruct (Start_running range_links_demo range_ports_demo "web" (demo_container "web" "" stopped) (demo_world example_driver false false 0 "") w') as (x & c & i & cmd & ni & H0 & H1 & _ & H2 & H3 & H4 & _ & _ & _ & H5);
    [vm_compute; reflexivity|reflexivity|split; [left; reflexivity|reflexivity]|reflexivity|exact E|].
  clear E. exists w', c, i. split; [reflexivity|]. split; [exact H1|]. split; [exact H3|]. split; [exact H4|]. split; [exact H2|].
  assert (x = asks (demo_container "web" "" stopped)) as -> by (vm_compute in H0; injection H0 as <-; reflexivity). clear H0.
  specialize (H5 "80/tcp" ltac:(vm_compute; by eexists)).
  change (requested (asks (demo_container "web" "" stopped)).2 "80/tcp") with [{| HostIp := ""; HostPort := "8080" |}] in H5.
  apply Forall2_cons_inv_l in H5 as (b & l & Hb & ->%Forall2_nil_inv_l & El). exists b. split; [|exact Hb].
  destruct (Startup.Ports (Settings c) !! "80/tcp") as [bs|]; [|discriminate El]. cbn in El. by subst bs.
Defined.

(** "web" ran once; then "db" got its address and its port. *)
Definition port_env : Env.Env := ["Proto=tcp"; "ContainerPort=80"; "HostPort=8080"].
Definition publish (id : string) (s : Driver (gmultiset (list string))) : Driver (gmultiset (list string)) :=
  state_of (AllocatePort toy_exec true false example_ParseIP (fun _ => None) [id] port_env (state_of (Allocate example_ParseIP [id] [] s))).
Definition taken_over : Driver (gmultiset (list string)) := publish "db" (state_of (Release toy_exec true false ["web"] (publish "web" example_driver))).

Lemma taken_over_wf : wf_net4 (bridgeNetwork taken_over) 24.
Proof. assert (bridgeNetwork taken_over = example_net) as -> by (vm_compute; reflexivity). exact example_net_wf. Qed.

Lemma taken_over_pool : pool_wf (globalMap (mapper taken_over)).
Proof.
  assert (globalMap (mapper taken_over) = <["0.0.0.0" := <["tcp" := {| Ports.p := {[8080]}; Ports.last := 0 |}]> newProtoMap]> ∅) as -> by (vm_compute; reflexivity).
  apply pool_wf_insert; [apply map_Forall_empty|]. apply protoMap_wf_insert; [apply newProtoMap_wf|by left|by left].
Qed.

Lemma Start_takes_others_witness :
  is_Some (currentMappings (mapper taken_over) !! "0.0.0.0:8080/tcp") /\
  exists w', Start "web" (demo_world taken_over true false 1 "/r") = Return (w', Err "device busy") /\ currentMappings (mapper (net w')) !! "0.0.0.0:8080/tcp" = None /\
    mounts (Dev := string) (Startup.host w') "web" = 0.
Proof.
  split; [eexists; vm_compute; reflexivity|].
  destruct (Start_takes_others range_links_demo "web" (demo_container "web" "/r" stopped) {| if_IP := [192; 168; 1; 2]; PortMappings := [TCPAddr (IPv4 0 0 0 0) 8080] |}
    (TCPAddr (IPv4 0 0 0 0) 8080) 24 (demo_world taken_over true false 1 "/r") "device busy") as (w' & H0 & H1 & H2);
    [vm_compute; reflexivity|reflexivity|discriminate|reflexivity|reflexivity|reflexivity|vm_compute; reflexivity|apply list_elem_of_here|exact taken_over_wf|lia
    |repeat constructor; vm_compute; discriminate|vm_compute; reflexivity|exact taken_over_pool|].
  exists w'. split; [exact H0|]. split; [exact H1|]. rewrite H2. vm_compute. reflexivity.
Defined.

(** A device that is not there, an lxc option without a dot and the network
    mode container without a name: the start panics, after the network was
    allocated and the file system mounted, and nothing is cleaned up. *)
Definition demo_start (devices : list DeviceMapping) (lxc : list KeyValuePair) (mode : string) : outcome (@Startup.World Machine string (gmultiset (list string)) * result string ()) :=
  let hc := {| RunConfig.Binds := []; ContainerIDFile := ""; LxcConf := lxc; Privileged := false; PortBindings := ∅; RunConfig.Links := []; PublishAllPorts := false;
               Dns := []; DnsSearch := []; RunConfig.VolumesFrom := []; Devices := devices; NetMode := mode; CapAdd := []; CapDrop := [];
               Restart := {| RunConfig.Name := ""; MaximumRetryCount := 0 |} |} in
  Start "web" (Startup.with_containers (alter (with_hostConfig hc) "web" (containers (demo_world example_driver false false 0 ""))) (demo_world example_driver false false 0 "")).

Lemma start_panics :
  demo_start [{| PathOnHost := "/dev/nothing"; PathInContainer := "/dev/nothing"; CgroupPermissions := "rwm" |}] [] "bridge" = Panic /\
  demo_start [] [{| Key := "memory"; Value := "1" |}] "bridge" = Panic /\ demo_start [] [] "container" = Panic.
Proof. vm_compute. repeat split. Qed.
